(* ===== verification/_CoqProject ===== *)
-Q . S2P
Prelude.v
PyStr.v
PyVal.v
Glob.v
Regex.v
Datetime.v
Registry.v
RegistryFacts.v
Policy.v
PolicyFacts.v
PolicyGrants.v
World.v
Rpc.v
WorldFacts.v
RegistrySchema.v
Clarify.v
Proxy.v
RpcFacts.v
Ceilings.v
Overlay.v
Container.v
ProjectConfig.v
Snapshot.v
DeskSpec.v
Desks.v
DeskSpecFacts.v
Workload.v
WorkloadFacts.v
Storage.v
Broker.v
BrokerFacts.v
BrokerGrants.v
BrokerLeases.v
BrokerRelease.v
BrokerNames.v
DestroyFacts.v
SpawnFacts.v
Auditor.v
AuditorFacts.v
AuditQuery.v
Recovery.v
RecoveryFacts.v
ProjectConfigFacts.v
SnapshotFacts.v
Migration.v
MigrationExec.v
MigrationRecovery.v
MigrationFacts.v
MigrationRollback.v
MigrationRecoveryFacts.v
DaemonConfig.v
Daemon.v
Serve.v
DaemonFacts.v
DaemonInvariant.v
ServeFacts.v
RoleValidator.v
RoleValidatorFacts.v
Schedule.v
ScheduleFacts.v
Deskwatch.v
DeskwatchFacts.v
Measure.v
Watch.v
Deep.v
WatchFacts.v
Client.v
Tailnet.v
CliDesk.v
CliAdmin.v
CliSecret.v
HostAudit.v
CliRepo.v
CliAuditor.v
CliAuditorFacts.v
CliFacts.v
CliStatus.v
CliHost.v
CliHostFacts.v
Harbors.v
