(* ===== verification/Prelude.v ===== *)
(** Verification library for drydock (src/src/drydock): the harbor daemon that
    creates isolated worker containers ("desks", "docks") and brokers what they may
    reach. This root file is the prelude (last section); the rest is one file per
    component: [X.v] holds the translated definitions, and [XFacts.v] and its siblings the
    theorems, or the end of [X.v] where they are few.

    * The program

    A desk calls the daemon over a Unix socket with JSON-RPC. [daemon/server.py] parses
    the request, resolves its bearer token ([daemon/auth.py]) to a desk, and runs
    a handler; handlers that change state run under the task log
    ([daemon/rpc_common.py]), which replays the recorded outcome of a retried
    request id. Handlers read and write the SQLite registry ([core/registry.py]), append
    to the audit log ([core/audit.py]), run docker, git, devcontainer and the aws CLI as
    subprocesses, and write files into per-desk secret directories that the containers
    mount. [daemon/handlers.py] creates, resumes, stops and destroys desks; a desk may
    spawn children within its own policy ([core/policy.py]). The capability broker
    ([daemon/capability_handlers.py]) checks a request against that policy, mints or
    fetches what is asked for ([core/storage.py], [core/secrets.py]) and records a lease.
    Workload leases ([core/workload.py], [daemon/workload_handlers.py]) lift a container's
    cgroup ceilings ([core/resource_ceilings.py], [core/cgroup.py]) for a bounded time. The
    egress proxy's rule files follow [daemon/proxy_handlers.py]; workers ask questions
    through the sanitizer of [core/auditor/clarifier.py]; the Port Auditor acts on other
    desks through [daemon/auditor_handlers.py]. A migration ([core/migration.py],
    [core/migration_executor.py]) snapshots a desk ([core/snapshot.py]), changes it and rolls back
    on failure; [daemon/recovery.py] settles at startup what a crash left unfinished.

    * Files

    Python itself:
    - [PyStr]: the string methods the code uses, on Coq strings (a text is its bytes);
      and [pathlib] paths without links; [PyVal]: JSON values, floats and exceptions; [Glob]:
      [fnmatch.fnmatchcase]; [Regex]: regular expressions by derivatives, with Python's
      [$]; [Datetime]: aware UTC datetimes as microseconds since year 1, [isoformat] and
      [fromisoformat]: stored timestamps order as the times they
      denote, and parse back.

    State:
    - [Registry]: the database as a record of tables (lists of rows in rowid order) and every
      method of the [Registry] class as a query or a state-and-exception
      computation; CHECK, UNIQUE and PRIMARY KEY constraints raise [IntegrityError].
      [RegistryFacts]: the integrity invariant over every sequence of writes, and
      what leases, tokens, yards and the sweeps do.
    - [RegistrySchema]: the opening of a database that an older version wrote: tables as columns
      and rows, the statements the migrations execute, and a connection on which a statement of
      the schema commits and one on rows waits for the commit. Theorems: opening loses no row
      and no value it does not rename, the keys of other tables follow the renamed ids, opening
      again changes nothing; and what a failure between the two steps leaves.
    - [World]: the database with the secret files, the harbor's other files, the audit log and
      the calls made so far; the class [Env] is everything outside: clock, random ids, SHA-256,
      the answers of subprocesses (any function of the calls made so far and this one) and what
      they do to the harbor's files, the JSON and YAML codecs, the environment
      variables, and which file operation and which append to the audit log fails. Theorems hold for every [Env].
      [WorldFacts]: framing, what a computation leaves alone, as the predicate
      [quiet] over a view of the world, with its hint database and tactic.

    Components:
    - [Policy]: [core/policy.py] in full. [PolicyFacts]: spawn validation is exactly
      set inclusion of canonical forms and is monotone down a chain of spawns;
      [PolicyGrants]: the storage-scope, IAM-action and network-reach matchers against
      declarative specifications, canonical forms and round trips.
    - [Rpc]: request parsing, authentication, dispatch, the task log, tokens.
      [RpcFacts]: one answer per request, no protected handler without a token on
      record, a retry replays and runs nothing, tokens validate to their desk.
    - [Ceilings], [Workload]: ceilings, docker flags and the transaction script.
      Theorems: normal forms and round trips of ceilings, the limits a container has
      after a trace of docker calls. [WorkloadFacts]: all-or-nothing application,
      restoration of the standing limits, one active lease per desk over every
      interleaving, release and sweep.
    - [Storage]: backends and session policies; the classes [LawfulStorage] and
      [LawfulSecrets] are what the broker relies on, discharged for the STS, stub and
      file backends.
    - [Broker]: [daemon/capability_handlers.py] in full, the body of each handler.
      [BrokerFacts]: a request or release touches only the caller's leases and files;
      [BrokerGrants]: what a grant requires, termination of the superseding loop;
      [BrokerLeases]: the grant theorem and the invariant of one active AWS lease per desk over
      every run; [BrokerRelease]: release, cleanup, retries, refusals; [BrokerNames]:
      what validated requests can contain.
    - [Overlay] ([core/overlay.py]), [Container] ([core/checkout.py], [core/devcontainer.py],
      [core/trust.py], [core/project_yaml_sha.py]), [DeskSpec] and [Desks]
      ([daemon/handlers.py]). [DeskSpecFacts]: an accepted specification is well typed, and when
      the overlay of a resumed desk agrees with that of its creation; [DestroyFacts]:
      destroying a desk ends, takes its subtree with their leases and tokens and leaves the operator's
      secrets; [SpawnFacts]: a spawned child is within its parent's policy and the cap, and
      the tree of desks stays well formed over every run of the handlers.
    - [Proxy], [Clarify], [Auditor]: the handlers of [daemon/proxy_handlers.py],
      [daemon/clarification_handlers.py] and [daemon/auditor_handlers.py] with what they call.
      [Proxy]: who may change an allowlist, and that a refused change changes nothing;
      [Clarify]: what the sanitizer lets through and for how long; [AuditorFacts]: the gate, the
      bounds of an action, and freeze followed by unfreeze.
    - [ProjectConfig] ([core/project_config.py]). [ProjectConfigFacts]: the scopes that a
      declared mount implies are those the policy's matcher grants it under.
    - [Snapshot] ([core/snapshot.py]). [SnapshotFacts]: a restore undoes every change of the
      desk's secrets and overlay since the snapshot; archives are the class [TarGz] with its law.
    - [Migration], [MigrationExec] ([core/migration.py], [core/migration_executor.py],
      [cli/migrate.py]). A [StageFailure] is a value, since only the executor sees it.
      [MigrationFacts]: an abstract machine of stages, which every execution follows to an end that
      the registry's row records, unless the audit log cannot be written, and what it leaves then; what the command plans can be executed;
      [MigrationRollback]: a rolled-back desk has its old image, secrets and overlay.
    - [Recovery], [MigrationRecovery] ([daemon/recovery.py]). [RecoveryFacts] and
      [MigrationRecoveryFacts]: after a restart no request and no migration is in
      progress, and only desks an unfinished request was about are taken.
    - [Daemon] ([daemon/server.py]): the method table with every handler under its wrapper, one request
      as one step. [DaemonFacts]: what a request can do to the database, whoever sends it;
      [DaemonInvariant]: what the daemon keeps over every sequence of requests, and that no request
      makes an auditor.
    - [AuditQuery] ([daemon/audit_handlers.py]): a client that follows the cursors reads
      each matching event once, while the daemon appends.
    - [RoleValidator] ([core/auditor/role_validator.py]), with the comparisons of floats of [PyVal]. [RoleValidatorFacts]: the accepted projects, exactly, and that the broker
      grants such a desk nothing.
    - [Schedule] ([core/schedule.py], [cli/schedule.py]). [ScheduleFacts]: what the shell and the
      listing read back from what is installed, until it is removed.
    - [Deskwatch] ([core/deskwatch.py], [cli/deskwatch.py]). [DeskwatchFacts]: when a desk is healthy,
      when a probe runs, and what a recorded run changes.
    - [Measure], [Watch], [Deep] (the rest of [core/auditor] and [core/telegram.py]): the snapshot, the tick and the
      second tier with the loop, over a state that adds the model's service and the message service to
      the world. [WatchFacts]: what a tick leaves behind, whatever it ends with, what the second tier sends and when, the
      cadence, and that a bounded run ends.
    - [DaemonConfig] ([daemon/config.py]) and [Serve] ([daemon/__main__.py]; the start, up to the bound socket,
      the sweeps and the end of [daemon/server.py]). [ServeFacts]: a configuration that loads builds its backends, and the daemon that
      starts with it has settled everything a crash left open.
    - [Client] ([cli/_daemon_client.py]): the line sent, the answer read, the errors told apart.
      Theorem: a call through the socket is a call of the handler.
    - [Harbors] ([core/harbors.py], [cli/harbors.py]): the roll-up and its exit code, the
      words of the commands sent to a peer. [Tailnet] ([core/tailnet.py], [cli/tailnet.py]).
      Its theorem: which devices a prune asks the service to delete, and what it reports.
    - [HostAudit] ([core/host_audit.py]): the layers of the audit, its totals and its probes.
    - [CliDesk] (create, stop, destroy, overlay, project), [CliAdmin] (amendment, yard, workload, inspect, list,
      audit), [CliSecret] (secret) and [CliRepo] (sync, exec, attach, upgrade): the commands of
      [cli/] as computations that end with what they report or with an error. [CliFacts]: an
      amendment is decided once, a sync only moves forward, a secret is set whole or not at all, a dry run
      does nothing; at the end of [CliRepo]: an upgrade changes the tag of the base image and nothing else of
      the Dockerfile, and does nothing more once the file names the tag.
    - [CliAuditor] ([cli/auditor.py], [cli/new.py]): the commands over snapshots and logs, the designation of
      the auditor and the scaffold of a project. [CliAuditorFacts]: over every sequence of requests and
      designations an auditor has passed the gate, a scaffolded auditor passes it, and a scaffold
      overwrites by force only.
    - [CliStatus] ([cli/status.py], [core/compliance.py]): the probes of a desk and its row.
      [CliHost] ([cli/host.py], [core/migrate_v1_artifacts.py], [cli/daemon.py], the frame of
      [core/host_audit.py]): the host's directories with modes and links, and the daemon's process over a state that
      adds the signals sent, the processes started and the sleeps; what the operating system and other processes do
      is a function of these. [CliHostFacts]: a status only looks, what a check and an audit of the host depend on, and
      which processes the daemon command starts and signals, and when it starts none.

    * Conventions

    A Python function that may raise is a [res exn A]; one that also has effects is a
    computation [W A], a function from [world] to a result and a [world]; effects done
    before an exception stay. A handler's optional arguments that the server always
    gives are parameters. Integers are unbounded as Python's. Each statement the code
    commits on its own is one atomic step, and handlers run one at a time (SQLite serializes
    writers; two handler threads interleaved inside one request are not modelled).
    Secret files are kept apart from the harbor's other files, which hold their directories; host
    files are keyed by the text of their path, and neither links nor [..] are
    resolved. Recovery is stated for the default secrets root, which its code names.
    Fuel is used in [Glob.glob_parse] (the length of the pattern), [PyStr.ndigits] (the
    number itself), [PyStr.replace_all] (the length of the text), [CliRepo.pieces] (the number of tokens, [pieces_fuel]), [CliHost.follow] (the number of links, which only a
    cycle exhausts), the waits of [CliHost] (the sleeps that fit into their time), [Broker.supersede_loop] (one round more than there are leases),
    [Desks._destroy_tree] (one level more than there are desks) and [Deep.run_loop] (the bound of the
    run); [supersede_terminates], [destroy_terminates] and [bounded_run_ends] prove that the last
    three never run out. The texts of exceptions
    raised by the operating system, sqlite3 and the JSON decoder are cut short (the code's own
    messages are exact); log lines and file ownership are not part of the state.

    * What is not modelled, and why

    - The column types and the CHECK and NOT NULL constraints of the tables of older databases,
      and the accept loop of the socket server and its threads.
    - Of the command line: the parsing of options and what is printed ([output/formatter.py], the formatters of the
      commands), and the listing of secrets (it shows the [stat] of each file).
    - Docker volumes in snapshots (no caller asks for them), and a custom mutate dispatcher (none is set). *)

From stdpp Require Export base tactics option list strings gmap sorting.
From Stdlib Require Export ZArith Lia Bool Ascii String.
From Stdlib Require Import List.

#[global] Open Scope Z_scope.
#[global] Open Scope list_scope.
#[global] Arguments String.append !_ _ / : simpl nomatch.

(** ** Boolean tests, in a scope of their own *)

Declare Scope py_scope.
Delimit Scope py_scope with py.
Notation "a =s b" := (String.eqb a b) (at level 70, no associativity) : py_scope.
#[global] Open Scope py_scope.

(** ** Fallible results and the state-and-exception monad

    [res E A] is what a Python function that may raise returns; [M S E A] is the
    same with the state the function mutates threaded through it: the state a
    computation had reached when it raised is kept, because Python does not roll
    mutations back when an exception propagates. Both use stdpp's
    [x ← c; k] notation. *)

Inductive res (E A : Type) : Type :=
  | Ok (a : A)
  | Err (e : E).
Arguments Ok {E A} _.
Arguments Err {E A} _.

#[export] Instance res_ret {E} : MRet (res E) := fun A a => Ok a.
#[export] Instance res_bind {E} : MBind (res E) :=
  fun A B k m => match m with Ok a => k a | Err e => Err e end.
#[export] Instance res_fmap {E} : FMap (res E) :=
  fun A B f m => match m with Ok a => Ok (f a) | Err e => Err e end.

Definition is_some {A} (o : option A) : bool := match o with Some _ => true | None => false end.

Definition is_ok {E A} (r : res E A) : bool :=
  match r with Ok _ => true | Err _ => false end.

Definition M (S E A : Type) : Type := S -> res E A * S.

#[export] Instance M_ret {S E} : MRet (M S E) := fun A a s => (Ok a, s).
#[export] Instance M_bind {S E} : MBind (M S E) :=
  fun A B k m s => match m s with
                   | (Ok a, s') => k a s'
                   | (Err e, s') => (Err e, s')
                   end.

Section MonadOps.
Context {S E : Type}.

Definition throw {A} (e : E) : M S E A := fun s => (Err e, s).
Definition gets {A} (f : S -> A) : M S E A := fun s => (Ok (f s), s).
Definition modify (f : S -> S) : M S E unit := fun s => (Ok tt, f s).
Definition lift {A} (r : res E A) : M S E A := fun s => (r, s).
(** [try: m except: h] *)
Definition catch {A} (m : M S E A) (h : E -> M S E A) : M S E A :=
  fun s => match m s with
           | (Err e, s') => h e s'
           | r => r
           end.

Lemma bind_ok {A B} (m : M S E A) (k : A -> M S E B) s a s' :
  m s = (Ok a, s') -> (m ≫= k) s = k a s'.
Proof. intros H. unfold mbind, M_bind. by rewrite H. Qed.

Lemma bind_err {A B} (m : M S E A) (k : A -> M S E B) s e s' :
  m s = (Err e, s') -> (m ≫= k) s = (Err e, s').
Proof. intros H. unfold mbind, M_bind. by rewrite H. Qed.

Lemma gets_bind {A B} (f : S -> A) (k : A -> M S E B) s : (gets f ≫= k) s = k (f s) s.
Proof. done. Qed.
Lemma gets_eq {A} (f : S -> A) s : gets f s = (Ok (f s), s).
Proof. done. Qed.
Lemma modify_bind {B} f (k : unit -> M S E B) s : (modify f ≫= k) s = k tt (f s).
Proof. done. Qed.
Lemma modify_eq f s : modify f s = (Ok tt, f s).
Proof. done. Qed.
Lemma throw_bind {A B} e (k : A -> M S E B) s : (throw e ≫= k) s = (Err e, s).
Proof. done. Qed.
Lemma throw_eq {A} e s : throw (A := A) e s = (Err e, s).
Proof. done. Qed.
Lemma ret_bind {A B} (a : A) (k : A -> M S E B) s : (mret a ≫= k) s = k a s.
Proof. done. Qed.
Lemma ret_eq {A} (a : A) s : (mret a : M S E A) s = (Ok a, s).
Proof. done. Qed.
Lemma lift_bind {A B} (r : res E A) (k : A -> M S E B) s :
  (lift r ≫= k) s = match r with Ok a => k a s | Err e => (Err e, s) end.
Proof. by destruct r. Qed.
Lemma bind_bind {A B C} (m : M S E A) (k : A -> M S E B) (h : B -> M S E C) s :
  ((m ≫= k) ≫= h) s = (m ≫= (fun a => k a ≫= h)) s.
Proof. unfold mbind, M_bind. by destruct (m s) as [[a|e] s1]. Qed.

Lemma bind_inv {A B} (m : M S E A) (k : A -> M S E B) s r s2 :
  (m ≫= k) s = (r, s2) ->
  (exists a s1, m s = (Ok a, s1) /\ k a s1 = (r, s2))
  \/ (exists e, m s = (Err e, s2) /\ r = Err e).
Proof.
  unfold mbind, M_bind. destruct (m s) as [[a|e] s1]; intros H.
  - left. eauto.
  - right. injection H as <- <-. eauto.
Qed.
End MonadOps.

Lemma res_bind_ok {E A B} (m : res E A) (k : A -> res E B) b :
  m ≫= k = Ok b <-> exists a, m = Ok a /\ k a = Ok b.
Proof.
  destruct m as [a|e]; unfold mbind, res_bind; split.
  - intros H. by exists a.
  - intros (a' & [= ->] & H). done.
  - done.
  - intros (a' & [=] & _).
Qed.

(** [preserves P m]: running [m] from a state that satisfies [P] ends in one that
    does, whether [m] returns or raises. *)
Section Preserves.
Context {S E : Type} (P : S -> Prop).

Definition preserves {A} (m : M S E A) : Prop := forall s, P s -> P (snd (m s)).

Lemma preserves_ret {A} (a : A) : preserves (mret a).
Proof. intros s H. done. Qed.
Lemma preserves_throw {A} (e : E) : preserves (throw (A := A) e).
Proof. intros s H. done. Qed.
Lemma preserves_gets {A} (f : S -> A) : preserves (gets f).
Proof. intros s H. done. Qed.
Lemma preserves_lift {A} (r : res E A) : preserves (lift r).
Proof. intros s H. done. Qed.
Lemma preserves_modify (f : S -> S) : (forall s, P s -> P (f s)) -> preserves (modify f).
Proof. intros H s. apply H. Qed.

Lemma preserves_bind {A B} (m : M S E A) (k : A -> M S E B) :
  preserves m -> (forall a, preserves (k a)) -> preserves (m ≫= k).
Proof.
  intros Hm Hk s Hs. specialize (Hm s Hs). unfold mbind, M_bind.
  destruct (m s) as [[a|e] s1]; [by apply Hk | done].
Qed.

(** The continuation may use what a read of the state returned. *)
Lemma preserves_gets_bind {A B} (f : S -> A) (k : A -> M S E B) :
  (forall s, P s -> P (snd (k (f s) s))) -> preserves (gets f ≫= k).
Proof. intros H s Hs. by apply H. Qed.

Lemma preserves_catch {A} (m : M S E A) (h : E -> M S E A) :
  preserves m -> (forall e, preserves (h e)) -> preserves (catch m h).
Proof.
  intros Hm Hh s Hs. specialize (Hm s Hs). unfold catch.
  destruct (m s) as [[a|e] s1]; [done | by apply Hh].
Qed.
End Preserves.

(** [hoare P m R X]: from a state with [P], [m] returns a value and a state with [R], or raises
    in a state with [X]. *)
Section Hoare.
Context {S E : Type}.

Definition hoare {A} (P : S -> Prop) (m : M S E A) (R : A -> S -> Prop) (X : S -> Prop) : Prop :=
  forall s, P s -> match m s with (Ok a, s') => R a s' | (Err _, s') => X s' end.

Lemma hoare_ret {A} (P X : S -> Prop) (R : A -> S -> Prop) a : (forall s, P s -> R a s) -> hoare P (mret a) R X.
Proof. intros Ha s Hs. by apply Ha. Qed.

Lemma hoare_throw {A} (P X : S -> Prop) (R : A -> S -> Prop) e : (forall s, P s -> X s) -> hoare P (throw e) R X.
Proof. intros Ha s Hs. by apply Ha. Qed.

Lemma hoare_bind {A B} P (m : M S E A) (k : A -> M S E B) Q R X :
  hoare P m Q X -> (forall a, hoare (Q a) (k a) R X) -> hoare P (m ≫= k) R X.
Proof.
  intros Hm Hk s Hs. specialize (Hm s Hs). unfold mbind, M_bind.
  destruct (m s) as [[a|e] s1]; [by apply Hk|done].
Qed.

Lemma hoare_catch {A} P (m : M S E A) h R X Y :
  hoare P m R Y -> (forall e, hoare Y (h e) R X) -> hoare P (catch m h) R X.
Proof.
  intros Hm Hh s Hs. specialize (Hm s Hs). unfold catch. destruct (m s) as [[a|e] s1]; [done|by apply Hh].
Qed.

Lemma hoare_conseq {A} (P P' : S -> Prop) (m : M S E A) (R R' : A -> S -> Prop) (X X' : S -> Prop) :
  hoare P m R X -> (forall s, P' s -> P s) -> (forall a s, R a s -> R' a s) -> (forall s, X s -> X' s) ->
  hoare P' m R' X'.
Proof.
  intros Hm HP HR HX s Hs. specialize (Hm s (HP s Hs)). destruct (m s) as [[a|e] s1]; auto.
Qed.

Lemma hoare_pure {A} (P : S -> Prop) (Q : Prop) (m : M S E A) (R : A -> S -> Prop) (X : S -> Prop) :
  (Q -> hoare P m R X) -> hoare (fun s => P s /\ Q) m R X.
Proof. intros Hm s [Hs Hq]. by apply Hm. Qed.

Lemma hoare_preserves {A} (P : S -> Prop) (m : M S E A) : hoare P m (fun _ => P) P -> preserves P m.
Proof. intros Hm s Hs. specialize (Hm s Hs). by destruct (m s) as [[a|e] s1]. Qed.
End Hoare.

(** Run a fallible function over a list, left to right, stopping at the first error. *)
Fixpoint mapE {E A B} (f : A -> res E B) (l : list A) : res E (list B) :=
  match l with
  | [] => Ok []
  | x :: xs => y ← f x; ys ← mapE f xs; Ok (y :: ys)
  end.

Lemma mapE_ok {E A B} (f : A -> res E B) l ys :
  mapE f l = Ok ys <-> Forall2 (fun x y => f x = Ok y) l ys.
Proof.
  revert ys. induction l as [|x l IH]; intros ys; cbn.
  - split; [intros [= <-]; constructor | by inversion 1].
  - rewrite res_bind_ok. split.
    + intros (y & Hy & H). apply res_bind_ok in H as (ys' & Hys & [= <-]).
      constructor; [done | by apply IH].
    + inversion 1 as [|? y ? ys' Hy Hys]; subst. exists y. split; [done|].
      apply res_bind_ok. exists ys'. split; [by apply IH | done].
Qed.

Lemma mapE_ok_all {E A B} (f : A -> res E B) l :
  is_ok (mapE f l) = true <-> forall x, x ∈ l -> is_ok (f x) = true.
Proof.
  induction l as [|x l IH]; cbn; [set_solver|].
  unfold mbind, res_bind. destruct (f x) eqn:Hx; cbn.
  - destruct (mapE f l) eqn:Hl; cbn in *.
    + split; [|done]. intros _ y. rewrite elem_of_cons. intros [->|Hy]; [by rewrite Hx|].
      by apply IH.
    + split; [done|]. intros H. apply IH. intros y Hy. apply H. set_solver.
  - split; [done|]. intros H. specialize (H x). rewrite Hx in H. apply H. set_solver.
Qed.

Lemma Forall2_In_r {A B} (R : A -> B -> Prop) l k y :
  Forall2 R l k -> In y k -> exists x, In x l /\ R x y.
Proof.
  induction 1 as [|x z l k Hx _ IH]; [done|]. intros [->|Hy].
  - exists x. split; [by left|done].
  - destruct (IH Hy) as (x' & Hin & Hr). exists x'. split; [by right|done].
Qed.

(** ** Database tables

    A table is the list of its rows in rowid order; SQL's [WHERE] is a boolean
    predicate. [UPDATE] reports how many rows it touched, like
    [cursor.rowcount]. *)

Section Table.
Context {R : Type}.
Implicit Types (p : R -> bool) (f : R -> R) (t : list R).

Definition tbl_select p t : list R := List.filter p t.
Definition tbl_first p t : option R := List.find p t.
Definition tbl_count p t : nat := length (List.filter p t).
Definition tbl_update p f t : list R := map (fun r => if p r then f r else r) t.
Definition tbl_delete p t : list R := List.filter (fun r => negb (p r)) t.

Lemma tbl_select_In p t r : In r (tbl_select p t) <-> In r t /\ p r = true.
Proof. apply filter_In. Qed.

Lemma tbl_delete_In p t r : In r (tbl_delete p t) <-> In r t /\ p r = false.
Proof. unfold tbl_delete. rewrite filter_In, negb_true_iff. done. Qed.

Lemma tbl_first_Some p t r : tbl_first p t = Some r -> In r t /\ p r = true.
Proof. apply find_some. Qed.

Lemma tbl_first_None p t : tbl_first p t = None <-> forall r, In r t -> p r = false.
Proof.
  split; [apply find_none|]. unfold tbl_first.
  induction t as [|r t IH]; [done|]; cbn; intros H.
  rewrite (H r) by auto. auto.
Qed.

Lemma tbl_update_In p f t r :
  In r (tbl_update p f t) <-> exists r0, In r0 t /\ r = if p r0 then f r0 else r0.
Proof.
  unfold tbl_update. rewrite in_map_iff. split; intros (x & H1 & H2); eauto.
Qed.

Lemma tbl_update_id p f t : (forall r, In r t -> p r = false) -> tbl_update p f t = t.
Proof.
  intros H. unfold tbl_update. rewrite <- (map_id t) at 2. apply map_ext_in.
  intros r Hr. by rewrite H.
Qed.

Lemma tbl_count_0 p t : tbl_count p t = 0%nat <-> forall r, In r t -> p r = false.
Proof.
  unfold tbl_count. induction t as [|r t IH]; cbn; [split; [contradiction|done]|].
  destruct (p r) eqn:E; cbn.
  - split; [done|]. intros H. rewrite H in E by auto. done.
  - rewrite IH. split; [intros H x [->|]; auto | auto].
Qed.

Lemma tbl_update_map {B} (g : R -> B) p f t :
  (forall r, g (f r) = g r) -> map g (tbl_update p f t) = map g t.
Proof.
  intros H. unfold tbl_update. rewrite map_map. apply map_ext. intros r.
  destruct (p r); auto.
Qed.

Lemma tbl_first_update_ne p q f t :
  (forall r, p r = true -> q r = false /\ q (f r) = false) ->
  tbl_first q (tbl_update p f t) = tbl_first q t.
Proof.
  intros H. induction t as [|r t IH]; [done|]; cbn. destruct (p r) eqn:E.
  - destruct (H r E) as [-> ->]. done.
  - destruct (q r); done.
Qed.

Lemma tbl_select_update_ne p q f t :
  (forall r, p r = true -> q r = false /\ q (f r) = false) ->
  tbl_select q (tbl_update p f t) = tbl_select q t.
Proof.
  intros H. induction t as [|r t IH]; [done|]; cbn. destruct (p r) eqn:E.
  - destruct (H r E) as [-> ->]. done.
  - destruct (q r); [f_equal|]; done.
Qed.

Lemma tbl_select_nil p t : tbl_select p t = [] <-> forall r, In r t -> p r = false.
Proof.
  rewrite <- tbl_count_0. unfold tbl_count, tbl_select. by destruct (List.filter p t).
Qed.

Lemma tbl_first_update p f t q :
  (forall r, q (f r) = q r) ->
  tbl_first q (tbl_update p f t)
  = option_map (fun r => if p r then f r else r) (tbl_first q t).
Proof.
  intros H. unfold tbl_first, tbl_update. induction t as [|r t IH]; [done|]; cbn.
  destruct (p r) eqn:E; [rewrite H|]; destruct (q r); cbn; rewrite ?E; done.
Qed.

Lemma tbl_first_app p t1 t2 :
  tbl_first p (t1 ++ t2) = match tbl_first p t1 with Some r => Some r | None => tbl_first p t2 end.
Proof. unfold tbl_first. induction t1 as [|r t1 IH]; [done|]; cbn. by destruct (p r). Qed.

Lemma tbl_append_NoDup {B} (g : R -> B) t r :
  List.NoDup (map g t) -> (forall x, In x t -> g x <> g r) -> List.NoDup (map g (t ++ [r])).
Proof.
  intros H Hr. rewrite map_app. cbn. apply NoDup_Add with (a := g r) (l := map g t).
  - rewrite <- (app_nil_r (map g t)) at 1. apply Add_app.
  - split; [done|]. rewrite in_map_iff. intros (x & Hx & Hin). by apply (Hr x).
Qed.

Lemma tbl_fresh p t : existsb p t = false -> forall r, In r t -> p r = false.
Proof.
  intros H r Hr. destruct (p r) eqn:E; [|done].
  assert (existsb p t = true) by (apply existsb_exists; eauto). congruence.
Qed.

(** A table whose key is unique holds one row per key. *)
Lemma tbl_key_inj {B} (g : R -> B) t r r' :
  List.NoDup (map g t) -> In r t -> In r' t -> g r = g r' -> r = r'.
Proof.
  induction t as [|x t IH]; cbn; [done|]. inversion 1; subst.
  intros [->|Hr] [->|Hr'] Heq; auto.
  - match goal with H : ~ In _ _ |- _ => destruct H; rewrite Heq; by apply in_map end.
  - match goal with H : ~ In _ _ |- _ => destruct H; rewrite <- Heq; by apply in_map end.
Qed.

Lemma tbl_first_unique {B} (g : R -> B) p t r :
  List.NoDup (map g t) -> (forall x y, p x = true -> p y = true -> g x = g y) ->
  In r t -> p r = true -> tbl_first p t = Some r.
Proof.
  intros Hnd Hp Hr Hpr. destruct (tbl_first p t) as [x|] eqn:E.
  - apply tbl_first_Some in E as [Hx Hpx]. f_equal. by eapply tbl_key_inj; eauto.
  - rewrite tbl_first_None in E. by rewrite E in Hpr.
Qed.

Lemma tbl_delete_NoDup {B} (g : R -> B) p t :
  List.NoDup (map g t) -> List.NoDup (map g (tbl_delete p t)).
Proof.
  induction t as [|r t IH]; cbn; [done|]. inversion 1; subst.
  destruct (negb (p r)); cbn; [|auto]. constructor; [|auto].
  intros Hin. apply in_map_iff in Hin as (x & Hx & Hin). apply tbl_delete_In in Hin as [Hin _].
  match goal with H : ~ In _ _ |- _ => apply H end. rewrite <- Hx. by apply in_map.
Qed.
End Table.

(** ** Sweeping a table: the open rows of some keys are closed, one key at a time *)

Section Sweep.
Context {R : Type} (key : R -> string) (opn : R -> bool).

(** The rows of [k] are closed, the others are as they were. *)
Definition closes_key (k : string) (t t' : list R) : Prop :=
  exists f, (forall r, key (f r) = key r) /\ (forall r, opn (f r) = false)
            /\ t' = tbl_update (fun r => String.eqb (key r) k) f t.

Record closes_keys (ks : list string) (t t' : list R) : Prop := mkCloses {
  ck_keys : map key t' = map key t;
  ck_open : forall r, In r t' -> opn r = true -> In r t /\ ~ In (key r) ks;
  ck_kept : forall r, In r t -> ~ In (key r) ks -> In r t'
}.

Lemma closes_nil t : closes_keys [] t t.
Proof. split; [done| |done]. intros r Hr _. split; [done|by intros []]. Qed.

Lemma closes_cons k ks t t1 t2 : closes_key k t t1 -> closes_keys ks t1 t2 -> closes_keys (k :: ks) t t2.
Proof.
  intros (f & Hk & Ho & ->) [K2 O2 I2]. split.
  - rewrite K2. by apply tbl_update_map.
  - intros r Hr Hop. destruct (O2 r Hr Hop) as [(r0 & Hr0 & E)%tbl_update_In Hn].
    destruct (String.eqb_spec (key r0) k) as [Ek|Ek]; [subst r; by rewrite Ho in Hop|]. subst r0.
    split; [done|]. intros [Hi|Hi]; [congruence|by apply Hn].
  - intros r Hr Hn. apply I2; [|by intros Hi; apply Hn; right]. apply tbl_update_In. exists r. split; [done|].
    destruct (String.eqb_spec (key r) k) as [Ek|]; [|done]. exfalso. apply Hn. by left.
Qed.

(** Closing the keys of all open rows leaves no row open and the closed rows as they were. *)
Lemma closes_all ts t t' : List.NoDup (map key t) -> (forall r, In r ts <-> In r t /\ opn r = true) ->
  closes_keys (map key ts) t t' ->
  (forall r, In r t' -> opn r = false) /\ (forall r, In r t -> opn r = false -> In r t').
Proof.
  intros Hnd Hts [_ O I]. split.
  - intros r Hr. destruct (opn r) eqn:Eo; [|done]. destruct (O r Hr Eo) as [Hr0 Hn]. exfalso. by apply Hn, in_map, Hts.
  - intros r Hr Eo. apply I; [done|]. intros (r2 & Ek & [Hr2 Eo2]%Hts)%in_map_iff.
    pose proof (tbl_key_inj key t r2 r Hnd Hr2 Hr Ek) as ->. congruence.
Qed.
End Sweep.

(** ** Automation *)

Create HintDb py discriminated.
Create Rewrite HintDb pyrw.
Create Rewrite HintDb mon.
#[export] Hint Resolve tbl_delete_NoDup preserves_ret preserves_throw preserves_gets preserves_lift : py.
#[export] Hint Rewrite @gets_bind @gets_eq @modify_bind @modify_eq @throw_bind @throw_eq @ret_bind
  @ret_eq @lift_bind @bind_bind : mon.
#[export] Hint Rewrite @tbl_select_In @tbl_delete_In @tbl_update_In : pyrw.

(** Run the reads, writes and returns at the head of a computation. *)
Ltac msimp := cbv beta; repeat (progress autorewrite with mon; cbv beta iota zeta); cbn [fst snd].
Tactic Notation "msimp" "in" hyp(H) :=
  cbv beta in H; repeat (progress autorewrite with mon in H; cbv beta iota zeta in H);
  cbn [fst snd] in H.

(** Turn a boolean test on strings or integers in the context into the fact it decides. *)
Ltac breflect :=
  repeat match goal with
  | H : String.eqb _ _ = true |- _ => apply String.eqb_eq in H
  | H : String.eqb _ _ = false |- _ => apply String.eqb_neq in H
  | H : (_ && _)%bool = true |- _ => apply andb_true_iff in H as [? ?]
  | H : (_ || _)%bool = false |- _ => apply orb_false_iff in H as [? ?]
  | H : negb _ = true |- _ => apply negb_true_iff in H
  | H : negb _ = false |- _ => apply negb_false_iff in H
  | H : (_ <=? _)%Z = true |- _ => apply Z.leb_le in H
  | H : (_ <=? _)%Z = false |- _ => apply Z.leb_gt in H
  | H : (_ <? _)%Z = true |- _ => apply Z.ltb_lt in H
  | H : (_ <? _)%Z = false |- _ => apply Z.ltb_ge in H
  | H : (_ =? _)%Z = true |- _ => apply Z.eqb_eq in H
  | H : (_ =? _)%Z = false |- _ => apply Z.eqb_neq in H
  end.

(** Case on the innermost [match] or [if] of the goal or of a hypothesis. *)
Ltac case_goal :=
  match goal with
  | |- context [match ?x with _ => _ end] =>
      lazymatch x with context [match _ with _ => _ end] => fail | _ => destruct x eqn:? end
  end.
Ltac case_hyp H :=
  match type of H with
  | context [match ?x with _ => _ end] =>
      lazymatch x with context [match _ with _ => _ end] => fail | _ => destruct x eqn:? end
  end.

(** ** ORDER BY

    A stable insertion sort under a boolean order on the rows. *)

Section Sort.
Context {R : Type} (leb : R -> R -> bool).

Fixpoint sort_insert (x : R) (l : list R) : list R :=
  match l with
  | [] => [x]
  | y :: l' => if leb x y then x :: l else y :: sort_insert x l'
  end.

Fixpoint order_by (l : list R) : list R :=
  match l with [] => [] | x :: l' => sort_insert x (order_by l') end.

Lemma sort_insert_In x y l : In y (sort_insert x l) <-> y = x \/ In y l.
Proof.
  induction l as [|z l IH]; cbn; [intuition|]. destruct (leb x z); cbn; [intuition|].
  rewrite IH. intuition.
Qed.

Lemma order_by_In y l : In y (order_by l) <-> In y l.
Proof. induction l as [|x l IH]; cbn; [done|]. rewrite sort_insert_In, IH. intuition. Qed.

Lemma order_by_nil l : order_by l = [] <-> l = [].
Proof.
  split; [|by intros ->]. destruct l as [|x l]; [done|]. intros H.
  pose proof (proj2 (order_by_In x (x :: l)) (or_introl eq_refl)) as Hin.
  by rewrite H in Hin.
Qed.
End Sort.

Lemma sort_insert_perm {R} (leb : R -> R -> bool) x l : Permutation (sort_insert leb x l) (x :: l).
Proof.
  induction l as [|y l IH]; cbn; [done|]. destruct (leb x y); [done|].
  rewrite IH. constructor.
Qed.

Lemma order_by_perm {R} (leb : R -> R -> bool) l : Permutation (order_by leb l) l.
Proof. induction l as [|x l IH]; cbn; [done|]. by rewrite sort_insert_perm, IH. Qed.

Section Ordered.
Context {R : Type} (leb : R -> R -> bool)
  (total : forall a b, leb a b = true \/ leb b a = true)
  (trans : forall a b c, leb a b = true -> leb b c = true -> leb a c = true).

Lemma sort_insert_sorted x l :
  StronglySorted (fun a b => leb a b = true) l -> StronglySorted (fun a b => leb a b = true) (sort_insert leb x l).
Proof.
  induction 1 as [|y l Hl IH Hy]; cbn; [by repeat constructor|]. destruct (leb x y) eqn:E.
  - constructor; [by constructor|]. constructor; [done|]. eapply Forall_impl; [|exact Hy]. intros z Hz. by eapply trans.
  - constructor; [done|]. rewrite sort_insert_perm. constructor; [|done]. by destruct (total x y) as [E2|]; [rewrite E2 in E|].
Qed.

Lemma order_by_sorted l : StronglySorted (fun a b => leb a b = true) (order_by leb l).
Proof. induction l as [|x l IH]; cbn; [constructor|]. by apply sort_insert_sorted. Qed.

(** The sort is stable: it commutes with a selection. *)
Lemma filter_sort_insert (p : R -> bool) x l :
  StronglySorted (fun a b => leb a b = true) l ->
  List.filter p (sort_insert leb x l)
  = if p x then sort_insert leb x (List.filter p l) else List.filter p l.
Proof.
  induction 1 as [|y l Hl IH Hy]; cbn; [done|]. destruct (leb x y) eqn:E; cbn.
  - destruct (p x); [|done]. destruct (p y); cbn; [by rewrite E|].
    assert (Forall (fun z => leb x z = true) (List.filter p l)) as F.
    { rewrite List.Forall_forall. intros z [Hz _]%filter_In. rewrite List.Forall_forall in Hy. eauto. }
    destruct (List.filter p l) as [|z l']; [done|]. cbn. inversion F as [|? ? Hxz]. by rewrite Hxz.
  - rewrite IH. destruct (p y), (p x); cbn; rewrite ?E; done.
Qed.

Lemma order_by_filter (p : R -> bool) l :
  List.filter p (order_by leb l) = order_by leb (List.filter p l).
Proof.
  induction l as [|x l IH]; cbn; [done|]. rewrite filter_sort_insert by apply order_by_sorted.
  rewrite IH. by destruct (p x).
Qed.
End Ordered.

Lemma order_by_NoDup {R} (leb : R -> R -> bool) (l : list R) : List.NoDup l -> List.NoDup (order_by leb l).
Proof. intros H. eapply Permutation_NoDup; [|exact H]. symmetry. apply order_by_perm. Qed.


Lemma order_by_length {R} (leb : R -> R -> bool) l : length (order_by leb l) = length l.
Proof. apply Permutation_length, order_by_perm. Qed.

Lemma filter_filter {A} (p q : A -> bool) l : List.filter p (List.filter q l) = List.filter (fun x => q x && p x) l.
Proof. induction l as [|x l IH]; [done|]. cbn. destruct (q x); cbn; [|done]. by rewrite IH. Qed.

Lemma filter_nil_In {A} (p : A -> bool) l : (forall x, In x l -> p x = false) -> List.filter p l = [].
Proof.
  induction l as [|x l IH]; [done|]. intros Hp. cbn. rewrite (Hp x (or_introl eq_refl)). apply IH. intros y Hy. apply Hp. by right.
Qed.

Lemma NoDup_map_filter {A B} (f : A -> B) p l : List.NoDup (map f l) -> List.NoDup (map f (List.filter p l)).
Proof.
  induction l as [|x l IH]; [done|]. cbn. intros Hn. inversion Hn as [|? ? Hx Hn']; subst.
  destruct (p x); cbn; [|by apply IH]. constructor; [|by apply IH]. intros [y [E [Hy _]%filter_In]]%in_map_iff.
  apply Hx. rewrite <- E. by apply in_map.
Qed.
