(* ===== verification/PyStr.v ===== *)
(** Python's [str] operations that the program uses, on [string] read as a
    sequence of code points below 256 (Latin-1), with the facts about them the
    components share. Every function is structural, so concrete inputs
    evaluate. *)

From S2P Require Import Prelude.
From Stdlib Require Import List.

(** ** Characters *)

Definition code (c : ascii) : Z := Z.of_N (N_of_ascii c).

Definition in_range (lo hi : Z) (c : ascii) : bool := (lo <=? code c) && (code c <=? hi).

(** [str.isspace] below 256. *)
Definition is_space (c : ascii) : bool :=
  in_range 9 13 c || in_range 28 32 c || (code c =? 133) || (code c =? 160).

Definition is_digit (c : ascii) : bool := in_range 48 57 c.
Definition is_upper (c : ascii) : bool := in_range 65 90 c.
Definition is_lower (c : ascii) : bool := in_range 97 122 c.

(** [str.lower] below 256: A-Z and the accented capitals (not the multiplication sign). *)
Definition lower_char (c : ascii) : ascii :=
  if is_upper c || (in_range 192 222 c && negb (code c =? 215))
  then ascii_of_N (N_of_ascii c + 32) else c.

Definition newline : ascii := ascii_of_N 10.

(** ** Strings *)

Fixpoint all_chars (p : ascii -> bool) (s : string) : bool :=
  match s with EmptyString => true | String c s' => p c && all_chars p s' end.

Fixpoint any_char (p : ascii -> bool) (s : string) : bool :=
  match s with EmptyString => false | String c s' => p c || any_char p s' end.

Definition has_char (c : ascii) (s : string) : bool := any_char (Ascii.eqb c) s.

Definition is_empty (s : string) : bool := match s with EmptyString => true | _ => false end.

Fixpoint smap (f : ascii -> ascii) (s : string) : string :=
  match s with EmptyString => EmptyString | String c s' => String (f c) (smap f s') end.

Definition lower (s : string) : string := smap lower_char s.

Fixpoint lstrip_by (p : ascii -> bool) (s : string) : string :=
  match s with
  | EmptyString => EmptyString
  | String c s' => if p c then lstrip_by p s' else s
  end.

Fixpoint rstrip_by (p : ascii -> bool) (s : string) : string :=
  match s with
  | EmptyString => EmptyString
  | String c s' =>
      let t := rstrip_by p s' in
      if is_empty t && p c then EmptyString else String c t
  end.

Definition strip_by (p : ascii -> bool) (s : string) : string := rstrip_by p (lstrip_by p s).
Definition strip (s : string) : string := strip_by is_space s.

(** [repr] of a text: single quotes unless it holds one and no double quote, with the
    quote, the backslash and the control characters escaped. A byte above 127 stands as it is, as
    the printable characters do. *)
Definition dquote : ascii := ascii_of_N 34.
Definition squote : ascii := "'"%char.
Definition hex_digit (n : Z) : ascii :=
  ascii_of_N (Z.to_N (if n <? 10 then 48 + n else 87 + n)).

Definition repr_char (quote c : ascii) : string :=
  if Ascii.eqb c quote || Ascii.eqb c "\" then String "\" (String c "")
  else if code c =? 9 then "\t"
  else if code c =? 10 then "\n"
  else if code c =? 13 then "\r"
  else if (code c <? 32) || (code c =? 127)
  then "\x" +:+ String (hex_digit (code c / 16)) (String (hex_digit (code c mod 16)) "")
  else String c "".

Fixpoint repr_body (quote : ascii) (s : string) : string :=
  match s with EmptyString => "" | String c s' => repr_char quote c +:+ repr_body quote s' end.

Definition repr_str (s : string) : string :=
  let quote := if has_char squote s && negb (has_char dquote s) then dquote else squote in
  String quote (repr_body quote s) +:+ String quote "".

(** [sub in s]. *)
Definition contains (sub s : string) : bool :=
  match String.index 0 sub s with Some _ => true | None => false end.

(** The number of code points of a UTF-8 text: the bytes that do not continue one. *)
Fixpoint char_len (s : string) : Z :=
  match s with
  | EmptyString => 0
  | String c s' => (if in_range 128 191 c then 0 else 1) + char_len s'
  end.

Definition startswith (s pre : string) : bool := String.prefix pre s.

Fixpoint sdrop (n : nat) (s : string) : string :=
  match n, s with
  | O, _ => s
  | S n', String _ s' => sdrop n' s'
  | S _, EmptyString => EmptyString
  end.

Fixpoint stake (n : nat) (s : string) : string :=
  match n, s with
  | O, _ => EmptyString
  | S n', String c s' => String c (stake n' s')
  | S _, EmptyString => EmptyString
  end.

(** [s.endswith(suf)]. *)
Definition endswith (s suf : string) : bool :=
  (String.length suf <=? String.length s)%nat
  && String.eqb (sdrop (String.length s - String.length suf) s) suf.

(** [s[:-n]] for [n <= len(s)]. *)
Definition drop_last (n : nat) (s : string) : string := stake (String.length s - n) s.

(** [s.split(sep)] for a one-character separator: never empty. *)
Fixpoint split_on (sep : ascii) (s : string) : list string :=
  match s with
  | EmptyString => [EmptyString]
  | String c s' =>
      if Ascii.eqb c sep then EmptyString :: split_on sep s'
      else match split_on sep s' with
           | w :: ws => String c w :: ws
           | [] => [String c EmptyString]
           end
  end.

(** [s.split(sep, 1)] when [sep] occurs: the parts before and after its first occurrence. *)
Fixpoint split_once (sep : ascii) (s : string) : option (string * string) :=
  match s with
  | EmptyString => None
  | String c s' =>
      if Ascii.eqb c sep then Some (EmptyString, s')
      else match split_once sep s' with
           | Some (a, b) => Some (String c a, b)
           | None => None
           end
  end.

(** [s.split()]: maximal runs of non-space characters. *)
Fixpoint split_ws (s : string) : list string :=
  match s with
  | EmptyString => []
  | String c s' =>
      if is_space c then split_ws s'
      else match s' with
           | EmptyString => [String c EmptyString]
           | String c' _ =>
               if is_space c' then String c EmptyString :: split_ws s'
               else match split_ws s' with
                    | w :: ws => String c w :: ws
                    | [] => [String c EmptyString]
                    end
           end
  end.

Definition join (sep : string) (l : list string) : string := String.concat sep l.

(** [s.replace(c, r)] for a one-character pattern. *)
Fixpoint replace_char (c : ascii) (r : string) (s : string) : string :=
  match s with
  | EmptyString => EmptyString
  | String d s' => if Ascii.eqb d c then String.append r (replace_char c r s') else String d (replace_char c r s')
  end.

(** [s.replace(old, new)] for a pattern that is not empty; the fuel is the length of the text. *)
Fixpoint replace_all (fuel : nat) (old new s : string) : string :=
  match fuel, s with
  | S fuel, String c s' =>
      if startswith s old then new +:+ replace_all fuel old new (sdrop (String.length old) s)
      else String c (replace_all fuel old new s')
  | _, _ => s
  end.
Definition py_replace (old new s : string) : string := replace_all (String.length s) old new s.

(** ** Decimal numbers *)

Definition digit_of (z : Z) : ascii := ascii_of_N (Z.to_N (48 + z)).
Definition digit_val (c : ascii) : Z := code c - 48.

(** The [w] low decimal digits of [z], zero padded: [f"{z:0{w}d}"] for [0 <= z < 10^w]. *)
Fixpoint pad (w : nat) (z : Z) : string :=
  match w with
  | O => EmptyString
  | S w' => String (digit_of (z / 10 ^ Z.of_nat w' mod 10)) (pad w' z)
  end.

(** [int(s)] on a string of ASCII digits. *)
Fixpoint digits_acc (acc : Z) (s : string) : Z :=
  match s with
  | EmptyString => acc
  | String c s' => digits_acc (10 * acc + digit_val c) s'
  end.
Definition int_of_digits (s : string) : Z := digits_acc 0 s.

(** The number of decimal digits of [z >= 0] (at least one). *)
Fixpoint ndigits_fuel (fuel : nat) (z : Z) : nat :=
  match fuel with
  | O => 1%nat
  | S f => if z <? 10 then 1%nat else S (ndigits_fuel f (z / 10))
  end.
Definition ndigits (z : Z) : nat := ndigits_fuel (Z.to_nat (Z.log2 z)) z.

(** [str(z)]. *)
Definition str_of_Z (z : Z) : string :=
  if z <? 0 then String "-" (pad (ndigits (- z)) (- z)) else pad (ndigits z) z.

(** ** Facts *)

Lemma app_nil_r_s (s : string) : s +:+ "" = s.
Proof. induction s; cbn; congruence. Qed.

Lemma app_assoc_s (s1 s2 s3 : string) : (s1 +:+ s2) +:+ s3 = s1 +:+ (s2 +:+ s3).
Proof. induction s1; cbn; congruence. Qed.

Lemma app_eq_nil_s (s1 s2 : string) : s1 +:+ s2 = "" -> s1 = "" /\ s2 = "".
Proof. destruct s1; cbn; [done|done]. Qed.

Lemma length_app_s (s1 s2 : string) :
  String.length (s1 +:+ s2) = (String.length s1 + String.length s2)%nat.
Proof. induction s1; cbn; congruence. Qed.

Lemma app_inj_l_s (s t1 t2 : string) : s +:+ t1 = s +:+ t2 -> t1 = t2.
Proof. induction s; cbn; [done|]. intros [=]. auto. Qed.

Lemma is_empty_true s : is_empty s = true <-> s = "".
Proof. by destruct s. Qed.

Lemma is_empty_false s : is_empty s = false <-> s <> "".
Proof. by destruct s. Qed.

Lemma prefix_cons c p d s :
  String.prefix (String c p) (String d s) = Ascii.eqb c d && String.prefix p s.
Proof.
  cbn [String.prefix]. destruct (ascii_dec c d) as [->|Hne].
  - by rewrite Ascii.eqb_refl.
  - by apply Ascii.eqb_neq in Hne as ->.
Qed.

Lemma prefix_nil s : String.prefix "" s = true.
Proof. by destruct s. Qed.

Lemma startswith_spec s p : startswith s p = true <-> exists r, s = p +:+ r.
Proof.
  unfold startswith. revert s. induction p as [|c p IH]; intros s.
  - split; [intros _; by exists s|]. by destruct s.
  - destruct s as [|d s]; [split; [done|by intros [? ?]]|].
    rewrite prefix_cons, andb_true_iff, IH, Ascii.eqb_eq. split.
    + intros [-> [r ->]]. by exists r.
    + intros [r [= -> ->]]. eauto.
Qed.

Lemma sdrop_app s t : sdrop (String.length s) (s +:+ t) = t.
Proof. induction s; cbn; [by destruct t|done]. Qed.

Lemma stake_app s t : stake (String.length s) (s +:+ t) = s.
Proof. induction s; cbn; [by destruct t|congruence]. Qed.

Lemma stake_sdrop n s : stake n s +:+ sdrop n s = s.
Proof. revert s. induction n; intros [|c s]; cbn; congruence. Qed.

Lemma length_sdrop n s : String.length (sdrop n s) = (String.length s - n)%nat.
Proof. revert s. induction n; intros [|c s]; cbn; auto. Qed.

Lemma endswith_app s suf : endswith (s +:+ suf) suf = true.
Proof.
  unfold endswith. rewrite length_app_s.
  replace (String.length s + String.length suf - String.length suf)%nat
    with (String.length s) by lia.
  rewrite sdrop_app, String.eqb_refl, andb_true_r. apply Nat.leb_le. lia.
Qed.

Lemma drop_last_app s suf : drop_last (String.length suf) (s +:+ suf) = s.
Proof.
  unfold drop_last. rewrite length_app_s.
  replace (String.length s + String.length suf - String.length suf)%nat
    with (String.length s) by lia.
  apply stake_app.
Qed.

Lemma endswith_spec s suf : endswith s suf = true <-> exists r, s = r +:+ suf.
Proof.
  split.
  - unfold endswith. intros [H1 H2]%andb_true_iff. apply String.eqb_eq in H2.
    exists (stake (String.length s - String.length suf) s). rewrite <- H2 at 2.
    symmetry. apply stake_sdrop.
  - intros [r ->]. apply endswith_app.
Qed.

(** *** Characters of a string *)

Lemma all_chars_app p s t : all_chars p (s +:+ t) = all_chars p s && all_chars p t.
Proof. induction s; cbn; [done|]. rewrite IHs. apply andb_assoc. Qed.

Lemma has_char_app c s t : has_char c (s +:+ t) = has_char c s || has_char c t.
Proof. unfold has_char. induction s; cbn; [done|]. rewrite IHs. apply orb_assoc. Qed.

Lemma all_chars_impl (p q : ascii -> bool) s :
  (forall c, p c = true -> q c = true) -> all_chars p s = true -> all_chars q s = true.
Proof.
  intros H. induction s; cbn; [done|]. rewrite !andb_true_iff. intros [? ?]; auto.
Qed.

Lemma smap_all p f s : (forall c, p c = true -> p (f c) = true) ->
  all_chars p s = true -> all_chars p (smap f s) = true.
Proof. intros H. induction s; cbn; [done|]. rewrite !andb_true_iff. intros [? ?]; auto. Qed.

Lemma smap_id f s : all_chars (fun c => Ascii.eqb (f c) c) s = true -> smap f s = s.
Proof.
  induction s as [|c s IH]; cbn; [done|]. rewrite andb_true_iff. intros [H1 H2].
  apply Ascii.eqb_eq in H1. by rewrite H1, IH.
Qed.

Lemma forall_ascii (P : ascii -> bool) :
  (forall b0 b1 b2 b3 b4 b5 b6 b7, P (Ascii b0 b1 b2 b3 b4 b5 b6 b7) = true) ->
  forall c, P c = true.
Proof. intros H []. apply H. Qed.

Lemma lower_char_idem c : lower_char (lower_char c) = lower_char c.
Proof.
  apply Ascii.eqb_eq. revert c. apply forall_ascii.
  by intros [] [] [] [] [] [] [] [].
Qed.

Lemma lower_idem s : lower (lower s) = lower s.
Proof. unfold lower. induction s; cbn; [done|]. by rewrite lower_char_idem, IHs. Qed.

Lemma lower_is_empty s : is_empty (lower s) = is_empty s.
Proof. by destruct s. Qed.

(** *** Stripping *)

Lemma rstrip_by_split p s :
  exists t, s = rstrip_by p s +:+ t /\ all_chars p t = true.
Proof.
  induction s as [|c s (t & IH & Ht)]; cbn; [by exists ""|].
  destruct (is_empty (rstrip_by p s) && p c) eqn:E.
  - apply andb_true_iff in E as [E Hc]. apply is_empty_true in E. rewrite E in IH.
    exists (String c s). cbn. rewrite Hc. cbn in IH. by rewrite IH.
  - exists t. cbn. by rewrite <- IH.
Qed.

Lemma rstrip_by_idem p s : rstrip_by p (rstrip_by p s) = rstrip_by p s.
Proof.
  induction s as [|c s IH]; cbn; [done|].
  destruct (is_empty (rstrip_by p s) && p c) eqn:E; [done|]. cbn. by rewrite IH, E.
Qed.

Lemma rstrip_by_none p s : all_chars (fun c => negb (p c)) s = true -> rstrip_by p s = s.
Proof.
  induction s as [|c s IH]; cbn; [done|]. rewrite andb_true_iff, negb_true_iff.
  intros [Hc Hs]. by rewrite IH, Hc, andb_false_r.
Qed.

Lemma lstrip_by_none p s : all_chars (fun c => negb (p c)) s = true -> lstrip_by p s = s.
Proof.
  destruct s as [|c s]; cbn; [done|]. rewrite andb_true_iff, negb_true_iff.
  intros [Hc _]. by rewrite Hc.
Qed.

Lemma strip_by_none p s : all_chars (fun c => negb (p c)) s = true -> strip_by p s = s.
Proof. intros H. unfold strip_by. by rewrite lstrip_by_none, rstrip_by_none. Qed.

Lemma rstrip_by_all p q s : all_chars q s = true -> all_chars q (rstrip_by p s) = true.
Proof.
  destruct (rstrip_by_split p s) as (t & E & _). rewrite E at 1.
  rewrite all_chars_app. by intros [? _]%andb_true_iff.
Qed.

Lemma lstrip_by_all p q s : all_chars q s = true -> all_chars q (lstrip_by p s) = true.
Proof.
  induction s as [|c s IH]; cbn; [done|]. intros H. destruct (p c); [|done].
  apply andb_true_iff in H as [_ H]. auto.
Qed.

Lemma strip_by_all p q s : all_chars q s = true -> all_chars q (strip_by p s) = true.
Proof. intros H. by apply rstrip_by_all, lstrip_by_all. Qed.

(** A string that does not start with a stripped character is untouched on the left. *)
Lemma lstrip_by_head p c s : p c = false -> lstrip_by p (String c s) = String c s.
Proof. cbn. by intros ->. Qed.

Lemma rstrip_by_last p s c : p c = false -> rstrip_by p (s +:+ String c "") = s +:+ String c "".
Proof.
  intros H. induction s as [|d s IH]; cbn; [by rewrite H|].
  rewrite IH. by destruct s.
Qed.

(** *** Splitting and joining *)

Lemma split_on_ne sep s : split_on sep s <> [].
Proof. destruct s as [|c s]; cbn; [done|]. destruct (Ascii.eqb c sep); [done|]. by destruct (split_on sep s). Qed.

Lemma split_on_none sep s : has_char sep s = false -> split_on sep s = [s].
Proof.
  unfold has_char. induction s as [|c s IH]; cbn; [done|]. rewrite orb_false_iff.
  intros [H1 H2]. rewrite IH by done. rewrite Ascii.eqb_sym in H1. by rewrite H1.
Qed.

Lemma split_on_app sep s t :
  has_char sep s = false -> split_on sep (s +:+ String sep t) = s :: split_on sep t.
Proof.
  unfold has_char. induction s as [|c s IH]; cbn.
  - intros _. by rewrite Ascii.eqb_refl.
  - rewrite orb_false_iff. intros [H1 H2]. rewrite IH by done.
    rewrite Ascii.eqb_sym in H1. by rewrite H1.
Qed.

Lemma split_on_join sep l :
  l <> [] -> Forall (fun s => has_char sep s = false) l ->
  split_on sep (join (String sep "") l) = l.
Proof.
  intros Hne H. induction H as [|s l Hs Hl IH]; [done|]. destruct l as [|s2 l].
  - cbn. by apply split_on_none.
  - change (join (String sep "") (s :: s2 :: l))
      with (s +:+ (String sep "" +:+ join (String sep "") (s2 :: l))).
    change (String sep "" +:+ join (String sep "") (s2 :: l))
      with (String sep (join (String sep "") (s2 :: l))).
    rewrite split_on_app by done. by rewrite IH.
Qed.

Lemma split_on_free sep s : Forall (fun w => has_char sep w = false) (split_on sep s).
Proof.
  induction s as [|c s IH]; cbn; [by constructor|].
  destruct (Ascii.eqb c sep) eqn:E; [by constructor|].
  destruct (split_on sep s) as [|w ws]; [by repeat constructor; unfold has_char; cbn; rewrite Ascii.eqb_sym, E|].
  inversion IH; subst. constructor; [|done]. unfold has_char in *. cbn. by rewrite Ascii.eqb_sym, E.
Qed.

Lemma split_once_spec sep s a b :
  split_once sep s = Some (a, b) <-> s = a +:+ String sep b /\ has_char sep a = false.
Proof.
  unfold has_char. revert a b. induction s as [|c s IH]; intros a b; cbn.
  - split; [done|]. intros [H _]. by destruct a.
  - destruct (Ascii.eqb c sep) eqn:E.
    + apply Ascii.eqb_eq in E as ->. split.
      * by intros [= <- <-].
      * destruct a as [|d a]; cbn; [by intros [[= ->] _]|]. intros [[= -> _] H].
        by rewrite Ascii.eqb_refl in H.
    + destruct (split_once sep s) as [[a' b']|] eqn:E2.
      * destruct (IH a' b') as [IH1 _]. destruct (IH1 eq_refl) as [-> Ha]. split.
        { intros [= <- <-]. cbn. rewrite Ascii.eqb_sym, E. done. }
        destruct a as [|d a]; cbn; [intros [[= -> _] _]; by rewrite Ascii.eqb_refl in E|].
        intros [[= -> H] Hh]. apply orb_false_iff in Hh as [_ Hh].
        assert (Some (a', b') = Some (a, b)) as [= -> ->]; [|done].
        apply IH. by rewrite H.
      * split; [done|]. destruct a as [|d a]; cbn; [intros [[= -> _] _]; by rewrite Ascii.eqb_refl in E|].
        intros [[= -> H] Hh]. apply orb_false_iff in Hh as [_ Hh].
        assert (None = Some (a, b)) by by apply IH. done.
Qed.

Lemma split_once_none sep s : split_once sep s = None <-> has_char sep s = false.
Proof.
  unfold has_char. induction s as [|c s IH]; cbn; [done|].
  rewrite (Ascii.eqb_sym sep c). destruct (Ascii.eqb c sep); [done|]. cbn. rewrite <- IH.
  by destruct (split_once sep s) as [[]|].
Qed.

Lemma split_on_app_sep sep s t :
  split_on sep (s +:+ String sep t) = split_on sep s ++ split_on sep t.
Proof.
  induction s as [|c s IH]; cbn.
  - by rewrite Ascii.eqb_refl.
  - rewrite IH. destruct (Ascii.eqb c sep); [done|].
    pose proof (split_on_ne sep s). by destruct (split_on sep s).
Qed.

Lemma join_split sep s : join (String sep "") (split_on sep s) = s.
Proof.
  induction s as [|c s IH]; cbn; [done|].
  pose proof (split_on_ne sep s) as Hne. destruct (Ascii.eqb c sep) eqn:E.
  - apply Ascii.eqb_eq in E as ->. destruct (split_on sep s) as [|w ws]; [done|].
    change (String sep (join (String sep "") (w :: ws)) = String sep s). by rewrite IH.
  - destruct (split_on sep s) as [|w ws]; [done|]. destruct ws; cbn in *; by rewrite <- IH.
Qed.

Lemma join_app sep l1 l2 :
  l1 <> [] -> l2 <> [] -> join sep (l1 ++ l2) = join sep l1 +:+ (sep +:+ join sep l2).
Proof.
  intros H1 H2. induction l1 as [|w l1 IH]; [done|]. destruct l1 as [|w2 l1].
  - by destruct l2.
  - change (join sep ((w :: w2 :: l1) ++ l2)) with (w +:+ (sep +:+ join sep ((w2 :: l1) ++ l2))).
    rewrite IH by done.
    change (join sep (w :: w2 :: l1)) with (w +:+ (sep +:+ join sep (w2 :: l1))).
    by rewrite !app_assoc_s.
Qed.

(** ** Decimal numbers *)

Lemma digit_of_spec z : 0 <= z < 10 -> is_digit (digit_of z) = true /\ digit_val (digit_of z) = z.
Proof.
  assert (forallb (fun k => is_digit (digit_of (Z.of_nat k)) &&
    (digit_val (digit_of (Z.of_nat k)) =? Z.of_nat k)) (seq 0 10) = true) as H
    by (vm_compute; reflexivity).
  intros Hz. rewrite forallb_forall in H. specialize (H (Z.to_nat z)).
  rewrite in_seq, Z2Nat.id in H by lia. specialize (H ltac:(lia)).
  apply andb_true_iff in H as [? ?%Z.eqb_eq]. done.
Qed.

Lemma pad_digits w z : all_chars is_digit (pad w z) = true.
Proof.
  induction w as [|w IH]; cbn [pad all_chars]; [done|]. rewrite IH, andb_true_r.
  apply digit_of_spec. by apply Z.mod_pos_bound.
Qed.

Lemma digits_acc_pad w acc z :
  digits_acc acc (pad w z) = acc * 10 ^ Z.of_nat w + z mod 10 ^ Z.of_nat w.
Proof.
  revert acc. induction w as [|w IH]; intros acc; cbn [pad digits_acc].
  - rewrite Z.mod_1_r. cbn. lia.
  - rewrite IH, (proj2 (digit_of_spec _ (Z.mod_pos_bound _ 10 ltac:(lia)))).
    rewrite Nat2Z.inj_succ, Z.pow_succ_r by lia.
    rewrite (Z.mul_comm 10 (10 ^ _)), Z.rem_mul_r by lia. lia.
Qed.

Lemma ndigits_fuel_spec f z :
  0 <= z -> Z.log2 z <= Z.of_nat f -> z < 10 ^ Z.of_nat (ndigits_fuel f z).
Proof.
  revert z. induction f as [|f IH]; intros z Hz Hf; cbn [ndigits_fuel].
  - destruct (Z.eq_dec z 0) as [->|]; [cbn; lia|].
    pose proof (Z.log2_spec z ltac:(lia)). replace (Z.log2 z) with 0 in * by (pose proof (Z.log2_nonneg z); lia).
    cbn in *. lia.
  - destruct (Z.ltb_spec z 10); [cbn; lia|].
    assert (Z.log2 (z / 10) <= Z.of_nat f) as Hl.
    { assert (z / 10 <= z / 2) by (Z.to_euclidean_division_equations; lia).
      assert (Z.log2 (z / 2) = Z.log2 z - 1) as H2.
      { rewrite <- Z.div2_div, Z.div2_spec, Z.log2_shiftr by lia.
        pose proof (Z.log2_le_mono 10 z ltac:(lia)). change (Z.log2 10) with 3 in *. lia. }
      apply Z.log2_le_mono in H0. lia. }
    pose proof (IH (z / 10) ltac:(apply Z.div_pos; lia) Hl) as IHz.
    rewrite Nat2Z.inj_succ, Z.pow_succ_r by lia. pose proof (Z.mod_pos_bound z 10 ltac:(lia)).
    pose proof (Z.div_mod z 10 ltac:(lia)). lia.
Qed.

Lemma ndigits_spec z : 0 <= z -> z < 10 ^ Z.of_nat (ndigits z).
Proof. intros H. apply ndigits_fuel_spec; [done|]. pose proof (Z.log2_nonneg z). lia. Qed.

Lemma str_of_nonneg z : 0 <= z -> str_of_Z z = pad (ndigits z) z.
Proof. intros H. unfold str_of_Z. by rewrite (proj2 (Z.ltb_ge z 0) H). Qed.

Lemma int_of_str_of_Z z : 0 <= z -> int_of_digits (str_of_Z z) = z.
Proof.
  intros H. rewrite str_of_nonneg by done. unfold int_of_digits. rewrite digits_acc_pad.
  rewrite Z.mod_small; [lia|]. split; [done|]. by apply ndigits_spec.
Qed.

Lemma str_of_Z_digits z : 0 <= z -> all_chars is_digit (str_of_Z z) = true.
Proof. intros H. rewrite str_of_nonneg by done. apply pad_digits. Qed.

Lemma str_of_Z_nonempty z : 0 <= z -> is_empty (str_of_Z z) = false.
Proof.
  intros H. rewrite str_of_nonneg by done. unfold ndigits.
  destruct (Z.to_nat (Z.log2 z)); cbn [ndigits_fuel]; [done|]. by destruct (z <? 10).
Qed.

Lemma has_char_all d s : has_char d s = negb (all_chars (fun c => negb (Ascii.eqb d c)) s).
Proof. unfold has_char. induction s; cbn; [done|]. rewrite IHs. by destruct (Ascii.eqb d a). Qed.

(** ** The order of texts *)

Lemma string_leb_trans a b c :
  String.leb a b = true -> String.leb b c = true -> String.leb a c = true.
Proof.
  intros H1 H2. apply Is_true_true.
  eapply (transitivity (R := String.le)); apply Is_true_true; eassumption.
Qed.

Lemma string_leb_refl a : String.leb a a = true.
Proof. by destruct (String.leb_total a a). Qed.

Lemma string_ltb_leb a b : String.ltb a b = negb (String.leb b a).
Proof. unfold String.ltb, String.leb. rewrite (String.compare_antisym a b). by destruct (String.compare b a). Qed.

Lemma string_leb_eq a b : String.leb a b = true -> String.leb b a = true -> a = b.
Proof.
  unfold String.leb. rewrite (String.compare_antisym a b).
  destruct (String.compare b a) eqn:E; cbn; try done. intros _ _. symmetry. by apply String.compare_eq_iff.
Qed.

(** * Paths

    [pathlib.PurePosixPath] as the program uses it: a path is the text [str(Path(p))] gives,
    with repeated slashes and [.] components dropped and [..] kept. *)

(** The root and the parts: a POSIX path keeps exactly two leading slashes. *)
Definition path_root (p : string) : string :=
  if startswith p "///" then "/" else if startswith p "//" then "//"
  else if startswith p "/" then "/" else "".

Definition real_part (c : string) : bool := negb (is_empty c || (c =s ".")).

Definition path_parts (p : string) : list string := List.filter real_part (split_on "/" p).

Definition path_render (root : string) (parts : list string) : string :=
  let s := root +:+ join "/" parts in if is_empty s then "." else s.

(** [str(Path(p))]. *)
Definition path_str (p : string) : string := path_render (path_root p) (path_parts p).

(** [str(Path(a) / b)]. *)
Definition path_join (a b : string) : string :=
  if startswith b "/" || is_empty a then path_str b
  else path_str (if endswith a "/" then a +:+ b else a +:+ "/" +:+ b).

Notation "a '//' b" := (path_join a b) (at level 51, left associativity) : py_scope.

Definition is_absolute (p : string) : bool := startswith p "/".

(** [str(Path(p).parent)] and [Path(p).name]. *)
Definition path_parent (p : string) : string :=
  path_render (path_root p) (removelast (path_parts p)).
Definition path_name (p : string) : string := last (path_parts p) "".

(** [Path(p).stem]. *)
Fixpoint rsplit_dot (s : string) : option (string * string) :=
  match s with
  | EmptyString => None
  | String c s' =>
      match rsplit_dot s' with
      | Some (a, b) => Some (String c a, b)
      | None => if Ascii.eqb c "." then Some ("", s') else None
      end
  end.
Definition path_stem (p : string) : string :=
  let n := path_name p in
  match rsplit_dot n with
  | Some (a, b) => if is_empty a || is_empty b then n else a
  | None => n
  end.

(** The path and its ancestors, root excluded: what [mkdir(parents=True)] creates. *)
Definition path_chain (p : string) : list string :=
  map (fun n => path_render (path_root p) (firstn n (path_parts p)))
    (seq 1 (length (path_parts p))).

(** [q] is [p] or lies below it. *)
Definition under_path (p q : string) : bool := (q =s p) || startswith q (p +:+ "/").

Example path_join_ex : "/root/.drydock" // "overlays//./x" // "dock_a.json" = "/root/.drydock/overlays/x/dock_a.json".
Proof. reflexivity. Qed.
Example path_abs_ex : "/root" // "/etc/passwd" = "/etc/passwd".
Proof. reflexivity. Qed.
Example path_chain_ex : path_chain "/a/b/../c" = ["/a"; "/a/b"; "/a/b/.."; "/a/b/../c"].
Proof. reflexivity. Qed.
Example path_stem_ex : path_stem "/x/com.drydock.a.plist" = "com.drydock.a".
Proof. reflexivity. Qed.

Lemma under_path_refl p : under_path p p = true.
Proof. unfold under_path. by rewrite String.eqb_refl. Qed.

(** ** Joining a plain component

    A plain name (non-empty, not [.], without a slash) joined to a path is one
    more component, so different plain names give different paths. *)

Definition plain (n : string) : bool := real_part n && negb (has_char "/" n).

Lemma path_parts_plain p : Forall (fun c => plain c = true) (path_parts p).
Proof.
  apply List.Forall_forall. intros c Hc. apply filter_In in Hc as [Hin Hr].
  pose proof (split_on_free "/" p) as Hf. rewrite List.Forall_forall in Hf.
  unfold plain. by rewrite Hr, (Hf c Hin).
Qed.

Lemma filter_plain l : Forall (fun c => plain c = true) l -> List.filter real_part l = l.
Proof.
  induction 1 as [|c l Hc _ IH]; [done|]. cbn. unfold plain in Hc. breflect.
  by rewrite H, IH.
Qed.

Lemma path_parts_join l : Forall (fun c => plain c = true) l -> path_parts (join "/" l) = l.
Proof.
  intros H. destruct l as [|c l]; [done|]. unfold path_parts.
  rewrite split_on_join; [by apply filter_plain|done|].
  eapply Forall_impl; [|exact H]. cbn. intros x Hx. unfold plain in Hx. by breflect.
Qed.

Lemma path_parts_slash p : path_parts (String "/" p) = path_parts p.
Proof. done. Qed.

Lemma path_root_cases p : path_root p = "/" \/ path_root p = "//" \/ path_root p = "".
Proof. unfold path_root. repeat case_match; auto. Qed.

Lemma path_parts_render p l : Forall (fun c => plain c = true) l ->
  path_parts (path_render (path_root p) l) = l.
Proof.
  intros H. pose proof (path_parts_join l H) as Hj. unfold path_render.
  destruct (path_root_cases p) as [->|[->| ->]]; [exact Hj..|].
  change ("" +:+ join "/" l) with (join "/" l). destruct (join "/" l); [|done]. exact Hj.
Qed.

Lemma path_parts_str p : path_parts (path_str p) = path_parts p.
Proof. apply path_parts_render, path_parts_plain. Qed.

Lemma path_parts_plain_join a n : plain n = true -> path_parts (a // n) = path_parts a ++ [n].
Proof.
  intros Hn. assert (Hn' := Hn). unfold plain in Hn'. breflect.
  assert (Hs : startswith n "/" = false).
  { destruct (startswith n "/") eqn:E; [|done].
    by apply startswith_spec in E as (r & ->). }
  assert (Hsn : split_on "/" n = [n]) by by apply split_on_none.
  assert (Hone : path_parts n = [n]) by (unfold path_parts; rewrite Hsn; cbn; by rewrite H).
  unfold path_join. rewrite Hs. cbn [orb]. destruct (is_empty a) eqn:Ea.
  - apply is_empty_true in Ea as ->. by rewrite path_parts_str, Hone.
  - rewrite path_parts_str. destruct (endswith a "/") eqn:Ee.
    + apply endswith_spec in Ee as (r & ->). rewrite app_assoc_s. unfold path_parts. cbn.
      rewrite !split_on_app_sep, !List.filter_app, Hsn. cbn. by rewrite H, app_nil_r.
    + unfold path_parts. cbn. rewrite split_on_app_sep, List.filter_app, Hsn. cbn. by rewrite H.
Qed.

Lemma path_join_inj a x y : plain x = true -> plain y = true -> a // x = a // y -> x = y.
Proof.
  intros Hx Hy H. apply (f_equal path_parts) in H. rewrite !path_parts_plain_join in H by done.
  by apply app_inj_tail in H as [_ ->].
Qed.

Lemma path_name_join a n : plain n = true -> path_name (a // n) = n.
Proof. intros H. unfold path_name. rewrite path_parts_plain_join by done. apply last_last. Qed.
