(* ===== verification/PyVal.v ===== *)
(** Dynamic Python values: what [json.loads] and [yaml.safe_load] return, with
    the tests ([isinstance], truth value, [dict.get]) the program applies to
    them. A dict is the association list of its items in insertion order; a
    float is an IEEE double ([SpecFloat]); [bool] is a separate constructor, and
    the places where Python treats it as an [int] say so. *)

From S2P Require Import Prelude PyStr.
From Stdlib Require Import List.
From Corelib Require Import SpecFloat.

Inductive json : Type :=
  | JNull
  | JBool (b : bool)
  | JInt (z : Z)
  | JFloat (f : spec_float)
  | JStr (s : string)
  | JList (l : list json)
  | JObj (kvs : list (string * json)).

(** A dict. *)
Abbreviation obj := (list (string * json)).

(** [bool(v)]. *)
Definition truthy (v : json) : bool :=
  match v with
  | JNull => false
  | JBool b => b
  | JInt z => negb (z =? 0)
  | JFloat f => match f with S754_zero _ => false | _ => true end
  | JStr s => negb (is_empty s)
  | JList l => match l with [] => false | _ => true end
  | JObj o => match o with [] => false | _ => true end
  end.

(** [d.get(k)], [None] when the key is absent. *)
Fixpoint assoc {A} (k : string) (l : list (string * A)) : option A :=
  match l with
  | [] => None
  | (k', v) :: l' => if k =s k' then Some v else assoc k l'
  end.

(** [d.get(k)] with Python's [None] for an absent key. *)
Definition jget (k : string) (o : list (string * json)) : json :=
  match assoc k o with Some v => v | None => JNull end.

(** [d.get(k, default)]. *)
Definition jget_default (k : string) (d : json) (o : list (string * json)) : json :=
  match assoc k o with Some v => v | None => d end.

Definition has_key (k : string) {A} (o : list (string * A)) : bool :=
  match assoc k o with Some _ => true | None => false end.

(** [d[k] = v]: replaces in place, appends a new key. *)
Fixpoint jset {A} (k : string) (v : A) (o : list (string * A)) : list (string * A) :=
  match o with
  | [] => [(k, v)]
  | (k', v') :: o' => if k =s k' then (k', v) :: o' else (k', v') :: jset k v o'
  end.

(** [{**a, **b}]. *)
Definition jmerge {A} (a b : list (string * A)) : list (string * A) :=
  fold_left (fun acc kv => jset (fst kv) (snd kv) acc) b a.

Definition is_str (v : json) : bool := match v with JStr _ => true | _ => false end.

Definition type_name (v : json) : string :=
  match v with
  | JNull => "NoneType" | JBool _ => "bool" | JInt _ => "int" | JFloat _ => "float"
  | JStr _ => "str" | JList _ => "list" | JObj _ => "dict"
  end.

(** [float(z)] of a positive int: round to nearest even; [None] is Python's
    [OverflowError], the only other outcome. *)
Definition float_of_pos (z : Z) : option spec_float :=
  match binary_normalize 53 1024 z 0 false with
  | S754_finite false m e => Some (S754_finite false m e)
  | _ => None
  end.

(** [f <= 0]. *)
Definition float_nonpos (f : spec_float) : bool :=
  match f with
  | S754_zero _ => true
  | S754_infinity s => s
  | S754_nan => false
  | S754_finite s _ _ => s
  end.

(** [x == v] for an [int] x, as [in] tests it on the elements of a list. *)
Definition int_eq_json (x : Z) (v : json) : bool :=
  match v with
  | JInt z => x =? z
  | JBool b => x =? (if b then 1 else 0)
  | JFloat (S754_zero _) => x =? 0
  | JFloat (S754_finite s m e) =>
      let m' := if s then Z.neg m else Z.pos m in
      if 0 <=? e then x =? m' * 2 ^ e else x * 2 ^ (- e) =? m'
  | _ => false
  end.

(** [s == v] for a [str] s. *)
Definition str_eq_json (s : string) (v : json) : bool :=
  match v with JStr t => s =s t | _ => false end.

(** [repr] of a double, the shortest decimal that reads back as it, is a parameter. *)
Class FloatRepr : Type := { float_repr : spec_float -> string }.

Definition repr_list (l : list string) : string := "[" +:+ join ", " l +:+ "]".

(** [repr(v)]; [str(v)] is the same but for a text, which it leaves as it is. *)
Fixpoint py_repr `{FloatRepr} (v : json) : string :=
  match v with
  | JNull => "None"
  | JBool b => if b then "True" else "False"
  | JInt z => str_of_Z z
  | JFloat f => float_repr f
  | JStr s => repr_str s
  | JList l => repr_list (map py_repr l)
  | JObj o => "{" +:+ join ", " (map (fun kv => repr_str (fst kv) +:+ ": " +:+ py_repr (snd kv)) o) +:+ "}"
  end.

(** [sorted(l)] of texts, printed. *)
Definition repr_sorted (l : list string) : string := repr_list (map repr_str (order_by String.leb l)).

(** [str(v)]. *)
Definition py_str `{FloatRepr} (v : json) : string :=
  match v with JStr s => s | _ => py_repr v end.

Lemma assoc_jset_eq {A} k (v : A) o : assoc k (jset k v o) = Some v.
Proof.
  induction o as [|[k' v'] o IH]; cbn.
  - by rewrite String.eqb_refl.
  - destruct (k =s k') eqn:E; cbn; rewrite E; done.
Qed.

Lemma assoc_jset_ne {A} k k' (v : A) o : k <> k' -> assoc k (jset k' v o) = assoc k o.
Proof.
  intros Hne. induction o as [|[k2 v2] o IH]; cbn.
  - destruct (String.eqb_spec k k'); [done|done].
  - destruct (String.eqb_spec k' k2) as [->|]; cbn.
    + destruct (String.eqb_spec k k2); [done|done].
    + by rewrite IH.
Qed.
#[export] Hint Rewrite @assoc_jset_eq : pyrw.

Lemma int_eq_json_int x z : int_eq_json x (JInt z) = true <-> x = z.
Proof. cbn. apply Z.eqb_eq. Qed.

(** ** Exceptions *)

(** [RpcError] is the daemon's [_RpcError], [WsError] the CLI's; [IntegrityError]
    is sqlite3's; [PyError] is any other exception, by class name and message. *)
Inductive exn : Type :=
  | RpcError (code : Z) (message : string) (data : option json)
  | WsError (message : string) (fix_hint : option string)
  | IntegrityError
  | ValueError (message : string)
  | PyError (kind message : string).

Definition rpc_error {A} (code : Z) (message : string) (data : list (string * json)) : res exn A :=
  Err (RpcError code message (Some (JObj data))).

Definition opt_str (o : option string) : json :=
  match o with Some s => JStr s | None => JNull end.

(** [list(v)]. *)
Definition as_list (v : json) : res exn (list json) :=
  match v with
  | JList l => Ok l
  | JStr s => Ok (map (fun c => JStr (String c "")) (list_ascii_of_string s))
  | JObj o => Ok (map (fun kv => JStr (fst kv)) o)
  | _ => Err (PyError "TypeError" "object is not iterable")
  end.

(** [str(exc)]. *)
Definition str_exn (e : exn) : string :=
  match e with
  | RpcError _ m _ | WsError m _ | ValueError m | PyError _ m => m
  | IntegrityError => "constraint failed"
  end.

(** The name of the exception's class. *)
Definition exn_class (e : exn) : string :=
  match e with
  | RpcError _ _ _ => "_RpcError" | WsError _ _ => "WsError" | IntegrityError => "IntegrityError"
  | ValueError _ => "ValueError" | PyError k _ => k
  end.

(** ** [int(v)] *)

(** The integer part of a finite double. *)
Definition float_trunc (s : bool) (m : positive) (e : Z) : Z :=
  let a := if 0 <=? e then Z.pos m * 2 ^ e else Z.pos m / 2 ^ (- e) in
  if s then - a else a.

(** Decimal digits, with single underscores between them. *)
Definition digit_groups (s : string) : option Z :=
  let gs := split_on "_" s in
  if forallb (fun g => negb (is_empty g) && all_chars is_digit g) gs
  then Some (int_of_digits (join "" gs)) else None.

Definition int_of_str (s : string) : option Z :=
  match strip s with
  | String c r =>
      if Ascii.eqb c "-" then option_map Z.opp (digit_groups r)
      else if Ascii.eqb c "+" then digit_groups r else digit_groups (strip s)
  | EmptyString => None
  end.

(** [int(v)]: a [ValueError], [OverflowError] or [TypeError] when there is none. *)
Definition py_int `{FloatRepr} (v : json) : res exn Z :=
  match v with
  | JInt z => Ok z
  | JBool b => Ok (if b then 1 else 0)
  | JFloat (S754_zero _) => Ok 0
  | JFloat (S754_finite s m e) => Ok (float_trunc s m e)
  | JFloat (S754_infinity _) => Err (PyError "OverflowError" "cannot convert float infinity to integer")
  | JFloat S754_nan => Err (ValueError "cannot convert float NaN to integer")
  | JStr s =>
      match int_of_str s with
      | Some z => Ok z
      | None => Err (ValueError ("invalid literal for int() with base 10: " +:+ repr_str s))
      end
  | _ => Err (PyError "TypeError" ("int() argument must be a string, a bytes-like object or a real number, not '"
           +:+ type_name v +:+ "'"))
  end.

Example int_of_str_ex : int_of_str " -1_000
" = Some (-1000).
Proof. reflexivity. Qed.

(** [a or b]. *)
Definition py_or (a b : json) : json := if truthy a then a else b.

(** [a == b] of two values that are not containers. *)
Definition scalar_eq (a b : json) : bool :=
  match a, b with
  | JNull, JNull => true
  | JStr s, JStr t => s =s t
  | JInt x, v => int_eq_json x v
  | JBool x, v => int_eq_json (if x then 1 else 0) v
  | JFloat f, JInt x => int_eq_json x (JFloat f)
  | JFloat f, JBool x => int_eq_json (if x then 1 else 0) (JFloat f)
  | JFloat f, JFloat g => SFeqb f g
  | _, _ => false
  end.

Definition is_container (v : json) : bool := match v with JList _ | JObj _ => true | _ => false end.

(** [sep.join(l)]: every element must be a text. *)
Fixpoint py_texts (n : Z) (l : list json) : res exn (list string) :=
  match l with
  | [] => Ok []
  | JStr s :: l' => ts ← py_texts (n + 1) l'; Ok (s :: ts)
  | v :: _ => Err (PyError "TypeError" ("sequence item " +:+ str_of_Z n +:+ ": expected str instance, "
                +:+ type_name v +:+ " found"))
  end.
Definition py_join (sep : string) (l : list json) : res exn string :=
  ts ← py_texts 0 l; Ok (join sep ts).

(** [v.name(...)] on a value of another type. *)
Definition attr_error {A} (v : json) (name : string) : res exn A :=
  Err (PyError "AttributeError" ("'" +:+ type_name v +:+ "' object has no attribute '" +:+ name +:+ "'")).

(** ** Equality and membership *)

(** [a == b]: of lists elementwise, of dicts whatever the order of the keys. *)
Fixpoint py_eq (a b : json) {struct a} : bool :=
  match a, b with
  | JList l, JList m =>
      (fix go l m := match l, m with
                     | [], [] => true
                     | x :: l, y :: m => py_eq x y && go l m
                     | _, _ => false
                     end) l m
  | JObj o, JObj p =>
      Nat.eqb (length o) (length p)
      && (fix go o := match o with
                      | [] => true
                      | (k, x) :: o => match assoc k p with Some y => py_eq x y | None => false end && go o
                      end) o
  | JList _, _ | JObj _, _ => false
  | _, _ => scalar_eq a b
  end.

Definition py_mem (v : json) (l : list json) : bool := existsb (fun x => py_eq x v) l.

(** [k in v] for a text [k]. *)
Definition py_in (k : string) (v : json) : res exn bool :=
  match v with
  | JList l => Ok (py_mem (JStr k) l)
  | JStr s => Ok (contains k s)
  | JObj o => Ok (has_key k o)
  | v => Err (PyError "TypeError" ("argument of type '" +:+ type_name v +:+ "' is not iterable"))
  end.

(** * Floats beyond literals

    Python floats beyond [PyVal]: [float(v)], with the decimal texts it reads rounded to nearest even,
    comparison, and the product with an integer. *)

Definition prec : Z := 53.
Definition emax : Z := 1024.

Definition nan : spec_float := S754_nan.
Definition inf (negative : bool) : spec_float := S754_infinity negative.

(** An integer, rounded; beyond the largest double it is infinite. *)
Definition sf_of_Z (z : Z) : spec_float := binary_normalize prec emax z 0 false.

(** [sign * m * 10^e], rounded once. Outside the first two bounds the value is above the largest
    double, or below half the least. *)
Definition sf_of_decimal (negative : bool) (m e : Z) : spec_float :=
  match m with
  | Zpos p =>
      if 310 <? Z.of_nat (ndigits m) + e then inf negative
      else if Z.of_nat (ndigits m) + e <? -330 then S754_zero negative
      else if 0 <=? e
      then match sf_of_Z (m * 10 ^ e) with
           | S754_finite _ p' e' => S754_finite negative p' e'
           | S754_infinity _ => inf negative
           | f => f
           end
      else SFdiv prec emax (S754_finite negative p 0) (S754_finite false (Z.to_pos (10 ^ (- e))) 0)
  | _ => S754_zero negative
  end.

(** A group of digits that may be empty, with its value and its number of digits. *)
Definition opt_digits (s : string) : option (Z * Z) :=
  if is_empty s then Some (0, 0)
  else match digit_groups s with
       | Some z => Some (z, Z.of_nat (String.length (join "" (split_on "_" s))))
       | None => None
       end.

Definition exponent_of (s : string) : option Z :=
  match s with
  | String "-" r => option_map Z.opp (digit_groups r)
  | String "+" r => digit_groups r
  | _ => digit_groups s
  end.

(** The mantissa [d.d], [d.], [.d] or [d], with the exponent [e]. *)
Definition mantissa (negative : bool) (s : string) (e : Z) : option spec_float :=
  let '(i, f) := match split_once "." s with Some (i, f) => (i, f) | None => (s, "") end in
  if is_empty i && is_empty f then None
  else match opt_digits i, opt_digits f with
       | Some (vi, _), Some (vf, n) => Some (sf_of_decimal negative (vi * 10 ^ n + vf) (e - n))
       | _, _ => None
       end.

Definition unsigned_float (negative : bool) (s : string) : option spec_float :=
  let s := lower s in
  if (s =s "inf") || (s =s "infinity") then Some (inf negative)
  else if s =s "nan" then Some nan
  else match split_once "e" s with
       | Some (m, x) => match exponent_of x with Some e => mantissa negative m e | None => None end
       | None => mantissa negative s 0
       end.

(** [float(s)]; [None] is a [ValueError]. *)
Definition float_of_str (s : string) : option spec_float :=
  match strip s with
  | String "-" r => unsigned_float true r
  | String "+" r => unsigned_float false r
  | s' => unsigned_float false s'
  end.

(** [float(v)]. *)
Definition py_float (v : json) : res exn spec_float :=
  match v with
  | JInt z => match sf_of_Z z with
              | S754_infinity _ => Err (PyError "OverflowError" "int too large to convert to float")
              | f => Ok f
              end
  | JBool b => Ok (sf_of_Z (if b then 1 else 0))
  | JFloat f => Ok f
  | JStr s => match float_of_str s with
              | Some f => Ok f
              | None => Err (ValueError ("could not convert string to float: " +:+ repr_str s))
              end
  | _ => Err (PyError "TypeError" ("float() argument must be a string or a real number, not '" +:+ type_name v +:+ "'"))
  end.

(** [f > g]; a NaN is above nothing. *)
Definition float_gt (f g : spec_float) : bool := SFltb g f.

(** [f * n] for an integer that a double holds. *)
Definition float_times (f : spec_float) (n : Z) : spec_float := SFmul prec emax f (sf_of_Z n).

(** [int(f)]. *)
Definition int_of_float (f : spec_float) : res exn Z :=
  match f with
  | S754_zero _ => Ok 0
  | S754_finite s m e => Ok (float_trunc s m e)
  | S754_infinity _ => Err (PyError "OverflowError" "cannot convert float infinity to integer")
  | S754_nan => Err (ValueError "cannot convert float NaN to integer")
  end.

(** ** Order of the values a YAML list may hold *)

(** A number as [m * 2^e]. *)
Definition number_of (v : json) : option (Z * Z) :=
  match v with
  | JInt z => Some (z, 0)
  | JBool b => Some (if b then 1 else 0, 0)
  | JFloat (S754_zero _) => Some (0, 0)
  | JFloat (S754_finite s m e) => Some (if s then Z.neg m else Z.pos m, e)
  | _ => None
  end.

Definition number_leb (a b : Z * Z) : bool :=
  let e := Z.min (snd a) (snd b) in fst a * 2 ^ (snd a - e) <=? fst b * 2 ^ (snd b - e).

(** [a <= b] of two texts or two finite numbers; other pairs do not compare. *)
Definition py_leb (a b : json) : option bool :=
  match a, b with
  | JStr s, JStr t => Some (String.leb s t)
  | _, _ => match number_of a, number_of b with Some x, Some y => Some (number_leb x y) | _, _ => None end
  end.

(** [sorted(l)] of hashable values. *)
Definition py_sorted (l : list json) : res exn (list json) :=
  if forallb (fun a => forallb (fun b => is_some (py_leb a b)) l) l || Nat.leb (length l) 1
  then Ok (order_by (fun a b => default false (py_leb a b)) l)
  else Err (PyError "TypeError" "'<' not supported between instances").

Example float_of_str_ex :
  map float_of_str ["2.0"; " 1_000.5e-1 "; "-.5"; "nan"; "1e400"; "0x10"; "1__0"; "."]
  = [Some (S754_finite false 4503599627370496 (-51)); Some (S754_finite false 7040392854975283 (-46));
     Some (S754_finite true 4503599627370496 (-53)); Some nan; Some (inf false); None; None; None].
Proof. vm_compute. reflexivity. Qed.
