(* ===== verification/Glob.v ===== *)
(** [fnmatch.fnmatchcase]: shell-style patterns, parsed the way
    [fnmatch.translate] does, and the fact that makes glob grants sound: a
    grant pattern made of literals and [*] that matches a request's text also
    matches every action the request stands for. *)

From S2P Require Import Prelude PyStr.
From Stdlib Require Import List.

Inductive gitem : Type :=
  | GChar (c : ascii)
  | GRange (lo hi : ascii).

Inductive gtok : Type :=
  | GLit (c : ascii)
  | GOne
  | GStar
  | GClass (neg : bool) (items : list gitem).

(** ** Bracket expressions *)

Fixpoint class_items (s : string) : list gitem :=
  match s with
  | EmptyString => []
  | String a s1 =>
      match s1 with
      | String d (String b rest) =>
          if Ascii.eqb d "-" then GRange a b :: class_items rest
          else GChar a :: class_items s1
      | _ => GChar a :: class_items s1
      end
  end.

Definition item_nonempty (i : gitem) : bool :=
  match i with GChar _ => true | GRange lo hi => code lo <=? code hi end.

(** The text between the brackets; empty ranges are dropped before the leading
    [!] is looked at, as [fnmatch.translate] does. *)
Definition compile_class (stuff : string) : gtok :=
  let items := match stuff with
               | String "!" rest => GChar "!" :: class_items rest
               | _ => class_items stuff
               end in
  match List.filter item_nonempty items with
  | GChar "!" :: tl => GClass true tl
  | GRange "!" hi :: tl => GClass true (GChar "-" :: GChar hi :: tl)
  | l => GClass false l
  end.

(** After a [[]: the class text and what follows the closing bracket. *)
Definition split_class (s : string) : option (string * string) :=
  let '(p1, s1) := match s with String "!" t => ("!", t) | _ => ("", s) end in
  let '(p2, s2) := match s1 with String "]" t => ("]", t) | _ => ("", s1) end in
  match split_once "]" s2 with
  | Some (mid, rest) => Some (p1 +:+ p2 +:+ mid, rest)
  | None => None
  end.

Fixpoint glob_parse_fuel (fuel : nat) (p : string) : list gtok :=
  match fuel, p with
  | O, _ | _, EmptyString => []
  | S f, String c p' =>
      if Ascii.eqb c "*" then GStar :: glob_parse_fuel f p'
      else if Ascii.eqb c "?" then GOne :: glob_parse_fuel f p'
      else if Ascii.eqb c "[" then
        match split_class p' with
        | Some (stuff, rest) => compile_class stuff :: glob_parse_fuel f rest
        | None => GLit c :: glob_parse_fuel f p'
        end
      else GLit c :: glob_parse_fuel f p'
  end.

(** Every token consumes at least one character, so the length is enough fuel. *)
Definition glob_parse (p : string) : list gtok := glob_parse_fuel (String.length p) p.

(** ** Matching *)

Definition item_match (c : ascii) (i : gitem) : bool :=
  match i with GChar d => Ascii.eqb c d | GRange lo hi => in_range (code lo) (code hi) c end.

Fixpoint gmatch (p : list gtok) (s : string) : bool :=
  match p with
  | [] => is_empty s
  | GStar :: p' =>
      (fix star (s : string) : bool :=
         gmatch p' s || match s with EmptyString => false | String _ s' => star s' end) s
  | GLit c :: p' => match s with String d s' => Ascii.eqb c d && gmatch p' s' | _ => false end
  | GOne :: p' => match s with String _ s' => gmatch p' s' | _ => false end
  | GClass neg items :: p' =>
      match s with
      | String d s' => xorb neg (existsb (item_match d) items) && gmatch p' s'
      | _ => false
      end
  end.

(** [fnmatch.fnmatchcase(name, pat)]. *)
Definition fnmatchcase (name pat : string) : bool := gmatch (glob_parse pat) name.

(** ** Literal-and-star patterns *)

Definition simple_tok (t : gtok) : bool :=
  match t with GStar => true | GLit c => negb (Ascii.eqb c "*") | _ => false end.

Definition simple_char (c : ascii) : bool := negb (Ascii.eqb c "?" || Ascii.eqb c "[").

(** The text of a literal-and-star pattern. *)
Definition tok_char (t : gtok) : ascii :=
  match t with GLit c => c | _ => "*"%char end.
Fixpoint glob_text (p : list gtok) : string :=
  match p with [] => EmptyString | t :: p' => String (tok_char t) (glob_text p') end.

Lemma gmatch_star p s :
  gmatch (GStar :: p) s = true <-> exists s1 s2, s = s1 +:+ s2 /\ gmatch p s2 = true.
Proof.
  split.
  - induction s as [|c s IH]; cbn; rewrite orb_true_iff; intros [H|H].
    + by exists "", "".
    + done.
    + by exists "", (String c s).
    + apply IH in H as (s1 & s2 & -> & H). by exists (String c s1), s2.
  - intros (s1 & s2 & -> & H). induction s1 as [|c s1 IH]; cbn.
    + destruct s2; cbn in *; rewrite ?H; done.
    + cbn in IH. rewrite IH. apply orb_true_r.
Qed.

Lemma gmatch_app p q s :
  gmatch (p ++ q) s = true ->
  exists s1 s2, s = s1 +:+ s2 /\ gmatch p s1 = true /\ gmatch q s2 = true.
Proof.
  revert s. induction p as [|t p IH]; intros s H.
  - by exists "", s.
  - destruct t as [c| | |neg items].
    2: { destruct s as [|d s]; [done|]. apply IH in H as (s1 & s2 & -> & ? & ?).
         by exists (String d s1), s2. }
    2: { apply gmatch_star in H as (u1 & u2 & -> & H). apply IH in H as (s1 & s2 & -> & H1 & H2).
         exists (u1 +:+ s1), s2. split; [|split; [|done]].
         - clear. induction u1; cbn; congruence.
         - apply gmatch_star. eauto. }
    all: destruct s as [|d s]; [done|]; cbn in H; apply andb_true_iff in H as [Hc H];
      apply IH in H as (s1 & s2 & -> & ? & ?); exists (String d s1), s2;
      cbn; split; [done|]; rewrite Hc; done.
Qed.

Lemma glob_text_split q s1 s2 :
  glob_text q = s1 +:+ s2 -> exists q1 q2, q = q1 ++ q2 /\ glob_text q2 = s2.
Proof.
  revert q. induction s1 as [|c s1 IH]; cbn; intros q H.
  - by exists [], q.
  - destruct q as [|t q]; [done|]. injection H as _ H.
    apply IH in H as (q1 & q2 & -> & H). by exists (t :: q1), q2.
Qed.

(** Inclusion: if the simple pattern [p] matches the text of the simple pattern
    [q], every string [q] matches is matched by [p]. *)
Lemma gmatch_text_sound p q s :
  forallb simple_tok p = true -> forallb simple_tok q = true ->
  gmatch p (glob_text q) = true -> gmatch q s = true -> gmatch p s = true.
Proof.
  revert q s. induction p as [|t p IH]; intros q s Hp Hq Hm Hs.
  - destruct q as [|? q]; [done|done].
  - cbn in Hp. apply andb_true_iff in Hp as [Ht Hp]. destruct t as [c| | |]; [|done| |done].
    + destruct q as [|t' q]; [done|]. cbn in Hm. apply andb_true_iff in Hm as [Hc Hm].
      apply Ascii.eqb_eq in Hc. cbn in Hq. apply andb_true_iff in Hq as [Ht' Hq].
      destruct t' as [d| | |]; cbn in *; subst; try done.
      destruct s as [|d' s]; [done|]. apply andb_true_iff in Hs as [-> Hs]. cbn. eauto.
    + apply gmatch_star in Hm as (u1 & u2 & Hu & Hm).
      apply glob_text_split in Hu as (q1 & q2 & -> & <-).
      apply gmatch_app in Hs as (s1 & s2 & -> & _ & H2).
      apply gmatch_star. exists s1, s2. split; [done|].
      rewrite forallb_app in Hq. apply andb_true_iff in Hq as [_ Hq2].
      exact (IH q2 s2 Hp Hq2 Hm H2).
Qed.

(** Parsing a pattern without [?] and [[] yields a simple pattern with the same text. *)
Lemma glob_parse_simple p fuel :
  (String.length p <= fuel)%nat -> all_chars simple_char p = true ->
  forallb simple_tok (glob_parse_fuel fuel p) = true
  /\ glob_text (glob_parse_fuel fuel p) = p.
Proof.
  revert p. induction fuel as [|f IH]; intros [|c p] Hlen Hp; cbn in *; try done; [lia|].
  apply andb_true_iff in Hp as [Hc Hp]. destruct (IH p) as [IH1 IH2]; [lia|done|].
  unfold simple_char in Hc. apply negb_true_iff, orb_false_iff in Hc as [Hq Hb].
  destruct (Ascii.eqb c "*") eqn:Hs; [|rewrite Hq, Hb].
  - apply Ascii.eqb_eq in Hs as ->. cbn. by rewrite IH1, IH2.
  - cbn. by rewrite Hs, IH1, IH2.
Qed.

Lemma fnmatchcase_sound grant request s :
  all_chars simple_char grant = true -> all_chars simple_char request = true ->
  fnmatchcase request grant = true -> fnmatchcase s request = true -> fnmatchcase s grant = true.
Proof.
  intros Hg Hr. unfold fnmatchcase, glob_parse.
  destruct (glob_parse_simple grant (String.length grant)) as [Sg _]; [lia|done|].
  destruct (glob_parse_simple request (String.length request)) as [Sr Tr]; [lia|done|].
  intros Hm Hs. eapply gmatch_text_sound; [done|exact Sr| |done]. by rewrite Tr.
Qed.

(** A literal text matches itself. *)
Lemma fnmatchcase_star s : fnmatchcase s "*" = true.
Proof.
  unfold fnmatchcase, glob_parse. apply gmatch_star. exists s, "".
  split; [|done]. induction s; cbn; congruence.
Qed.
