(* ===== verification/Regex.v ===== *)
(** The regular expressions the validators use, as an AST with an executable
    matcher by derivatives, proved to decide the language of the expression.
    [re_match r s] is Python's [re.match("^r$", s)]: without [re.MULTILINE]
    the [$] also matches before one trailing newline. *)

From S2P Require Import Prelude PyStr.
From Stdlib Require Import List.

Inductive re : Type :=
  | REmpty
  | REps
  | RChars (p : ascii -> bool)
  | RSeq (r1 r2 : re)
  | RAlt (r1 r2 : re)
  | RStar (r : re).

Definition rchar (c : ascii) : re := RChars (Ascii.eqb c).
Definition ropt (r : re) : re := RAlt REps r.
Definition rplus (r : re) : re := RSeq r (RStar r).
(** [r{0,n}] and [r{m,m+n}]. *)
Fixpoint rupto (n : nat) (r : re) : re :=
  match n with O => REps | S n' => RAlt REps (RSeq r (rupto n' r)) end.
Fixpoint rbetween (m n : nat) (r : re) : re :=
  match m with O => rupto n r | S m' => RSeq r (rbetween m' n r) end.

(** ** The language of an expression *)

Inductive rlang : re -> string -> Prop :=
  | L_eps : rlang REps ""
  | L_chars p c : p c = true -> rlang (RChars p) (String c "")
  | L_seq r1 r2 s1 s2 : rlang r1 s1 -> rlang r2 s2 -> rlang (RSeq r1 r2) (s1 +:+ s2)
  | L_alt_l r1 r2 s : rlang r1 s -> rlang (RAlt r1 r2) s
  | L_alt_r r1 r2 s : rlang r2 s -> rlang (RAlt r1 r2) s
  | L_star_nil r : rlang (RStar r) ""
  | L_star_cons r c s1 s2 :
      rlang r (String c s1) -> rlang (RStar r) s2 -> rlang (RStar r) (String c (s1 +:+ s2)).
#[export] Hint Constructors rlang : py.

(** ** The matcher *)

Fixpoint nullable (r : re) : bool :=
  match r with
  | REmpty | RChars _ => false
  | REps | RStar _ => true
  | RSeq r1 r2 => nullable r1 && nullable r2
  | RAlt r1 r2 => nullable r1 || nullable r2
  end.

Definition mk_seq (r1 r2 : re) : re :=
  match r1 with REmpty => REmpty | REps => r2 | _ => RSeq r1 r2 end.
Definition mk_alt (r1 r2 : re) : re :=
  match r1, r2 with REmpty, r => r | r, REmpty => r | _, _ => RAlt r1 r2 end.

Fixpoint deriv (c : ascii) (r : re) : re :=
  match r with
  | REmpty | REps => REmpty
  | RChars p => if p c then REps else REmpty
  | RSeq r1 r2 =>
      let d := mk_seq (deriv c r1) r2 in
      if nullable r1 then mk_alt d (deriv c r2) else d
  | RAlt r1 r2 => mk_alt (deriv c r1) (deriv c r2)
  | RStar r => mk_seq (deriv c r) (RStar r)
  end.

Fixpoint re_full (r : re) (s : string) : bool :=
  match s with EmptyString => nullable r | String c s' => re_full (deriv c r) s' end.

Fixpoint chop_newline (s : string) : option string :=
  match s with
  | EmptyString => None
  | String c EmptyString => if Ascii.eqb c newline then Some EmptyString else None
  | String c s' => match chop_newline s' with Some t => Some (String c t) | None => None end
  end.

Definition re_match (r : re) (s : string) : bool :=
  re_full r s || match chop_newline s with Some t => re_full r t | None => false end.

(** ** The matcher decides the language *)

Lemma nullable_lang r : nullable r = true <-> rlang r "".
Proof.
  induction r as [| |p|r1 IH1 r2 IH2|r1 IH1 r2 IH2|r IH]; cbn.
  - split; [done|inversion 1].
  - split; auto with py.
  - split; [done|inversion 1].
  - rewrite andb_true_iff, IH1, IH2. split.
    + intros [H1 H2]. exact (L_seq _ _ _ _ H1 H2).
    + inversion 1 as [| |? ? s1 s2 ? ? Hr Hs| | | |]; subst.
      match goal with H : _ +:+ _ = "" |- _ => apply app_eq_nil_s in H as [-> ->] end. done.
  - rewrite orb_true_iff, IH1, IH2. split; [intros []; auto with py|inversion 1; auto].
  - split; auto with py.
Qed.

Lemma mk_seq_lang r1 r2 s : rlang (mk_seq r1 r2) s <-> rlang (RSeq r1 r2) s.
Proof.
  destruct r1; cbn; try done; split; intros H.
  - inversion H.
  - inversion H as [| |? ? ? ? HE _| | | |]; inversion HE.
  - exact (L_seq REps r2 "" s L_eps H).
  - inversion H as [| |? ? ? ? HE HR| | | |]; inversion HE; subst. done.
Qed.

Lemma mk_alt_lang r1 r2 s : rlang (mk_alt r1 r2) s <-> rlang (RAlt r1 r2) s.
Proof.
  assert (Hn : forall t, ~ rlang REmpty t) by (intros t H; inversion H).
  destruct r1, r2; cbn; try done; split; intros H;
    (auto with py); inversion H; subst; auto; exfalso; eapply Hn; eauto.
Qed.

Lemma deriv_lang c r s : rlang (deriv c r) s <-> rlang r (String c s).
Proof.
  revert s. induction r as [| |p|r1 IH1 r2 IH2|r1 IH1 r2 IH2|r IH]; intros s; cbn.
  - split; inversion 1.
  - split; inversion 1.
  - destruct (p c) eqn:E; split; inversion 1; subst; auto with py; congruence.
  - assert (Hseq : rlang (mk_seq (deriv c r1) r2) s <->
        exists s1 s2, s = s1 +:+ s2 /\ rlang r1 (String c s1) /\ rlang r2 s2).
    { rewrite mk_seq_lang. split.
      - inversion 1; subst. do 2 eexists. rewrite <- IH1. eauto.
      - intros (s1 & s2 & -> & H1 & H2). constructor; [by apply IH1|done]. }
    assert (Hlang : rlang (RSeq r1 r2) (String c s) <->
        (exists s1 s2, s = s1 +:+ s2 /\ rlang r1 (String c s1) /\ rlang r2 s2)
        \/ (nullable r1 = true /\ rlang r2 (String c s))).
    { rewrite nullable_lang. split.
      - inversion 1 as [| |? ? t1 t2 H1 H2| | | |]; subst.
        destruct t1 as [|d t1]; cbn in *; [by subst; right|].
        left. exists t1, t2. split; [congruence|]. split; [congruence|done].
      - intros [(s1 & s2 & -> & H1 & H2)|[H1 H2]].
        + exact (L_seq _ _ _ _ H1 H2).
        + exact (L_seq _ _ "" _ H1 H2). }
    rewrite Hlang. destruct (nullable r1).
    + rewrite mk_alt_lang, <- Hseq, <- IH2. split.
      * inversion 1; auto.
      * intros [H|[_ H]]; auto with py.
    + rewrite <- Hseq. intuition done.
  - rewrite mk_alt_lang. split; inversion 1; subst.
    1,2: rewrite ?IH1, ?IH2 in *; auto with py.
    + apply L_alt_l, IH1. done.
    + apply L_alt_r, IH2. done.
  - rewrite mk_seq_lang. split; inversion 1; subst.
    + constructor; [by apply IH|done].
    + constructor; [by apply IH|done].
Qed.

Lemma re_full_lang r s : re_full r s = true <-> rlang r s.
Proof.
  revert r. induction s as [|c s IH]; intros r; cbn.
  - apply nullable_lang.
  - rewrite IH. apply deriv_lang.
Qed.

(** ** Languages the validators need *)

Lemma rlang_chars p s : rlang (RChars p) s <-> exists c, s = String c "" /\ p c = true.
Proof.
  split; [inversion 1; eauto|]. intros (c & -> & H). by constructor.
Qed.

Lemma rlang_seq r1 r2 s :
  rlang (RSeq r1 r2) s <-> exists s1 s2, s = s1 +:+ s2 /\ rlang r1 s1 /\ rlang r2 s2.
Proof.
  split; [inversion 1; eauto 6|]. intros (s1 & s2 & -> & H1 & H2). by constructor.
Qed.

Lemma rlang_alt r1 r2 s : rlang (RAlt r1 r2) s <-> rlang r1 s \/ rlang r2 s.
Proof. split; [inversion 1; auto|intros []; auto with py]. Qed.

Lemma rlang_chars_seq p r s :
  rlang (RSeq (RChars p) r) s <-> exists c s', s = String c s' /\ p c = true /\ rlang r s'.
Proof.
  rewrite rlang_seq. split.
  - intros (s1 & s2 & -> & H1 & H2). apply rlang_chars in H1 as (c & -> & H1). by exists c, s2.
  - intros (c & s' & -> & H1 & H2). exists (String c ""), s'. rewrite rlang_chars. eauto.
Qed.

Lemma rlang_upto p n s :
  rlang (rupto n (RChars p)) s <-> all_chars p s = true /\ (String.length s <= n)%nat.
Proof.
  revert s. induction n as [|n IH]; intros s; cbn.
  - split; [inversion 1; by subst|]. destruct s; cbn; [auto with py|intros [_ H]; lia].
  - rewrite rlang_alt, rlang_chars_seq. split.
    + intros [H|(c & s' & -> & Hc & H)]; [inversion H; subst; cbn; split; [done|lia]|].
      apply IH in H as [H1 H2]. cbn. rewrite Hc, H1. split; [done|lia].
    + destruct s as [|c s]; cbn; [auto with py|]. rewrite andb_true_iff. intros [[H1 H2] H3].
      right. exists c, s. rewrite IH. repeat split; auto; lia.
Qed.

Lemma rlang_between p m n s :
  rlang (rbetween m n (RChars p)) s <->
  all_chars p s = true /\ (m <= String.length s <= m + n)%nat.
Proof.
  revert s. induction m as [|m IH]; intros s; cbn.
  - rewrite rlang_upto. intuition lia.
  - rewrite rlang_chars_seq. split.
    + intros (c & s' & -> & Hc & H). apply IH in H as [H1 H2]. cbn. rewrite Hc, H1.
      split; [done|lia].
    + destruct s as [|c s]; cbn; [intros [_ H]; lia|]. rewrite andb_true_iff.
      intros [[H1 H2] H3]. exists c, s. rewrite IH. repeat split; auto; lia.
Qed.

Lemma rlang_star_chars p s : rlang (RStar (RChars p)) s <-> all_chars p s = true.
Proof.
  split.
  - remember (RStar (RChars p)) as r eqn:Er. intros H. revert Er.
    induction H as [| | | | | |r c s1 s2 H1 _ H2 IH]; intros Er; try done.
    injection Er as ->. apply rlang_chars in H1 as (d & [= -> ->] & Hd). cbn. by rewrite Hd, IH.
  - induction s as [|c s IH]; cbn; [auto with py|]. rewrite andb_true_iff. intros [Hc Hs].
    apply (L_star_cons (RChars p) c "" s); [by constructor|auto].
Qed.

Lemma rlang_plus_chars p s :
  rlang (rplus (RChars p)) s <-> all_chars p s = true /\ s <> "".
Proof.
  unfold rplus. rewrite rlang_chars_seq. split.
  - intros (c & s' & -> & Hc & H). apply rlang_star_chars in H. cbn. by rewrite Hc, H.
  - destruct s as [|c s]; cbn; [by intros [_ ?]|]. rewrite andb_true_iff. intros [[H1 H2] _].
    exists c, s. by rewrite rlang_star_chars.
Qed.

Lemma rlang_char c s : rlang (rchar c) s <-> s = String c "".
Proof.
  unfold rchar. rewrite rlang_chars. split.
  - intros (d & -> & H). apply Ascii.eqb_eq in H. congruence.
  - intros ->. exists c. by rewrite Ascii.eqb_refl.
Qed.

Lemma chop_newline_Some s t : chop_newline s = Some t <-> s = t +:+ String newline "".
Proof.
  revert t. induction s as [|c s IH]; intros t.
  - split; [done|]. destruct t; done.
  - cbn [chop_newline]. destruct s as [|c' s'].
    + destruct (Ascii.eqb_spec c newline) as [->|Hne]; split.
      * intros [= <-]. done.
      * destruct t as [|d [|? ?]]; cbn; intros [=]; [done|..]; subst; done.
      * done.
      * destruct t as [|d [|? ?]]; cbn; intros [=]; subst; done.
    + destruct (chop_newline (String c' s')) as [u|] eqn:E.
      * split.
        { intros [= <-]. cbn. by rewrite (proj1 (IH u) eq_refl). }
        destruct t as [|d t]; cbn; [intros [=]|]. intros [= -> H].
        pose proof (proj2 (IH t) H). congruence.
      * split; [done|]. destruct t as [|d t]; cbn; [intros [=]|]. intros [= -> H].
        pose proof (proj2 (IH t) H). congruence.
Qed.

(** [re.match("^r$", s)] accepts the language of [r], or it followed by one newline. *)
Lemma re_match_lang r s :
  re_match r s = true <-> rlang r s \/ exists t, s = t +:+ String newline "" /\ rlang r t.
Proof.
  unfold re_match. rewrite orb_true_iff, re_full_lang. f_equiv.
  destruct (chop_newline s) as [t|] eqn:E.
  - apply chop_newline_Some in E as ->. rewrite re_full_lang. split; [eauto|].
    intros (t' & H & Ht'). enough (t = t') by congruence.
    assert (chop_newline (t +:+ String newline "") = Some t) as H1 by by apply chop_newline_Some.
    rewrite H in H1. rewrite (proj2 (chop_newline_Some _ t') eq_refl) in H1. congruence.
  - split; [done|]. intros (t & -> & _).
    by rewrite (proj2 (chop_newline_Some _ t) eq_refl) in E.
Qed.
