(* ===== verification/Datetime.v ===== *)
(** Python datetimes as the program stores them: UTC (or naive) instants
    written with [datetime.isoformat()] into TEXT columns and compared there as
    strings. The calendar is CPython's [_ord2ymd]/[_ymd2ord]; the main fact is
    that the string order of the stored timestamps is chronological, including
    when [isoformat] omits zero microseconds. *)

From S2P Require Import Prelude PyStr.
From Stdlib Require Import List.

(** Microseconds since 0001-01-01T00:00:00, and whether the value carries UTC. *)
Record datetime : Type := mkDatetime { dt_us : Z; dt_utc : bool }.

Definition us_per_day : Z := 86400000000.
Definition max_days : Z := 3652059.
Definition dt_valid (d : datetime) : Prop := 0 <= dt_us d < max_days * us_per_day.

(** ** The calendar *)

Definition is_leap (y : Z) : bool :=
  (y mod 4 =? 0) && (negb (y mod 100 =? 0) || (y mod 400 =? 0)).

Definition days_before_year (y : Z) : Z :=
  let y := y - 1 in y * 365 + y / 4 - y / 100 + y / 400.

Definition days_in_month (leap : bool) (m : Z) : Z :=
  if m =? 2 then (if leap then 29 else 28)
  else if (m =? 4) || (m =? 6) || (m =? 9) || (m =? 11) then 30 else 31.

Definition days_before_month (leap : bool) (m : Z) : Z :=
  nth (Z.to_nat m) [-1; 0; 31; 59; 90; 120; 151; 181; 212; 243; 273; 304; 334] 0
  + (if (2 <? m) && leap then 1 else 0).

(** Month and day of the 0-based day [n] of a year. *)
Definition month_day (leap : bool) (n : Z) : Z * Z :=
  let month := Z.shiftr (n + 50) 5 in
  let preceding := days_before_month leap month in
  if n <? preceding
  then let m := month - 1 in (m, n - (preceding - days_in_month leap m) + 1)
  else (month, n - preceding + 1).

(** [datetime._ord2ymd] on the 0-based day number. *)
Definition ord2ymd (n : Z) : Z * Z * Z :=
  let n400 := n / 146097 in let n := n mod 146097 in
  let n100 := n / 36524 in let n := n mod 36524 in
  let n4 := n / 1461 in let n := n mod 1461 in
  let n1 := n / 365 in let n := n mod 365 in
  let year := n400 * 400 + 1 + n100 * 100 + n4 * 4 + n1 in
  if (n1 =? 4) || (n100 =? 4) then (year - 1, 12, 31)
  else
    let leap := (n1 =? 3) && (negb (n4 =? 24) || (n100 =? 3)) in
    let '(m, d) := month_day leap n in (year, m, d).

(** The 0-based day number of a date: [datetime._ymd2ord - 1]. *)
Definition ymd2ord (y m d : Z) : Z :=
  days_before_year y + days_before_month (is_leap y) m + d - 1.

(** ** isoformat and fromisoformat *)

Definition iso_fraction (us : Z) : string :=
  if us =? 0 then "" else "." +:+ pad 6 us.

Definition isoformat (t : datetime) : string :=
  let day := dt_us t / us_per_day in
  let r := dt_us t mod us_per_day in
  let '(y, m, d) := ord2ymd day in
  pad 4 y +:+ ("-" +:+ (pad 2 m +:+ ("-" +:+ (pad 2 d +:+ ("T" +:+
  (pad 2 (r / 3600000000) +:+ (":" +:+
  (pad 2 (r mod 3600000000 / 60000000) +:+ (":" +:+
  (pad 2 (r mod 60000000 / 1000000) +:+
  (iso_fraction (r mod 1000000) +:+ (if dt_utc t then "+00:00" else "")))))))))))).

(** [w] digits, then the rest. *)
Fixpoint take_num (w : nat) (acc : Z) (s : string) : option (Z * string) :=
  match w, s with
  | O, _ => Some (acc, s)
  | S w', String c s' => if is_digit c then take_num w' (10 * acc + digit_val c) s' else None
  | S _, EmptyString => None
  end.

Definition expect (c : ascii) (s : string) : option string :=
  match s with String d s' => if Ascii.eqb c d then Some s' else None | _ => None end.

Definition take_fraction (s : string) : option (Z * string) :=
  match s with
  | String "." s' => take_num 6 0 s'
  | _ => Some (0, s)
  end.

Definition take_offset (s : string) : option bool :=
  if s =s "+00:00" then Some true else if s =s "" then Some false else None.

(** [datetime.fromisoformat] on the texts [isoformat] writes for UTC and naive
    values; [None] is its [ValueError]. *)
Definition fromisoformat (s : string) : option datetime :=
  '(y, s) ← take_num 4 0 s; s ← expect "-" s;
  '(m, s) ← take_num 2 0 s; s ← expect "-" s;
  '(d, s) ← take_num 2 0 s; s ← expect "T" s;
  '(hh, s) ← take_num 2 0 s; s ← expect ":" s;
  '(mm, s) ← take_num 2 0 s; s ← expect ":" s;
  '(ss, s) ← take_num 2 0 s;
  '(us, s) ← take_fraction s;
  utc ← take_offset s;
  if (1 <=? y) && (1 <=? m) && (m <=? 12) && (1 <=? d) && (d <=? days_in_month (is_leap y) m)
     && (hh <? 24) && (mm <? 60) && (ss <? 60)
  then Some (mkDatetime (ymd2ord y m d * us_per_day
                         + (hh * 3600 + mm * 60 + ss) * 1000000 + us) utc)
  else None.

(** [t + timedelta(seconds=n)]; [None] is [OverflowError]. *)
Definition add_seconds (t : datetime) (n : Z) : option datetime :=
  let us := dt_us t + n * 1000000 in
  if (0 <=? us) && (us <? max_days * us_per_day) then Some (mkDatetime us (dt_utc t)) else None.

(** [a < b] on two stored timestamps, as SQL's binary collation compares them. *)
Definition ts_ltb (a b : string) : bool := String.ltb a b.

(** ** Calendar facts *)

Definition valid_md (leap : bool) (m d : Z) : bool :=
  (1 <=? m) && (m <=? 12) && (1 <=? d) && (d <=? days_in_month leap m).

Definition md_check (leap : bool) (n : Z) : bool :=
  let '(m, d) := month_day leap n in
  valid_md leap m d && (days_before_month leap m + d - 1 =? n).

Lemma md_check_all leap n : 0 <= n < 365 -> md_check leap n = true.
Proof.
  assert (forallb (fun k => md_check true (Z.of_nat k) && md_check false (Z.of_nat k)) (seq 0 365)
          = true) as H by (vm_compute; reflexivity).
  intros Hn. rewrite forallb_forall in H.
  specialize (H (Z.to_nat n)). rewrite in_seq, Z2Nat.id in H by lia.
  destruct (proj1 (andb_true_iff _ _) (H ltac:(lia))). by destruct leap.
Qed.

(** The months of a year in order. *)
Lemma month_order leap m m' :
  1 <= m -> m < m' -> m' <= 12 ->
  days_before_month leap m + days_in_month leap m <= days_before_month leap m'.
Proof.
  assert (forallb (fun k => forallb (fun k' =>
      let m := Z.of_nat k in let m' := Z.of_nat k' in
      implb (m <? m') ((days_before_month true m + days_in_month true m <=? days_before_month true m')
                       && (days_before_month false m + days_in_month false m <=? days_before_month false m')))
    (seq 1 12)) (seq 1 12) = true) as H by (vm_compute; reflexivity).
  intros H1 H2 H3. rewrite forallb_forall in H.
  specialize (H (Z.to_nat m)). rewrite in_seq in H. specialize (H ltac:(lia)).
  rewrite forallb_forall in H. specialize (H (Z.to_nat m')). rewrite in_seq in H.
  specialize (H ltac:(lia)). cbv zeta in H. rewrite !Z2Nat.id in H by lia.
  rewrite (proj2 (Z.ltb_lt _ _) H2) in H. apply andb_true_iff in H as [Ha Hb].
  destruct leap; lia.
Qed.

Lemma year_length y : days_before_year (y + 1) = days_before_year y + 365 + (if is_leap y then 1 else 0).
Proof.
  unfold days_before_year, is_leap. replace (y + 1 - 1) with y by lia.
  destruct (Z.eqb_spec (y mod 4) 0), (Z.eqb_spec (y mod 100) 0), (Z.eqb_spec (y mod 400) 0);
    cbn [andb orb negb]; Z.to_euclidean_division_equations; lia.
Qed.

Lemma days_before_year_mono y y' : y <= y' -> days_before_year y <= days_before_year y'.
Proof.
  intros H. replace y' with (y + Z.of_nat (Z.to_nat (y' - y))) by lia.
  induction (Z.to_nat (y' - y)) as [|k IH]; [rewrite Z.add_0_r; lia|].
  rewrite Nat2Z.inj_succ. replace (y + Z.succ (Z.of_nat k)) with (y + Z.of_nat k + 1) by lia.
  rewrite year_length. destruct (is_leap _); lia.
Qed.

Definition date_valid (x : Z * Z * Z) : Prop :=
  let '(y, m, d) := x in valid_md (is_leap y) m d = true.

Lemma valid_md_bounds leap m d :
  valid_md leap m d = true -> 1 <= m <= 12 /\ 1 <= d <= days_in_month leap m.
Proof. unfold valid_md. rewrite !andb_true_iff, !Z.leb_le. lia. Qed.

Lemma days_in_year leap m d :
  valid_md leap m d = true ->
  0 <= days_before_month leap m + d - 1 < 365 + (if leap then 1 else 0).
Proof.
  intros [Hm Hd]%valid_md_bounds.
  assert (days_before_month leap m + days_in_month leap m <= 365 + (if leap then 1 else 0)) as H.
  { destruct (Z.eq_dec m 12) as [->|]; [by destruct leap|].
    pose proof (month_order leap m 12 ltac:(lia) ltac:(lia) ltac:(lia)).
    assert (days_before_month leap 12 <= 335) by by destruct leap. destruct leap; lia. }
  assert (0 <= days_before_month leap m); [|lia].
  destruct (Z.eq_dec m 1) as [->|]; [by destruct leap|].
  pose proof (month_order leap 1 m ltac:(lia) ltac:(lia) ltac:(lia)).
  assert (days_before_month leap 1 + days_in_month leap 1 = 31) by by destruct leap. lia.
Qed.

Lemma ord2ymd_spec n :
  0 <= n -> let '(y, m, d) := ord2ymd n in
  valid_md (is_leap y) m d = true /\ ymd2ord y m d = n /\ 1 <= y.
Proof.
  intros Hn. unfold ord2ymd.
  set (n400 := n / 146097). set (r400 := n mod 146097).
  set (n100 := r400 / 36524). set (r100 := r400 mod 36524).
  set (n4 := r100 / 1461). set (r4 := r100 mod 1461).
  set (n1 := r4 / 365). set (r1 := r4 mod 365).
  assert (n = 146097 * n400 + r400 /\ 0 <= r400 < 146097 /\ 0 <= n400) as (E1 & B1 & P1)
    by (subst n400 r400; Z.to_euclidean_division_equations; lia).
  assert (r400 = 36524 * n100 + r100 /\ 0 <= r100 < 36524 /\ 0 <= n100 <= 4) as (E2 & B2 & P2)
    by (subst n100 r100; clearbody n400 r400; Z.to_euclidean_division_equations; lia).
  assert (r100 = 1461 * n4 + r4 /\ 0 <= r4 < 1461 /\ 0 <= n4 <= 24) as (E3 & B3 & P3)
    by (subst n4 r4; clearbody n100 r100 n400 r400; Z.to_euclidean_division_equations; lia).
  assert (r4 = 365 * n1 + r1 /\ 0 <= r1 < 365 /\ 0 <= n1 <= 4) as (E4 & B4 & P4)
    by (subst n1 r1; clearbody n4 r4 n100 r100 n400 r400; Z.to_euclidean_division_equations; lia).
  clearbody n400 r400 n100 r100 n4 r4 n1 r1.
  destruct ((n1 =? 4) || (n100 =? 4)) eqn:E5.
  - set (y := n400 * 400 + 1 + n100 * 100 + n4 * 4 + n1 - 1).
    assert (is_leap y = true /\ days_before_year y = n - 365) as [Hl Hd].
    { unfold is_leap, days_before_year, y. apply orb_true_iff in E5.
      assert (((n1 = 4 /\ r1 = 0 /\ n100 < 4 /\ n4 < 24) \/ (n1 = 4 /\ r1 = 0 /\ n100 = 3 /\ n4 = 24)
               \/ (n100 = 4 /\ n4 = 0 /\ n1 = 0 /\ r1 = 0))) as Hc by lia.
      destruct Hc as [Hc|[Hc|Hc]]; split; rewrite ?andb_true_iff, ?orb_true_iff, ?negb_true_iff,
        ?Z.eqb_eq, ?Z.eqb_neq; Z.to_euclidean_division_equations; lia. }
    unfold ymd2ord. rewrite Hl, Hd. split; [done|].
    split; [change (days_before_month true 12) with 335; lia|]. unfold y. lia.
  - apply orb_false_iff in E5 as [E5 E6]. rewrite Z.eqb_neq in E5, E6.
    set (y := n400 * 400 + 1 + n100 * 100 + n4 * 4 + n1).
    set (leap := (n1 =? 3) && (negb (n4 =? 24) || (n100 =? 3))).
    assert (is_leap y = leap) as Hl.
    { unfold is_leap, leap, y.
      destruct (Z.eqb_spec n1 3), (Z.eqb_spec n4 24), (Z.eqb_spec n100 3); cbn [andb orb negb];
        rewrite ?andb_true_iff, ?andb_false_iff, ?orb_true_iff, ?orb_false_iff, ?negb_true_iff,
          ?negb_false_iff, ?Z.eqb_eq, ?Z.eqb_neq; Z.to_euclidean_division_equations; lia. }
    assert (days_before_year y = n - r1) as Hd
      by (unfold days_before_year, y; Z.to_euclidean_division_equations; lia).
    pose proof (md_check_all leap r1 ltac:(lia)) as Hmd. unfold md_check in Hmd.
    destruct (month_day leap r1) as [m d]. apply andb_true_iff in Hmd as [Hv Ho%Z.eqb_eq].
    unfold ymd2ord. rewrite Hl, Hd. split; [done|]. split; [lia|]. unfold y. lia.
Qed.

(** Dates compare like their day numbers. *)
Definition date_lt (a b : Z * Z * Z) : Prop :=
  let '(y, m, d) := a in let '(y', m', d') := b in
  y < y' \/ (y = y' /\ (m < m' \/ (m = m' /\ d < d'))).

Lemma ymd2ord_mono y m d y' m' d' :
  date_valid (y, m, d) -> date_valid (y', m', d') ->
  date_lt (y, m, d) (y', m', d') -> ymd2ord y m d < ymd2ord y' m' d'.
Proof.
  intros H1 H2 [H|[<- [H|[<- H]]]]; unfold ymd2ord.
  - apply days_in_year in H1, H2. pose proof (year_length y).
    pose proof (days_before_year_mono (y + 1) y'). lia.
  - apply valid_md_bounds in H1 as [? ?], H2 as [? ?].
    pose proof (month_order (is_leap y) m m'). lia.
  - lia.
Qed.

(** * Order and round trips

    Theorems about [Datetime]: stored timestamps sort chronologically as
    strings, and parse back to the instant they were written from. *)

(** ** Comparing fixed-width digits *)

Lemma compare_app_same s t1 t2 : String.compare (s +:+ t1) (s +:+ t2) = String.compare t1 t2.
Proof.
  induction s as [|c s IH]; cbn [String.append String.compare]; [done|].
  unfold Ascii.compare. by rewrite N.compare_refl.
Qed.

Lemma compare_refl_s s : String.compare s s = Eq.
Proof. rewrite <- (app_nil_r_s s). by rewrite compare_app_same. Qed.

Lemma digit_compare a b :
  0 <= a < 10 -> 0 <= b < 10 -> Ascii.compare (digit_of a) (digit_of b) = (a ?= b).
Proof.
  assert (forallb (fun x => forallb (fun y =>
     match Ascii.compare (digit_of (Z.of_nat x)) (digit_of (Z.of_nat y)), Z.of_nat x ?= Z.of_nat y with
     | Eq, Eq | Lt, Lt | Gt, Gt => true | _, _ => false end) (seq 0 10)) (seq 0 10) = true) as H
    by (vm_compute; reflexivity).
  intros Ha Hb. rewrite forallb_forall in H. specialize (H (Z.to_nat a)).
  rewrite in_seq in H. specialize (H ltac:(lia)). rewrite forallb_forall in H.
  specialize (H (Z.to_nat b)). rewrite in_seq in H. specialize (H ltac:(lia)).
  cbv beta in H. rewrite !Z2Nat.id in H by lia. repeat case_hyp H; done.
Qed.

(** Lexicographic comparison. *)
Definition lexc (c1 c2 : comparison) : comparison := match c1 with Eq => c2 | c => c end.

Lemma lexc_assoc a b c : lexc (lexc a b) c = lexc a (lexc b c).
Proof. by destruct a. Qed.

Lemma cmp_divmod n a b : 0 < n -> (a ?= b) = lexc (a / n ?= b / n) (a mod n ?= b mod n).
Proof.
  intros Hn. pose proof (Z.div_mod a n ltac:(lia)). pose proof (Z.div_mod b n ltac:(lia)).
  pose proof (Z.mod_pos_bound a n Hn). pose proof (Z.mod_pos_bound b n Hn).
  unfold lexc. destruct (Z.compare_spec (a / n) (b / n)) as [E|E|E].
  - rewrite E in *. destruct (Z.compare_spec (a mod n) (b mod n)); [apply Z.compare_eq_iff|
      apply Z.compare_lt_iff|apply Z.compare_gt_iff]; lia.
  - apply Z.compare_lt_iff. nia.
  - apply Z.compare_gt_iff. nia.
Qed.

Lemma pad_mod w z n : (w <= n)%nat -> pad w (z mod 10 ^ Z.of_nat n) = pad w z.
Proof.
  intros Hn. induction w as [|w IH]; [done|]. cbn [pad]. rewrite IH by lia. f_equal. f_equal.
  replace (Z.of_nat n) with (Z.of_nat w + 1 + (Z.of_nat n - Z.of_nat w - 1)) by lia.
  rewrite !Z.pow_add_r by lia. change (10 ^ 1) with 10.
  assert (0 < 10 ^ Z.of_nat w) by lia.
  assert (0 < 10 ^ (Z.of_nat n - Z.of_nat w - 1)) by lia.
  rewrite <- Z.mul_assoc, Z.rem_mul_r by lia.
  rewrite (Z.mul_comm (10 ^ Z.of_nat w) (_ mod _)), Z.div_add by lia.
  rewrite Z.div_small by (apply Z.mod_pos_bound; lia). rewrite Z.add_0_l.
  rewrite Z.rem_mul_r by lia.
  by rewrite (Z.mul_comm 10), Z.mod_add, Z.mod_mod by lia.
Qed.

Lemma pad_compare w a b s t :
  0 <= a < 10 ^ Z.of_nat w -> 0 <= b < 10 ^ Z.of_nat w ->
  String.compare (pad w a +:+ s) (pad w b +:+ t) = lexc (a ?= b) (String.compare s t).
Proof.
  revert a b. induction w as [|w IH]; intros a b Ha Hb.
  - cbn in *. assert (a = 0) as -> by lia. by assert (b = 0) as -> by lia.
  - rewrite Nat2Z.inj_succ, Z.pow_succ_r in Ha, Hb by lia.
    set (p := 10 ^ Z.of_nat w) in *. assert (0 < p) by lia.
    assert (0 <= a / p < 10) by (split; [apply Z.div_pos; lia|apply Z.div_lt_upper_bound; lia]).
    assert (0 <= b / p < 10) by (split; [apply Z.div_pos; lia|apply Z.div_lt_upper_bound; lia]).
    rewrite (cmp_divmod p a b) by done. cbn [pad String.append String.compare]. fold p.
    rewrite (Z.mod_small (a / p)), (Z.mod_small (b / p)) by done.
    rewrite digit_compare by done. rewrite lexc_assoc. unfold lexc at 1.
    destruct (a / p ?= b / p); [|done|done].
    rewrite <- (pad_mod w a w), <- (pad_mod w b w) by done.
    apply IH; apply Z.mod_pos_bound; lia.
Qed.

(** ** Chronological order *)

Definition date_cmp (a b : Z * Z * Z) : comparison :=
  let '(y, m, d) := a in let '(y', m', d') := b in lexc (y ?= y') (lexc (m ?= m') (d ?= d')).

Lemma date_cmp_Lt a b : date_cmp a b = Lt -> date_lt a b.
Proof.
  destruct a as [[y m] d], b as [[y' m'] d']. cbn. unfold lexc.
  destruct (Z.compare_spec y y'); [|by left|done]. intros H'. right. split; [done|].
  destruct (Z.compare_spec m m'); [|by left|done]. right. split; [done|].
  by apply Z.compare_lt_iff.
Qed.

Lemma date_cmp_antisym a b : date_cmp b a = CompOpp (date_cmp a b).
Proof.
  destruct a as [[y m] d], b as [[y' m'] d']. cbn.
  rewrite (Z.compare_antisym y y'), (Z.compare_antisym m m'), (Z.compare_antisym d d').
  by destruct (y ?= y'), (m ?= m'), (d ?= d').
Qed.

Lemma date_cmp_Eq a b : date_cmp a b = Eq -> a = b.
Proof.
  destruct a as [[y m] d], b as [[y' m'] d']. cbn. unfold lexc.
  destruct (Z.compare_spec y y'); try done. destruct (Z.compare_spec m m'); try done.
  intros ->%Z.compare_eq_iff. congruence.
Qed.

Lemma ord2ymd_cmp n n' : 0 <= n -> 0 <= n' -> date_cmp (ord2ymd n) (ord2ymd n') = (n ?= n').
Proof.
  intros Hn Hn'. pose proof (ord2ymd_spec n Hn) as H. pose proof (ord2ymd_spec n' Hn') as H'.
  destruct (ord2ymd n) as [[y m] d] eqn:E, (ord2ymd n') as [[y' m'] d'] eqn:E'.
  destruct H as (V & O & _), H' as (V' & O' & _).
  destruct (date_cmp (y, m, d) (y', m', d')) eqn:C.
  - apply date_cmp_Eq in C as [= -> -> ->]. symmetry. apply Z.compare_eq_iff. congruence.
  - apply date_cmp_Lt in C. symmetry. apply Z.compare_lt_iff.
    pose proof (ymd2ord_mono _ _ _ _ _ _ V V' C). lia.
  - assert (date_cmp (y', m', d') (y, m, d) = Lt) as C' by by rewrite date_cmp_antisym, C.
    apply date_cmp_Lt in C'. symmetry. apply Z.compare_gt_iff.
    pose proof (ymd2ord_mono _ _ _ _ _ _ V' V C'). lia.
Qed.

Lemma ord2ymd_range n :
  0 <= n < max_days -> let '(y, m, d) := ord2ymd n in 1 <= y < 10000 /\ 1 <= m <= 12 /\ 1 <= d <= 31.
Proof.
  intros [Hn Hm]. pose proof (ord2ymd_spec n Hn) as H.
  pose proof (ord2ymd_cmp n 3652058 Hn ltac:(lia)) as C.
  change (ord2ymd 3652058) with (9999, 12, 31) in C.
  destruct (ord2ymd n) as [[y m] d]. destruct H as (V & _ & Hy).
  pose proof (valid_md_bounds _ _ _ V) as [? Hd]. split; [split; [done|]|split; [done|]].
  - destruct (Z_lt_le_dec y 10000); [done|]. cbn in C.
    rewrite (proj2 (Z.compare_gt_iff y 9999) ltac:(lia)) in C. cbn in C. symmetry in C.
    apply Z.compare_gt_iff in C. unfold max_days in *. lia.
  - unfold days_in_month in Hd. repeat case_hyp Hd; lia.
Qed.

Lemma fraction_compare a b sfx :
  0 <= a < 1000000 -> 0 <= b < 1000000 -> sfx = "+00:00" \/ sfx = "" ->
  String.compare (iso_fraction a +:+ sfx) (iso_fraction b +:+ sfx) = (a ?= b).
Proof.
  intros Ha Hb Hs. unfold iso_fraction.
  destruct (Z.eqb_spec a 0) as [->|Na], (Z.eqb_spec b 0) as [->|Nb].
  - by destruct Hs as [-> | ->].
  - symmetry. rewrite (proj2 (Z.compare_lt_iff 0 b) ltac:(lia)). by destruct Hs as [-> | ->].
  - symmetry. rewrite (proj2 (Z.compare_gt_iff a 0) ltac:(lia)). by destruct Hs as [-> | ->].
  - rewrite !app_assoc_s, compare_app_same, pad_compare by done.
    rewrite compare_refl_s. by destruct (a ?= b).
Qed.

Lemma isoformat_compare a b :
  dt_valid a -> dt_valid b -> dt_utc a = dt_utc b ->
  String.compare (isoformat a) (isoformat b) = (dt_us a ?= dt_us b).
Proof.
  destruct a as [a u], b as [b u']. unfold dt_valid. cbn [dt_us dt_utc]. intros Ha Hb <-.
  unfold isoformat. cbn [dt_us dt_utc].
  assert (Hday : forall x, 0 <= x < max_days * us_per_day -> 0 <= x / us_per_day < max_days).
  { unfold us_per_day, max_days. intros x Hx. Z.to_euclidean_division_equations; lia. }
  pose proof (ord2ymd_range _ (Hday a Ha)) as Ra. pose proof (ord2ymd_range _ (Hday b Hb)) as Rb.
  rewrite (cmp_divmod us_per_day a b) by done.
  rewrite <- (ord2ymd_cmp (a / us_per_day) (b / us_per_day)) by (apply Hday; done).
  destruct (ord2ymd (a / us_per_day)) as [[y m] d], (ord2ymd (b / us_per_day)) as [[y' m'] d'].
  assert (Hr : forall x, 0 <= x mod us_per_day < us_per_day) by (intros; by apply Z.mod_pos_bound).
  set (r := a mod us_per_day). set (r' := b mod us_per_day).
  pose proof (Hr a : 0 <= r < _). pose proof (Hr b : 0 <= r' < _). clearbody r r'.
  unfold us_per_day in *.
  rewrite (cmp_divmod 3600000000 r r'), (cmp_divmod 60000000 (r mod _) (r' mod _)) by done.
  rewrite (cmp_divmod 1000000 (r mod 3600000000 mod 60000000) _) by done.
  assert (Hmm : forall x p q, 0 < p -> 0 < q -> x mod (p * q) mod p = x mod p).
  { intros x p q Hp Hq. rewrite Z.rem_mul_r by lia. by rewrite (Z.mul_comm p), Z.mod_add, Z.mod_mod by lia. }
  assert (Hm1 : forall x, (x mod 3600000000) mod 60000000 = x mod 60000000)
    by (intros x; exact (Hmm x 60000000 60 eq_refl eq_refl)).
  assert (Hm2 : forall x, (x mod 60000000) mod 1000000 = x mod 1000000)
    by (intros x; exact (Hmm x 1000000 60 eq_refl eq_refl)).
  rewrite !Hm1, !Hm2.
  rewrite !pad_compare, !compare_app_same; [|change (10 ^ Z.of_nat 4) with 10000; lia..].
  rewrite !pad_compare, !compare_app_same by (change (10 ^ Z.of_nat 2) with 100; lia).
  rewrite !pad_compare, !compare_app_same by (change (10 ^ Z.of_nat 2) with 100; lia).
  rewrite !pad_compare, !compare_app_same
    by (change (10 ^ Z.of_nat 2) with 100; Z.to_euclidean_division_equations; lia).
  rewrite !pad_compare, !compare_app_same
    by (change (10 ^ Z.of_nat 2) with 100; Z.to_euclidean_division_equations; lia).
  rewrite !pad_compare
    by (change (10 ^ Z.of_nat 2) with 100; Z.to_euclidean_division_equations; lia).
  rewrite fraction_compare; [|by apply Z.mod_pos_bound..|destruct u; auto].
  cbn [date_cmp]. by rewrite !lexc_assoc.
Qed.

Lemma ts_ltb_isoformat a b :
  dt_valid a -> dt_valid b -> dt_utc a = dt_utc b ->
  ts_ltb (isoformat a) (isoformat b) = (dt_us a <? dt_us b).
Proof. intros. unfold ts_ltb, String.ltb. rewrite isoformat_compare by done. by rewrite Z.ltb_compare. Qed.

(** the timestamps the registry stores compare as strings the way the
    instants compare in time, over the whole range of datetimes and although
    [isoformat] drops the fraction when it is zero: SQL's [expires_at < ?] and
    [ORDER BY issued_at] are chronological. *)
Theorem stored_timestamps_chronological a b :
  dt_valid a -> dt_valid b -> dt_utc a = dt_utc b ->
  ts_ltb (isoformat a) (isoformat b) = (dt_us a <? dt_us b).
Proof. apply ts_ltb_isoformat. Qed.

Lemma stored_timestamps_chronological_witness :
  let a := mkDatetime (738000 * us_per_day + 1000000) true in
  let b := mkDatetime (738000 * us_per_day + 1000001) true in
  ts_ltb (isoformat a) (isoformat b) = (dt_us a <? dt_us b).
Proof.
  apply stored_timestamps_chronological; [split; vm_compute; congruence..|reflexivity].
Defined.

(** ** Round trip *)

Lemma take_num_pad w acc z s :
  0 <= z < 10 ^ Z.of_nat w ->
  take_num w acc (pad w z +:+ s) = Some (acc * 10 ^ Z.of_nat w + z, s).
Proof.
  revert acc z. induction w as [|w IH]; intros acc z Hz.
  - cbn in *. do 2 f_equal. lia.
  - rewrite Nat2Z.inj_succ, Z.pow_succ_r in * by lia. set (p := 10 ^ Z.of_nat w) in *.
    assert (0 < p) by lia. cbn [pad String.append take_num]. fold p.
    pose proof (Z.mod_pos_bound (z / p) 10 ltac:(lia)).
    destruct (digit_of_spec (z / p mod 10)) as [-> ->]; [done|].
    rewrite <- (pad_mod w z w) by done. fold p.
    rewrite IH by (apply Z.mod_pos_bound; done).
    assert (0 <= z / p < 10) by (split; [apply Z.div_pos; lia|apply Z.div_lt_upper_bound; lia]).
    rewrite (Z.mod_small (z / p)) by done. do 2 f_equal.
    pose proof (Z.div_mod z p ltac:(lia)). lia.
Qed.

Lemma take_num0 w z s :
  0 <= z < 10 ^ Z.of_nat w -> take_num w 0 (pad w z +:+ s) = Some (z, s).
Proof. intros H. by rewrite take_num_pad. Qed.

Lemma take_fraction_iso us sfx :
  0 <= us < 1000000 -> sfx = "+00:00" \/ sfx = "" ->
  take_fraction (iso_fraction us +:+ sfx) = Some (us, sfx).
Proof.
  intros Hu Hs. unfold iso_fraction. destruct (Z.eqb_spec us 0) as [->|].
  - by destruct Hs as [-> | ->].
  - exact (take_num0 6 us sfx Hu).
Qed.

Lemma time_split r : 0 <= r < us_per_day ->
  (r / 3600000000 * 3600 + r mod 3600000000 / 60000000 * 60 + r mod 60000000 / 1000000) * 1000000
    + r mod 1000000 = r
  /\ 0 <= r / 3600000000 < 24 /\ 0 <= r mod 3600000000 / 60000000 < 60
  /\ 0 <= r mod 60000000 / 1000000 < 60 /\ 0 <= r mod 1000000 < 1000000.
Proof. unfold us_per_day. intros Hr. Z.to_euclidean_division_equations; lia. Qed.

Lemma expect_app c s : expect c (String c "" +:+ s) = Some s.
Proof. cbn [expect String.append]. by rewrite Ascii.eqb_refl. Qed.

Lemma fromisoformat_iso t : dt_valid t -> fromisoformat (isoformat t) = Some t.
Proof.
  destruct t as [us u]. unfold dt_valid. cbn [dt_us]. intros Hus.
  assert (Hday : 0 <= us / us_per_day < max_days).
  { unfold us_per_day, max_days in *. Z.to_euclidean_division_equations; lia. }
  pose proof (ord2ymd_range _ Hday) as Hr. pose proof (ord2ymd_spec _ (proj1 Hday)) as Hs.
  unfold isoformat. cbn [dt_us dt_utc].
  destruct (ord2ymd (us / us_per_day)) as [[y m] d]. destruct Hs as (V & O & Y).
  destruct (time_split (us mod us_per_day)) as (Er & Bh & Bm & Bs & Bu); [by apply Z.mod_pos_bound|].
  pose proof (Z.div_mod us us_per_day ltac:(done)) as Edm.
  set (r := us mod us_per_day) in *. clearbody r.
  assert (H2 : forall z s, 0 <= z < 100 -> take_num 2 0 (pad 2 z +:+ s) = Some (z, s))
    by (intros z s Hz; exact (take_num0 2 z s Hz)).
  unfold fromisoformat.
  rewrite (take_num0 4 y) by (change (10 ^ Z.of_nat 4) with 10000; lia). cbn [mbind option_bind]; try (rewrite expect_app; cbn [mbind option_bind]).
  rewrite H2 by lia. cbn [mbind option_bind]; try (rewrite expect_app; cbn [mbind option_bind]).
  rewrite H2 by lia. cbn [mbind option_bind]; try (rewrite expect_app; cbn [mbind option_bind]).
  rewrite H2 by lia. cbn [mbind option_bind]; try (rewrite expect_app; cbn [mbind option_bind]).
  rewrite H2 by lia. cbn [mbind option_bind]; try (rewrite expect_app; cbn [mbind option_bind]).
  rewrite H2 by lia. cbn [mbind option_bind]; try (rewrite expect_app; cbn [mbind option_bind]).
  rewrite take_fraction_iso by (done || destruct u; auto). cbn [mbind option_bind].
  assert (take_offset (if u then "+00:00" else "") = Some u) as -> by by destruct u.
  cbn [mbind option_bind]. unfold valid_md in V.
  apply andb_true_iff in V as [V1 V2]. rewrite V2, !andb_true_r.
  assert ((1 <=? y) && (1 <=? m) && (m <=? 12) && (1 <=? d) && (r / 3600000000 <? 24)
    && (r mod 3600000000 / 60000000 <? 60) && (r mod 60000000 / 1000000 <? 60) = true) as Hc.
  { rewrite !andb_true_iff, !Z.leb_le, !Z.ltb_lt. lia. }
  rewrite Hc, O. f_equal. f_equal.
  transitivity (us / us_per_day * us_per_day + r); [|lia].
  rewrite <- Z.add_assoc, Er. lia.
Qed.

(** a stored timestamp parses back to the datetime it was written from. *)
Theorem fromisoformat_isoformat t : dt_valid t -> fromisoformat (isoformat t) = Some t.
Proof. apply fromisoformat_iso. Qed.

Lemma fromisoformat_isoformat_witness :
  fromisoformat (isoformat (mkDatetime (738000 * us_per_day + 86399999999) true))
  = Some (mkDatetime (738000 * us_per_day + 86399999999) true).
Proof. apply fromisoformat_isoformat. split; vm_compute; congruence. Defined.
