(* ===== verification/Registry.v ===== *)
(** [src/drydock/core/registry.py], with the row types of [core/runtime.py] and
    [core/capability.py]: the SQLite tables as lists of rows in rowid order, and
    every query and statement of the [Registry] class as a function on them.
    A JSON column holds the value it encodes; a timestamp column holds the
    [isoformat] text. Where the code reads the clock or draws a random id, the
    reading is an argument ([now], [fresh]). *)

From S2P Require Import Prelude PyStr PyVal Datetime.
From Stdlib Require Import List.

(** ** Rows *)

Record Drydock : Type := mkDrydock {
  name : string; project : string; repo_path : string; id : string;
  worktree_path : string; branch : string; base_ref : string; state : string;
  container_id : string; workspace_subdir : string; image : string; owner : string;
  created_at : string; updated_at : string; config : json;
  pinned_yaml_sha256 : string; yard_id : option string; original_resources_hard : json
}.

(** A row of [drydocks]: the dataclass columns, and those added by [_migrate_to_v2]. *)
Record dock_row : Type := mkDockRow {
  dr_dock : Drydock;
  dr_parent : option string;
  dr_firewall_domains : json;
  dr_secrets : json;
  dr_capabilities : json;
  dr_storage_scopes : json;
  dr_provision_scopes : json;
  dr_network_reach : json;
  dr_reach_ports : json;
  dr_resources_hard : json
}.

Record event_row : Type := mkEvent {
  ev_drydock_id : string; ev_event : string; ev_timestamp : string; ev_data : json
}.

Record token_row : Type := mkToken {
  tk_drydock_id : string; tk_sha256 : string; tk_issued_at : string;
  tk_rotated_at : option string; tk_scope : string
}.

Inductive CapabilityType : Type :=
  | SECRET | STORAGE_MOUNT | INFRA_PROVISION | COMPUTE_QUOTA | NETWORK_REACH.

Definition CapabilityType_value (t : CapabilityType) : string :=
  match t with
  | SECRET => "SECRET" | STORAGE_MOUNT => "STORAGE_MOUNT" | INFRA_PROVISION => "INFRA_PROVISION"
  | COMPUTE_QUOTA => "COMPUTE_QUOTA" | NETWORK_REACH => "NETWORK_REACH"
  end.

Definition all_CapabilityType : list CapabilityType :=
  [SECRET; STORAGE_MOUNT; INFRA_PROVISION; COMPUTE_QUOTA; NETWORK_REACH].

(** [CapabilityType(v)]; [None] is its [ValueError]. *)
Definition CapabilityType_of (s : string) : option CapabilityType :=
  List.find (fun t => CapabilityType_value t =s s) all_CapabilityType.

#[export] Instance CapabilityType_eq_dec : EqDecision CapabilityType.
Proof. solve_decision. Defined.

Record CapabilityLease : Type := mkLease {
  lease_id : string; lease_drydock_id : string; lease_type : CapabilityType;
  scope : list (string * json); issued_at : datetime; expiry : option datetime;
  issuer : string; revoked : bool; revocation_reason : option string
}.

Definition isoformat_opt (t : option datetime) : json :=
  match t with Some t => JStr (isoformat t) | None => JNull end.

(** [CapabilityLease.to_wire]. *)
Definition to_wire (l : CapabilityLease) : json :=
  JObj [("lease_id", JStr (lease_id l)); ("drydock_id", JStr (lease_drydock_id l));
        ("type", JStr (CapabilityType_value (lease_type l))); ("scope", JObj (scope l));
        ("issued_at", JStr (isoformat (issued_at l))); ("expiry", isoformat_opt (expiry l));
        ("issuer", JStr (issuer l)); ("revoked", JBool (revoked l));
        ("revocation_reason", opt_str (revocation_reason l))].

Record lease_row : Type := mkLeaseRow {
  lr_lease_id : string; lr_drydock_id : string; lr_type : string;
  lr_scope : list (string * json); lr_issued_at : string; lr_expiry : option string;
  lr_issuer : string; lr_revoked : bool; lr_reason : option string
}.

Record task_row : Type := mkTask {
  tl_request_id : string; tl_method : string; tl_spec : json; tl_status : string;
  tl_outcome : option json; tl_created_at : string; tl_completed_at : option string
}.

Record deskwatch_row : Type := mkDeskwatch {
  dw_id : Z; dw_drydock_id : string; dw_kind : string; dw_name : string;
  dw_timestamp : string; dw_status : string; dw_detail : option string
}.

Record yard_row : Type := mkYard {
  yd_id : string; yd_name : string; yd_repo_path : option string; yd_config : json;
  yd_created_at : string; yd_updated_at : string
}.

Record amendment_row : Type := mkAmendment {
  am_id : string; am_proposed_by_type : string; am_proposed_by_id : string;
  am_proposed_at : string; am_yard_id : option string; am_drydock_id : option string;
  am_kind : string; am_request : json; am_reason : option string;
  am_tos_notes : option string; am_status : string; am_reviewed_by : option string;
  am_reviewed_at : option string; am_review_note : option string;
  am_applied_at : option string; am_expires_at : option string
}.

(** [spec_json] and [applied_actions_json]; [None] stands for a text that is not JSON. *)
Record workload_row : Type := mkWorkload {
  wl_id : string; wl_drydock_id : string; wl_spec : json; wl_actions : option json;
  wl_granted_at : string; wl_expires_at : string; wl_status : string;
  wl_revoked_at : option string; wl_revoke_results : option json
}.

Record migration_row : Type := mkMigration {
  mg_id : string; mg_drydock_id : string; mg_plan : json; mg_status : string;
  mg_stage : option string; mg_snapshot : option string; mg_created_at : string;
  mg_completed_at : option string; mg_error : option json
}.

Record clarification_row : Type := mkClarification {
  cl_id : Z; cl_drydock_id : string; cl_kind : string; cl_summary : string;
  cl_evidence : option json; cl_created_at : string; cl_expires_at : string
}.

(** The database; the two counters are SQLite's AUTOINCREMENT sequences. *)
Record db : Type := mkDb {
  drydocks : list dock_row; events : list event_row; tokens : list token_row;
  leases : list lease_row; task_log : list task_row; deskwatch_events : list deskwatch_row;
  yards : list yard_row; amendments : list amendment_row;
  workload_leases : list workload_row; migrations : list migration_row;
  clarifications : list clarification_row; deskwatch_seq : Z; clarification_seq : Z
}.

Definition empty_db : db := mkDb [] [] [] [] [] [] [] [] [] [] [] 0 0.

Definition set_drydocks t d := mkDb t (events d) (tokens d) (leases d) (task_log d)
  (deskwatch_events d) (yards d) (amendments d) (workload_leases d) (migrations d)
  (clarifications d) (deskwatch_seq d) (clarification_seq d).
Definition set_events t d := mkDb (drydocks d) t (tokens d) (leases d) (task_log d)
  (deskwatch_events d) (yards d) (amendments d) (workload_leases d) (migrations d)
  (clarifications d) (deskwatch_seq d) (clarification_seq d).
Definition set_tokens t d := mkDb (drydocks d) (events d) t (leases d) (task_log d)
  (deskwatch_events d) (yards d) (amendments d) (workload_leases d) (migrations d)
  (clarifications d) (deskwatch_seq d) (clarification_seq d).
Definition set_leases t d := mkDb (drydocks d) (events d) (tokens d) t (task_log d)
  (deskwatch_events d) (yards d) (amendments d) (workload_leases d) (migrations d)
  (clarifications d) (deskwatch_seq d) (clarification_seq d).
Definition set_task_log t d := mkDb (drydocks d) (events d) (tokens d) (leases d) t
  (deskwatch_events d) (yards d) (amendments d) (workload_leases d) (migrations d)
  (clarifications d) (deskwatch_seq d) (clarification_seq d).
Definition set_deskwatch t n d := mkDb (drydocks d) (events d) (tokens d) (leases d) (task_log d)
  t (yards d) (amendments d) (workload_leases d) (migrations d) (clarifications d) n
  (clarification_seq d).
Definition set_yards t d := mkDb (drydocks d) (events d) (tokens d) (leases d) (task_log d)
  (deskwatch_events d) t (amendments d) (workload_leases d) (migrations d) (clarifications d)
  (deskwatch_seq d) (clarification_seq d).
Definition set_amendments t d := mkDb (drydocks d) (events d) (tokens d) (leases d) (task_log d)
  (deskwatch_events d) (yards d) t (workload_leases d) (migrations d) (clarifications d)
  (deskwatch_seq d) (clarification_seq d).
Definition set_workload_leases t d := mkDb (drydocks d) (events d) (tokens d) (leases d)
  (task_log d) (deskwatch_events d) (yards d) (amendments d) t (migrations d) (clarifications d)
  (deskwatch_seq d) (clarification_seq d).
Definition set_migrations t d := mkDb (drydocks d) (events d) (tokens d) (leases d) (task_log d)
  (deskwatch_events d) (yards d) (amendments d) (workload_leases d) t (clarifications d)
  (deskwatch_seq d) (clarification_seq d).
Definition set_clarifications t n d := mkDb (drydocks d) (events d) (tokens d) (leases d)
  (task_log d) (deskwatch_events d) (yards d) (amendments d) (workload_leases d) (migrations d) t
  (deskwatch_seq d) n.

Abbreviation DB := (M db exn).

(** [slug] as [Drydock.__post_init__] and [create_yard] compute it. *)
Definition slug (s : string) : string := replace_char " " "_" (replace_char "-" "_" s).

(** [Drydock.__post_init__]: fills the id and the two timestamps when empty. *)
Definition post_init (now : string) (w : Drydock) : Drydock :=
  mkDrydock (name w) (project w) (repo_path w)
    (if is_empty (id w) then "dock_" +:+ slug (name w) else id w)
    (worktree_path w) (branch w) (base_ref w) (state w) (container_id w) (workspace_subdir w)
    (image w) (owner w)
    (if is_empty (created_at w) then now else created_at w)
    (if is_empty (updated_at w) then now else updated_at w)
    (config w) (pinned_yaml_sha256 w) (yard_id w) (original_resources_hard w).

(** ** Drydocks *)

Definition by_name (n : string) (r : dock_row) : bool := name (dr_dock r) =s n.
Definition by_id (i : string) (r : dock_row) : bool := id (dr_dock r) =s i.

Definition log_event (now : string) (drydock_id event : string) (data : json) : DB unit :=
  modify (fun d => set_events (events d ++ [mkEvent drydock_id event now data]) d).

(** [_row_to_drydock] keeps the dataclass columns. *)
Definition _row_to_drydock (r : dock_row) : Drydock := dr_dock r.

Definition get_drydock (n : string) (d : db) : option Drydock :=
  option_map _row_to_drydock (tbl_first (by_name n) (drydocks d)).

(** The row [INSERT] writes: [pinned_yaml_sha256], [yard_id] and the policy
    columns are not in the column list and take their defaults. *)
Definition new_dock_row (w : Drydock) : dock_row :=
  mkDockRow
    (mkDrydock (name w) (project w) (repo_path w) (id w) (worktree_path w) (branch w)
       (base_ref w) (state w) (container_id w) (workspace_subdir w) (image w) (owner w)
       (created_at w) (updated_at w) (config w) "" None (original_resources_hard w))
    None (JList []) (JList []) (JList []) (JList []) (JList []) (JList []) (JList []) (JObj []).

Definition create_drydock (now : string) (ws : Drydock) : DB Drydock :=
  existing ← gets (get_drydock (name ws));
  match existing with
  | Some ex =>
      throw (WsError ("Drydock '" +:+ name ws +:+ "' already exists (state: " +:+ state ex +:+ ")")
               (Some ("Use a different name, or destroy it first: ws destroy " +:+ name ws)))
  | None =>
      taken ← gets (fun d => existsb (by_id (id ws)) (drydocks d));
      if taken : bool then throw IntegrityError
      else
        _ ← modify (fun d => set_drydocks (drydocks d ++ [new_dock_row ws]) d);
        _ ← log_event now (id ws) "drydock.created" (JObj []);
        mret ws
  end.

Definition le_name (a b : dock_row) : bool := String.leb (name (dr_dock a)) (name (dr_dock b)).
Definition ge_updated (a b : dock_row) : bool :=
  String.leb (updated_at (dr_dock b)) (updated_at (dr_dock a)).

Definition opt_str_eqb (a : option string) (b : string) : bool :=
  match a with Some s => s =s b | None => false end.

Definition get_children (parent : string) (d : db) : list Drydock :=
  map _row_to_drydock
    (order_by le_name (tbl_select (fun r => opt_str_eqb (dr_parent r) parent) (drydocks d))).

(** [if project:] — an empty filter is no filter. *)
Definition filter_ok (f : option string) (v : string) : bool :=
  match f with None => true | Some s => is_empty s || (v =s s) end.

Definition list_drydocks (prj st : option string) (d : db) : list Drydock :=
  map _row_to_drydock
    (order_by ge_updated
       (tbl_select (fun r => filter_ok prj (project (dr_dock r)) && filter_ok st (state (dr_dock r)))
          (drydocks d))).

(** The columns the program passes to [update_drydock] and [update_desk_delegations]. *)
Inductive dock_field : Type :=
  | F_state (s : string) | F_container_id (s : string) | F_worktree_path (s : string)
  | F_image (s : string) | F_config (c : json) | F_pinned_yaml_sha256 (s : string)
  | F_yard_id (y : option string) | F_parent_drydock_id (p : option string)
  | F_firewall_domains (v : json) | F_secrets (v : json) | F_capabilities (v : json)
  | F_storage_scopes (v : json) | F_provision_scopes (v : json) | F_network_reach (v : json)
  | F_reach_ports (v : json) | F_resources_hard (v : json) | F_updated_at (s : string).

Definition with_dock (f : Drydock -> Drydock) (r : dock_row) : dock_row :=
  mkDockRow (f (dr_dock r)) (dr_parent r) (dr_firewall_domains r) (dr_secrets r)
    (dr_capabilities r) (dr_storage_scopes r) (dr_provision_scopes r) (dr_network_reach r)
    (dr_reach_ports r) (dr_resources_hard r).

Definition upd_dock (st ct wt im up pin : option string) (cf : option json)
    (yd : option (option string)) (w : Drydock) : Drydock :=
  mkDrydock (name w) (project w) (repo_path w) (id w) (default (worktree_path w) wt) (branch w)
    (base_ref w) (default (state w) st) (default (container_id w) ct) (workspace_subdir w)
    (default (image w) im) (owner w) (created_at w) (default (updated_at w) up)
    (default (config w) cf) (default (pinned_yaml_sha256 w) pin) (default (yard_id w) yd)
    (original_resources_hard w).

Definition upd_policy (pa : option (option string)) (fw sc cp ss ps nr rp rh : option json)
    (r : dock_row) : dock_row :=
  mkDockRow (dr_dock r) (default (dr_parent r) pa) (default (dr_firewall_domains r) fw)
    (default (dr_secrets r) sc) (default (dr_capabilities r) cp) (default (dr_storage_scopes r) ss)
    (default (dr_provision_scopes r) ps) (default (dr_network_reach r) nr)
    (default (dr_reach_ports r) rp) (default (dr_resources_hard r) rh).

(** [SET column = ?] for one column. *)
Definition set_field (f : dock_field) (r : dock_row) : dock_row :=
  match f with
  | F_state s => with_dock (upd_dock (Some s) None None None None None None None) r
  | F_container_id s => with_dock (upd_dock None (Some s) None None None None None None) r
  | F_worktree_path s => with_dock (upd_dock None None (Some s) None None None None None) r
  | F_image s => with_dock (upd_dock None None None (Some s) None None None None) r
  | F_updated_at s => with_dock (upd_dock None None None None (Some s) None None None) r
  | F_pinned_yaml_sha256 s => with_dock (upd_dock None None None None None (Some s) None None) r
  | F_config c => with_dock (upd_dock None None None None None None (Some c) None) r
  | F_yard_id y => with_dock (upd_dock None None None None None None None (Some y)) r
  | F_parent_drydock_id p => upd_policy (Some p) None None None None None None None None r
  | F_firewall_domains v => upd_policy None (Some v) None None None None None None None r
  | F_secrets v => upd_policy None None (Some v) None None None None None None r
  | F_capabilities v => upd_policy None None None (Some v) None None None None None r
  | F_storage_scopes v => upd_policy None None None None (Some v) None None None None r
  | F_provision_scopes v => upd_policy None None None None None (Some v) None None None r
  | F_network_reach v => upd_policy None None None None None None (Some v) None None r
  | F_reach_ports v => upd_policy None None None None None None None (Some v) None r
  | F_resources_hard v => upd_policy None None None None None None None None (Some v) r
  end.

Definition set_fields (fs : list dock_field) (r : dock_row) : dock_row :=
  fold_left (fun r f => set_field f r) fs r.

Definition update_state (now : string) (n st : string) : DB (option Drydock) :=
  _ ← modify (fun d => set_drydocks
        (tbl_update (by_name n) (set_fields [F_state st; F_updated_at now]) (drydocks d)) d);
  ws ← gets (get_drydock n);
  match ws with
  | Some w => _ ← log_event now (id w) ("drydock." +:+ st) (JObj []); mret ws
  | None => mret ws
  end.

Definition update_drydock (now : string) (n : string) (fields : list dock_field)
    : DB (option Drydock) :=
  match fields with
  | [] => gets (get_drydock n)
  | _ =>
      _ ← modify (fun d => set_drydocks
            (tbl_update (by_name n) (set_fields (fields ++ [F_updated_at now])) (drydocks d)) d);
      gets (get_drydock n)
  end.

Definition delete_drydock (now : string) (n : string) : DB unit :=
  ws ← gets (get_drydock n);
  _ ← match ws with
      | Some w => log_event now (id w) "drydock.destroyed" (JObj [])
      | None => mret tt
      end;
  modify (fun d => set_drydocks (tbl_delete (by_name n) (drydocks d)) d).

(** The row [load_desk_policy] returns. *)
Definition load_desk_policy (i : string) (d : db) : option dock_row :=
  tbl_first (by_id i) (drydocks d).

Definition opt_field {A} (mk : A -> dock_field) (o : option A) : list dock_field :=
  match o with Some v => [mk v] | None => [] end.

Definition update_desk_delegations (now n : string)
    (fw sc cp ss ps nr rp rh : option json) : DB unit :=
  let fields := opt_field F_firewall_domains fw ++ opt_field F_secrets sc
    ++ opt_field F_capabilities cp ++ opt_field F_storage_scopes ss
    ++ opt_field F_provision_scopes ps ++ opt_field F_network_reach nr
    ++ opt_field F_reach_ports rp ++ opt_field F_resources_hard rh in
  match fields with
  | [] => mret tt
  | _ => _ ← update_drydock now n fields; mret tt
  end.

(** The [isinstance(value, str)] filter over [config["extra_mounts"]]. *)
Definition get_drydock_extra_mounts (n : string) (d : db) : list string :=
  match tbl_first (by_name n) (drydocks d) with
  | None => []
  | Some r =>
      match config (dr_dock r) with
      | JObj o =>
          match jget "extra_mounts" o with
          | JList l => flat_map (fun v => match v with JStr s => [s] | _ => [] end) l
          | _ => []
          end
      | _ => []
      end
  end.

(** ** Tokens *)

Definition token_of (i : string) (r : token_row) : bool := tk_drydock_id r =s i.
Definition token_hash (h : string) (r : token_row) : bool := tk_sha256 r =s h.
Definition auditor_scope (r : token_row) : bool := tk_scope r =s "auditor".

(** [ON CONFLICT(drydock_id) DO NOTHING]; [scope] takes its default. *)
Definition insert_token (drydock_id token_sha256 : string) (issued_at : datetime) : DB unit :=
  modify (fun d =>
    if existsb (token_of drydock_id) (tokens d) then d
    else set_tokens (tokens d ++ [mkToken drydock_id token_sha256 (isoformat issued_at) None "dock"]) d).

Definition find_desk_by_token_hash (h : string) (d : db) : option string :=
  option_map tk_drydock_id (tbl_first (token_hash h) (tokens d)).

Definition find_token_record_by_hash (h : string) (d : db) : option (string * string) :=
  option_map (fun r => (tk_drydock_id r, tk_scope r)) (tbl_first (token_hash h) (tokens d)).

Definition set_scope (s : string) (r : token_row) : token_row :=
  mkToken (tk_drydock_id r) (tk_sha256 r) (tk_issued_at r) (tk_rotated_at r) s.

Definition rowcount_pos (n : nat) : bool := Nat.ltb 0 n.

Definition designate_auditor (drydock_id : string) : DB bool :=
  existing ← gets (fun d =>
    tbl_first (fun r => auditor_scope r && negb (token_of drydock_id r)) (tokens d));
  match existing with
  | Some e => throw (ValueError ("another drydock (" +:+ tk_drydock_id e +:+ ") already has the "
                +:+ "auditor scope on this Harbor; revoke it first"))
  | None =>
      let p := fun r => token_of drydock_id r && negb (auditor_scope r) in
      n ← gets (fun d => tbl_count p (tokens d));
      _ ← modify (fun d => set_tokens (tbl_update p (set_scope "auditor") (tokens d)) d);
      mret (rowcount_pos n)
  end.

Definition revoke_auditor_scope (drydock_id : string) : DB bool :=
  let p := fun r => token_of drydock_id r && auditor_scope r in
  n ← gets (fun d => tbl_count p (tokens d));
  _ ← modify (fun d => set_tokens (tbl_update p (set_scope "dock") (tokens d)) d);
  mret (rowcount_pos n).

Definition get_auditor_drydock_id (d : db) : option string :=
  option_map tk_drydock_id (tbl_first auditor_scope (tokens d)).

Definition get_token_info (drydock_id : string) (d : db) : option token_row :=
  tbl_first (token_of drydock_id) (tokens d).

Definition delete_token (drydock_id : string) : DB unit :=
  modify (fun d => set_tokens (tbl_delete (token_of drydock_id) (tokens d)) d).

(** ** Clarifications *)

(** SQL's [LIMIT]: a negative limit is no limit. *)
Definition sql_limit {A} (n : Z) (l : list A) : list A :=
  if n <? 0 then l else firstn (Z.to_nat n) l.

Definition insert_clarification (drydock_id kind summary : string) (evidence : option json)
    (created_at expires_at : string) : DB Z :=
  n ← gets (fun d => clarification_seq d + 1);
  _ ← modify (fun d => set_clarifications
        (clarifications d ++ [mkClarification n drydock_id kind summary evidence created_at expires_at])
        n d);
  mret n.

Definition list_active_clarifications (now_iso : string) (limit : Z) (d : db)
    : list clarification_row :=
  sql_limit limit
    (order_by (fun a b => cl_id b <=? cl_id a)
       (tbl_select (fun r => String.ltb now_iso (cl_expires_at r)) (clarifications d))).

Definition expire_clarifications (now_iso : string) : DB nat :=
  let p := fun r => String.leb (cl_expires_at r) now_iso in
  n ← gets (fun d => tbl_count p (clarifications d));
  _ ← modify (fun d => set_clarifications (tbl_delete p (clarifications d)) (clarification_seq d) d);
  mret n.

(** ** Task log maintenance *)

Definition terminal_status (s : string) : bool := (s =s "completed") || (s =s "failed").

Definition evictable (cutoff : string) (r : task_row) : bool :=
  terminal_status (tl_status r)
  && match tl_completed_at r with Some c => ts_ltb c cutoff | None => false end.

Definition overflow_error : exn := PyError "OverflowError" "date value out of range".

Definition evict_old_task_log (older_than_hours : Z) (now : datetime) : DB nat :=
  match add_seconds now (- (3600 * older_than_hours)) with
  | None => throw overflow_error
  | Some cutoff =>
      let p := evictable (isoformat cutoff) in
      n ← gets (fun d => tbl_count p (task_log d));
      _ ← modify (fun d => set_task_log (tbl_delete p (task_log d)) d);
      mret n
  end.

(** ** Capability leases *)

Definition by_lease (i : string) (r : lease_row) : bool := lr_lease_id r =s i.
Definition active_of (drydock_id : string) (r : lease_row) : bool :=
  (lr_drydock_id r =s drydock_id) && negb (lr_revoked r).

Definition lease_to_row (l : CapabilityLease) : lease_row :=
  mkLeaseRow (lease_id l) (lease_drydock_id l) (CapabilityType_value (lease_type l)) (scope l)
    (isoformat (issued_at l)) (option_map isoformat (expiry l)) (issuer l) (revoked l)
    (revocation_reason l).

Definition insert_lease (l : CapabilityLease) : DB unit :=
  taken ← gets (fun d => existsb (by_lease (lease_id l)) (leases d));
  if taken : bool then throw IntegrityError
  else modify (fun d => set_leases (leases d ++ [lease_to_row l]) d).

(** [datetime.fromisoformat], raising. *)
Definition fromisoformat_exn (s : string) : res exn datetime :=
  match fromisoformat s with
  | Some t => Ok t
  | None => Err (ValueError ("Invalid isoformat string: " +:+ repr_str s))
  end.

Definition _row_to_lease (r : lease_row) : res exn CapabilityLease :=
  match CapabilityType_of (lr_type r) with
  | None => Err (ValueError (repr_str (lr_type r) +:+ " is not a valid CapabilityType"))
  | Some ty =>
      issued ← fromisoformat_exn (lr_issued_at r);
      exp ← match lr_expiry r with
            | Some s => if is_empty s then Ok None else t ← fromisoformat_exn s; Ok (Some t)
            | None => Ok None
            end;
      Ok (mkLease (lr_lease_id r) (lr_drydock_id r) ty (lr_scope r) issued exp (lr_issuer r)
            (lr_revoked r) (lr_reason r))
  end.

Definition get_lease (i : string) (d : db) : res exn (option CapabilityLease) :=
  match tbl_first (by_lease i) (leases d) with
  | None => Ok None
  | Some r => l ← _row_to_lease r; Ok (Some l)
  end.

Definition revoke_row (reason : string) (r : lease_row) : lease_row :=
  mkLeaseRow (lr_lease_id r) (lr_drydock_id r) (lr_type r) (lr_scope r) (lr_issued_at r)
    (lr_expiry r) (lr_issuer r) true (Some reason).

(** [UPDATE leases SET revoked = 1 ... WHERE p AND revoked = 0]; the row count. *)
Definition revoke_where (p : lease_row -> bool) (reason : string) : DB nat :=
  let q := fun r => p r && negb (lr_revoked r) in
  n ← gets (fun d => tbl_count q (leases d));
  _ ← modify (fun d => set_leases (tbl_update q (revoke_row reason) (leases d)) d);
  mret n.

Definition revoke_lease (i reason : string) : DB bool :=
  n ← revoke_where (by_lease i) reason; mret (rowcount_pos n).

Definition revoke_leases_for_desk (drydock_id reason : string) : DB nat :=
  revoke_where (fun r => lr_drydock_id r =s drydock_id) reason.

Definition le_issued (a b : lease_row) : bool := String.leb (lr_issued_at a) (lr_issued_at b).

Definition list_active_leases_for_desk (drydock_id : string) (d : db)
    : res exn (list CapabilityLease) :=
  mapE _row_to_lease (order_by le_issued (tbl_select (active_of drydock_id) (leases d))).

Definition find_active_lease (p : CapabilityLease -> bool) (drydock_id : string) (d : db)
    : res exn (option CapabilityLease) :=
  ls ← list_active_leases_for_desk drydock_id d; Ok (List.find p ls).

Definition is_type (t : CapabilityType) (l : CapabilityLease) : bool :=
  bool_decide (lease_type l = t).

Definition find_active_secret_lease (drydock_id secret_name : string) :=
  find_active_lease
    (fun l => is_type SECRET l && str_eq_json secret_name (jget "secret_name" (scope l))) drydock_id.

Definition find_active_storage_lease (drydock_id : string) :=
  find_active_lease (is_type STORAGE_MOUNT) drydock_id.

Definition is_aws (l : CapabilityLease) : bool :=
  is_type STORAGE_MOUNT l || is_type INFRA_PROVISION l.

Definition find_active_aws_lease (drydock_id : string) := find_active_lease is_aws drydock_id.

(** A query that may raise, run against the current database. *)
Definition query {A} (f : db -> res exn A) : DB A := fun d => (f d, d).

(** ** Workload leases *)

Definition wl_status_ok (s : string) : bool :=
  existsb (String.eqb s) ["active"; "released"; "expired"; "partial-revoked"].
Definition by_wl (i : string) (r : workload_row) : bool := wl_id r =s i.
Definition wl_active (r : workload_row) : bool := wl_status r =s "active".

Definition insert_workload_lease (r : workload_row) : DB unit :=
  bad ← gets (fun d => existsb (by_wl (wl_id r)) (workload_leases d) || negb (wl_status_ok (wl_status r)));
  if bad : bool then throw IntegrityError
  else modify (fun d => set_workload_leases
         (workload_leases d ++
            [mkWorkload (wl_id r) (wl_drydock_id r) (wl_spec r) (wl_actions r) (wl_granted_at r)
               (wl_expires_at r) (wl_status r) None None]) d).

Definition get_workload_lease (i : string) (d : db) : option workload_row :=
  tbl_first (by_wl i) (workload_leases d).

Definition le_expires (a b : workload_row) : bool := String.leb (wl_expires_at a) (wl_expires_at b).

Definition list_active_workload_leases (drydock_id : option string) (d : db) : list workload_row :=
  order_by le_expires
    (tbl_select (fun r => wl_active r && match drydock_id with
                                         | None => true
                                         | Some i => wl_drydock_id r =s i
                                         end) (workload_leases d)).

Definition revoke_wl (terminal revoked_at : string) (results : json) (r : workload_row) : workload_row :=
  mkWorkload (wl_id r) (wl_drydock_id r) (wl_spec r) (wl_actions r) (wl_granted_at r)
    (wl_expires_at r) terminal (Some revoked_at) (Some results).

(** The CHECK constraint aborts the UPDATE only when a row is touched. *)
Definition mark_workload_lease_revoked (i terminal : string) (results : json) (revoked_at : string)
    : DB unit :=
  bad ← gets (fun d => existsb (by_wl i) (workload_leases d) && negb (wl_status_ok terminal));
  if bad : bool then throw IntegrityError
  else modify (fun d => set_workload_leases
         (tbl_update (by_wl i) (revoke_wl terminal revoked_at results) (workload_leases d)) d).

(** ** Migration records *)

Definition mg_status_ok (s : string) : bool :=
  existsb (String.eqb s) ["planned"; "in_progress"; "completed"; "rolled_back"; "failed"].
Definition by_mg (i : string) (r : migration_row) : bool := mg_id r =s i.

Definition insert_migration (now migration_id drydock_id : string) (plan : json) (status : string)
    : DB unit :=
  bad ← gets (fun d => existsb (by_mg migration_id) (migrations d) || negb (mg_status_ok status));
  if bad : bool then throw IntegrityError
  else modify (fun d => set_migrations
         (migrations d ++ [mkMigration migration_id drydock_id plan status None None now None None]) d).

Definition get_migration (i : string) (d : db) : option migration_row :=
  tbl_first (by_mg i) (migrations d).

(** A column whose argument is [None] keeps its value. *)
Definition keep {A} (new old : option A) : option A := match new with Some _ => new | None => old end.

Definition set_migration (status current_stage snapshot_path : option string) (error : option json)
    (completed_at : option string) (r : migration_row) : migration_row :=
  mkMigration (mg_id r) (mg_drydock_id r) (mg_plan r) (default (mg_status r) status)
    (keep current_stage (mg_stage r)) (keep snapshot_path (mg_snapshot r)) (mg_created_at r)
    (keep completed_at (mg_completed_at r)) (keep error (mg_error r)).

Definition update_migration (i : string) (status current_stage snapshot_path : option string)
    (error : option json) (completed_at : option string) : DB unit :=
  bad ← gets (fun d => existsb (by_mg i) (migrations d)
          && match status with Some s => negb (mg_status_ok s) | None => false end);
  if bad : bool then throw IntegrityError
  else modify (fun d => set_migrations
         (tbl_update (by_mg i) (set_migration status current_stage snapshot_path error completed_at)
            (migrations d)) d).

Definition list_active_migrations (drydock_id : option string) (d : db) : list migration_row :=
  order_by (fun a b => String.leb (mg_created_at b) (mg_created_at a))
    (tbl_select (fun r => (mg_status r =s "in_progress") && match drydock_id with
                                         | None => true
                                         | Some i => mg_drydock_id r =s i
                                         end) (migrations d)).

(** ** Deskwatch events *)

Definition record_deskwatch_event (now drydock_id kind name status : string)
    (detail timestamp : option string) : DB Z :=
  let ts := match timestamp with Some t => if is_empty t then now else t | None => now end in
  n ← gets (fun d => deskwatch_seq d + 1);
  _ ← modify (fun d => set_deskwatch
        (deskwatch_events d ++ [mkDeskwatch n drydock_id kind name ts status detail]) n d);
  mret n.

Definition ge_timestamp (a b : deskwatch_row) : bool := String.leb (dw_timestamp b) (dw_timestamp a).

Definition last_deskwatch_event (drydock_id kind name : string) (d : db) : option deskwatch_row :=
  head (order_by ge_timestamp
          (tbl_select (fun r => (dw_drydock_id r =s drydock_id) && (dw_kind r =s kind)
                                && (dw_name r =s name)) (deskwatch_events d))).

Definition list_deskwatch_events (drydock_id : string) (limit : Z) (d : db) : list deskwatch_row :=
  sql_limit limit
    (order_by ge_timestamp
       (tbl_select (fun r => dw_drydock_id r =s drydock_id) (deskwatch_events d))).

(** ** Yards *)

Definition yard_named (n : string) (r : yard_row) : bool := yd_name r =s n.
Definition yard_with_id (i : string) (r : yard_row) : bool := yd_id r =s i.

Definition get_yard (n : string) (d : db) : option yard_row := tbl_first (yard_named n) (yards d).
Definition get_yard_by_id (i : string) (d : db) : option yard_row :=
  tbl_first (yard_with_id i) (yards d).

Definition create_yard (now n : string) (repo_path : option string) (config : option json)
    : DB yard_row :=
  existing ← gets (get_yard n);
  match existing with
  | Some _ => throw (WsError ("Yard '" +:+ n +:+ "' already exists")
                (Some ("Use a different name, or destroy it first: ws yard destroy " +:+ n)))
  | None =>
      let cfg := match config with Some c => if truthy c then c else JObj [] | None => JObj [] end in
      let row := mkYard ("yd_" +:+ slug n) n repo_path cfg now now in
      taken ← gets (fun d => existsb (yard_with_id (yd_id row)) (yards d));
      if taken : bool then throw IntegrityError
      else _ ← modify (fun d => set_yards (yards d ++ [row]) d); mret row
  end.

Definition list_yards (d : db) : list yard_row :=
  order_by (fun a b => String.leb (yd_created_at a) (yd_created_at b)) (yards d).

Definition list_yard_members (yard_id0 : string) (d : db) : list Drydock :=
  map _row_to_drydock
    (order_by le_name (tbl_select (fun r => opt_str_eqb (yard_id (dr_dock r)) yard_id0) (drydocks d))).

(** [UPDATE drydocks SET yard_id = NULL WHERE id = ?] for each member. *)
Definition detach_members (members : list Drydock) (t : list dock_row) : list dock_row :=
  fold_left (fun t m => tbl_update (by_id (id m)) (set_field (F_yard_id None)) t) members t.

Definition destroy_yard (n : string) (with_members : bool) : DB nat :=
  yard ← gets (get_yard n);
  match yard with
  | None => throw (WsError ("Yard '" +:+ n +:+ "' not found") (Some "Check `ws yard list`"))
  | Some y =>
      members ← gets (list_yard_members (yd_id y));
      match members with
      | _ :: _ =>
          if negb with_members
          then throw (WsError ("Yard '" +:+ n +:+ "' has " +:+ str_of_Z (Z.of_nat (length members))
                         +:+ " member drydock(s); refusing to destroy")
                       (Some "Re-run with --with-members to detach them, or remove members first"))
          else
            _ ← modify (fun d => set_drydocks (detach_members members (drydocks d)) d);
            _ ← modify (fun d => set_yards (tbl_delete (yard_with_id (yd_id y)) (yards d)) d);
            mret (length members)
      | [] =>
          _ ← modify (fun d => set_yards (tbl_delete (yard_with_id (yd_id y)) (yards d)) d);
          mret 0%nat
      end
  end.

(** ** Amendments *)

Definition am_status_ok (s : string) : bool :=
  existsb (String.eqb s) ["pending"; "auto_approved"; "escalated"; "approved"; "denied";
                          "applied"; "expired"].
Definition am_proposer_ok (s : string) : bool := (s =s "principal") || (s =s "dockworker").
Definition by_am (i : string) (r : amendment_row) : bool := am_id r =s i.

Definition get_amendment (i : string) (d : db) : option amendment_row :=
  tbl_first (by_am i) (amendments d).

(** [fresh] is [uuid.uuid4().hex[:8]]. *)
Definition create_amendment (now fresh kind : string) (request : json)
    (proposed_by_type proposed_by_id : string) (drydock_id yard_id reason tos_notes : option string)
    (expires_at : option string) (status : string) : DB (option amendment_row) :=
  let i := "am_" +:+ fresh in
  bad ← gets (fun d => existsb (by_am i) (amendments d) || negb (am_proposer_ok proposed_by_type)
          || negb (am_status_ok status));
  if bad : bool then throw IntegrityError
  else
    _ ← modify (fun d => set_amendments
          (amendments d ++ [mkAmendment i proposed_by_type proposed_by_id now yard_id drydock_id kind
             request reason tos_notes status None None None None expires_at]) d);
    gets (get_amendment i).

(** [if status:] — an empty filter is no filter. *)
Definition opt_filter_ok (f v : option string) : bool :=
  match f with None => true | Some s => is_empty s || opt_str_eqb v s end.

Definition list_amendments (status drydock_id : option string) (limit : Z) (d : db)
    : list amendment_row :=
  sql_limit limit
    (order_by (fun a b => String.leb (am_proposed_at b) (am_proposed_at a))
       (tbl_select (fun r => filter_ok status (am_status r) && opt_filter_ok drydock_id (am_drydock_id r))
          (amendments d))).

Definition nonempty (o : option string) : bool :=
  match o with Some s => negb (is_empty s) | None => false end.

Definition set_amendment (status : string) (rb ra rn ap : option string) (r : amendment_row)
    : amendment_row :=
  mkAmendment (am_id r) (am_proposed_by_type r) (am_proposed_by_id r) (am_proposed_at r)
    (am_yard_id r) (am_drydock_id r) (am_kind r) (am_request r) (am_reason r) (am_tos_notes r)
    status (keep rb (am_reviewed_by r)) (keep ra (am_reviewed_at r)) (keep rn (am_review_note r))
    (keep ap (am_applied_at r)) (am_expires_at r).

Definition update_amendment_status (now i status : string)
    (reviewed_by review_note applied_at : option string) : DB (option amendment_row) :=
  existing ← gets (get_amendment i);
  match existing with
  | None => throw (WsError ("Amendment " +:+ i +:+ " not found")
                     (Some "Check `ws amendment list` for valid IDs"))
  | Some e =>
      let reviewed_at := if nonempty reviewed_by && negb (nonempty (am_reviewed_at e))
                         then Some now else am_reviewed_at e in
      if negb (am_status_ok status) then throw IntegrityError
      else
        _ ← modify (fun d => set_amendments
              (tbl_update (by_am i) (set_amendment status reviewed_by reviewed_at review_note applied_at)
                 (amendments d)) d);
        gets (get_amendment i)
  end.

Definition expirable (cutoff : string) (r : amendment_row) : bool :=
  ((am_status r =s "pending") || (am_status r =s "escalated"))
  && match am_expires_at r with Some e => String.ltb e cutoff | None => false end.

Definition expire_old_pending_amendments (now : datetime) : DB nat :=
  let p := expirable (isoformat now) in
  n ← gets (fun d => tbl_count p (amendments d));
  _ ← modify (fun d => set_amendments
        (tbl_update p (set_amendment "expired" None None None None) (amendments d)) d);
  mret n.
