(* ===== verification/RegistryFacts.v ===== *)
(** Correctness of [Registry.v]: the integrity invariant of the database over
    every sequence of registry operations, leases, tokens, drydocks, yards,
    amendments and the maintenance sweeps. *)

From S2P Require Import Prelude PyStr PyVal Datetime Registry.
From Stdlib Require Import List.

(** ** The integrity invariant *)

(** What the schema's keys and the code's own checks establish. *)
Record db_ok (d : db) : Prop := mkDbOk {
  ok_dock_id : NoDup (map (fun r => id (dr_dock r)) (drydocks d));
  ok_dock_name : NoDup (map (fun r => name (dr_dock r)) (drydocks d));
  ok_token : NoDup (map tk_drydock_id (tokens d));
  ok_auditor : forall r r', In r (tokens d) -> In r' (tokens d) ->
    auditor_scope r = true -> auditor_scope r' = true -> r = r';
  ok_lease : NoDup (map lr_lease_id (leases d));
  ok_yard_id : NoDup (map yd_id (yards d));
  ok_yard_name : NoDup (map yd_name (yards d));
  ok_am : NoDup (map am_id (amendments d));
  ok_am_status : Forall (fun r => am_status_ok (am_status r) = true) (amendments d);
  ok_wl : NoDup (map wl_id (workload_leases d));
  ok_wl_status : Forall (fun r => wl_status_ok (wl_status r) = true) (workload_leases d);
  ok_mg : NoDup (map mg_id (migrations d));
  ok_mg_status : Forall (fun r => mg_status_ok (mg_status r) = true) (migrations d)
}.

(** One call of an operation of the [Registry] class that writes. *)
Inductive registry_step : db -> db -> Prop :=
  | step_create_drydock now ws d : registry_step d (snd (create_drydock now ws d))
  | step_update_state now n st d : registry_step d (snd (update_state now n st d))
  | step_update_drydock now n fs d : registry_step d (snd (update_drydock now n fs d))
  | step_delete_drydock now n d : registry_step d (snd (delete_drydock now n d))
  | step_delegations now n a b c e f g h i d :
      registry_step d (snd (update_desk_delegations now n a b c e f g h i d))
  | step_log_event now i e v d : registry_step d (snd (log_event now i e v d))
  | step_insert_token i h t d : registry_step d (snd (insert_token i h t d))
  | step_designate i d : registry_step d (snd (designate_auditor i d))
  | step_revoke_auditor i d : registry_step d (snd (revoke_auditor_scope i d))
  | step_delete_token i d : registry_step d (snd (delete_token i d))
  | step_clarification i k s e c x d : registry_step d (snd (insert_clarification i k s e c x d))
  | step_expire_clarifications t d : registry_step d (snd (expire_clarifications t d))
  | step_evict h t d : registry_step d (snd (evict_old_task_log h t d))
  | step_insert_lease l d : registry_step d (snd (insert_lease l d))
  | step_revoke_lease i r d : registry_step d (snd (revoke_lease i r d))
  | step_revoke_desk i r d : registry_step d (snd (revoke_leases_for_desk i r d))
  | step_insert_wl r d : registry_step d (snd (insert_workload_lease r d))
  | step_revoke_wl i s v t d : registry_step d (snd (mark_workload_lease_revoked i s v t d))
  | step_insert_mg now i k p s d : registry_step d (snd (insert_migration now i k p s d))
  | step_update_mg i a b c e f d : registry_step d (snd (update_migration i a b c e f d))
  | step_deskwatch now i k n s x t d : registry_step d (snd (record_deskwatch_event now i k n s x t d))
  | step_create_yard now n r c d : registry_step d (snd (create_yard now n r c d))
  | step_destroy_yard n w d : registry_step d (snd (destroy_yard n w d))
  | step_create_am now f k q pt pi i y r s e st d :
      registry_step d (snd (create_amendment now f k q pt pi i y r s e st d))
  | step_update_am now i s rb rn ap d :
      registry_step d (snd (update_amendment_status now i s rb rn ap d))
  | step_expire_am t d : registry_step d (snd (expire_old_pending_amendments t d)).

(** ** Preservation, operation by operation *)

Lemma NoDup_nil_map {A B} (f : A -> B) : NoDup (map f []).
Proof. constructor. Qed.
#[local] Hint Resolve NoDup_nil_map : py.

Lemma db_ok_empty : db_ok empty_db.
Proof. constructor; cbn; auto with py; try constructor. intros r r' []. Qed.

Lemma existsb_eqb_fresh {A} (g : A -> string) k t :
  existsb (fun r => g r =s k) t = false -> forall r, In r t -> g r <> k.
Proof. intros H r Hr. apply (tbl_fresh _ _ H) in Hr. by apply String.eqb_neq. Qed.

Lemma Forall_tbl_update {R} (Q : R -> Prop) p f t :
  Forall Q t -> (forall r, p r = true -> Q r -> Q (f r)) -> Forall Q (tbl_update p f t).
Proof.
  intros H Hf. induction H as [|r t Hr Ht IH]; cbn; constructor; [|done].
  destruct (p r) eqn:E; auto.
Qed.

Lemma Forall_snoc_intro {R} (Q : R -> Prop) t r : Forall Q t -> Q r -> Forall Q (t ++ [r]).
Proof. intros H1 H2. apply Forall_app. auto. Qed.

(** Each table is the concern of a few clauses only; the others are carried over. *)
Ltac ok_carry H := destruct H; constructor; cbn; auto.

Lemma set_drydocks_ok d t :
  db_ok d -> NoDup (map (fun r => id (dr_dock r)) t) -> NoDup (map (fun r => name (dr_dock r)) t) ->
  db_ok (set_drydocks t d).
Proof. intros H ? ?. ok_carry H. Qed.

Lemma set_events_ok d t : db_ok d -> db_ok (set_events t d).
Proof. intros H. ok_carry H. Qed.

Lemma set_tokens_ok d t :
  db_ok d -> NoDup (map tk_drydock_id t) ->
  (forall r r', In r t -> In r' t -> auditor_scope r = true -> auditor_scope r' = true -> r = r') ->
  db_ok (set_tokens t d).
Proof. intros H ? ?. ok_carry H. Qed.

Lemma set_leases_ok d t : db_ok d -> NoDup (map lr_lease_id t) -> db_ok (set_leases t d).
Proof. intros H ?. ok_carry H. Qed.

Lemma set_yards_ok d t :
  db_ok d -> NoDup (map yd_id t) -> NoDup (map yd_name t) -> db_ok (set_yards t d).
Proof. intros H ? ?. ok_carry H. Qed.

Lemma set_amendments_ok d t :
  db_ok d -> NoDup (map am_id t) -> Forall (fun r => am_status_ok (am_status r) = true) t ->
  db_ok (set_amendments t d).
Proof. intros H ? ?. ok_carry H. Qed.

Lemma set_workload_leases_ok d t :
  db_ok d -> NoDup (map wl_id t) -> Forall (fun r => wl_status_ok (wl_status r) = true) t ->
  db_ok (set_workload_leases t d).
Proof. intros H ? ?. ok_carry H. Qed.

Lemma set_migrations_ok d t :
  db_ok d -> NoDup (map mg_id t) -> Forall (fun r => mg_status_ok (mg_status r) = true) t ->
  db_ok (set_migrations t d).
Proof. intros H ? ?. ok_carry H. Qed.

Lemma set_task_log_ok d t : db_ok d -> db_ok (set_task_log t d).
Proof. intros H. ok_carry H. Qed.

Lemma set_deskwatch_ok d t n : db_ok d -> db_ok (set_deskwatch t n d).
Proof. intros H. ok_carry H. Qed.

Lemma set_clarifications_ok d t n : db_ok d -> db_ok (set_clarifications t n d).
Proof. intros H. ok_carry H. Qed.

Lemma set_field_key f r :
  id (dr_dock (set_field f r)) = id (dr_dock r) /\ name (dr_dock (set_field f r)) = name (dr_dock r).
Proof. by destruct f. Qed.

Lemma set_fields_key fs r :
  id (dr_dock (set_fields fs r)) = id (dr_dock r) /\ name (dr_dock (set_fields fs r)) = name (dr_dock r).
Proof.
  unfold set_fields. revert r. induction fs as [|f fs IH]; intros r; cbn; [done|].
  destruct (IH (set_field f r)) as [-> ->]. apply set_field_key.
Qed.

Lemma update_docks_ok p fs d :
  db_ok d -> db_ok (set_drydocks (tbl_update p (set_fields fs) (drydocks d)) d).
Proof.
  intros H. apply set_drydocks_ok; [done| |];
    rewrite tbl_update_map; try (by destruct H); intros r; apply set_fields_key.
Qed.

Lemma detach_members_map {B} (g : dock_row -> B) ms t :
  (forall r, g (set_field (F_yard_id None) r) = g r) -> map g (detach_members ms t) = map g t.
Proof.
  intros Hg. unfold detach_members. revert t. induction ms as [|m ms IH]; intros t; cbn; [done|].
  rewrite IH. by apply tbl_update_map.
Qed.

#[local] Hint Resolve set_events_ok set_task_log_ok set_deskwatch_ok set_clarifications_ok
  update_docks_ok : py.

(** Walks a straight-line operation down to its writes. *)
Ltac preserve :=
  repeat first
    [ solve [eauto with py] | apply preserves_ret | apply preserves_throw | apply preserves_gets | apply preserves_lift
    | apply preserves_modify; intros ? ?
    | apply preserves_bind; [|intros ?]
    | progress cbv beta iota ]; eauto with py.

Lemma log_event_ok now i e v : preserves db_ok (log_event now i e v).
Proof. unfold log_event. preserve. Qed.
#[local] Hint Resolve log_event_ok : py.

Lemma create_drydock_ok now ws : preserves db_ok (create_drydock now ws).
Proof.
  unfold create_drydock. apply preserves_gets_bind. intros d Hd. unfold get_drydock.
  destruct (tbl_first (by_name (name ws)) (drydocks d)) eqn:En; cbn [option_map]; msimp; [done|].
  destruct (existsb (by_id (id ws)) (drydocks d)) eqn:Ei; msimp; [done|].
  apply (preserves_bind db_ok (log_event _ _ _ _)); [preserve | intros; preserve |].
  rewrite tbl_first_None in En.
  apply set_drydocks_ok; [done| |]; apply tbl_append_NoDup; try (by destruct Hd); cbn.
  - by apply existsb_eqb_fresh.
  - intros r Hr. apply En in Hr. by apply String.eqb_neq.
Qed.

Lemma update_state_ok now n st : preserves db_ok (update_state now n st).
Proof. unfold update_state. preserve. case_goal; preserve. Qed.

Lemma update_drydock_ok now n fs : preserves db_ok (update_drydock now n fs).
Proof. unfold update_drydock. destruct fs; preserve. Qed.

Lemma delete_drydock_ok now n : preserves db_ok (delete_drydock now n).
Proof.
  unfold delete_drydock. preserve.
  - case_goal; preserve.
  - destruct H. apply set_drydocks_ok; [by constructor| |]; by apply tbl_delete_NoDup.
Qed.

Lemma update_desk_delegations_ok now n a b c e f g h i :
  preserves db_ok (update_desk_delegations now n a b c e f g h i).
Proof.
  unfold update_desk_delegations.
  destruct (opt_field F_firewall_domains a ++ _); [preserve|].
  apply preserves_bind; [apply update_drydock_ok | preserve].
Qed.

Lemma insert_token_ok i h t : preserves db_ok (insert_token i h t).
Proof.
  unfold insert_token. apply preserves_modify. intros d Hd.
  destruct (existsb (token_of i) (tokens d)) eqn:E; [done|].
  pose proof (existsb_eqb_fresh tk_drydock_id _ _ E) as Hf.
  apply set_tokens_ok; [done| |].
  - apply tbl_append_NoDup; [by destruct Hd | cbn; by apply Hf].
  - intros r r' Hr Hr' Ha Ha'. apply in_app_iff in Hr as [Hr|[<-|[]]]; [|done].
    apply in_app_iff in Hr' as [Hr'|[<-|[]]]; [|done]. destruct Hd. eauto.
Qed.

Lemma set_scope_key s r : tk_drydock_id (set_scope s r) = tk_drydock_id r.
Proof. done. Qed.

Lemma designate_auditor_ok i : preserves db_ok (designate_auditor i).
Proof.
  unfold designate_auditor. apply preserves_gets_bind. intros d Hd.
  destruct (tbl_first _ (tokens d)) eqn:E; msimp; [done|]. rewrite tbl_first_None in E.
  pose proof (ok_token d Hd) as Hk.
  apply set_tokens_ok; [done|by rewrite tbl_update_map|].
  (* every row that has the scope afterwards belongs to the designated desk *)
  assert (forall r, In r (tbl_update (fun r => token_of i r && negb (auditor_scope r))
                              (set_scope "auditor") (tokens d)) ->
                    auditor_scope r = true -> tk_drydock_id r = i) as Hown.
  { intros r (r0 & Hr0 & ->)%tbl_update_In Ha. specialize (E r0 Hr0). unfold token_of in *.
    destruct (tk_drydock_id r0 =s i) eqn:Ei, (auditor_scope r0) eqn:Ea; cbn in *; breflect; done || congruence. }
  intros r r' Hr Hr' Ha Ha'. eapply (tbl_key_inj tk_drydock_id); [|exact Hr|exact Hr'|];
    [by rewrite tbl_update_map | by rewrite !Hown].
Qed.

Lemma revoke_auditor_scope_ok i : preserves db_ok (revoke_auditor_scope i).
Proof.
  unfold revoke_auditor_scope. preserve. destruct H.
  apply set_tokens_ok; [by constructor | by rewrite tbl_update_map |].
  intros r r' (r0 & H0 & ->)%tbl_update_In (r1 & H1 & ->)%tbl_update_In.
  repeat case_goal; cbn; try done; eauto.
Qed.

Lemma delete_token_ok i : preserves db_ok (delete_token i).
Proof.
  unfold delete_token. preserve. destruct H.
  apply set_tokens_ok; [by constructor | by apply tbl_delete_NoDup |].
  intros r r' [Hr _]%tbl_delete_In [Hr' _]%tbl_delete_In. eauto.
Qed.

Lemma insert_clarification_ok i k s e c x : preserves db_ok (insert_clarification i k s e c x).
Proof. unfold insert_clarification. preserve. Qed.

Lemma expire_clarifications_ok t : preserves db_ok (expire_clarifications t).
Proof. unfold expire_clarifications. preserve. Qed.

Lemma evict_ok h t : preserves db_ok (evict_old_task_log h t).
Proof. unfold evict_old_task_log. destruct (add_seconds t _); preserve. Qed.

Lemma insert_lease_ok l : preserves db_ok (insert_lease l).
Proof.
  unfold insert_lease. apply preserves_gets_bind. intros d Hd.
  destruct (existsb _ _) eqn:E; msimp; [done|].
  apply set_leases_ok; [done|]. apply tbl_append_NoDup; [by destruct Hd|].
  cbn. by apply existsb_eqb_fresh.
Qed.

Lemma revoke_where_ok p r : preserves db_ok (revoke_where p r).
Proof.
  unfold revoke_where. preserve. apply set_leases_ok; [done|]. rewrite tbl_update_map; [by destruct H|done].
Qed.
#[local] Hint Resolve revoke_where_ok : py.

Lemma revoke_lease_ok i r : preserves db_ok (revoke_lease i r).
Proof. unfold revoke_lease. preserve. Qed.

Lemma insert_workload_lease_ok r : preserves db_ok (insert_workload_lease r).
Proof.
  unfold insert_workload_lease. apply preserves_gets_bind. intros d Hd.
  destruct (_ || _) eqn:E; msimp; [done|]. breflect.
  apply set_workload_leases_ok; [done| |].
  - apply tbl_append_NoDup; [by destruct Hd|]. cbn. by apply existsb_eqb_fresh.
  - apply Forall_snoc_intro; [by destruct Hd | done].
Qed.

(** A guarded [UPDATE] that fails its CHECK only when it touches a row. *)
Lemma guarded_update {R} (Q : R -> bool) p (f : R -> R) b t :
  existsb p t && b = false -> (b = false -> forall r, Q (f r) = true) ->
  Forall (fun r => Q r = true) t -> Forall (fun r => Q r = true) (tbl_update p f t).
Proof.
  intros Hb Hf Ht. destruct b eqn:E.
  - rewrite andb_true_r in Hb. rewrite tbl_update_id; [done|]. by apply tbl_fresh.
  - apply Forall_tbl_update; [done|]. auto.
Qed.

Lemma mark_workload_lease_revoked_ok i s v t : preserves db_ok (mark_workload_lease_revoked i s v t).
Proof.
  unfold mark_workload_lease_revoked. apply preserves_gets_bind. intros d Hd.
  destruct (_ && _) eqn:E; msimp; [done|]. apply set_workload_leases_ok; [done| |].
  - rewrite tbl_update_map; [by destruct Hd | done].
  - apply (guarded_update (fun r => wl_status_ok (wl_status r)) _ _ _ _ E); [|by destruct Hd].
    cbn. by intros Hs%negb_false_iff.
Qed.

Lemma insert_migration_ok now i k p s : preserves db_ok (insert_migration now i k p s).
Proof.
  unfold insert_migration. apply preserves_gets_bind. intros d Hd.
  destruct (_ || _) eqn:E; msimp; [done|]. breflect.
  apply set_migrations_ok; [done| |].
  - apply tbl_append_NoDup; [by destruct Hd|]. cbn. by apply existsb_eqb_fresh.
  - apply Forall_snoc_intro; [by destruct Hd | done].
Qed.

Lemma update_migration_ok i a b c e f : preserves db_ok (update_migration i a b c e f).
Proof.
  unfold update_migration. apply preserves_gets_bind. intros d Hd.
  destruct (_ && _) eqn:E; msimp; [done|]. apply set_migrations_ok; [done| |].
  - rewrite tbl_update_map; [by destruct Hd | done].
  - destruct a as [s|]; [|by apply Forall_tbl_update; [destruct Hd|]].
    apply (guarded_update (fun r => mg_status_ok (mg_status r)) _ _ _ _ E); [|by destruct Hd].
    cbn. by intros Hs%negb_false_iff.
Qed.

Lemma record_deskwatch_event_ok now i k n s x t :
  preserves db_ok (record_deskwatch_event now i k n s x t).
Proof. unfold record_deskwatch_event. preserve. Qed.

Lemma create_yard_ok now n r c : preserves db_ok (create_yard now n r c).
Proof.
  unfold create_yard. apply preserves_gets_bind. intros d Hd. unfold get_yard.
  destruct (tbl_first _ _) eqn:E; msimp; [done|]. rewrite tbl_first_None in E.
  destruct (existsb _ _) eqn:Ei; msimp; [done|].
  apply set_yards_ok; [done| |]; apply tbl_append_NoDup; try (by destruct Hd); cbn.
  - by apply existsb_eqb_fresh.
  - intros y Hy. apply E in Hy. by apply String.eqb_neq.
Qed.

Lemma destroy_yard_ok n w : preserves db_ok (destroy_yard n w).
Proof.
  assert (forall i d, db_ok d -> db_ok (set_yards (tbl_delete (yard_with_id i) (yards d)) d)) as Hy.
  { intros i d Hd. apply set_yards_ok; [done| |]; apply tbl_delete_NoDup; by destruct Hd. }
  unfold destroy_yard. preserve. case_goal; [|preserve]. preserve.
  case_goal; [preserve|]. case_goal; preserve.
  apply set_drydocks_ok; [done| |]; rewrite detach_members_map; by destruct H.
Qed.

Lemma create_amendment_ok now f k q pt pi i y r s e st :
  preserves db_ok (create_amendment now f k q pt pi i y r s e st).
Proof.
  unfold create_amendment. apply preserves_gets_bind. intros d Hd.
  destruct (_ || _) eqn:E; msimp; [done|]. breflect.
  apply set_amendments_ok; [done| |].
  - apply tbl_append_NoDup; [by destruct Hd|]. cbn. by apply existsb_eqb_fresh.
  - apply Forall_snoc_intro; [by destruct Hd | done].
Qed.

Lemma set_amendments_update_ok p st rb ra rn ap d :
  db_ok d -> am_status_ok st = true ->
  db_ok (set_amendments (tbl_update p (set_amendment st rb ra rn ap) (amendments d)) d).
Proof.
  intros Hd Hst. apply set_amendments_ok; [done| |].
  - rewrite tbl_update_map; [by destruct Hd | done].
  - apply Forall_tbl_update; [by destruct Hd | done].
Qed.

Lemma update_amendment_status_ok now i s rb rn ap :
  preserves db_ok (update_amendment_status now i s rb rn ap).
Proof.
  unfold update_amendment_status. preserve. case_goal; [|preserve].
  destruct (am_status_ok s) eqn:E; cbn; preserve. by apply set_amendments_update_ok.
Qed.

Lemma expire_amendments_ok t : preserves db_ok (expire_old_pending_amendments t).
Proof. unfold expire_old_pending_amendments. preserve. by apply set_amendments_update_ok. Qed.

Create HintDb regops.
#[local] Hint Resolve create_drydock_ok update_state_ok update_drydock_ok delete_drydock_ok
  update_desk_delegations_ok insert_token_ok designate_auditor_ok revoke_auditor_scope_ok
  delete_token_ok insert_clarification_ok expire_clarifications_ok evict_ok insert_lease_ok
  revoke_lease_ok insert_workload_lease_ok mark_workload_lease_revoked_ok insert_migration_ok
  update_migration_ok record_deskwatch_event_ok create_yard_ok destroy_yard_ok create_amendment_ok
  update_amendment_status_ok expire_amendments_ok : regops.

Lemma registry_step_ok d d' : registry_step d d' -> db_ok d -> db_ok d'.
Proof.
  intros H Hd. destruct H; match goal with |- db_ok (snd (?m ?d)) =>
    assert (preserves db_ok m) as Hm by eauto with regops py; by apply Hm
  end.
Qed.

(** Whatever sequence of registry writes runs on a fresh database (creating,
    updating and deleting drydocks, tokens, leases, yards, amendments, migrations and
    the sweeps, in any order and with any arguments), drydock ids and names, lease
    ids, yard ids and names, amendment, workload-lease and migration ids stay unique,
    every drydock has at most one token, at most one token on the harbor has the
    auditor scope, and every status column holds one of its declared values. *)
Theorem registry_integrity d : rtc registry_step empty_db d -> db_ok d.
Proof.
  intros H. assert (db_ok empty_db) as H0 by apply db_ok_empty. revert H0.
  induction H as [|d1 d2 d3 Hs _ IH]; intros H0; [done|].
  apply IH. by eapply registry_step_ok.
Qed.

(** Two leases, the second with the id of the first, and a revocation. *)
Lemma registry_integrity_witness :
  let l k := mkLease "lease-1" k SECRET [] (mkDatetime 0 true) None "daemon" false None in
  let d1 := snd (insert_lease (l "a") empty_db) in
  let d2 := snd (insert_lease (l "b") d1) in
  let d3 := snd (revoke_lease "lease-1" "released" d2) in
  length (leases d3) = 1%nat /\ db_ok d3.
Proof.
  cbv zeta. split; [vm_compute; reflexivity|]. apply registry_integrity.
  eapply rtc_l; [eapply step_insert_lease|]. eapply rtc_l; [eapply step_insert_lease|].
  eapply rtc_l; [eapply step_revoke_lease|]. apply rtc_refl.
Defined.

(** ** Leases *)

Definition lease_valid (l : CapabilityLease) : Prop :=
  dt_valid (issued_at l) /\ forall t, expiry l = Some t -> dt_valid t.

Lemma CapabilityType_of_value t : CapabilityType_of (CapabilityType_value t) = Some t.
Proof. by destruct t. Qed.

Lemma isoformat_nonempty t : dt_valid t -> is_empty (isoformat t) = false.
Proof.
  intros Ht. destruct (isoformat t) eqn:E; [|done].
  pose proof (fromisoformat_iso t Ht) as H. rewrite E in H. done.
Qed.

Lemma row_to_lease_inv l : lease_valid l -> _row_to_lease (lease_to_row l) = Ok l.
Proof.
  intros [Hi He]. unfold _row_to_lease, lease_to_row, fromisoformat_exn.
  cbn [lr_type lr_issued_at lr_expiry]. rewrite CapabilityType_of_value, (fromisoformat_iso _ Hi).
  cbn -[fromisoformat].
  destruct l as [li ld lt ls lis lex liss lrev lre]; cbn -[fromisoformat] in *. destruct lex as [t|]; cbn -[fromisoformat]; [|done].
  rewrite (isoformat_nonempty t), fromisoformat_iso by auto. done.
Qed.

(** A lease whose id is not in use is stored and read back by [get_lease] exactly
    as it was issued (type, scope, both timestamps, issuer, revocation state), no other
    lease's reading changes, and an id already in use raises and stores nothing. *)
Theorem insert_lease_get_lease l d :
  lease_valid l ->
  let '(r, d') := insert_lease l d in
  if existsb (by_lease (lease_id l)) (leases d)
  then r = Err IntegrityError /\ d' = d
  else r = Ok tt /\ get_lease (lease_id l) d' = Ok (Some l)
       /\ forall i, i <> lease_id l -> get_lease i d' = get_lease i d.
Proof.
  intros Hl. unfold insert_lease. msimp. destruct (existsb _ _) eqn:E; msimp; [done|].
  assert (forall i, tbl_first (by_lease i) (leases d ++ [lease_to_row l])
    = match tbl_first (by_lease i) (leases d) with
      | Some r => Some r | None => if lease_id l =s i then Some (lease_to_row l) else None end) as Hf.
  { intros i. rewrite tbl_first_app. destruct (tbl_first (by_lease i) (leases d)); [done|].
    unfold tbl_first; cbn. by destruct (lease_id l =s i). }
  split; [done|]. split.
  - unfold get_lease; cbn. rewrite Hf, String.eqb_refl.
    rewrite (proj2 (tbl_first_None _ _) (tbl_fresh _ _ E)), row_to_lease_inv; done.
  - intros i Hi. unfold get_lease; cbn. rewrite Hf.
    destruct (String.eqb_spec (lease_id l) i); [congruence|]. by destruct (tbl_first _ _).
Qed.

Definition sample_lease : CapabilityLease :=
  mkLease "lease-1" "dock_a" SECRET [("secret_name", JStr "k")] (mkDatetime 63000000000000000 true)
    None "authority" false None.

Lemma insert_lease_get_lease_witness :
  get_lease "lease-1" (snd (insert_lease sample_lease empty_db)) = Ok (Some sample_lease).
Proof.
  assert (lease_valid sample_lease) as Hv by (split; [vm_compute; split; done | done]).
  destruct (insert_lease_get_lease sample_lease empty_db Hv) as (_ & H & _). exact H.
Defined.

Lemma revoke_where_eq p r d :
  revoke_where p r d
  = (Ok (tbl_count (fun x => p x && negb (lr_revoked x)) (leases d)),
     set_leases (tbl_update (fun x => p x && negb (lr_revoked x)) (revoke_row r) (leases d)) d).
Proof. done. Qed.

Lemma revoked_not_active p r t x :
  (forall y, p (revoke_row r y) = p y) ->
  In x (tbl_update (fun x => p x && negb (lr_revoked x)) (revoke_row r) t) ->
  p x && negb (lr_revoked x) = false.
Proof.
  intros Hp (y & _ & ->)%tbl_update_In. destruct (p y && negb (lr_revoked y)) eqn:E; [|done].
  cbn. by rewrite andb_false_r.
Qed.

Lemma tbl_count_pos {R} (p q : R -> bool) t x :
  (forall r, In r t -> p r = true -> r = x) -> In x t ->
  rowcount_pos (tbl_count (fun r => p r && q r) t) = p x && q x.
Proof.
  intros Hu Hx. unfold rowcount_pos. destruct (p x && q x) eqn:E.
  - apply Nat.ltb_lt. destruct (tbl_count _ t) eqn:Ec; [|lia].
    rewrite (proj1 (tbl_count_0 _ _) Ec x Hx) in E. done.
  - apply Nat.ltb_ge. rewrite (proj2 (tbl_count_0 _ _)); [done|].
    intros r Hr. destruct (p r) eqn:Ep; [|done]. pose proof (Hu r Hr Ep). subst r.
    by rewrite Ep in E.
Qed.

(** Both outcomes of a revocation, for unique lease ids. *)
Lemma revoke_lease_first i reason d x :
  List.NoDup (map lr_lease_id (leases d)) -> tbl_first (by_lease i) (leases d) = Some x ->
  revoke_lease i reason d
  = (Ok (negb (lr_revoked x)),
     set_leases (tbl_update (fun x => by_lease i x && negb (lr_revoked x)) (revoke_row reason) (leases d)) d).
Proof.
  intros Hnd Ef. unfold revoke_lease. rewrite (bind_ok _ _ _ _ _ (revoke_where_eq _ _ _)), ret_eq.
  apply tbl_first_Some in Ef as [Hx Hp]. do 2 f_equal.
  rewrite (tbl_count_pos _ (fun x => negb (lr_revoked x)) _ x); [by rewrite Hp | | done].
  intros y Hy Hpy. unfold by_lease in *. breflect.
  eapply (tbl_key_inj lr_lease_id); [exact Hnd| | |]; try done. congruence.
Qed.

Lemma revoke_lease_none i reason d :
  (forall x, In x (leases d) -> by_lease i x && negb (lr_revoked x) = false) ->
  revoke_lease i reason d = (Ok false, d).
Proof.
  intros Hn. unfold revoke_lease. rewrite (bind_ok _ _ _ _ _ (revoke_where_eq _ _ _)), ret_eq.
  rewrite (proj2 (tbl_count_0 _ _)), (tbl_update_id _ _ _ Hn) by done. by destruct d.
Qed.

(** Revoking a lease reports whether it was active; the lease then reads as revoked
    with the given reason, unless it already was, in which case its original reason is
    kept; no other lease changes, and revoking again reports [False] and changes nothing. *)
Theorem revoke_lease_once i reason reason2 d :
  db_ok d ->
  let old := tbl_first (by_lease i) (leases d) in
  let '(r, d') := revoke_lease i reason d in
  r = Ok (match old with Some x => negb (lr_revoked x) | None => false end)
  /\ tbl_first (by_lease i) (leases d')
     = option_map (fun x => if lr_revoked x then x else revoke_row reason x) old
  /\ (forall j, j <> i -> get_lease j d' = get_lease j d)
  /\ revoke_lease i reason2 d' = (Ok false, d').
Proof.
  intros Hd. cbv zeta. unfold revoke_lease.
  destruct ((revoke_where (by_lease i) reason ≫= _) d) as [r d'] eqn:E.
  rewrite (bind_ok _ _ _ _ _ (revoke_where_eq _ _ _)), ret_eq in E. injection E as <- <-.
  assert (forall y, by_lease i (revoke_row reason y) = by_lease i y) as Hk by done.
  split; [|split; [|split]].
  - destruct (tbl_first _ _) as [x|] eqn:Ef; f_equal.
    + apply tbl_first_Some in Ef as [Hx Hp].
      rewrite (tbl_count_pos _ (fun x => negb (lr_revoked x)) _ x); [by rewrite Hp | | done].
      intros y Hy Hpy. unfold by_lease in *. breflect.
      eapply (tbl_key_inj lr_lease_id); [apply Hd| | |]; try done. congruence.
    + rewrite tbl_first_None in Ef. rewrite (proj2 (tbl_count_0 _ _)); [done|].
      intros x Hx. by rewrite Ef.
  - cbn. rewrite tbl_first_update by done. destruct (tbl_first _ _) as [x|] eqn:Ef; [|done]. cbn.
    apply tbl_first_Some in Ef as [_ Hp]. rewrite Hp. by destruct (lr_revoked x).
  - intros j Hj. unfold get_lease; cbn. rewrite tbl_first_update_ne; [done|].
    intros x. unfold by_lease; cbn. intros [Hx _]%andb_true_iff. breflect. subst.
    destruct (String.eqb_spec (lr_lease_id x) j); [congruence|done].
  - rewrite (bind_ok _ _ _ _ _ (revoke_where_eq _ _ _)), ret_eq.
    cbn [leases set_leases]. f_equal.
    + rewrite (proj2 (tbl_count_0 _ _)); [done|]. intros x. by apply revoked_not_active.
    + rewrite (tbl_update_id _ _ (tbl_update _ _ _)); [done|]. intros x. by apply revoked_not_active.
Qed.

Lemma revoke_lease_once_witness :
  let d := snd (insert_lease sample_lease empty_db) in
  db_ok d /\ fst (revoke_lease "lease-1" "released" d) = Ok true
  /\ revoke_lease "lease-1" "again" (snd (revoke_lease "lease-1" "released" d))
     = (Ok false, snd (revoke_lease "lease-1" "released" d)).
Proof.
  cbv zeta. pose proof (insert_lease_ok sample_lease _ db_ok_empty) as Hd. split; [exact Hd|].
  pose proof (revoke_lease_once "lease-1" "released" "again" _ Hd) as H.
  cbv zeta in H. destruct (revoke_lease "lease-1" "released" _) as [r d'].
  destruct H as (H1 & _ & _ & H4). split; [exact H1 | exact H4].
Defined.

(** Revoking all leases of a desk counts its active leases, leaves it with none, and
    leaves every other desk's active leases as they were. *)
Theorem revoke_leases_for_desk_spec i reason d :
  let '(r, d') := revoke_leases_for_desk i reason d in
  r = Ok (tbl_count (active_of i) (leases d))
  /\ list_active_leases_for_desk i d' = Ok []
  /\ forall j, j <> i -> list_active_leases_for_desk j d' = list_active_leases_for_desk j d.
Proof.
  unfold revoke_leases_for_desk. rewrite revoke_where_eq. split; [done|].
  unfold list_active_leases_for_desk; cbn. split.
  - rewrite (proj2 (order_by_nil le_issued _)); [done|]. apply tbl_select_nil.
    intros x. by apply (revoked_not_active (fun r => lr_drydock_id r =s i)).
  - intros j Hj. do 2 f_equal. apply tbl_select_update_ne. intros x [Hx _]%andb_true_iff. breflect.
    unfold active_of; cbn. subst. destruct (String.eqb_spec (lr_drydock_id x) j); [congruence|done].
Qed.

(** ** Drydocks *)

(** What [create_drydock] stores of the record it is given. *)
Definition as_stored (w : Drydock) : Drydock := dr_dock (new_dock_row w).

Lemma find_app_fresh p (t : list dock_row) r :
  tbl_first p (t ++ [r]) = match tbl_first p t with
                           | Some x => Some x | None => if p r then Some r else None end.
Proof. rewrite tbl_first_app. destruct (tbl_first p t); [done|]. unfold tbl_first; cbn. by destruct (p r). Qed.

(** [create_drydock] fails exactly when the name or the id is taken, and then writes
    nothing; otherwise the drydock is found under its name and its id, with empty
    policy columns and no yard or pinned hash whatever the record said, no other drydock
    changes, and one creation event is appended. *)
Theorem create_drydock_spec now ws d :
  let '(r, d') := create_drydock now ws d in
  match r with
  | Ok w => w = ws /\ get_drydock (name ws) d = None /\ load_desk_policy (id ws) d = None
            /\ get_drydock (name ws) d' = Some (as_stored ws)
            /\ load_desk_policy (id ws) d' = Some (new_dock_row ws)
            /\ (forall n, n <> name ws -> get_drydock n d' = get_drydock n d)
            /\ (forall i, i <> id ws -> load_desk_policy i d' = load_desk_policy i d)
            /\ events d' = events d ++ [mkEvent (id ws) "drydock.created" now (JObj [])]
  | Err _ => d' = d /\ (get_drydock (name ws) d <> None \/ load_desk_policy (id ws) d <> None)
  end.
Proof.
  unfold create_drydock, load_desk_policy, get_drydock, log_event. msimp.
  destruct (tbl_first (by_name (name ws)) (drydocks d)) eqn:En; cbn [option_map]; msimp; [auto|].
  destruct (existsb (by_id (id ws)) (drydocks d)) eqn:Ei; msimp.
  - split; [done|]. right. rewrite tbl_first_None. intros H.
    apply existsb_exists in Ei as (x & Hx & Hp). by rewrite H in Hp.
  - pose proof (proj2 (tbl_first_None _ _) (tbl_fresh _ _ Ei)) as Ei'.
    split; [done|]. split; [done|]. split; [done|]. cbn [drydocks set_events set_drydocks].
    split; [|split; [|split; [|split; [|done]]]]; intros; rewrite find_app_fresh.
    + rewrite En. unfold by_name; cbn. by rewrite String.eqb_refl.
    + rewrite Ei'. unfold by_id; cbn. by rewrite String.eqb_refl.
    + destruct (tbl_first (by_name n) (drydocks d)); [done|]. unfold by_name; cbn.
      destruct (String.eqb_spec (name ws) n); [congruence|done].
    + destruct (tbl_first (by_id i) (drydocks d)); [done|]. unfold by_id; cbn.
      destruct (String.eqb_spec (id ws) i); [congruence|done].
Qed.

(** ** Sweeps *)

(** A completion time the daemon wrote. *)
Definition written_at (o : option string) : Prop :=
  forall s, o = Some s -> exists t, s = isoformat t /\ dt_valid t /\ dt_utc t = true.

(** The row's outcome is final and older than the cutoff, in time. *)
Definition finished_before (cutoff : datetime) (r : task_row) : Prop :=
  terminal_status (tl_status r) = true
  /\ exists t, tl_completed_at r = Some (isoformat t) /\ dt_valid t /\ dt_us t < dt_us cutoff
               /\ dt_utc t = true.

Lemma evictable_chronological cutoff r :
  dt_valid cutoff -> dt_utc cutoff = true -> written_at (tl_completed_at r) ->
  evictable (isoformat cutoff) r = true <-> finished_before cutoff r.
Proof.
  intros Hc Hu Hw. unfold evictable, finished_before. rewrite andb_true_iff.
  split; intros [Hs H]; (split; [done|]).
  - destruct (tl_completed_at r) as [s|] eqn:E; [|done].
    destruct (Hw s eq_refl) as (t & -> & Ht & Htu). exists t.
    rewrite ts_ltb_isoformat in H by congruence. breflect. done.
  - destruct H as (t & -> & Ht & Hlt & Htu). rewrite ts_ltb_isoformat by congruence. lia.
Qed.

(** The task-log sweep removes exactly the completed or failed requests that finished
    before the cutoff; an in-progress request, or one that finished later, stays whatever
    its age, so its outcome can still be replayed. *)
Theorem evict_old_task_log_spec hours now d :
  dt_utc now = true -> dt_valid (mkDatetime (dt_us now - hours * 3600 * 1000000) true) ->
  Forall (fun r => written_at (tl_completed_at r)) (task_log d) ->
  let cutoff := mkDatetime (dt_us now - hours * 3600 * 1000000) true in
  exists n d', evict_old_task_log hours now d = (Ok n, d')
  /\ (length (task_log d') + n = length (task_log d))%nat
  /\ forall r, In r (task_log d') <-> In r (task_log d) /\ ~ finished_before cutoff r.
Proof.
  intros Hu Hv Hw. cbv zeta. unfold evict_old_task_log, add_seconds.
  replace (dt_us now + - (3600 * hours) * 1000000) with (dt_us now - hours * 3600 * 1000000) by lia.
  unfold dt_valid in Hv; cbn [dt_us] in Hv.
  rewrite (proj2 (Z.leb_le _ _)), (proj2 (Z.ltb_lt _ _)) by lia. cbn [andb]. rewrite Hu. msimp.
  set (p := evictable _). exists (tbl_count p (task_log d)). eexists. split; [done|].
  cbn [task_log set_task_log]. split.
  - unfold tbl_delete, tbl_count. clear. induction (task_log d) as [|r t IH]; cbn; [done|].
    destruct (p r); cbn; lia.
  - intros r. rewrite tbl_delete_In. rewrite Forall_forall in Hw.
    split; intros [Hr Hp]; (split; [done|]); subst p.
    + intros Hf. apply evictable_chronological in Hf; [congruence|done|done|auto].
    + apply not_true_iff_false. rewrite evictable_chronological by auto. done.
Qed.

Lemma evict_old_task_log_spec_witness :
  let now := mkDatetime (738000 * us_per_day) true in
  let old := mkTask "r1" "m" JNull "completed" (Some JNull) "c" (Some (isoformat (mkDatetime (730000 * us_per_day) true))) in
  let pending := mkTask "r2" "m" JNull "in_progress" None "c" None in
  exists n d', evict_old_task_log 24 now (set_task_log [old; pending] empty_db) = (Ok n, d')
  /\ (length (task_log d') + n = 2)%nat.
Proof.
  cbv zeta. destruct (evict_old_task_log_spec 24 (mkDatetime (738000 * us_per_day) true)
    (set_task_log [mkTask "r1" "m" JNull "completed" (Some JNull) "c"
                     (Some (isoformat (mkDatetime (730000 * us_per_day) true)));
                   mkTask "r2" "m" JNull "in_progress" None "c" None] empty_db))
    as (n & d' & H1 & H2 & _).
  - reflexivity.
  - split; vm_compute; congruence.
  - constructor; [|constructor; [|constructor]]; intros s; cbn [tl_completed_at]; [|discriminate].
    intros [= <-]. exists (mkDatetime (730000 * us_per_day) true).
    split; [reflexivity|]. split; [split; vm_compute; congruence | reflexivity].
  - exists n, d'. split; [exact H1 | exact H2].
Defined.

(** Expiring amendments touches only pending or escalated ones whose expiry has
    passed, counts them, and running it again at the same instant expires none. *)
Theorem expire_amendments_idempotent now d :
  let '(r, d') := expire_old_pending_amendments now d in
  r = Ok (tbl_count (expirable (isoformat now)) (amendments d))
  /\ (forall a, In a (amendments d) -> expirable (isoformat now) a = false -> In a (amendments d'))
  /\ (forall a, In a (amendments d') -> In a (amendments d) \/ am_status a = "expired")
  /\ expire_old_pending_amendments now d' = (Ok 0%nat, d').
Proof.
  unfold expire_old_pending_amendments. msimp. set (p := expirable (isoformat now)).
  cbn [amendments set_amendments].
  assert (forall a, In a (tbl_update p (set_amendment "expired" None None None None) (amendments d)) ->
                    p a = false) as Hno.
  { intros a (x & _ & ->)%tbl_update_In. by destruct (p x) eqn:E. }
  split; [done|]. split; [|split].
  - intros a Ha Hp. apply tbl_update_In. exists a. by rewrite Hp.
  - intros a (x & Hx & ->)%tbl_update_In. destruct (p x); auto.
  - rewrite (tbl_update_id _ _ (tbl_update _ _ _)) by done. f_equal. f_equal. by apply tbl_count_0.
Qed.

(** ** Amendments *)

(** A status update changes exactly the named amendment, keeps every review field it
    is not given, and stamps [reviewed_at] only at the first review: a later one leaves
    the first review time in place. *)
Theorem update_amendment_status_spec now i st rb rn ap d e :
  get_amendment i d = Some e -> am_status_ok st = true ->
  let ra := if nonempty rb && negb (nonempty (am_reviewed_at e)) then Some now else am_reviewed_at e in
  let e' := set_amendment st rb ra rn ap e in
  exists d', update_amendment_status now i st rb rn ap d = (Ok (Some e'), d')
  /\ (nonempty (am_reviewed_at e) = true -> am_reviewed_at e' = am_reviewed_at e)
  /\ forall j, j <> i -> get_amendment j d' = get_amendment j d.
Proof.
  intros He Hst. cbv zeta. unfold update_amendment_status. msimp. rewrite He, Hst. cbn [negb]. msimp.
  eexists. split; [|split].
  - f_equal. f_equal. unfold get_amendment in *. cbn [amendments set_amendments].
    rewrite tbl_first_update by done. rewrite He. cbn.
    apply tbl_first_Some in He as [_ Hp]. by rewrite Hp.
  - intros Hn. rewrite Hn, andb_false_r. cbn. by destruct (am_reviewed_at e).
  - intros j Hj. unfold get_amendment. cbn [amendments set_amendments].
    apply tbl_first_update_ne. intros r. unfold by_am; cbn. intros H. breflect. subst.
    destruct (String.eqb_spec (am_id r) j); [congruence|done].
Qed.

Lemma update_amendment_status_spec_witness :
  let d := snd (create_amendment "t0" "0a1b2c3d" "k" JNull "principal" "p" None None None None None
                  "pending" empty_db) in
  exists e', fst (update_amendment_status "t1" "am_0a1b2c3d" "approved" (Some "me") None None d)
             = Ok (Some e').
Proof.
  destruct (update_amendment_status_spec "t1" "am_0a1b2c3d" "approved" (Some "me") None None
    (snd (create_amendment "t0" "0a1b2c3d" "k" JNull "principal" "p" None None None None None
                  "pending" empty_db)) _ eq_refl eq_refl) as (d' & H & _).
  eexists. rewrite H. reflexivity.
Defined.

(** ** Yards *)

Lemma list_yard_members_In i d w :
  In w (list_yard_members i d) <->
  exists r, In r (drydocks d) /\ dr_dock r = w /\ yard_id w = Some i.
Proof.
  unfold list_yard_members, _row_to_drydock. rewrite in_map_iff. split.
  - intros (r & <- & H). apply order_by_In, tbl_select_In in H as [Hr Hy]. exists r.
    split; [done|]. split; [done|]. unfold opt_str_eqb in Hy. destruct (yard_id (dr_dock r)); [|done].
    breflect. congruence.
  - intros (r & Hr & <- & Hy). exists r. split; [done|]. apply order_by_In, tbl_select_In.
    split; [done|]. rewrite Hy. cbn. apply String.eqb_refl.
Qed.

Definition no_yard (r : dock_row) : dock_row := set_field (F_yard_id None) r.

(** Detaching a set of rows by id, in any order. *)
Lemma detach_members_map_eq ms t :
  detach_members ms t
  = map (fun r => if existsb (fun m => by_id (id m) r) ms then no_yard r else r) t.
Proof.
  unfold detach_members. revert t. induction ms as [|m ms IH]; intros t; cbn [fold_left existsb].
  - cbn. by rewrite map_id.
  - rewrite IH. unfold tbl_update. rewrite map_map. apply map_ext. intros r.
    destruct (by_id (id m) r) eqn:E; cbn [orb]; [|done].
    change (existsb (fun m0 => by_id (id m0) (set_field (F_yard_id None) r)) ms)
      with (existsb (fun m0 => by_id (id m0) r) ms).
    by destruct (existsb _ ms).
Qed.

(** Destroying a yard with its members detaches them and removes the yard: every
    drydock is still there, the members with no yard and otherwise as they were, the
    others unchanged; without [with_members] a yard that has members is refused and
    nothing changes. *)
Theorem destroy_yard_detaches n w d y :
  db_ok d -> get_yard n d = Some y ->
  let members := list_yard_members (yd_id y) d in
  let '(r, d') := destroy_yard n w d in
  if match members with [] => false | _ => negb w end
  then is_ok r = false /\ d' = d
  else r = Ok (length members) /\ get_yard n d' = None
       /\ drydocks d' = map (fun x => if opt_str_eqb (yard_id (dr_dock x)) (yd_id y)
                                      then no_yard x else x) (drydocks d).
Proof.
  intros Hd Hy. cbv zeta. unfold destroy_yard. rewrite gets_bind, Hy.
  assert (forall d0, yards d0 = yards d ->
    get_yard n (set_yards (tbl_delete (yard_with_id (yd_id y)) (yards d0)) d0) = None) as Hgone.
  { intros d0 H0. unfold get_yard. cbn [yards set_yards]. apply tbl_first_None.
    intros x [Hx Hp]%tbl_delete_In. rewrite H0 in Hx. destruct (yard_named n x) eqn:E; [|done].
    apply tbl_first_Some in Hy as [Hin Hn]. unfold yard_named, yard_with_id in *. breflect.
    assert (x = y) as ->; [|done]. eapply (tbl_key_inj yd_name); [apply Hd| | |]; congruence. }
  assert (map (fun x => if opt_str_eqb (yard_id (dr_dock x)) (yd_id y) then no_yard x else x)
            (drydocks d) = detach_members (list_yard_members (yd_id y) d) (drydocks d)) as Hdet.
  { rewrite detach_members_map_eq. apply map_ext_in. intros r Hr.
    replace (existsb _ _) with (opt_str_eqb (yard_id (dr_dock r)) (yd_id y)); [done|].
    apply eq_true_iff_eq. rewrite existsb_exists. unfold by_id. split.
    - intros Hm. exists (dr_dock r). split; [|apply String.eqb_refl].
      apply list_yard_members_In. exists r. split; [done|]. split; [done|].
      unfold opt_str_eqb in Hm. destruct (yard_id _); [|done]. breflect. congruence.
    - intros (m & (r' & Hr' & <- & Hm)%list_yard_members_In & Hid). breflect.
      assert (r = r') as -> by (eapply (tbl_key_inj (fun r => id (dr_dock r))); [apply Hd|..]; done).
      rewrite Hm. apply String.eqb_refl. }
  rewrite gets_bind. destruct (list_yard_members (yd_id y) d) as [|m ms] eqn:Em.
  - msimp. split; [done|]. split; [by apply Hgone|]. by rewrite Hdet.
  - destruct w; cbn [negb]; msimp; [|done]. split; [done|]. split; [by apply Hgone|]. by rewrite Hdet.
Qed.

Lemma destroy_yard_detaches_witness :
  let d := snd (create_yard "t" "y" None None empty_db) in
  db_ok d /\ fst (destroy_yard "y" false d) = Ok 0%nat.
Proof.
  cbv zeta. pose proof (create_yard_ok "t" "y" None None _ db_ok_empty) as Hd. split; [exact Hd|].
  pose proof (destroy_yard_detaches "y" false _ _ Hd eq_refl) as H. cbv zeta in H.
  destruct (destroy_yard "y" false _) as [r d']. apply H.
Defined.

(** A desk found by its name is one of the rows. *)
Lemma get_drydock_In n b d : get_drydock n b = Some d -> In d (map dr_dock (drydocks b)) /\ name d = n.
Proof.
  unfold get_drydock. destruct (tbl_first _ _) as [r|] eqn:E; [|done]. intros [= <-].
  apply tbl_first_Some in E as [Hr Hn]. split; [by apply in_map|]. by apply String.eqb_eq.
Qed.
