(* ===== verification/Policy.v ===== *)
(** [src/drydock/core/policy.py]: canonicalization of domains and mounts, the
    narrowness check of a spawned desk against its parent, and the grant
    matchers of the capability broker (storage scopes, IAM action globs,
    network reach). *)

From S2P Require Import Prelude PyStr PyVal Glob Regex.
From Stdlib Require Import List.

(** ** Data *)

Notation MountTuple := (string * string * string)%type.

Inductive CapabilityKind : Type :=
  | SPAWN_CHILDREN
  | REQUEST_SECRET_LEASES
  | REQUEST_STORAGE_LEASES
  | REQUEST_PROVISION_LEASES
  | REQUEST_NETWORK_REACH.

Definition CapabilityKind_value (k : CapabilityKind) : string :=
  match k with
  | SPAWN_CHILDREN => "spawn_children"
  | REQUEST_SECRET_LEASES => "request_secret_leases"
  | REQUEST_STORAGE_LEASES => "request_storage_leases"
  | REQUEST_PROVISION_LEASES => "request_provision_leases"
  | REQUEST_NETWORK_REACH => "request_network_reach"
  end.

Definition all_CapabilityKind : list CapabilityKind :=
  [SPAWN_CHILDREN; REQUEST_SECRET_LEASES; REQUEST_STORAGE_LEASES;
   REQUEST_PROVISION_LEASES; REQUEST_NETWORK_REACH].

(** The enum's constructor call [CapabilityKind(v)]; [None] is its [ValueError]. *)
Definition CapabilityKind_of (s : string) : option CapabilityKind :=
  List.find (fun k => CapabilityKind_value k =s s) all_CapabilityKind.

#[export] Instance CapabilityKind_eq_dec : EqDecision CapabilityKind.
Proof. solve_decision. Defined.
#[export] Instance CapabilityKind_countable : Countable CapabilityKind.
Proof.
  refine (inj_countable CapabilityKind_value CapabilityKind_of _). by intros [].
Defined.

Record DeskPolicy : Type := mkDeskPolicy {
  delegatable_firewall_domains : gset string;
  delegatable_secrets : gset string;
  capabilities : gset CapabilityKind;
  extra_mounts : gset MountTuple;
  delegatable_storage_scopes : list string;
  delegatable_provision_scopes : list string;
  delegatable_network_reach : list string;
  network_reach_ports : list Z
}.

Record DeskSpec : Type := mkDeskSpec {
  spec_firewall_extra_domains : gset string;
  spec_secret_entitlements : gset string;
  spec_capabilities : gset CapabilityKind;
  spec_extra_mounts : gset MountTuple
}.

(** What an [InvalidMountFormat] message shows: the raw text or the tuple. *)
Inductive mount_source : Type :=
  | MountRaw (v : json)
  | MountValue (t : MountTuple).

Inductive policy_exn : Type :=
  | InvalidDomainFormat (raw : json)
  | InvalidMountFormat (raw : mount_source)
  | InvalidStorageScopeFormat (raw : json).

(** The objects a [Reject] carries. *)
Inductive reject_obj : Type :=
  | OPolicy (p : DeskPolicy)
  | OSpec (s : DeskSpec)
  | OStrs (s : gset string)
  | OCaps (s : gset CapabilityKind)
  | OMounts (s : gset MountTuple)
  | OStr (s : string)
  | OCap (c : CapabilityKind)
  | OMount (m : MountTuple)
  | OExn (e : policy_exn).

Inductive verdict : Type :=
  | Allow
  | Reject (rule : string) (parent_value requested_value offending_item : reject_obj)
      (fix_hint : string).

(** ** Domains *)

Definition is_ascii (c : ascii) : bool := code c <? 128.

(** [value.encode("idna")] on an ASCII name: the encoder only checks the label lengths. *)
Definition idna_ascii (value : string) : option string :=
  let labels := split_on "." value in
  if forallb (fun l => (0 <? String.length l)%nat && (String.length l <? 64)%nat)
       (removelast labels)
     && (String.length (List.last labels "") <? 64)%nat
  then Some value else None.

Definition canonicalize_domain (raw : json) : res policy_exn string :=
  let bad := Err (InvalidDomainFormat raw) in
  match raw with
  | JStr r =>
      let value := strip r in
      if is_empty value then bad
      else if has_char "*" value then bad
      else if has_char ":" value then bad
      else if negb (all_chars is_ascii value) then bad
      else
        let value := lower (rstrip_by (Ascii.eqb ".") value) in
        if is_empty value then bad
        else if existsb is_empty (split_on "." value) then bad
        else match idna_ascii value with
             | None => bad
             | Some canonical => Ok (lower canonical)
             end
  | _ => bad
  end.

(** ** Mounts *)

(** The component loop of [os.path.normpath]; [acc] is the stack, innermost first. *)
Fixpoint norm_comps (abs : bool) (acc comps : list string) : list string :=
  match comps with
  | [] => acc
  | c :: rest =>
      if (c =s "") || (c =s ".") then norm_comps abs acc rest
      else if negb (c =s "..")
              || (negb abs && match acc with [] => true | _ => false end)
              || match acc with a :: _ => a =s ".." | [] => false end
      then norm_comps abs (c :: acc) rest
      else norm_comps abs (match acc with [] => [] | _ :: acc' => acc' end) rest
  end.

Definition initial_slashes (path : string) : string :=
  match path with
  | String "/" (String "/" (String "/" _)) => "/"
  | String "/" (String "/" _) => "//"
  | String "/" _ => "/"
  | _ => ""
  end.

(** [os.path.normpath] (POSIX). *)
Definition normpath (path : string) : string :=
  if is_empty path then "."
  else
    let slashes := initial_slashes path in
    let comps := rev (norm_comps (negb (is_empty slashes)) [] (split_on "/" path)) in
    let out := slashes +:+ join "/" comps in
    if is_empty out then "." else out.

Definition isabs (path : string) : bool := startswith path "/".

Definition _has_parent_reference (path : string) : bool :=
  existsb (fun segment => segment =s "..") (split_on "/" path).

Definition _canonicalize_mount_tuple (value : MountTuple) (raw : option json)
    : res policy_exn MountTuple :=
  let bad := Err (InvalidMountFormat
                    (match raw with Some r => MountRaw r | None => MountValue value end)) in
  let '(source, target, mode) := value in
  if is_empty source || is_empty target || is_empty mode then bad
  else
    let normalized_source := normpath source in
    let normalized_target := normpath target in
    let normalized_mode := lower (strip mode) in
    if negb ((normalized_mode =s "bind") || (normalized_mode =s "volume")) then bad
    else if negb (isabs normalized_target) then bad
    else if _has_parent_reference normalized_source || _has_parent_reference normalized_target
    then bad
    else Ok (normalized_source, normalized_target, normalized_mode).

(** The [for item in raw.split(",")] loop: the fields read so far. *)
Fixpoint mount_fields (raw : json) (items : list string) (fields : list (string * string))
    : res policy_exn (list (string * string)) :=
  match items with
  | [] => Ok fields
  | item :: rest =>
      let part := strip item in
      match split_once "=" part with
      | None => Err (InvalidMountFormat (MountRaw raw))
      | Some (key, value) =>
          let key := strip key in
          let value := strip value in
          if is_empty key || is_empty value || has_key key fields
          then Err (InvalidMountFormat (MountRaw raw))
          else mount_fields raw rest (fields ++ [(key, value)])
      end
  end.

Definition canonicalize_mount (raw : json) : res policy_exn MountTuple :=
  match raw with
  | JStr r =>
      fields ← mount_fields raw (split_on "," r) [];
      match assoc "source" fields, assoc "target" fields, assoc "type" fields with
      | Some source, Some target, Some type =>
          if (length fields =? 3)%nat
          then _canonicalize_mount_tuple (source, target, type) (Some raw)
          else Err (InvalidMountFormat (MountRaw raw))
      | _, _, _ => Err (InvalidMountFormat (MountRaw raw))
      end
  | _ => Err (InvalidMountFormat (MountRaw raw))
  end.

(** ** Spawn validation *)

Definition _canonicalize_domains (values : gset string) : res policy_exn (gset string) :=
  l ← mapE (fun value => canonicalize_domain (JStr value)) (elements values);
  Ok (list_to_set l).

Definition _canonicalize_mounts (values : gset MountTuple) : res policy_exn (gset MountTuple) :=
  l ← mapE (fun value => _canonicalize_mount_tuple value None) (elements values);
  Ok (list_to_set l).

(** [sorted(diff)[0]] as the least element under a boolean order; [None] when empty. *)
Fixpoint least {A} (leb : A -> A -> bool) (l : list A) : option A :=
  match l with
  | [] => None
  | x :: xs => match least leb xs with
               | None => Some x
               | Some y => if leb x y then Some x else Some y
               end
  end.

Definition mount_leb (a b : MountTuple) : bool :=
  let '(a1, a2, a3) := a in
  let '(b1, b2, b3) := b in
  if a1 =s b1 then (if a2 =s b2 then String.leb a3 b3 else String.leb a2 b2)
  else String.leb a1 b1.

Definition cap_leb (a b : CapabilityKind) : bool :=
  String.leb (CapabilityKind_value a) (CapabilityKind_value b).

Definition validate_spawn (parent : DeskPolicy) (requested_child : DeskSpec) : verdict :=
  let canonical :=
    parent_domains ← _canonicalize_domains (delegatable_firewall_domains parent);
    child_domains ← _canonicalize_domains (spec_firewall_extra_domains requested_child);
    parent_mounts ← _canonicalize_mounts (extra_mounts parent);
    child_mounts ← _canonicalize_mounts (spec_extra_mounts requested_child);
    Ok (parent_domains, child_domains, parent_mounts, child_mounts) in
  match canonical with
  | Err exc =>
      Reject "invalid_input_format" (OPolicy parent) (OSpec requested_child) (OExn exc)
        "Canonicalize firewall domains and mounts before calling validate_spawn."
  | Ok (parent_domains, child_domains, parent_mounts, child_mounts) =>
      match least String.leb (elements (child_domains ∖ parent_domains)) with
      | Some d =>
          Reject "firewall_narrowness" (OStrs parent_domains) (OStrs child_domains) (OStr d)
            "Request a subset of the parent's delegatable firewall domains."
      | None =>
      match least String.leb
              (elements (spec_secret_entitlements requested_child ∖ delegatable_secrets parent)) with
      | Some s =>
          Reject "secret_narrowness" (OStrs (delegatable_secrets parent))
            (OStrs (spec_secret_entitlements requested_child)) (OStr s)
            "Request a subset of the parent's delegatable secrets."
      | None =>
      match least cap_leb
              (elements (spec_capabilities requested_child ∖ capabilities parent)) with
      | Some c =>
          Reject "capability_narrowness" (OCaps (capabilities parent))
            (OCaps (spec_capabilities requested_child)) (OCap c)
            "Request a subset of the parent's capabilities."
      | None =>
      match least mount_leb (elements (child_mounts ∖ parent_mounts)) with
      | Some m =>
          Reject "mount_narrowness" (OMounts parent_mounts) (OMounts child_mounts) (OMount m)
            "Request only mounts already present on the parent desk."
      | None => Allow
      end end end end
  end.

(** ** Storage scopes *)

Record storage_scope : Type := mkScope {
  sc_bucket : string; sc_prefix : string; sc_mode_max : string
}.

(** The [{bucket, prefix, mode}] dict of a request; [None] is an absent key. *)
Record storage_request : Type := mkStorageRequest {
  sr_bucket : option string; sr_prefix : option string; sr_mode : option string
}.

Definition is_slash (c : ascii) : bool := Ascii.eqb "/" c.

(** The part of [parse_storage_scope] after the [s3://] marker. *)
Definition parse_scope_body (raw : json) (mode_max body : string)
    : res policy_exn storage_scope :=
  let bad := Err (InvalidStorageScopeFormat raw) in
  if is_empty body then bad
  else if negb (endswith body "/*") && (body =s "*") then bad
  else
    let body := if endswith body "/*" then drop_last 2 body else body in
    let '(bucket, prefix) :=
      match split_once "/" body with
      | Some (b, p) => (b, p)
      | None => (body, "")
      end in
    let bucket := strip bucket in
    let prefix := strip_by is_slash prefix in
    if is_empty bucket then bad
    else Ok (mkScope bucket prefix mode_max).

Definition parse_storage_scope (raw : json) : res policy_exn storage_scope :=
  let bad := Err (InvalidStorageScopeFormat raw) in
  match raw with
  | JStr r =>
      if is_empty (strip r) then bad
      else
        let value := strip r in
        let '(mode_max, value) :=
          if startswith value "rw:" then ("rw", sdrop 3 value)
          else if startswith value "ro:" then ("ro", sdrop 3 value)
          else ("ro", value) in
        if negb (startswith value "s3://") then bad
        else parse_scope_body raw mode_max (sdrop 5 value)
  | _ => bad
  end.

Definition _prefix_matches (requested granted : string) : bool :=
  if granted =s "" then true
  else if requested =s granted then true
  else startswith requested (granted +:+ "/").

Definition matches_storage_scope (requested : storage_request) (granted : list json) : bool :=
  match granted with
  | [] => true
  | _ =>
      let req_bucket := default "" (sr_bucket requested) in
      let req_prefix := strip_by is_slash (default "" (sr_prefix requested)) in
      let req_mode := default "ro" (sr_mode requested) in
      existsb (fun raw =>
        match parse_storage_scope raw with
        | Err _ => false
        | Ok scope =>
            if negb (sc_bucket scope =s req_bucket) then false
            else if negb (_prefix_matches req_prefix (sc_prefix scope)) then false
            else if (req_mode =s "rw") && negb (sc_mode_max scope =s "rw") then false
            else true
        end) granted
  end.

(** ** IAM actions *)

Definition _iam_glob_match (action : string) (pattern : json) : bool :=
  match pattern with
  | JStr p =>
      if is_empty p then false
      else if (p =s "*") || (p =s action) then true
      else fnmatchcase action p
  | _ => false
  end.

Definition matches_provision_actions (requested granted : list json) : bool :=
  match granted, requested with
  | [], _ => true
  | _, [] => true
  | _, _ =>
      forallb (fun action =>
        match action with
        | JStr a => negb (is_empty a) && existsb (_iam_glob_match a) granted
        | _ => false
        end) requested
  end.

(** ** Network reach *)

Definition _domain_pattern_matches (domain : string) (raw : json) : bool :=
  match raw with
  | JStr r =>
      if is_empty r then false
      else
        let pat := rstrip_by (Ascii.eqb ".") (lower (strip r)) in
        if pat =s "*" then true
        else if pat =s domain then true
        else if startswith pat "*." && (2 <? String.length pat)%nat then
          let suffix := sdrop 1 pat in
          if endswith domain suffix then
            let head := drop_last (String.length suffix) domain in
            negb (is_empty head) && negb (has_char "." head)
          else false
        else false
  | _ => false
  end.

Definition _matches_any_domain_pattern (domain : string) (patterns : list json) : bool :=
  existsb (_domain_pattern_matches domain) patterns.

Inductive reach_reason : Type :=
  | no_entitlement | domain_not_entitled | port_not_entitled.

Definition matches_network_reach (requested_domain : string) (requested_port : Z)
    (granted_domains granted_ports : list json) : bool * option reach_reason :=
  match granted_domains with
  | [] => (false, Some no_entitlement)
  | _ =>
      let domain := rstrip_by (Ascii.eqb ".") (lower (strip requested_domain)) in
      if negb (_matches_any_domain_pattern domain granted_domains)
      then (false, Some domain_not_entitled)
      else
        let effective_ports :=
          match granted_ports with [] => [JInt 80; JInt 443] | _ => granted_ports end in
        if negb (existsb (int_eq_json requested_port) effective_ports)
        then (false, Some port_not_entitled)
        else (true, None)
  end.
