(* ===== verification/PolicyFacts.v ===== *)
(** Theorems about [Policy]: spawn narrowness, canonical forms, and what each
    grant matcher accepts. *)

From S2P Require Import Prelude PyStr PyVal Glob Regex Policy.
From Stdlib Require Import List.

(** ** The narrowness relation [validate_spawn] decides *)

(** Every domain the child asks for names the same canonical domain as one the
    parent may delegate, and likewise for mounts; secrets and capabilities are
    compared as they are. All four inputs must be canonicalizable. *)
Record narrower (p : DeskPolicy) (s : DeskSpec) : Prop := {
  nw_parent_domains : forall d, d ∈ delegatable_firewall_domains p ->
    is_ok (canonicalize_domain (JStr d)) = true;
  nw_domains : forall d, d ∈ spec_firewall_extra_domains s ->
    exists c d', canonicalize_domain (JStr d) = Ok c /\
      d' ∈ delegatable_firewall_domains p /\ canonicalize_domain (JStr d') = Ok c;
  nw_secrets : spec_secret_entitlements s ⊆ delegatable_secrets p;
  nw_capabilities : spec_capabilities s ⊆ capabilities p;
  nw_parent_mounts : forall m, m ∈ extra_mounts p ->
    is_ok (_canonicalize_mount_tuple m None) = true;
  nw_mounts : forall m, m ∈ spec_extra_mounts s ->
    exists c m', _canonicalize_mount_tuple m None = Ok c /\
      m' ∈ extra_mounts p /\ _canonicalize_mount_tuple m' None = Ok c
}.

(** The policy of a desk that delegates exactly what it was spawned with. *)
Definition policy_of_spec (s : DeskSpec) : DeskPolicy :=
  mkDeskPolicy (spec_firewall_extra_domains s) (spec_secret_entitlements s)
    (spec_capabilities s) (spec_extra_mounts s) [] [] [] [].

(** ** Canonicalizing a set *)

Section CanonSet.
Context `{Countable A} (f : A -> res policy_exn A).

Definition canon_set (vs : gset A) : res policy_exn (gset A) :=
  l ← mapE f (elements vs); Ok (list_to_set l).

Lemma canon_set_ok vs s :
  canon_set vs = Ok s ->
  (forall v, v ∈ vs -> is_ok (f v) = true)
  /\ (forall c, c ∈ s <-> exists v, v ∈ vs /\ f v = Ok c).
Proof.
  unfold canon_set. intros (l & Hl & [= <-])%res_bind_ok. split.
  - intros v Hv. apply (mapE_ok_all f (elements vs)); [by rewrite Hl|set_solver].
  - intros c. apply mapE_ok in Hl. rewrite elem_of_list_to_set. split.
    + intros Hc. apply list_elem_of_lookup in Hc as [i Hi].
      destruct (Forall2_lookup_r _ _ _ _ _ Hl Hi) as (v & Hv & Hf).
      exists v. split; [|done]. apply elem_of_elements, list_elem_of_lookup. eauto.
    + intros (v & Hv & Hf). apply elem_of_elements, list_elem_of_lookup in Hv as [i Hi].
      destruct (Forall2_lookup_l _ _ _ _ _ Hl Hi) as (c' & Hc' & Hf').
      assert (c' = c) as -> by congruence. apply list_elem_of_lookup. eauto.
Qed.

Lemma canon_set_total vs :
  (forall v, v ∈ vs -> is_ok (f v) = true) -> exists s, canon_set vs = Ok s.
Proof.
  intros Hv. unfold canon_set.
  destruct (mapE f (elements vs)) as [l|e] eqn:E; [by eexists|].
  assert (is_ok (mapE f (elements vs)) = true) as E2.
  { apply mapE_ok_all. intros x Hx. apply Hv. by apply elem_of_elements. }
  by rewrite E in E2.
Qed.

(** [child ⊆ parent] on canonical sets, in terms of the raw sets. *)
Lemma canon_set_subset vs1 vs2 s1 s2 :
  canon_set vs1 = Ok s1 -> canon_set vs2 = Ok s2 ->
  s1 ⊆ s2 <->
  (forall v, v ∈ vs1 -> exists c v', f v = Ok c /\ v' ∈ vs2 /\ f v' = Ok c).
Proof.
  intros [Ht1 H1]%canon_set_ok [Ht2 H2]%canon_set_ok. split.
  - intros Hsub v Hv. specialize (Ht1 v Hv). destruct (f v) as [c|] eqn:E; [|done].
    assert (c ∈ s2) as (v' & ? & ?)%H2 by (apply Hsub, H1; eauto). eauto.
  - intros Hall c (v & Hv & Hf)%H1. destruct (Hall v Hv) as (c' & v' & ? & ? & ?).
    apply H2. exists v'. split; congruence.
Qed.
End CanonSet.

Lemma canonicalize_domains_eq vs :
  _canonicalize_domains vs = canon_set (fun v => canonicalize_domain (JStr v)) vs.
Proof. done. Qed.

Lemma canonicalize_mounts_eq vs :
  _canonicalize_mounts vs = canon_set (fun v => _canonicalize_mount_tuple v None) vs.
Proof. done. Qed.

(** ** The least element *)

Lemma least_None {A} leb (l : list A) : least leb l = None <-> l = [].
Proof.
  destruct l as [|x l]; cbn; [done|]. destruct (least leb l) as [y|]; [|done].
  by destruct (leb x y).
Qed.

Lemma least_In {A} leb (l : list A) x : least leb l = Some x -> In x l.
Proof.
  revert x. induction l as [|y l IH]; cbn; [done|]. intros x.
  destruct (least leb l) as [z|]; [destruct (leb y z)|]; intros [= <-]; auto.
Qed.

Lemma least_min {A} (leb : A -> A -> bool) (l : list A) x :
  (forall a b, leb a b = true \/ leb b a = true) ->
  (forall a b c, leb a b = true -> leb b c = true -> leb a c = true) ->
  least leb l = Some x -> forall y, In y l -> leb x y = true.
Proof.
  intros Htot Htrans. revert x. induction l as [|z l IH]; cbn; [done|]. intros x.
  assert (Hrefl : forall a, leb a a = true) by (intros a; destruct (Htot a a); done).
  destruct (least leb l) as [w|] eqn:E.
  - intros H y Hy. pose proof (IH w eq_refl) as Hw.
    destruct (leb z w) eqn:Hzw; injection H as <-; destruct Hy as [->|Hy]; eauto.
    destruct (Htot w y) as [?|?]; [done|]. congruence.
  - apply least_None in E as ->. intros [= ->] y [->|[]]. done.
Qed.

Lemma diff_least_None `{Countable A} leb (X Y : gset A) :
  least leb (elements (X ∖ Y)) = None <-> X ⊆ Y.
Proof.
  rewrite least_None, elements_empty_iff. split.
  - intros E x Hx. destruct (decide (x ∈ Y)); [done|]. set_solver.
  - intros E. set_solver.
Qed.

Lemma diff_least_Some `{Countable A} leb (X Y : gset A) x :
  least leb (elements (X ∖ Y)) = Some x -> x ∈ X /\ x ∉ Y.
Proof. intros Hx%least_In%list_elem_of_In. set_solver. Qed.

(** ** Spawn narrowness *)

Lemma validate_spawn_canonical p s :
  validate_spawn p s = Allow ->
  exists pd cd pm cm,
    _canonicalize_domains (delegatable_firewall_domains p) = Ok pd /\
    _canonicalize_domains (spec_firewall_extra_domains s) = Ok cd /\
    _canonicalize_mounts (extra_mounts p) = Ok pm /\
    _canonicalize_mounts (spec_extra_mounts s) = Ok cm /\
    cd ⊆ pd /\ cm ⊆ pm /\
    spec_secret_entitlements s ⊆ delegatable_secrets p /\
    spec_capabilities s ⊆ capabilities p.
Proof.
  unfold validate_spawn. unfold mbind, res_bind.
  repeat match goal with
  | |- match (match ?x with _ => _ end) with _ => _ end = _ -> _ => destruct x eqn:?; [|done]
  end.
  repeat match goal with
  | |- match least ?l ?e with _ => _ end = _ -> _ =>
      let E := fresh "E" in destruct (least l e) eqn:E; [done|]; apply diff_least_None in E
  end.
  intros _. do 4 eexists. split_and!; done.
Qed.

(** [validate_spawn] allows a child exactly when it is narrower than its
    parent: all domains and mounts on both sides canonicalize, every requested
    domain and mount is canonically one of the parent's, and the requested
    secrets and capabilities are subsets of the parent's. *)
Theorem validate_spawn_allow_iff p s : validate_spawn p s = Allow <-> narrower p s.
Proof.
  split.
  - intros (pd & cd & pm & cm & Hpd & Hcd & Hpm & Hcm & Hd & Hm & Hs & Hc)%validate_spawn_canonical.
    rewrite canonicalize_domains_eq in Hpd, Hcd. rewrite canonicalize_mounts_eq in Hpm, Hcm.
    constructor; [by apply canon_set_ok in Hpd as [? _]|by eapply canon_set_subset|done|done
                 |by apply canon_set_ok in Hpm as [? _]|by eapply canon_set_subset].
  - intros [Hpd Hd Hs Hc Hpm Hm].
    assert (forall v, v ∈ spec_firewall_extra_domains s -> is_ok (canonicalize_domain (JStr v)) = true)
      as Hcd by (intros v (? & ? & -> & _)%Hd; done).
    assert (forall v, v ∈ spec_extra_mounts s -> is_ok (_canonicalize_mount_tuple v None) = true)
      as Hcm by (intros v (? & ? & -> & _)%Hm; done).
    apply canon_set_total in Hpd as [pd Hpd], Hcd as [cd Hcd], Hpm as [pm Hpm], Hcm as [cm Hcm].
    unfold validate_spawn.
    rewrite <- canonicalize_domains_eq in Hpd, Hcd. rewrite <- canonicalize_mounts_eq in Hpm, Hcm.
    rewrite Hpd, Hcd, Hpm, Hcm. cbn.
    rewrite canonicalize_domains_eq in Hpd, Hcd. rewrite canonicalize_mounts_eq in Hpm, Hcm.
    rewrite (proj2 (diff_least_None _ _ _) (proj2 (canon_set_subset _ _ _ _ _ Hcd Hpd) Hd)).
    rewrite (proj2 (diff_least_None _ _ _) Hs), (proj2 (diff_least_None _ _ _) Hc).
    by rewrite (proj2 (diff_least_None _ _ _) (proj2 (canon_set_subset _ _ _ _ _ Hcm Hpm) Hm)).
Qed.

Lemma narrower_trans p s q s' :
  narrower p s -> narrower q s' ->
  delegatable_firewall_domains q ⊆ spec_firewall_extra_domains s ->
  delegatable_secrets q ⊆ spec_secret_entitlements s ->
  capabilities q ⊆ spec_capabilities s ->
  extra_mounts q ⊆ spec_extra_mounts s ->
  narrower p s'.
Proof.
  intros [A1 A2 A3 A4 A5 A6] [B1 B2 B3 B4 B5 B6] Hd Hs Hc Hm. constructor; [done| |set_solver|set_solver|done|].
  - intros d (c & d' & E & Hd' & E')%B2. apply Hd in Hd'.
    destruct (A2 d' Hd') as (c' & d2 & E1 & ? & E2). exists c, d2. split_and!; congruence.
  - intros m (c & m' & E & Hm' & E')%B6. apply Hm in Hm'.
    destruct (A6 m' Hm') as (c' & m2 & E1 & ? & E2). exists c, m2. split_and!; congruence.
Qed.

(** narrowness is monotone down a spawn chain: whatever a child, delegating
    no more than it was spawned with, allows a grandchild, its own parent would
    have allowed the grandchild too. *)
Theorem validate_spawn_chain p s q s' :
  validate_spawn p s = Allow -> validate_spawn q s' = Allow ->
  delegatable_firewall_domains q ⊆ spec_firewall_extra_domains s ->
  delegatable_secrets q ⊆ spec_secret_entitlements s ->
  capabilities q ⊆ spec_capabilities s ->
  extra_mounts q ⊆ spec_extra_mounts s ->
  validate_spawn p s' = Allow.
Proof. rewrite !validate_spawn_allow_iff. apply narrower_trans. Qed.

Lemma validate_spawn_chain_witness :
  let p := mkDeskPolicy {["Foo.com"; "bar.org"]} {["k1"; "k2"]} {[SPAWN_CHILDREN]}
             {[("/a", "/mnt/a", "bind")]} [] [] [] [] in
  let s := mkDeskSpec {["foo.com."]} {["k1"]} {[SPAWN_CHILDREN]} {[("/a/.", "/mnt//a", "Bind")]} in
  let s' := mkDeskSpec {["FOO.com"]} ∅ ∅ {[("/a", "/mnt/a", "bind")]} in
  validate_spawn p s' = Allow.
Proof.
  intros p s s'. apply (validate_spawn_chain p s (policy_of_spec s) s');
    [vm_compute; reflexivity | vm_compute; reflexivity | | | |]; apply (reflexivity (R := (⊆))).
Defined.

Lemma string_leb_total a b : String.leb a b = true \/ String.leb b a = true.
Proof. apply String.leb_total. Qed.

(** a firewall rejection is precise: the offending domain is a canonical
    domain the child asked for and no parent domain canonicalizes to it, and it
    is the least such domain in string order. *)
Theorem validate_spawn_firewall_reject p s pv rv d hint :
  validate_spawn p s = Reject "firewall_narrowness" pv rv (OStr d) hint ->
  exists pd cd,
    _canonicalize_domains (delegatable_firewall_domains p) = Ok pd /\
    _canonicalize_domains (spec_firewall_extra_domains s) = Ok cd /\
    d ∈ cd /\ d ∉ pd /\ (forall d', d' ∈ cd -> d' ∉ pd -> String.leb d d' = true).
Proof.
  unfold validate_spawn, mbind, res_bind.
  repeat match goal with
  | |- match (match ?x with _ => _ end) with _ => _ end = _ -> _ => destruct x eqn:?; [|done]
  end.
  match goal with
  | |- match least ?l ?e with _ => _ end = _ -> _ =>
      let E := fresh "E" in destruct (least l e) as [d0|] eqn:E
  end.
  - intros [= _ _ -> _]. do 2 eexists. split_and!; [done|done|..].
    1,2: by apply diff_least_Some in E as [? ?].
    intros d' H1 H2. eapply least_min; [apply string_leb_total|apply string_leb_trans|exact E|].
    apply list_elem_of_In. set_solver.
  - repeat case_match; by intros [=].
Qed.

Lemma validate_spawn_firewall_reject_witness :
  let p := mkDeskPolicy {["foo.com"]} ∅ ∅ ∅ [] [] [] [] in
  let s := mkDeskSpec {["foo.com"; "z.com"; "b.com"]} ∅ ∅ ∅ in
  exists pd cd,
    _canonicalize_domains (delegatable_firewall_domains p) = Ok pd /\
    _canonicalize_domains (spec_firewall_extra_domains s) = Ok cd /\
    "b.com" ∈ cd /\ "b.com" ∉ pd /\ (forall d', d' ∈ cd -> d' ∉ pd -> String.leb "b.com" d' = true).
Proof.
  intros p s. eapply (validate_spawn_firewall_reject p s). vm_compute. reflexivity.
Defined.

(** a secret rejection names a requested secret the parent cannot delegate,
    and is only reached when domains and mounts canonicalize and the domains
    are narrow: the rules are checked in the order firewall, secrets,
    capabilities, mounts. *)
Theorem validate_spawn_secret_reject p s pv rv k hint :
  validate_spawn p s = Reject "secret_narrowness" pv rv (OStr k) hint ->
  k ∈ spec_secret_entitlements s /\ k ∉ delegatable_secrets p /\
  (forall d, d ∈ spec_firewall_extra_domains s ->
     exists c d', canonicalize_domain (JStr d) = Ok c /\
       d' ∈ delegatable_firewall_domains p /\ canonicalize_domain (JStr d') = Ok c).
Proof.
  unfold validate_spawn, mbind, res_bind.
  destruct (_canonicalize_domains (delegatable_firewall_domains p)) as [pd|] eqn:Hpd; [|done].
  destruct (_canonicalize_domains (spec_firewall_extra_domains s)) as [cd|] eqn:Hcd; [|done].
  repeat match goal with
  | |- match (match ?x with _ => _ end) with _ => _ end = _ -> _ => destruct x eqn:?; [|done]
  end.
  match goal with
  | |- match least ?l ?e with _ => _ end = _ -> _ =>
      let E := fresh "E" in destruct (least l e) eqn:E; [done|]; apply diff_least_None in E
  end.
  rewrite canonicalize_domains_eq in Hpd, Hcd.
  match goal with
  | |- match least ?l ?e with _ => _ end = _ -> _ =>
      let E := fresh "E" in destruct (least l e) as [k0|] eqn:E
  end.
  - intros [= _ _ -> _]. apply diff_least_Some in E0 as [? ?]. split_and!; [done|done|].
    by eapply canon_set_subset.
  - repeat case_match; by intros [=].
Qed.

Lemma validate_spawn_secret_reject_witness :
  let p := mkDeskPolicy {["foo.com"]} {["k1"]} ∅ ∅ [] [] [] [] in
  let s := mkDeskSpec {["foo.com"]} {["k1"; "k2"]} ∅ ∅ in
  "k2" ∈ spec_secret_entitlements s /\ "k2" ∉ delegatable_secrets p /\
  (forall d, d ∈ spec_firewall_extra_domains s ->
     exists c d', canonicalize_domain (JStr d) = Ok c /\
       d' ∈ delegatable_firewall_domains p /\ canonicalize_domain (JStr d') = Ok c).
Proof.
  intros p s. eapply (validate_spawn_secret_reject p s). vm_compute. reflexivity.
Defined.
