(* ===== verification/PolicyGrants.v ===== *)
(** Theorems about [Policy]'s canonical forms and grant matchers: domain and
    mount canonicalization are stable, and a grant matches only what it says. *)

From S2P Require Import Prelude PyStr PyVal Glob Regex Policy.
From Stdlib Require Import List.

(** ** Domains *)

Definition non_space (c : ascii) : bool := negb (is_space c).

(** What every canonical domain looks like. *)
Record canonical_domain (c : string) : Prop := {
  cd_ascii : all_chars is_ascii c = true;
  cd_lower : lower c = c;
  cd_no_star : has_char "*" c = false;
  cd_no_colon : has_char ":" c = false;
  cd_no_dot : rstrip_by (Ascii.eqb ".") c = c;
  cd_labels : Forall (fun l => (0 < String.length l < 64)%nat) (split_on "." c)
}.

Lemma lower_char_dot c : Ascii.eqb "." (lower_char c) = Ascii.eqb "." c.
Proof.
  apply eqb_prop. revert c. apply forall_ascii. by intros [] [] [] [] [] [] [] [].
Qed.

Lemma lower_rstrip_dot s :
  lower (rstrip_by (Ascii.eqb ".") s) = rstrip_by (Ascii.eqb ".") (lower s).
Proof.
  unfold lower. induction s as [|c s IH]; [done|]. cbn [rstrip_by smap].
  rewrite <- IH, lower_char_dot.
  destruct (rstrip_by (Ascii.eqb ".") s) as [|d t]; [|done].
  cbn [is_empty smap andb]. by destruct (Ascii.eqb "." c).
Qed.

Lemma lower_all p s : (forall c, implb (p c) (p (lower_char c)) = true) ->
  all_chars p s = true -> all_chars p (lower s) = true.
Proof.
  intros H. apply smap_all. intros c Hc. specialize (H c). by rewrite Hc in H.
Qed.

Lemma lower_no_char d s :
  (forall c, implb (negb (Ascii.eqb d c)) (negb (Ascii.eqb d (lower_char c))) = true) ->
  has_char d s = false -> has_char d (lower s) = false.
Proof. rewrite !has_char_all, !negb_false_iff. intros H. by apply lower_all. Qed.

Lemma rstrip_no_char p d s : has_char d s = false -> has_char d (rstrip_by p s) = false.
Proof. rewrite !has_char_all, !negb_false_iff. apply rstrip_by_all. Qed.

Ltac by_ascii := apply forall_ascii; by intros [] [] [] [] [] [] [] [].

Lemma idna_labels v c :
  idna_ascii v = Some c -> existsb is_empty (split_on "." v) = false ->
  c = v /\ Forall (fun l => (0 < String.length l < 64)%nat) (split_on "." v).
Proof.
  unfold idna_ascii. destruct (_ && _) eqn:E; [|done]. intros [= <-] Hne. split; [done|].
  apply andb_true_iff in E as [E1 E2]. apply Forall_forall. intros l Hl.
  assert (0 < String.length l)%nat.
  { destruct l; cbn; [|lia]. rewrite <- not_true_iff_false in Hne. destruct Hne.
    apply existsb_exists. by exists "". }
  split; [done|]. rewrite (app_removelast_last "" (split_on_ne "." v)) in Hl.
  apply in_app_iff in Hl as [Hl|[<-|[]]].
  - rewrite forallb_forall in E1. specialize (E1 l Hl).
    apply andb_true_iff in E1 as [_ E1]. by apply Nat.ltb_lt.
  - by apply Nat.ltb_lt.
Qed.

Lemma idna_of_labels v :
  Forall (fun l => (0 < String.length l < 64)%nat) (split_on "." v) -> idna_ascii v = Some v.
Proof.
  intros H. unfold idna_ascii. rewrite (proj2 (andb_true_iff _ _)); [done|].
  assert (Hl : forall l, In l (split_on "." v) -> (0 < String.length l < 64)%nat)
    by by apply Forall_forall.
  rewrite (app_removelast_last "" (split_on_ne "." v)) in Hl.
  split.
  - apply forallb_forall. intros l Hin. destruct (Hl l) as [? ?]; [apply in_app_iff; auto|].
    apply andb_true_iff. split; by apply Nat.ltb_lt.
  - apply Nat.ltb_lt, Hl. apply in_app_iff. right. by left.
Qed.

Lemma canonical_of_ok raw c :
  canonicalize_domain raw = Ok c -> canonical_domain c.
Proof.
  destruct raw as [| | | |r| |]; try done. unfold canonicalize_domain.
  destruct (is_empty (strip r)); [done|].
  destruct (has_char "*" (strip r)) eqn:H1; [done|].
  destruct (has_char ":" (strip r)) eqn:H2; [done|].
  destruct (all_chars is_ascii (strip r)) eqn:H3; [cbn|done].
  set (v := lower (rstrip_by (Ascii.eqb ".") (strip r))).
  destruct (is_empty v) eqn:H4; [done|].
  destruct (existsb is_empty (split_on "." v)) eqn:H5; [done|].
  destruct (idna_ascii v) as [c'|] eqn:H6; [|done]. intros [= <-].
  destruct (idna_labels v c' H6 H5) as [-> Hl].
  assert (lower v = v) as Hv by apply lower_idem. rewrite Hv.
  constructor; [|done| | | |done]; unfold v.
  - apply lower_all; [by_ascii|]. by apply rstrip_by_all.
  - apply lower_no_char; [by_ascii|]. by apply rstrip_no_char.
  - apply lower_no_char; [by_ascii|]. by apply rstrip_no_char.
  - by rewrite <- lower_rstrip_dot, rstrip_by_idem.
Qed.

(** a canonicalized domain is lower-case ASCII without wildcard, port or
    trailing dot, and each of its labels has between 1 and 63 characters. *)
Theorem canonicalize_domain_canonical raw c :
  canonicalize_domain raw = Ok c -> canonical_domain c.
Proof. apply canonical_of_ok. Qed.

Lemma canonicalize_domain_canonical_witness : canonical_domain "api.foo.com".
Proof. apply (canonicalize_domain_canonical (JStr " API.foo.com.. ")). vm_compute. reflexivity. Defined.

Lemma canonical_domain_fixed c :
  canonical_domain c -> all_chars non_space c = true -> canonicalize_domain (JStr c) = Ok c.
Proof.
  intros [Ha Hlow Hs Hc Hd Hl] Hsp. unfold canonicalize_domain, strip.
  rewrite (strip_by_none is_space c Hsp), Hs, Hc, Ha. cbn. rewrite Hd, Hlow.
  rewrite idna_of_labels by done. rewrite Hlow.
  assert (is_empty c = false) as ->.
  { destruct c; [|done]. inversion Hl; subst. cbn in *. lia. }
  assert (existsb is_empty (split_on "." c) = false) as ->; [|done].
  apply not_true_iff_false. intros (l & Hin & He)%existsb_exists.
  rewrite Forall_forall in Hl. destruct (Hl l Hin). destruct l; [cbn in *; lia|done].
Qed.

(** canonicalization is idempotent on every name without inner white space:
    canonicalizing a canonical domain again returns it unchanged. *)
Theorem canonicalize_domain_idempotent raw c :
  canonicalize_domain raw = Ok c -> all_chars non_space c = true ->
  canonicalize_domain (JStr c) = Ok c.
Proof.
  intros H. apply canonical_domain_fixed. by eapply canonical_of_ok.
Qed.

Lemma canonicalize_domain_idempotent_witness : canonicalize_domain (JStr "foo.com") = Ok "foo.com".
Proof.
  apply (canonicalize_domain_idempotent (JStr " Foo.COM. ")); vm_compute; reflexivity.
Defined.

(** White space before a trailing dot survives, so ["foo ."] and its canonical
    form canonicalize differently. *)
Example canonicalize_domain_inner_space :
  canonicalize_domain (JStr "foo .") = Ok "foo " /\ canonicalize_domain (JStr "foo ") = Ok "foo".
Proof. vm_compute. done. Qed.

(** ** [os.path.normpath] and mounts *)

Definition comp_ok (c : string) : Prop := c <> "" /\ c <> "." /\ has_char "/" c = false.

(** The component stack of a normalized path: [..] only at the bottom, and
    only in a relative path. *)
Fixpoint wf_stack (abs : bool) (acc : list string) : Prop :=
  match acc with
  | [] => True
  | c :: rest =>
      comp_ok c /\
      (c = ".." -> abs = false /\ match rest with [] => True | a :: _ => a = ".." end) /\
      wf_stack abs rest
  end.

Lemma wf_stack_app abs l1 l2 : wf_stack abs (l1 ++ l2) -> wf_stack abs l2.
Proof. induction l1; cbn; [done|]. intros (_ & _ & H). auto. Qed.

Lemma norm_comps_wf abs comps acc :
  wf_stack abs acc -> Forall (fun c => has_char "/" c = false) comps ->
  wf_stack abs (norm_comps abs acc comps).
Proof.
  intros Hacc Hcomps. revert acc Hacc.
  induction Hcomps as [|c comps Hc _ IH]; intros acc Hacc; cbn [norm_comps]; [done|].
  destruct ((c =s "") || (c =s ".")) eqn:E1; [by apply IH|].
  apply orb_false_iff in E1 as [Ea%String.eqb_neq Eb%String.eqb_neq].
  case_match eqn:E2; apply IH.
  - cbn [wf_stack]. split; [done|]. split; [|done]. intros ->. cbn in E2.
    destruct acc as [|a acc]; [by destruct abs|]. rewrite andb_false_r in E2.
    apply String.eqb_eq in E2. split; [|done]. by destruct Hacc as (_ & [? _] & _).
  - destruct acc as [|a acc]; [done|]. by destruct Hacc as (_ & _ & ?).
Qed.

Lemma norm_comps_fixed abs l acc :
  wf_stack abs (rev l ++ acc) -> norm_comps abs acc l = rev l ++ acc.
Proof.
  revert acc. induction l as [|c l IH]; intros acc; cbn [rev norm_comps app]; [done|].
  rewrite <- app_assoc. cbn [app]. intros H.
  pose proof (wf_stack_app _ _ _ H) as ((Hn1 & Hn2 & _) & Hdd & _).
  apply String.eqb_neq in Hn1 as ->. apply String.eqb_neq in Hn2 as ->. cbn [orb].
  destruct (String.eqb_spec c "..") as [E|E]; cbn [negb orb]; [|by apply IH].
  destruct (Hdd E) as [-> Hrest]. destruct acc as [|a acc]; cbn [negb andb orb]; [by apply IH|].
  subst a. cbn. by apply IH.
Qed.

(** A path rendered from its leading slashes and its components. *)
Definition render_path (slashes : string) (comps : list string) : string :=
  let out := slashes +:+ join "/" comps in if is_empty out then "." else out.

Definition slashes_ok (sl : string) : Prop := sl = "" \/ sl = "/" \/ sl = "//".

Lemma initial_slashes_ok p : slashes_ok (initial_slashes p).
Proof. unfold slashes_ok, initial_slashes. repeat case_match; auto. Qed.

Lemma wf_stack_comps abs st : wf_stack abs st -> Forall comp_ok (rev st).
Proof.
  intros H. apply Forall_rev. revert H. induction st; cbn; [constructor|].
  intros (? & _ & ?). constructor; auto.
Qed.

Lemma join_head_ok comps :
  Forall comp_ok comps -> comps <> [] ->
  exists c s, join "/" comps = String c s /\ c <> "/"%char.
Proof.
  intros H Hne. destruct H as [|w ws (Hw & _ & Hs) _]; [done|].
  destruct w as [|c w]; [done|]. unfold has_char in Hs. cbn [any_char] in Hs.
  apply orb_false_iff in Hs as [Hc _]. apply Ascii.eqb_neq in Hc.
  exists c. destruct ws; eexists; split; [done|done|done|done].
Qed.

Lemma initial_slashes_head sl c s :
  slashes_ok sl -> c <> "/"%char -> initial_slashes (sl +:+ String c s) = sl.
Proof.
  assert (forall c' : ascii, c' <> "/"%char ->
    forall (A : Type) (x y : A), match c' with "/"%char => x | _ => y end = y) as Hm.
  { intros [[] [] [] [] [] [] [] []]; cbn; auto; by intros []. }
  intros [->|[->| ->]] Hc; cbn; unfold initial_slashes; rewrite (Hm c Hc); done.
Qed.

Lemma normpath_render sl st :
  slashes_ok sl -> wf_stack (negb (is_empty sl)) st ->
  normpath (render_path sl (rev st)) = render_path sl (rev st).
Proof.
  intros Hsl Hst. pose proof (wf_stack_comps _ _ Hst) as Hok.
  destruct (decide (rev st = [])) as [E|E].
  { rewrite E. by destruct Hsl as [->|[->| ->]]. }
  destruct (join_head_ok _ Hok E) as (c & s & Hj & Hc).
  assert (Hsplit : split_on "/" (join "/" (rev st)) = rev st).
  { apply split_on_join; [done|]. eapply Forall_impl; [|exact Hok]. by intros ? (_ & _ & ?). }
  assert (Hn : norm_comps (negb (is_empty sl)) [] (rev st) = st).
  { rewrite norm_comps_fixed, rev_involutive, app_nil_r; [done|].
    by rewrite rev_involutive, app_nil_r. }
  unfold render_path. rewrite Hj.
  assert (is_empty (sl +:+ String c s) = false) as Hne by by destruct sl.
  rewrite Hne. unfold normpath. rewrite Hne, initial_slashes_head by done.
  assert (norm_comps (negb (is_empty sl)) [] (split_on "/" (sl +:+ String c s)) = st) as ->.
  { rewrite <- Hj. destruct Hsl as [->|[->| ->]]; cbn [String.append]; cbn - [join norm_comps];
      cbn [norm_comps String.eqb orb]; by rewrite Hsplit. }
  by rewrite Hj, Hne.
Qed.

Lemma normpath_is_render p :
  exists sl st, slashes_ok sl /\ wf_stack (negb (is_empty sl)) st /\
    normpath p = render_path sl (rev st).
Proof.
  unfold normpath. destruct (is_empty p).
  - exists "", []. split; [by left|done].
  - exists (initial_slashes p). eexists. split; [apply initial_slashes_ok|].
    split; [|reflexivity]. apply norm_comps_wf; [done|apply split_on_free].
Qed.

Lemma normpath_fixed p : normpath (normpath p) = normpath p.
Proof.
  destruct (normpath_is_render p) as (sl & st & Hsl & Hst & ->). by apply normpath_render.
Qed.

(** [os.path.normpath], as the mount rules use it, is idempotent on every path. *)
Theorem normpath_idempotent p : normpath (normpath p) = normpath p.
Proof. apply normpath_fixed. Qed.

Lemma normpath_nonempty p : is_empty (normpath p) = false.
Proof.
  unfold normpath. destruct (is_empty p); [done|]. by destruct (is_empty (_ +:+ _)) eqn:E.
Qed.

(** an accepted mount is in canonical form: both paths are normalized and
    free of parent references, the target is absolute, the mode is [bind] or
    [volume]; and canonicalizing it again returns it unchanged. *)
Theorem canonicalize_mount_tuple_canonical value raw source target mode :
  _canonicalize_mount_tuple value raw = Ok (source, target, mode) ->
  isabs target = true /\ (mode = "bind" \/ mode = "volume") /\
  _has_parent_reference source = false /\ _has_parent_reference target = false /\
  forall raw', _canonicalize_mount_tuple (source, target, mode) raw' = Ok (source, target, mode).
Proof.
  destruct value as [[s t] m]. unfold _canonicalize_mount_tuple at 1.
  destruct (is_empty s || is_empty t || is_empty m); [done|].
  destruct ((lower (strip m) =s "bind") || (lower (strip m) =s "volume")) eqn:Hm; [cbn [negb]|done].
  destruct (isabs (normpath t)) eqn:Ha; [cbn [negb]|done].
  destruct (_has_parent_reference (normpath s)) eqn:Hs; [done|].
  destruct (_has_parent_reference (normpath t)) eqn:Ht; [done|]. intros [= <- <- <-].
  assert (lower (strip m) = "bind" \/ lower (strip m) = "volume") as Hmode
    by (apply orb_true_iff in Hm as [?%String.eqb_eq|?%String.eqb_eq]; auto).
  split_and!; [done|done|done|done|]. intros raw'. unfold _canonicalize_mount_tuple.
  rewrite !normpath_fixed, !normpath_nonempty, Ha, Hs, Ht.
  by destruct Hmode as [-> | ->].
Qed.

Lemma canonicalize_mount_tuple_canonical_witness :
  isabs "/mnt/a" = true /\ ("bind" = "bind" \/ "bind" = "volume") /\
  _has_parent_reference "/srv/a" = false /\ _has_parent_reference "/mnt/a" = false /\
  forall raw', _canonicalize_mount_tuple ("/srv/a", "/mnt/a", "bind") raw'
               = Ok ("/srv/a", "/mnt/a", "bind").
Proof.
  apply (canonicalize_mount_tuple_canonical ("/srv/x/../a/", "/mnt//a/.", " Bind ") None).
  vm_compute. reflexivity.
Defined.

(** ** Storage scopes *)

(** [r] lies at or below [p] in the key hierarchy, component by component. *)
Definition path_within (p r : string) : Prop :=
  p = "" \/ exists l, split_on "/" r = split_on "/" p ++ l.

Lemma prefix_matches_within r p : _prefix_matches r p = true <-> path_within p r.
Proof.
  unfold _prefix_matches, path_within. destruct (String.eqb_spec p "") as [->|Hp]; [by split; auto|].
  destruct (String.eqb_spec r p) as [->|Hr].
  { split; [|done]. intros _. right. exists []. by rewrite app_nil_r. }
  rewrite startswith_spec. split.
  - intros [t ->]. right. rewrite app_assoc_s. cbn [String.append].
    exists (split_on "/" t). apply split_on_app_sep.
  - intros [?|[l Hl]]; [done|]. destruct l as [|w l].
    { rewrite app_nil_r in Hl. destruct Hr. by rewrite <- (join_split "/" r), Hl, join_split. }
    exists (join "/" (w :: l)). rewrite <- (join_split "/" r), Hl.
    rewrite join_app by (done || apply split_on_ne). by rewrite join_split, app_assoc_s.
Qed.

(** What one granted scope covers. *)
Definition scope_covers (sc : storage_scope) (q : storage_request) : Prop :=
  sc_bucket sc = default "" (sr_bucket q) /\
  path_within (sc_prefix sc) (strip_by is_slash (default "" (sr_prefix q))) /\
  (default "ro" (sr_mode q) = "rw" -> sc_mode_max sc = "rw").

Lemma matches_storage_scope_spec q granted :
  granted <> [] ->
  matches_storage_scope q granted = true <->
  exists raw sc, In raw granted /\ parse_storage_scope raw = Ok sc /\ scope_covers sc q.
Proof.
  intros Hne. unfold matches_storage_scope. destruct granted as [|g0 granted]; [done|].
  rewrite existsb_exists. apply exist_proper. intros raw.
  unfold scope_covers. destruct (parse_storage_scope raw) as [sc|e].
  2: { split; [by intros [_ ?]|by intros (? & _ & [=] & _)]. }
  split.
  - intros [Hin H]. exists sc. split; [done|]. split; [done|].
    destruct (String.eqb_spec (sc_bucket sc) (default "" (sr_bucket q))); [|done].
    destruct (_prefix_matches _ _) eqn:Hp; [|done]. cbn [negb] in H.
    apply prefix_matches_within in Hp. split; [done|]. split; [done|].
    intros Hrw. rewrite Hrw in H. cbn [String.eqb andb] in H.
    destruct (String.eqb_spec (sc_mode_max sc) "rw"); done.
  - intros (sc' & Hin & [= <-] & Hb & Hp & Hm). split; [done|].
    apply prefix_matches_within in Hp as ->.
    rewrite Hb, String.eqb_refl. cbn [negb].
    destruct (String.eqb_spec (default "ro" (sr_mode q)) "rw") as [E|E]; [|done].
    by rewrite Hm.
Qed.

(** C40: once a desk declares storage scopes, a request matches exactly when one
    well-formed scope names its bucket, contains its prefix as a path (so [data]
    covers [data/x] but not [data2]) and allows its mode. *)
Theorem matches_storage_scope_iff q granted :
  granted <> [] ->
  matches_storage_scope q granted = true <->
  exists raw sc, In raw granted /\ parse_storage_scope raw = Ok sc /\ scope_covers sc q.
Proof. apply matches_storage_scope_spec. Qed.

Lemma matches_storage_scope_iff_witness :
  matches_storage_scope (mkStorageRequest (Some "b") (Some "data2") (Some "ro")) [JStr "s3://b/data/*"]
    = true <->
  exists raw sc, In raw [JStr "s3://b/data/*"] /\ parse_storage_scope raw = Ok sc /\
    scope_covers sc (mkStorageRequest (Some "b") (Some "data2") (Some "ro")).
Proof. by apply matches_storage_scope_iff. Defined.

(** The YAML text of a scope. *)
Definition render_storage_scope (sc : storage_scope) : string :=
  (if sc_mode_max sc =s "rw" then "rw:" else "") +:+ ("s3://" +:+
  (sc_bucket sc +:+ ((if is_empty (sc_prefix sc) then "" else "/" +:+ sc_prefix sc) +:+ "/*"))).

Record scope_wf (sc : storage_scope) : Prop := {
  sw_bucket : sc_bucket sc <> "" /\ has_char "/" (sc_bucket sc) = false
              /\ all_chars non_space (sc_bucket sc) = true;
  sw_prefix : strip_by is_slash (sc_prefix sc) = sc_prefix sc
              /\ all_chars non_space (sc_prefix sc) = true;
  sw_mode : sc_mode_max sc = "ro" \/ sc_mode_max sc = "rw"
}.

Lemma endswith_mid a b suf : endswith (a +:+ (b +:+ suf)) suf = true.
Proof. rewrite <- app_assoc_s. apply endswith_app. Qed.

Lemma drop_last_mid a b : drop_last 2 (a +:+ (b +:+ "/*")) = a +:+ b.
Proof. rewrite <- app_assoc_s. exact (drop_last_app (a +:+ b) "/*"). Qed.

Definition scope_body (bucket prefix : string) : string :=
  bucket +:+ ((if is_empty prefix then "" else "/" +:+ prefix) +:+ "/*").

Lemma parse_scope_body_render raw mode bucket prefix :
  bucket <> "" -> has_char "/" bucket = false -> all_chars non_space bucket = true ->
  strip_by is_slash prefix = prefix ->
  parse_scope_body raw mode (scope_body bucket prefix) = Ok (mkScope bucket prefix mode).
Proof.
  intros Hb1 Hb2 Hb3 Hp. unfold parse_scope_body, scope_body.
  assert (Hs : strip bucket = bucket) by by apply strip_by_none.
  assert (Hn : is_empty bucket = false) by by destruct bucket.
  rewrite endswith_mid, drop_last_mid. cbn [negb andb].
  assert (is_empty (bucket +:+ ((if is_empty prefix then "" else "/" +:+ prefix) +:+ "/*")) = false)
    as -> by by destruct bucket.
  destruct (is_empty prefix) eqn:E.
  - apply is_empty_true in E as ->. rewrite app_nil_r_s.
    rewrite (proj2 (split_once_none _ _) Hb2). by rewrite Hs, Hn.
  - cbn [String.append].
    rewrite (proj2 (split_once_spec _ _ bucket prefix) (conj eq_refl Hb2)). by rewrite Hs, Hn, Hp.
Qed.

Lemma scope_body_non_space bucket prefix :
  all_chars non_space bucket = true -> all_chars non_space prefix = true ->
  all_chars non_space (scope_body bucket prefix) = true.
Proof.
  intros Hb Hp. unfold scope_body. rewrite !all_chars_app, Hb.
  destruct (is_empty prefix); cbn; by rewrite ?Hp.
Qed.

(** Evaluate prefix tests on strings whose first characters are known. *)
Ltac prefix_eval :=
  repeat (rewrite !prefix_cons; cbn - [parse_scope_body]);
  rewrite ?prefix_nil; reflexivity.

Lemma parse_scope_ro body :
  all_chars non_space body = true ->
  parse_storage_scope (JStr ("s3://" +:+ body))
  = parse_scope_body (JStr ("s3://" +:+ body)) "ro" body.
Proof.
  intros H. unfold parse_storage_scope, strip. rewrite strip_by_none by done.
  cbn [String.append is_empty]. unfold startswith. prefix_eval.
Qed.

Lemma parse_scope_rw body :
  all_chars non_space body = true ->
  parse_storage_scope (JStr ("rw:s3://" +:+ body))
  = parse_scope_body (JStr ("rw:s3://" +:+ body)) "rw" body.
Proof.
  intros H. unfold parse_storage_scope, strip. rewrite strip_by_none by done.
  cbn [String.append is_empty]. unfold startswith. prefix_eval.
Qed.

Lemma parse_rendered sc :
  scope_wf sc -> parse_storage_scope (JStr (render_storage_scope sc)) = Ok sc.
Proof.
  destruct sc as [bucket prefix mode]. intros [(Hb1 & Hb2 & Hb3) (Hp1 & Hp2) Hm].
  cbn [sc_bucket sc_prefix sc_mode_max] in *.
  pose proof (scope_body_non_space bucket prefix Hb3 Hp2) as Hsp.
  unfold render_storage_scope. cbn [sc_bucket sc_prefix sc_mode_max]. fold (scope_body bucket prefix).
  destruct Hm as [-> | ->].
  - etransitivity; [exact (parse_scope_ro _ Hsp)|]. by apply parse_scope_body_render.
  - etransitivity; [exact (parse_scope_rw _ Hsp)|]. by apply parse_scope_body_render.
Qed.

(** parsing the text of a well-formed scope gives the scope back: the forms
    [s3://bucket/*], [s3://bucket/prefix/*] and their [rw:] variants round trip. *)
Theorem parse_render_storage_scope sc :
  scope_wf sc -> parse_storage_scope (JStr (render_storage_scope sc)) = Ok sc.
Proof. apply parse_rendered. Qed.

Lemma parse_render_storage_scope_witness :
  parse_storage_scope (JStr "rw:s3://bkt/data/raw/*") = Ok (mkScope "bkt" "data/raw" "rw").
Proof.
  apply (parse_render_storage_scope (mkScope "bkt" "data/raw" "rw")).
  constructor; cbn; auto.
Defined.

(** ** IAM actions *)

(** The IAM actions a pattern stands for, with [*] as the only wildcard. *)
Definition stands_for (pattern action : string) : Prop := fnmatchcase action pattern = true.

(** grants are sound. When the granted globs and the requested actions are
    made of literals and [*] (the AWS grammar the validator enforces on
    requests), every concrete action an accepted request stands for is covered
    by one of the grants: a request can never widen what was granted. *)
Theorem matches_provision_actions_sound requested granted :
  granted <> [] ->
  Forall (fun g => exists p, g = JStr p /\ all_chars simple_char p = true) granted ->
  Forall (fun r => exists a, r = JStr a /\ all_chars simple_char a = true) requested ->
  matches_provision_actions requested granted = true ->
  forall a s, In (JStr a) requested -> stands_for a s ->
  exists p, In (JStr p) granted /\ stands_for p s.
Proof.
  intros Hne Hg Hr Hm a s Ha Hs. unfold matches_provision_actions in Hm.
  destruct granted as [|g0 gs]; [done|]. destruct requested as [|r0 rs]; [done|].
  rewrite forallb_forall in Hm. pose proof (Hm _ Ha) as H. cbn beta in H.
  apply andb_true_iff in H as [_ (g & Hin & Hmatch)%existsb_exists].
  rewrite Forall_forall in Hg. specialize (Hg g Hin) as (p & -> & Hp).
  rewrite Forall_forall in Hr. specialize (Hr _ Ha) as (a0 & [= <-] & Ha0).
  exists p. split; [done|]. unfold _iam_glob_match in Hmatch.
  destruct (is_empty p); [done|].
  destruct (String.eqb_spec p "*") as [E|_]; [rewrite E; apply fnmatchcase_star|].
  destruct (String.eqb_spec p a) as [E|_]; [by rewrite E|]. cbn in Hmatch.
  by eapply fnmatchcase_sound.
Qed.

Lemma matches_provision_actions_sound_witness :
  exists p, In (JStr p) [JStr "s3:*"; JStr "iam:Get*"] /\ stands_for p "iam:GetRole".
Proof.
  apply (matches_provision_actions_sound [JStr "iam:GetR*"] [JStr "s3:*"; JStr "iam:Get*"])
    with (a := "iam:GetR*").
  - done.
  - repeat constructor; eexists; split; reflexivity.
  - repeat constructor; eexists; split; reflexivity.
  - vm_compute. reflexivity.
  - by left.
  - vm_compute. reflexivity.
Defined.

(** Outside the AWS grammar the inclusion fails: [?] in a grant is a wildcard
    for [fnmatch], and it matches the [*] of a request, which then stands for
    actions the grant does not cover. *)
Example provision_question_mark_widens :
  matches_provision_actions [JStr "s3:*"] [JStr "s3:?"] = true
  /\ stands_for "s3:*" "s3:DeleteBucket" /\ ~ stands_for "s3:?" "s3:DeleteBucket".
Proof. vm_compute. done. Qed.

(** ** Network reach *)

Definition reach_normalize (s : string) : string := rstrip_by (Ascii.eqb ".") (lower (strip s)).

(** The documented meaning of a pattern: any domain, the same domain, or one
    more label in front. *)
Definition reach_covers (pat domain : string) : Prop :=
  pat = "*" \/ pat = domain \/
  exists label suffix, pat = "*." +:+ suffix /\ suffix <> "" /\
    domain = label +:+ ("." +:+ suffix) /\ label <> "" /\ has_char "." label = false.

Lemma domain_pattern_matches_covers domain r :
  _domain_pattern_matches domain (JStr r) = true <->
  r <> "" /\ reach_covers (reach_normalize r) domain.
Proof.
  unfold _domain_pattern_matches, reach_covers. fold (reach_normalize r).
  destruct (is_empty r) eqn:Er.
  { apply is_empty_true in Er. split; [done|]. by intros [? _]. }
  apply is_empty_false in Er. set (pat := reach_normalize r). clearbody pat.
  destruct (String.eqb_spec pat "*") as [->|Hs]; [split; auto|].
  destruct (String.eqb_spec pat domain) as [->|Hd]; [split; auto|].
  split.
  - destruct (startswith pat "*.") eqn:E; [|done].
    apply startswith_spec in E as [suf ->]. cbn [String.append sdrop andb].
    destruct (_ <? _)%nat eqn:Hl; [|done]. cbn [sdrop].
    destruct (endswith domain (String "." suf)) eqn:E; [|done].
    apply endswith_spec in E as [label ->]. rewrite drop_last_app.
    intros [H1%negb_true_iff%is_empty_false H2%negb_true_iff]%andb_true_iff.
    split; [done|]. right. right. exists label, suf. split_and!; try done.
    intros ->. done.
  - intros [_ [?|[?|(label & suf & -> & Hne & -> & Hl & Hdot)]]]; [done|done|].
    assert (startswith ("*." +:+ suf) "*." = true) as -> by (apply startswith_spec; eauto).
    assert ((2 <? String.length ("*." +:+ suf))%nat = true) as ->.
    { destruct suf; [done|]. apply Nat.ltb_lt. cbn. lia. }
    cbn [andb String.append sdrop]. rewrite endswith_app, drop_last_app, Hdot.
    by destruct label.
Qed.

Definition effective_ports (granted_ports : list json) : list json :=
  match granted_ports with [] => [JInt 80; JInt 443] | _ => granted_ports end.

(** a NETWORK_REACH request is allowed exactly when some non-empty granted
    pattern covers the normalized domain (a [*.] pattern covers one extra label,
    never two) and the port is in the effective allowlist, which is 80 and 443
    when none is declared; with no granted pattern nothing is allowed. *)
Theorem matches_network_reach_iff domain port granted_domains granted_ports :
  matches_network_reach domain port granted_domains granted_ports = (true, None) <->
  (exists r, In (JStr r) granted_domains /\ r <> "" /\
     reach_covers (reach_normalize r) (reach_normalize domain)) /\
  existsb (int_eq_json port) (effective_ports granted_ports) = true.
Proof.
  unfold matches_network_reach. destruct granted_domains as [|g0 gs].
  { split; [done|]. by intros [(? & [] & _) _]. }
  fold (reach_normalize domain). fold (effective_ports granted_ports).
  destruct (_matches_any_domain_pattern _ _) eqn:E; cbn [negb].
  - apply existsb_exists in E as (g & Hin & Hg). destruct g as [| | | |r| |]; try done.
    apply domain_pattern_matches_covers in Hg as [Hr Hg].
    destruct (existsb _ (effective_ports granted_ports)); cbn [negb]; split; try done; eauto 10.
    by intros [_ ?].
  - split; [done|]. intros [(r & Hin & Hr & Hc) _].
    rewrite <- not_true_iff_false in E. destruct E. apply existsb_exists. exists (JStr r).
    split; [done|]. by apply domain_pattern_matches_covers.
Qed.

(** every refusal of [matches_network_reach] states its true reason, in the
    order entitlement, domain, port. *)
Theorem matches_network_reach_refused domain port granted_domains granted_ports reason :
  matches_network_reach domain port granted_domains granted_ports = (false, Some reason) ->
  match reason with
  | no_entitlement => granted_domains = []
  | domain_not_entitled =>
      granted_domains <> [] /\
      forall r, In (JStr r) granted_domains -> r <> "" ->
        ~ reach_covers (reach_normalize r) (reach_normalize domain)
  | port_not_entitled =>
      (exists r, In (JStr r) granted_domains /\ r <> "" /\
         reach_covers (reach_normalize r) (reach_normalize domain)) /\
      existsb (int_eq_json port) (effective_ports granted_ports) = false
  end.
Proof.
  unfold matches_network_reach. destruct granted_domains as [|g0 gs]; [by intros [= <-]|].
  fold (reach_normalize domain). fold (effective_ports granted_ports).
  destruct (_matches_any_domain_pattern _ _) eqn:E; cbn [negb].
  - destruct (existsb _ (effective_ports granted_ports)) eqn:Hp; cbn [negb]; intros [= <-].
    split; [|done]. apply existsb_exists in E as (g & Hin & Hg).
    destruct g as [| | | |r| |]; try done. apply domain_pattern_matches_covers in Hg. by exists r.
  - intros [= <-]. split; [done|]. intros r Hin Hr Hc.
    rewrite <- not_true_iff_false in E. destruct E. apply existsb_exists. exists (JStr r).
    split; [done|]. by apply domain_pattern_matches_covers.
Qed.

Lemma matches_network_reach_refused_witness :
  [JStr "*.foo.com"] <> [] /\
  forall r, In (JStr r) [JStr "*.foo.com"] -> r <> "" ->
    ~ reach_covers (reach_normalize r) (reach_normalize "a.b.foo.com").
Proof.
  apply (matches_network_reach_refused "a.b.foo.com" 443 [JStr "*.foo.com"] [] domain_not_entitled).
  vm_compute. reflexivity.
Defined.
