(* ===== verification/World.v ===== *)
(** The state the daemon works on besides the database, and what it reads from
    outside: the harbor's per-desk secret files, the audit log ([core/audit.py]), and the
    clock, random ids, subprocesses and file-system faults, which the class [Env]
    supplies. A world records every subprocess call in order, so what one
    call answers may depend on all earlier ones. *)

From S2P Require Import Prelude PyStr PyVal Datetime Registry.
From Stdlib Require Import List.
From Corelib Require SpecFloat.

(** A [subprocess.run] call: its argument list, its standard input and the working
    directory ([""] for the daemon's own). *)
Record call : Type := mkCallIn { argv : list string; stdin : string; cwd : string }.
Abbreviation mkCall a s := (mkCallIn a s "").

(** What it does: a completed process, or one of the exceptions the code handles. *)
Inductive run_outcome : Type :=
  | Ran (returncode : Z) (stdout stderr : string)
  | RunNotFound (message : string)
  | RunTimeout (message stderr : string).

(** A file of a secret directory; [sf_ro] is mode 0400. *)
Record sfile : Type := mkFile { sf_data : string; sf_ro : bool }.

(** What a path outside the secret files names. *)
Inductive node : Type := NDir | NFile (data : string).

(** [w_host] is the rest of the harbor's file system (overlays, worktrees, proxy
    rules, snapshots, and the directories among the secret directories), keyed by
    the text of the path. [w_ticks], [w_uuids], [w_fsops] count the clock readings, the ids drawn and the
    file operations so far. *)
Record world : Type := mkWorld {
  w_db : db;
  w_files : gmap (string * string) sfile;
  w_host : gmap string node;
  w_audit : list json;
  w_calls : list call;
  w_ticks : nat;
  w_uuids : nat;
  w_fsops : nat
}.

Class Env : Type := {
  (** [datetime.now(timezone.utc)] *)
  clock : nat -> datetime;
  clock_ok : forall n, dt_valid (clock n) /\ dt_utc (clock n) = true;
  (** [uuid4().hex] *)
  uuid_hex : nat -> string;
  (** [secrets.token_bytes(32)] *)
  token_bytes : nat -> list Z;
  token_bytes_len : forall n, length (token_bytes n) = 32%nat;
  (** [hashlib.sha256(...).hexdigest()] *)
  sha256 : string -> string;
  (** [subprocess.run]: the calls made before, and this one *)
  subprocess_run : list call -> call -> run_outcome;
  (** what it does to the files of [w_host] *)
  run_host : list call -> call -> gmap string node -> gmap string node;
  (** [shutil.which] *)
  which : string -> option string;
  (** [repr] of a double: the shortest decimal that reads back as it *)
  env_float_repr :: FloatRepr;
  (** [json.loads], [None] for a [JSONDecodeError], [json.dumps], and that with [indent=2] *)
  json_loads : string -> option json;
  json_dumps : json -> string;
  json_dumps_indent : json -> string;
  (** [yaml.safe_load], [None] for a [YAMLError], and [yaml.safe_dump] *)
  yaml_load : string -> option json;
  yaml_dump : json -> string;
  (** the n-th file operation fails: with a [PermissionError] if the flag is set, with
      another [OSError] if not *)
  fs_fault : nat -> option (bool * string);
  (** the same for the n-th file operation when it appends to the audit log *)
  audit_fault : nat -> option (bool * string);
  (** the daemon runs as root, so that mode 0400 does not stop its writes *)
  is_root : bool;
  (** the directory of the secret directories *)
  secrets_root : string;
  (** [Path.home()] *)
  home : string;
  (** [os.environ] *)
  environ : string -> option string
}.

Abbreviation W := (M world exn).

Definition set_db (d : db) (w : world) : world :=
  mkWorld d (w_files w) (w_host w) (w_audit w) (w_calls w) (w_ticks w) (w_uuids w) (w_fsops w).
Definition set_files (f : gmap (string * string) sfile) (w : world) : world :=
  mkWorld (w_db w) f (w_host w) (w_audit w) (w_calls w) (w_ticks w) (w_uuids w) (w_fsops w).
Definition set_host (h : gmap string node) (w : world) : world :=
  mkWorld (w_db w) (w_files w) h (w_audit w) (w_calls w) (w_ticks w) (w_uuids w) (w_fsops w).

(** A registry operation, run on the world's database. *)
Definition reg {A} (m : DB A) : W A :=
  fun w => let '(r, d) := m (w_db w) in (r, set_db d w).

(** A registry query. *)
Definition reg_get {A} (f : db -> A) : W A := gets (fun w => f (w_db w)).
Definition reg_query {A} (f : db -> res exn A) : W A := reg (query f).

Section Effects.
Context `{Env}.

Definition utc_now : W datetime :=
  fun w => (Ok (clock (w_ticks w)),
            mkWorld (w_db w) (w_files w) (w_host w) (w_audit w) (w_calls w) (S (w_ticks w)) (w_uuids w)
              (w_fsops w)).

(** [datetime.now(timezone.utc).isoformat()]. *)
Definition _utc_now : W string := t ← utc_now; mret (isoformat t).

Definition uuid4 : W string :=
  fun w => (Ok (uuid_hex (w_uuids w)),
            mkWorld (w_db w) (w_files w) (w_host w) (w_audit w) (w_calls w) (w_ticks w) (S (w_uuids w))
              (w_fsops w)).

Definition run (c : call) : W run_outcome :=
  fun w => (Ok (subprocess_run (w_calls w) c),
            mkWorld (w_db w) (w_files w) (run_host (w_calls w) c (w_host w)) (w_audit w) (w_calls w ++ [c]) (w_ticks w) (w_uuids w)
              (w_fsops w)).

(** ** Files of [secrets_root / desk / name] *)

Definition os_error {A} (kind msg : string) : W A := throw (PyError kind msg).

(** [except OSError]. *)
Definition is_os_error (e : exn) : bool :=
  existsb (String.eqb (exn_class e))
    ["OSError"; "PermissionError"; "IsADirectoryError"; "FileNotFoundError"].

(** A fallible file operation: it fails before it has an effect. *)
Definition fs_op : W unit :=
  fun w =>
    let w' := mkWorld (w_db w) (w_files w) (w_host w) (w_audit w) (w_calls w) (w_ticks w) (w_uuids w)
                (S (w_fsops w)) in
    match fs_fault (w_fsops w) with
    | Some (denied, msg) => (Err (PyError (if denied : bool then "PermissionError" else "OSError") msg), w')
    | None => (Ok tt, w')
    end.

(** The [mkdir], [open] and [write] of an append to the audit log; a [write] that fails leaves no part of its line. *)
Definition audit_op : W unit :=
  fun w =>
    let w' := mkWorld (w_db w) (w_files w) (w_host w) (w_audit w) (w_calls w) (w_ticks w) (w_uuids w)
                (S (w_fsops w)) in
    match audit_fault (w_fsops w) with
    | Some (denied, msg) => (Err (PyError (if denied : bool then "PermissionError" else "OSError") msg), w')
    | None => (Ok tt, w')
    end.

(** [desk_dir / name] is a directory for these names. *)
Definition is_dir_name (n : string) : bool := is_empty n || (n =s ".") || (n =s "..").

(** [path.write_bytes(data)]: in place, so an existing 0400 file stops it unless root. *)
Definition write_bytes (desk n data : string) : W unit :=
  _ ← fs_op;
  if is_dir_name n then os_error "IsADirectoryError" n
  else
    old ← gets (fun w => w_files w !! (desk, n));
    match old with
    | Some f =>
        if sf_ro f && negb is_root then os_error "PermissionError" n
        else modify (fun w => set_files (<[(desk, n) := mkFile data (sf_ro f)]> (w_files w)) w)
    | None => modify (fun w => set_files (<[(desk, n) := mkFile data false]> (w_files w)) w)
    end.

(** [path.unlink(missing_ok=True)]. *)
Definition unlink (desk n : string) : W unit :=
  _ ← fs_op;
  if is_dir_name n then os_error "IsADirectoryError" n
  else modify (fun w => set_files (delete (desk, n) (w_files w)) w).

(** [os.chmod(path, 0o400)]. *)
Definition chmod_ro (desk n : string) : W unit :=
  _ ← fs_op;
  modify (fun w => set_files
    (alter (fun f => mkFile (sf_data f) true) (desk, n) (w_files w)) w).

(** [os.replace(src, dst)] within a desk's directory. *)
Definition os_replace (desk src dst : string) : W unit :=
  _ ← fs_op;
  f ← gets (fun w => w_files w !! (desk, src));
  match f with
  | Some f => modify (fun w => set_files (<[(desk, dst) := f]> (delete (desk, src) (w_files w))) w)
  | None => os_error "FileNotFoundError" src
  end.

(** The directory of a desk's secrets. *)
Definition secret_dir (desk : string) : string := path_join secrets_root desk.

(** [path.mkdir(parents=True, exist_ok=True)]. *)
Definition mk_dirs (p : string) (h : gmap string node) : gmap string node :=
  fold_right (fun q h => match h !! q with Some _ => h | None => <[q := NDir]> h end) h (path_chain p).

Definition mkdir_p (p : string) : W unit :=
  _ ← fs_op; modify (fun w => set_host (mk_dirs p (w_host w)) w).

Definition path_of (desk n : string) : string := secrets_root +:+ "/" +:+ desk +:+ "/" +:+ n.

(** [path.read_text()]. *)
Definition read_text (desk n : string) : W string :=
  _ ← fs_op;
  f ← gets (fun w => w_files w !! (desk, n));
  match f with Some f => mret (sf_data f) | None => os_error "FileNotFoundError" n end.

(** [core/__init__.py]: a [PermissionError] is swallowed, another [OSError] is not. The
    owner is not part of the state. *)
Definition chown_to_container : W unit :=
  catch fs_op (fun e => if exn_class e =s "PermissionError" then mret tt else throw e).

(** ** Other files of the harbor *)

Definition host_at (p : string) : W (option node) := gets (fun w => w_host w !! p).

(** [path.exists()]. *)
Definition path_exists (p : string) : W bool := gets (fun w => is_some (w_host w !! p)).

Definition is_nfile (o : option node) : bool := match o with Some (NFile _) => true | _ => false end.
Definition is_ndir (o : option node) : bool := match o with Some NDir => true | _ => false end.

(** [path.read_text()]. *)
Definition host_read (p : string) : W string :=
  _ ← fs_op;
  n ← host_at p;
  match n with
  | Some (NFile d) => mret d
  | Some NDir => os_error "IsADirectoryError" p
  | None => os_error "FileNotFoundError" p
  end.

(** [path.write_text(data)]. *)
Definition host_write (p data : string) : W unit :=
  _ ← fs_op;
  n ← host_at p;
  match n with
  | Some NDir => os_error "IsADirectoryError" p
  | _ => modify (fun w => set_host (<[p := NFile data]> (w_host w)) w)
  end.

(** [path.unlink()]. *)
Definition host_unlink (p : string) : W unit :=
  _ ← fs_op;
  n ← host_at p;
  match n with
  | Some (NFile _) => modify (fun w => set_host (delete p (w_host w)) w)
  | Some NDir => os_error "IsADirectoryError" p
  | None => os_error "FileNotFoundError" p
  end.

(** [src.replace(dst)] of two files. *)
Definition host_replace (src dst : string) : W unit :=
  _ ← fs_op;
  n ← host_at src;
  match n with
  | Some f => modify (fun w => set_host (<[dst := f]> (delete src (w_host w))) w)
  | None => os_error "FileNotFoundError" src
  end.

(** [path.rmdir()] of an empty directory. *)
Definition host_rmdir (p : string) : W unit :=
  _ ← fs_op; modify (fun w => set_host (delete p (w_host w)) w).

(** The files and directories of [p] are gone. *)
Definition rm_tree (p : string) (h : gmap string node) : gmap string node :=
  base.filter (fun kv : string * node => under_path p (fst kv) = false) h.

(** [shutil.rmtree(p, ignore_errors=True)]: a fault leaves the tree. *)
Definition rmtree_quiet (p : string) : W unit :=
  catch (_ ← fs_op; modify (fun w => set_host (rm_tree p (w_host w)) w)) (fun _ => mret tt).

(** [subprocess.run], with its exceptions raised. *)
Definition run_uncaught (c : call) : W (Z * string * string) :=
  out ← run c;
  match out with
  | Ran rc so se => mret (rc, so, se)
  | RunNotFound m => throw (PyError "FileNotFoundError" m)
  | RunTimeout m _ => throw (PyError "TimeoutExpired" m)
  end.

(** ** The audit log *)

Definition V2_EVENTS : list string :=
  ["drydock.created"; "drydock.resumed"; "drydock.spawned"; "drydock.spawn_rejected";
   "drydock.stopped"; "drydock.destroyed"; "drydock.error"; "lease.issued"; "lease.renewed";
   "lease.released"; "token.issued"; "token.revoked"; "tailnet.device_deleted";
   "tailnet.device_delete_failed"; "workload.lease_granted"; "workload.lease_released";
   "workload.lease_apply_failed"; "workload.lease_expired"; "workload.lease_partial_revoked";
   "drydock.migration_started"; "drydock.migration_stage"; "drydock.migrated";
   "drydock.migration_rolled_back"; "drydock.migration_failed"; "auditor.designated";
   "auditor.scope_revoked"; "auditor.action_dry_run"; "auditor.action_executed";
   "auditor.action_refused"; "auditor.clarification_registered";
   "auditor.clarification_rejected"; "egress.allowlist_updated"; "egress.allowlist_rejected"].

(** [str(request_id)] for a JSON-RPC id. *)
Definition str_id (request_id : json) : string :=
  match request_id with
  | JStr s => s
  | JInt z => str_of_Z z
  | JBool b => if b then "True" else "False"
  | _ => "None"
  end.

Definition _append (entry : json) : W unit :=
  _ ← audit_op;
  modify (fun w => mkWorld (w_db w) (w_files w) (w_host w) (w_audit w ++ [entry]) (w_calls w) (w_ticks w)
                     (w_uuids w) (w_fsops w)).

Definition emit_audit (event : string) (principal : option string) (request_id : json)
    (method result : string) (details : list (string * json)) : W json :=
  if negb (existsb (String.eqb event) V2_EVENTS)
  then throw (ValueError ("unknown audit event: " +:+ repr_str event
                +:+ " (known: " +:+ repr_sorted V2_EVENTS +:+ ")"))
  else
    ts ← _utc_now;
    let entry := JObj [("ts", JStr ts); ("event", JStr event); ("principal", opt_str principal);
      ("request_id", match request_id with JNull => JNull | i => JStr (str_id i) end);
      ("method", JStr method); ("result", JStr result); ("details", JObj details)] in
    _ ← _append entry;
    mret entry.

(** The version 1 emitter. *)
Definition audit_log_event (event drydock_id : string) (extra : list (string * json)) : W unit :=
  ts ← _utc_now;
  _append (JObj (jmerge [("timestamp", JStr ts); ("event", JStr event);
                         ("drydock_id", JStr drydock_id)] extra)).
End Effects.

(** ** Reading runs of these computations *)

Lemma reg_gets_bind {A B} (f : db -> A) (k : A -> W B) w : (reg_get f ≫= k) w = k (f (w_db w)) w.
Proof. done. Qed.

Lemma set_db_id w : set_db (w_db w) w = w.
Proof. by destruct w. Qed.

Lemma reg_query_bind {A B} (f : db -> res exn A) (k : A -> W B) w :
  (reg_query f ≫= k) w
  = match f (w_db w) with Ok a => k a w | Err e => (Err e, w) end.
Proof.
  unfold reg_query, reg, query, mbind, M_bind. destruct (f (w_db w)); by rewrite set_db_id.
Qed.

Lemma reg_bind {A B} (m : DB A) (k : A -> W B) w :
  (reg m ≫= k) w
  = match fst (m (w_db w)) with
    | Ok a => k a (set_db (snd (m (w_db w))) w)
    | Err e => (Err e, set_db (snd (m (w_db w))) w)
    end.
Proof. unfold reg, mbind, M_bind. by destruct (m (w_db w)) as [[a|e] d]. Qed.

#[export] Hint Rewrite @reg_gets_bind @reg_query_bind : mon.

(** ** A concrete environment for examples: a clock that advances by a second, numbered
    ids, subprocesses that succeed silently, no faults. *)

Lemma demo_clock_ok n :
  let t := mkDatetime (738000 * us_per_day + (Z.of_nat n mod 86400) * 1000000) true in
  dt_valid t /\ dt_utc t = true.
Proof.
  cbv zeta. split; [|done]. unfold dt_valid. cbn [dt_us].
  pose proof (Z.mod_pos_bound (Z.of_nat n) 86400 ltac:(lia)).
  assert (738000 * us_per_day + 86400 * 1000000 < max_days * us_per_day) by (vm_compute; done).
  assert (0 <= 738000 * us_per_day) by (vm_compute; done). lia.
Qed.

Lemma repeat_len32 (z : Z) : length (repeat z 32) = 32%nat.
Proof. done. Qed.

Definition demo_env : Env := {|
  clock n := mkDatetime (738000 * us_per_day + (Z.of_nat n mod 86400) * 1000000) true;
  clock_ok := demo_clock_ok;
  uuid_hex n := pad 32 (Z.of_nat n);
  token_bytes n := repeat (Z.of_nat n mod 256) 32;
  token_bytes_len n := repeat_len32 _;
  sha256 s := "h" +:+ s;
  subprocess_run _ _ := Ran 0 "" "";
  run_host _ _ h := h;
  which _ := Some "/usr/bin/docker";
  env_float_repr := {| float_repr _ := "1.0" |};
  json_loads _ := None;
  json_dumps _ := "{}";
  json_dumps_indent _ := "{}";
  yaml_load _ := None;
  yaml_dump := @py_repr {| float_repr _ := "1.0" |};
  fs_fault _ := None;
  audit_fault _ := None;
  is_root := true;
  secrets_root := "/root/.drydock/secrets";
  home := "/root";
  environ _ := None
|}.

Definition empty_world : world := mkWorld empty_db ∅ ∅ [] [] 0 0 0.
