(* ===== verification/Rpc.v ===== *)
(** The daemon's RPC machinery: [daemon/rpc_common.py] (the task-log idempotency
    wrapper), [daemon/auth.py] (bearer tokens) and the request parsing and dispatch
    of [daemon/server.py]. The method handlers are arguments here; the components
    that model them supply them. *)

From S2P Require Import Prelude PyStr PyVal Datetime Registry World.
From Stdlib Require Import List.

Definition rpc {A} (code : Z) (message : string) (data : list (string * json)) : W A :=
  throw (RpcError code message (Some (JObj data))).
Definition internal_error {A} : W A := throw (RpcError (-32603) "Internal error" None).

(** ** The task log *)

Section TaskLog.
Context `{Env}.

Definition by_request (k : string) (r : task_row) : bool := tl_request_id r =s k.

Definition finish_row (status : string) (outcome : json) (now : string) (r : task_row) : task_row :=
  mkTask (tl_request_id r) (tl_method r) (tl_spec r) status (Some outcome) (tl_created_at r) (Some now).

Definition _finish_task_log (request_id status : string) (outcome : json) : W unit :=
  now ← _utc_now;
  modify (fun w => set_db (set_task_log
    (tbl_update (by_request request_id) (finish_row status outcome now) (task_log (w_db w)))
    (w_db w)) w).

Definition key_error {A} (k : string) : res exn A := Err (PyError "KeyError" ("'" +:+ k +:+ "'")).

(** The error a cached outcome [{"code", "message", "data"?}] stands for. The last
    case, a code that is not an int or a message that is not a string, has no writer. *)
Definition replay_error (o : list (string * json)) : res exn json :=
  match assoc "code" o, assoc "message" o with
  | None, _ => key_error "code"
  | _, None => key_error "message"
  | Some (JInt c), Some (JStr m) => Err (RpcError c m (assoc "data" o))
  | _, _ => Err (PyError "_RpcError" "")
  end.

Definition _replay_cached_outcome (request_id status : string) (outcome : option json)
    : res exn json :=
  if status =s "in_progress"
  then rpc_error (-32002) "request_in_progress" [("request_id", JStr request_id)]
  else
    let outcome := default JNull outcome in
    if status =s "completed" then Ok outcome
    else
      match outcome with
      | JObj o =>
          if status =s "failed" then
            match assoc "destroyed" o with
            | Some (JBool true) => Ok outcome
            | _ => replay_error o
            end
          else Err (RpcError (-32603) "Internal error" None)
      | _ => Err (RpcError (-32603) "Internal error" None)
      end.

(** The outcome row of a raised [_RpcError]. *)
Definition error_obj (code : Z) (message : string) (data : option json) : json :=
  JObj ([("code", JInt code); ("message", JStr message)]
        ++ match data with Some d => [("data", d)] | None => [] end).

(** [registry_path] is configured; [None] for an absent [request_id]. *)
Definition with_task_log (method : string) (params : json) (request_id : json)
    (fn : W json) (status_for : json -> string) : W json :=
  match request_id with
  | JNull => rpc (-32600) "Invalid Request" [("reason", JStr "request_id_required")]
  | _ =>
      let key := str_id request_id in
      cached ← reg_get (fun d => tbl_first (by_request key) (task_log d));
      match cached with
      | Some r => lift (_replay_cached_outcome key (tl_status r) (tl_outcome r))
      | None =>
          now ← _utc_now;
          _ ← modify (fun w => set_db (set_task_log
                (task_log (w_db w) ++ [mkTask key method params "in_progress" None now None])
                (w_db w)) w);
          result ← catch fn (fun e =>
            match e with
            | RpcError code message data =>
                _ ← _finish_task_log key "failed" (error_obj code message data);
                throw e
            | _ => throw e
            end);
          _ ← _finish_task_log key (status_for result) result;
          mret result
      end
  end.

(** The default [status_for], and DestroyDesk's. *)
Definition status_completed (_ : json) : string := "completed".
Definition status_destroy (result : json) : string :=
  match result with
  | JObj o => if truthy (jget "partial_failures" o) then "failed" else "completed"
  | _ => "completed"
  end.
End TaskLog.

(** ** Bearer tokens *)

Section Auth.
Context `{Env}.

(** URL-safe base64 of a byte string, without the padding. *)
Definition b64_alphabet : string :=
  "ABCDEFGHIJKLMNOPQRSTUVWXYZabcdefghijklmnopqrstuvwxyz0123456789-_".

Definition b64_char (n : Z) : ascii :=
  match String.get (Z.to_nat n) b64_alphabet with Some c => c | None => "A"%char end.

Fixpoint urlsafe_b64encode (bs : list Z) : string :=
  match bs with
  | [] => ""
  | [a] => String (b64_char (a / 4)) (String (b64_char (a mod 4 * 16)) "==")
  | [a; b] => String (b64_char (a / 4)) (String (b64_char (a mod 4 * 16 + b / 16))
                (String (b64_char (b mod 16 * 4)) "="))
  | a :: b :: c :: bs' =>
      String (b64_char (a / 4)) (String (b64_char (a mod 4 * 16 + b / 16))
        (String (b64_char (b mod 16 * 4 + c / 64)) (String (b64_char (c mod 64))
          (urlsafe_b64encode bs'))))
  end.

(** The n-th id drawn seeds the n-th token. *)
Definition generate_token : W string :=
  fun w => (Ok (rstrip_by (Ascii.eqb "=") (urlsafe_b64encode (token_bytes (w_uuids w)))),
            mkWorld (w_db w) (w_files w) (w_host w) (w_audit w) (w_calls w) (w_ticks w) (S (w_uuids w))
              (w_fsops w)).

Definition hash_token (plaintext : string) : string := sha256 plaintext.

Definition TOKEN_FILENAME : string := "drydock-token".

Definition _write_secret_atomic (desk n plaintext : string) : W unit :=
  _ ← mkdir_p (secret_dir desk);
  _ ← fs_op;
  _ ← chown_to_container;
  let tmp := n +:+ ".tmp" in
  _ ← write_bytes desk tmp plaintext;
  _ ← chmod_ro desk tmp;
  _ ← chown_to_container;
  os_replace desk tmp n.

Definition issue_token_for_desk (drydock_id : string) : W string :=
  token_info ← reg_get (get_token_info drydock_id);
  match token_info with
  | Some _ =>
      text ← catch (read_text drydock_id TOKEN_FILENAME)
        (fun e => if exn_class e =s "FileNotFoundError"
                  then throw (RpcError (-32603) "token_exists_no_plaintext" None) else throw e);
      mret (strip text)
  | None =>
      plaintext ← generate_token;
      _ ← _write_secret_atomic drydock_id TOKEN_FILENAME plaintext;
      now ← utc_now;
      _ ← reg (insert_token drydock_id (hash_token plaintext) now);
      mret plaintext
  end.

(** Absent or empty plaintext names no one. *)
Definition validate_token (plaintext : option string) (d : db) : option string :=
  match plaintext with
  | Some p => if is_empty p then None else find_desk_by_token_hash (hash_token p) d
  | None => None
  end.

Definition validate_token_with_scope (plaintext : option string) (d : db)
    : option (string * string) :=
  match plaintext with
  | Some p => if is_empty p then None else find_token_record_by_hash (hash_token p) d
  | None => None
  end.
End Auth.

(** ** Parsing and dispatch *)

Section Dispatch.
Context `{Env}.

Record MethodSpec : Type := mkMethod {
  handler : json -> json -> option string -> W json;
  requires_auth : bool
}.

Definition error_response (request_id : json) (code : Z) (message : string) (data : option json)
    : json :=
  JObj [("jsonrpc", JStr "2.0"); ("id", request_id);
        ("error", JObj ([("code", JInt code); ("message", JStr message)]
                        ++ match data with Some d => [("data", d)] | None => [] end))].

Definition success_response (request_id result : json) : json :=
  JObj [("jsonrpc", JStr "2.0"); ("id", request_id); ("result", result)].

Record parsed : Type := mkParsed {
  p_method : string; p_params : json; p_id : json; p_auth : option string; p_notification : bool
}.

Definition invalid_request {A} : res exn A := Err (RpcError (-32600) "Invalid Request" None).

(** [isinstance(x, (str, int))] or absent or null. *)
Definition id_ok (v : json) : bool :=
  match v with JStr _ | JInt _ | JBool _ | JNull => true | _ => false end.

Definition _parse_request (payload : json) : res exn parsed :=
  match payload with
  | JObj o =>
      let request_id := jget "id" o in
      if negb (id_ok request_id) then invalid_request
      else
        match jget "method" o with
        | JStr m =>
            if negb (str_eq_json "2.0" (jget "jsonrpc" o)) || is_empty m then invalid_request
            else
              match jget "params" o with
              | (JNull | JObj _ | JList _) as params =>
                  match jget "auth" o with
                  | JNull => Ok (mkParsed m params request_id None (negb (has_key "id" o)))
                  | JStr a => Ok (mkParsed m params request_id (Some a) (negb (has_key "id" o)))
                  | _ => invalid_request
                  end
              | _ => invalid_request
              end
        | _ => invalid_request
        end
  | _ => invalid_request
  end.

Definition _resolve_caller (spec : MethodSpec) (auth : option string) : W (option string) :=
  match auth with
  | None =>
      if requires_auth spec
      then rpc (-32004) "unauthenticated" [("reason", JStr "no_token")]
      else mret None
  | Some _ =>
      caller ← reg_get (validate_token auth);
      match caller with
      | None => if requires_auth spec
                then rpc (-32004) "unauthenticated" [("reason", JStr "invalid_token")]
                else mret None
      | Some c => mret (Some c)
      end
  end.

(** The response to an exception that leaves a handler. *)
Definition exn_response (request_id : json) (e : exn) : json :=
  match e with
  | RpcError code message data => error_response request_id code message data
  | _ => error_response request_id (-32603) "Internal error" None
  end.

(** [None] is no response. A handler's exception never leaves [_dispatch]. *)
Definition _dispatch (methods : list (string * MethodSpec)) (payload : json) (w : world)
    : option json * world :=
  match _parse_request payload with
  | Err e => (Some (exn_response JNull e), w)
  | Ok p =>
      if p_notification p then (None, w)
      else
        match assoc (p_method p) methods with
        | None => (Some (error_response (p_id p) (-32601)
                           ("Method not found: " +:+ p_method p) None), w)
        | Some spec =>
            let '(r, w') := (caller ← _resolve_caller spec (p_auth p);
                             handler spec (p_params p) (p_id p) caller) w in
            (Some match r with
                  | Ok v => success_response (p_id p) v
                  | Err e => exn_response (p_id p) e
                  end, w')
        end
  end.

(** The method table: each handler of [server.py], and whether it needs a token. *)
Record handlers : Type := mkHandlers {
  h_create_desk : json -> json -> option string -> W json;
  h_destroy_desk : json -> json -> option string -> W json;
  h_spawn_child : json -> json -> option string -> W json;
  h_request_capability : json -> json -> option string -> W json;
  h_release_capability : json -> json -> option string -> W json;
  h_stop_desk : json -> json -> option string -> W json;
  h_list_desks : json -> json -> option string -> W json;
  h_list_children : json -> json -> option string -> W json;
  h_inspect_desk : json -> json -> option string -> W json;
  h_get_audit : json -> json -> option string -> W json;
  h_health : json -> json -> option string -> W json;
  h_whoami : json -> json -> option string -> W json;
  h_register_workload : json -> json -> option string -> W json;
  h_release_workload : json -> json -> option string -> W json;
  h_auditor_action : json -> json -> option string -> W json;
  h_register_clarification : json -> json -> option string -> W json;
  h_update_proxy_allowlist : json -> json -> option string -> W json
}.

Definition _METHODS (h : handlers) : list (string * MethodSpec) :=
  [("CreateDesk", mkMethod (h_create_desk h) false);
   ("DestroyDesk", mkMethod (h_destroy_desk h) false);
   ("SpawnChild", mkMethod (h_spawn_child h) true);
   ("RequestCapability", mkMethod (h_request_capability h) true);
   ("ReleaseCapability", mkMethod (h_release_capability h) true);
   ("StopDesk", mkMethod (h_stop_desk h) false);
   ("ListDesks", mkMethod (h_list_desks h) false);
   ("ListChildren", mkMethod (h_list_children h) true);
   ("InspectDesk", mkMethod (h_inspect_desk h) false);
   ("GetAudit", mkMethod (h_get_audit h) false);
   ("daemon.health", mkMethod (h_health h) false);
   ("daemon.whoami", mkMethod (h_whoami h) true);
   ("RegisterWorkload", mkMethod (h_register_workload h) true);
   ("ReleaseWorkload", mkMethod (h_release_workload h) true);
   ("AuditorAction", mkMethod (h_auditor_action h) true);
   ("RegisterClarification", mkMethod (h_register_clarification h) true);
   ("UpdateProxyAllowlist", mkMethod (h_update_proxy_allowlist h) true)].
End Dispatch.
