(* ===== verification/WorldFacts.v ===== *)
(** Framing: what a computation leaves alone. [quiet v m] says that [m] does not change
    the view [v] of the world, whether it returns or raises; the views of interest are the
    database, the secret files and the host's files. *)

From S2P Require Import Prelude PyStr PyVal Datetime Registry World Rpc.
From Stdlib Require Import List.

Section Quiet.
Context {V : Type} (v : world -> V).

Definition quiet {A} (m : W A) : Prop := forall w, v (snd (m w)) = v w.

Lemma quiet_ret {A} (a : A) : quiet (mret a).
Proof. done. Qed.
Lemma quiet_throw {A} (e : exn) : quiet (throw (A := A) e).
Proof. done. Qed.
Lemma quiet_gets {A} (f : world -> A) : quiet (gets f).
Proof. done. Qed.
Lemma quiet_lift {A} (r : res exn A) : quiet (lift r).
Proof. done. Qed.
Lemma quiet_modify f : (forall w, v (f w) = v w) -> quiet (modify (E := exn) f).
Proof. intros H w. apply H. Qed.

Lemma quiet_bind {A B} (m : W A) (k : A -> W B) : quiet m -> (forall a, quiet (k a)) -> quiet (m ≫= k).
Proof.
  intros Hm Hk w. specialize (Hm w). unfold mbind, M_bind. destruct (m w) as [[a|e] w1]; cbn in *; [|done].
  by rewrite Hk.
Qed.

Lemma quiet_catch {A} (m : W A) (h : exn -> W A) : quiet m -> (forall e, quiet (h e)) -> quiet (catch m h).
Proof.
  intros Hm Hh w. specialize (Hm w). unfold catch. destruct (m w) as [[a|e] w1]; cbn in *; [done|].
  by rewrite Hh.
Qed.

(** A property of the view holds after a quiet computation if it held before. *)
Lemma quiet_preserves {A} (P : V -> Prop) (m : W A) : quiet m -> preserves (fun w => P (v w)) m.
Proof. intros Hm w Hw. by rewrite Hm. Qed.
End Quiet.

(** A view that is computed from a larger one. *)
Lemma quiet_weaken {V V' A} (v : world -> V) (f : V -> V') (m : W A) : quiet v m -> quiet (fun w => f (v w)) m.
Proof. intros Hm w. by rewrite Hm. Qed.

(** ** Views *)

Definition db_files (w : world) : db * gmap (string * string) sfile := (w_db w, w_files w).
Definition state_view (w : world) : db * gmap (string * string) sfile * gmap string node :=
  (w_db w, w_files w, w_host w).

Create HintDb quiet.
#[export] Hint Resolve quiet_ret quiet_throw quiet_gets quiet_lift : quiet.

Section Operations.
Context `{Env}.

(** What only moves counters and the audit log. *)
Lemma quiet_now : quiet state_view utc_now.
Proof. done. Qed.
Lemma quiet_now_text : quiet state_view _utc_now.
Proof. done. Qed.
Lemma quiet_uuid : quiet state_view uuid4.
Proof. done. Qed.
Lemma quiet_get {A} (f : db -> A) : quiet state_view (reg_get f).
Proof. done. Qed.
Lemma quiet_query {A} (f : db -> res exn A) : quiet state_view (reg_query f).
Proof. intros w. unfold reg_query, reg, query. by rewrite set_db_id. Qed.
Lemma quiet_rpc {A} c m d : quiet state_view (rpc (A := A) c m d).
Proof. done. Qed.
Lemma quiet_audit_op : quiet state_view audit_op.
Proof. intros w. unfold audit_op. by destruct (audit_fault _) as [[? ?]|]. Qed.
Lemma quiet_append e : quiet state_view (_append e).
Proof. apply quiet_bind; [apply quiet_audit_op|]. intros _. by apply quiet_modify. Qed.
Lemma quiet_emit ev pr id m r d : quiet state_view (emit_audit ev pr id m r d).
Proof.
  unfold emit_audit. destruct (negb _); [apply quiet_throw|]. apply quiet_bind; [apply quiet_now_text|]. intros t.
  apply quiet_bind; [apply quiet_append|]. intros _. apply quiet_ret.
Qed.
Lemma quiet_fs_op : quiet state_view fs_op.
Proof. intros w. unfold fs_op. by destruct (fs_fault _) as [[? ?]|]. Qed.
Lemma quiet_os_error {A} k m : quiet state_view (os_error (A := A) k m).
Proof. done. Qed.
Lemma quiet_host_at p : quiet state_view (host_at p).
Proof. done. Qed.
Lemma quiet_path_exists p : quiet state_view (path_exists p).
Proof. done. Qed.

Lemma quiet_chown : quiet state_view chown_to_container.
Proof.
  apply quiet_catch; [apply quiet_fs_op|]. intros e. destruct (_ =s _); [apply quiet_ret|apply quiet_throw].
Qed.

Lemma quiet_host_read p : quiet state_view (host_read p).
Proof.
  apply quiet_bind; [apply quiet_fs_op|]. intros _. apply quiet_bind; [apply quiet_host_at|].
  intros [[]|]; done.
Qed.

Lemma quiet_read_text d n : quiet state_view (read_text d n).
Proof.
  apply quiet_bind; [apply quiet_fs_op|]. intros _. apply quiet_bind; [apply quiet_gets|]. by intros [].
Qed.

(** What changes only the host's files. *)
Lemma quiet_state {A} (m : W A) : quiet state_view m -> quiet db_files m.
Proof. apply (quiet_weaken state_view fst). Qed.

Lemma quiet_db {A} (m : W A) : quiet db_files m -> quiet w_db m.
Proof. apply (quiet_weaken db_files fst). Qed.
Lemma quiet_files {A} (m : W A) : quiet db_files m -> quiet w_files m.
Proof. apply (quiet_weaken db_files snd). Qed.

Lemma quiet_run c : quiet db_files (run c).
Proof. done. Qed.

Lemma quiet_run_uncaught c : quiet db_files (run_uncaught c).
Proof. apply quiet_bind; [apply quiet_run|]. by intros []. Qed.

Lemma quiet_host f : quiet db_files (modify (E := exn) (fun w => set_host (f (w_host w)) w)).
Proof. by apply quiet_modify. Qed.
End Operations.

#[export] Hint Resolve quiet_now quiet_now_text quiet_uuid quiet_get quiet_query quiet_rpc quiet_emit quiet_audit_op quiet_append
  quiet_fs_op quiet_os_error quiet_host_at quiet_path_exists quiet_chown quiet_host_read quiet_read_text
  quiet_run quiet_run_uncaught quiet_host : quiet.
#[export] Hint Extern 3 (quiet db_files _) => simple apply quiet_state : quiet.
#[export] Hint Extern 3 (quiet w_db _) => simple apply quiet_db : quiet.

(** Step through a computation, looking leaves up in [quiet]. *)
Ltac quiet_step :=
  repeat first
    [ solve [eauto with quiet nocore]
    | match goal with
      | |- quiet _ (mbind _ _) => apply quiet_bind; [|intros ?]
      | |- quiet _ (catch _ _) => apply quiet_catch; [|intros ?]
      | |- quiet _ (modify _) => apply quiet_modify; intros ?; try reflexivity
      end
    | progress cbv beta zeta
    | match goal with |- quiet _ (match ?x with _ => _ end) => destruct x end ].

(** ** Computations that move along a preorder *)

Section Moves.
Context {S E : Type} (R : S -> S -> Prop) {R_preorder : PreOrder R}.

Definition moves {A} (m : M S E A) : Prop := forall s, R s (snd (m s)).

Lemma moves_ret {A} (a : A) : moves (mret a).
Proof. intros w. done. Qed.
Lemma moves_throw {A} (e : E) : moves (throw (A := A) e).
Proof. intros w. done. Qed.
Lemma moves_gets {A} (f : S -> A) : moves (gets f).
Proof. intros w. done. Qed.
Lemma moves_lift {A} (r : res E A) : moves (lift r).
Proof. intros w. done. Qed.

Lemma moves_bind {A B} (m : M S E A) (k : A -> M S E B) : moves m -> (forall a, moves (k a)) -> moves (m ≫= k).
Proof.
  intros Hm Hk w. specialize (Hm w). unfold mbind, M_bind. destruct (m w) as [[a|e] w1]; cbn in *; [|done].
  etrans; [exact Hm|apply Hk].
Qed.

Lemma moves_catch {A} (m : M S E A) (h : E -> M S E A) : moves m -> (forall e, moves (h e)) -> moves (catch m h).
Proof.
  intros Hm Hh w. specialize (Hm w). unfold catch. destruct (m w) as [[a|e] w1]; cbn in *; [done|].
  etrans; [exact Hm|apply Hh].
Qed.
End Moves.

Create HintDb moves.
#[export] Hint Resolve moves_ret moves_throw moves_gets moves_lift : moves.

(** Step through a computation, looking leaves up in [moves]. *)
Ltac moves_step :=
  repeat first
    [ solve [eauto with moves quiet nocore typeclass_instances]
    | match goal with
      | |- moves _ (mbind _ _) => apply moves_bind; [typeclasses eauto| |intros ?]
      | |- moves _ (catch _ _) => apply moves_catch; [typeclasses eauto| |intros ?]
      end
    | progress cbv beta zeta
    | match goal with |- moves _ (match ?x with _ => _ end) => destruct x end ].

(** ** The host's files *)

Section HostOperations.
Context `{Env}.

Lemma quiet_mkdir p : quiet db_files (mkdir_p p).
Proof. unfold mkdir_p. quiet_step. Qed.
Lemma quiet_host_write p d : quiet db_files (host_write p d).
Proof. unfold host_write. quiet_step. Qed.
Lemma quiet_host_unlink p : quiet db_files (host_unlink p).
Proof. unfold host_unlink. quiet_step. Qed.
Lemma quiet_host_replace a b : quiet db_files (host_replace a b).
Proof. unfold host_replace. quiet_step. Qed.
Lemma quiet_host_rmdir p : quiet db_files (host_rmdir p).
Proof. unfold host_rmdir. quiet_step. Qed.
Lemma quiet_rmtree p : quiet db_files (rmtree_quiet p).
Proof. unfold rmtree_quiet. quiet_step. Qed.
End HostOperations.

#[export] Hint Resolve quiet_mkdir quiet_host_write quiet_host_unlink quiet_host_replace quiet_host_rmdir
  quiet_rmtree : quiet.

(** ** What the host operations do when they return *)

Section HostResults.
Context `{Env}.

Lemma fs_op_state w r w' : fs_op w = (r, w') -> state_view w' = state_view w.
Proof. intros E. pose proof (quiet_fs_op w) as Hq. by rewrite E in Hq. Qed.

Lemma fs_op_host w r w' : fs_op w = (r, w') -> w_host w' = w_host w.
Proof. intros E. apply fs_op_state in E. by injection E. Qed.

Lemma host_write_ok p d w u w' : host_write p d w = (Ok u, w') -> w_host w' !! p = Some (NFile d).
Proof.
  unfold host_write. intros E. apply bind_inv in E as [(u1 & w1 & _ & E)|(e & _ & [=])].
  unfold host_at in E. rewrite gets_bind in E.
  destruct (w_host w1 !! p) as [[|x]|]; [discriminate E|..]; rewrite modify_eq in E; injection E as _ <-;
    apply lookup_insert_eq.
Qed.

Lemma host_replace_ok a b w u w' : host_replace a b w = (Ok u, w') ->
  w_host w' !! b = w_host w !! a.
Proof.
  unfold host_replace. intros E. apply bind_inv in E as [(u1 & w1 & E1 & E)|(e & _ & [=])].
  apply fs_op_host in E1. unfold host_at in E. rewrite gets_bind, E1 in E.
  destruct (w_host w !! a) as [n|]; [|discriminate E]. rewrite modify_eq in E. injection E as _ <-.
  apply lookup_insert_eq.
Qed.

(** The audit log could not be written: what the append raises. *)
Definition audit_error (e : exn) : Prop :=
  exists n denied msg, audit_fault n = Some (denied, msg) /\ e = PyError (if denied : bool then "PermissionError" else "OSError") msg.

(** A known event is written, and only the audit log and the clock move; or the audit log cannot be written. *)
Lemma emit_audit_cases ev pr id m r d w :
  existsb (String.eqb ev) V2_EVENTS = true ->
  exists o w', emit_audit ev pr id m r d w = (o, w') /\ state_view w' = state_view w /\ w_calls w' = w_calls w
    /\ match o with Ok _ => True | Err e => audit_error e end.
Proof.
  intros He. unfold emit_audit, _utc_now, _append, audit_op, mbind, M_bind. rewrite He. cbn.
  destruct (audit_fault (w_fsops w)) as [[b x]|] eqn:E; do 2 eexists; (split; [reflexivity|]); (do 2 (split; [done|])); [|done].
  by exists (w_fsops w), b, x.
Qed.

Lemma audit_error_class e : audit_error e -> exn_class e = "PermissionError" \/ exn_class e = "OSError".
Proof. intros (n & b & x & _ & ->). destruct b; auto. Qed.

(** What the append raises is not the answer of a handler. *)
Lemma emit_audit_no_rpc ev pr id m r d w c t data w' : emit_audit ev pr id m r d w <> (Err (RpcError c t data), w').
Proof.
  unfold emit_audit, _utc_now, _append, audit_op, mbind, M_bind. destruct (negb _); [done|]. cbn.
  by destruct (audit_fault (w_fsops w)) as [[[] ?]|].
Qed.

(** A computation quiet on the host's files, run to its end. *)
Lemma quiet_host_eq {A} (m : W A) w r w' : quiet state_view m -> m w = (r, w') -> w_host w' = w_host w.
Proof. intros Hq E. specialize (Hq w). rewrite E in Hq. by injection Hq. Qed.

Lemma quiet_db_eq {A} (m : W A) w r w' : quiet w_db m -> m w = (r, w') -> w_db w' = w_db w.
Proof. intros Hq E. specialize (Hq w). by rewrite E in Hq. Qed.
End HostResults.

(** * Framing one path of the harbor's files

    Framing one path of the harbor's files: what the host operations and the subprocesses leave
    alone. *)

(** What is at a path. *)
Definition at_path (p : string) (w : world) : option node := w_host w !! p.

(** A path joined with different plain names gives different paths. *)
Lemma join_ne a x y : plain x = true -> plain y = true -> x <> y -> a // x <> a // y.
Proof. intros Hx Hy Hne E. by apply Hne, (path_join_inj a). Qed.

Lemma mk_dirs_other q h p : ~ In p (path_chain q) -> mk_dirs q h !! p = h !! p.
Proof.
  unfold mk_dirs. induction (path_chain q) as [|x l IH]; intros Hp; [done|]. cbn [fold_right].
  assert (x <> p) as Hx by (intros ->; apply Hp; by left).
  assert (~ In p l) as Hl by (intros Hi; apply Hp; by right). specialize (IH Hl).
  destruct (fold_right _ h l !! x); [exact IH|]. by rewrite lookup_insert_ne.
Qed.

Lemma firstn_In {A} (x : A) n l : In x (firstn n l) -> In x l.
Proof. intros Hx. rewrite <- (firstn_skipn n l). apply in_app_iff. by left. Qed.

(** A path is not among the directories above it. *)
Lemma chain_parent p : path_parts p <> [] -> ~ In p (path_chain (path_parent p)).
Proof.
  intros Hne Hin. unfold path_chain in Hin. apply in_map_iff in Hin as (n & E & Hn).
  apply (f_equal path_parts) in E. rewrite path_parts_render in E.
  2: { apply List.Forall_forall. intros c Hc%firstn_In. pose proof (path_parts_plain (path_parent p)) as Hf.
       by rewrite List.Forall_forall in Hf; apply Hf. }
  assert (path_parts (path_parent p) = removelast (path_parts p)) as Ep.
  { unfold path_parent. apply path_parts_render. apply List.Forall_forall. intros c Hc.
    pose proof (path_parts_plain p) as Hf. rewrite List.Forall_forall in Hf. apply Hf.
    rewrite (app_removelast_last "" Hne). apply in_app_iff. by left. }
  rewrite Ep in E. pose proof (f_equal (@length string) E) as El. rewrite length_firstn in El.
  pose proof (f_equal (@length string) (app_removelast_last "" Hne)) as Hl. rewrite length_app in Hl. cbn in Hl. lia.
Qed.

(** Nor is a path below a directory among those that make it. *)
Lemma chain_below a x : plain x = true -> ~ In (a // x) (path_chain a).
Proof.
  intros Hx Hin. unfold path_chain in Hin. apply in_map_iff in Hin as (n & E & Hn).
  apply (f_equal path_parts) in E. rewrite path_parts_render, path_parts_plain_join in E by
    (first [done | apply List.Forall_forall; intros c Hc%firstn_In; pose proof (path_parts_plain a) as Hf;
       rewrite List.Forall_forall in Hf; by apply Hf]).
  apply (f_equal (@length string)) in E. rewrite length_firstn, length_app in E. cbn in E. lia.
Qed.

Section Keeping.
Context `{Env}.

(** Subprocesses leave the path alone. *)
Definition run_keeps (p : string) : Prop := forall cs c h, run_host cs c h !! p = h !! p.

Lemma at_state {A} p (m : W A) : quiet state_view m -> quiet (at_path p) m.
Proof. intros Hm w. pose proof (f_equal snd (Hm w) : w_host _ = _) as E. unfold at_path. by rewrite E. Qed.

Lemma at_write p q d : p <> q -> quiet (at_path p) (host_write q d).
Proof.
  intros Hne. unfold host_write. apply quiet_bind; [apply at_state, quiet_fs_op|]. intros _.
  apply quiet_bind; [apply at_state, quiet_host_at|]. intros [[|x]|]; [apply at_state, quiet_os_error|..];
    apply quiet_modify; intros w; by apply lookup_insert_ne.
Qed.

Lemma at_replace p a b : p <> a -> p <> b -> quiet (at_path p) (host_replace a b).
Proof.
  intros Ha Hb. unfold host_replace. apply quiet_bind; [apply at_state, quiet_fs_op|]. intros _.
  apply quiet_bind; [apply at_state, quiet_host_at|]. intros [n|]; [|apply at_state, quiet_os_error].
  apply quiet_modify. intros w. unfold at_path. cbn. rewrite lookup_insert_ne by done. by apply lookup_delete_ne.
Qed.

Lemma at_run p c : run_keeps p -> quiet (at_path p) (run c).
Proof. intros Hk w. apply Hk. Qed.

Lemma at_run_uncaught p c : run_keeps p -> quiet (at_path p) (run_uncaught c).
Proof. intros Hk. apply quiet_bind; [by apply at_run|]. intros []; apply at_state; quiet_step. Qed.

Lemma at_mkdir p q : ~ In p (path_chain q) -> quiet (at_path p) (mkdir_p q).
Proof.
  intros Hp. apply quiet_bind; [apply at_state, quiet_fs_op|]. intros _. apply quiet_modify. intros w.
  by apply mk_dirs_other.
Qed.

Lemma at_rmdir p q : p <> q -> quiet (at_path p) (host_rmdir q).
Proof.
  intros Hne. apply quiet_bind; [apply at_state, quiet_fs_op|]. intros _. apply quiet_modify. intros w.
  by apply lookup_delete_ne.
Qed.

Lemma at_unlink p q : p <> q -> quiet (at_path p) (host_unlink q).
Proof.
  intros Hne. unfold host_unlink. apply quiet_bind; [apply at_state, quiet_fs_op|]. intros _.
  apply quiet_bind; [apply at_state, quiet_host_at|]. intros [[|x]|]; [apply at_state, quiet_os_error| |apply at_state, quiet_os_error].
  apply quiet_modify. intros w. by apply lookup_delete_ne.
Qed.

Lemma at_rmtree p q : under_path q p = false -> quiet (at_path p) (rmtree_quiet q).
Proof.
  intros Hne. unfold rmtree_quiet. apply quiet_catch; [|intros; apply at_state, quiet_ret].
  apply quiet_bind; [apply at_state, quiet_fs_op|]. intros _. apply quiet_modify. intros w.
  unfold at_path, rm_tree. cbn. apply option_eq. intros n. rewrite map_lookup_filter_Some. cbn. intuition.
Qed.

(** The value of a quiet computation's view after it ran. *)
Lemma quiet_at {V A} (v : world -> V) (m : W A) w r w' : quiet v m -> m w = (r, w') -> v w' = v w.
Proof. intros Hq E. specialize (Hq w). by rewrite E in Hq. Qed.
End Keeping.

#[export] Hint Resolve at_write at_replace at_run_uncaught at_mkdir at_rmdir at_unlink at_rmtree : quiet.
#[export] Hint Extern 4 (quiet (at_path _) _) => simple apply at_state : quiet.
