(* ===== verification/RegistrySchema.v ===== *)
(** The opening of the database in [core/registry.py]: the statements that bring the tables of an older version to the present
    ones. A table is its columns, those that must be unique and its rows, whose values stand in the order of the columns;
    types, CHECK and NOT NULL are left out, and a value of a text column is a text or NULL. A connection is the state that its
    statements see and the one that is on disk. Theorems at the end: opening loses nothing, references follow the
    renamed ids, and opening again changes nothing. *)

From S2P Require Import Prelude PyStr PyVal World WorldFacts.
From Stdlib Require Import List.

(** ** Tables and statements *)

Inductive sqlval : Type := SNull | SText (s : string) | SInt (n : Z).
#[export] Instance sqlval_eq_dec : EqDecision sqlval.
Proof. solve_decision. Defined.

Abbreviation row := (list sqlval).
Record table : Type := mkTable { t_cols : list string; t_unique : list string; t_rows : list row }.
Record index : Type := mkIndex { ix_table : string; ix_cols : list string }.
Record schema : Type := mkSchema { s_tables : gmap string table; s_indexes : gmap string index }.

Definition op_error {A} (m : string) : res exn A := Err (PyError "OperationalError" m).

Definition cols_in (t : string) (s : schema) : list string := match s_tables s !! t with Some T => t_cols T | None => [] end.
Definition has_column (c : string) (cols : list string) : bool := existsb (String.eqb c) cols.

(** The position of a column. *)
Fixpoint position (c : string) (cols : list string) : option nat :=
  match cols with [] => None | x :: cols => if c =s x then Some O else option_map S (position c cols) end.

Definition cell (cols : list string) (c : string) (r : row) : sqlval :=
  match position c cols with Some i => nth i r SNull | None => SNull end.

Definition renamed (a b x : string) : string := if x =s a then b else x.

(** [ALTER TABLE old RENAME TO new]; the indexes follow. *)
Definition rename_table (old new : string) (s : schema) : res exn schema :=
  match s_tables s !! old, s_tables s !! new with
  | None, _ => op_error ("no such table: " +:+ old)
  | _, Some _ => op_error ("there is already another table or index with this name: " +:+ new)
  | Some T, None => Ok (mkSchema (<[new := T]> (delete old (s_tables s)))
                          ((fun ix => mkIndex (renamed old new (ix_table ix)) (ix_cols ix)) <$> s_indexes s))
  end.

(** [DROP TABLE]; its indexes go with it. *)
Definition drop_table (t : string) (s : schema) : res exn schema :=
  Ok (mkSchema (delete t (s_tables s)) (base.filter (fun ix => ix_table (snd ix) <> t) (s_indexes s))).

(** A statement on one table. *)
Definition alter_table (t : string) (f : table -> res exn table) (s : schema) : res exn schema :=
  match s_tables s !! t with
  | None => op_error ("no such table: " +:+ t)
  | Some T => T' ← f T; Ok (mkSchema (<[t := T']> (s_tables s)) (s_indexes s))
  end.

Definition column_renamed (old new : string) (T : table) : table :=
  mkTable (map (renamed old new) (t_cols T)) (map (renamed old new) (t_unique T)) (t_rows T).

(** [ALTER TABLE t RENAME COLUMN old TO new]; the indexes follow. *)
Definition rename_column (t old new : string) (s : schema) : res exn schema :=
  s ← alter_table t (fun T => Ok (column_renamed old new T)) s;
  Ok (mkSchema (s_tables s)
        ((fun ix => if ix_table ix =s t then mkIndex t (map (renamed old new) (ix_cols ix)) else ix) <$> s_indexes s)).

(** [ALTER TABLE t ADD COLUMN c ... DEFAULT d]. *)
Definition column_added (c : string) (d : sqlval) (T : table) : table :=
  mkTable (t_cols T ++ [c]) (t_unique T) (map (fun r => r ++ [d]) (t_rows T)).
Definition add_column (t c : string) (d : sqlval) : schema -> res exn schema := alter_table t (fun T => Ok (column_added c d T)).

(** A statement of a script: [CREATE TABLE IF NOT EXISTS], [CREATE INDEX IF NOT EXISTS]. *)
Inductive ddl : Type :=
  | CreateTable (t : string) (cols unique_cols : list string)
  | CreateIndex (i t : string) (cols : list string).

Definition create (d : ddl) (s : schema) : res exn schema :=
  match d with
  | CreateTable t cols u =>
      match s_tables s !! t with
      | Some _ => Ok s
      | None => Ok (mkSchema (<[t := mkTable cols u []]> (s_tables s)) (s_indexes s))
      end
  | CreateIndex i t cols =>
      match s_indexes s !! i with
      | Some _ => Ok s
      | None =>
          match List.find (fun c => negb (has_column c (cols_in t s))) cols with
          | Some c => op_error ("no such column: " +:+ c)
          | None => Ok (mkSchema (s_tables s) (<[i := mkIndex t cols]> (s_indexes s)))
          end
      end
  end.

(** [UPDATE] of one column, in the order of the rows; [f] is [None] for a row that is left. *)
Definition rewrite_value (f : string -> option string) (v : sqlval) : sqlval :=
  match v with SText x => match f x with Some y => SText y | None => v end | v => v end.

Definition rewrite_row (i : nat) (f : string -> option string) (r : row) : row := alter (rewrite_value f) i r.

Fixpoint update_rows (unique_col : bool) (i : nat) (f : string -> option string) (before after : list row) : res exn (list row) :=
  match after with
  | [] => Ok before
  | r :: after =>
      let r' := rewrite_row i f r in
      if unique_col && bool_decide (r' <> r) && existsb (fun q => bool_decide (nth i q SNull = nth i r' SNull)) (before ++ after)
      then Err IntegrityError
      else update_rows unique_col i f (before ++ [r']) after
  end.

Definition column_updated (c : string) (f : string -> option string) (T : table) : res exn table :=
  match position c (t_cols T) with
  | None => op_error ("no such column: " +:+ c)
  | Some i => rows ← update_rows (has_column c (t_unique T)) i f [] (t_rows T); Ok (mkTable (t_cols T) (t_unique T) rows)
  end.
Definition update_column (t c : string) (f : string -> option string) : schema -> res exn schema :=
  alter_table t (column_updated c f).

(** ** The connection *)

(** [saved] is on disk; in a transaction it is behind [cur]. *)
Record conn : Type := mkConn { cur : schema; saved : schema; in_txn : bool }.
Abbreviation C := (M conn exn).

Definition set_cur (s : schema) (c : conn) : conn := mkConn s (if in_txn c then saved c else s) (in_txn c).
Definition commit : C unit := modify (fun c => mkConn (cur c) (cur c) false).

(** A statement that changes no rows commits on its own, unless it is in a transaction. *)
Definition exec (f : schema -> res exn schema) : C unit :=
  fun c => match f (cur c) with Ok s => (Ok tt, set_cur s c) | Err e => (Err e, c) end.

(** An [UPDATE] opens a transaction. *)
Definition exec_update (f : schema -> res exn schema) : C unit :=
  _ ← modify (fun c => mkConn (cur c) (saved c) true); exec f.

Fixpoint each {A} (f : A -> C unit) (l : list A) : C unit := match l with [] => mret tt | a :: l => _ ← f a; each f l end.

Definition executescript (l : list ddl) : C unit := _ ← commit; each (fun d => exec (create d)) l.

Definition table_at (t : string) : C (option table) := gets (fun c => s_tables (cur c) !! t).
(** [PRAGMA table_info]. *)
Definition columns (t : string) : C (list string) := gets (fun c => cols_in t (cur c)).

(** ** The schema *)

Definition SCHEMA : list ddl :=
  [CreateTable "drydocks" ["id"; "name"; "project"; "repo_path"; "worktree_path"; "branch"; "base_ref"; "state"; "container_id";
                           "workspace_subdir"; "image"; "owner"; "created_at"; "updated_at"; "config"] ["id"; "name"];
   CreateTable "events" ["id"; "drydock_id"; "event"; "timestamp"; "data"] ["id"]].

Definition V2_WORKSPACE_COLUMNS : list (string * sqlval) :=
  [("parent_drydock_id", SNull); ("delegatable_firewall_domains", SText "[]"); ("delegatable_secrets", SText "[]");
   ("capabilities", SText "[]"); ("delegatable_storage_scopes", SText "[]"); ("delegatable_provision_scopes", SText "[]");
   ("delegatable_network_reach", SText "[]"); ("network_reach_ports", SText "[]"); ("resources_hard", SText "{}");
   ("pinned_yaml_sha256", SText ""); ("yard_id", SNull)].

Definition V2_TABLES : list ddl :=
  [CreateTable "leases" ["lease_id"; "drydock_id"; "type"; "scope"; "issued_at"; "expiry"; "issuer"; "revoked"; "revocation_reason"]
     ["lease_id"];
   CreateTable "tokens" ["drydock_id"; "token_sha256"; "issued_at"; "rotated_at"] ["drydock_id"];
   CreateTable "task_log" ["request_id"; "method"; "spec_json"; "status"; "outcome_json"; "created_at"; "completed_at"]
     ["request_id"]].

Definition V3_TABLES : list ddl :=
  [CreateTable "deskwatch_events" ["id"; "drydock_id"; "kind"; "name"; "timestamp"; "status"; "detail"] ["id"];
   CreateIndex "idx_deskwatch_lookup" "deskwatch_events" ["drydock_id"; "kind"; "name"; "timestamp"]].

Definition V4_TABLES : list ddl :=
  [CreateTable "yards" ["id"; "name"; "repo_path"; "config"; "created_at"; "updated_at"] ["id"; "name"];
   CreateIndex "idx_drydocks_yard_id" "drydocks" ["yard_id"]].

Definition V5_TABLES : list ddl :=
  [CreateTable "amendments" ["id"; "proposed_by_type"; "proposed_by_id"; "proposed_at"; "yard_id"; "drydock_id"; "kind";
                             "request_json"; "reason"; "tos_notes"; "status"; "reviewed_by"; "reviewed_at"; "review_note";
                             "applied_at"; "expires_at"] ["id"];
   CreateIndex "idx_amendments_status" "amendments" ["status"; "proposed_at"];
   CreateIndex "idx_amendments_drydock" "amendments" ["drydock_id"; "proposed_at"]].

Definition V6_DRYDOCK_COLUMNS : list (string * sqlval) := [("original_resources_hard", SText "{}")].

Definition V7_TABLES : list ddl :=
  [CreateTable "workload_leases" ["id"; "drydock_id"; "spec_json"; "applied_actions_json"; "granted_at"; "expires_at"; "status";
                                  "revoked_at"; "revoke_results_json"] ["id"];
   CreateIndex "idx_workload_leases_active" "workload_leases" ["drydock_id"; "status"; "expires_at"]].

Definition V8_TABLES : list ddl :=
  [CreateTable "migrations" ["id"; "drydock_id"; "plan_json"; "status"; "current_stage"; "snapshot_path"; "created_at";
                             "completed_at"; "error_json"] ["id"];
   CreateIndex "idx_migrations_drydock" "migrations" ["drydock_id"; "created_at"];
   CreateIndex "idx_migrations_active" "migrations" ["status"]].

Definition V9_TOKEN_COLUMNS : list (string * sqlval) := [("scope", SText "dock")].

Definition V10_TABLES : list ddl :=
  [CreateTable "clarifications" ["id"; "drydock_id"; "kind"; "summary"; "evidence_json"; "created_at"; "expires_at"] ["id"];
   CreateIndex "idx_clarifications_active" "clarifications" ["expires_at"; "drydock_id"]].

(** ** The versions *)

(** Add the columns that were not there at the start of the loop. *)
Fixpoint add_missing (t : string) (there : list string) (l : list (string * sqlval)) : C unit :=
  match l with
  | [] => mret tt
  | (c, d) :: l => _ ← (if has_column c there then mret tt else exec (add_column t c d)); add_missing t there l
  end.
Definition add_columns (t : string) (l : list (string * sqlval)) : C unit := there ← columns t; add_missing t there l.

Definition _migrate_to_v2 : C unit := _ ← add_columns "drydocks" V2_WORKSPACE_COLUMNS; executescript V2_TABLES.
Definition _migrate_to_v3 : C unit := executescript V3_TABLES.
Definition _migrate_to_v4 : C unit := executescript V4_TABLES.
Definition _migrate_to_v5 : C unit := executescript V5_TABLES.
Definition _migrate_to_v6 : C unit := add_columns "drydocks" V6_DRYDOCK_COLUMNS.
Definition _migrate_to_v7 : C unit := executescript V7_TABLES.
Definition _migrate_to_v8 : C unit := executescript V8_TABLES.
Definition _migrate_to_v9 : C unit := add_columns "tokens" V9_TOKEN_COLUMNS.
Definition _migrate_to_v10 : C unit := executescript V10_TABLES.

(** A foreign key under an old name gets its new one; the columns are those at the start. *)
Definition rename_key (t : string) (cols : list string) : C unit :=
  if has_column "drydock_id" cols then mret tt
  else if has_column "workspace_id" cols then exec (rename_column t "workspace_id" "drydock_id")
  else if has_column "desk_id" cols then exec (rename_column t "desk_id" "drydock_id")
  else mret tt.

Definition backfill_tables : list string :=
  ["events"; "leases"; "tokens"; "amendments"; "deskwatch_events"; "workload_leases"; "migrations"].

(** For each of the tables that were there at the start. *)
Definition for_tables (names : list string) (tables : list string) (f : string -> C unit) : C unit :=
  each (fun t => if has_column t names then f t else mret tt) tables.

Definition table_names : C (list string) := gets (fun c => map fst (map_to_list (s_tables (cur c)))).

Definition _backfill_drydock_id_columns : C unit :=
  names ← table_names;
  for_tables names backfill_tables (fun t => cols ← columns t; rename_key t cols).

(** ** The vocabulary of the first version *)

Definition fk_tables : list string := ["events"; "leases"; "tokens"; "amendments"; "deskwatch_events"].

(** [LIKE] compares letters of either case. *)
Definition dock_name (x : string) : option string := if startswith (lower x) "ws_" then Some ("dock_" +:+ sdrop 3 x) else None.
Definition event_name (x : string) : option string :=
  if startswith (lower x) "desk." then Some ("drydock." +:+ sdrop 5 x) else None.

Definition rename_keys (t : string) : C unit :=
  cols ← columns t;
  _ ← rename_key t cols;
  if has_column "parent_workspace_id" cols && negb (has_column "parent_drydock_id" cols)
  then exec (rename_column t "parent_workspace_id" "parent_drydock_id") else mret tt.

Definition rename_ids (t : string) : C unit :=
  cols ← columns t;
  _ ← (if has_column "drydock_id" cols then exec_update (update_column t "drydock_id" dock_name) else mret tt);
  if has_column "parent_drydock_id" cols then exec_update (update_column t "parent_drydock_id" dock_name) else mret tt.

Definition text_or (d : string) (v : sqlval) : string := match v with SText t => if is_empty t then d else t | _ => d end.

Definition new_worktree (v : sqlval) : string := py_replace "/worktrees/ws_" "/worktrees/dock_" (text_or "" v).
Definition new_config (v : sqlval) : string :=
  py_replace "/worktrees/ws_" "/worktrees/dock_"
    (py_replace "/secrets/ws_" "/secrets/dock_" (py_replace "/overlays/ws_" "/overlays/dock_" (text_or "{}" v))).

Definition set_cell (cols : list string) (c : string) (v : sqlval) (r : row) : row :=
  match position c cols with Some i => alter (fun _ => v) i r | None => r end.

(** [UPDATE drydocks SET worktree_path = ?, config = ? WHERE id = ?]; no row has the id NULL. *)
Definition paths_set (wt cfg : string) (i : sqlval) (T : table) : table :=
  mkTable (t_cols T) (t_unique T)
    (map (fun r => if bool_decide (i <> SNull /\ cell (t_cols T) "id" r = i)
                   then set_cell (t_cols T) "config" (SText cfg) (set_cell (t_cols T) "worktree_path" (SText wt) r) else r) (t_rows T)).
Definition set_paths (wt cfg : string) (i : sqlval) : schema -> res exn schema :=
  alter_table "drydocks" (fun T => Ok (paths_set wt cfg i T)).

(** One row as it was read. *)
Definition rewrite_paths (read : sqlval * sqlval * sqlval) : C unit :=
  let '(i, wt, cfg) := read in
  let new_wt := new_worktree wt in
  let new_cfg := new_config cfg in
  if bool_decide (SText new_wt <> wt) || negb (new_cfg =s text_or "{}" cfg) then exec_update (set_paths new_wt new_cfg i) else mret tt.

Definition read_paths : C (list (sqlval * sqlval * sqlval)) :=
  T ← table_at "drydocks";
  match T with
  | None => lift (op_error "no such table: drydocks")
  | Some T =>
      match List.find (fun c => negb (has_column c (t_cols T))) ["id"; "worktree_path"; "config"] with
      | Some c => lift (op_error ("no such column: " +:+ c))
      | None => mret (map (fun r => (cell (t_cols T) "id" r, cell (t_cols T) "worktree_path" r, cell (t_cols T) "config" r)) (t_rows T))
      end
  end.

(** The index on yards under its new name, unless the column is not there yet. *)
Definition rename_yard_index : C unit :=
  existing ← gets (fun c => map fst (map_to_list (s_indexes (cur c))));
  _ ← (if has_column "idx_workspaces_yard_id" existing
       then exec (fun s => Ok (mkSchema (s_tables s) (delete "idx_workspaces_yard_id" (s_indexes s)))) else mret tt);
  if has_column "idx_drydocks_yard_id" existing then mret tt
  else catch (exec (create (CreateIndex "idx_drydocks_yard_id" "drydocks" ["yard_id"])))
         (fun e => if exn_class e =s "OperationalError" then mret tt else throw e).

(** An empty table of the new name is left by an earlier attempt. *)
Definition clear_drydocks : C unit :=
  T ← table_at "drydocks";
  match T with
  | None => mret tt
  | Some T => match t_rows T with
              | [] => exec (drop_table "drydocks")
              | _ => throw (PyError "RuntimeError"
                              ("Both 'workspaces' and 'drydocks' tables hold rows; manual reconciliation needed before vocab "
                               +:+ "migration can proceed."))
              end
  end.

Definition rename_parent : C unit :=
  cols ← columns "drydocks";
  if has_column "parent_workspace_id" cols && negb (has_column "parent_drydock_id" cols)
  then exec (rename_column "drydocks" "parent_workspace_id" "parent_drydock_id") else mret tt.

Definition rename_parent_ids : C unit :=
  cols ← columns "drydocks";
  if has_column "parent_drydock_id" cols then exec_update (update_column "drydocks" "parent_drydock_id" dock_name) else mret tt.

Definition _migrate_v1_vocab_to_drydock : C unit :=
  tables ← table_names;
  if negb (has_column "workspaces" tables) then mret tt
  else
    _ ← clear_drydocks;
    _ ← exec (rename_table "workspaces" "drydocks");
    _ ← for_tables tables fk_tables rename_keys;
    _ ← rename_parent;
    _ ← exec_update (update_column "drydocks" "id" dock_name);
    _ ← for_tables tables fk_tables rename_ids;
    _ ← rename_parent_ids;
    _ ← (if has_column "events" tables then exec_update (update_column "events" "event" event_name) else mret tt);
    rows ← read_paths;
    _ ← each rewrite_paths rows;
    rename_yard_index.

Definition _migrate : C unit :=
  _ ← _migrate_v1_vocab_to_drydock;
  _ ← executescript SCHEMA;
  _ ← _migrate_to_v2; _ ← _migrate_to_v3; _ ← _migrate_to_v4; _ ← _migrate_to_v5; _ ← _migrate_to_v6;
  _ ← _migrate_to_v7; _ ← _migrate_to_v8; _ ← _migrate_to_v9; _ ← _migrate_to_v10;
  _ ← _backfill_drydock_id_columns;
  commit.

(** The outcome of opening a database, and what is on disk then: what was not committed is lost. *)
Definition open_database (s : schema) : res exn unit * schema :=
  let '(r, c) := _migrate (mkConn s s false) in (r, saved c).

(** The file that is opened; the directories it is in are made. *)
Definition open_path `{Env} (db_path : option string) : W string :=
  path ← (match db_path with
          | Some p => mret (path_str p)
          | None =>
              match environ "DRYDOCK_DAEMON_REGISTRY" with
              | Some v => if is_empty v then _ ← mkdir_p (home // ".drydock"); mret (home // ".drydock" // "registry.db")
                          else mret (path_str v)
              | None => _ ← mkdir_p (home // ".drydock"); mret (home // ".drydock" // "registry.db")
              end
          end);
  _ ← mkdir_p (path_parent path);
  mret path.

(** * Theorems *)

Lemma has_column_spec c cols : has_column c cols = true <-> In c cols.
Proof.
  unfold has_column. rewrite existsb_exists. split.
  - by intros (x & Hx & ->%String.eqb_eq).
  - intros Hc. exists c. by rewrite String.eqb_refl.
Qed.

Lemma has_column_false c cols : has_column c cols = false <-> ~ In c cols.
Proof. rewrite <- has_column_spec. by destruct (has_column c cols). Qed.

Lemma names_spec {A} (m : gmap string A) t : has_column t (map fst (map_to_list m)) = true <-> is_Some (m !! t).
Proof.
  rewrite has_column_spec, in_map_iff. split.
  - intros ((k & a) & <- & Ha). apply list_elem_of_In, elem_of_map_to_list in Ha. by eexists.
  - intros [a Ha]. exists (t, a). split; [done|]. by apply list_elem_of_In, elem_of_map_to_list.
Qed.

(** ** What a statement keeps *)

Definition key_aliases : list string := ["workspace_id"; "desk_id"].
Definition same_column (c c' : string) : Prop := c' = c \/ (In c key_aliases /\ c' = "drydock_id").

(** The table has more columns, at the end, and the keys their new name; the values are as they were. *)
Definition carried (T T' : table) : Prop :=
  exists old new ds, t_cols T' = old ++ new /\ Forall2 same_column (t_cols T) old /\ length new = length ds
    /\ t_rows T' = map (fun r => r ++ ds) (t_rows T).

Lemma carried_refl T : carried T T.
Proof.
  exists (t_cols T), [], []. rewrite app_nil_r. split_and!; [done| |done|].
  - induction (t_cols T); constructor; [by left|done].
  - rewrite <- (map_id (t_rows T)) at 1. apply map_ext. intros r. by rewrite app_nil_r.
Qed.

Lemma same_column_trans a b c : same_column a b -> same_column b c -> same_column a c.
Proof.
  intros [->|[Ha ->]] [->|[Hb ->]]; [by left|by right|by right|]. exfalso. by destruct Hb as [?|[?|[]]].
Qed.

Lemma carried_trans T1 T2 T3 : carried T1 T2 -> carried T2 T3 -> carried T1 T3.
Proof.
  intros (o1 & n1 & d1 & C1 & F1 & L1 & R1) (o2 & n2 & d2 & C2 & F2 & L2 & R2).
  rewrite C1 in F2. apply Forall2_app_inv_l in F2 as (o & n & Fo & Fn & ->).
  exists o, (n ++ n2), (d1 ++ d2). split_and!.
  - by rewrite C2, app_assoc.
  - clear - F1 Fo. revert o Fo. induction F1 as [|a b la lb Hab _ IH]; intros o Fo; inversion Fo; subst; constructor;
      [by eapply same_column_trans|by apply IH].
  - apply Forall2_length in Fn. rewrite !length_app. lia.
  - rewrite R2, R1, map_map. apply map_ext. intros r. by rewrite app_assoc.
Qed.

Lemma carried_column T T' c : carried T T' -> In c (t_cols T) -> ~ In c key_aliases -> In c (t_cols T').
Proof.
  intros (old & new & ds & -> & Hf & _) Hc Hn. apply in_app_iff. left.
  induction Hf as [|a b la lb Hab _ IH]; [done|]. destruct Hc as [->|Hc]; [left|right; by apply IH].
  by destruct Hab as [->|[Ha _]].
Qed.

Definition has_col (t c : string) (s : schema) : Prop := exists T, s_tables s !! t = Some T /\ In c (t_cols T).

Record grown (s s' : schema) : Prop := {
  gr_tables : forall t T, s_tables s !! t = Some T -> exists T', s_tables s' !! t = Some T' /\ carried T T';
  gr_indexes : forall i, is_Some (s_indexes s !! i) -> is_Some (s_indexes s' !! i)
}.

#[export] Instance grown_preorder : PreOrder grown.
Proof.
  split.
  - intros s. split; [|done]. intros t T HT. exists T. split; [done|apply carried_refl].
  - intros s1 s2 s3 [T1 I1] [T2 I2]. split; [|auto]. intros t T HT.
    destruct (T1 _ _ HT) as (T' & HT' & C1), (T2 _ _ HT') as (T'' & HT'' & C2). exists T''. split; [done|by eapply carried_trans].
Qed.

Lemma grown_col t c s s' : grown s s' -> ~ In c key_aliases -> has_col t c s -> has_col t c s'.
Proof.
  intros [Ht _] Hn (T & HT & Hc). destruct (Ht _ _ HT) as (T' & HT' & Hk). exists T'. split; [done|by eapply carried_column].
Qed.

Lemma grown_alter t f s s' : alter_table t f s = Ok s' -> (forall T T', f T = Ok T' -> carried T T') -> grown s s'.
Proof.
  unfold alter_table. destruct (s_tables s !! t) as [T|] eqn:HT; [|done]. destruct (f T) as [T'|] eqn:Hf; [|done].
  intros [= <-] Hc. split; [|done]. intros u U HU. cbn. destruct (decide (t = u)) as [<-|Hne].
  - rewrite lookup_insert_eq. exists T'. split; [done|]. rewrite HT in HU. injection HU as ->. by apply Hc.
  - rewrite lookup_insert_ne by done. exists U. split; [done|apply carried_refl].
Qed.

Lemma grown_rename t old s s' : In old key_aliases -> rename_column t old "drydock_id" s = Ok s' -> grown s s'.
Proof.
  intros Ho E. unfold rename_column in E. destruct (alter_table _ _ s) as [s1|] eqn:E1; [|done].
  injection E as <-. apply grown_alter in E1.
  - split; [exact (gr_tables _ _ E1)|]. intros i Hi. apply (gr_indexes _ _ E1) in Hi as [ix Hi]. cbn. rewrite lookup_fmap, Hi. by eexists.
  - intros T T' [= <-]. exists (map (renamed old "drydock_id") (t_cols T)), [], []. cbn. rewrite app_nil_r. split_and!; [done| |done|].
    + induction (t_cols T) as [|c cs IH]; constructor; [|done]. unfold renamed. destruct (String.eqb_spec c old) as [->|]; [by right|by left].
    + rewrite <- (map_id (t_rows T)) at 1. apply map_ext. intros r. by rewrite app_nil_r.
Qed.

Lemma grown_add t c d s s' : add_column t c d s = Ok s' -> grown s s'.
Proof.
  intros E. apply grown_alter in E; [done|]. intros T T' [= <-]. exists (t_cols T), [c], [d]. split_and!; [done| |done|done].
  induction (t_cols T); constructor; [by left|done].
Qed.

Lemma grown_create d s s' : create d s = Ok s' -> grown s s'.
Proof.
  destruct d as [t cols u|i t cols]; cbn.
  - destruct (s_tables s !! t) eqn:HT; intros [= <-]; [done|]. split; [|done]. intros v V HV. exists V. cbn.
    rewrite lookup_insert_ne by congruence. split; [done|apply carried_refl].
  - destruct (s_indexes s !! i) eqn:HI; [by intros [= <-]|]. destruct (List.find _ _); [done|]. intros [= <-]. split.
    + intros v V HV. exists V. split; [done|apply carried_refl].
    + intros j Hj. cbn. destruct (decide (i = j)) as [<-|]; [rewrite lookup_insert_eq|rewrite lookup_insert_ne by done]; eauto.
Qed.

(** ** Loss *)

(** What is seen and what is on disk both grow. *)
Definition keeps (c c' : conn) : Prop :=
  grown (cur c) (cur c') /\ (grown (saved c) (cur c) -> grown (saved c) (saved c') /\ grown (saved c') (cur c')).

#[export] Instance keeps_preorder : PreOrder keeps.
Proof.
  split.
  - intros c. by split.
  - intros c1 c2 c3 [G1 S1] [G2 S2]. split; [by etrans|]. intros Hc. destruct (S1 Hc) as [A B], (S2 B) as [A' B'].
    split; [by etrans|done].
Qed.

Lemma keeps_exec f : (forall s s', f s = Ok s' -> grown s s') -> moves keeps (exec f).
Proof.
  intros Hf c. unfold exec. destruct (f (cur c)) as [s|] eqn:E; [|done]. apply Hf in E. split; [done|]. cbn. intros Hc.
  destruct (in_txn c); split; try done; by etrans.
Qed.

Lemma keeps_commit : moves keeps commit.
Proof. intros c. by split. Qed.

Lemma keeps_each {A} (f : A -> C unit) l : (forall a, moves keeps (f a)) -> moves keeps (each f l).
Proof. intros Hf. induction l as [|a l IH]; cbn; moves_step. Qed.

#[local] Hint Resolve keeps_commit keeps_exec grown_create grown_add : moves.

Lemma keeps_script l : moves keeps (executescript l).
Proof. unfold executescript. apply moves_bind; [typeclasses eauto|apply keeps_commit|]. intros _. apply keeps_each. moves_step. Qed.

Lemma keeps_missing t there l : moves keeps (add_missing t there l).
Proof.
  induction l as [|[c d] l IH]; cbn; [moves_step|]. apply moves_bind; [typeclasses eauto| |intros _; exact IH].
  destruct (has_column c there); [moves_step|]. apply keeps_exec. apply grown_add.
Qed.

Lemma keeps_columns t l : moves keeps (add_columns t l).
Proof. unfold add_columns, columns. apply moves_bind; [typeclasses eauto|moves_step|]. intros cs. apply keeps_missing. Qed.

Lemma keeps_key t cols : moves keeps (rename_key t cols).
Proof.
  unfold rename_key. destruct (has_column "drydock_id" cols); [moves_step|].
  destruct (has_column "workspace_id" cols); [|destruct (has_column "desk_id" cols); [|moves_step]];
    apply keeps_exec; intros s s'; apply grown_rename; cbn; auto.
Qed.

Lemma keeps_backfill : moves keeps _backfill_drydock_id_columns.
Proof.
  unfold _backfill_drydock_id_columns, table_names, for_tables, columns. apply moves_bind; [typeclasses eauto|moves_step|]. intros names.
  apply keeps_each. intros t. destruct (has_column t names); [|moves_step].
  apply moves_bind; [typeclasses eauto|moves_step|]. intros cols. apply keeps_key.
Qed.

#[local] Hint Resolve keeps_script keeps_columns keeps_backfill : moves.

(** What follows the vocabulary of the first version. *)
Definition upgrade_tables : C unit :=
  _ ← executescript SCHEMA;
  _ ← _migrate_to_v2; _ ← _migrate_to_v3; _ ← _migrate_to_v4; _ ← _migrate_to_v5; _ ← _migrate_to_v6;
  _ ← _migrate_to_v7; _ ← _migrate_to_v8; _ ← _migrate_to_v9; _ ← _migrate_to_v10;
  _ ← _backfill_drydock_id_columns;
  commit.

Lemma migrate_split c : _migrate c = (_ ← _migrate_v1_vocab_to_drydock; upgrade_tables) c.
Proof. done. Qed.

Lemma keeps_upgrade : moves keeps upgrade_tables.
Proof.
  unfold upgrade_tables, _migrate_to_v2, _migrate_to_v3, _migrate_to_v4, _migrate_to_v5, _migrate_to_v6, _migrate_to_v7,
    _migrate_to_v8, _migrate_to_v9, _migrate_to_v10. moves_step.
Qed.

Lemma vocab_absent c : s_tables (cur c) !! "workspaces" = None -> _migrate_v1_vocab_to_drydock c = (Ok tt, c).
Proof.
  intros Hn. unfold _migrate_v1_vocab_to_drydock, table_names. rewrite gets_bind.
  destruct (has_column "workspaces" _) eqn:E; [|done]. apply names_spec in E as [T HT]. congruence.
Qed.

(** C13: However the opening of a database that has no table of the first version ends, every table on disk still has all its rows,
    with their values in the same order; what is new are columns at the end, with their default in every row, and the
    name [drydock_id] of a key column. *)
Theorem opening_loses_nothing s : s_tables s !! "workspaces" = None ->
  forall t T, s_tables s !! t = Some T -> exists T', s_tables (snd (open_database s)) !! t = Some T' /\ carried T T'.
Proof.
  intros Hn t T HT. unfold open_database. pose proof (keeps_upgrade (mkConn s s false)) as [_ Hs].
  rewrite migrate_split, (bind_ok _ _ _ _ _ (vocab_absent (mkConn s s false) Hn)).
  destruct (upgrade_tables _) as [r c]. destruct (Hs (reflexivity _)) as [Hg _]. exact (gr_tables _ _ Hg t T HT).
Qed.

(** ** Opening again *)

(** On disk is what is seen. *)
Definition settled (c : conn) : Prop := saved c = cur c /\ in_txn c = false.

(** [m] ends in [D], which later statements keep, and does nothing where [D] holds. *)
Record reaches (D : schema -> Prop) (m : C unit) : Prop := {
  re_ends : forall c c', m c = (Ok tt, c') -> D (cur c');
  re_again : forall c, settled c -> D (cur c) -> m c = (Ok tt, c)
}.

Definition monotone (D : schema -> Prop) : Prop := forall s s', grown s s' -> D s -> D s'.

Lemma reaches_then D1 D2 m1 m2 : monotone D1 -> reaches D1 m1 -> reaches D2 m2 -> moves keeps m2 ->
  reaches (fun s => D1 s /\ D2 s) (_ ← m1; m2).
Proof.
  intros Hm [E1 A1] [E2 A2] Hk. split.
  - intros c c' E. apply bind_inv in E as [([] & c1 & Ea & E)|(e & _ & [=])]. split; [|by apply (E2 c1)].
    specialize (Hk c1). rewrite E in Hk. apply (Hm _ _ (proj1 Hk)). by apply (E1 c).
  - intros c Hc [H1 H2]. rewrite (bind_ok _ _ _ _ _ (A1 c Hc H1)). by apply A2.
Qed.

Lemma exec_settled f c : f (cur c) = Ok (cur c) -> settled c -> exec f c = (Ok tt, c).
Proof. intros Hf [Hs Ht]. unfold exec, set_cur. rewrite Hf, Ht. destruct c as [u v b]; cbn in *. by subst. Qed.

Lemma commit_settled c : settled c -> commit c = (Ok tt, c).
Proof. intros [Hs Ht]. unfold commit, modify. destruct c as [u v b]; cbn in *. by subst. Qed.

Lemma reaches_commit : reaches (fun _ => True) commit.
Proof. split; [done|]. intros c Hc _. by apply commit_settled. Qed.

(** What a statement of a script leaves. *)
Definition created (d : ddl) (s : schema) : Prop :=
  match d with CreateTable t _ _ => is_Some (s_tables s !! t) | CreateIndex i _ _ => is_Some (s_indexes s !! i) end.

Lemma created_monotone d : monotone (created d).
Proof.
  intros s s' [Ht Hi] Hc. destruct d as [t cols u|i t cols]; cbn in *; [|by apply Hi].
  destruct Hc as [T HT]. destruct (Ht _ _ HT) as (T' & HT' & _). by exists T'.
Qed.

Lemma reaches_create d : reaches (created d) (exec (create d)).
Proof.
  split.
  - intros c c'. unfold exec. destruct (create d (cur c)) as [s|] eqn:E; [|done]. intros [= <-]. cbn.
    destruct d as [t cols u|i t cols]; cbn in *.
    + destruct (s_tables (cur c) !! t) eqn:HT; injection E as <-; [by eexists|]. cbn. rewrite lookup_insert_eq. by eexists.
    + destruct (s_indexes (cur c) !! i) eqn:HI; [injection E as <-; by eexists|]. destruct (List.find _ _); [done|].
      injection E as <-. cbn. rewrite lookup_insert_eq. by eexists.
  - intros c Hs Hc. apply exec_settled; [|done]. destruct d as [t cols u|i t cols]; cbn in *; destruct Hc as [x ->]; done.
Qed.

Definition all_created (l : list ddl) (s : schema) : Prop := Forall (fun d => created d s) l.

Lemma all_created_monotone l : monotone (all_created l).
Proof. intros s s' Hg Hl. induction Hl as [|d l Hd _ IH]; constructor; [by eapply created_monotone|done]. Qed.

Lemma reaches_each l : reaches (all_created l) (each (fun d => exec (create d)) l).
Proof.
  induction l as [|d l IH]; [split; [constructor|done]|].
  destruct (reaches_then _ _ _ _ (created_monotone d) (reaches_create d) IH) as [E A].
  - apply keeps_each. intros x. apply keeps_exec. apply grown_create.
  - split; [intros c c' H; apply E in H as []; by constructor|]. intros c Hc Hl. inversion Hl; subst. by apply A.
Qed.

Lemma reaches_script l : reaches (all_created l) (executescript l).
Proof.
  destruct (reaches_each l) as [E A]. split.
  - intros c c' H. unfold executescript, commit in H. rewrite modify_bind in H. by apply E in H.
  - intros c Hc Hl. unfold executescript. rewrite (bind_ok _ _ _ _ _ (commit_settled c Hc)). by apply A.
Qed.

(** The columns of a version are there. *)
Definition all_added (t : string) (l : list (string * sqlval)) (s : schema) : Prop := Forall (fun cd => has_col t (fst cd) s) l.
Definition plain_columns (l : list (string * sqlval)) : Prop := Forall (fun cd => ~ In (fst cd) key_aliases) l.

Lemma has_col_in t c s : has_col t c s <-> In c (cols_in t s).
Proof.
  unfold has_col, cols_in. split; [by intros (T & -> & Hc)|]. destruct (s_tables s !! t) as [T|]; [by exists T|done].
Qed.

Lemma all_added_monotone t l : plain_columns l -> monotone (all_added t l).
Proof.
  intros Hp s s' Hg. unfold all_added. rewrite !List.Forall_forall. intros Hl cd Hi. eapply grown_col; [done| |by apply Hl].
  unfold plain_columns in Hp. rewrite List.Forall_forall in Hp. by apply Hp.
Qed.

Lemma add_missing_ends t there l c c' : plain_columns l ->
  (forall x, In x there -> ~ In x key_aliases -> has_col t x (cur c)) -> add_missing t there l c = (Ok tt, c') -> all_added t l (cur c').
Proof.
  intros Hp. revert c. induction Hp as [|[x d] l Hx Hp IH]; intros c Ht E; [constructor|]. cbn [add_missing] in E.
  apply bind_inv in E as [([] & c1 & E1 & E)|(e & _ & [=])].
  assert (grown (cur c) (cur c1) /\ has_col t x (cur c1)) as [Hg Hc1].
  { destruct (has_column x there) eqn:Hi.
    - injection E1 as <-. split; [done|]. apply Ht; [by apply has_column_spec|done].
    - unfold exec in E1. destruct (add_column t x d (cur c)) as [s|] eqn:Ea; [|done]. injection E1 as <-. cbn.
      split; [by eapply grown_add|]. unfold add_column, alter_table in Ea. destruct (s_tables (cur c) !! t) as [T|]; [|done].
      injection Ea as <-. eexists. cbn. rewrite lookup_insert_eq. split; [done|]. cbn. apply in_app_iff. right. by left. }
  constructor.
  - pose proof (keeps_missing t there l c1) as [Hg2 _]. rewrite E in Hg2. by eapply grown_col.
  - apply (IH c1); [|done]. intros y Hy Hn. eapply grown_col; [exact Hg|done|by apply Ht].
Qed.

Lemma reaches_columns t l : plain_columns l -> reaches (all_added t l) (add_columns t l).
Proof.
  intros Hp. split.
  - intros c c' E. unfold add_columns, columns in E. rewrite gets_bind in E. apply add_missing_ends in E; [done..|].
    intros x Hx _. by apply has_col_in.
  - intros c _ Hl. unfold add_columns, columns. rewrite gets_bind. unfold all_added in Hl.
    assert (Forall (fun cd => In (fst cd) (cols_in t (cur c))) l) as Hf.
    { rewrite List.Forall_forall in *. intros cd Hcd. by apply has_col_in, Hl. }
    clear Hl Hp. induction Hf as [|[x d] l Hx _ IH]; [done|]. cbn [add_missing]. apply has_column_spec in Hx. cbn in Hx. by rewrite Hx.
Qed.

(** The keys of a table have their new name, if it has any. *)
Definition keyed (t : string) (s : schema) : Prop :=
  In "drydock_id" (cols_in t s) \/ (~ In "workspace_id" (cols_in t s) /\ ~ In "desk_id" (cols_in t s)).

Lemma rename_key_other t u cols c c' : u <> t -> rename_key t cols c = (Ok tt, c') -> s_tables (cur c') !! u = s_tables (cur c) !! u.
Proof.
  intros Hu. unfold rename_key. assert (forall old, exec (rename_column t old "drydock_id") c = (Ok tt, c') ->
    s_tables (cur c') !! u = s_tables (cur c) !! u) as Hr.
  { intros old. unfold exec, rename_column, alter_table. destruct (s_tables (cur c) !! t); [|done]. intros [= <-]. cbn.
    by rewrite lookup_insert_ne. }
  destruct (has_column "drydock_id" cols); [by intros [= <-]|].
  destruct (has_column "workspace_id" cols); [apply Hr|]. destruct (has_column "desk_id" cols); [apply Hr|by intros [= <-]].
Qed.

Lemma renamed_in old new cols : In old cols -> In new (map (renamed old new) cols).
Proof. intros Ho. apply in_map_iff. exists old. unfold renamed. by rewrite String.eqb_refl. Qed.

Lemma rename_key_keyed t c c' : rename_key t (cols_in t (cur c)) c = (Ok tt, c') -> keyed t (cur c').
Proof.
  unfold rename_key, keyed. destruct (has_column "drydock_id" _) eqn:Ed; [intros [= <-]; left; by apply has_column_spec|].
  assert (forall old, In old (cols_in t (cur c)) -> exec (rename_column t old "drydock_id") c = (Ok tt, c') ->
    In "drydock_id" (cols_in t (cur c'))) as Hr.
  { intros old. unfold exec, rename_column, alter_table, cols_in. destruct (s_tables (cur c) !! t) as [T|]; [|done].
    intros Ho [= <-]. cbn. rewrite lookup_insert_eq. by apply renamed_in. }
  destruct (has_column "workspace_id" _) eqn:Ew; [intros E; left; eapply Hr; [by apply has_column_spec|done]|].
  destruct (has_column "desk_id" _) eqn:Ek; [intros E; left; eapply Hr; [by apply has_column_spec|done]|].
  intros [= <-]. right. by rewrite <- !has_column_false.
Qed.

Lemma rename_key_done t c : keyed t (cur c) -> rename_key t (cols_in t (cur c)) c = (Ok tt, c).
Proof.
  unfold rename_key. intros [Hk%has_column_spec|[Hw%has_column_false Hd%has_column_false]]; [by rewrite Hk|].
  rewrite Hw, Hd. destruct (has_column "drydock_id" (cols_in t (cur c))); reflexivity.
Qed.

Definition backfill_step (t : string) : C unit := cols ← columns t; rename_key t cols.

Lemma backfill_step_eq t c : backfill_step t c = rename_key t (cols_in t (cur c)) c.
Proof. done. Qed.

Lemma keyed_same t s s' : s_tables s' !! t = s_tables s !! t -> keyed t s -> keyed t s'.
Proof. unfold keyed, cols_in. by intros ->. Qed.

Lemma for_tables_keyed names l c c' : NoDup l ->
  (forall t, is_Some (s_tables (cur c) !! t) -> has_column t names = true) ->
  for_tables names l backfill_step c = (Ok tt, c') ->
  Forall (fun t => keyed t (cur c')) l /\ forall u, ~ In u l -> s_tables (cur c') !! u = s_tables (cur c) !! u.
Proof.
  intros Hnd. revert c. induction Hnd as [|t l Hn _ IH]; intros c Hnames E; [by injection E as <-|].
  unfold for_tables in E. cbn [each] in E. apply bind_inv in E as [([] & c1 & E1 & E)|(e & _ & [=])].
  assert ((forall u, u <> t -> s_tables (cur c1) !! u = s_tables (cur c) !! u) /\ keyed t (cur c1)
          /\ (is_Some (s_tables (cur c1) !! t) -> is_Some (s_tables (cur c) !! t))) as (Ho & Hk & Hd).
  { destruct (has_column t names) eqn:Ht.
    - rewrite backfill_step_eq in E1. split_and!; [by intros u Hu; eapply rename_key_other|by eapply rename_key_keyed|].
      intros Hs. destruct (s_tables (cur c) !! t) as [T|] eqn:HT; [by eexists|]. unfold rename_key, cols_in in E1. rewrite HT in E1.
      cbn in E1. injection E1 as <-. by rewrite HT in Hs.
    - injection E1 as <-. split_and!; [done| |done]. right. unfold cols_in. destruct (s_tables (cur c) !! t) eqn:HT; [|split; intros []].
      rewrite Hnames in Ht; [done|by eexists]. }
  destruct (IH c1) as [Hl Hu]; [| exact E |].
  - intros u Hsome. apply Hnames. destruct (decide (u = t)) as [->|Hne]; [by apply Hd|by rewrite <- Ho].
  - split.
    + constructor; [|done]. eapply keyed_same; [by apply Hu|done].
    + intros u Hin. cbn in Hin. rewrite Hu by tauto. apply Ho. intros ->. tauto.
Qed.

Definition all_keyed (s : schema) : Prop := Forall (fun t => keyed t s) backfill_tables.

Lemma backfill_tables_nodup : NoDup backfill_tables.
Proof. repeat constructor; cbn; intuition discriminate. Qed.

Lemma reaches_backfill : reaches all_keyed (_ ← _backfill_drydock_id_columns; commit).
Proof.
  assert (forall names l c, (forall t, In t l -> keyed t (cur c)) -> for_tables names l backfill_step c = (Ok tt, c)) as Hagain.
  { intros names l c. induction l as [|t l IH]; intros Hl; [done|]. unfold for_tables. cbn [each].
    assert ((if has_column t names then backfill_step t else mret tt) c = (Ok tt, c)) as E.
    { destruct (has_column t names); [|done]. rewrite backfill_step_eq. apply rename_key_done, Hl. by left. }
    rewrite (bind_ok _ _ _ _ _ E). apply IH. intros u Hu. apply Hl. by right. }
  split.
  - intros c c' E. apply bind_inv in E as [([] & c1 & E1 & E)|(e & _ & [=])]. injection E as <-. cbn.
    unfold _backfill_drydock_id_columns, table_names in E1. rewrite gets_bind in E1.
    apply (for_tables_keyed _ _ c c1) in E1 as [Hk _]; [done|apply backfill_tables_nodup|].
    intros t Ht. by apply names_spec.
  - intros c Hc Hk. unfold _backfill_drydock_id_columns, table_names. rewrite bind_bind, gets_bind.
    assert (forall t, In t backfill_tables -> keyed t (cur c)) as Hl by (by apply List.Forall_forall).
    match goal with |- context[for_tables ?n] => rewrite (bind_ok _ _ _ _ _ (Hagain n backfill_tables c Hl)) end.
    by apply commit_settled.
Qed.

(** No statement makes a table of the first version. *)
Definition absent (c : conn) : Prop := s_tables (cur c) !! "workspaces" = None.

Lemma absent_exec f : (forall s s', f s = Ok s' -> s_tables s !! "workspaces" = None -> s_tables s' !! "workspaces" = None) ->
  preserves absent (exec f).
Proof. intros Hf c Hc. unfold exec. destruct (f (cur c)) as [s|] eqn:E; [|done]. by eapply Hf. Qed.

Lemma absent_alter t f s s' : alter_table t f s = Ok s' -> s_tables s !! "workspaces" = None -> s_tables s' !! "workspaces" = None.
Proof.
  unfold alter_table. destruct (s_tables s !! t) as [T|] eqn:HT; [|done]. destruct (f T); [|done]. intros [= <-] Hn. cbn.
  rewrite lookup_insert_ne; [done|]. congruence.
Qed.

Lemma absent_rename t old new : preserves absent (exec (rename_column t old new)).
Proof.
  apply absent_exec. intros s s' E. unfold rename_column in E. destruct (alter_table _ _ s) as [s1|] eqn:E1; [|done].
  injection E as <-. exact (absent_alter _ _ _ _ E1).
Qed.

Lemma absent_update t c f : preserves absent (exec_update (update_column t c f)).
Proof.
  unfold exec_update. apply preserves_bind; [by apply preserves_modify|]. intros _. apply absent_exec. intros s s'. apply absent_alter.
Qed.

Lemma absent_each {A} (f : A -> C unit) l : (forall a, In a l -> preserves absent (f a)) -> preserves absent (each f l).
Proof.
  induction l as [|a l IH]; intros Hf; [apply preserves_ret|]. cbn. apply preserves_bind; [apply Hf; by left|].
  intros _. apply IH. intros x Hx. apply Hf. by right.
Qed.

Definition other_table (d : ddl) : Prop := match d with CreateTable t _ _ => t <> "workspaces" | CreateIndex _ _ _ => True end.

Lemma absent_create d : other_table d -> preserves absent (exec (create d)).
Proof.
  intros Hd. apply absent_exec. intros s s'. destruct d as [t cols u|i t cols]; cbn in *.
  - destruct (s_tables s !! t); intros [= <-]; [done|]. cbn. by rewrite lookup_insert_ne.
  - destruct (s_indexes s !! i); [by intros [= <-]|]. destruct (List.find _ _); [done|]. by intros [= <-].
Qed.

Lemma absent_script l : Forall other_table l -> preserves absent (executescript l).
Proof.
  intros Hl. unfold executescript. apply preserves_bind; [by intros c Hc|]. intros _. apply absent_each. intros d Hd.
  apply absent_create. rewrite List.Forall_forall in Hl. by apply Hl.
Qed.

Lemma absent_columns t l : preserves absent (add_columns t l).
Proof.
  unfold add_columns, columns. apply preserves_bind; [apply preserves_gets|]. intros there.
  induction l as [|[c d] l IH]; [apply preserves_ret|]. cbn. apply preserves_bind; [|intros _; exact IH].
  destruct (has_column c there); [apply preserves_ret|]. apply absent_exec. intros s s'. apply absent_alter.
Qed.

Lemma absent_key t cols : preserves absent (rename_key t cols).
Proof. unfold rename_key. repeat case_goal; try apply preserves_ret; apply absent_rename. Qed.

Create HintDb absent.
#[local] Hint Resolve preserves_ret preserves_gets preserves_lift absent_rename absent_update absent_key absent_columns : absent.

(** Step through a computation that makes no table of the first version. *)
Ltac absent_step :=
  repeat first
    [ solve [eauto with absent nocore]
    | match goal with
      | |- preserves _ (mbind _ _) => apply preserves_bind; [|intros ?]
      | |- preserves _ (catch _ _) => apply preserves_catch; [|intros ?]
      | |- preserves _ (each _ _) => apply absent_each; intros ? _
      | |- preserves _ (throw _) => apply preserves_throw
      end
    | progress cbv beta zeta
    | match goal with |- preserves _ (match ?x with _ => _ end) => destruct x end ].

Lemma absent_paths r : preserves absent (rewrite_paths r).
Proof.
  destruct r as [[i wt] cfg]. unfold rewrite_paths, exec_update. cbv zeta. case_goal; [|apply preserves_ret].
  apply preserves_bind; [by apply preserves_modify|]. intros _. apply absent_exec. intros s s'. apply absent_alter.
Qed.

Lemma absent_index : preserves absent rename_yard_index.
Proof.
  unfold rename_yard_index. absent_step; [|by apply absent_create].
  apply absent_exec. by intros s s' [= <-].
Qed.
#[local] Hint Resolve absent_paths absent_index : absent.

Definition after_rename (tables : list string) : C unit :=
  _ ← for_tables tables fk_tables rename_keys;
  _ ← rename_parent;
  _ ← exec_update (update_column "drydocks" "id" dock_name);
  _ ← for_tables tables fk_tables rename_ids;
  _ ← rename_parent_ids;
  _ ← (if has_column "events" tables then exec_update (update_column "events" "event" event_name) else mret tt);
  rows ← read_paths;
  _ ← each rewrite_paths rows;
  rename_yard_index.

Lemma absent_after tables : preserves absent (after_rename tables).
Proof.
  unfold after_rename, for_tables, rename_keys, rename_parent, rename_ids, rename_parent_ids, read_paths, columns, table_at. absent_step.
Qed.

Lemma vocab_present c : is_Some (s_tables (cur c) !! "workspaces") ->
  _migrate_v1_vocab_to_drydock c
  = (_ ← clear_drydocks; _ ← exec (rename_table "workspaces" "drydocks"); after_rename (map fst (map_to_list (s_tables (cur c))))) c.
Proof.
  intros Hw. unfold _migrate_v1_vocab_to_drydock, table_names. rewrite gets_bind. apply names_spec in Hw. by rewrite Hw.
Qed.

Lemma vocab_absents c c' : _migrate_v1_vocab_to_drydock c = (Ok tt, c') -> absent c'.
Proof.
  destruct (s_tables (cur c) !! "workspaces") as [W|] eqn:HW.
  - rewrite vocab_present by (by eexists). intros E.
    apply bind_inv in E as [(u & c1 & _ & E)|(e & _ & [=])]. apply bind_inv in E as [(v & c2 & E2 & E)|(e & _ & [=])].
    pose proof (absent_after (map fst (map_to_list (s_tables (cur c)))) c2) as Hp. rewrite E in Hp. apply Hp.
    unfold exec, rename_table in E2. destruct (s_tables (cur c1) !! "workspaces"); [|done].
    destruct (s_tables (cur c1) !! "drydocks"); [done|]. injection E2 as _ <-. unfold absent. cbn.
    by rewrite lookup_insert_ne, lookup_delete_eq.
  - rewrite vocab_absent by done. by intros [= <-].
Qed.

Lemma absent_upgrade : preserves absent upgrade_tables.
Proof.
  unfold upgrade_tables, _migrate_to_v2, _migrate_to_v3, _migrate_to_v4, _migrate_to_v5, _migrate_to_v6, _migrate_to_v7,
    _migrate_to_v8, _migrate_to_v9, _migrate_to_v10, _backfill_drydock_id_columns, for_tables, table_names, columns.
  assert (preserves absent commit) by (by intros c Hc).
  repeat first
    [ assumption
    | match goal with |- preserves _ (add_columns _ _) => apply absent_columns end
    | match goal with |- preserves _ (executescript _) => apply absent_script; repeat (constructor; [done|]); by constructor end
    | match goal with |- preserves _ (mbind _ _) => apply preserves_bind; [|intros ?] end
    | absent_step ].
Qed.

(** All that the versions bring. *)
Definition up_to_date (s : schema) : Prop :=
  all_created SCHEMA s /\ (all_added "drydocks" V2_WORKSPACE_COLUMNS s /\ all_created V2_TABLES s) /\ all_created V3_TABLES s
  /\ all_created V4_TABLES s /\ all_created V5_TABLES s /\ all_added "drydocks" V6_DRYDOCK_COLUMNS s /\ all_created V7_TABLES s
  /\ all_created V8_TABLES s /\ all_added "tokens" V9_TOKEN_COLUMNS s /\ all_created V10_TABLES s /\ all_keyed s.

Lemma plain_columns_ok : plain_columns V2_WORKSPACE_COLUMNS /\ plain_columns V6_DRYDOCK_COLUMNS /\ plain_columns V9_TOKEN_COLUMNS.
Proof. unfold plain_columns. split_and!; repeat constructor; cbn; intuition discriminate. Qed.

Lemma reaches_upgrade : reaches up_to_date upgrade_tables.
Proof.
  destruct plain_columns_ok as (P2 & P6 & P9). unfold upgrade_tables, up_to_date.
  assert (forall l, reaches (all_created l) (executescript l)) as Hs by exact reaches_script.
  repeat (apply reaches_then;
    [first [apply all_created_monotone|by apply all_added_monotone
           |intros s s' Hg [Ha Hc]; split; [by eapply all_added_monotone|by eapply all_created_monotone]]
    |first [apply reaches_script|by apply reaches_columns
           |apply reaches_then; [by apply all_added_monotone|by apply reaches_columns|apply reaches_script|moves_step]]
    | |unfold _migrate_to_v2, _migrate_to_v3, _migrate_to_v4, _migrate_to_v5, _migrate_to_v6, _migrate_to_v7,
    _migrate_to_v8, _migrate_to_v9, _migrate_to_v10; moves_step]).
  apply reaches_backfill.
Qed.

Lemma upgrade_settles c c' : upgrade_tables c = (Ok tt, c') -> settled c'.
Proof.
  unfold upgrade_tables. intros E. repeat (apply bind_inv in E as [(? & ? & _ & E)|(? & _ & [=])]). by injection E as <-.
Qed.

(** A database that was opened once without an error has every table, column and index of the present version, its keys under
    their present name, and no table of the first version; and opening it again changes nothing. *)
Theorem opening_again_changes_nothing s s' : open_database s = (Ok tt, s') ->
  up_to_date s' /\ s_tables s' !! "workspaces" = None /\ open_database s' = (Ok tt, s').
Proof.
  unfold open_database. rewrite migrate_split. intros E.
  match type of E with context[match ?m with _ => _ end] => destruct m as [r c] eqn:Em end. injection E as -> <-.
  apply bind_inv in Em as [([] & c1 & E1 & E)|(e & _ & [=])].
  pose proof (upgrade_settles _ _ E) as [Hs Ht]. rewrite Hs.
  assert (absent c) as Ha.
  { pose proof (absent_upgrade c1) as Hp. rewrite E in Hp. apply Hp. by eapply vocab_absents. }
  pose proof (re_ends _ _ reaches_upgrade _ _ E) as Hd. split_and!; [done|done|].
  rewrite migrate_split, (bind_ok _ _ _ _ _ (vocab_absent (mkConn (cur c) (cur c) false) Ha)).
  by rewrite (re_again _ _ reaches_upgrade (mkConn (cur c) (cur c) false)).
Qed.

(** ** The new ids *)

Definition new_id : sqlval -> sqlval := rewrite_value dock_name.

Lemma new_id_idem v : new_id (new_id v) = new_id v.
Proof.
  destruct v as [|x|n]; [done| |done]. unfold new_id, rewrite_value. destruct (dock_name x) as [y|] eqn:E; [|by rewrite E].
  unfold dock_name in E. destruct (startswith _ _); [|done]. by injection E as <-.
Qed.

(** The column of the key of a table. *)
Definition fk_column (cols : list string) : string :=
  if has_column "drydock_id" cols then "drydock_id" else if has_column "workspace_id" cols then "workspace_id" else "desk_id".

Definition key_position (cols : list string) : option nat := position (fk_column cols) cols.

Lemma position_some c cols : is_Some (position c cols) <-> In c cols.
Proof.
  induction cols as [|x cols IH]; cbn; [split; [by intros []|done]|]. destruct (String.eqb_spec c x) as [->|Hne].
  - split; [by left|by eexists].
  - rewrite fmap_is_Some, IH. split; [by right|by intros [->|]].
Qed.

Lemma position_inj c d cols i : position c cols = Some i -> position d cols = Some i -> c = d.
Proof.
  revert i. induction cols as [|x cols IH]; cbn; [done|]. intros i.
  destruct (String.eqb_spec c x) as [->|], (String.eqb_spec d x) as [->|]; try done.
  - intros [= <-]. by destruct (position d cols).
  - destruct (position c cols); [|done]. by intros [= <-].
  - destruct (position c cols) eqn:Ec, (position d cols) eqn:Ed; try done. cbn. intros [= <-] [= ->]. by eapply IH.
Qed.

Lemma position_renamed x old new cols : x <> old -> x <> new -> position x (map (renamed old new) cols) = position x cols.
Proof.
  intros Ho Hn. induction cols as [|y cols IH]; [done|]. cbn. unfold renamed at 1. destruct (String.eqb_spec y old) as [->|].
  - destruct (String.eqb_spec x new); [done|]. destruct (String.eqb_spec x old); [done|]. by rewrite IH.
  - by rewrite IH.
Qed.

Lemma position_new old new cols : ~ In new cols -> position new (map (renamed old new) cols) = position old cols.
Proof.
  intros Hn. induction cols as [|y cols IH]; [done|]. cbn in *. unfold renamed at 1. destruct (String.eqb_spec y old) as [->|Hy].
  - by rewrite !String.eqb_refl.
  - destruct (String.eqb_spec new y) as [->|]; [tauto|]. destruct (String.eqb_spec old y) as [->|]; [done|]. rewrite IH by tauto. done.
Qed.

Lemma has_column_position c cols : has_column c cols = match position c cols with Some _ => true | None => false end.
Proof.
  pose proof (position_some c cols) as Hp. destruct (position c cols); [apply has_column_spec|apply has_column_false]; rewrite <- Hp; [by eexists|by intros []].
Qed.

Lemma in_renamed c old new cols : In c cols -> c <> old -> In c (map (renamed old new) cols).
Proof. intros Hc Hn. apply in_map_iff. exists c. unfold renamed. by destruct (String.eqb_spec c old). Qed.

(** ** The renaming of columns *)

(** Rows and the positions of ids and keys stay. *)
Record aligned (T T' : table) : Prop := {
  al_rows : t_rows T' = t_rows T;
  al_id : position "id" (t_cols T') = position "id" (t_cols T);
  al_key : key_position (t_cols T') = key_position (t_cols T);
  al_done : In "drydock_id" (t_cols T) -> In "drydock_id" (t_cols T')
}.

#[export] Instance aligned_preorder : PreOrder aligned.
Proof. split; [by split|]. intros T1 T2 T3 [] []. split; [congruence..|auto]. Qed.

(** Every table is related to what it was. *)
Definition tablewise (R : table -> table -> Prop) (c c' : conn) : Prop :=
  forall t T, s_tables (cur c) !! t = Some T -> exists T', s_tables (cur c') !! t = Some T' /\ R T T'.

#[export] Instance tablewise_preorder R : PreOrder R -> PreOrder (tablewise R).
Proof.
  intros HR. split.
  - intros c t T HT. by exists T.
  - intros c1 c2 c3 H1 H2 t T HT. destruct (H1 t T HT) as (T' & HT' & A), (H2 t T' HT') as (T'' & HT'' & B).
    exists T''. split; [done|by etrans].
Qed.

Lemma tablewise_alter R t f c c' s' : PreOrder R -> alter_table t f (cur c) = Ok s' -> s_tables (cur c') = s_tables s' ->
  (forall T T', s_tables (cur c) !! t = Some T -> f T = Ok T' -> R T T') -> tablewise R c c'.
Proof.
  intros HR E Es Hf. unfold alter_table in E. destruct (s_tables (cur c) !! t) as [T|] eqn:HT; [|done].
  destruct (f T) as [T'|] eqn:Ef; [|done]. injection E as <-. intros u U HU. rewrite Es. cbn. destruct (decide (t = u)) as [<-|].
  - rewrite lookup_insert_eq. exists T'. split; [done|]. apply Hf; congruence.
  - rewrite lookup_insert_ne by done. by exists U.
Qed.

Lemma aligned_parent T : aligned T (column_renamed "parent_workspace_id" "parent_drydock_id" T).
Proof.
  assert (forall x, x <> "parent_workspace_id" -> x <> "parent_drydock_id" ->
    has_column x (t_cols (column_renamed "parent_workspace_id" "parent_drydock_id" T)) = has_column x (t_cols T)) as Hh.
  { intros x H1 H2. rewrite !has_column_position. cbn. by rewrite position_renamed. }
  split; [done|by apply position_renamed| |intros Hi; by apply in_renamed].
  unfold key_position, fk_column. rewrite !Hh by done. cbn. repeat case_goal; by apply position_renamed.
Qed.

Lemma aligned_key old T : In old key_aliases -> fk_column (t_cols T) = old -> In old (t_cols T) ->
  aligned T (column_renamed old "drydock_id" T).
Proof.
  intros Ha Hk Ho. assert (~ In "drydock_id" (t_cols T)) as Hn.
  { rewrite <- has_column_false. unfold fk_column in Hk. destruct (has_column "drydock_id" _); [|done]. subst old. by destruct Ha as [?|[?|[]]]. }
  split; [done| | |intros Hi; done].
  - apply position_renamed; [|done]. by destruct Ha as [<-|[<-|[]]].
  - unfold key_position at 1. unfold fk_column. assert (In "drydock_id" (t_cols (column_renamed old "drydock_id" T))) as Hi by (by apply renamed_in).
    apply has_column_spec in Hi. rewrite Hi. unfold key_position. rewrite Hk. by apply position_new.
Qed.

Lemma exec_rename_aligned t old new c : (forall T, s_tables (cur c) !! t = Some T -> aligned T (column_renamed old new T)) ->
  tablewise aligned c (snd (exec (rename_column t old new) c)).
Proof.
  intros Ha. unfold exec, rename_column. destruct (alter_table _ _ (cur c)) as [s1|] eqn:E1; [|done]. cbn.
  apply (tablewise_alter _ t (fun T => Ok (column_renamed old new T)) c (set_cur _ c) s1); [typeclasses eauto|done|done|].
  intros T T' HT [= <-]. by apply Ha.
Qed.

Lemma rename_key_aligned t c : tablewise aligned c (snd (rename_key t (cols_in t (cur c)) c)).
Proof.
  unfold rename_key. destruct (has_column "drydock_id" _) eqn:Ed; [done|].
  destruct (has_column "workspace_id" _) eqn:Ew; [|destruct (has_column "desk_id" _) eqn:Ek; [|done]];
    apply exec_rename_aligned; intros T HT; unfold cols_in in *; rewrite HT in *; apply aligned_key;
    first [cbn; tauto | unfold fk_column; rewrite ?Ed, ?Ew; done | by apply has_column_spec].
Qed.

Lemma parent_aligned t : moves (tablewise aligned) (exec (rename_column t "parent_workspace_id" "parent_drydock_id")).
Proof. intros c. apply exec_rename_aligned. intros T _. apply aligned_parent. Qed.
#[local] Hint Resolve parent_aligned : moves.

Lemma rename_keys_aligned t : moves (tablewise aligned) (rename_keys t).
Proof.
  intros c. unfold rename_keys, columns. rewrite gets_bind. pose proof (rename_key_aligned t c) as H1. unfold mbind, M_bind.
  destruct (rename_key t _ c) as [[[]|e] c1]; [|done]. cbn [snd] in H1. etrans; [exact H1|].
  case_goal; [apply parent_aligned|done].
Qed.

Lemma rename_parent_aligned : moves (tablewise aligned) rename_parent.
Proof. unfold rename_parent, columns. apply moves_bind; [typeclasses eauto|moves_step|]. intros cols. case_goal; moves_step. Qed.

(** ** The renaming of ids *)

Definition id_columns : list string := ["id"; "drydock_id"].

(** An id is as it was or has its new name. *)
Record followed (T T' : table) : Prop := {
  fo_cols : t_cols T' = t_cols T;
  fo_rows : Forall2 (fun r r' => forall x, In x id_columns ->
              cell (t_cols T) x r' = cell (t_cols T) x r \/ cell (t_cols T) x r' = new_id (cell (t_cols T) x r)) (t_rows T) (t_rows T')
}.

#[export] Instance followed_preorder : PreOrder followed.
Proof.
  split.
  - intros T. split; [done|]. induction (t_rows T); constructor; [by left|done].
  - intros T1 T2 T3 [C1 R1] [C2 R2]. split; [congruence|]. rewrite C1 in R2. clear - R1 R2. revert R2. generalize (t_rows T3).
    induction R1 as [|a b la lb Hab _ IH]; intros l R2; inversion R2 as [|? c ? lc Hbc Hl]; subst; constructor; [|by apply IH].
    intros x Hx. destruct (Hab x Hx) as [E1|E1], (Hbc x Hx) as [E2|E2]; rewrite E2, E1; auto. right. apply new_id_idem.
Qed.

(** Every id in the column is a new one. *)
Definition renewed (t x : string) (c : conn) : Prop :=
  forall T, s_tables (cur c) !! t = Some T -> In x (t_cols T) -> Forall (fun r => new_id (cell (t_cols T) x r) = cell (t_cols T) x r) (t_rows T).

Lemma renewed_stays t x c c' : In x id_columns -> is_Some (s_tables (cur c) !! t) -> tablewise followed c c' -> renewed t x c -> renewed t x c'.
Proof.
  intros Hx [T HT] Hf Hr T' HT' Hc. destruct (Hf t T HT) as (U & HU & [HC HR]). assert (U = T') as -> by congruence.
  rewrite HC in *. specialize (Hr T HT Hc). clear - Hx Hr HR. induction HR as [|a b la lb Hab _ IH]; [constructor|].
  inversion Hr as [|? ? Ha Hl]; subst. constructor; [|by apply IH]. destruct (Hab x Hx) as [->| ->]; [done|apply new_id_idem].
Qed.

Lemma nth_alter (f : sqlval -> sqlval) i j (r : row) : f SNull = SNull ->
  nth j (alter f i r) SNull = if bool_decide (i = j) then f (nth j r SNull) else nth j r SNull.
Proof.
  intros Hf. revert i j. induction r as [|v r IH]; intros i j.
  - assert (alter f i ([] : row) = []) as -> by (by destruct i). case_bool_decide; by destruct j.
  - destruct i as [|i], j as [|j]; try done. cbn. change (nth j (alter f i r) SNull = if bool_decide (S i = S j) then f (nth j r SNull) else nth j r SNull).
    rewrite IH. by repeat case_bool_decide; try lia.
Qed.

Lemma nth_set v i j (r : row) : i <> j -> nth j (alter (fun _ => v) i r) SNull = nth j r SNull.
Proof.
  revert i j. induction r as [|w r IH]; intros i j Hn; [by destruct i|]. destruct i as [|i], j as [|j]; try done. cbn. apply IH. lia.
Qed.

Lemma update_rows_map u i f before after rows : update_rows u i f before after = Ok rows -> rows = before ++ map (rewrite_row i f) after.
Proof.
  revert before. induction after as [|r after IH]; intros before; cbn; [by intros [= <-]; rewrite app_nil_r|].
  destruct (_ && _); [done|]. intros ->%IH. by rewrite <- app_assoc.
Qed.

Lemma column_updated_cell c f T T' : column_updated c f T = Ok T' ->
  t_cols T' = t_cols T /\ exists i, position c (t_cols T) = Some i /\ t_rows T' = map (rewrite_row i f) (t_rows T).
Proof.
  unfold column_updated. destruct (position c (t_cols T)) as [i|]; [|done]. destruct (update_rows _ _ _ _ _) as [rows|] eqn:E; [|done].
  intros [= <-]. split; [done|]. exists i. split; [done|]. by apply update_rows_map in E.
Qed.

Lemma cell_rewritten cols x c i f r : position c cols = Some i ->
  cell cols x (rewrite_row i f r) = if x =s c then rewrite_value f (cell cols x r) else cell cols x r.
Proof.
  intros Hi. unfold cell. destruct (position x cols) as [j|] eqn:Hj; [|by destruct (x =s c)].
  unfold rewrite_row. rewrite nth_alter by done. destruct (String.eqb_spec x c) as [->|Hne].
  - assert (i = j) as -> by congruence. by rewrite bool_decide_true.
  - rewrite bool_decide_false; [done|]. intros ->. apply Hne. by eapply position_inj.
Qed.

Lemma followed_update c f T T' : (In c id_columns -> f = dock_name) -> column_updated c f T = Ok T' -> followed T T'.
Proof.
  intros Hf E. apply column_updated_cell in E as (HC & i & Hi & HR). split; [done|]. rewrite HR. clear HR.
  induction (t_rows T) as [|r l IH]; constructor; [|done]. intros x Hx. rewrite (cell_rewritten _ _ c) by done.
  destruct (String.eqb_spec x c) as [->|]; [right; by rewrite Hf|by left].
Qed.

Lemma exec_update_eq f c : exec_update f c = exec f (mkConn (cur c) (saved c) true).
Proof. done. Qed.

Lemma update_follows t c f : (In c id_columns -> f = dock_name) -> moves (tablewise followed) (exec_update (update_column t c f)).
Proof.
  intros Hf k. rewrite exec_update_eq. unfold exec. destruct (update_column t c f (cur _)) as [s|] eqn:E; cbn [snd]; [|by intros u U HU; exists U].
  apply (tablewise_alter _ t (column_updated c f) k _ s); [typeclasses eauto|done|done|]. intros T T' _. by apply followed_update.
Qed.

Lemma update_renews t x k k' : exec_update (update_column t x dock_name) k = (Ok tt, k') -> renewed t x k'.
Proof.
  rewrite exec_update_eq. unfold exec. destruct (update_column t x dock_name (cur _)) as [s|] eqn:E; [|done]. intros [= <-].
  unfold update_column, alter_table in E. cbn [cur] in E. destruct (s_tables (cur k) !! t) as [T|]; [|done].
  destruct (column_updated x dock_name T) as [T'|] eqn:Eu; [|done]. injection E as <-. intros U. cbn. rewrite lookup_insert_eq.
  intros [= <-] _. apply column_updated_cell in Eu as (-> & i & Hi & ->). induction (t_rows T) as [|r l IH]; constructor; [|done].
  rewrite (cell_rewritten _ _ x) by done. rewrite String.eqb_refl. apply new_id_idem.
Qed.

Lemma cell_set cols x c v r : x <> c -> cell cols x (set_cell cols c v r) = cell cols x r.
Proof.
  intros Hne. unfold cell, set_cell. destruct (position x cols) as [j|] eqn:Hj; [|done]. destruct (position c cols) as [i|] eqn:Hi; [|done].
  apply nth_set. intros ->. apply Hne. by eapply position_inj.
Qed.

Lemma paths_follow r : moves (tablewise followed) (rewrite_paths r).
Proof.
  destruct r as [[i wt] cfg]. unfold rewrite_paths. cbv zeta. case_goal; [|moves_step]. intros k. rewrite exec_update_eq. unfold exec.
  destruct (set_paths _ _ _ (cur _)) as [s|] eqn:E; cbn [snd]; [|by intros u U HU; exists U].
  apply (tablewise_alter _ "drydocks" _ k _ s (followed_preorder) E); [done|]. intros T T' _ [= <-]. split; [done|]. cbn.
  induction (t_rows T) as [|r l IH]; constructor; [|done]. intros x Hx. left.
  match goal with |- context[if ?b then _ else _] => destruct b end; [|done].
  rewrite !cell_set; [done|..]; destruct Hx as [<-|[<-|[]]]; done.
Qed.

Lemma same_tables_follow f : (forall s s', f s = Ok s' -> s_tables s' = s_tables s) -> moves (tablewise followed) (exec f).
Proof.
  intros Hf k. unfold exec. destruct (f (cur k)) as [s|] eqn:E; [|done]. apply Hf in E. intros t T HT. exists T. cbn. by rewrite E.
Qed.

Lemma index_follow : moves (tablewise followed) rename_yard_index.
Proof.
  unfold rename_yard_index. apply moves_bind; [typeclasses eauto|moves_step|intros existing].
  apply moves_bind; [typeclasses eauto| |intros _].
  - case_goal; [|moves_step]. apply same_tables_follow. by intros s s' [= <-].
  - case_goal; [moves_step|]. apply moves_catch; [typeclasses eauto| |intros; moves_step]. apply same_tables_follow.
    intros s s'. unfold create. destruct (s_indexes s !! _); [by intros [= <-]|]. destruct (List.find _ _); [done|]. by intros [= <-].
Qed.

Lemma each_follow {A} R (HR : PreOrder R) (f : A -> C unit) l : (forall a, moves (tablewise R) (f a)) -> moves (tablewise R) (each f l).
Proof. intros Hf. induction l as [|a l IH]; cbn; moves_step. Qed.

(** A loop over tables that were there at the start reaches its aim at each, if later rounds keep it. *)
Lemma for_tables_reaches R (HR : PreOrder R) (P : string -> conn -> Prop) names l (f : string -> C unit) c c' :
  (forall t, moves (tablewise R) (f t)) -> (forall t k k', f t k = (Ok tt, k') -> P t k') ->
  (forall t k k', is_Some (s_tables (cur k) !! t) -> tablewise R k k' -> P t k -> P t k') ->
  (forall t, In t l -> has_column t names = true -> is_Some (s_tables (cur c) !! t)) ->
  for_tables names l f c = (Ok tt, c') -> tablewise R c c' /\ forall t, In t l -> has_column t names = true -> P t c'.
Proof.
  intros Hf HP Hkeep. assert (forall a, moves (tablewise R) (if has_column a names then f a else mret tt)) as Hm
    by (intros a; case_goal; [apply Hf|moves_step]).
  revert c. induction l as [|t l IH]; intros c Hin E; [by injection E as <-|]. unfold for_tables in E. cbn [each] in E.
  apply bind_inv in E as [([] & c1 & E1 & E)|(e & _ & [=])]. pose proof (Hm t c) as H1. rewrite E1 in H1. cbn [snd] in H1.
  assert (forall u, is_Some (s_tables (cur c) !! u) -> is_Some (s_tables (cur c1) !! u)) as Hs.
  { intros u [U HU]. destruct (H1 u U HU) as (U' & HU' & _). by exists U'. }
  destruct (IH c1) as [H2 Hl]; [|exact E|].
  - intros u Hu Hn. apply Hs, Hin; [by right|done].
  - split; [by etrans|]. intros u [<-|Hu] Hn; [|by apply Hl]. apply (Hkeep t c1); [by apply Hs, Hin; [left|]|done|].
    rewrite Hn in E1. by apply HP in E1.
Qed.

(** A table with a key has it under its present name. *)
Definition key_named (t : string) (c : conn) : Prop :=
  forall T, s_tables (cur c) !! t = Some T -> In (fk_column (t_cols T)) (t_cols T) -> In "drydock_id" (t_cols T).

Lemma key_position_in cols : is_Some (key_position cols) <-> In (fk_column cols) cols.
Proof. apply position_some. Qed.

Lemma key_named_stays t k k' : is_Some (s_tables (cur k) !! t) -> tablewise aligned k k' -> key_named t k -> key_named t k'.
Proof.
  intros [T HT] Ha Hk T' HT' Hi. destruct (Ha t T HT) as (U & HU & [_ _ Hkey Hd]). assert (U = T') as -> by congruence.
  apply Hd, (Hk T HT), key_position_in. rewrite <- Hkey. by apply key_position_in.
Qed.

Lemma rename_keys_named t k k' : rename_keys t k = (Ok tt, k') -> key_named t k'.
Proof.
  unfold rename_keys, columns. rewrite gets_bind. intros E. apply bind_inv in E as [([] & k1 & E1 & E)|(e & _ & [=])].
  pose proof (rename_key_keyed _ _ _ E1) as Hk. assert (key_named t k1) as Hn.
  { intros T HT Hi. unfold keyed, cols_in in Hk. rewrite HT in Hk. destruct Hk as [Hd|[Hw Hd]]; [done|].
    unfold fk_column in Hi. destruct (has_column "drydock_id" _); [done|]. by destruct (has_column "workspace_id" _). }
  destruct (_ && _); [|by injection E as <-]. pose proof (parent_aligned t k1) as Ha. rewrite E in Ha.
  apply (key_named_stays t k1); [|exact Ha|done].
  unfold exec, rename_column, alter_table in E. destruct (s_tables (cur k1) !! t); [by eexists|done].
Qed.

Definition keys_renewed (t : string) (c : conn) : Prop := renewed t "drydock_id" c.

Lemma rename_ids_follow t : moves (tablewise followed) (rename_ids t).
Proof.
  unfold rename_ids, columns. apply moves_bind; [typeclasses eauto|moves_step|intros cols].
  apply moves_bind; [typeclasses eauto| |intros _]; case_goal; try moves_step; by apply update_follows.
Qed.

Lemma rename_ids_renew t k k' : rename_ids t k = (Ok tt, k') -> keys_renewed t k'.
Proof.
  unfold rename_ids, columns. rewrite gets_bind. intros E. apply bind_inv in E as [([] & k1 & E1 & E)|(e & _ & [=])].
  assert (tablewise followed k k1 /\ keys_renewed t k1) as [_ Hr].
  { destruct (has_column "drydock_id" _) eqn:Ed.
    - pose proof (update_follows t "drydock_id" dock_name (fun _ => eq_refl) k) as Hf. rewrite E1 in Hf. split; [exact Hf|by eapply update_renews].
    - injection E1 as <-. split; [done|]. intros T HT Hi. apply has_column_false in Ed. unfold cols_in in Ed. rewrite HT in Ed. done. }
  destruct (has_column "parent_drydock_id" _); [|by injection E as <-].
  pose proof (update_follows t "parent_drydock_id" dock_name (fun _ => eq_refl) k1) as Hf. rewrite E in Hf.
  eapply renewed_stays; [cbn; auto| |exact Hf|done].
  rewrite exec_update_eq in E. unfold exec, update_column, alter_table in E. cbn [cur] in E. destruct (s_tables (cur k1) !! t); [by eexists|done].
Qed.

Lemma renewed_rows T T' x : In x id_columns -> followed T T' ->
  Forall (fun r => new_id (cell (t_cols T') x r) = cell (t_cols T') x r) (t_rows T') ->
  Forall2 (fun r r' => cell (t_cols T') x r' = new_id (cell (t_cols T) x r)) (t_rows T) (t_rows T').
Proof.
  intros Hx [HC HR] Hr. rewrite HC in *. clear HC. induction HR as [|r r' l l' Hrr _ IH]; [constructor|].
  inversion Hr as [|? ? Ha Hl]; subst. constructor; [|by apply IH]. destruct (Hrr x Hx) as [E|E]; [|done]. by rewrite <- Ha, E.
Qed.

(** The steps after the table has its new name: what becomes of a table's ids. *)
Lemma after_rename_ids tables c c' : (forall t, has_column t tables = true -> In t fk_tables -> is_Some (s_tables (cur c) !! t)) ->
  is_Some (s_tables (cur c) !! "drydocks") -> after_rename tables c = (Ok tt, c') ->
  exists c1, tablewise aligned c c1 /\ tablewise followed c1 c' /\ renewed "drydocks" "id" c'
    /\ forall t, In t fk_tables -> has_column t tables = true -> key_named t c1 /\ keys_renewed t c'.
Proof.
  intros Hin Hd E. unfold after_rename in E.
  apply bind_inv in E as [([] & k1 & E1 & E)|(e & _ & [=])].
  apply (for_tables_reaches aligned aligned_preorder key_named) in E1 as [A1 N1];
    [|exact rename_keys_aligned|exact rename_keys_named|exact key_named_stays|by intros; apply Hin].
  apply bind_inv in E as [([] & c1 & E2 & E)|(e & _ & [=])]. pose proof (rename_parent_aligned k1) as A2. rewrite E2 in A2. cbn [snd] in A2.
  assert (forall R k k', tablewise R k k' -> forall t, is_Some (s_tables (cur k) !! t) -> is_Some (s_tables (cur k') !! t)) as Hsome.
  { intros R k k' Ht t [T HT]. destruct (Ht t T HT) as (T' & HT' & _). by exists T'. }
  pose proof (transitivity A1 A2) as A. exists c1.
  apply bind_inv in E as [([] & k3 & E3 & E)|(e & _ & [=])].
  pose proof (update_follows "drydocks" "id" dock_name (fun _ => eq_refl) c1) as F3. rewrite E3 in F3. cbn [snd] in F3.
  apply update_renews in E3.
  apply bind_inv in E as [([] & k4 & E4 & E)|(e & _ & [=])].
  apply (for_tables_reaches followed followed_preorder keys_renewed) in E4 as [F4 N4];
    [|exact rename_ids_follow|exact rename_ids_renew|intros t k k' Hs Hf; apply renewed_stays; [cbn; auto|done|done]
     |intros t Ht Hn; by apply (Hsome _ _ _ F3), (Hsome _ _ _ A), Hin].
  assert (tablewise followed k4 c') as F5.
  { match type of E with ?m k4 = _ => assert (moves (tablewise followed) m) as Hm end; [|specialize (Hm k4); by rewrite E in Hm].
    unfold rename_parent_ids, columns, read_paths, table_at.
    apply moves_bind; [typeclasses eauto| |intros _].
    { apply moves_bind; [typeclasses eauto|moves_step|intros cols]. case_goal; [by apply update_follows|moves_step]. }
    apply moves_bind; [typeclasses eauto| |intros _].
    { case_goal; [|moves_step]. apply update_follows. by intros [?|[?|[]]]. }
    apply moves_bind; [typeclasses eauto|moves_step|intros rows].
    apply moves_bind; [typeclasses eauto|apply each_follow; [typeclasses eauto|exact paths_follow]|intros _; exact index_follow]. }
  assert (is_Some (s_tables (cur c1) !! "drydocks")) as Hd1 by (by eapply Hsome).
  split_and!; [done|by etrans; [|etrans]| |].
  - pose proof (Hsome _ _ _ F3 _ Hd1) as Hd3. pose proof (Hsome _ _ _ F4 _ Hd3) as Hd4.
    apply (renewed_stays _ _ k4); [cbn; auto|exact Hd4|exact F5|]. apply (renewed_stays _ _ k3); [cbn; auto|exact Hd3|exact F4|exact E3].
  - intros t Ht Hn. split.
    + apply (key_named_stays t k1); [by apply (Hsome _ _ _ A1), Hin|done|by apply N1].
    + eapply renewed_stays; [cbn; auto| |exact F5|by apply N4]. by apply (Hsome _ _ _ F4), (Hsome _ _ _ F3), (Hsome _ _ _ A), Hin.
Qed.

Lemma renewed_all t x c T : renewed t x c -> s_tables (cur c) !! t = Some T ->
  Forall (fun r => new_id (cell (t_cols T) x r) = cell (t_cols T) x r) (t_rows T).
Proof.
  intros Hr HT. destruct (has_column x (t_cols T)) eqn:E; [apply Hr; [done|by apply has_column_spec]|].
  rewrite has_column_position in E. unfold cell. destruct (position x (t_cols T)); [done|]. induction (t_rows T); by constructor.
Qed.

(** A table before and after: in every row the new column has the new name of the id in the old one. *)
Definition ids_follow (old new : string) (T T' : table) : Prop :=
  Forall2 (fun r r' => cell (t_cols T') new r' = new_id (cell (t_cols T) old r)) (t_rows T) (t_rows T').

Lemma follow_aligned old new T T1 T' : In new id_columns -> aligned T T1 -> position new (t_cols T1) = position old (t_cols T) ->
  followed T1 T' -> Forall (fun r => new_id (cell (t_cols T') new r) = cell (t_cols T') new r) (t_rows T') -> ids_follow old new T T'.
Proof.
  intros Hn [Hrows _ _ _] Hp Hf Hr. pose proof (renewed_rows T1 T' new Hn Hf Hr) as H. unfold ids_follow. rewrite Hrows in H.
  unfold cell at 2. unfold cell at 2 in H. by rewrite Hp in H.
Qed.

(** C12: The renaming of the first version keeps the references of five tables to the desks: when it ends without an error, the
    desks are in the table of the present name with the new names of their ids, and each of the tables events, leases, tokens,
    amendments and deskwatch_events that is there and has the key has it in the column of the present name with the new
    name of the id that was there, row for row; so a row that referred to a desk still does. The tables migrations
    and workload_leases are not among the five ([fk_tables]): their rows lose their desk (Example
    [migrations_lose_their_desk]). *)
Theorem references_follow_the_renaming c c' W : s_tables (cur c) !! "workspaces" = Some W ->
  _migrate_v1_vocab_to_drydock c = (Ok tt, c') ->
  s_tables (cur c') !! "workspaces" = None
  /\ (exists D, s_tables (cur c') !! "drydocks" = Some D /\ ids_follow "id" "id" W D)
  /\ forall t T, In t fk_tables -> s_tables (cur c) !! t = Some T -> In (fk_column (t_cols T)) (t_cols T) ->
     exists T', s_tables (cur c') !! t = Some T' /\ ids_follow (fk_column (t_cols T)) "drydock_id" T T'.
Proof.
  intros HW E. split; [by eapply vocab_absents|]. rewrite vocab_present in E by (by eexists).
  set (tables := map fst (map_to_list (s_tables (cur c)))) in E.
  apply bind_inv in E as [([] & k1 & E1 & E)|(e & _ & [=])]. apply bind_inv in E as [([] & k2 & E2 & E)|(e & _ & [=])].
  assert (forall t, t <> "drydocks" -> s_tables (cur k1) !! t = s_tables (cur c) !! t) as Hk1.
  { intros t Ht. unfold clear_drydocks, table_at in E1. rewrite gets_bind in E1. destruct (s_tables (cur c) !! "drydocks") as [D|]; [|by injection E1 as <-].
    destruct (t_rows D); [|done]. unfold exec, drop_table in E1. injection E1 as <-. cbn. by rewrite lookup_delete_ne. }
  assert (s_tables (cur k2) !! "drydocks" = Some W
          /\ forall t, t <> "drydocks" -> t <> "workspaces" -> s_tables (cur k2) !! t = s_tables (cur c) !! t) as [HD Hk2].
  { unfold exec, rename_table in E2. rewrite Hk1, HW in E2 by done. destruct (s_tables (cur k1) !! "drydocks"); [done|]. injection E2 as <-. cbn.
    split; [by rewrite lookup_insert_eq|]. intros t H1 H2. rewrite lookup_insert_ne, lookup_delete_ne by done. by apply Hk1. }
  assert (forall t, In t fk_tables -> t <> "drydocks" /\ t <> "workspaces") as Hfk by (cbn; intuition (subst; discriminate)).
  apply after_rename_ids in E as (c1 & A & F & RD & Rt); [|intros t Hn Ht; destruct (Hfk t Ht); rewrite Hk2 by done; by apply names_spec|by eexists].
  split.
  - destruct (A _ _ HD) as (W1 & HW1 & HA), (F _ _ HW1) as (D & HDD & HF). exists D. split; [done|].
    apply (follow_aligned _ _ _ W1); [cbn; auto|done|apply HA|done|]. by apply (renewed_all _ _ _ _ RD).
  - intros t T Ht HT Hk. destruct (Hfk t Ht) as [H1 H2]. assert (has_column t tables = true) as Hn by (apply names_spec; by eexists).
    destruct (Rt t Ht Hn) as [Hnamed Hrn]. rewrite <- (Hk2 t H1 H2) in HT.
    destruct (A _ _ HT) as (T1 & HT1 & HA), (F _ _ HT1) as (T' & HT' & HF). exists T'. split; [done|].
    apply (follow_aligned _ _ _ T1); [cbn; auto|done| |done|by apply (renewed_all _ _ _ _ Hrn)].
    rewrite <- (al_key _ _ HA : _ = position _ _). unfold key_position. f_equal.
    assert (In "drydock_id" (t_cols T1)) as Hd%has_column_spec.
    { apply (Hnamed T1 HT1), key_position_in. rewrite (al_key _ _ HA). by apply key_position_in. }
    unfold fk_column. by rewrite Hd.
Qed.

(** ** Databases of the first version *)

Definition v1_columns : list string :=
  ["id"; "name"; "project"; "repo_path"; "worktree_path"; "branch"; "base_ref"; "state"; "container_id"; "workspace_subdir"; "image";
   "owner"; "created_at"; "updated_at"; "config"].
Definition v1_row (i n : string) : row :=
  map SText [i; n; "proj"; "/srv/proj"; "/root/.drydock/worktrees/" +:+ i; "main"; "HEAD"; "running"; ""; ""; ""; ""; "t"; "t"; "{}"].
Definition v1_tables (rows : list row) : gmap string table :=
  {["workspaces" := mkTable v1_columns ["id"; "name"] rows;
    "leases" := mkTable ["lease_id"; "desk_id"; "type"; "scope"; "issued_at"; "expiry"; "issuer"; "revoked"; "revocation_reason"]
                  ["lease_id"] [[SText "l1"; SText "ws_web"; SText "SECRET"; SText "{}"; SText "t"; SNull; SText "daemon"; SInt 0; SNull]]]}.
Definition v1_schema (rows : list row) : schema := mkSchema (v1_tables rows) ∅.
Definition no_schema : schema := mkSchema ∅ ∅.

(** The values of some columns in every row. *)
Definition shown (t : string) (cs : list string) (s : schema) : option (list (list sqlval)) :=
  option_map (fun T => map (fun r => map (fun c => cell (t_cols T) c r) cs) (t_rows T)) (s_tables s !! t).

Example first_version_opens :
  let '(r, s) := open_database (v1_schema [v1_row "ws_web" "web"]) in
  r = Ok tt /\ shown "drydocks" ["id"; "worktree_path"; "yard_id"] s = Some [[SText "dock_web"; SText "/root/.drydock/worktrees/dock_web"; SNull]]
  /\ shown "leases" ["lease_id"; "drydock_id"] s = Some [[SText "l1"; SText "dock_web"]].
Proof. vm_compute. by split_and!. Qed.

(** A new database has the columns that the operations of [Registry] name. *)
Example new_database_columns :
  let '(r, s) := open_database no_schema in
  r = Ok tt /\ cols_in "tokens" s = ["drydock_id"; "token_sha256"; "issued_at"; "rotated_at"; "scope"]
  /\ forallb (fun c => has_column c (cols_in "drydocks" s))
       ["id"; "name"; "state"; "container_id"; "parent_drydock_id"; "delegatable_secrets"; "capabilities"; "resources_hard"; "pinned_yaml_sha256";
        "yard_id"; "original_resources_hard"] = true.
Proof. vm_compute. by split_and!. Qed.

(** The table is renamed on its own, before the ids are: when an id cannot be renamed, the opening fails, and the next one takes
    the rest for done. The desk keeps its old id for good. *)
Example half_a_renaming_is_final :
  let '(r, s) := open_database (v1_schema [v1_row "ws_web" "web"; v1_row "dock_web" "other"]) in
  let '(r', s') := open_database s in
  r = Err IntegrityError /\ r' = Ok tt
  /\ shown "drydocks" ["id"; "name"] s' = Some [[SText "ws_web"; SText "web"]; [SText "dock_web"; SText "other"]]
  /\ shown "leases" ["lease_id"; "drydock_id"] s' = Some [[SText "l1"; SText "ws_web"]].
Proof. vm_compute. by split_and!. Qed.

(** Two tables with a key are not among those whose ids are renamed: their rows refer to no desk any more. *)
Example migrations_lose_their_desk :
  let ids := mkTable ["id"; "workspace_id"; "plan_json"; "status"; "current_stage"; "snapshot_path"; "created_at"; "completed_at"; "error_json"]
               ["id"] [map SText ["m1"; "ws_web"; "{}"; "planned"; ""; ""; "t"; ""; ""]] in
  let indexes := {["idx_migrations_drydock" := mkIndex "migrations" ["workspace_id"; "created_at"]]} in
  let '(r, s) := open_database (mkSchema (<["migrations" := ids]> (v1_tables [v1_row "ws_web" "web"])) indexes) in
  r = Ok tt /\ shown "drydocks" ["id"] s = Some [[SText "dock_web"]] /\ shown "migrations" ["drydock_id"] s = Some [[SText "ws_web"]].
Proof. vm_compute. by split_and!. Qed.

(** The columns are repaired after the versions have run, and the index of a version needs the column: a table with the old
    name and without the index is never repaired, and the database does not open. *)
Example repair_comes_too_late :
  let dw := mkTable ["id"; "desk_id"; "kind"; "name"; "timestamp"; "status"; "detail"] ["id"] [] in
  fst (open_database (mkSchema {["deskwatch_events" := dw]} ∅)) = op_error "no such column: drydock_id".
Proof. vm_compute. reflexivity. Qed.

Definition old_tokens : table :=
  mkTable ["desk_id"; "token_sha256"; "issued_at"; "rotated_at"] ["desk_id"] [[SText "dock_web"; SText "h"; SText "t"; SNull]].
Definition old_schema : schema := mkSchema {["tokens" := old_tokens]} ∅.

Lemma opening_loses_nothing_witness :
  shown "tokens" ["drydock_id"; "scope"] (snd (open_database old_schema)) = Some [[SText "dock_web"; SText "dock"]]
  /\ exists T', s_tables (snd (open_database old_schema)) !! "tokens" = Some T' /\ carried old_tokens T'.
Proof.
  split; [vm_compute; reflexivity|]. apply (opening_loses_nothing old_schema); reflexivity.
Defined.

Lemma opening_again_changes_nothing_witness :
  let '(r, s) := open_database (v1_schema [v1_row "ws_web" "web"]) in up_to_date s /\ open_database s = (Ok tt, s).
Proof.
  destruct (open_database (v1_schema [v1_row "ws_web" "web"])) as [r s] eqn:E. pose proof (f_equal fst E) as Er. vm_compute in Er. subst r.
  destruct (opening_again_changes_nothing _ _ E) as (? & _ & ?). by split.
Defined.

Lemma references_follow_the_renaming_witness :
  let c := mkConn (v1_schema [v1_row "ws_web" "web"]) (v1_schema [v1_row "ws_web" "web"]) false in
  exists T T', s_tables (cur c) !! "leases" = Some T
    /\ s_tables (cur (snd (_migrate_v1_vocab_to_drydock c))) !! "leases" = Some T' /\ ids_follow "desk_id" "drydock_id" T T'.
Proof.
  cbv zeta. set (c := mkConn _ _ _). destruct (_migrate_v1_vocab_to_drydock c) as [r c'] eqn:E. pose proof (f_equal fst E) as Er.
  vm_compute in Er. subst r. assert (exists W, s_tables (cur c) !! "workspaces" = Some W) as [W HW] by (eexists; vm_compute; reflexivity).
  destruct (references_follow_the_renaming c c' W HW E) as (_ & _ & Ht).
  destruct (Ht "leases" (mkTable ["lease_id"; "desk_id"; "type"; "scope"; "issued_at"; "expiry"; "issuer"; "revoked"; "revocation_reason"]
    ["lease_id"] [[SText "l1"; SText "ws_web"; SText "SECRET"; SText "{}"; SText "t"; SNull; SText "daemon"; SInt 0; SNull]]))
    as (T' & HT' & Hf); [cbn; auto|vm_compute; reflexivity|cbn; auto|]. eexists _, T'. split; [vm_compute; reflexivity|]. split; [exact HT'|exact Hf].
Defined.
