(* ===== verification/Proxy.v ===== *)
(** [core/proxy.py] and [daemon/proxy_handlers.py]: the egress proxy's rule file of a
    desk, and the RPC that replaces it while the desk runs. *)

From S2P Require Import Prelude PyStr PyVal Registry World Rpc WorldFacts.
From Stdlib Require Import List Sorted Permutation.

Section Proxy.
Context `{Env}.

(** ** [core/proxy.py] *)

Definition _project_tag (drydock_id : string) : string := "drydock-" +:+ drydock_id.

Definition mem (x : string) (l : list string) : bool := existsb (String.eqb x) l.

(** One entry of the loop: the hosts and domains so far. *)
Definition add_glob (acc : list string * list string) (entry : string)
    : list string * list string :=
  let '(hosts, domains) := acc in
  if is_empty entry then acc
  else if entry =s "*" then acc
  else if startswith entry "*." then
    let domain := sdrop 2 entry in
    if negb (is_empty domain) && negb (mem domain domains) then (hosts, domains ++ [domain]) else acc
  else if negb (mem entry hosts) then (hosts ++ [entry], domains) else acc.

Fixpoint split_loop (acc : list string * list string) (network_reach : list json)
    : res exn (list string * list string) :=
  match network_reach with
  | [] => Ok acc
  | raw :: rest =>
      if negb (truthy raw) then split_loop acc rest
      else
        match raw with
        | JStr s => split_loop (add_glob acc (strip s)) rest
        | _ => Err (PyError "AttributeError"
                 ("'" +:+ type_name raw +:+ "' object has no attribute 'strip'"))
        end
  end.

Definition split_globs (network_reach : list json) : res exn (list string * list string) :=
  '(hosts, domains) ← split_loop ([], []) network_reach;
  Ok (order_by String.leb hosts, order_by String.leb domains).

Definition jstrings (l : list string) : json := JList (map JStr l).

Definition acl_json (drydock_id : string) (hosts domains : list string) : json :=
  JObj [("version", JStr "v1"); ("services", JList []);
        ("default", JObj [("project", JStr (_project_tag drydock_id)); ("action", JStr "enforce");
                          ("allow_missing_role", JBool true); ("allowed_hosts", jstrings hosts);
                          ("allowed_domains", jstrings domains)])].

Definition generate_smokescreen_acl (drydock_id : string) (network_reach : list json) : res exn json :=
  '(hosts, domains) ← split_globs network_reach; Ok (acl_json drydock_id hosts domains).

Definition proxy_root_from_home : string := home // ".drydock" // "proxy".

Definition acl_path (proxy_root drydock_id : string) : string := proxy_root // (drydock_id +:+ ".yaml").

Definition write_smokescreen_acl (drydock_id : string) (network_reach : list json) (proxy_root : string)
    : W string :=
  _ ← mkdir_p proxy_root;
  let target := acl_path proxy_root drydock_id in
  acl ← lift (generate_smokescreen_acl drydock_id network_reach);
  let tmp := proxy_root // ("." +:+ drydock_id +:+ ".yaml.tmp") in
  _ ← host_write tmp (yaml_dump acl);
  _ ← fs_op;
  _ ← host_replace tmp target;
  mret target.

(** ** [daemon/proxy_handlers.py] *)

Definition _get_caller_scope (caller : string) (d : db) : res exn string :=
  match get_token_info caller d with
  | None => rpc_error (-32004) "unauthenticated"
              [("reason", JStr ("no token row for caller " +:+ caller))]
  | Some r => Ok (if is_empty (tk_scope r) then "dock" else tk_scope r)
  end.

(** [docker exec ... pkill -HUP dockwarden]. *)
Definition sighup_call (container_id : string) : call :=
  mkCall ["docker"; "exec"; "-u"; "root"; container_id; "pkill"; "-HUP"; "dockwarden"] "".

(** Any exception of the call counts as not sent. *)
Definition send_sighup (container_id : string) : W bool :=
  if is_empty container_id then mret false
  else catch ('(rc, _, _) ← run_uncaught (sighup_call container_id); mret (rc =? 0)) (fun _ => mret false).

Definition invalid_field {A} (field reason : string) : res exn A :=
  rpc_error (-32602) "invalid_params" [("field", JStr field); ("reason", JStr reason)].

(** The column of the row as the handler reads it: an absent or falsy one is the empty list,
    a JSON text its value. *)
Definition reach_entries (row : option dock_row) : res exn (list string) :=
  match row with
  | None => Ok []
  | Some r => l ← as_list (dr_network_reach r); Ok (map py_str l)
  end.

Definition check_narrow (caller_scope target_id : string) (domains : list string) (d : db) : res exn unit :=
  if caller_scope =s "auditor" then Ok tt
  else
    allowed ← reach_entries (load_desk_policy target_id d);
    match List.filter (fun x => negb (mem x allowed)) domains with
    | [] => Ok tt
    | disallowed =>
        rpc_error (-32006) "narrowness_violated"
          [("field", JStr "domains");
           ("reason", JStr ("domains exceed delegatable_network_reach; edit project YAML "
              +:+ "+ drydock project reload to widen the policy"));
           ("disallowed", jstrings (order_by String.leb disallowed))]
    end.

Definition int_len {A} (l : list A) : json := JInt (Z.of_nat (length l)).

Definition is_wildcard (d : string) : bool := startswith d "*".

(** What the checks under the registry handle establish: the caller's scope and the target. *)
Definition authorize_update (caller target_id : string) (domains : list string) (d : db)
    : res exn (string * Drydock) :=
  caller_scope ← _get_caller_scope caller d;
  if negb (target_id =s caller) && negb (caller_scope =s "auditor")
  then rpc_error (-32020) "auditor_scope_required"
         [("reason", JStr "cross-desk allowlist updates require auditor scope");
          ("caller_scope", JStr caller_scope)]
  else
    _ ← check_narrow caller_scope target_id domains d;
    match List.find (fun w => id w =s target_id) (list_drydocks None None d) with
    | None => invalid_field "target_drydock_id" ("no drydock with id " +:+ target_id)
    | Some target => Ok (caller_scope, target)
    end.

Definition apply_update (caller target_id reason : string) (domains : list string)
    (caller_scope : string) (target : Drydock) : W json :=
  written_path ← write_smokescreen_acl target_id (map JStr domains) proxy_root_from_home;
  sighup_sent ← send_sighup (container_id target);
  let host_count := int_len (List.filter (fun d => negb (is_wildcard d)) domains) in
  let domain_count := int_len (List.filter is_wildcard domains) in
  _ ← emit_audit "egress.allowlist_updated" (Some caller) JNull "UpdateProxyAllowlist" "ok"
        [("caller_drydock_id", JStr caller); ("caller_scope", JStr caller_scope);
         ("target_drydock_id", JStr target_id); ("domain_count", int_len domains);
         ("host_count", host_count); ("wildcard_count", domain_count);
         ("reason", JStr reason); ("sighup_sent", JBool sighup_sent)];
  mret (JObj [("drydock_id", JStr target_id); ("written_path", JStr written_path);
              ("sighup_sent", JBool sighup_sent); ("host_count", host_count);
              ("domain_count", domain_count)]).

(** [params.get("target_drydock_id") or caller], a list of domains, a reason. *)
Definition update_params (caller : string) (o : obj) : res exn (string * list string * string) :=
  let raw_target := jget "target_drydock_id" o in
  match (if truthy raw_target then raw_target else JStr caller) with
  | JStr target_id =>
      match jget_default "domains" (JList []) o with
      | JList domains_raw =>
          let reason := if truthy (jget "reason" o) then py_str (jget "reason" o) else "" in
          Ok (target_id, map py_str (List.filter truthy domains_raw), reason)
      | _ => invalid_field "domains" "must be a list"
      end
  | _ => invalid_field "target_drydock_id" "must be a string"
  end.

Definition update_proxy_allowlist (params : option obj) (caller : option string) : W json :=
  match caller with
  | None => rpc (-32004) "unauthenticated" [("reason", JStr "UpdateProxyAllowlist requires bearer token")]
  | Some caller =>
      match params with
      | None => rpc (-32602) "invalid_params" [("reason", JStr "params must be an object")]
      | Some o =>
          '(target_id, domains, reason) ← lift (update_params caller o);
          '(caller_scope, target) ← reg_query (authorize_update caller target_id domains);
          apply_update caller target_id reason domains caller_scope target
      end
  end.

(** ** [daemon/server.py] *)

Definition as_object (params : json) : option obj :=
  match params with JObj o => Some o | _ => None end.

Definition _update_proxy_allowlist (params request_id : json) (caller : option string) : W json :=
  update_proxy_allowlist (as_object params) caller.
End Proxy.

(** * Theorems

    Correctness of [Proxy.v]: what a rule file contains, and who may replace which one. *)

(** ** Splitting an allowlist *)

(** What one entry stands for: an exact host, a domain with its subdomains, or nothing. *)
Definition host_entry (e x : string) : Prop :=
  strip e = x /\ x <> "" /\ x <> "*" /\ startswith x "*." = false.
Definition domain_entry (e x : string) : Prop := strip e = "*." +:+ x /\ x <> "".

Lemma mem_spec x l : mem x l = true <-> In x l.
Proof.
  unfold mem. rewrite existsb_exists. split.
  - intros (y & Hy & E). breflect. by subst.
  - intros Hx. exists x. by rewrite String.eqb_refl.
Qed.

Lemma mem_false x l : mem x l = false <-> ~ In x l.
Proof. rewrite <- mem_spec. by destruct (mem x l). Qed.

Lemma app_singleton_In {A} (x y : A) l : In x (l ++ [y]) <-> In x l \/ x = y.
Proof. rewrite in_app_iff. cbn. intuition. Qed.

Lemma NoDup_snoc {A} (l : list A) x : List.NoDup l -> ~ In x l -> List.NoDup (l ++ [x]).
Proof.
  intros Hl Hx. apply NoDup_Add with (a := x) (l := l); [|done].
  rewrite <- (app_nil_r l) at 1. apply Add_app.
Qed.

Lemma sdrop_domain e : startswith e "*." = true -> e = "*." +:+ sdrop 2 e.
Proof. intros (r & ->)%startswith_spec. done. Qed.

Lemma add_glob_spec hosts domains e x :
  let '(h, d) := add_glob (hosts, domains) (strip e) in
  (In x h <-> In x hosts \/ host_entry e x) /\ (In x d <-> In x domains \/ domain_entry e x).
Proof.
  unfold add_glob, host_entry, domain_entry. set (s := strip e).
  assert (forall y, "*." +:+ y <> "" /\ "*." +:+ y <> "*") as Hne by (intros []; done).
  pose proof (Hne x) as [Hx1 Hx2].
  destruct (is_empty s) eqn:E1; [apply is_empty_true in E1; rewrite E1; intuition congruence|].
  apply is_empty_false in E1.
  destruct (String.eqb_spec s "*") as [->|E2]; [intuition congruence|].
  destruct (startswith s "*.") eqn:E3.
  - pose proof (sdrop_domain s E3) as Es. cbv zeta.
    assert (s = "*." +:+ x /\ x <> "" <-> x = sdrop 2 s /\ sdrop 2 s <> "") as Hd.
    { split; intros [H1 H2]; [rewrite H1; split; [done|exact H2]|subst x; split; done]. }
    destruct (is_empty (sdrop 2 s)) eqn:E4; cbn [negb andb].
    + apply is_empty_true in E4. rewrite Hd. intuition congruence.
    + apply is_empty_false in E4. destruct (mem (sdrop 2 s) domains) eqn:E5; cbn [negb]; rewrite Hd.
      * apply mem_spec in E5. intuition (subst; auto; congruence).
      * rewrite app_singleton_In. intuition congruence.
  - assert (s <> "*." +:+ x) as Hs.
    { intros E. assert (startswith s "*." = true) by (apply startswith_spec; by exists x). congruence. }
    destruct (mem s hosts) eqn:E4; cbn [negb].
    + apply mem_spec in E4. intuition (subst; auto; congruence).
    + rewrite app_singleton_In. intuition (subst; auto; congruence).
Qed.

Lemma add_glob_NoDup hosts domains s :
  List.NoDup hosts -> List.NoDup domains ->
  List.NoDup (fst (add_glob (hosts, domains) s)) /\ List.NoDup (snd (add_glob (hosts, domains) s)).
Proof.
  intros Hh Hd. unfold add_glob. repeat case_match; cbn; breflect; split; auto.
  - apply NoDup_snoc; [done|]. by apply mem_false.
  - apply NoDup_snoc; [done|]. by apply mem_false.
Qed.

Lemma split_loop_strings `{Env} acc l :
  split_loop acc (map JStr l) = Ok (fold_left add_glob (map strip l) acc).
Proof.
  revert acc. induction l as [|s l IH]; intros acc; [done|]. cbn.
  destruct (is_empty s) eqn:E; cbn [negb]; [|by rewrite IH].
  apply is_empty_true in E as ->. rewrite IH. by destruct acc.
Qed.

Lemma fold_glob_spec l hosts domains x :
  let '(h, d) := fold_left add_glob (map strip l) (hosts, domains) in
  (In x h <-> In x hosts \/ exists e, In e l /\ host_entry e x)
  /\ (In x d <-> In x domains \/ exists e, In e l /\ domain_entry e x).
Proof.
  revert hosts domains. induction l as [|e l IH]; intros hosts domains.
  - cbn. firstorder.
  - cbn [map fold_left]. pose proof (add_glob_spec hosts domains e x) as Ha.
    destruct (add_glob (hosts, domains) (strip e)) as [h1 d1]. destruct Ha as [Hh Hd].
    specialize (IH h1 d1). destruct (fold_left add_glob _ _) as [h d]. destruct IH as [IH1 IH2].
    rewrite IH1, IH2, Hh, Hd. cbn. split; split; intros Hx; decompose [or ex and] Hx; subst; eauto 8.
Qed.

Lemma fold_glob_NoDup l hosts domains :
  List.NoDup hosts -> List.NoDup domains ->
  List.NoDup (fst (fold_left add_glob (map strip l) (hosts, domains)))
  /\ List.NoDup (snd (fold_left add_glob (map strip l) (hosts, domains))).
Proof.
  revert hosts domains. induction l as [|e l IH]; intros hosts domains Hh Hd; [done|].
  cbn [map fold_left]. pose proof (add_glob_NoDup hosts domains (strip e) Hh Hd) as [H1 H2].
  destruct (add_glob (hosts, domains) (strip e)) as [h1 d1]. by apply IH.
Qed.

(** An allowlist splits into the exact hosts and the domains its entries name, each
    listed once: a bare entry is a host, ["*.d"] the domain [d], and the empty entry, ["*"]
    and ["*."] contribute nothing. *)
Theorem split_globs_spec `{Env} (l : list string) :
  exists hosts domains, split_globs (map JStr l) = Ok (hosts, domains)
    /\ List.NoDup hosts /\ List.NoDup domains
    /\ (forall x, In x hosts <-> exists e, In e l /\ host_entry e x)
    /\ (forall x, In x domains <-> exists e, In e l /\ domain_entry e x).
Proof.
  unfold split_globs. rewrite split_loop_strings.
  destruct (fold_left add_glob (map strip l) ([], [])) as [h d] eqn:E.
  exists (order_by String.leb h), (order_by String.leb d). split; [done|].
  pose proof (fold_glob_NoDup l [] [] (List.NoDup_nil _) (List.NoDup_nil _)) as [Hh Hd].
  rewrite E in Hh, Hd. split; [by apply order_by_NoDup|]. split; [by apply order_by_NoDup|].
  split; intros x; rewrite order_by_In; pose proof (fold_glob_spec l [] [] x) as Hx; rewrite E in Hx;
    destruct Hx as [H1 H2]; [rewrite H1|rewrite H2]; cbn; intuition.
Qed.

(** ** Writing the rule file *)

Section Writing.
Context `{Env}.

Lemma quiet_write_acl i l root : quiet db_files (write_smokescreen_acl i l root).
Proof. unfold write_smokescreen_acl. quiet_step. Qed.

Lemma write_acl_ok i l root w p w' :
  write_smokescreen_acl i l root w = (Ok p, w') ->
  p = acl_path root i
  /\ exists acl, generate_smokescreen_acl i l = Ok acl /\ w_host w' !! p = Some (NFile (yaml_dump acl)).
Proof.
  unfold write_smokescreen_acl. intros E.
  apply bind_inv in E as [(u1 & w1 & _ & E)|(e & _ & [=])]. cbv zeta in E.
  apply bind_inv in E as [(acl & w2 & E2 & E)|(e & _ & [=])]. injection E2 as E2 <-.
  apply bind_inv in E as [(u3 & w3 & E3 & E)|(e & _ & [=])]. apply host_write_ok in E3.
  apply bind_inv in E as [(u4 & w4 & E4 & E)|(e & _ & [=])]. apply fs_op_host in E4.
  apply bind_inv in E as [(u5 & w5 & E5 & E)|(e & _ & [=])]. apply host_replace_ok in E5.
  injection E as <- <-. split; [done|]. exists acl. split; [done|]. by rewrite E5, E4.
Qed.

(** [m] raises no [_RpcError]. *)
Definition no_rpc {A} (m : W A) : Prop :=
  forall w c msg d w', m w <> (Err (RpcError c msg d), w').

Lemma no_rpc_bind {A B} (m : W A) (k : A -> W B) : no_rpc m -> (forall a, no_rpc (k a)) -> no_rpc (m ≫= k).
Proof.
  intros Hm Hk w c msg d w' E. apply bind_inv in E as [(a & w1 & _ & E)|(e & E & [= <-])].
  - by apply (Hk a w1 c msg d w').
  - by apply (Hm w c msg d w').
Qed.

Lemma no_rpc_ret {A} (a : A) : no_rpc (mret a).
Proof. by intros w c msg d w' [=]. Qed.
Lemma no_rpc_os {A} k m : no_rpc (os_error (A := A) k m).
Proof. by intros w c msg d w' [=]. Qed.
Lemma no_rpc_modify f : no_rpc (modify f).
Proof. by intros w c msg d w' [=]. Qed.
Lemma no_rpc_gets {A} (f : world -> A) : no_rpc (gets f).
Proof. by intros w c msg d w' [=]. Qed.
Lemma no_rpc_fs_op : no_rpc fs_op.
Proof. intros w c msg d w'. unfold fs_op. destruct (fs_fault _) as [[]|]; by intros [=]. Qed.
Lemma no_rpc_catch_all {A} (m : W A) a : no_rpc (catch m (fun _ => mret a)).
Proof. intros w c msg d w'. unfold catch. destruct (m w) as [[x|e] w1]; by intros [=]. Qed.
Lemma no_rpc_emit ev pr id m r det : no_rpc (emit_audit ev pr id m r det).
Proof. intros w c msg d w'. apply emit_audit_no_rpc. Qed.

Lemma split_loop_no_rpc acc l c m d : split_loop acc l <> Err (RpcError c m d).
Proof.
  revert acc. induction l as [|x l IH]; intros acc; cbn; [done|].
  destruct (negb _); [apply IH|]. by destruct x.
Qed.

Lemma no_rpc_generate i l : no_rpc (lift (generate_smokescreen_acl i l)).
Proof.
  intros w c m d w' [= E _]. unfold generate_smokescreen_acl, split_globs in E.
  pose proof (split_loop_no_rpc ([], []) l c m d) as Hn.
  destruct (split_loop ([], []) l) as [[h dm]|e]; cbn in E; congruence.
Qed.
End Writing.

Create HintDb norpc.
#[export] Hint Resolve no_rpc_ret no_rpc_os no_rpc_modify no_rpc_gets no_rpc_fs_op no_rpc_catch_all no_rpc_emit
  no_rpc_generate : norpc.
Ltac no_rpc_step :=
  repeat first
    [ solve [eauto with norpc nocore]
    | match goal with |- no_rpc (mbind _ _) => apply no_rpc_bind; [|intros ?] end
    | progress cbv beta zeta
    | match goal with |- no_rpc (match ?x with _ => _ end) => destruct x end ].

Section Authority.
Context `{Env}.

Lemma no_rpc_apply c t rs ds sc tg : no_rpc (apply_update c t rs ds sc tg).
Proof.
  unfold apply_update, write_smokescreen_acl, send_sighup, mkdir_p, host_write, host_replace, host_at.
  no_rpc_step.
Qed.

(** A refused allowlist update (every [_RpcError]: no token, bad parameters, a foreign
    target without the auditor scope, a widening, an unknown desk) changes nothing at all. *)
Theorem refused_update_changes_nothing params caller w code msg data w' :
  update_proxy_allowlist params caller w = (Err (RpcError code msg data), w') -> w' = w.
Proof.
  unfold update_proxy_allowlist. destruct caller as [c|]; [|by intros [= <-]].
  destruct params as [o|]; [|by intros [= <-]]. rewrite lift_bind.
  destruct (update_params c o) as [[[t ds] rs]|e]; [|by intros [= _ <-]]. rewrite reg_query_bind.
  destruct (authorize_update c t ds (w_db w)) as [[sc tg]|e]; [|by intros [= _ <-]].
  intros E. by apply no_rpc_apply in E.
Qed.

(** What authorization establishes. *)
Lemma authorize_update_ok c t ds d sc tg :
  authorize_update c t ds d = Ok (sc, tg) ->
  (exists r, get_token_info c d = Some r /\ sc = if is_empty (tk_scope r) then "dock" else tk_scope r)
  /\ id tg = t
  /\ (sc <> "auditor" -> t = c /\ exists allowed, reach_entries (load_desk_policy t d) = Ok allowed
        /\ forall x, In x ds -> In x allowed).
Proof.
  unfold authorize_update, _get_caller_scope. destruct (get_token_info c d) as [r|]; [|done].
  intros E. apply res_bind_ok in E as (sc0 & [= Esc] & E).
  destruct (_ && _) eqn:Eg; [done|]. apply res_bind_ok in E as (u & Ec & E).
  destruct (List.find _ _) as [tg0|] eqn:Ef; [|done]. injection E as <- <-.
  split; [eauto|]. apply find_some in Ef as [_ Ef]. breflect. split; [done|]. intros Hs.
  assert (String.eqb sc0 "auditor" = false) as Hsf by by apply String.eqb_neq.
  rewrite Hsf in Eg. cbn in Eg. rewrite andb_true_r in Eg.
  unfold check_narrow in Ec. rewrite Hsf in Ec. breflect. split; [done|]. apply res_bind_ok in Ec as (allowed & Ha & Ec).
  exists allowed. split; [done|]. intros x Hx. destruct (List.filter _ ds) as [|y l] eqn:El; [|done].
  destruct (mem x allowed) eqn:Em; [by apply mem_spec|].
  assert (In x (List.filter (fun x => negb (mem x allowed)) ds)) as Hin
    by (apply filter_In; by rewrite Em). by rewrite El in Hin.
Qed.

(** Subprocesses leave the files of the rules' directory alone. *)
Definition rules_kept : Prop := forall x, run_keeps (proxy_root_from_home // x).

(** Who may set the rules of [t] to [ds]: an auditor, or the desk itself within the reach its policy delegates. *)
Definition may_set (c t : string) (ds : list string) (d : db) : Prop :=
  (exists r, get_token_info c d = Some r /\ tk_scope r = "auditor")
  \/ t = c /\ exists allowed, reach_entries (load_desk_policy c d) = Ok allowed /\ forall x, In x ds -> In x allowed.

Lemma authorized_may_set c t ds d sc tg : authorize_update c t ds d = Ok (sc, tg) -> may_set c t ds d.
Proof.
  intros ((r & Hr & Hsc) & _ & Hn)%authorize_update_ok. destruct (String.eqb_spec sc "auditor") as [->|Hsc2].
  - left. exists r. split; [done|]. destruct (is_empty (tk_scope r)); [done|by symmetry].
  - right. destruct (Hn Hsc2) as (-> & Hall). by split.
Qed.

Lemma at_sighup p c : run_keeps p -> quiet (at_path p) (send_sighup c).
Proof.
  intros Hk. unfold send_sighup. destruct (is_empty c); [apply at_state, quiet_ret|]. apply quiet_catch; [|intros; apply at_state, quiet_ret].
  apply quiet_bind; [by apply at_run_uncaught|]. intros [[rc so] se]. apply at_state, quiet_ret.
Qed.

Lemma send_sighup_host (Hk : rules_kept) c i w r w' :
  send_sighup c w = (r, w') ->
  w_host w' !! acl_path proxy_root_from_home i = w_host w !! acl_path proxy_root_from_home i.
Proof. exact (quiet_at (at_path _) _ _ _ _ (at_sighup _ c (Hk _))). Qed.

(** The temporary file that is renamed to the rule file. *)
Definition acl_tmp (t : string) : string := proxy_root_from_home // ("." +:+ t +:+ ".yaml.tmp").

Definition rules_of (o : option node) (t : string) (hosts domains : list string) : Prop :=
  o = Some (NFile (yaml_dump (acl_json t hosts domains))).

Lemma acl_tmp_ne t : plain (t +:+ ".yaml") = true -> acl_path proxy_root_from_home t <> acl_tmp t.
Proof.
  intros Hp E. apply path_join_inj in E; [|done|].
  - apply (f_equal String.length) in E. rewrite !length_app_s in E. cbn in E. lia.
  - unfold plain in *. apply andb_true_iff in Hp as [_ Hs]. apply andb_true_iff. split; [by destruct t|]. rewrite !has_char_app in *.
    apply negb_true_iff, orb_false_iff in Hs as [Hs _]. cbn. by rewrite Hs.
Qed.

Lemma write_acl_err t l w e w' : plain (t +:+ ".yaml") = true ->
  write_smokescreen_acl t l proxy_root_from_home w = (Err e, w') ->
  at_path (acl_path proxy_root_from_home t) w' = at_path (acl_path proxy_root_from_home t) w.
Proof.
  intros Hp. pose proof (chain_below proxy_root_from_home (t +:+ ".yaml") Hp) as Hc. pose proof (acl_tmp_ne t Hp) as Hne.
  unfold write_smokescreen_acl. set (p := acl_path proxy_root_from_home t) in *. intros E.
  apply bind_inv in E as [(u1 & w1 & E1 & E)|(e' & E1 & _)]; (apply (quiet_at (at_path p)) in E1; [|by apply at_mkdir]); [|done].
  cbv zeta in E. apply bind_inv in E as [(acl & w2 & [= _ <-] & E)|(e' & [= _ <-] & _)]; [|done]. rewrite <- E1. fold (acl_tmp t) in E.
  apply bind_inv in E as [(u3 & w3 & E3 & E)|(e' & E3 & _)]; (apply (quiet_at (at_path p)) in E3; [|by apply at_write]); [|by rewrite E3].
  rewrite <- E3. clear E1 E3. apply bind_inv in E as [(u4 & w4 & E4 & E)|(e' & E4 & _)];
    (apply (quiet_at (at_path p)) in E4; [|apply at_state, quiet_fs_op]); [|exact E4].
  rewrite <- E4. clear E4. apply bind_inv in E as [(u5 & w5 & E5 & E)|(e' & E5 & _)]; [done|].
  unfold host_replace in E5. apply bind_inv in E5 as [(u6 & w6 & E6 & E5)|(e6 & E6 & _)];
    (apply (quiet_at (at_path p)) in E6; [|apply at_state, quiet_fs_op]); [|exact E6].
  unfold host_at in E5. rewrite gets_bind in E5. destruct (w_host w6 !! _); [done|]. injection E5 as _ <-. exact E6.
Qed.

(** What an authorized update leaves, whether it returns or raises: no other file of the directory changes, and the
    target's file is the old one or the new one. *)
Lemma apply_update_files (Hk : rules_kept) c t rs ds sc tg w r w' : apply_update c t rs ds sc tg w = (r, w') ->
  (forall x, plain x = true -> proxy_root_from_home // x <> acl_path proxy_root_from_home t ->
     proxy_root_from_home // x <> acl_tmp t -> at_path (proxy_root_from_home // x) w' = at_path (proxy_root_from_home // x) w)
  /\ exists hosts domains, split_globs (map JStr ds) = Ok (hosts, domains)
     /\ (plain (t +:+ ".yaml") = true ->
           at_path (acl_path proxy_root_from_home t) w' = at_path (acl_path proxy_root_from_home t) w
           \/ rules_of (at_path (acl_path proxy_root_from_home t) w') t hosts domains)
     /\ (forall v, r = Ok v -> rules_of (at_path (acl_path proxy_root_from_home t) w') t hosts domains).
Proof.
  intros E. split.
  - intros x Hx H1 H2. eapply quiet_at; [|exact E]. unfold apply_update, write_smokescreen_acl.
    pose proof (chain_below proxy_root_from_home x Hx). pose proof (at_sighup (proxy_root_from_home // x) (container_id tg) (Hk x)).
    quiet_step.
  - destruct (split_globs_spec ds) as (hosts & domains & Hg & _). exists hosts, domains. split; [exact Hg|].
    unfold apply_update in E. set (p := acl_path proxy_root_from_home t) in *.
    destruct (write_smokescreen_acl t (map JStr ds) proxy_root_from_home w) as [[q|e] w1] eqn:E1.
    + pose proof E1 as E1'. apply write_acl_ok in E1' as (-> & acl & Ha & Hw).
      unfold generate_smokescreen_acl in Ha. rewrite Hg in Ha. injection Ha as <-.
      rewrite (bind_ok _ _ _ _ _ E1) in E. assert (at_path p w' = at_path p w1) as Hp.
      { eapply (quiet_at (at_path p)); [|exact E]. pose proof (at_sighup p (container_id tg) (Hk _)). quiet_step. }
      unfold rules_of. rewrite Hp. unfold at_path. split; intros; [right|]; exact Hw.
    + rewrite (bind_err _ _ _ _ _ E1) in E. injection E as <- <-. split; [|done]. intros Hpl. left. by eapply write_acl_err.
Qed.

(** C36: A desk's egress rules change only by the desk itself, within the reach its policy
    delegates, or by the auditor, whatever the call and however it ends: otherwise no file of the rules' directory
    changes; and then the only ones that do are the target's file, which holds its old rules or exactly the allowlist of the
    request (the latter if the call returns), and the temporary file it is renamed from. The database and every secret file
    are as before. Subprocesses are taken to leave the directory alone. *)
Theorem update_proxy_allowlist_authorized (Hk : rules_kept) params caller w r w' :
  update_proxy_allowlist params caller w = (r, w') ->
  w_db w' = w_db w /\ w_files w' = w_files w
  /\ (w_host w' = w_host w /\ is_ok r = false
      \/ exists c o t ds rs hosts domains,
           caller = Some c /\ params = Some o /\ update_params c o = Ok (t, ds, rs) /\ may_set c t ds (w_db w)
           /\ split_globs (map JStr ds) = Ok (hosts, domains)
           /\ (forall x, plain x = true -> proxy_root_from_home // x <> acl_path proxy_root_from_home t ->
                proxy_root_from_home // x <> acl_tmp t ->
                at_path (proxy_root_from_home // x) w' = at_path (proxy_root_from_home // x) w)
           /\ (plain (t +:+ ".yaml") = true ->
                at_path (acl_path proxy_root_from_home t) w' = at_path (acl_path proxy_root_from_home t) w
                \/ rules_of (at_path (acl_path proxy_root_from_home t) w') t hosts domains)
           /\ (forall v, r = Ok v -> rules_of (at_path (acl_path proxy_root_from_home t) w') t hosts domains)).
Proof.
  unfold update_proxy_allowlist. destruct caller as [c|]; [|intros [= <- <-]; auto].
  destruct params as [o|]; [|intros [= <- <-]; auto]. rewrite lift_bind.
  destruct (update_params c o) as [[[t ds] rs]|e] eqn:Ep; [|intros [= <- <-]; auto]. rewrite reg_query_bind.
  destruct (authorize_update c t ds (w_db w)) as [[sc tg]|e] eqn:Ea; [|intros [= <- <-]; auto]. intros E.
  assert (quiet db_files (apply_update c t rs ds sc tg)) as Hq.
  { unfold apply_update, send_sighup. pose proof (quiet_write_acl t (map JStr ds) proxy_root_from_home). quiet_step. }
  specialize (Hq w). rewrite E in Hq. injection Hq as Hd Hf. do 2 (split; [done|]). right.
  destruct (apply_update_files Hk _ _ _ _ _ _ _ _ _ E) as (Hx & hosts & domains & Hg & H1 & H2).
  exists c, o, t, ds, rs, hosts, domains. split_and!; try done. by eapply authorized_may_set.
Qed.
End Authority.

(** ** A desk that updates its own rules *)

Definition proxy_desk : dock_row :=
  set_field (F_network_reach (JList [JStr "api.x.com"; JStr "*.y.com"]))
    (new_dock_row (post_init "t" (mkDrydock "a" "p" "/r" "" "" "" "" "running" "" "" "" "" "" "" (JObj []) "" None (JObj [])))).
Definition proxy_world : world :=
  set_db (set_tokens [mkToken "dock_a" "h" "t" None "dock"] (set_drydocks [proxy_desk] empty_db)) empty_world.
Definition narrow_update : obj := [("domains", JList [JStr "api.x.com"])].
Definition wide_update : obj := [("domains", JList [JStr "evil.com"])].

Lemma update_proxy_allowlist_authorized_witness :
  exists v w', update_proxy_allowlist (H := demo_env) (Some narrow_update) (Some "dock_a") proxy_world = (Ok v, w')
    /\ w_db w' = w_db proxy_world /\ exists t h d, rules_of (H := demo_env) (at_path (acl_path (proxy_root_from_home (H := demo_env)) t) w') t h d.
Proof.
  destruct (update_proxy_allowlist (H := demo_env) (Some narrow_update) (Some "dock_a") proxy_world) as [[v|e] w'] eqn:E;
    [|vm_compute in E; discriminate].
  exists v, w'. split; [reflexivity|].
  destruct (update_proxy_allowlist_authorized (H := demo_env) ltac:(intros x h c t; reflexivity) _ _ _ _ _ E)
    as (Hd & _ & [[_ Hr]|(c & o & t & ds & rs & hosts & domains & _ & _ & _ & _ & _ & _ & _ & Hv)]); [done|].
  split; [exact Hd|]. exists t, hosts, domains. by apply (Hv v).
Defined.

Lemma refused_update_changes_nothing_witness :
  snd (update_proxy_allowlist (H := demo_env) (Some wide_update) (Some "dock_a") proxy_world) = proxy_world.
Proof.
  destruct (update_proxy_allowlist (H := demo_env) (Some wide_update) (Some "dock_a") proxy_world) as [r w'] eqn:E.
  cbn [snd]. pose proof E as E2. vm_compute in E2. destruct r as [v|[| | | |]]; try discriminate E2.
  exact (refused_update_changes_nothing (H := demo_env) _ _ _ _ _ _ _ E).
Defined.
