(* ===== verification/RpcFacts.v ===== *)
(** Correctness of [Rpc.v]: a retried request replays its recorded outcome and never runs
    twice, an unauthenticated caller reaches no protected handler, every request gets one
    answer, and tokens validate to the desk they were issued to. *)

From S2P Require Import Prelude PyStr PyVal Datetime Registry World Rpc.
From Stdlib Require Import List.

(** ** Idempotent retries *)

Section TaskLogFacts.
Context `{Env}.

Definition own_row (key : string) (w : world) : option task_row :=
  tbl_first (by_request key) (task_log (w_db w)).

Lemma utc_now_bind {A} (k : string -> W A) w :
  (_utc_now ≫= k) w
  = k (isoformat (clock (w_ticks w)))
      (mkWorld (w_db w) (w_files w) (w_host w) (w_audit w) (w_calls w) (S (w_ticks w)) (w_uuids w) (w_fsops w)).
Proof. done. Qed.

Lemma own_row_finish key st out w :
  fst (_finish_task_log key st out w) = Ok tt
  /\ own_row key (snd (_finish_task_log key st out w))
     = option_map (finish_row st out (isoformat (clock (w_ticks w)))) (own_row key w).
Proof.
  unfold _finish_task_log. rewrite utc_now_bind. msimp. split; [done|].
  unfold own_row. cbn [w_db set_db task_log set_task_log]. rewrite tbl_first_update by done.
  destruct (tbl_first _ _) as [r|] eqn:E; [|done]. cbn.
  apply tbl_first_Some in E as [_ Hr]. by rewrite Hr.
Qed.

Lemma own_row_start key method params now w :
  own_row key w = None ->
  own_row key (set_db (set_task_log
    (task_log (w_db w) ++ [mkTask key method params "in_progress" None now None]) (w_db w)) w)
  = Some (mkTask key method params "in_progress" None now None).
Proof.
  unfold own_row. cbn [w_db set_db task_log set_task_log]. intros E. rewrite tbl_first_app, E.
  unfold tbl_first, by_request; cbn. by rewrite String.eqb_refl.
Qed.

(** A recorded row answers every later call with its key. *)
Lemma with_task_log_cached method params id fn st w r :
  id <> JNull -> own_row (str_id id) w = Some r ->
  with_task_log method params id fn st w
  = (_replay_cached_outcome (str_id id) (tl_status r) (tl_outcome r), w).
Proof.
  intros Hid Hr. unfold with_task_log. unfold own_row in Hr.
  destruct id; try done; rewrite reg_gets_bind, Hr; reflexivity.
Qed.

Lemma replay_error_obj key code message data :
  _replay_cached_outcome key "failed" (Some (error_obj code message data))
  = Err (RpcError code message data).
Proof. destruct data; reflexivity. Qed.

(** What the status function may say of a result so that it can be replayed. *)
Definition replayable (status : string) (v : json) : Prop :=
  status = "completed"
  \/ (status = "failed" /\ exists o, v = JObj o /\ assoc "destroyed" o = Some (JBool true)).

Lemma replay_result key status v :
  replayable status v -> _replay_cached_outcome key status (Some v) = Ok v.
Proof.
  intros [->|[-> (o & -> & Ho)]]; unfold _replay_cached_outcome; cbn; [done|]. by rewrite Ho.
Qed.

Lemma replay_in_progress key out :
  _replay_cached_outcome key "in_progress" out
  = Err (RpcError (-32002) "request_in_progress" (Some (JObj [("request_id", JStr key)]))).
Proof. done. Qed.

(** What a retry of a request answers, once it ended with [r]. *)
Definition retry_answer (key : string) (r : res exn json) : res exn json :=
  match r with
  | Ok v => Ok v
  | Err (RpcError c m d) => Err (RpcError c m d)
  | Err _ => Err (RpcError (-32002) "request_in_progress" (Some (JObj [("request_id", JStr key)])))
  end.

Lemma with_task_log_first method params id fn st w r w1 :
  id <> JNull -> own_row (str_id id) w = None ->
  (forall w', (forall t, set_task_log t (w_db w') = set_task_log t (w_db w)) ->
              own_row (str_id id) (snd (fn w')) = own_row (str_id id) w') ->
  (forall v, r = Ok v -> replayable (st v) v) ->
  with_task_log method params id fn st w = (r, w1) ->
  exists row, own_row (str_id id) w1 = Some row
  /\ _replay_cached_outcome (str_id id) (tl_status row) (tl_outcome row) = retry_answer (str_id id) r.
Proof.
  intros Hid Hnone Hfn Hst Hrun. set (key := str_id id) in *.
  assert (with_task_log method params id fn st w =
    (now ← _utc_now;
     _ ← modify (fun w => set_db (set_task_log
           (task_log (w_db w) ++ [mkTask key method params "in_progress" None now None]) (w_db w)) w);
     result ← catch fn (fun e => match e with
       | RpcError code message data =>
           _ ← _finish_task_log key "failed" (error_obj code message data); throw e
       | _ => throw e end);
     _ ← _finish_task_log key (st result) result; mret result) w) as Heq.
  { unfold with_task_log. unfold own_row in Hnone.
    destruct id; try done; rewrite reg_gets_bind; fold key; rewrite Hnone; reflexivity. }
  rewrite Heq, utc_now_bind, modify_bind in Hrun. clear Heq.
  match type of Hrun with (catch fn ?h ≫= ?k) ?w0 = _ =>
    set (w2 := w0) in Hrun; set (hd := h) in Hrun; set (kk := k) in Hrun end.
  pose proof (own_row_start key method params (isoformat (clock (w_ticks w)))
    (mkWorld (w_db w) (w_files w) (w_host w) (w_audit w) (w_calls w) (S (w_ticks w)) (w_uuids w) (w_fsops w))
    Hnone) as H2. fold w2 in H2.
  specialize (Hfn w2 (fun t => eq_refl)). rewrite H2 in Hfn. unfold mbind, M_bind, catch in Hrun.
  destruct (fn w2) as [[v|e] w3]; cbn [snd] in Hfn.
  - subst kk. cbv beta in Hrun. pose proof (own_row_finish key (st v) v w3) as [Hf1 Hf2].
    rewrite Hfn in Hf2. unfold mbind, M_bind in Hrun.
    destruct (_finish_task_log key (st v) v w3) as [r4 w4]. cbn [fst snd] in Hf1, Hf2. subst r4.
    rewrite ret_eq in Hrun. injection Hrun as <- <-. eexists. split; [exact Hf2|]. cbn.
    apply replay_result. by apply Hst.
  - subst hd. cbv beta in Hrun. destruct e as [code message data|m fx| |m|k m].
    + pose proof (own_row_finish key "failed" (error_obj code message data) w3) as [Hf1 Hf2].
      rewrite Hfn in Hf2. unfold mbind, M_bind in Hrun.
      destruct (_finish_task_log _ _ _ w3) as [r4 w4]. cbn [fst snd] in Hf1, Hf2. subst r4.
      rewrite throw_eq in Hrun. injection Hrun as <- <-. eexists. split; [exact Hf2|].
      apply replay_error_obj.
    + rewrite throw_eq in Hrun. injection Hrun as <- <-. eexists. split; [exact Hfn|]. done.
    + rewrite throw_eq in Hrun. injection Hrun as <- <-. eexists. split; [exact Hfn|]. done.
    + rewrite throw_eq in Hrun. injection Hrun as <- <-. eexists. split; [exact Hfn|]. done.
    + rewrite throw_eq in Hrun. injection Hrun as <- <-. eexists. split; [exact Hfn|]. done.
Qed.

(** A retry answers from the log; [with_task_log_replay] says it in full. *)
Lemma with_task_log_retry method params id fn st w r w1 :
  id <> JNull -> own_row (str_id id) w = None ->
  (forall w', (forall t, set_task_log t (w_db w') = set_task_log t (w_db w)) ->
              own_row (str_id id) (snd (fn w')) = own_row (str_id id) w') ->
  (forall v, r = Ok v -> replayable (st v) v) ->
  with_task_log method params id fn st w = (r, w1) ->
  forall method2 params2 fn2 st2,
    with_task_log method2 params2 id fn2 st2 w1 = (retry_answer (str_id id) r, w1).
Proof.
  intros Hid Hnone Hfn Hst Hrun method2 params2 fn2 st2.
  destruct (with_task_log_first _ _ _ _ _ _ _ _ Hid Hnone Hfn Hst Hrun) as (row & Hrow & Hans).
  rewrite (with_task_log_cached _ _ _ _ _ _ row Hid Hrow). by rewrite Hans.
Qed.
(** A retry with the same request id never runs the handler again and changes
    nothing: it returns the recorded result or raises the recorded RPC error, code,
    message and data included, whatever method, parameters and handler come with
    it; if the first run died of another exception the retry is told the request is still in
    progress. *)
Theorem with_task_log_replay method params id fn st w r w1 :
  id <> JNull -> own_row (str_id id) w = None ->
  (forall w', (forall t, set_task_log t (w_db w') = set_task_log t (w_db w)) ->
              own_row (str_id id) (snd (fn w')) = own_row (str_id id) w') ->
  (forall v, r = Ok v -> replayable (st v) v) ->
  with_task_log method params id fn st w = (r, w1) ->
  forall method2 params2 fn2 st2,
    with_task_log method2 params2 id fn2 st2 w1 = (retry_answer (str_id id) r, w1).
Proof. apply with_task_log_retry. Qed.
End TaskLogFacts.

Lemma with_task_log_replay_witness :
  let fn : W json := mret (JInt 1) in
  let run1 := with_task_log (H := demo_env) "M" JNull (JInt 7) fn status_completed empty_world in
  with_task_log (H := demo_env) "Other" (JList []) (JInt 7) (throw IntegrityError) status_completed
    (snd run1) = (Ok (JInt 1), snd run1).
Proof.
  cbv zeta.
  refine (@with_task_log_replay demo_env "M" JNull (JInt 7) (mret (JInt 1) : W json) status_completed
    empty_world (Ok (JInt 1)) _ _ _ _ _ _ "Other" (JList []) (throw IntegrityError) status_completed).
  - discriminate.
  - reflexivity.
  - reflexivity.
  - intros v _. left. reflexivity.
  - reflexivity.
Defined.

(** ** Dispatch *)

Section DispatchFacts.
Context `{Env}.

Lemma validate_token_sound auth d desk :
  validate_token auth d = Some desk ->
  exists p r, auth = Some p /\ p <> "" /\ In r (tokens d) /\ tk_drydock_id r = desk
              /\ tk_sha256 r = sha256 p.
Proof.
  destruct auth as [p|]; cbn; [|done]. destruct (is_empty p) eqn:E; [done|].
  unfold find_desk_by_token_hash. destruct (tbl_first _ _) as [r|] eqn:Hr; [|done]. cbn.
  intros [= <-]. apply tbl_first_Some in Hr as [Hin Hp]. apply is_empty_false in E.
  unfold token_hash, hash_token in Hp. breflect. eauto 10.
Qed.

Definition protected_methods : list string :=
  ["SpawnChild"; "RequestCapability"; "ReleaseCapability"; "ListChildren"; "daemon.whoami";
   "RegisterWorkload"; "ReleaseWorkload"; "AuditorAction"; "RegisterClarification";
   "UpdateProxyAllowlist"].

Lemma protected_spec h m :
  In m protected_methods -> exists spec, assoc m (_METHODS h) = Some spec /\ requires_auth spec = true.
Proof.
  unfold protected_methods. cbn [In]. intros Hm.
  repeat (destruct Hm as [<-|Hm]; [eexists; split; reflexivity|]). done.
Qed.

Definition respond (p : parsed) (r : res exn json) : json :=
  match r with Ok v => success_response (p_id p) v | Err e => exn_response (p_id p) e end.

Lemma resolve_caller_eq spec auth w :
  _resolve_caller spec auth w
  = (match validate_token auth (w_db w) with
     | Some c => Ok (Some c)
     | None => if requires_auth spec
               then Err (RpcError (-32004) "unauthenticated" (Some (JObj [("reason", JStr
                      (match auth with None => "no_token" | Some _ => "invalid_token" end))])))
               else Ok None
     end, w).
Proof.
  unfold _resolve_caller. destruct auth as [a|].
  - rewrite reg_gets_bind. destruct (validate_token _ _); [done|]. by destruct (requires_auth spec).
  - by destruct (requires_auth spec).
Qed.

(** A protected method's handler runs only for a caller whose token is on record:
    it gets the desk that owns the presented token (a token row with the hash of a nonempty
    plaintext), never one taken from the request; with no token or one that is not on record the
    answer is -32004 and the world does not change. *)
Theorem dispatch_authenticated h payload p w :
  _parse_request payload = Ok p -> p_notification p = false ->
  In (p_method p) protected_methods ->
  (exists desk r plaintext spec,
      p_auth p = Some plaintext /\ plaintext <> "" /\ In r (tokens (w_db w))
      /\ tk_drydock_id r = desk /\ tk_sha256 r = sha256 plaintext
      /\ assoc (p_method p) (_METHODS h) = Some spec
      /\ let '(v, w') := handler spec (p_params p) (p_id p) (Some desk) w in
         _dispatch (_METHODS h) payload w = (Some (respond p v), w'))
  \/ (validate_token (p_auth p) (w_db w) = None
      /\ exists reason, _dispatch (_METHODS h) payload w
           = (Some (error_response (p_id p) (-32004) "unauthenticated"
                      (Some (JObj [("reason", JStr reason)]))), w)).
Proof.
  intros Hp Hn Hm. destruct (protected_spec h _ Hm) as (spec & Hs & Ha).
  unfold _dispatch. rewrite Hp, Hn, Hs. unfold mbind, M_bind. rewrite resolve_caller_eq, Ha.
  destruct (validate_token _ _) as [desk|] eqn:Hv.
  - left. destruct (validate_token_sound _ _ _ Hv) as (pt & r & H1 & H2 & H3 & H4 & H5).
    exists desk, r, pt, spec. destruct (handler spec (p_params p) (p_id p) (Some desk) w) as [v w'].
    eauto 10.
  - right. split; [done|]. eexists. reflexivity.
Qed.

(** The daemon answers every request once and no notification: a payload that is
    not a request gets -32600 with a null id, an unknown method -32601, and any outcome of a
    handler, an unexpected exception included, becomes one response with the
    request's id; a notification runs nothing and changes nothing. *)
Theorem dispatch_total ms payload w :
  let '(resp, w') := _dispatch ms payload w in
  match _parse_request payload with
  | Err _ => resp = Some (error_response JNull (-32600) "Invalid Request" None) /\ w' = w
  | Ok p =>
      if p_notification p then resp = None /\ w' = w
      else match assoc (p_method p) ms with
           | None => w' = w /\ resp = Some (error_response (p_id p) (-32601)
                                        ("Method not found: " +:+ p_method p) None)
           | Some _ => exists v, resp = Some (respond p v)
           end
  end.
Proof.
  assert (forall e, _parse_request payload = Err e -> e = RpcError (-32600) "Invalid Request" None)
    as Herr.
  { intros e. unfold _parse_request, invalid_request. intros He.
    repeat case_hyp He; congruence. }
  unfold _dispatch. destruct (_parse_request payload) as [p|e] eqn:Hp.
  - destruct (p_notification p); [done|]. destruct (assoc _ ms) as [spec|]; [|done].
    case_goal. eexists. reflexivity.
  - by rewrite (Herr e eq_refl).
Qed.
End DispatchFacts.

Definition demo_handlers : handlers :=
  let f : json -> json -> option string -> W json := fun _ _ c => mret (opt_str c) in
  mkHandlers f f f f f f f f f f f f f f f f f.

Lemma dispatch_authenticated_witness :
  exists reason,
    _dispatch (H := demo_env) (_METHODS demo_handlers)
      (JObj [("jsonrpc", JStr "2.0"); ("id", JInt 1); ("method", JStr "SpawnChild")]) empty_world
    = (Some (error_response (JInt 1) (-32004) "unauthenticated"
               (Some (JObj [("reason", JStr reason)]))), empty_world).
Proof.
  destruct (@dispatch_authenticated demo_env demo_handlers
    (JObj [("jsonrpc", JStr "2.0"); ("id", JInt 1); ("method", JStr "SpawnChild")])
    (mkParsed "SpawnChild" JNull (JInt 1) None false) empty_world eq_refl eq_refl
    (or_introl eq_refl)) as [(desk & r & pt & spec & Hp & _)|(_ & H)].
  - discriminate Hp.
  - exact H.
Defined.

(** ** Tokens *)

Section AuthFacts.
Context `{Env}.

Definition token_char (c : ascii) : bool := negb (is_space c) && negb (Ascii.eqb "=" c).

Lemma get_all_chars p s n c : all_chars p s = true -> String.get n s = Some c -> p c = true.
Proof.
  revert n. induction s as [|d s IH]; intros n; [done|]. cbn [all_chars]. intros [Hd Hs]%andb_true_iff.
  destruct n as [|n]; cbn; [by intros [= <-] | by apply IH].
Qed.

Lemma b64_char_ok n : token_char (b64_char n) = true.
Proof.
  unfold b64_char. destruct (String.get _ b64_alphabet) as [c|] eqn:E; [|done].
  apply (get_all_chars token_char b64_alphabet _ _ ltac:(reflexivity) E).
Qed.

Lemma rstrip_keep p c s : p c = false -> rstrip_by p (String c s) = String c (rstrip_by p s).
Proof. cbn. intros ->. by rewrite andb_false_r. Qed.

Lemma rstrip_b64 bs :
  all_chars token_char (rstrip_by (Ascii.eqb "=") (urlsafe_b64encode bs)) = true.
Proof.
  assert (forall n s, all_chars token_char (rstrip_by (Ascii.eqb "=") s) = true ->
     all_chars token_char (rstrip_by (Ascii.eqb "=") (String (b64_char n) s)) = true) as Hk.
  { intros n s Hs. pose proof (b64_char_ok n) as Hn.
    rewrite rstrip_keep by (unfold token_char in Hn; by breflect).
    cbn [all_chars]. by rewrite Hn, Hs. }
  assert (forall k bs, (length bs <= k)%nat ->
    all_chars token_char (rstrip_by (Ascii.eqb "=") (urlsafe_b64encode bs)) = true) as Hind.
  { clear bs. induction k as [|k IH]; intros [|a [|b [|c bs]]] Hl; cbn [urlsafe_b64encode];
      try done; repeat apply Hk; try done; cbn in Hl; try lia. apply IH. lia. }
  by apply (Hind (length bs)).
Qed.

Lemma generate_token_ok n :
  let t := rstrip_by (Ascii.eqb "=") (urlsafe_b64encode (token_bytes n)) in
  is_empty t = false /\ strip t = t.
Proof.
  cbv zeta. split.
  - pose proof (token_bytes_len n) as Hl. destruct (token_bytes n) as [|a [|b [|c bs]]]; try done.
    cbn [urlsafe_b64encode]. pose proof (b64_char_ok (a / 4)) as Hc.
    rewrite rstrip_keep by (unfold token_char in Hc; by breflect). done.
  - apply strip_by_none. eapply all_chars_impl; [|apply rstrip_b64].
    intros c. unfold token_char. by intros [-> _]%andb_true_iff.
Qed.

(** ** Writing the token file *)

(** The database and one file are as they were in [w0]. *)
Definition same_file (desk n : string) (w0 w : world) : Prop :=
  w_db w = w_db w0 /\ w_files w !! (desk, n) = w_files w0 !! (desk, n).

Lemma same_fs_op desk n w0 : preserves (same_file desk n w0) fs_op.
Proof. intros w Hw. unfold fs_op. by destruct (fs_fault _) as [[? ?]|]. Qed.
Lemma same_chown desk n w0 : preserves (same_file desk n w0) chown_to_container.
Proof.
  apply preserves_catch; [apply same_fs_op|]. intros e.
  destruct (_ =s _); [apply preserves_ret|apply preserves_throw].
Qed.

Lemma same_modify (desk n : string) (w0 : world) (f : gmap (string * string) sfile -> gmap (string * string) sfile) :
  (forall m, f m !! (desk, n) = m !! (desk, n)) ->
  preserves (same_file desk n w0) (modify (E := exn) (fun w => set_files (f (w_files w)) w)).
Proof. intros Hf. apply preserves_modify. intros w [H1 H2]. split; [done|]. cbn. by rewrite Hf. Qed.

Lemma same_mkdir desk n w0 p : preserves (same_file desk n w0) (mkdir_p p).
Proof.
  unfold mkdir_p. apply preserves_bind; [apply same_fs_op|]. intros _. by apply preserves_modify.
Qed.

Lemma same_write desk n w0 k data : k <> n -> preserves (same_file desk n w0) (write_bytes desk k data).
Proof.
  intros Hk. assert (forall v, preserves (same_file desk n w0)
    (modify (E := exn) (fun w => set_files (<[(desk, k) := v]> (w_files w)) w))) as Hput.
  { intros v. apply (same_modify _ _ _ (fun m => <[(desk, k) := v]> m)). intros m.
    apply lookup_insert_ne. congruence. }
  unfold write_bytes, os_error. apply preserves_bind; [apply same_fs_op|]. intros _.
  destruct (is_dir_name k); [apply preserves_throw|]. apply preserves_bind; [apply preserves_gets|].
  intros [f|]; [destruct (_ && _); [apply preserves_throw|]|]; apply Hput.
Qed.

Lemma same_chmod desk n w0 k : k <> n -> preserves (same_file desk n w0) (chmod_ro desk k).
Proof.
  intros Hk. unfold chmod_ro. apply preserves_bind; [apply same_fs_op|]. intros _.
  apply (same_modify _ _ _ (fun m => alter (fun f => mkFile (sf_data f) true) (desk, k) m)).
  intros m. apply lookup_alter_ne. congruence.
Qed.

Lemma fs_op_files w r w' : fs_op w = (r, w') -> w_files w' = w_files w /\ w_db w' = w_db w.
Proof. unfold fs_op. destruct (fs_fault _) as [[? ?]|]; by intros [= <- <-]. Qed.

Lemma chown_files w r w' : chown_to_container w = (r, w') -> w_files w' = w_files w.
Proof.
  unfold chown_to_container, catch. destruct (fs_op w) as [[u|e] w1] eqn:E; apply fs_op_files in E as [E _].
  - by intros [= <- <-].
  - destruct (_ =s _); by intros [= <- <-].
Qed.

Lemma write_bytes_ok desk k data w u w' :
  write_bytes desk k data w = (Ok u, w') -> exists f, w_files w' !! (desk, k) = Some f /\ sf_data f = data.
Proof.
  unfold write_bytes, os_error. intros E. apply bind_inv in E as [(u1 & w1 & _ & E)|(e & _ & [=])].
  destruct (is_dir_name k); [discriminate E|]. rewrite gets_bind in E.
  destruct (w_files w1 !! (desk, k)) as [f|]; [destruct (_ && _); [discriminate E|]|];
    injection E as _ <-; cbn; rewrite lookup_insert_eq; eauto.
Qed.

Lemma chmod_ro_ok desk k w u w' f :
  chmod_ro desk k w = (Ok u, w') -> w_files w !! (desk, k) = Some f ->
  w_files w' !! (desk, k) = Some (mkFile (sf_data f) true).
Proof.
  unfold chmod_ro. intros E Hf. apply bind_inv in E as [(u1 & w1 & E1 & E)|(e & _ & [=])].
  apply fs_op_files in E1 as [E1 _]. rewrite modify_eq in E. injection E as _ <-. cbn.
  by rewrite lookup_alter_eq, E1, Hf.
Qed.

(** The file of a token, whole, or the file as it was. *)
Lemma write_secret_atomic_all_or_nothing desk n data w :
  n +:+ ".tmp" <> n ->
  let '(r, w') := _write_secret_atomic desk n data w in
  w_db w' = w_db w
  /\ match r with
     | Ok _ => w_files w' !! (desk, n) = Some (mkFile data true)
     | Err _ => w_files w' !! (desk, n) = w_files w !! (desk, n)
     end.
Proof.
  intros Hne. set (tmp := n +:+ ".tmp") in *. unfold _write_secret_atomic. fold tmp. cbv zeta.
  assert (same_file desk n w w) as H0 by done.
  (* every step but the last leaves the file alone *)
  assert (forall {A} (m : W A) (k : A -> W unit) w1, preserves (same_file desk n w) m -> same_file desk n w w1 ->
    (forall a w2, same_file desk n w w2 -> m w1 = (Ok a, w2) ->
      let '(r, w') := k a w2 in w_db w' = w_db w /\ match r with
        | Ok _ => w_files w' !! (desk, n) = Some (mkFile data true)
        | Err _ => w_files w' !! (desk, n) = w_files w !! (desk, n) end) ->
    let '(r, w') := (m ≫= k) w1 in w_db w' = w_db w /\ match r with
        | Ok _ => w_files w' !! (desk, n) = Some (mkFile data true)
        | Err _ => w_files w' !! (desk, n) = w_files w !! (desk, n) end) as step.
  { intros A m k w1 Hm Hw1 Hk. specialize (Hm w1 Hw1). unfold mbind, M_bind.
    destruct (m w1) as [[a|e] w2]; [by apply Hk|exact Hm]. }
  apply step; [apply same_mkdir|done|]. intros _ w1 H1 _.
  apply step; [apply same_fs_op|done|]. intros _ w2 H2 _.
  apply step; [apply same_chown|done|]. intros _ w3 H3 _.
  apply step; [by apply same_write|done|]. intros u4 w4 H4 (f & Hf & <-)%write_bytes_ok.
  apply step; [by apply same_chmod|done|]. intros u5 w5 H5 E5.
  apply (chmod_ro_ok _ _ _ _ _ f) in E5; [|done].
  apply step; [apply same_chown|done|]. intros u6 w6 H6 E6%chown_files.
  unfold os_replace. apply step; [apply same_fs_op|done|]. intros u7 w7 H7 E7.
  apply fs_op_files in E7 as [E7 _]. rewrite gets_bind, E7, E6, E5. cbn. split; [apply H7|].
  by rewrite lookup_insert_eq.
Qed.

(** Issuing a token to a desk that has none writes the plaintext file first and the
    token row last: if any file operation fails, no token is on record and the old file is
    untouched; on success the file holds the plaintext, the database only its hash,
    the token validates to that desk as long as no other desk's token has the same hash, and
    issuing again (the file read not failing) returns the same plaintext and changes neither
    database nor files. *)
Theorem issue_token_validates desk w :
  get_token_info desk (w_db w) = None ->
  let '(r, w') := issue_token_for_desk desk w in
  match r with
  | Err _ => w_db w' = w_db w
             /\ w_files w' !! (desk, TOKEN_FILENAME) = w_files w !! (desk, TOKEN_FILENAME)
  | Ok t =>
      (exists row, tokens (w_db w') = tokens (w_db w) ++ [row]
                   /\ tk_drydock_id row = desk /\ tk_sha256 row = sha256 t)
      /\ w_files w' !! (desk, TOKEN_FILENAME) = Some (mkFile t true)
      /\ (find_desk_by_token_hash (sha256 t) (w_db w) = None ->
          validate_token (Some t) (w_db w') = Some desk)
      /\ (fs_fault (w_fsops w') = None ->
          let '(r2, w2) := issue_token_for_desk desk w' in
          r2 = Ok t /\ w_db w2 = w_db w' /\ w_files w2 = w_files w')
  end.
Proof.
  intros Hnone. unfold issue_token_for_desk at 1. rewrite reg_gets_bind, Hnone.
  set (t := rstrip_by (Ascii.eqb "=") (urlsafe_b64encode (token_bytes (w_uuids w)))).
  destruct (generate_token_ok (w_uuids w)) as [Ht1 Ht2]. fold t in Ht1, Ht2.
  set (w0 := mkWorld (w_db w) (w_files w) (w_host w) (w_audit w) (w_calls w) (w_ticks w) (S (w_uuids w))
               (w_fsops w)).
  rewrite (bind_ok generate_token _ w t w0) by done.
  pose proof (write_secret_atomic_all_or_nothing desk TOKEN_FILENAME t w0
    ltac:(discriminate)) as Hw.
  destruct (_write_secret_atomic desk TOKEN_FILENAME t w0) as [[u|e] w1] eqn:Ew.
  2:{ rewrite (bind_err _ _ _ _ _ Ew). exact Hw. }
  rewrite (bind_ok _ _ _ _ _ Ew). destruct Hw as [Hdb Hf].
  unfold mbind, M_bind, utc_now, reg, insert_token, modify, mret, M_ret. cbv beta zeta. cbn [w_db].
  rewrite Hdb. change (w_db w0) with (w_db w).
  assert (existsb (token_of desk) (tokens (w_db w)) = false) as Hex.
  { apply not_true_iff_false. intros (x & Hx & Hp)%existsb_exists.
    unfold get_token_info in Hnone. rewrite tbl_first_None in Hnone. by rewrite Hnone in Hp. }
  rewrite Hex. cbn [set_db w_db w_files tokens set_tokens].
  split; [|split; [done|split]].
  - eexists. split; [reflexivity|]. split; reflexivity.
  - intros Hfresh. cbn. rewrite Ht1. unfold find_desk_by_token_hash in *. cbn [tokens set_tokens].
    rewrite tbl_first_app. destruct (tbl_first _ (tokens (w_db w))) eqn:E; [done|].
    unfold tbl_first, token_hash; cbn. by rewrite String.eqb_refl.
  - intros Hread. unfold issue_token_for_desk. rewrite reg_gets_bind. unfold get_token_info in *.
    cbn [w_db set_db tokens set_tokens]. rewrite tbl_first_app, Hnone.
    unfold tbl_first at 1; cbn [List.find]. unfold token_of at 1; cbn [tk_drydock_id].
    rewrite String.eqb_refl. cbv iota. unfold mbind, M_bind, catch, read_text, mbind, M_bind, fs_op.
    cbn [w_fsops set_db] in Hread |- *. rewrite Hread. unfold gets. cbn [w_files set_db]. rewrite Hf.
    cbn [sf_data]. unfold mret, M_ret. by rewrite Ht2.
Qed.
End AuthFacts.

Lemma issue_token_validates_witness :
  exists t, fst (issue_token_for_desk (H := demo_env) "dock_a" empty_world) = Ok t
  /\ validate_token (H := demo_env) (Some t) (w_db (snd (issue_token_for_desk (H := demo_env) "dock_a" empty_world)))
     = Some "dock_a".
Proof.
  pose proof (@issue_token_validates demo_env "dock_a" empty_world eq_refl) as HH.
  destruct (issue_token_for_desk (H := demo_env) "dock_a" empty_world) as [[t|e] w'] eqn:E.
  - exists t. split; [reflexivity|]. destruct HH as (_ & _ & Hv & _). apply Hv. reflexivity.
  - exfalso. revert E. vm_compute. discriminate.
Defined.
