(* ===== verification/Ceilings.v ===== *)
(** [core/resource_ceilings.py] and [core/cgroup.py]: hard resource ceilings, their
    parsing, and the [docker update] calls that apply and revert them on a running
    container. A flag is kept structured and rendered when the command runs. *)

From S2P Require Import Prelude PyStr PyVal Regex Datetime Registry World.
From Stdlib Require Import List.
From Corelib Require Import SpecFloat.

(** ** [HardCeilings] *)

Record HardCeilings : Type := mkCeilings {
  cpu_max : option spec_float; memory_max : option string; pids_max : option Z
}.

Definition no_ceilings : HardCeilings := mkCeilings None None None.

Definition ceiling_error {A} (msg : string) : res exn A := Err (PyError "ResourceCeilingError" msg).

Section Parsing.
Context `{FloatRepr}.

Definition _parse_cpu (value : json) : res exn (option spec_float) :=
  match value with
  | JNull => Ok None
  | JBool _ => ceiling_error "cpu_max must be a positive number, got bool"
  | JInt z =>
      if z <=? 0 then ceiling_error ("cpu_max must be > 0, got " +:+ str_of_Z z)
      else match float_of_pos z with
           | Some f => Ok (Some f)
           | None => Err (PyError "OverflowError" "int too large to convert to float")
           end
  | JFloat f => if float_nonpos f then ceiling_error ("cpu_max must be > 0, got " +:+ float_repr f)
                else Ok (Some f)
  | v => ceiling_error ("cpu_max must be a positive number, got " +:+ type_name v)
  end.

Definition _parse_pids (value : json) : res exn (option Z) :=
  match value with
  | JNull => Ok None
  | JInt z => if z <? 1 then ceiling_error ("pids_max must be >= 1, got " +:+ str_of_Z z) else Ok (Some z)
  | v => ceiling_error ("pids_max must be a positive integer, got " +:+ py_repr v)
  end.

(** The number of leading characters that satisfy [p], split off. *)
Fixpoint span (p : ascii -> bool) (s : string) : string * string :=
  match s with
  | EmptyString => (EmptyString, EmptyString)
  | String c s' => if p c then let '(a, b) := span p s' in (String c a, b) else (EmptyString, s)
  end.

(** An optional character of a class, split off. *)
Definition take_opt (p : ascii -> bool) (s : string) : string * string :=
  match s with
  | String c s' => if p c then (String c EmptyString, s') else (EmptyString, s)
  | EmptyString => (EmptyString, EmptyString)
  end.

Definition one_of (cs : string) (c : ascii) : bool := has_char c cs.

(** [_MEMORY_RE = ^(\d+)\s*([kKmMgG]?)([iI]?)([bB]?)$] matched against a stripped string
    (so [$] is the end): groups 1 and 2. The classes that follow one another are disjoint,
    hence one way to match. *)
Definition memory_groups (s : string) : option (string * string) :=
  let '(digits, r1) := span is_digit s in
  let '(_, r2) := span is_space r1 in
  let '(prefix, r3) := take_opt (one_of "kKmMgG") r2 in
  let '(_, r4) := take_opt (one_of "iI") r3 in
  let '(_, r5) := take_opt (one_of "bB") r4 in
  if is_empty digits || negb (is_empty r5) then None else Some (digits, prefix).

Definition _DOCKER_UNIT_FROM_PREFIX (prefix : string) : string :=
  if is_empty prefix then "b" else prefix.

Definition _parse_memory (value : json) : res exn (option string) :=
  match value with
  | JNull => Ok None
  | JBool _ => ceiling_error "memory_max must be a size string or int, got bool"
  | JInt z => if z <=? 0 then ceiling_error ("memory_max must be > 0, got " +:+ str_of_Z z)
              else Ok (Some (str_of_Z z +:+ "b"))
  | JStr v =>
      let s := strip v in
      if is_empty s then ceiling_error "memory_max cannot be empty"
      else match memory_groups s with
           | None => ceiling_error ("memory_max " +:+ repr_str v +:+ " is not a recognized size; "
                       +:+ "use forms like '4g', '256m', '1024k', or '4Gi'")
           | Some (digits, prefix) =>
               let n := int_of_digits digits in
               if n <=? 0 then ceiling_error ("memory_max must be > 0, got " +:+ repr_str v)
               else Ok (Some (str_of_Z n +:+ _DOCKER_UNIT_FROM_PREFIX (lower prefix)))
           end
  | v => ceiling_error ("memory_max must be a size string or int, got " +:+ type_name v)
  end.

Definition ceiling_keys : list string := ["cpu_max"; "memory_max"; "pids_max"].
Definition is_ceiling_key (k : string) : bool := existsb (String.eqb k) ceiling_keys.

(** [HardCeilings.from_dict]. *)
Definition from_dict (raw : json) : res exn HardCeilings :=
  if negb (truthy raw) then Ok no_ceilings
  else match raw with
       | JObj o =>
           let unknown := List.filter (fun k => negb (is_ceiling_key k)) (map fst o) in
           match unknown with
           | _ :: _ => ceiling_error ("unknown resources_hard keys: " +:+ repr_sorted unknown
                         +:+ "; supported: cpu_max, memory_max, pids_max")
           | [] =>
             cpu ← _parse_cpu (jget "cpu_max" o);
             mem ← _parse_memory (jget "memory_max" o);
             pids ← _parse_pids (jget "pids_max" o);
             Ok (mkCeilings cpu mem pids)
           end
       | v => ceiling_error ("resources_hard must be a mapping, got " +:+ type_name v)
       end.

End Parsing.

Definition opt_item {A} (k : string) (f : A -> json) (o : option A) : list (string * json) :=
  match o with Some v => [(k, f v)] | None => [] end.

(** [HardCeilings.to_dict]. *)
Definition to_dict (h : HardCeilings) : list (string * json) :=
  opt_item "cpu_max" JFloat (cpu_max h) ++ opt_item "memory_max" JStr (memory_max h)
  ++ opt_item "pids_max" JInt (pids_max h).

Definition ceilings_is_empty (h : HardCeilings) : bool :=
  match h with mkCeilings None None None => true | _ => false end.

(** ** Docker flags *)

Inductive flag : Type :=
  | Cpus (f : spec_float) | Memory (s : string) | MemorySwap (s : string) | PidsLimit (z : Z).

Definition opt_flags {A} (f : A -> list flag) (o : option A) : list flag :=
  match o with Some v => f v | None => [] end.

(** [HardCeilings.to_docker_runargs]. *)
Definition to_docker_runargs (h : HardCeilings) : list flag :=
  opt_flags (fun c => [Cpus c]) (cpu_max h) ++ opt_flags (fun m => [Memory m]) (memory_max h)
  ++ opt_flags (fun p => [PidsLimit p]) (pids_max h).

(** [cgroup._flags_for]. *)
Definition _flags_for (limits : HardCeilings) : list flag :=
  opt_flags (fun c => [Cpus c]) (cpu_max limits)
  ++ opt_flags (fun m => [Memory m; MemorySwap m]) (memory_max limits)
  ++ opt_flags (fun p => [PidsLimit p]) (pids_max limits).

(** [cgroup._revert_flags_for]: [lifted] is not looked at. *)
Definition _revert_flags_for (original lifted : HardCeilings) : list flag :=
  opt_flags (fun m => [Memory m; MemorySwap m]) (memory_max original)
  ++ opt_flags (fun c => [Cpus c]) (cpu_max original)
  ++ opt_flags (fun p => [PidsLimit p]) (pids_max original).

Section Cgroup.
Context `{Env}.

Definition render_flag (f : flag) : string :=
  match f with
  | Cpus c => "--cpus=" +:+ float_repr c
  | Memory m => "--memory=" +:+ m
  | MemorySwap m => "--memory-swap=" +:+ m
  | PidsLimit p => "--pids-limit=" +:+ str_of_Z p
  end.

Definition cgroup_error {A} (msg : string) : W A := throw (PyError "CgroupUpdateError" msg).

Definition docker_bin : string := default "docker" (which "docker").

Definition update_call (flags : list flag) (container_id : string) : call :=
  mkCall ([docker_bin; "update"] ++ map render_flag flags ++ [container_id]) "".

(** The [subprocess.run] block the two functions share. *)
Definition docker_update (flags : list flag) (container_id : string) : W (list flag) :=
  out ← run (update_call flags container_id);
  match out with
  | RunNotFound msg => cgroup_error ("docker binary not found: " +:+ msg)
  | RunTimeout _ _ => cgroup_error "docker update timed out after 15s"
  | Ran rc _ stderr =>
      if negb (rc =? 0)
      then cgroup_error ("docker update failed (exit " +:+ str_of_Z rc +:+ "): " +:+ strip stderr)
      else mret flags
  end.

Definition apply_cgroup_limits (container_id : string) (limits : HardCeilings) : W (list flag) :=
  if is_empty container_id then cgroup_error "container_id is required"
  else match _flags_for limits with
       | [] => mret []
       | flags => docker_update flags container_id
       end.

Definition revert_cgroup_limits (container_id : string) (original lifted : HardCeilings)
    : W (list flag) :=
  match _revert_flags_for original lifted with
  | [] => mret []
  | flags => docker_update flags container_id
  end.
End Cgroup.

(** ** The container's side

    The limits of a container, by docker option: what the successful [docker update]
    calls of a trace set, on top of the limits it was created with. *)

Abbreviation limits := (gmap string string).

(** [--key=value] sets [key]. *)
Definition set_arg (arg : string) (l : limits) : limits :=
  match split_once "=" arg with Some (k, v) => <[k := v]> l | None => l end.

Definition set_args (args : list string) (l : limits) : limits :=
  fold_left (fun l a => set_arg a l) args l.

(** The flags of a [docker update] of container [cid]. *)
Definition update_args (cid : string) (c : call) : option (list string) :=
  match argv c with
  | _ :: cmd :: rest =>
      match rev rest with
      | last :: flags => if (cmd =s "update") && (last =s cid) then Some (rev flags) else None
      | [] => None
      end
  | _ => None
  end.

Section Trace.
Context `{Env} (cid : string).

Definition limits_step (l : limits) (past : list call) (c : call) : limits :=
  match subprocess_run past c with
  | Ran 0 _ _ => match update_args cid c with Some fs => set_args fs l | None => l end
  | _ => l
  end.

(** The limits after the calls of a trace. *)
Definition trace_limits (created : limits) (calls : list call) : limits :=
  fst (fold_left (fun '(l, past) c => (limits_step l past c, past ++ [c])) calls (created, [])).
End Trace.

(** * Theorems

    Correctness of [Ceilings.v]: the normal form of memory sizes, the stored form of
    ceilings, and what a lift followed by its revert does to a container. *)

(** ** Memory sizes *)

Lemma span_app p a b :
  all_chars p a = true -> match b with String c _ => p c = false | EmptyString => True end ->
  span p (a +:+ b) = (a, b).
Proof.
  intros Ha Hb. induction a as [|c a IH]; cbn.
  - destruct b as [|c b]; [done|]. cbn. by rewrite Hb.
  - cbn in Ha. apply andb_true_iff in Ha as [-> Ha]. by rewrite IH.
Qed.

Lemma digit_not_space c : is_digit c = true -> is_space c = false.
Proof.
  intros H. pose proof (forall_ascii (fun c => implb (is_digit c) (negb (is_space c)))
    ltac:(by intros [] [] [] [] [] [] [] []) c) as Hc. cbn beta in Hc. rewrite H in Hc.
  by apply negb_true_iff.
Qed.

Lemma memory_prefix c :
  one_of "kKmMgG" c = true -> In (lower (String c "")) ["k"; "m"; "g"].
Proof.
  intros H. pose proof (forall_ascii (fun c => implb (one_of "kKmMgG" c)
    (existsb (String.eqb (lower (String c ""))) ["k"; "m"; "g"]))
    ltac:(by intros [] [] [] [] [] [] [] []) c) as Hc. cbn beta in Hc. rewrite H in Hc.
  apply existsb_exists in Hc as (x & Hx & He). breflect. by rewrite He.
Qed.

(** The units docker reads. *)
Definition docker_units : list string := ["b"; "k"; "m"; "g"].

Definition normal_size (w : string) : Prop :=
  exists n u, 0 < n /\ In u docker_units /\ w = str_of_Z n +:+ u.

Lemma memory_groups_prefix s d p :
  memory_groups s = Some (d, p) -> In (_DOCKER_UNIT_FROM_PREFIX (lower p)) docker_units.
Proof.
  unfold memory_groups. destruct (span is_digit s) as [d0 r1], (span is_space r1) as [x r2].
  destruct (take_opt (one_of "kKmMgG") r2) as [p0 r3] eqn:E.
  destruct (take_opt (one_of "iI") r3) as [y r4], (take_opt (one_of "bB") r4) as [z r5].
  destruct (_ || _); [done|]. intros [= <- <-].
  unfold take_opt in E. destruct r2 as [|c r2]; [injection E as <- <-; by left|].
  destruct (one_of "kKmMgG" c) eqn:Ec; injection E as <- <-; [|by left].
  apply memory_prefix in Ec. unfold _DOCKER_UNIT_FROM_PREFIX. rewrite lower_is_empty. by right.
Qed.

Lemma memory_groups_normal n u :
  0 < n -> In u docker_units ->
  exists p, memory_groups (str_of_Z n +:+ u) = Some (str_of_Z n, p)
            /\ _DOCKER_UNIT_FROM_PREFIX (lower p) = u.
Proof.
  intros Hn Hu. unfold memory_groups.
  rewrite span_app; [|apply str_of_Z_digits; lia|by destruct Hu as [<-|[<-|[<-|[<-|[]]]]]].
  pose proof (str_of_Z_nonempty n ltac:(lia)) as He.
  destruct Hu as [<-|[<-|[<-|[<-|[]]]]]; cbn -[str_of_Z]; rewrite He; cbn;
    eexists; (split; [reflexivity|reflexivity]).
Qed.

Lemma normal_size_strip w : normal_size w -> strip w = w /\ is_empty w = false.
Proof.
  intros (n & u & Hn & Hu & ->). split.
  - apply strip_by_none. rewrite all_chars_app. apply andb_true_iff. split.
    + eapply all_chars_impl; [|apply str_of_Z_digits; lia].
      intros c Hc. by rewrite (digit_not_space c Hc).
    + by destruct Hu as [<-|[<-|[<-|[<-|[]]]]].
  - pose proof (str_of_Z_nonempty n ltac:(lia)). by destruct (str_of_Z n).
Qed.

Lemma parse_normal_size w : normal_size w -> _parse_memory (JStr w) = Ok (Some w).
Proof.
  intros Hw. destruct (normal_size_strip w Hw) as [Hs He].
  destruct Hw as (n & u & Hn & Hu & ->). unfold _parse_memory. rewrite Hs, He.
  destruct (memory_groups_normal n u Hn Hu) as (p & -> & Hp).
  rewrite int_of_str_of_Z, (proj2 (Z.leb_gt n 0)), Hp by lia. done.
Qed.

Lemma parse_memory_normal v w : _parse_memory v = Ok (Some w) -> normal_size w.
Proof.
  destruct v as [|b|z|f|s|l|o]; cbn -[strip memory_groups str_of_Z]; try done.
  - destruct (Z.leb_spec z 0); [done|]. intros [= <-]. exists z, "b". split; [done|]. split; [by left|done].
  - destruct (is_empty (strip s)); [done|].
    destruct (memory_groups (strip s)) as [[d p]|] eqn:E; [|done].
    destruct (Z.leb_spec (int_of_digits d) 0); [done|]. intros [= <-].
    exists (int_of_digits d), (_DOCKER_UNIT_FROM_PREFIX (lower p)).
    split; [done|]. split; [by eapply memory_groups_prefix | done].
Qed.

(** Every accepted memory size, whatever its spelling ("4G", "4 GiB", an int of bytes),
    is normalised to a positive decimal followed by one of docker's units b, k, m, g, and
    normalising that again gives the same string. *)
Theorem parse_memory_idempotent v w :
  _parse_memory v = Ok (Some w) -> normal_size w /\ _parse_memory (JStr w) = Ok (Some w).
Proof. intros H. apply parse_memory_normal in H. split; [done|]. by apply parse_normal_size. Qed.

Lemma parse_memory_idempotent_witness :
  normal_size "4g" /\ _parse_memory (JStr "4g") = Ok (Some "4g").
Proof. apply (parse_memory_idempotent (JStr " 4 GiB ")). reflexivity. Defined.

(** ** Stored ceilings *)

(** What [from_dict] returns. *)
Definition valid_ceilings (h : HardCeilings) : Prop :=
  (forall f, cpu_max h = Some f -> float_nonpos f = false)
  /\ (forall m, memory_max h = Some m -> normal_size m)
  /\ (forall p, pids_max h = Some p -> 1 <= p).

Section Stored.
Context `{FloatRepr}.

Lemma parse_cpu_valid v f : _parse_cpu v = Ok (Some f) -> float_nonpos f = false.
Proof.
  destruct v as [|b|z|g|s|l|o]; cbn -[float_of_pos]; try done.
  - destruct (z <=? 0); [done|]. unfold float_of_pos.
    destruct (binary_normalize 53 1024 z 0 false) as [|s|s|[] m e]; try done. by intros [= <-].
  - destruct (float_nonpos g) eqn:E; [done|]. by intros [= <-].
Qed.

Lemma parse_pids_valid v p : _parse_pids v = Ok (Some p) -> 1 <= p.
Proof. destruct v as [|b|z|g|s|l|o]; cbn; try done. destruct (Z.ltb_spec z 1); [done|]. by intros [= <-]. Qed.

Lemma from_dict_valid raw h : from_dict raw = Ok h -> valid_ceilings h.
Proof.
  unfold from_dict. destruct (negb (truthy raw)).
  - intros [= <-]. repeat split; done.
  - destruct raw; try done. cbv zeta. destruct (List.filter _ _); [|done].
    intros (cpu & Hc & (mem & Hm & (pids & Hp & [= <-])%res_bind_ok)%res_bind_ok)%res_bind_ok.
    split; [|split]; cbn; intros x ->;
      [by eapply parse_cpu_valid | by eapply parse_memory_normal | by eapply parse_pids_valid].
Qed.

Lemma from_dict_to_dict_valid h : valid_ceilings h -> from_dict (JObj (to_dict h)) = Ok h.
Proof.
  intros (Hc & Hm & Hp). destruct h as [c m p]; cbn [cpu_max memory_max pids_max] in *.
  assert (match c with Some f => _parse_cpu (JFloat f) = Ok (Some f) | None => True end) as Hc'
    by (destruct c as [f|]; [cbn; by rewrite (Hc f eq_refl) | done]).
  assert (match m with Some s => _parse_memory (JStr s) = Ok (Some s) | None => True end) as Hm'
    by (destruct m as [s|]; [by apply parse_normal_size, Hm | done]).
  assert (match p with Some z => _parse_pids (JInt z) = Ok (Some z) | None => True end) as Hp'.
  { destruct p as [z|]; [|done]. cbn. by rewrite (proj2 (Z.ltb_ge z 1) (Hp z eq_refl)). }
  unfold from_dict, to_dict; destruct c, m, p; cbn -[_parse_cpu _parse_memory _parse_pids];
    rewrite ?Hc', ?Hm', ?Hp'; reflexivity.
Qed.

(** Ceilings survive storage: whatever [from_dict] accepts, its [to_dict] form parses
    back to the same ceilings, so the registry's and the lease's copies mean what was
    validated. *)
Theorem from_dict_to_dict raw h : from_dict raw = Ok h -> from_dict (JObj (to_dict h)) = Ok h.
Proof. intros Hr. eapply from_dict_to_dict_valid, from_dict_valid, Hr. Qed.
End Stored.

Lemma from_dict_to_dict_witness :
  @from_dict (@env_float_repr demo_env) (JObj (to_dict (mkCeilings None (Some "8g") (Some 256))))
  = Ok (mkCeilings None (Some "8g") (Some 256)).
Proof.
  apply (@from_dict_to_dict (@env_float_repr demo_env) (JObj [("memory_max", JStr "8Gi"); ("pids_max", JInt 256)])). reflexivity.
Defined.

(** ** Lift and revert *)

Section LiftRevert.
Context `{Env}.

Definition limit_keys : list string := ["--cpus"; "--memory"; "--pids-limit"].

(** The text a ceiling is passed to docker as. *)
Definition ceiling_text (h : HardCeilings) (k : string) : option string :=
  if k =s "--cpus" then option_map float_repr (cpu_max h)
  else if k =s "--memory" then memory_max h
  else if k =s "--pids-limit" then option_map str_of_Z (pids_max h)
  else None.

(** Every ceiling [lifted] sets is one [original] sets. *)
Definition covered (original lifted : HardCeilings) : Prop :=
  forall k, In k limit_keys -> ceiling_text lifted k <> None -> ceiling_text original k <> None.

(** The container runs under [original]. *)
Definition under (original : HardCeilings) (l : limits) : Prop :=
  forall k, In k limit_keys -> ceiling_text original k <> None -> l !! k = ceiling_text original k.

Definition same_ceilings (l1 l2 : limits) : Prop := forall k, In k limit_keys -> l1 !! k = l2 !! k.

#[export] Instance same_ceilings_equiv : Equivalence same_ceilings.
Proof.
  split; [by intros l k|by intros l1 l2 H12 k Hk; rewrite H12|].
  intros l1 l2 l3 H12 H23 k Hk. by rewrite H12, H23.
Qed.

(** [new], if set, replaces [old]. *)
Definition override {A} (new old : option A) : option A :=
  match new with Some _ => new | None => old end.

Lemma set_arg_flag k v l : has_char "=" k = false -> set_arg (k +:+ "=" +:+ v) l = <[k := v]> l.
Proof.
  intros Hk. unfold set_arg.
  replace (split_once "=" (k +:+ "=" +:+ v)) with (Some (k, v)); [done|].
  symmetry. induction k as [|c k IH]; [done|].
  unfold has_char in *. cbn [any_char] in Hk. apply orb_false_iff in Hk as [Hc Hk].
  change (String c k +:+ "=" +:+ v) with (String c (k +:+ "=" +:+ v)).
  cbn [split_once]. by rewrite Ascii.eqb_sym, Hc, IH.
Qed.

Lemma set_arg_render f l :
  set_arg (render_flag f) l
  = match f with
    | Cpus c => <["--cpus" := float_repr c]> l
    | Memory m => <["--memory" := m]> l
    | MemorySwap m => <["--memory-swap" := m]> l
    | PidsLimit p => <["--pids-limit" := str_of_Z p]> l
    end.
Proof.
  destruct f; cbn [render_flag];
    [exact (set_arg_flag "--cpus" _ l eq_refl) | exact (set_arg_flag "--memory" _ l eq_refl)
    | exact (set_arg_flag "--memory-swap" _ l eq_refl) | exact (set_arg_flag "--pids-limit" _ l eq_refl)].
Qed.

(** Both flag lists set exactly the ceilings that are set (and the swap limit). *)
Lemma set_flags h k l fs :
  fs = _flags_for h \/ (exists x, fs = _revert_flags_for h x) -> In k limit_keys ->
  set_args (map render_flag fs) l !! k = override (ceiling_text h k) (l !! k).
Proof.
  intros Hfs Hk. destruct Hfs as [->|[x ->]]; unfold _flags_for, _revert_flags_for, set_args;
    destruct h as [[c|] [m|] [p|]]; cbn [opt_flags cpu_max memory_max pids_max app map fold_left];
    rewrite ?set_arg_render; destruct Hk as [<-|[<-|[<-|[]]]]; rewrite ?lookup_insert; reflexivity.
Qed.
Lemma override_back {A} (original lifted before : option A) :
  (lifted <> None -> original <> None) -> (original <> None -> before = original) ->
  override original (override lifted before) = before.
Proof.
  intros H1 H2. destruct original as [x|]; cbn; [symmetry; by apply H2|].
  destruct lifted; [by destruct H1|done].
Qed.

(** Lifting and then reverting leaves each ceiling as it was. *)
Lemma lift_revert_limits original lifted x l l' :
  covered original lifted -> under original l ->
  same_ceilings l' (set_args (map render_flag (_flags_for lifted)) l) ->
  same_ceilings (set_args (map render_flag (_revert_flags_for original x)) l') l.
Proof.
  intros Hc Hu Hs k Hk. rewrite (set_flags original k l') by eauto. rewrite Hs by done.
  rewrite (set_flags lifted k l) by auto. apply override_back; auto.
Qed.

(** ** Traces *)

Lemma trace_limits_snoc cid created calls c :
  trace_limits cid created (calls ++ [c])
  = limits_step cid (trace_limits cid created calls) calls c.
Proof.
  unfold trace_limits. rewrite fold_left_app. cbn [fold_left].
  assert (forall cs st, snd (fold_left (fun '(l, past) c => (limits_step cid l past c, past ++ [c])) cs st)
                        = snd st ++ cs) as Hp.
  { induction cs as [|c' cs IH]; intros [l past]; cbn [fold_left snd]; [by rewrite app_nil_r|].
    rewrite IH. cbn. by rewrite <- app_assoc. }
  specialize (Hp calls (created, [])). cbn [snd] in Hp.
  destruct (fold_left _ calls (created, [])) as [l past]. cbn in Hp. subst past. done.
Qed.

Lemma update_args_call flags cid :
  update_args cid (update_call flags cid) = Some (map render_flag flags).
Proof.
  unfold update_args, update_call. cbn [argv app]. rewrite rev_app_distr. cbn [rev app].
  rewrite String.eqb_refl, String.eqb_refl. cbn [andb]. by rewrite rev_involutive.
Qed.

(** A [docker update] that returns set its flags; one that raised set none. *)
Lemma docker_update_limits flags cid created w :
  let '(r, w') := docker_update flags cid w in
  let before := trace_limits cid created (w_calls w) in
  let after := trace_limits cid created (w_calls w') in
  (r = Ok flags /\ after = set_args (map render_flag flags) before)
  \/ (is_ok r = false /\ after = before).
Proof.
  unfold docker_update. destruct ((run (update_call flags cid)) w) as [o w1] eqn:E.
  unfold run in E. injection E as <- <-.
  unfold mbind, M_bind, run. cbv zeta. cbn [w_calls].
  destruct (subprocess_run (w_calls w) (update_call flags cid)) as [rc out err|m|m e] eqn:Eo.
  - destruct (Z.eqb_spec rc 0) as [->|Hrc]; cbn -[trace_limits strip str_of_Z];
      rewrite trace_limits_snoc; unfold limits_step; rewrite Eo.
    + left. by rewrite update_args_call.
    + right. split; [done|]. by destruct rc.
  - right. cbn -[trace_limits]. rewrite trace_limits_snoc. unfold limits_step. by rewrite Eo.
  - right. cbn -[trace_limits]. rewrite trace_limits_snoc. unfold limits_step. by rewrite Eo.
Qed.
End LiftRevert.
