(* ===== verification/Overlay.v ===== *)
(** [core/overlay.py]: the devcontainer override of a desk, what of the project's own
    devcontainer.json it is merged into, and the file it is written to. Values that come
    from a desk's stored configuration stay dynamic. *)

From S2P Require Import Prelude PyStr PyVal Registry Policy World Ceilings.
From Stdlib Require Import List.

Record OverlayConfig : Type := mkOverlayConfig {
  secrets_host_dir : string;
  secrets_container_dir : string;
  firewall_extra_domains : list json;
  firewall_ipv6_hosts : list json;
  firewall_aws_ip_ranges : list json;
  tailscale_hostname : json;
  tailscale_authkey : string;
  tailscale_serve_port : json;
  tailscale_advertise_tags : list json;
  remote_control_name : json;
  extra_env : obj;
  oc_extra_mounts : list json;
  storage_mounts : list json;
  forward_ports : list json;
  claude_profile : json;
  wsd_run_host_dir : option string;
  drydock_rpc_host_path : option string;
  oc_resources_hard : obj;
  egress_proxy : string;
  proxy_config_host_dir : option json;
  role : string;
  audit_log_host_path : string;
  registry_db_host_path : string
}.

Definition DEFAULT_SECRETS_CONTAINER_DIR : string := "/run/secrets".
Definition DEFAULT_WSD_RUN_CONTAINER_DIR : string := "/run/drydock".
Definition DEFAULT_WSD_SOCKET_CONTAINER_PATH : string := "/run/drydock/daemon.sock".
Definition DEFAULT_DRYDOCK_RPC_CONTAINER_PATH : string := "/usr/local/bin/drydock-rpc".
Definition DEFAULT_AUDIT_LOG_CONTAINER_PATH : string := "/var/log/drydock/audit.log".
Definition DEFAULT_REGISTRY_DB_CONTAINER_PATH : string := "/var/lib/drydock/registry.db".
Definition SHORT_ID_LENGTH : nat := 6.

Section Overlay.
Context `{Env}.

(** The dataclass defaults. *)
Definition default_config : OverlayConfig := {|
  secrets_host_dir := home // ".drydock" // "secrets";
  secrets_container_dir := DEFAULT_SECRETS_CONTAINER_DIR;
  firewall_extra_domains := []; firewall_ipv6_hosts := []; firewall_aws_ip_ranges := [];
  tailscale_hostname := JStr ""; tailscale_authkey := ""; tailscale_serve_port := JInt 3000;
  tailscale_advertise_tags := []; remote_control_name := JStr ""; extra_env := [];
  oc_extra_mounts := []; storage_mounts := []; forward_ports := []; claude_profile := JStr "";
  wsd_run_host_dir := Some (home // ".drydock" // "run");
  drydock_rpc_host_path := Some (home // ".drydock" // "bin" // "drydock-rpc");
  oc_resources_hard := []; egress_proxy := "disabled"; proxy_config_host_dir := None; role := "worker";
  audit_log_host_path := home // ".drydock" // "audit.log";
  registry_db_host_path := home // ".drydock" // "registry.db"
|}.

Definition _short_id (ws : Drydock) : string := stake SHORT_ID_LENGTH (sha256 (id ws)).
Definition _default_identity (ws : Drydock) : string := name ws +:+ "-" +:+ _short_id ws.

(** ** The container environment *)

(** [env[k] = v] when the condition holds. *)
Definition set_if (c : bool) (k : string) (v : json) (env : obj) : obj := if c then jset k v env else env.

(** [if l: env[k] = sep.join(l)]. *)
Definition set_joined (k sep : string) (l : list json) (env : obj) : res exn obj :=
  match l with [] => Ok env | _ => t ← py_join sep l; Ok (jset k (JStr t) env) end.

Definition proxy_env (env : obj) : obj :=
  let url := JStr "http://127.0.0.1:4750" in
  let direct := JStr "localhost,127.0.0.1,100.64.0.0/10" in
  jmerge env [("EGRESS_PROXY_ENABLED", JStr "1"); ("HTTP_PROXY", url); ("HTTPS_PROXY", url);
              ("http_proxy", url); ("https_proxy", url); ("NO_PROXY", direct); ("no_proxy", direct)].

Definition is_some_path (o : option string) : bool :=
  match o with Some s => negb (is_empty s) | None => false end.

Definition _build_container_env (ws : Drydock) (config : OverlayConfig) : res exn obj :=
  let ident := JStr (_default_identity ws) in
  let env := [("TAILSCALE_HOSTNAME", py_or (tailscale_hostname config) ident)] in
  let env := set_if (negb (is_empty (tailscale_authkey config))) "TAILSCALE_AUTHKEY"
               (JStr (tailscale_authkey config)) env in
  let env := jset "TAILSCALE_SERVE_PORT" (JStr (py_str (tailscale_serve_port config))) env in
  env ← set_joined "TAILSCALE_ADVERTISE_TAGS" "," (tailscale_advertise_tags config) env;
  let env := jset "REMOTE_CONTROL_NAME" (py_or (remote_control_name config) ident) env in
  env ← set_joined "FIREWALL_EXTRA_DOMAINS" " " (firewall_extra_domains config) env;
  env ← set_joined "FIREWALL_IPV6_HOSTS" " " (firewall_ipv6_hosts config) env;
  env ← set_joined "FIREWALL_AWS_IP_RANGES" " " (firewall_aws_ip_ranges config) env;
  let env := if egress_proxy config =s "enabled" then proxy_env env else env in
  let env := match storage_mounts config with
             | [] => env
             | l => jset "STORAGE_MOUNTS_JSON" (JStr (json_dumps (JList l))) env
             end in
  let env := jmerge env [("DRYDOCK_WORKSPACE_ID", JStr (id ws)); ("DRYDOCK_WORKSPACE_NAME", JStr (name ws));
                         ("DRYDOCK_PROJECT", JStr (project ws))] in
  let env := set_if (negb (is_empty (workspace_subdir ws))) "DRYDOCK_WORKSPACE_SUBDIR"
               (JStr (workspace_subdir ws)) env in
  let env := set_if (is_some_path (wsd_run_host_dir config)) "DRYDOCK_DAEMON_SOCKET"
               (JStr DEFAULT_WSD_SOCKET_CONTAINER_PATH) env in
  let env := if role config =s "auditor"
             then jmerge env [("DRYDOCK_DAEMON_REGISTRY", JStr DEFAULT_REGISTRY_DB_CONTAINER_PATH);
                              ("DRYDOCK_AUDIT_LOG", JStr DEFAULT_AUDIT_LOG_CONTAINER_PATH)]
             else env in
  Ok (jmerge env (extra_env config)).

(** ** Mounts *)

Definition bind_ro (source target : string) : json :=
  JStr ("source=" +:+ source +:+ ",target=" +:+ target +:+ ",type=bind,readonly").
Definition volume (source target : string) : json :=
  JStr ("source=" +:+ source +:+ ",target=" +:+ target +:+ ",type=volume").

Definition opt_mount (o : option string) (mk : string -> json) : list json :=
  match o with Some s => if is_empty s then [] else [mk s] | None => [] end.

Definition _build_mounts (ws : Drydock) (config : OverlayConfig) : list json :=
  [bind_ro (secrets_host_dir config // id ws) (secrets_container_dir config)]
  ++ opt_mount (wsd_run_host_dir config)
       (fun d => JStr ("source=" +:+ d +:+ ",target=" +:+ DEFAULT_WSD_RUN_CONTAINER_DIR +:+ ",type=bind"))
  ++ opt_mount (drydock_rpc_host_path config) (fun d => bind_ro d DEFAULT_DRYDOCK_RPC_CONTAINER_PATH)
  ++ (match proxy_config_host_dir config with
      | Some d => if (egress_proxy config =s "enabled") && truthy d
                  then [bind_ro (py_str d) "/run/drydock/proxy"] else []
      | None => []
      end)
  ++ (if role config =s "auditor"
      then [bind_ro (audit_log_host_path config) DEFAULT_AUDIT_LOG_CONTAINER_PATH;
            bind_ro (registry_db_host_path config) DEFAULT_REGISTRY_DB_CONTAINER_PATH]
      else [])
  ++ [volume (if truthy (claude_profile config)
              then "claude-code-config-" +:+ py_str (claude_profile config) else "claude-code-config")
        "/home/node/.claude";
      volume "claude-code-bashhistory-${devcontainerId}" "/commandhistory";
      volume "tailscale-state-${devcontainerId}" "/tmp/tailscale";
      volume "drydock-vscode-server" "/home/node/.vscode-server";
      volume "drydock-npm-cache" "/home/node/.npm";
      volume "drydock-pip-cache" "/home/node/.cache/pip";
      bind_ro "${localEnv:HOME}/.gitconfig" "/home/node/.gitconfig"]
  ++ oc_extra_mounts config.

(** ** The overlay *)

Definition runargs (ws : Drydock) (config : OverlayConfig) : res exn (list json) :=
  let hostname := py_or (tailscale_hostname config) (JStr (_default_identity ws)) in
  ceilings ← (match oc_resources_hard config with
              | [] => Ok []
              | rh => h ← from_dict (JObj rh); Ok (map (fun f => JStr (render_flag f)) (to_docker_runargs h))
              end);
  Ok ([JStr ("--hostname=" +:+ py_str hostname)]
      ++ (match storage_mounts config with
          | [] => []
          | _ => [JStr "--cap-add=SYS_ADMIN"; JStr "--device=/dev/fuse"; JStr "--security-opt=apparmor=unconfined"]
          end)
      ++ ceilings).

Definition generate_overlay (ws : Drydock) (config : OverlayConfig) : res exn obj :=
  args ← runargs ws config;
  env ← _build_container_env ws config;
  Ok ([("name", JStr (name ws)); ("runArgs", JList args)]
      ++ (if is_empty (workspace_subdir ws) then []
          else [("workspaceFolder", JStr ("/workspace/" +:+ workspace_subdir ws))])
      ++ (match env with [] => [] | _ => [("containerEnv", JObj env)] end)
      ++ [("mounts", JList (_build_mounts ws config))]
      ++ (match forward_ports config with [] => [] | l => [("forwardPorts", JList l)] end)).

(** ** Merging into the project's devcontainer.json *)

(** The text after the first ["*/"]. *)
Fixpoint after_close (s : string) : option string :=
  match s with
  | EmptyString => None
  | String c s' => if startswith s "*/" then Some (sdrop 1 s') else after_close s'
  end.

(** The two substitutions of [_strip_jsonc_comments]: every [/* ... */], then everything
    from [//] to the end of its line, wherever they stand. *)
Fixpoint strip_block (fuel : nat) (s : string) : string :=
  match fuel with
  | O => s
  | S fuel =>
      match s with
      | EmptyString => EmptyString
      | String c s' =>
          match (if startswith s "/*" then after_close (sdrop 1 s') else None) with
          | Some rest => strip_block fuel rest
          | None => String c (strip_block fuel s')
          end
      end
  end.

Fixpoint strip_line (skip : bool) (s : string) : string :=
  match s with
  | EmptyString => EmptyString
  | String c s' =>
      if Ascii.eqb c newline then String c (strip_line false s')
      else if skip then strip_line true s'
      else if startswith s "//" then strip_line true s'
      else String c (strip_line false s')
  end.

Definition _strip_jsonc_comments (text : string) : string :=
  strip_line false (strip_block (String.length text) text).

(** [None] is a mount without a target. *)
Definition _mount_target (mount : json) : res exn (option string) :=
  match mount with
  | JStr s =>
      Ok (match List.find (fun part => startswith part "target=") (split_on "," s) with
          | Some part => Some (sdrop 7 part)
          | None => None
          end)
  | v => attr_error v "split"
  end.

#[local] Instance opt_str_dec : EqDecision (option string) := _.

Definition _dedup_mounts (base overlay : list json) : res exn (list json) :=
  overlay_targets ← mapE _mount_target overlay;
  base_targets ← mapE _mount_target base;
  let kept := List.filter (fun mt => negb (existsb (fun t => bool_decide (t = snd mt)) overlay_targets))
                (combine base base_targets) in
  Ok (map fst kept ++ overlay).

(** The [forwardPorts] loop: ports are hashed. *)
Fixpoint merge_ports (seen merged ports : list json) : res exn (list json) :=
  match ports with
  | [] => Ok merged
  | p :: ports =>
      if is_container p then Err (PyError "TypeError" ("unhashable type: '" +:+ type_name p +:+ "'"))
      else if existsb (scalar_eq p) seen then merge_ports seen merged ports
      else merge_ports (seen ++ [p]) (merged ++ [p]) ports
  end.

(** [{**a, **b}] of a value that should be a dict. *)
Definition as_mapping (v : json) : res exn obj :=
  match v with
  | JObj o => Ok o
  | v => Err (PyError "TypeError" ("'" +:+ type_name v +:+ "' object is not a mapping"))
  end.

Definition merge_key (composite : obj) (kv : string * json) : res exn obj :=
  let '(key, value) := kv in
  let old d := jget_default key d composite in
  if key =s "containerEnv" then
    a ← as_mapping (old (JObj [])); b ← as_mapping value;
    Ok (jset key (JObj (jmerge (jmerge [] a) b)) composite)
  else if key =s "mounts" then
    a ← as_list (old (JList [])); b ← as_list value; l ← _dedup_mounts a b;
    Ok (jset key (JList l) composite)
  else if key =s "forwardPorts" then
    a ← as_list (old (JList [])); b ← as_list value; l ← merge_ports [] [] (a ++ b);
    Ok (jset key (JList l) composite)
  else if key =s "runArgs" then
    a ← as_list (old (JList [])); b ← as_list value;
    Ok (jset key (JList (a ++ b)) composite)
  else Ok (jset key value composite).

Fixpoint merge_keys (composite overlay : obj) : res exn obj :=
  match overlay with
  | [] => Ok composite
  | kv :: rest => c ← merge_key composite kv; merge_keys c rest
  end.

(** [build[k]], relative, becomes absolute below [base]; links are not followed. *)
Definition absolutize (base k : string) (build : obj) : obj :=
  match jget k build with
  | JStr p => if is_absolute p then build else jset k (JStr (normpath (base // p))) build
  | _ => build
  end.

Definition rewrite_build (base_path : string) (composite : obj) : obj :=
  match jget "build" composite with
  | JObj build =>
      let base := path_parent base_path in
      jset "build" (JObj (absolutize base "context" (absolutize base "dockerfile" build))) composite
  | _ => composite
  end.

(** [dict(base)]. *)
Definition as_dict (v : json) : res exn obj :=
  match v with
  | JObj o => Ok o
  | JList [] | JStr EmptyString => Ok []
  | v => Err (PyError "TypeError" ("'" +:+ type_name v +:+ "' object is not iterable"))
  end.

Definition json_decode (text : string) : res exn json :=
  match json_loads text with Some v => Ok v | None => Err (PyError "JSONDecodeError" "invalid JSON") end.

Definition merge_into_base (base_path : string) (overlay : obj) : W obj :=
  found ← path_exists base_path;
  if negb found then
    throw (WsError ("Base devcontainer.json not found at " +:+ base_path)
      (Some ("Create " +:+ base_path +:+ ", or check workspace_subdir in the project YAML")))
  else
    raw ← host_read base_path;
    base ← lift (json_decode (_strip_jsonc_comments raw));
    composite ← lift (as_dict base);
    merged ← lift (merge_keys composite overlay);
    mret (rewrite_build base_path merged).

Definition overlay_file (output_dir ws_id : string) : string := output_dir // (ws_id +:+ ".devcontainer.json").

Definition write_overlay (ws : Drydock) (output_dir : string) (config : OverlayConfig)
    (base_devcontainer_path : string) : W string :=
  overlay ← lift (generate_overlay ws config);
  composite ← merge_into_base base_devcontainer_path overlay;
  _ ← mkdir_p output_dir;
  let path := overlay_file output_dir (id ws) in
  _ ← host_write path (json_dumps_indent (JObj composite) +:+ String newline "");
  mret path.

Definition remove_overlay (overlay_path : string) : W unit := host_unlink (path_str overlay_path).

(** ** Re-deriving the overlay from the stored configuration *)

(** [if cfg.get(k): kwargs[k] = conv(cfg[k])], or the default. *)
Definition cfg_or {A} (cfg : obj) (k : string) (conv : json -> res exn A) (d : A) : res exn A :=
  if truthy (jget k cfg) then conv (jget k cfg) else Ok d.

Definition cfg_json (cfg : obj) (k : string) (d : json) : json := py_or (jget k cfg) d.
Definition cfg_lower (cfg : obj) (k d : string) : string :=
  if truthy (jget k cfg) then lower (py_str (jget k cfg)) else d.

Definition config_from_stored (cfg : obj) : res exn OverlayConfig :=
  let d := default_config in
  fw ← cfg_or cfg "firewall_extra_domains" as_list [];
  v6 ← cfg_or cfg "firewall_ipv6_hosts" as_list [];
  aws ← cfg_or cfg "firewall_aws_ip_ranges" as_list [];
  ports ← cfg_or cfg "forward_ports" as_list [];
  mounts ← cfg_or cfg "extra_mounts" as_list [];
  env ← cfg_or cfg "extra_env" as_dict [];
  storage ← cfg_or cfg "storage_mounts" as_list [];
  hard ← cfg_or cfg "resources_hard" as_dict [];
  Ok {| secrets_host_dir := secrets_host_dir d; secrets_container_dir := secrets_container_dir d;
        firewall_extra_domains := fw; firewall_ipv6_hosts := v6; firewall_aws_ip_ranges := aws;
        tailscale_hostname := cfg_json cfg "tailscale_hostname" (tailscale_hostname d);
        tailscale_authkey := tailscale_authkey d;
        tailscale_serve_port := cfg_json cfg "tailscale_serve_port" (tailscale_serve_port d);
        tailscale_advertise_tags := tailscale_advertise_tags d;
        remote_control_name := cfg_json cfg "remote_control_name" (remote_control_name d);
        extra_env := env; oc_extra_mounts := mounts; storage_mounts := storage; forward_ports := ports;
        claude_profile := cfg_json cfg "claude_profile" (claude_profile d);
        wsd_run_host_dir := wsd_run_host_dir d; drydock_rpc_host_path := drydock_rpc_host_path d;
        oc_resources_hard := hard;
        egress_proxy := cfg_lower cfg "egress_proxy" (egress_proxy d);
        proxy_config_host_dir :=
          (if truthy (jget "proxy_config_host_dir" cfg) then Some (jget "proxy_config_host_dir" cfg) else None);
        role := cfg_lower cfg "role" (role d);
        audit_log_host_path := audit_log_host_path d; registry_db_host_path := registry_db_host_path d |}.

Definition stored_config (ws : Drydock) : obj := match config ws with JObj o => o | _ => [] end.

(** [f"{subpath}"] of the desk's devcontainer directory below its worktree. *)
Definition base_subpath (ws : Drydock) (cfg : obj) : json :=
  let explicit_subpath := jget "devcontainer_subpath" cfg in
  if truthy explicit_subpath then explicit_subpath
  else if is_empty (workspace_subdir ws) then JStr ".devcontainer"
  else JStr (workspace_subdir ws +:+ "/.devcontainer").

(** [Path / v]: a [TypeError] unless it is a text. *)
Definition path_of_json (a : string) (v : json) : res exn string :=
  match v with
  | JStr s => Ok (a // s)
  | v => Err (PyError "TypeError" ("unsupported operand type(s) for /: 'PosixPath' and '" +:+ type_name v +:+ "'"))
  end.

(** [overlay_dir] is the caller's; the default is the directory of the stored path. *)
Definition regenerate_overlay_from_drydock (ws : Drydock) (overlay_dir : option string) : W string :=
  let cfg := stored_config ws in
  overlay_config ← lift (config_from_stored cfg);
  if is_empty (worktree_path ws) then
    throw (WsError ("Cannot regenerate overlay for '" +:+ name ws +:+ "': worktree_path unset in registry")
      (Some ("Rebuild from clean state: ws create " +:+ project ws +:+ " " +:+ name ws +:+ " --force")))
  else
    sub ← lift (path_of_json (worktree_path ws) (base_subpath ws cfg));
    let base_devcontainer := sub // "devcontainer.json" in
    dir ← lift (match overlay_dir with
                | Some d => Ok d
                | None =>
                    match jget "overlay_path" cfg with
                    | JStr stored => Ok (if is_empty stored then home // ".drydock" // "overlays" else path_parent stored)
                    | v => if truthy v
                           then Err (PyError "TypeError" ("argument should be a str or an os.PathLike object, not '"
                                  +:+ type_name v +:+ "'"))
                           else Ok (home // ".drydock" // "overlays")
                    end
                end);
    write_overlay ws dir overlay_config base_devcontainer.
End Overlay.

Example strip_jsonc_ex : _strip_jsonc_comments "a /* b // */ c // d
e" = "a  c 
e".
Proof. reflexivity. Qed.
