(* ===== verification/Container.v ===== *)
(** [core/checkout.py], [core/devcontainer.py], [core/trust.py] and
    [core/project_yaml_sha.py]: the git, devcontainer and docker steps of a desk's life, as
    sequences of subprocess calls with the decisions the code takes on their answers. *)

From S2P Require Import Prelude PyStr PyVal Registry World Overlay.
From Stdlib Require Import List.

(** A call in a working directory. *)
Definition call_in (dir : string) (args : list string) : call := mkCallIn args "" dir.

(** [str.splitlines], for the ASCII boundaries. *)
Definition is_linebreak (c : ascii) : bool := in_range 10 13 c || in_range 28 30 c.

Fixpoint splitlines_acc (acc : string) (s : string) : list string :=
  match s with
  | EmptyString => if is_empty acc then [] else [acc]
  | String c s' =>
      if Ascii.eqb c (ascii_of_N 13) && startswith s' (String newline "") then
        match s' with
        | String _ s'' => acc :: splitlines_acc "" s''
        | EmptyString => [acc]
        end
      else if is_linebreak c then acc :: splitlines_acc "" s'
      else splitlines_acc (acc +:+ String c "") s'
  end.
Definition splitlines (s : string) : list string := splitlines_acc "" s.

Section Container.
Context `{Env}.

(** ** [core/checkout.py] *)

Definition DEFAULT_CHECKOUT_BASE : string := home // ".drydock" // "worktrees".

(** [check=True]: a failing command is a [WsError]. *)
Definition _run_git (dir : string) (cmd : list string) (error_context : string) : W unit :=
  '(rc, _, stderr) ← run_uncaught (call_in dir cmd);
  if rc =? 0 then mret tt
  else throw (WsError ("git failed (" +:+ error_context +:+ "): " +:+ strip stderr)
                (Some "Check that the repo, branch, and base ref are valid")).

Definition _branch_exists (repo branch : string) : W bool :=
  '(rc, _, _) ← run_uncaught (call_in repo ["git"; "rev-parse"; "--verify"; "refs/heads/" +:+ branch]);
  mret (rc =? 0).

Definition _rewrite_origin (source_repo dest : string) : W unit :=
  '(rc, stdout, _) ← run_uncaught (call_in source_repo ["git"; "config"; "--get"; "remote.origin.url"]);
  let origin_url := strip stdout in
  if (rc =? 0) && negb (is_empty origin_url)
  then _run_git dest ["git"; "remote"; "set-url"; "origin"; origin_url] "remote set-url origin"
  else mret tt.

(** File ownership is not part of the state, so the final recursive [chown] is none. *)
Definition create_checkout (ws : Drydock) : W string :=
  let base_dir := DEFAULT_CHECKOUT_BASE in
  let repo := path_str (repo_path ws) in
  is_repo ← path_exists (repo // ".git");
  if negb is_repo then
    throw (WsError ("Not a git repository: " +:+ repo)
      (Some ("Ensure '" +:+ repo +:+ "' is a valid git repo, or pass --repo-path")))
  else
    let dest := base_dir // id ws in
    _ ← mkdir_p (path_parent dest);
    taken ← path_exists dest;
    if taken : bool then
      throw (WsError ("Checkout directory already exists: " +:+ dest)
        (Some ("Remove '" +:+ dest +:+ "' or destroy the existing drydock first")))
    else
      existing ← _branch_exists repo (branch ws);
      _ ← (if existing : bool then
             _run_git repo ["git"; "clone"; "--reference"; repo; "--dissociate"; "--branch"; branch ws; repo; dest]
               ("clone (existing branch '" +:+ branch ws +:+ "')")
           else
             _ ← _run_git repo ["git"; "clone"; "--reference"; repo; "--dissociate"; repo; dest] "clone";
             _run_git dest ["git"; "checkout"; "-b"; branch ws; base_ref ws]
               ("checkout -b " +:+ branch ws +:+ " " +:+ base_ref ws));
      _ ← _rewrite_origin repo dest;
      mret dest.

(** [shutil.rmtree], any exception logged. *)
Definition remove_checkout (repo checkout_path : string) : W unit :=
  let p := path_str checkout_path in
  found ← path_exists p;
  if found : bool then rmtree_quiet p else mret tt.

(** ** [core/devcontainer.py] *)

(** The last line that is a JSON value. [JNull] is Python's [None]. *)
Fixpoint last_json_line (lines : list string) : json :=
  match lines with
  | [] => JNull
  | line :: rest =>
      let line := strip line in
      if negb (startswith line "{") then last_json_line rest
      else match json_loads line with Some v => v | None => last_json_line rest end
  end.

Definition _parse_devcontainer_output (stdout : string) : json :=
  let text := strip stdout in
  if is_empty text then JNull
  else match json_loads text with
       | Some v => v
       | None => last_json_line (rev (splitlines text))
       end.

Definition _extract_container_id (parsed : json) : res exn json :=
  match parsed with
  | JObj o =>
      if truthy (jget "containerId" o) then Ok (jget "containerId" o)
      else match jget "outcome" o with
           | JObj oc => Ok (py_or (jget "containerId" oc) JNull)
           | _ => Ok (py_or (jget "containerId" o) JNull)
           end
  | v => attr_error v "get"
  end.

(** [subprocess.run(["devcontainer", "--version"], check=True)]. *)
Definition check_available : W unit :=
  out ← run (mkCall ["devcontainer"; "--version"] "");
  match out with
  | Ran rc _ _ =>
      if rc =? 0 then mret tt else throw (PyError "CalledProcessError" "devcontainer --version failed")
  | RunNotFound _ => throw (WsError "devcontainer CLI not found" (Some "Install it: npm install -g @devcontainers/cli"))
  | RunTimeout m _ => throw (PyError "TimeoutExpired" m)
  end.

Definition up_command (workspace_folder override_config : string) : list string :=
  ["devcontainer"; "up"; "--workspace-folder"; workspace_folder; "--log-format"; "json"]
  ++ (if is_empty override_config then [] else ["--override-config"; override_config]).

Definition up_result (rc : Z) (stdout stderr : string) : res exn obj :=
  let stderr := strip stderr in
  let parsed := _parse_devcontainer_output stdout in
  container_id ← (if truthy parsed then _extract_container_id parsed else Ok JNull);
  if negb (rc =? 0) && negb (truthy container_id) then
    Err (WsError ("devcontainer up failed: " +:+ stderr)
           (Some "Check the project's devcontainer.json and Dockerfile for errors"))
  else
    match parsed with
    | JNull => Ok [("stdout", JStr stdout); ("exit_code", JInt rc)]
    | v =>
        o ← as_mapping v;
        let out := jset "exit_code" (JInt rc) (jmerge [] o) in
        let out := if truthy container_id then jset "container_id" container_id out else out in
        Ok (if rc =? 0 then out
            else jset "warning" (JStr ("lifecycle command failed (exit " +:+ str_of_Z rc +:+ ")"
                   +:+ (if is_empty stderr then "" else ": " +:+ stderr))) out)
    end.

Definition up (dry_run : bool) (workspace_folder override_config : string) : W obj :=
  let cmd := up_command workspace_folder override_config in
  if dry_run then mret [("dry_run", JBool true); ("command", JList (map JStr cmd))]
  else
    '(rc, stdout, stderr) ← run_uncaught (mkCall cmd "");
    lift (up_result rc stdout stderr).

(** [docker stop] and [docker rm]: a container that is gone is no failure. *)
Definition docker_step (verb hint container_id : string) : W unit :=
  '(rc, _, stderr) ← run_uncaught (mkCall ["docker"; verb; container_id] "");
  if negb (rc =? 0) && negb (contains "No such container" stderr)
  then throw (WsError ("docker " +:+ verb +:+ " failed: " +:+ strip stderr)
                (Some (hint +:+ " manually: docker " +:+ verb +:+ " " +:+ container_id)))
  else mret tt.

Definition stop (dry_run : bool) (container_id : string) : W unit :=
  if is_empty container_id || dry_run then mret tt else docker_step "stop" "Stop" container_id.

Definition remove (dry_run : bool) (container_id : string) : W unit :=
  if is_empty container_id || dry_run then mret tt else docker_step "rm" "Remove" container_id.

Definition tailnet_logout (dry_run : bool) (container_id : string) : W unit :=
  if is_empty container_id || dry_run then mret tt
  else catch (_ ← run_uncaught (mkCall ["docker"; "exec"; container_id; "sudo"; "tailscale"; "logout"] ""); mret tt)
         (fun _ => mret tt).

Fixpoint remove_each (ids : list string) : W (list string) :=
  match ids with
  | [] => mret []
  | cid :: rest =>
      let cid := strip cid in
      if is_empty cid then remove_each rest
      else
        '(rc, _, _) ← run_uncaught (mkCall ["docker"; "rm"; cid] "");
        removed ← remove_each rest;
        mret (if rc =? 0 then cid :: removed else removed)
  end.

Definition remove_stale_containers (dry_run : bool) (workspace_folder : string) : W (list string) :=
  if dry_run then mret []
  else
    '(_, stdout, _) ← run_uncaught (mkCall ["docker"; "ps"; "-a"; "--filter"; "status=exited"; "--filter";
        "label=devcontainer.local_folder=" +:+ workspace_folder; "--format"; "{{.ID}}"] "");
    remove_each (splitlines (strip stdout)).

(** ** [core/trust.py] *)

Definition CLAUDE_JSON_PATH : string := "/home/node/.claude/.claude.json".

(** [except (OSError, json.JSONDecodeError)]; a value that is no dict has no [get]. *)
Definition _read_workspace_folder_from_overlay (overlay_path : string) : W string :=
  if is_empty overlay_path then mret "/drydock"
  else
    data ← catch (t ← host_read (path_str overlay_path); v ← lift (json_decode t); mret (Some v))
      (fun e => if is_os_error e || (exn_class e =s "JSONDecodeError") then mret None else throw e);
    match data with
    | None => mret "/drydock"
    | Some (JObj o) =>
        mret (match jget "workspaceFolder" o with
              | JStr s => if is_empty s then "/drydock" else s
              | _ => "/drydock"
              end)
    | Some v => lift (attr_error v "get")
    end.

Definition _docker_exec (container_id : string) (args : list string) : W (Z * string * string) :=
  run_uncaught (mkCall (["docker"; "exec"; "--user"; "node"; container_id] ++ args) "").

Definition _read_existing (container_id : string) : W obj :=
  '(rc, stdout, _) ← _docker_exec container_id ["cat"; CLAUDE_JSON_PATH];
  if negb (rc =? 0) then mret []
  else mret (match json_loads stdout with Some (JObj o) => o | _ => [] end).

Definition trusted_entry (workspace_folder : string) (entry : json) : bool :=
  match entry with
  | JStr s => s =s workspace_folder
  | JObj o => str_eq_json workspace_folder (jget "path" o)
              || str_eq_json workspace_folder (jget "workspaceFolder" o)
  | _ => false
  end.

Definition _already_trusted (data : obj) (workspace_folder : string) : bool :=
  match jget "trustedWorkspaces" data with
  | JObj o => has_key workspace_folder o
  | JList l => existsb (trusted_entry workspace_folder) l
  | _ => false
  end.

Definition trust_payload (existing : obj) (workspace_folder : string) : string :=
  let trusted := match jget "trustedWorkspaces" existing with JObj o => o | _ => [] end in
  json_dumps_indent (JObj (jset "trustedWorkspaces"
    (JObj (jset workspace_folder (JObj [("trusted", JBool true)]) trusted)) existing)).

Definition seed_drydock_trust (container_id workspace_folder : string) : W bool :=
  if is_empty container_id || is_empty workspace_folder then mret false
  else
    catch
      (existing ← _read_existing container_id;
       if _already_trusted existing workspace_folder then mret true
       else
         '(rc, _, _) ← run_uncaught (mkCall ["docker"; "exec"; "--user"; "root"; container_id;
                          "mkdir"; "-p"; "/home/node/.claude"] "");
         if negb (rc =? 0) then mret false
         else
           '(rc2, _, _) ← run_uncaught (mkCall ["docker"; "exec"; "-i"; "--user"; "node"; container_id;
                            "sh"; "-c"; "cat > " +:+ CLAUDE_JSON_PATH] (trust_payload existing workspace_folder));
           mret (rc2 =? 0))
      (fun e => if (exn_class e =s "TimeoutExpired") || is_os_error e then mret false else throw e).

(** ** [core/project_yaml_sha.py] *)

Definition default_projects_dir : string := home // ".drydock" // "projects".
Definition project_yaml_path (prj : string) : string := default_projects_dir // (prj +:+ ".yaml").

(** [""] when the file cannot be read. *)
Definition compute_project_yaml_sha (prj : string) : W string :=
  catch (t ← host_read (project_yaml_path prj); mret (sha256 t))
    (fun e => if is_os_error e then mret "" else throw e).

Definition yaml_drift_status (pinned current : string) : string :=
  if is_empty pinned && is_empty current then "unknown"
  else if is_empty pinned then "unpinned"
  else if is_empty current then "yaml_missing"
  else if pinned =s current then "in_sync" else "drifted".
End Container.
