(* ===== verification/ProjectConfig.v ===== *)
(** [core/project_config.py]: the per-project YAML file, and what a storage mount it declares
    implies. The fields keep the value the YAML gives; only the code's own checks apply. *)

From S2P Require Import Prelude PyStr PyVal Registry World Overlay Container.
From Stdlib Require Import List.

Definition KNOWN_KEYS : list string :=
  ["repo_path"; "image"; "workspace_subdir"; "devcontainer_subpath"; "tailscale_hostname"; "tailscale_serve_port";
   "tailscale_authkey_env_var"; "remote_control_name"; "firewall_extra_domains"; "firewall_ipv6_hosts";
   "firewall_aws_ip_ranges"; "forward_ports"; "extra_mounts"; "extra_env"; "claude_profile"; "capabilities";
   "secret_entitlements"; "delegatable_secrets"; "delegatable_firewall_domains"; "delegatable_storage_scopes";
   "delegatable_provision_scopes"; "delegatable_network_reach"; "network_reach_ports"; "resources_hard";
   "storage_mounts"; "deskwatch"; "yard"; "egress_proxy"; "role"].

Definition ROLE_WORKER : string := "worker".
Definition ROLE_AUDITOR : string := "auditor".
Definition KNOWN_ROLES : list string := [ROLE_WORKER; ROLE_AUDITOR].

Record ProjectConfig : Type := mkProject {
  pc_repo_path : json; pc_image : json; pc_workspace_subdir : json; pc_devcontainer_subpath : json;
  pc_tailscale_hostname : json; pc_tailscale_serve_port : json; pc_tailscale_authkey_env_var : json;
  pc_remote_control_name : json; pc_firewall_extra_domains : json; pc_firewall_ipv6_hosts : json;
  pc_firewall_aws_ip_ranges : json; pc_forward_ports : json; pc_extra_mounts : json; pc_extra_env : json;
  pc_claude_profile : json; pc_capabilities : json; pc_secret_entitlements : json; pc_delegatable_secrets : json;
  pc_delegatable_firewall_domains : json; pc_delegatable_storage_scopes : json;
  pc_delegatable_provision_scopes : json; pc_delegatable_network_reach : json; pc_network_reach_ports : json;
  pc_resources_hard : json; pc_yard : json; pc_storage_mounts : json; pc_deskwatch : json;
  pc_egress_proxy : string; pc_role : string
}.

(** [ProjectConfig()]. *)
Definition default_project : ProjectConfig :=
  let e := JList [] in
  mkProject JNull JNull JNull JNull JNull JNull JNull JNull e e e e e (JObj []) JNull e e e e e e e e (JObj []) JNull
    e (JObj []) "enabled" ROLE_WORKER.

(** The three fields [expand_storage_mounts] writes. *)
Definition with_mounts (caps scopes fw : list json) (c : ProjectConfig) : ProjectConfig :=
  mkProject (pc_repo_path c) (pc_image c) (pc_workspace_subdir c) (pc_devcontainer_subpath c)
    (pc_tailscale_hostname c) (pc_tailscale_serve_port c) (pc_tailscale_authkey_env_var c)
    (pc_remote_control_name c) (pc_firewall_extra_domains c) (pc_firewall_ipv6_hosts c)
    (JList fw) (pc_forward_ports c) (pc_extra_mounts c) (pc_extra_env c)
    (pc_claude_profile c) (JList caps) (pc_secret_entitlements c) (pc_delegatable_secrets c)
    (pc_delegatable_firewall_domains c) (JList scopes)
    (pc_delegatable_provision_scopes c) (pc_delegatable_network_reach c) (pc_network_reach_ports c)
    (pc_resources_hard c) (pc_yard c) (pc_storage_mounts c) (pc_deskwatch c) (pc_egress_proxy c) (pc_role c).

Section Mounts.
Context `{FloatRepr}.

Definition _DEFAULT_STORAGE_REGION : string := "us-west-2".

(** [if x not in l: l.append(x)]. *)
Definition add_text (x : string) (l : list json) : list json :=
  if existsb (str_eq_json x) l then l else l ++ [JStr x].

Definition mount_error {A} (what got fix_hint : string) : res exn A :=
  Err (WsError ("storage_mounts" +:+ what +:+ ", got " +:+ got) (Some fix_hint)).

Definition check_source (v : json) : res exn string :=
  let bad := mount_error "[].source must be an s3:// URL" (py_repr v) "Example: 'source: s3://my-bucket/my-prefix'" in
  match v with
  | JStr s => if startswith s "s3://" then Ok s else bad
  | _ => bad
  end.

Definition check_mode (v : json) : res exn string :=
  match (if truthy v then v else JStr "ro") with
  | JStr s =>
      let mode := lower s in
      if (mode =s "ro") || (mode =s "rw") then Ok mode
      else mount_error "[].mode must be 'ro' or 'rw'" (repr_str mode)
             "Use 'ro' for read-only (default) or 'rw' for read-write."
  | v => attr_error v "lower"
  end.

Definition check_target (v : json) : res exn unit :=
  let bad := mount_error "[].target must be an absolute container path" (py_repr v) "Example: 'target: /mnt/data'" in
  match v with
  | JStr s => if startswith s "/" then Ok tt else bad
  | _ => bad
  end.

(** The scope a mount of [source] in [mode] needs. *)
Definition mount_scope (mode source : string) : string :=
  let body := rstrip_by (Ascii.eqb "/") (sdrop 5 source) in
  let scope := if is_empty body then source else "s3://" +:+ body +:+ "/*" in
  if mode =s "rw" then "rw:" +:+ scope else scope.

Definition firewall_entry (region : json) : string :=
  py_str (if truthy region then region else JStr _DEFAULT_STORAGE_REGION) +:+ ":AMAZON".

(** One entry of the loop: the scopes and firewall ranges so far. *)
Definition expand_entry (acc : list json * list json) (entry : json) : res exn (list json * list json) :=
  match entry with
  | JObj o =>
      source ← check_source (jget_default "source" (JStr "") o);
      mode ← check_mode (jget "mode" o);
      _ ← check_target (jget_default "target" (JStr "") o);
      Ok (add_text (mount_scope mode source) (fst acc), add_text (firewall_entry (jget "region" o)) (snd acc))
  | v => mount_error " entries must be mappings" (type_name v) "Each entry needs at least 'source' and 'target' keys."
  end.

Fixpoint expand_entries (acc : list json * list json) (entries : list json) : res exn (list json * list json) :=
  match entries with
  | [] => Ok acc
  | e :: es => acc' ← expand_entry acc e; expand_entries acc' es
  end.

Definition expand_storage_mounts (cfg : ProjectConfig) : res exn ProjectConfig :=
  if negb (truthy (pc_storage_mounts cfg)) then Ok cfg
  else
    caps ← as_list (pc_capabilities cfg);
    scopes ← as_list (pc_delegatable_storage_scopes cfg);
    fw ← as_list (pc_firewall_aws_ip_ranges cfg);
    entries ← as_list (pc_storage_mounts cfg);
    '(scopes, fw) ← expand_entries (scopes, fw) entries;
    Ok (with_mounts (add_text "request_storage_leases" caps) scopes fw cfg).

(** The fields of the file, before the checks on them. *)
Definition project_of (raw : obj) : ProjectConfig :=
  let g k := jget k raw in
  let l k := jget_default k (JList []) raw in
  let d k := py_or (jget k raw) (JObj []) in
  let s k v := lower (py_str (py_or (jget k raw) (JStr v))) in
  mkProject (g "repo_path") (g "image") (g "workspace_subdir") (g "devcontainer_subpath") (g "tailscale_hostname")
    (g "tailscale_serve_port") (g "tailscale_authkey_env_var") (g "remote_control_name")
    (l "firewall_extra_domains") (l "firewall_ipv6_hosts") (l "firewall_aws_ip_ranges") (l "forward_ports")
    (l "extra_mounts") (d "extra_env") (g "claude_profile") (l "capabilities") (l "secret_entitlements")
    (l "delegatable_secrets") (l "delegatable_firewall_domains") (l "delegatable_storage_scopes")
    (l "delegatable_provision_scopes") (l "delegatable_network_reach") (l "network_reach_ports")
    (d "resources_hard") (py_or (g "yard") JNull) (l "storage_mounts") (d "deskwatch")
    (s "egress_proxy" "enabled") (s "role" ROLE_WORKER).

Definition unknown_keys (raw : obj) : list string :=
  List.filter (fun k => negb (existsb (String.eqb k) KNOWN_KEYS)) (map fst raw).

(** What a decoded file means; [path] is for the messages. *)
Definition project_of_yaml (path : string) (raw : json) : res exn ProjectConfig :=
  match raw with
  | JNull => Ok default_project
  | JObj o =>
      match unknown_keys o with
      | [] =>
          let cfg := project_of o in
          if negb (existsb (String.eqb (pc_role cfg)) KNOWN_ROLES)
          then Err (WsError ("Unknown role " +:+ repr_str (pc_role cfg) +:+ " in " +:+ path)
                 (Some ("Valid roles: " +:+ join ", " (order_by String.leb KNOWN_ROLES))))
          else expand_storage_mounts cfg
      | unknown =>
          Err (WsError ("Unknown keys in " +:+ path +:+ ": " +:+ join ", " (order_by String.leb unknown))
            (Some ("Valid keys: " +:+ join ", " (order_by String.leb KNOWN_KEYS))))
      end
  | v =>
      Err (WsError ("Project config " +:+ path +:+ " must be a YAML mapping, got " +:+ type_name v)
        (Some ("Rewrite " +:+ path +:+ " as key-value pairs (e.g. 'repo_path: /srv/code/myproject').")))
  end.
End Mounts.

Section Load.
Context `{Env}.

Definition yaml_fix (path : string) : string :=
  let q := String dquote "" in
  "Check " +:+ path +:+ " for syntax errors — run 'python -c " +:+ q +:+ "import yaml; yaml.safe_load(open(" +:+ q
  +:+ path +:+ q +:+ "))" +:+ q +:+ "' to diagnose.".

Definition load_project_config (prj : string) : W (option ProjectConfig) :=
  let path := project_yaml_path prj in
  found ← path_exists path;
  if negb found then mret None
  else
    text ← host_read path;
    match yaml_load text with
    | None => throw (WsError ("Invalid YAML in " +:+ path) (Some (yaml_fix path)))
    | Some raw => cfg ← lift (project_of_yaml path raw); mret (Some cfg)
    end.
End Load.
