(* ===== verification/Snapshot.v ===== *)
(** [core/snapshot.py]: capturing a desk's portable state in one archive and a manifest, and
    restoring it. The gzipped tar format is the class [TarGz]; the staging directories,
    which are gone when the call returns, are lists of archive members. No caller captures volumes, so the
    docker steps for them are left out. *)

From S2P Require Import Prelude PyStr PyVal Registry World Overlay Container.
From Stdlib Require Import List.

(** ** Archives *)

Inductive tar_kind : Type := TDir | TFile (data : string) (ro : bool).
Record tar_member : Type := mkMember { tm_name : string; tm_kind : tar_kind }.

(** [tarfile.open(..., "w:gz")] and ["r:gz"]; [None] is a [ReadError]. *)
Class TarGz : Type := {
  tar_pack : list tar_member -> string;
  tar_unpack : string -> option (list tar_member)
}.

(** What reading an archive back relies on. *)
Class LawfulTar `{TarGz} : Prop := { tar_pack_unpack : forall l, tar_unpack (tar_pack l) = Some l }.

(** ** The manifest *)

Record WorktreeState : Type := mkWorktree {
  wt_branch : json; wt_commit_sha : json; wt_repo_path : json; wt_is_dirty : json; wt_dirty_files : list json
}.

Record VolumeRef : Type := mkVolume { v_name : json; v_archive_path : json; v_size_bytes : json }.

Record SnapshotManifest : Type := mkManifest {
  sm_version : json; sm_migration_id : json; sm_drydock_id : json; sm_drydock_name : json; sm_captured_at : json;
  sm_registry_row : json; sm_overlay_path : json; sm_secrets_path : json; sm_worktree : option WorktreeState;
  sm_volumes : list VolumeRef; sm_bytes_total : json
}.

Definition SNAPSHOT_VERSION : Z := 1.

Definition volume_dict (v : VolumeRef) : json :=
  JObj [("name", v_name v); ("archive_path_in_tarball", v_archive_path v); ("size_bytes", v_size_bytes v)].

Definition worktree_dict (w : WorktreeState) : json :=
  JObj [("branch", wt_branch w); ("commit_sha", wt_commit_sha w); ("repo_path", wt_repo_path w);
        ("is_dirty", wt_is_dirty w); ("dirty_files", JList (wt_dirty_files w))].

Definition manifest_to_dict (m : SnapshotManifest) : json :=
  JObj ([("version", sm_version m); ("migration_id", sm_migration_id m); ("drydock_id", sm_drydock_id m);
         ("drydock_name", sm_drydock_name m); ("captured_at", sm_captured_at m);
         ("registry_row", sm_registry_row m); ("overlay_path_in_tarball", sm_overlay_path m);
         ("secrets_path_in_tarball", sm_secrets_path m); ("volumes", JList (map volume_dict (sm_volumes m)));
         ("bytes_total", sm_bytes_total m)]
        ++ match sm_worktree m with Some w => [("worktree", worktree_dict w)] | None => [] end).

(** [v[k]]. *)
Definition item (k : string) (v : json) : res exn json :=
  match v with
  | JObj o => match assoc k o with
              | Some x => Ok x
              | None => Err (PyError "KeyError" ("'" +:+ k +:+ "'"))
              end
  | JList _ => Err (PyError "TypeError" "list indices must be integers or slices, not str")
  | JStr _ => Err (PyError "TypeError" "string indices must be integers, not 'str'")
  | v => Err (PyError "TypeError" ("'" +:+ type_name v +:+ "' object is not subscriptable"))
  end.

(** [v.get(k, d)]. *)
Definition get_item (k : string) (d v : json) : res exn json :=
  match v with JObj o => Ok (jget_default k d o) | v => attr_error v "get" end.

Definition worktree_of (wt_raw : json) : res exn WorktreeState :=
  branch ← item "branch" wt_raw;
  commit_sha ← item "commit_sha" wt_raw;
  repo ← item "repo_path" wt_raw;
  is_dirty ← get_item "is_dirty" (JBool false) wt_raw;
  files ← get_item "dirty_files" (JList []) wt_raw;
  dirty_files ← as_list files;
  Ok (mkWorktree branch commit_sha repo is_dirty dirty_files).

Definition volume_of (v : json) : res exn VolumeRef :=
  n ← item "name" v;
  p ← item "archive_path_in_tarball" v;
  size ← get_item "size_bytes" (JInt 0) v;
  Ok (mkVolume n p size).

Definition manifest_from_dict (raw : json) : res exn SnapshotManifest :=
  wt_raw ← get_item "worktree" JNull raw;
  worktree ← match wt_raw with JNull => Ok None | w => w ← worktree_of w; Ok (Some w) end;
  vols ← get_item "volumes" (JList []) raw;
  vol_list ← as_list vols;
  volumes ← mapE volume_of vol_list;
  version ← item "version" raw;
  migration_id ← item "migration_id" raw;
  drydock_id ← item "drydock_id" raw;
  drydock_name ← item "drydock_name" raw;
  captured_at ← item "captured_at" raw;
  registry_row ← item "registry_row" raw;
  overlay_path ← get_item "overlay_path_in_tarball" JNull raw;
  secrets_path ← get_item "secrets_path_in_tarball" JNull raw;
  bytes_total ← get_item "bytes_total" (JInt 0) raw;
  Ok (mkManifest version migration_id drydock_id drydock_name captured_at registry_row overlay_path secrets_path
        worktree volumes bytes_total).

Definition snapshot_error {A} (message : string) : res exn A := Err (PyError "SnapshotError" message).
Definition dirty_error (message : string) : exn := PyError "SnapshotDirtyWorktreeError" message.

(** [except SnapshotError], which its subclass also is. *)
Definition is_snapshot_error (e : exn) : bool :=
  (exn_class e =s "SnapshotError") || (exn_class e =s "SnapshotDirtyWorktreeError").

Section Snapshot.
Context `{Env, TarGz}.

(** ** Rows as [dict(row)]: the columns in the order of the table, JSON columns as their text *)

Definition json_text (v : json) : json := JStr (json_dumps v).
Definition opt_json_text (v : option json) : json := match v with Some v => json_text v | None => JNull end.

Definition drydocks_dict (r : dock_row) : json :=
  let d := dr_dock r in
  JObj [("id", JStr (id d)); ("name", JStr (name d)); ("project", JStr (project d));
        ("repo_path", JStr (repo_path d)); ("worktree_path", JStr (worktree_path d)); ("branch", JStr (branch d));
        ("base_ref", JStr (base_ref d)); ("state", JStr (state d)); ("container_id", JStr (container_id d));
        ("workspace_subdir", JStr (workspace_subdir d)); ("image", JStr (image d)); ("owner", JStr (owner d));
        ("created_at", JStr (created_at d)); ("updated_at", JStr (updated_at d)); ("config", json_text (config d));
        ("parent_drydock_id", opt_str (dr_parent r));
        ("delegatable_firewall_domains", json_text (dr_firewall_domains r));
        ("delegatable_secrets", json_text (dr_secrets r)); ("capabilities", json_text (dr_capabilities r));
        ("delegatable_storage_scopes", json_text (dr_storage_scopes r));
        ("delegatable_provision_scopes", json_text (dr_provision_scopes r));
        ("delegatable_network_reach", json_text (dr_network_reach r));
        ("network_reach_ports", json_text (dr_reach_ports r)); ("resources_hard", json_text (dr_resources_hard r));
        ("pinned_yaml_sha256", JStr (pinned_yaml_sha256 d)); ("yard_id", opt_str (yard_id d));
        ("original_resources_hard", json_text (original_resources_hard d))].

Definition tokens_dict (r : token_row) : json :=
  JObj [("drydock_id", JStr (tk_drydock_id r)); ("token_sha256", JStr (tk_sha256 r));
        ("issued_at", JStr (tk_issued_at r)); ("rotated_at", opt_str (tk_rotated_at r)); ("scope", JStr (tk_scope r))].

Definition leases_dict (r : lease_row) : json :=
  JObj [("lease_id", JStr (lr_lease_id r)); ("drydock_id", JStr (lr_drydock_id r)); ("type", JStr (lr_type r));
        ("scope", json_text (JObj (lr_scope r))); ("issued_at", JStr (lr_issued_at r)); ("expiry", opt_str (lr_expiry r));
        ("issuer", JStr (lr_issuer r)); ("revoked", JInt (if lr_revoked r then 1 else 0));
        ("revocation_reason", opt_str (lr_reason r))].

(** The AUTOINCREMENT id of an event is not part of its row here. *)
Definition events_dict (r : event_row) : json :=
  JObj [("drydock_id", JStr (ev_drydock_id r)); ("event", JStr (ev_event r)); ("timestamp", JStr (ev_timestamp r));
        ("data", json_text (ev_data r))].

Definition amendments_dict (r : amendment_row) : json :=
  JObj [("id", JStr (am_id r)); ("proposed_by_type", JStr (am_proposed_by_type r));
        ("proposed_by_id", JStr (am_proposed_by_id r)); ("proposed_at", JStr (am_proposed_at r));
        ("yard_id", opt_str (am_yard_id r)); ("drydock_id", opt_str (am_drydock_id r)); ("kind", JStr (am_kind r));
        ("request_json", json_text (am_request r)); ("reason", opt_str (am_reason r));
        ("tos_notes", opt_str (am_tos_notes r)); ("status", JStr (am_status r));
        ("reviewed_by", opt_str (am_reviewed_by r)); ("reviewed_at", opt_str (am_reviewed_at r));
        ("review_note", opt_str (am_review_note r)); ("applied_at", opt_str (am_applied_at r));
        ("expires_at", opt_str (am_expires_at r))].

Definition workload_dict (r : workload_row) : json :=
  JObj [("id", JStr (wl_id r)); ("drydock_id", JStr (wl_drydock_id r)); ("spec_json", json_text (wl_spec r));
        ("applied_actions_json", opt_json_text (wl_actions r)); ("granted_at", JStr (wl_granted_at r));
        ("expires_at", JStr (wl_expires_at r)); ("status", JStr (wl_status r));
        ("revoked_at", opt_str (wl_revoked_at r)); ("revoke_results_json", opt_json_text (wl_revoke_results r))].

Definition _capture_registry_row (i : string) (d : db) : res exn json :=
  match tbl_first (by_id i) (drydocks d) with
  | None => snapshot_error ("drydock " +:+ repr_str i +:+ " not found in registry")
  | Some r =>
      Ok (JObj [("drydocks", drydocks_dict r);
                ("tokens", JList (map tokens_dict (tbl_select (token_of i) (tokens d))));
                ("leases", JList (map leases_dict (tbl_select (fun l => lr_drydock_id l =s i) (leases d))));
                ("events", JList (map events_dict (tbl_select (fun e => ev_drydock_id e =s i) (events d))));
                ("amendments", JList (map amendments_dict (tbl_select (fun a => opt_str_eqb (am_drydock_id a) i)
                                                              (amendments d))));
                ("workload_leases", JList (map workload_dict (tbl_select (fun l => wl_drydock_id l =s i)
                                                                (workload_leases d))))])
  end.

(** ** The state of the worktree *)

Definition _git (dir : string) (args : list string) : W (option string) :=
  catch ('(rc, stdout, _) ← run_uncaught (call_in dir ("git" :: args));
         mret (if rc =? 0 then Some (strip stdout) else None))
    (fun e => if (exn_class e =s "FileNotFoundError") || (exn_class e =s "TimeoutExpired") then mret None else throw e).

Definition _looks_like_worktree (path : string) : W bool := n ← host_at (path // ".git"); mret (is_nfile n).

Definition _capture_worktree (d : Drydock) : W (option WorktreeState) :=
  if is_empty (worktree_path d) then mret None
  else
    let repo := path_str (worktree_path d) in
    n ← host_at repo;
    if negb (is_ndir n) then mret None
    else
      dot_git ← path_exists (repo // ".git");
      linked ← _looks_like_worktree repo;
      if negb (dot_git || linked) then mret None
      else
        head ← _git repo ["rev-parse"; "--abbrev-ref"; "HEAD"];
        commit ← _git repo ["rev-parse"; "HEAD"];
        status_lines ← _git repo ["status"; "--porcelain"];
        let or_else o d := match o with Some s => if is_empty s then d else s | None => d end in
        let dirty_files := List.filter (fun l => negb (is_empty l)) (map strip (splitlines (or_else status_lines ""))) in
        mret (Some (mkWorktree (JStr (or_else head (branch d))) (JStr (or_else commit "")) (JStr repo)
                      (JBool (match dirty_files with [] => false | _ => true end)) (map JStr dirty_files))).

(** ** Capture *)

Definition DEFAULT_MIGRATIONS_ROOT : string := home // ".drydock" // "migrations".
Definition OVERLAYS_ROOT : string := home // ".drydock" // "overlays".

Definition overlay_file_of (i : string) : string := OVERLAYS_ROOT // (i +:+ ".devcontainer.json").

(** The secret files of a desk, by name. *)
Definition secret_files (i : string) (w : world) : list (string * sfile) :=
  omap (fun kv : string * string * sfile => if fst (fst kv) =s i then Some (snd (fst kv), snd kv) else None)
    (map_to_list (w_files w)).

(** [shutil.copytree]: every file is tried, and any failure raises [shutil.Error] at the end. *)
Fixpoint copy_each {A} (copy : A -> W unit) (l : list A) : W bool :=
  match l with
  | [] => mret true
  | x :: l' =>
      ok ← catch (_ ← copy x; mret true) (fun e => if is_os_error e then mret false else throw e);
      rest ← copy_each copy l';
      mret (ok && rest)
  end.

Definition copy_all {A} (copy : A -> W unit) (l : list A) : W unit :=
  ok ← copy_each copy l;
  if ok : bool then mret tt else os_error "Error" "copytree".

Definition secrets_prefix (i : string) : string := "secrets/" +:+ i.

(** The staged secrets and overlay, as archive members. *)
Definition secret_members (i : string) (files : list (string * sfile)) : list tar_member :=
  mkMember "secrets" TDir :: mkMember (secrets_prefix i) TDir
  :: map (fun f => mkMember (secrets_prefix i +:+ "/" +:+ fst f) (TFile (sf_data (snd f)) (sf_ro (snd f)))) files.

Definition stage_secrets (i : string) : W (list tar_member * json) :=
  dir ← host_at (secret_dir i);
  if is_ndir dir then
    _ ← fs_op;
    files ← gets (secret_files i);
    _ ← copy_all (fun _ => fs_op) files;
    mret (secret_members i files, JStr (secrets_prefix i))
  else mret ([], JNull).

Definition OVERLAY_IN_TARBALL : string := "overlay.devcontainer.json".

Definition stage_overlay (i : string) : W (list tar_member * json) :=
  n ← host_at (overlay_file_of i);
  if is_nfile n then
    text ← host_read (overlay_file_of i);
    mret ([mkMember OVERLAY_IN_TARBALL (TFile text false)], JStr OVERLAY_IN_TARBALL)
  else mret ([], JNull).

Definition check_clean (worktree : option WorktreeState) : W unit :=
  match worktree with
  | Some wt =>
      if truthy (wt_is_dirty wt)
      then throw (dirty_error ("worktree at " +:+ py_str (wt_repo_path wt) +:+ " has "
             +:+ str_of_Z (Z.of_nat (length (wt_dirty_files wt)))
             +:+ " uncommitted change(s); commit, stash, or pass --force-dirty"))
      else mret tt
  | None => mret tt
  end.

(** [path_tmp], then [os.replace]. *)
Definition write_replacing (dir n data : string) : W unit :=
  _ ← host_write (dir // (n +:+ ".tmp")) data;
  _ ← fs_op;
  host_replace (dir // (n +:+ ".tmp")) (dir // n).

Definition snapshot_drydock (d : Drydock) (migration_id : string) : W (string * SnapshotManifest) :=
  let target_dir := DEFAULT_MIGRATIONS_ROOT // migration_id in
  _ ← mkdir_p target_dir;
  _ ← fs_op;
  registry_row ← reg_query (_capture_registry_row (id d));
  worktree ← _capture_worktree d;
  _ ← check_clean worktree;
  '(secrets, secrets_path) ← stage_secrets (id d);
  '(overlay, overlay_path) ← stage_overlay (id d);
  let tgz := tar_pack (secrets ++ overlay) in
  _ ← write_replacing target_dir "snapshot.tgz" tgz;
  captured_at ← _utc_now;
  let manifest := mkManifest (JInt SNAPSHOT_VERSION) (JStr migration_id) (JStr (id d)) (JStr (name d))
                    (JStr captured_at) registry_row overlay_path secrets_path worktree []
                    (JInt (Z.of_nat (String.length tgz))) in
  _ ← write_replacing target_dir "manifest.json" (json_dumps_indent (manifest_to_dict manifest));
  mret (target_dir, manifest).

(** ** Restore *)

Definition load_manifest (snapshot_dir : string) : W SnapshotManifest :=
  text ← host_read (snapshot_dir // "manifest.json");
  match json_loads text with
  | Some raw => lift (manifest_from_dict raw)
  | None => throw (PyError "JSONDecodeError" "manifest.json")
  end.

(** [Path.resolve] of a path without links: [.] and [..] are taken out. *)
Definition resolve_parts (l : list string) : list string :=
  fold_left (fun acc c => if c =s ".." then removelast acc else acc ++ [c]) l [].
Definition resolve (p : string) : string := path_render (path_root p) (resolve_parts (path_parts p)).

(** The guard of [_safe_extract]. *)
Definition safe_member (dest : string) (m : tar_member) : bool :=
  startswith (resolve (dest // tm_name m)) (resolve dest).

(** The extracted members. One that the guard lets through but that lies beside [dest] is not
    found by what follows, like every name that is not of the archives written here. *)
Definition _safe_extract (members : list tar_member) (dest : string) : W (list tar_member) :=
  match List.find (fun m => negb (safe_member dest m)) members with
  | Some m => lift (snapshot_error ("snapshot tarball contains path-traversal entry: " +:+ repr_str (tm_name m)))
  | None => _ ← fs_op; mret members
  end.

Definition tmp_dir : string := default "/tmp" (environ "TMPDIR").

Definition extract_snapshot (snapshot_dir : string) (migration_id : json) : W (list tar_member) :=
  _ ← fs_op;
  u ← uuid4;
  data ← host_read (snapshot_dir // "snapshot.tgz");
  match tar_unpack data with
  | None => throw (PyError "ReadError" "not a gzip file")
  | Some members => _safe_extract members (tmp_dir // (py_str migration_id +:+ "-restore-" +:+ stake 8 u))
  end.

(** The files below a directory of the archive. *)
Definition files_under (dir : string) (members : list tar_member) : list (string * sfile) :=
  omap (fun m => match tm_kind m with
                 | TFile data ro => if startswith (tm_name m) (dir +:+ "/")
                                    then Some (sdrop (String.length dir + 1) (tm_name m), mkFile data ro) else None
                 | TDir => None
                 end) members.

Definition has_dir (dir : string) (members : list tar_member) : bool :=
  existsb (fun m => match tm_kind m with TDir => tm_name m =s dir | _ => startswith (tm_name m) (dir +:+ "/") end)
    members.

Definition file_at (p : string) (members : list tar_member) : option string :=
  match List.find (fun m => tm_name m =s p) members with
  | Some (mkMember _ (TFile data _)) => Some data
  | _ => None
  end.

(** [shutil.rmtree] of a desk's secret directory: the first failure raises. *)
Fixpoint remove_files_of (i : string) (l : list string) : W unit :=
  match l with
  | [] => mret tt
  | n :: l' => _ ← fs_op; _ ← modify (fun w => set_files (delete (i, n) (w_files w)) w); remove_files_of i l'
  end.
Definition rmtree_secrets (i : string) : W unit :=
  files ← gets (secret_files i);
  _ ← remove_files_of i (map fst files);
  host_rmdir (secret_dir i).

Definition write_secret (i : string) (f : string * sfile) : W unit :=
  _ ← fs_op; modify (fun w => set_files (<[(i, fst f) := snd f]> (w_files w)) w).

(** [Path(root) / v] and the like need a text. *)
Definition text_of (v : json) : res exn string :=
  match v with
  | JStr s => Ok s
  | v => Err (PyError "TypeError" ("unsupported operand type(s) for /: 'PosixPath' and '" +:+ type_name v +:+ "'"))
  end.

Definition restore_secrets (m : SnapshotManifest) (members : list tar_member) : W unit :=
  if negb (truthy (sm_secrets_path m)) then mret tt
  else
    src ← lift (text_of (sm_secrets_path m));
    i ← lift (text_of (sm_drydock_id m));
    if negb (has_dir src members) then mret tt
    else
      found ← path_exists (secret_dir i);
      _ ← (if found : bool then rmtree_secrets i else mret tt);
      _ ← mkdir_p (secret_dir i);
      copy_all (write_secret i) (files_under src members).

(** [shutil.copy2(src, dst)]; a directory as [dst] receives the file under its own name. *)
Definition copy2 (src_name data dst : string) : W unit :=
  n ← host_at dst;
  host_write (if is_ndir n then dst // src_name else dst) data.

Definition restore_overlay (m : SnapshotManifest) (members : list tar_member) : W unit :=
  if negb (truthy (sm_overlay_path m)) then mret tt
  else
    src ← lift (text_of (sm_overlay_path m));
    let dst := overlay_file_of (py_str (sm_drydock_id m)) in
    _ ← mkdir_p (path_parent dst);
    match file_at src members with
    | None => os_error "FileNotFoundError" src
    | Some data => copy2 (path_name src) data dst
    end.

(** With [restore_volumes=False], as both callers have it. *)
Definition restore_drydock (snapshot_dir : string) : W SnapshotManifest :=
  manifest ← load_manifest snapshot_dir;
  members ← extract_snapshot snapshot_dir (sm_migration_id manifest);
  _ ← restore_secrets manifest members;
  _ ← restore_overlay manifest members;
  mret manifest.

Definition cleanup_snapshot (snapshot_dir : string) : W unit :=
  n ← host_at snapshot_dir;
  if is_ndir n then _ ← fs_op; modify (fun w => set_host (rm_tree snapshot_dir (w_host w)) w) else mret tt.
End Snapshot.
