(* ===== verification/DeskSpec.v ===== *)
(** [daemon/handlers.py], first part: what a CreateDesk or SpawnChild request may contain, the
    overlay configuration it gives, and the narrowness decision of a spawn. A validated
    spec is the dict the code builds, key by key. *)

From S2P Require Import Prelude PyStr PyVal Registry Policy World Rpc Ceilings Overlay.
From Stdlib Require Import List.

Definition invalid_params {A} (data : obj) : res exn A := rpc_error (-32602) "invalid_params" data.
Definition bad_field {A} (field reason : string) : res exn A :=
  invalid_params [("field", JStr field); ("reason", JStr reason)].

(** ** Field validators *)

(** [isinstance(v, int)]: a bool is one. *)
Definition is_int (v : json) : bool := match v with JInt _ | JBool _ => true | _ => false end.
Definition is_dict (v : json) : bool := match v with JObj _ => true | _ => false end.

Definition validated_list (ok : json -> bool) (expected : string) (value : json) (field_name : string)
    : res exn json :=
  match value with
  | JNull => Ok (JList [])
  | JList l => if forallb ok l then Ok value else bad_field field_name expected
  | _ => bad_field field_name expected
  end.

Definition _validated_string_list : json -> string -> res exn json := validated_list is_str "expected list[str]".
Definition _validated_int_list : json -> string -> res exn json := validated_list is_int "expected list[int]".
Definition _validated_dict_list : json -> string -> res exn json := validated_list is_dict "expected list[dict]".

Definition _validated_str_map (value : json) (field_name : string) : res exn json :=
  match value with
  | JNull => Ok (JObj [])
  | JObj o => if forallb (fun kv => is_str (snd kv)) o then Ok value
              else bad_field field_name "expected dict[str, str]"
  | _ => bad_field field_name "expected dict[str, str]"
  end.

Definition _validated_optional_string (value : json) (field_name : string) : res exn json :=
  match value with
  | JNull | JStr _ => Ok value
  | _ => bad_field field_name "expected str"
  end.

Definition _validated_optional_int (value : json) (field_name : string) : res exn json :=
  match value with
  | JNull | JInt _ | JBool _ => Ok value
  | _ => bad_field field_name "expected int"
  end.

Definition _validate_devcontainer_subpath (devcontainer_subpath : string) : res exn unit :=
  if is_absolute devcontainer_subpath || existsb (String.eqb "..") (path_parts devcontainer_subpath)
  then invalid_params [("reason", JStr "devcontainer_subpath must be relative and contain no ..")]
  else Ok tt.

Definition _REQUIRED_PARAMS : list string := ["project"; "name"].
Definition DEFAULT_DEVCONTAINER_SUBPATH : string := ".devcontainer".

Definition nonempty_str (v : json) : bool := match v with JStr s => negb (is_empty s) | _ => false end.

(** [v] if it is a non-empty text, or the default. *)
Definition str_or (v : json) (d : string) : json := if nonempty_str v then v else JStr d.
(** [v] if it is a text, or [""]. *)
Definition str_or_empty (v : json) : json := if is_str v then v else JStr "".

Section Validation.
Context `{Env}.

(** [str(params.get(k) or d).lower()], one of two words. *)
Definition validated_choice (o : obj) (k d other reason : string) : res exn json :=
  let v := lower (py_str (py_or (jget k o) (JStr d))) in
  if (v =s d) || (v =s other) then Ok (JStr v) else bad_field k reason.

Definition validated_subpath (v : json) : res exn json :=
  match v with
  | JNull => _ ← _validate_devcontainer_subpath DEFAULT_DEVCONTAINER_SUBPATH; Ok (JStr DEFAULT_DEVCONTAINER_SUBPATH)
  | JStr s => _ ← _validate_devcontainer_subpath s; Ok v
  | _ => invalid_params [("field", JStr "devcontainer_subpath")]
  end.

Definition validated_ceilings (raw : json) : res exn json :=
  let raw := py_or raw (JObj []) in
  match raw with
  | JObj [] => Ok raw
  | JObj _ =>
      match from_dict raw with
      | Ok _ => Ok raw
      | Err e => if exn_class e =s "ResourceCeilingError"
                 then bad_field "resources_hard" (str_exn e) else Err e
      end
  | _ => bad_field "resources_hard" "must be an object"
  end.

Definition validated_yard (v : json) : res exn json :=
  match v with
  | JNull | JStr _ => Ok v
  | _ => bad_field "yard" "must be a string or null"
  end.

Definition validated_subdir (v : json) : res exn json :=
  match py_or v (JStr "") with
  | JStr s => Ok (JStr s)
  | _ => invalid_params [("field", JStr "workspace_subdir")]
  end.

(** The fields of a request with its two names checked, in the order the code checks them. *)
Definition validated_fields (o : obj) (prj nm : string) : res exn obj :=
  let get k := jget k o in
  let strs k := _validated_string_list (get k) k in
  subpath ← validated_subpath (get "devcontainer_subpath");
  fw ← strs "firewall_extra_domains";
  v6 ← strs "firewall_ipv6_hosts";
  aws ← strs "firewall_aws_ip_ranges";
  ents ← strs "secret_entitlements";
  mounts ← strs "extra_mounts";
  dfw ← strs "delegatable_firewall_domains";
  dsec ← strs "delegatable_secrets";
  caps ← strs "capabilities";
  dsto ← strs "delegatable_storage_scopes";
  dpro ← strs "delegatable_provision_scopes";
  dnet ← strs "delegatable_network_reach";
  nports ← _validated_int_list (get "network_reach_ports") "network_reach_ports";
  thost ← _validated_optional_string (get "tailscale_hostname") "tailscale_hostname";
  tport ← _validated_optional_int (get "tailscale_serve_port") "tailscale_serve_port";
  tkey ← _validated_optional_string (get "tailscale_authkey_env_var") "tailscale_authkey_env_var";
  rc ← _validated_optional_string (get "remote_control_name") "remote_control_name";
  fports ← _validated_int_list (get "forward_ports") "forward_ports";
  prof ← _validated_optional_string (get "claude_profile") "claude_profile";
  prox ← validated_choice o "egress_proxy" "disabled" "enabled" "must be 'enabled' or 'disabled'";
  rl ← validated_choice o "role" "worker" "auditor" "must be 'worker' or 'auditor'";
  env ← _validated_str_map (get "extra_env") "extra_env";
  storage ← _validated_dict_list (get "storage_mounts") "storage_mounts";
  hard ← validated_ceilings (get "resources_hard");
  yd ← validated_yard (get "yard");
  subdir ← validated_subdir (get "workspace_subdir");
  Ok [("project", JStr prj); ("name", JStr nm);
      ("repo_path", str_or (get "repo_path") ("/srv/code/" +:+ prj));
      ("branch", str_or (get "branch") ("ws/" +:+ nm));
      ("base_ref", str_or (get "base_ref") "HEAD");
      ("image", str_or_empty (get "image")); ("owner", str_or_empty (get "owner"));
      ("workspace_subdir", subdir); ("devcontainer_subpath", subpath);
      ("tailscale_hostname", thost); ("tailscale_serve_port", tport);
      ("tailscale_authkey_env_var", tkey); ("remote_control_name", rc);
      ("firewall_extra_domains", fw); ("firewall_ipv6_hosts", v6); ("firewall_aws_ip_ranges", aws);
      ("forward_ports", fports); ("claude_profile", prof); ("egress_proxy", prox); ("role", rl);
      ("extra_env", env); ("storage_mounts", storage); ("secret_entitlements", ents);
      ("extra_mounts", mounts); ("delegatable_firewall_domains", dfw); ("delegatable_secrets", dsec);
      ("capabilities", caps); ("delegatable_storage_scopes", dsto);
      ("delegatable_provision_scopes", dpro); ("delegatable_network_reach", dnet);
      ("network_reach_ports", nports); ("resources_hard", hard); ("yard", yd)].

Definition missing_params (o : obj) : list string :=
  List.filter (fun key => negb (nonempty_str (jget key o))) _REQUIRED_PARAMS.

Definition jstrs (l : list string) : json := JList (map JStr l).

Definition _validated_spec (params : json) : res exn obj :=
  match params with
  | JObj o =>
      match jget "project" o, jget "name" o with
      | JStr prj, JStr nm =>
          if is_empty prj || is_empty nm then invalid_params [("missing", jstrs (missing_params o))]
          else validated_fields o prj nm
      | _, _ => invalid_params [("missing", jstrs (missing_params o))]
      end
  | _ => invalid_params [("missing", jstrs _REQUIRED_PARAMS)]
  end.

(** ** The overlay of a spec *)

Definition spec_list (k : string) (spec : obj) : list json := match jget k spec with JList l => l | _ => [] end.
Definition spec_obj (k : string) (spec : obj) : obj := match jget k spec with JObj o => o | _ => [] end.

(** [kwargs[k] = v] for a text, or the default. *)
Definition spec_str (k : string) (spec : obj) (d : json) : json := if is_str (jget k spec) then jget k spec else d.

Definition authkey_of (spec : obj) : string :=
  match jget "tailscale_authkey_env_var" spec with
  | JStr v => default "" (environ v)
  | _ => ""
  end.

Definition _overlay_from_spec (spec : obj) : OverlayConfig :=
  let d := default_config in
  {| secrets_host_dir := secrets_host_dir d; secrets_container_dir := secrets_container_dir d;
     firewall_extra_domains := spec_list "firewall_extra_domains" spec;
     firewall_ipv6_hosts := spec_list "firewall_ipv6_hosts" spec;
     firewall_aws_ip_ranges := spec_list "firewall_aws_ip_ranges" spec;
     tailscale_hostname := spec_str "tailscale_hostname" spec (tailscale_hostname d);
     tailscale_authkey := authkey_of spec;
     tailscale_serve_port := (if is_int (jget "tailscale_serve_port" spec)
                              then jget "tailscale_serve_port" spec else tailscale_serve_port d);
     tailscale_advertise_tags := tailscale_advertise_tags d;
     remote_control_name := spec_str "remote_control_name" spec (remote_control_name d);
     extra_env := spec_obj "extra_env" spec;
     oc_extra_mounts := oc_extra_mounts d;
     storage_mounts := spec_list "storage_mounts" spec;
     forward_ports := spec_list "forward_ports" spec;
     claude_profile := spec_str "claude_profile" spec (claude_profile d);
     wsd_run_host_dir := wsd_run_host_dir d; drydock_rpc_host_path := drydock_rpc_host_path d;
     oc_resources_hard := spec_obj "resources_hard" spec;
     egress_proxy := (match jget "egress_proxy" spec with JStr s => lower s | _ => egress_proxy d end);
     proxy_config_host_dir := (if str_eq_json "enabled" (jget "egress_proxy" spec)
                               then Some (JStr (home // ".drydock" // "proxy")) else None);
     role := (match jget "role" spec with
              | JStr s => if lower s =s "worker" then role d else lower s
              | _ => role d
              end);
     audit_log_host_path := audit_log_host_path d; registry_db_host_path := registry_db_host_path d |}.

Definition _OVERLAY_PARAM_FIELDS : list string :=
  ["tailscale_hostname"; "tailscale_serve_port"; "tailscale_authkey_env_var"; "remote_control_name";
   "firewall_extra_domains"; "firewall_ipv6_hosts"; "firewall_aws_ip_ranges"; "forward_ports";
   "claude_profile"; "extra_env"; "storage_mounts"; "resources_hard"; "egress_proxy"; "role"].

Definition is_null (v : json) : bool := match v with JNull => true | _ => false end.
Definition is_nil_list (v : json) : bool := match v with JList [] => true | _ => false end.

Definition _overlay_config_data (spec : obj) : obj :=
  flat_map (fun field =>
    match assoc field spec with
    | Some v => if is_null v || is_nil_list v then [] else [(field, v)]
    | None => []
    end) _OVERLAY_PARAM_FIELDS.

(** ** Spawn policy *)

Definition policy_message (e : policy_exn) : string :=
  match e with
  | InvalidDomainFormat raw => "invalid domain: " +:+ py_repr raw
  | InvalidMountFormat (MountRaw v) => "invalid mount: " +:+ py_repr v
  | InvalidMountFormat (MountValue (a, b, c)) =>
      "invalid mount: (" +:+ repr_str a +:+ ", " +:+ repr_str b +:+ ", " +:+ repr_str c +:+ ")"
  | InvalidStorageScopeFormat raw => "invalid storage scope: " +:+ py_repr raw
  end.

(** The three policy exceptions are [ValueError]s. *)
Definition lift_policy {A} (r : res policy_exn A) : res exn A :=
  match r with Ok a => Ok a | Err e => Err (ValueError (policy_message e)) end.

Definition CapabilityKind_val (v : json) : res exn CapabilityKind :=
  match v with
  | JStr s => match CapabilityKind_of s with
              | Some k => Ok k
              | None => Err (ValueError (repr_str s +:+ " is not a valid CapabilityKind"))
              end
  | _ => Err (ValueError (py_repr v +:+ " is not a valid CapabilityKind"))
  end.

(** The elements, each a text. *)
Fixpoint texts (l : list json) : option (list string) :=
  match l with
  | [] => Some []
  | JStr s :: l' => option_map (cons s) (texts l')
  | _ => None
  end.

(** A JSON list column, as the text decodes. *)
Definition _decode_string_list (raw : json) : res exn (list string) :=
  match raw with
  | JList l => match texts l with Some ts => Ok ts | None => Err (ValueError "expected JSON string list") end
  | _ => Err (ValueError "expected JSON string list")
  end.

Definition canonical_domains (l : list json) : res exn (gset string) :=
  ds ← mapE (fun v => lift_policy (canonicalize_domain v)) l; Ok (list_to_set ds).
Definition canonical_mounts (l : list json) : res exn (gset MountTuple) :=
  ms ← mapE (fun v => lift_policy (canonicalize_mount v)) l; Ok (list_to_set ms).
Definition capability_set (l : list json) : res exn (gset CapabilityKind) :=
  cs ← mapE CapabilityKind_val l; Ok (list_to_set cs).

Definition parent_mounts_raw (cfg : json) : res exn (list json) :=
  match (match cfg with JObj o => jget_default "extra_mounts" (JList []) o | _ => JList [] end) with
  | JList l => if forallb is_str l then Ok l else Err (ValueError "invalid config.extra_mounts")
  | _ => Err (ValueError "invalid config.extra_mounts")
  end.

Definition parent_policy_of (r : dock_row) : res exn DeskPolicy :=
  fw ← _decode_string_list (dr_firewall_domains r);
  secs ← _decode_string_list (dr_secrets r);
  caps ← _decode_string_list (dr_capabilities r);
  mounts ← parent_mounts_raw (config (dr_dock r));
  cs ← capability_set (map JStr caps);
  ds ← canonical_domains (map JStr fw);
  ms ← canonical_mounts mounts;
  Ok (mkDeskPolicy ds (list_to_set secs) cs ms [] [] [] []).

(** [except (KeyError, TypeError, ValueError)]. *)
Definition on_value_error {A} (r : res exn A) (code : Z) (message : string) : res exn A :=
  match r with
  | Err e => if existsb (String.eqb (exn_class e)) ["KeyError"; "TypeError"; "ValueError"]
             then rpc_error code message [("reason", JStr (str_exn e))] else r
  | _ => r
  end.

Definition _load_parent_policy (caller : string) (d : db) : res exn DeskPolicy :=
  match load_desk_policy caller d with
  | None => rpc_error (-32001) "parent_not_found" [("parent_drydock_id", JStr caller)]
  | Some r => on_value_error (parent_policy_of r) (-32603) "policy_load_failed"
  end.

Definition texts_or_nil (l : list json) : list string := default [] (texts l).

Definition child_spec_of (spec : obj) : res exn DeskSpec :=
  ds ← canonical_domains (spec_list "firewall_extra_domains" spec);
  cs ← capability_set (spec_list "capabilities" spec);
  ms ← canonical_mounts (spec_list "extra_mounts" spec);
  Ok (mkDeskSpec ds (list_to_set (texts_or_nil (spec_list "secret_entitlements" spec))) cs ms).

Definition _build_child_spec (spec : obj) : res exn DeskSpec :=
  on_value_error (child_spec_of spec) (-32602) "invalid_params".

(** ** Rejections on the wire *)

(** [sorted(..., key=json.dumps)]. *)
Definition sort_dumped (l : list json) : list json :=
  order_by (fun a b => String.leb (json_dumps a) (json_dumps b)) l.

Definition mount_json (m : MountTuple) : json := let '(a, b, c) := m in JList [JStr a; JStr b; JStr c].
Definition cap_json (c : CapabilityKind) : json := JStr (CapabilityKind_value c).

(** The dataclasses of an "invalid_input_format" rejection have no serialization here; the
    inputs of [validate_spawn] are canonical, so it does not arise. *)
Definition _serialize_value (v : reject_obj) : json :=
  match v with
  | OStrs s => JList (sort_dumped (map JStr (elements s)))
  | OCaps s => JList (sort_dumped (map cap_json (elements s)))
  | OMounts s => JList (sort_dumped (map mount_json (elements s)))
  | OStr s => JStr s
  | OCap c => cap_json c
  | OMount m => mount_json m
  | OExn e => JStr (policy_message e)
  | OPolicy _ | OSpec _ => JNull
  end.

Definition _serialize_reject (rule : string) (pv rv item : reject_obj) (fix_hint : string) : json :=
  JObj [("rule", JStr rule); ("parent_value", _serialize_value pv); ("requested_value", _serialize_value rv);
        ("offending_item", _serialize_value item); ("fix_hint", JStr fix_hint)].

(** [str(offending_item)]. *)
Definition str_reject_obj (v : reject_obj) : string :=
  match v with
  | OStr s => s
  | OCap c => "CapabilityKind." +:+ match c with
                | SPAWN_CHILDREN => "SPAWN_CHILDREN" | REQUEST_SECRET_LEASES => "REQUEST_SECRET_LEASES"
                | REQUEST_STORAGE_LEASES => "REQUEST_STORAGE_LEASES"
                | REQUEST_PROVISION_LEASES => "REQUEST_PROVISION_LEASES"
                | REQUEST_NETWORK_REACH => "REQUEST_NETWORK_REACH"
                end
  | OMount (a, b, c) => "(" +:+ repr_str a +:+ ", " +:+ repr_str b +:+ ", " +:+ repr_str c +:+ ")"
  | OExn e => policy_message e
  | _ => ""
  end.
End Validation.
