(* ===== verification/Desks.v ===== *)
(** [daemon/handlers.py], second part: the life of a desk, from CreateDesk and SpawnChild over
    resume and stop to DestroyDesk, which takes the desk's children with it. *)

From S2P Require Import Prelude PyStr PyVal Datetime Registry Policy World Rpc Proxy Overlay Container DeskSpec.
From Stdlib Require Import List.

Section Desks.
Context `{Env} (dry_run : bool).

(** ** Registry operations at the current time *)

Definition touch_state (n st : string) : W (option Drydock) := now ← _utc_now; reg (update_state now n st).
Definition touch_drydock (n : string) (fields : list dock_field) : W (option Drydock) :=
  now ← _utc_now; reg (update_drydock now n fields).

(** An attribute of the row, which is [None] if someone deleted it. *)
Definition row_of (o : option Drydock) : W Drydock :=
  match o with
  | Some ws => mret ws
  | None => lift (attr_error JNull "name")
  end.

(** A value bound to a TEXT column. *)
Definition sql_text (v : json) : res exn string :=
  match v with
  | JStr s => Ok s
  | JInt z => Ok (str_of_Z z)
  | JBool b => Ok (if b then "1" else "0")
  | JFloat f => Ok (float_repr f)
  | JNull => Ok ""
  | v => Err (PyError "ProgrammingError" ("Error binding parameter: type '" +:+ type_name v +:+ "' is not supported"))
  end.

Definition spec_text (k : string) (spec : obj) : string := py_str (jget k spec).

Definition OVERLAY_DIR : string := home // ".drydock" // "overlays".

(** [if isinstance(v, str) and v]. *)
Definition text_value (v : json) : option string :=
  match v with JStr s => if is_empty s then None else Some s | _ => None end.

(** ** Containers *)

Definition _run_setup_storage_mounts (container_id : string) : W unit :=
  catch (_ ← run_uncaught (mkCall ["docker"; "exec"; "-u"; "node"; container_id;
               "/usr/local/bin/setup-storage-mounts.sh"] ""); mret tt)
    (fun e => if (exn_class e =s "TimeoutExpired") || is_os_error e then mret tt else throw e).

Definition _maybe_setup_storage_mounts (container_id : string) (source : obj) : W unit :=
  if truthy (jget "storage_mounts" source) then _run_setup_storage_mounts container_id else mret tt.

(** [devc.up], with a failure recorded on the row. *)
Definition up_or_error (n workspace_folder overlay_path : string) : W obj :=
  catch (up dry_run workspace_folder overlay_path)
    (fun e => match e with
              | WsError _ _ => _ ← touch_state n "error"; throw e
              | _ => throw e
              end).

Definition container_of (up_result : obj) : W json :=
  let cid := py_or (jget "container_id" up_result) (jget "containerId" up_result) in
  if dry_run && negb (truthy cid)
  then u ← uuid4; mret (JStr ("dry-run-" +:+ stake 8 u))
  else mret cid.

Definition desk_result (ws : Drydock) : obj :=
  [("drydock_id", JStr (id ws)); ("name", JStr (name ws)); ("project", JStr (project ws));
   ("branch", JStr (if is_empty (branch ws) then "ws/" +:+ name ws else branch ws)); ("state", JStr "running");
   ("container_id", JStr (container_id ws)); ("worktree_path", JStr (worktree_path ws))].

(** The end of a create or a resume: the container, its row and what is set up inside. *)
Definition start_container (n workspace_folder overlay_path : string) (source : obj) : W Drydock :=
  up_result ← up_or_error n workspace_folder overlay_path;
  cid ← container_of up_result;
  cid_text ← lift (sql_text (py_or cid (JStr "")));
  ws ← touch_drydock n [F_container_id cid_text; F_state "running"];
  ws ← row_of ws;
  _ ← (if truthy cid && negb dry_run then
         folder ← _read_workspace_folder_from_overlay overlay_path;
         _ ← seed_drydock_trust cid_text folder;
         _maybe_setup_storage_mounts cid_text source
       else mret tt);
  mret ws.

(** ** Resume *)

Definition resume_failed {A} (existing : Drydock) (what : string) : W A :=
  _ ← touch_state (name existing) "error";
  throw (WsError ("Cannot resume desk '" +:+ name existing +:+ "': " +:+ what)
    (Some ("Rebuild from clean state: ws create " +:+ project existing +:+ " " +:+ name existing +:+ " --force"))).

Definition _regenerate_overlay_for_resume (existing : Drydock) (overlay_path : string) : W unit :=
  _ ← regenerate_overlay_from_drydock existing (Some (path_parent overlay_path)); mret tt.

Definition is_ws_error (e : exn) : bool := match e with WsError _ _ => true | _ => false end.

Definition _resume_desk (existing : Drydock) : W obj :=
  let config := stored_config existing in
  let raw := jget "overlay_path" config in
  if negb (truthy raw) then resume_failed existing "overlay_path missing from registry"
  else
    match raw with
    | JStr overlay_path =>
        _ ← catch (_regenerate_overlay_for_resume existing (path_str overlay_path))
              (fun e => if is_ws_error e || is_os_error e then mret tt else throw e);
        found ← path_exists (path_str overlay_path);
        if negb found then resume_failed existing ("overlay missing at " +:+ overlay_path)
        else
          let workspace_folder := worktree_path existing in
          present ← path_exists (path_str workspace_folder);
          if is_empty workspace_folder || negb present
          then resume_failed existing ("worktree missing at "
                 +:+ (if is_empty workspace_folder then "(unset)" else workspace_folder))
          else
            _ ← (if dry_run then mret tt else check_available);
            _ ← touch_state (name existing) "provisioning";
            ws ← start_container (name existing) workspace_folder overlay_path config;
            mret (desk_result ws)
    | v => lift (Err (PyError "TypeError" ("argument should be a str or an os.PathLike object, not '"
                   +:+ type_name v +:+ "'")))
    end.

(** ** Create *)

Definition create_config (spec extra : obj) : json :=
  JObj (jmerge (extra ++ [("devcontainer_subpath", JStr (spec_text "devcontainer_subpath" spec));
                          ("extra_mounts", JList (spec_list "extra_mounts" spec))])
          (_overlay_config_data spec)).

(** The row of a new desk, before its id and its timestamps are filled in. *)
Definition new_desk (spec : obj) : Drydock :=
  mkDrydock (spec_text "name" spec) (spec_text "project" spec) (spec_text "repo_path" spec) "" ""
    (spec_text "branch" spec) (spec_text "base_ref" spec) "defined" "" (spec_text "workspace_subdir" spec)
    (spec_text "image" spec) (spec_text "owner" spec) "" "" (create_config spec []) "" None
    (JObj (spec_obj "resources_hard" spec)).

Definition json_list (k : string) (spec : obj) : option json := Some (JList (spec_list k spec)).

Definition set_delegations (n : string) (spec : obj) : W unit :=
  now ← _utc_now;
  reg (update_desk_delegations now n (json_list "delegatable_firewall_domains" spec)
    (json_list "delegatable_secrets" spec) (json_list "capabilities" spec)
    (json_list "delegatable_storage_scopes" spec) (json_list "delegatable_provision_scopes" spec)
    (json_list "delegatable_network_reach" spec) (json_list "network_reach_ports" spec)
    (Some (JObj (spec_obj "resources_hard" spec)))).

Definition join_yard (ws : Drydock) (spec : obj) : W Drydock :=
  match text_value (jget "yard" spec) with
  | None => mret ws
  | Some yard_name =>
      yard_row ← reg_get (get_yard yard_name);
      match yard_row with
      | None => throw (WsError ("Project declares yard '" +:+ yard_name +:+ "' but no such Yard is registered")
                         (Some ("Register the Yard first: ws yard create " +:+ yard_name)))
      | Some y => o ← touch_drydock (name ws) [F_yard_id (Some (yd_id y))]; row_of o
      end
  end.

(** The row, its policy, its parent, its pin, its proxy rules and its yard. *)
Definition register_desk (spec : obj) (parent : option string) : W Drydock :=
  pinned ← compute_project_yaml_sha (spec_text "project" spec);
  now ← _utc_now;
  now2 ← _utc_now;
  ws ← reg (create_drydock now2 (post_init now (new_desk spec)));
  _ ← set_delegations (name ws) spec;
  ws ← (match parent with
        | Some p => o ← touch_drydock (name ws) [F_parent_drydock_id (Some p)]; row_of o
        | None => mret ws
        end);
  ws ← (if is_empty pinned then mret ws
        else o ← touch_drydock (name ws) [F_pinned_yaml_sha256 pinned]; row_of o);
  _ ← (if lower (py_str (py_or (jget "egress_proxy" spec) (JStr "disabled"))) =s "enabled"
       then _ ← write_smokescreen_acl (id ws) (spec_list "delegatable_network_reach" spec) proxy_root_from_home;
            mret tt
       else mret tt);
  join_yard ws spec.

Definition _ensure_gitconfig_stub : W unit :=
  let gitconfig := home // ".gitconfig" in
  found ← path_exists gitconfig;
  if found : bool then mret tt else host_write gitconfig "".

Definition workspace_folder_of (ws : Drydock) : string :=
  if is_empty (workspace_subdir ws) then worktree_path ws else worktree_path ws // workspace_subdir ws.

(** The worktree, then the overlay file and the directories the container mounts. *)
Definition prepare_desk (spec : obj) (ws : Drydock) : W (Drydock * string) :=
  checkout_path ← create_checkout ws;
  o ← touch_drydock (name ws) [F_worktree_path checkout_path];
  ws ← row_of o;
  let devcontainer_subpath := spec_text "devcontainer_subpath" spec in
  let devcontainer_json := workspace_folder_of ws // devcontainer_subpath // "devcontainer.json" in
  found ← path_exists devcontainer_json;
  if negb found then
    _ ← touch_state (name ws) "error";
    throw (WsError ("devcontainer.json not found at " +:+ devcontainer_json)
      (Some ("Create " +:+ devcontainer_json +:+ ", or use a repo that already has one")))
  else
    _ ← _ensure_gitconfig_stub;
    _ ← mkdir_p (secret_dir (id ws));
    overlay_path ← write_overlay ws OVERLAY_DIR (_overlay_from_spec spec) devcontainer_json;
    o ← touch_drydock (name ws) [F_config (create_config spec [("overlay_path", JStr overlay_path)])];
    ws ← row_of o;
    mret (ws, overlay_path).

Definition _perform_create (spec : obj) (parent : option string) : W obj :=
  ws ← register_desk spec parent;
  '(ws, overlay_path) ← prepare_desk spec ws;
  let workspace_folder := workspace_folder_of ws in
  _ ← (if dry_run then mret tt else check_available);
  _ ← issue_token_for_desk (id ws);
  _ ← emit_audit "token.issued" (Some (id ws)) JNull
        (match parent with None => "CreateDesk" | Some _ => "SpawnChild" end) "ok"
        [("drydock_id", JStr (id ws)); ("rotation_reason", JNull)];
  o ← touch_state (name ws) "provisioning";
  ws ← row_of o;
  ws ← start_container (name ws) workspace_folder overlay_path spec;
  mret (desk_result ws ++ match parent with Some p => [("parent_drydock_id", JStr p)] | None => [] end).

(** ** CreateDesk and SpawnChild *)

Definition already_running {A} (n : string) : W A :=
  rpc (-32001) "drydock_already_running" [("fix", JStr ("ws create " +:+ n +:+ " --force"))].

(** [exc.context] and [exc.code] are empty for the errors of a create. *)
Definition _rpc_error_from_ws_error (message : string) (fix_hint : option string) : exn :=
  RpcError (-32000) "create_desk_failed"
    (Some (JObj (("detail", JStr message)
                 :: match fix_hint with Some f => if is_empty f then [] else [("fix", JStr f)] | None => [] end))).

Definition on_ws_error {A} (m : W A) (h : string -> option string -> exn) : W A :=
  catch m (fun e => match e with WsError msg f => throw (h msg f) | _ => throw e end).

Definition resumable (st : string) : bool := (st =s "suspended") || (st =s "defined").

Definition create_desk (params request_id : json) (caller : option string) : W json :=
  spec ← lift (_validated_spec params);
  on_ws_error
    (existing ← reg_get (get_drydock (spec_text "name" spec));
     match existing with
     | Some ws =>
         if resumable (state ws) then
           result ← _resume_desk ws;
           _ ← emit_audit "drydock.resumed" None request_id "CreateDesk" "ok"
                 [("drydock_id", jget "drydock_id" result); ("project", jget "project" result)];
           mret (JObj result)
         else already_running (spec_text "name" spec)
     | None =>
         result ← _perform_create spec None;
         _ ← emit_audit "drydock.created" None request_id "CreateDesk" "ok"
               [("drydock_id", jget "drydock_id" result); ("project", jget "project" result);
                ("parent_drydock_id", JNull)];
         mret (JObj result)
     end) _rpc_error_from_ws_error.

Definition whoami (params request_id : json) (caller : option string) : W json :=
  mret (JObj [("drydock_id", opt_str caller)]).

Definition child_in_state (st parent : string) (r : dock_row) : bool :=
  opt_str_eqb (dr_parent r) parent && (state (dr_dock r) =s st).

Definition _count_provisioning_children (parent : string) (d : db) : Z :=
  Z.of_nat (tbl_count (child_in_state "provisioning" parent) (drydocks d)).

(** [int(os.environ.get("DRYDOCK_SPAWN_CHILD_INFLIGHT_MAX", "5"))]; another text stops the
    daemon when it starts. *)
Definition SPAWN_CHILD_INFLIGHT_MAX : Z :=
  match environ "DRYDOCK_SPAWN_CHILD_INFLIGHT_MAX" with
  | Some s => default 5 (int_of_str s)
  | None => 5
  end.

(** The checks of a spawn against the parent's row: the cap, then the narrowness. *)
Definition check_spawn (caller : string) (request_id : json) (spec : obj) : W unit :=
  in_flight ← reg_get (_count_provisioning_children caller);
  if SPAWN_CHILD_INFLIGHT_MAX <=? in_flight then
    rpc (-32014) "rate_limited" [("in_flight", JInt in_flight); ("max", JInt SPAWN_CHILD_INFLIGHT_MAX);
      ("fix", JStr "wait for in-flight spawns to complete or raise DRYDOCK_SPAWN_CHILD_INFLIGHT_MAX")]
  else
    parent_policy ← reg_query (_load_parent_policy caller);
    child_spec ← lift (_build_child_spec spec);
    match validate_spawn parent_policy child_spec with
    | Allow => mret tt
    | Reject rule pv rv item fix_hint =>
        _ ← emit_audit "drydock.spawn_rejected" (Some caller) request_id "SpawnChild" "error"
              [("parent_drydock_id", JStr caller);
               ("reject", JObj [("rule", JStr rule); ("offending_item", JStr (str_reject_obj item))])];
        rpc (-32001) "narrowness_violated" [("reject", _serialize_reject rule pv rv item fix_hint)]
    end.

Definition spawn_child (params request_id : json) (caller : option string) : W json :=
  match caller with
  | None => throw (RpcError (-32004) "unauthenticated" None)
  | Some caller =>
      spec ← lift (_validated_spec params);
      on_ws_error
        (existing ← reg_get (get_drydock (spec_text "name" spec));
         match existing with
         | Some _ => already_running (spec_text "name" spec)
         | None =>
             _ ← check_spawn caller request_id spec;
             result ← _perform_create spec (Some caller);
             _ ← emit_audit "drydock.spawned" (Some caller) request_id "SpawnChild" "ok"
                   [("drydock_id", jget "drydock_id" result); ("parent_drydock_id", JStr caller);
                    ("narrowness_check", JStr "allow")];
             mret (JObj result)
         end)
        (fun msg _ => RpcError (-32000) "spawn_failed" (Some (JObj [("detail", JStr msg)])))
  end.
(** ** Targets *)

Definition missing_key {A} (k : string) : res exn A := invalid_params [("missing", jstrs [k])].

(** A name, with the id it makes, or an id; [k] is what the error asks for. *)
Definition validated_target (k : string) (params : json) : res exn (option string * string) :=
  match params with
  | JObj o =>
      match text_value (jget "name" o) with
      | Some n => Ok (Some n, "dock_" +:+ slug n)
      | None => match text_value (jget "drydock_id" o) with
                | Some i => Ok (None, i)
                | None => missing_key k
                end
      end
  | _ => missing_key k
  end.

Definition _validated_destroy_target : json -> res exn (option string * string) := validated_target "drydock_id".
Definition _validated_stop_target : json -> res exn (option string * string) :=
  validated_target "name or drydock_id".

Definition _lookup_by_name_or_id (target_name : option string) (target_drydock_id : string) (d : db)
    : option Drydock :=
  match target_name with
  | Some n => get_drydock n d
  | None => option_map _row_to_drydock (tbl_first (by_id target_drydock_id) (drydocks d))
  end.
Definition _lookup_destroy_target := _lookup_by_name_or_id.

Definition desk_not_found {A} (target_hint : string) : W A :=
  rpc (-32001) "desk_not_found" [("drydock_id", JStr target_hint)].

(** ** DestroyDesk *)

Definition _failure (drydock_id step error : string) : json :=
  JObj [("drydock_id", JStr drydock_id); ("step", JStr step); ("error", JStr error)].

(** A step whose exception is recorded and passed over. *)
Definition attempt (drydock_id step : string) (m : W unit) : W (list json) :=
  catch (_ ← m; mret []) (fun e => mret [_failure drydock_id step (str_exn e)]).

Fixpoint emit_released (drydock_id : string) (ls : list CapabilityLease) : W unit :=
  match ls with
  | [] => mret tt
  | l :: ls' =>
      _ ← emit_audit "lease.released" (Some drydock_id) JNull "DestroyDesk" "ok"
            [("lease_id", JStr (lease_id l)); ("reason", JStr "desk_destroyed")];
      emit_released drydock_id ls'
  end.

Definition revoke_desk_leases (drydock_id : string) : W unit :=
  active_leases ← reg_query (list_active_leases_for_desk drydock_id);
  _ ← reg (revoke_leases_for_desk drydock_id "desk_destroyed");
  emit_released drydock_id active_leases.

Definition revoke_desk_token (drydock_id : string) : W unit :=
  _ ← reg (delete_token drydock_id);
  _ ← emit_audit "token.revoked" (Some drydock_id) JNull "DestroyDesk" "ok" [("drydock_id", JStr drydock_id)];
  mret tt.

(** [list(secret_dir.iterdir())] has an element. *)
Definition has_secret_entries (drydock_id : string) (w : world) : bool :=
  existsb (fun kv => fst (fst kv) =s drydock_id) (map_to_list (w_files w))
  || existsb (fun kv => startswith (fst kv) (secret_dir drydock_id +:+ "/")) (map_to_list (w_host w)).

Definition handle_secret_dir (drydock_id : string) : W unit :=
  found ← path_exists (secret_dir drydock_id);
  if found : bool then
    _ ← fs_op;
    remaining ← gets (has_secret_entries drydock_id);
    if remaining : bool then mret tt else host_rmdir (secret_dir drydock_id)
  else mret tt.

Definition remove_worktree (d : Drydock) : W (list json) :=
  if is_empty (worktree_path d) then mret []
  else
    let worktree := path_str (worktree_path d) in
    _ ← rmtree_quiet worktree;
    left ← path_exists worktree;
    mret (if left : bool then [_failure (id d) "worktree_remove" "directory still exists"] else []).

Definition destroy_overlay_path (d : Drydock) (cfg : obj) : string :=
  match text_value (jget "overlay_path" cfg) with
  | Some p => p
  | None => OVERLAY_DIR // (id d +:+ ".devcontainer.json")
  end.

Definition remove_overlay_if_any (p : string) : W unit :=
  catch (remove_overlay p) (fun e => if exn_class e =s "FileNotFoundError" then mret tt else throw e).

Definition delete_desk_row (n : string) : W unit := now ← _utc_now; reg (delete_drydock now n).

Definition remove_container (d : Drydock) : W (list json) :=
  if is_empty (container_id d) then mret []
  else
    f1 ← attempt (id d) "container_stop" (stop dry_run (container_id d));
    f2 ← attempt (id d) "container_remove" (Container.remove dry_run (container_id d));
    mret (f1 ++ f2).

Definition _destroy_one (d : Drydock) : W (list json) :=
  f1 ← remove_container d;
  f2 ← attempt (id d) "lease_revoke" (revoke_desk_leases (id d));
  f3 ← attempt (id d) "token_delete" (revoke_desk_token (id d));
  f4 ← attempt (id d) "token_file_remove" (unlink (id d) TOKEN_FILENAME);
  f5 ← attempt (id d) "secret_dir_handle" (handle_secret_dir (id d));
  f6 ← remove_worktree d;
  cfg ← lift (match config d with JObj o => Ok o | v => attr_error v "get" end);
  f7 ← attempt (id d) "overlay_remove" (remove_overlay_if_any (destroy_overlay_path d cfg));
  f8 ← attempt (id d) "drydock_delete" (delete_desk_row (name d));
  mret (f1 ++ f2 ++ f3 ++ f4 ++ f5 ++ f6 ++ f7 ++ f8).

Definition recursion_error : exn := PyError "RecursionError" "maximum recursion depth exceeded".

(** The loop over the children: each with its own subtree, in turn. *)
Fixpoint destroy_each (f : Drydock -> W (list string * list json)) (cs : list Drydock)
    : W (list string * list json) :=
  match cs with
  | [] => mret ([], [])
  | c :: cs' =>
      '(ids, fs) ← f c;
      '(ids', fs') ← destroy_each f cs';
      mret (id c :: ids ++ ids', fs ++ fs')
  end.

(** [visited] is the path from the target; the result is what the call adds to [cascaded], and
    its failures. [depth] bounds the recursion. *)
Fixpoint _destroy_tree (depth : nat) (visited : list string) (d : Drydock) : W (list string * list json) :=
  match depth with
  | O => throw recursion_error
  | S depth =>
      if existsb (String.eqb (id d)) visited
      then rpc (-32603) "destroy_cycle_detected" [("drydock_id", JStr (id d))]
      else
        children ← reg_get (get_children (id d));
        '(cascaded, failures) ← destroy_each (_destroy_tree depth (id d :: visited)) children;
        own ← _destroy_one d;
        mret (cascaded, failures ++ own)
  end.

(** One more than the rows is deep enough: [destroy_terminates]. *)
Definition destroy_desk (params request_id : json) (caller : option string) : W json :=
  '(target_name, target_hint) ← lift (_validated_destroy_target params);
  target ← reg_get (_lookup_destroy_target target_name target_hint);
  match target with
  | None => desk_not_found target_hint
  | Some d =>
      depth ← reg_get (fun b => S (length (drydocks b)));
      '(cascaded, failures) ← _destroy_tree depth [] d;
      let ok := match failures with [] => true | _ => false end in
      _ ← emit_audit "drydock.destroyed" caller request_id "DestroyDesk" (if ok then "ok" else "error")
            [("drydock_id", JStr (id d)); ("cascaded_children", jstrs cascaded)];
      mret (JObj ([("destroyed", JBool true); ("drydock_id", JStr (id d)); ("cascaded", jstrs cascaded)]
                  ++ if ok then [] else [("partial_failures", JList failures)]))
  end.

(** ** StopDesk, InspectDesk, ListDesks, ListChildren *)

Definition stop_desk (params request_id : json) (caller : option string) : W json :=
  '(target_name, target_id) ← lift (_validated_stop_target params);
  target ← reg_get (_lookup_by_name_or_id target_name target_id);
  match target with
  | None => desk_not_found target_id
  | Some d =>
      _ ← stop dry_run (container_id d);
      _ ← touch_state (name d) "suspended";
      mret (JObj [("drydock_id", JStr (id d)); ("name", JStr (name d)); ("state", JStr "suspended")])
  end.

(** [Drydock.to_dict]. *)
Definition to_dict (d : Drydock) : json :=
  JObj [("name", JStr (name d)); ("project", JStr (project d)); ("repo_path", JStr (repo_path d));
        ("id", JStr (id d)); ("worktree_path", JStr (worktree_path d)); ("branch", JStr (branch d));
        ("base_ref", JStr (base_ref d)); ("state", JStr (state d)); ("container_id", JStr (container_id d));
        ("workspace_subdir", JStr (workspace_subdir d)); ("image", JStr (image d)); ("owner", JStr (owner d));
        ("created_at", JStr (created_at d)); ("updated_at", JStr (updated_at d)); ("config", config d);
        ("pinned_yaml_sha256", JStr (pinned_yaml_sha256 d)); ("yard_id", opt_str (yard_id d));
        ("original_resources_hard", original_resources_hard d)].

Definition inspect_desk (params request_id : json) (caller : option string) : W json :=
  '(target_name, target_id) ← lift (_validated_stop_target params);
  target ← reg_get (_lookup_by_name_or_id target_name target_id);
  match target with
  | None => desk_not_found target_id
  | Some d => mret (to_dict d)
  end.

(** [params.get(k)]; a list has none. *)
Definition param (k : string) (params : json) : json :=
  match params with JObj o => jget k o | _ => JNull end.

(** An optional filter: a falsy value is no filter. *)
Definition sql_filter (v : json) : res exn (option string) :=
  if truthy v then s ← sql_text v; Ok (Some s) else Ok None.

Definition list_desks (params request_id : json) (caller : option string) : W json :=
  prj ← lift (sql_filter (param "project" params));
  st ← lift (sql_filter (param "state" params));
  desks ← reg_get (list_drydocks prj st);
  mret (JObj [("desks", JList (map to_dict desks))]).

Definition list_children (params request_id : json) (caller : option string) : W json :=
  let parent_id := py_or (param "parent_id" params) (opt_str caller) in
  if negb (truthy parent_id) then lift (missing_key "parent_id")
  else
    parent ← lift (sql_text parent_id);
    children ← reg_get (get_children parent);
    mret (JObj [("children", JList (map to_dict children))]).

(** ** [daemon/server.py]'s handlers, with the secrets root and the registry configured *)

Definition _create_desk (params request_id : json) (caller : option string) : W json :=
  with_task_log "CreateDesk" params request_id (create_desk params request_id None) status_completed.

Definition _spawn_child (params request_id : json) (caller : option string) : W json :=
  with_task_log "SpawnChild" params request_id (spawn_child params request_id caller) status_completed.

Definition _destroy_desk (params request_id : json) (caller : option string) : W json :=
  with_task_log "DestroyDesk" params request_id (destroy_desk params request_id caller) status_destroy.

Definition _whoami := whoami.
Definition _stop_desk := stop_desk.
Definition _list_desks := list_desks.
Definition _list_children := list_children.
Definition _inspect_desk := inspect_desk.
End Desks.
