(* ===== verification/DeskSpecFacts.v ===== *)
(** What a validated spec is, and that the overlay a resume derives from a desk's stored
    configuration agrees with the one its create derived from the request. *)

From S2P Require Import Prelude PyStr PyVal Registry Policy World Rpc Ceilings Overlay DeskSpec Desks.
From Stdlib Require Import List.

(** ** The type of a validated spec *)

Definition list_of (ok : json -> bool) (v : json) : bool := match v with JList l => forallb ok l | _ => false end.
Definition nullable (ok : json -> bool) (v : json) : bool := is_null v || ok v.
Definition one_of (l : list string) (v : json) : bool := match v with JStr s => existsb (String.eqb s) l | _ => false end.
Definition str_map (v : json) : bool := match v with JObj o => forallb (fun kv => is_str (snd kv)) o | _ => false end.

(** Relative, and not leading out of the worktree. *)
Definition inner_path (v : json) : bool :=
  match v with
  | JStr s => negb (is_absolute s) && negb (existsb (String.eqb "..") (path_parts s))
  | _ => false
  end.

Section Types.
Context `{Env}.

(** Ceilings that [HardCeilings.from_dict] reads. *)
Definition ceilings_ok (v : json) : bool :=
  match v with JObj [] => true | JObj _ => is_ok (from_dict v) | _ => false end.

Definition spec_schema : list (string * (json -> bool)) :=
  [("project", nonempty_str); ("name", nonempty_str); ("repo_path", nonempty_str); ("branch", nonempty_str);
   ("base_ref", nonempty_str); ("image", is_str); ("owner", is_str); ("workspace_subdir", is_str);
   ("devcontainer_subpath", inner_path); ("tailscale_hostname", nullable is_str);
   ("tailscale_serve_port", nullable is_int); ("tailscale_authkey_env_var", nullable is_str);
   ("remote_control_name", nullable is_str); ("firewall_extra_domains", list_of is_str);
   ("firewall_ipv6_hosts", list_of is_str); ("firewall_aws_ip_ranges", list_of is_str);
   ("forward_ports", list_of is_int); ("claude_profile", nullable is_str);
   ("egress_proxy", one_of ["disabled"; "enabled"]); ("role", one_of ["worker"; "auditor"]);
   ("extra_env", str_map); ("storage_mounts", list_of is_dict); ("secret_entitlements", list_of is_str);
   ("extra_mounts", list_of is_str); ("delegatable_firewall_domains", list_of is_str);
   ("delegatable_secrets", list_of is_str); ("capabilities", list_of is_str);
   ("delegatable_storage_scopes", list_of is_str); ("delegatable_provision_scopes", list_of is_str);
   ("delegatable_network_reach", list_of is_str); ("network_reach_ports", list_of is_int);
   ("resources_hard", ceilings_ok); ("yard", nullable is_str)].

Definition well_typed (spec : obj) : Prop :=
  map fst spec = map fst spec_schema
  /\ Forall (fun kc => snd kc (jget (fst kc) spec) = true) spec_schema.

Lemma validated_list_type ok e v f r : validated_list ok e v f = Ok r -> list_of ok r = true.
Proof. unfold validated_list. destruct v as [| | | | |l|]; try done; [by intros [= <-]|]. destruct (forallb ok l) eqn:E; [|done]. by intros [= <-]. Qed.
Lemma optional_string_type v f r : _validated_optional_string v f = Ok r -> nullable is_str r = true.
Proof. unfold _validated_optional_string. by destruct v; try done; intros [= <-]. Qed.
Lemma optional_int_type v f r : _validated_optional_int v f = Ok r -> nullable is_int r = true.
Proof. unfold _validated_optional_int. by destruct v; try done; intros [= <-]. Qed.
Lemma str_map_type v f r : _validated_str_map v f = Ok r -> str_map r = true.
Proof. unfold _validated_str_map. destruct v as [| | | | | |o]; try done; [by intros [= <-]|]. destruct (forallb _ o) eqn:E; [|done]. by intros [= <-]. Qed.
Lemma choice_type o k d x m r : validated_choice o k d x m = Ok r -> one_of [d; x] r = true.
Proof.
  unfold validated_choice. destruct ((_ =s d) || _) eqn:E; [|done]. intros [= <-]. cbn. by rewrite orb_false_r.
Qed.
Lemma subpath_check s : _validate_devcontainer_subpath s = Ok tt -> inner_path (JStr s) = true.
Proof. unfold _validate_devcontainer_subpath, inner_path. destruct (is_absolute s), (existsb _ _); done. Qed.
Lemma subpath_type v r : validated_subpath v = Ok r -> inner_path r = true.
Proof.
  unfold validated_subpath, mbind, res_bind. destruct v as [| | | |s| |]; try done.
  - by intros [= <-].
  - destruct (_validate_devcontainer_subpath s) as [[]|] eqn:E; [|done]. intros [= <-]. by apply subpath_check.
Qed.
Lemma ceilings_type v r : validated_ceilings v = Ok r -> ceilings_ok r = true.
Proof.
  unfold validated_ceilings. cbv zeta. destruct (py_or v (JObj [])) as [| | | | | |[|kv o]]; try done; [by intros [= <-]|].
  destruct (from_dict _) eqn:E; [intros [= <-]; unfold ceilings_ok; by rewrite E|]. by destruct (_ =s _).
Qed.
Lemma yard_type v r : validated_yard v = Ok r -> nullable is_str r = true.
Proof. unfold validated_yard. by destruct v; try done; intros [= <-]. Qed.
Lemma subdir_type v r : validated_subdir v = Ok r -> is_str r = true.
Proof. unfold validated_subdir. destruct (py_or v (JStr "")); try done. by intros [= <-]. Qed.
Lemma str_or_type v d : is_empty d = false -> nonempty_str (str_or v d) = true.
Proof. unfold str_or. intros Hd. destruct (nonempty_str v) eqn:E; [done|]. cbn. by rewrite Hd. Qed.
Lemma str_or_empty_type v : is_str (str_or_empty v) = true.
Proof. unfold str_or_empty. by destruct (is_str v) eqn:E. Qed.

Lemma validated_fields_type o prj nm spec :
  is_empty prj = false -> is_empty nm = false -> validated_fields o prj nm = Ok spec -> well_typed spec.
Proof.
  intros Hp Hn. unfold validated_fields, _validated_string_list, _validated_int_list, _validated_dict_list.
  intros E. cbv zeta in E.
  repeat match type of E with (_ ≫= _) = Ok _ =>
    let a := fresh "v" in let Ea := fresh "E" in apply res_bind_ok in E as (a & Ea & E) end.
  injection E as <-.
  repeat match goal with
  | Hx : validated_list _ _ _ _ = Ok _ |- _ => apply validated_list_type in Hx
  | Hx : _validated_optional_string _ _ = Ok _ |- _ => apply optional_string_type in Hx
  | Hx : _validated_optional_int _ _ = Ok _ |- _ => apply optional_int_type in Hx
  | Hx : _validated_str_map _ _ = Ok _ |- _ => apply str_map_type in Hx
  | Hx : validated_choice _ _ _ _ _ = Ok _ |- _ => apply choice_type in Hx
  | Hx : validated_subpath _ = Ok _ |- _ => apply subpath_type in Hx
  | Hx : validated_ceilings _ = Ok _ |- _ => apply ceilings_type in Hx
  | Hx : validated_yard _ = Ok _ |- _ => apply yard_type in Hx
  | Hx : validated_subdir _ = Ok _ |- _ => apply subdir_type in Hx
  end.
  split; [reflexivity|].
  repeat (apply List.Forall_cons; [cbn [fst snd]|]); try apply List.Forall_nil;
    match goal with |- ?c (jget ?k ?s) = true => let v := eval cbv [jget assoc String.eqb Ascii.eqb Bool.eqb] in (jget k s) in change (c v = true) end;
    first [eassumption | apply str_or_type; by (try (cbn; destruct prj)) | apply str_or_empty_type | cbn; by rewrite ?Hp, ?Hn].
Qed.

Lemma validated_spec_type params spec : _validated_spec params = Ok spec -> well_typed spec.
Proof.
  unfold _validated_spec. destruct params as [| | | | | |o]; try done.
  destruct (jget "project" o) as [| | | |prj| |]; try done. destruct (jget "name" o) as [| | | |nm| |]; try done.
  destruct (is_empty prj) eqn:Hp, (is_empty nm) eqn:Hn; try done. by apply validated_fields_type.
Qed.

(** C35: what passes [_validated_spec] is well typed: it has exactly the keys of a spec, in order, its
    two names are not empty, every list has elements of its type, the choices are among
    their two words, the ceilings parse, and the devcontainer path is relative and
    stays inside the worktree; so no later step of a create meets another shape. *)
Theorem validated_spec_well_typed params spec : _validated_spec params = Ok spec -> well_typed spec.
Proof. apply validated_spec_type. Qed.

Lemma well_typed_at spec k c : well_typed spec -> In (k, c) spec_schema -> c (jget k spec) = true.
Proof. intros [_ Ht] Hk. rewrite List.Forall_forall in Ht. exact (Ht (k, c) Hk). Qed.
End Types.

(** ** Resuming *)

Lemma assoc_snoc_none {A} k (l : list (string * A)) : ~ In k (map fst l) -> assoc k l = None.
Proof.
  induction l as [|[k' v] l IH]; cbn; [done|]. intros Hk. destruct (String.eqb_spec k k') as [->|]; [by destruct Hk; left|].
  apply IH. tauto.
Qed.

Lemma assoc_jmerge {A} k (a b : list (string * A)) : NoDup (map fst b) ->
  assoc k (jmerge a b) = match assoc k b with Some v => Some v | None => assoc k a end.
Proof.
  unfold jmerge. revert a. induction b as [|[k' v] b IH]; cbn; intros a Hd; [done|].
  apply NoDup_cons_iff in Hd as [Hk Hd]. rewrite (IH _ Hd). destruct (String.eqb_spec k k') as [->|Hne].
  - rewrite (assoc_snoc_none k' b Hk). apply assoc_jset_eq.
  - destruct (assoc k b); [done|]. by apply assoc_jset_ne.
Qed.

Section Resume.
Context `{Env} (spec : obj).

Definition stored_field (k : string) : option json :=
  match assoc k spec with
  | Some v => if is_null v || is_nil_list v then None else Some v
  | None => None
  end.
Definition stored_entry (k : string) : obj := match stored_field k with Some v => [(k, v)] | None => [] end.

Lemma config_data_entries : _overlay_config_data spec = flat_map stored_entry _OVERLAY_PARAM_FIELDS.
Proof.
  unfold _overlay_config_data. apply flat_map_ext. intros k. unfold stored_entry, stored_field.
  destruct (assoc k spec) as [v|]; [|done]. by destruct (is_null v || is_nil_list v).
Qed.

Lemma entries_keys fs x : In x (map fst (flat_map stored_entry fs)) -> In x fs.
Proof.
  induction fs as [|k fs IH]; cbn; [done|]. unfold stored_entry at 1. destruct (stored_field k); cbn; intuition.
Qed.

Lemma entries_nodup fs : NoDup fs -> NoDup (map fst (flat_map stored_entry fs)).
Proof.
  induction 1 as [|k fs Hk Hd IH]; cbn; [constructor|]. unfold stored_entry at 1. destruct (stored_field k); cbn; [|done].
  constructor; [|done]. by intros Hx%entries_keys.
Qed.

Lemma entries_assoc fs k : assoc k (flat_map stored_entry fs) = if existsb (String.eqb k) fs then stored_field k else None.
Proof.
  induction fs as [|k' fs IH]; cbn; [done|]. unfold stored_entry at 1. destruct (stored_field k') as [v|] eqn:E; cbn.
  - destruct (String.eqb_spec k k') as [->|]; [done|exact IH].
  - destruct (String.eqb_spec k k') as [->|]; cbn; [|exact IH]. rewrite IH, E. by destruct (existsb _ _).
Qed.

Lemma fields_nodup : NoDup _OVERLAY_PARAM_FIELDS.
Proof. unfold _OVERLAY_PARAM_FIELDS. repeat constructor; cbn; intuition congruence. Qed.

(** What the stored configuration holds at a key. *)
Lemma stored_at (a : obj) k :
  jget k (jmerge a (_overlay_config_data spec))
  = match (if existsb (String.eqb k) _OVERLAY_PARAM_FIELDS then stored_field k else None) with
    | Some v => v
    | None => jget k a
    end.
Proof.
  unfold jget. rewrite config_data_entries, (assoc_jmerge _ _ _ (entries_nodup _ fields_nodup)), entries_assoc.
  by destruct (if existsb _ _ then _ else _).
Qed.

(** What a create stores of [spec] once the overlay is written. *)
Definition stored (overlay_path : string) : obj :=
  match create_config spec [("overlay_path", JStr overlay_path)] with JObj o => o | _ => [] end.

Lemma stored_param p k : existsb (String.eqb k) _OVERLAY_PARAM_FIELDS = true ->
  jget k (stored p) = if is_nil_list (jget k spec) then JNull else jget k spec.
Proof.
  intros Hk. unfold stored, create_config. rewrite stored_at, Hk. unfold stored_field, jget at 2 3.
  destruct (assoc k spec) as [v|].
  - destruct v as [| | | | |[|]|]; try reflexivity; apply existsb_exists in Hk as (k' & Hk' & ->%String.eqb_eq);
      repeat destruct Hk' as [<-|Hk']; try reflexivity; destruct Hk'.
  - apply existsb_exists in Hk as (k' & Hk' & ->%String.eqb_eq). repeat destruct Hk' as [<-|Hk']; try reflexivity. destruct Hk'.
Qed.

Lemma stored_list p k ok : existsb (String.eqb k) _OVERLAY_PARAM_FIELDS = true -> list_of ok (jget k spec) = true ->
  cfg_or (stored p) k as_list [] = Ok (spec_list k spec).
Proof.
  intros Hk Ht. unfold cfg_or, spec_list. rewrite (stored_param p k Hk). destruct (jget k spec) as [| | | | |[|]|]; done.
Qed.

Lemma stored_dict p k : existsb (String.eqb k) _OVERLAY_PARAM_FIELDS = true -> is_dict (jget k spec) = true ->
  cfg_or (stored p) k as_dict [] = Ok (spec_obj k spec).
Proof.
  intros Hk Ht. unfold cfg_or, spec_obj. rewrite (stored_param p k Hk). by destruct (jget k spec) as [| | | | |[|]|[|]].
Qed.

Lemma stored_text p k : existsb (String.eqb k) _OVERLAY_PARAM_FIELDS = true -> nullable is_str (jget k spec) = true ->
  cfg_json (stored p) k (JStr "") = spec_str k spec (JStr "").
Proof.
  intros Hk Ht. unfold cfg_json, spec_str, py_or. rewrite (stored_param p k Hk). by destruct (jget k spec) as [| | | |[|]|[|]|].
Qed.

Lemma stored_choice p k d a b : existsb (String.eqb k) _OVERLAY_PARAM_FIELDS = true ->
  is_empty a = false -> is_empty b = false -> one_of [a; b] (jget k spec) = true ->
  cfg_lower (stored p) k d = match jget k spec with JStr s => lower s | _ => d end.
Proof.
  intros Hk Ha Hb Ht. unfold cfg_lower. rewrite (stored_param p k Hk). destruct (jget k spec) as [| | | |s|[|]|]; try done.
  cbn in *. rewrite orb_false_r in Ht. destruct (is_empty s) eqn:E; [|done]. apply is_empty_true in E. subst.
  apply orb_true_iff in Ht as [<-%String.eqb_eq|<-%String.eqb_eq]; done.
Qed.

Lemma stored_port p : nullable is_int (jget "tailscale_serve_port" spec) = true ->
  cfg_json (stored p) "tailscale_serve_port" (JInt 3000)
  = py_or (if is_int (jget "tailscale_serve_port" spec) then jget "tailscale_serve_port" spec else JInt 3000) (JInt 3000).
Proof.
  intros Ht. unfold cfg_json. rewrite (stored_param p "tailscale_serve_port" eq_refl).
  by destruct (jget "tailscale_serve_port" spec) as [|[]|z| | |[|]|].
Qed.

Lemma stored_mounts p : cfg_or (stored p) "extra_mounts" as_list [] = Ok (spec_list "extra_mounts" spec).
Proof.
  unfold cfg_or, stored, create_config. rewrite stored_at. cbn [existsb]. change (jget "extra_mounts" _) with (JList (spec_list "extra_mounts" spec)).
  by destruct (spec_list "extra_mounts" spec).
Qed.

Lemma stored_no_proxy p : jget "proxy_config_host_dir" (stored p) = JNull.
Proof. unfold stored, create_config. by rewrite stored_at. Qed.

(** The configuration of a resume against the create's: the key of the tailnet and the directory of
    the proxy rules are not stored, a serve port of 0 falls back to the default, and the
    extra mounts, which the create had left out, are there. *)
Definition resumed (c : OverlayConfig) : OverlayConfig :=
  {| secrets_host_dir := secrets_host_dir c; secrets_container_dir := secrets_container_dir c;
     firewall_extra_domains := firewall_extra_domains c; firewall_ipv6_hosts := firewall_ipv6_hosts c;
     firewall_aws_ip_ranges := firewall_aws_ip_ranges c; tailscale_hostname := tailscale_hostname c;
     tailscale_authkey := ""; tailscale_serve_port := py_or (tailscale_serve_port c) (JInt 3000);
     tailscale_advertise_tags := tailscale_advertise_tags c; remote_control_name := remote_control_name c;
     extra_env := extra_env c; oc_extra_mounts := spec_list "extra_mounts" spec;
     storage_mounts := storage_mounts c; forward_ports := forward_ports c; claude_profile := claude_profile c;
     wsd_run_host_dir := wsd_run_host_dir c; drydock_rpc_host_path := drydock_rpc_host_path c;
     oc_resources_hard := oc_resources_hard c; egress_proxy := egress_proxy c; proxy_config_host_dir := None;
     role := role c; audit_log_host_path := audit_log_host_path c; registry_db_host_path := registry_db_host_path c |}.

Lemma is_dict_str_map v : str_map v = true -> is_dict v = true.
Proof. by destruct v. Qed.
Lemma is_dict_ceilings v : ceilings_ok v = true -> is_dict v = true.
Proof. by destruct v. Qed.

(** the overlay that a resume derives from the configuration a create stored is the overlay
    that create derived from its request, in every field but four: the tailscale auth key
    and the proxy directory are lost, the extra mounts appear, and a serve port of 0
    becomes 3000. *)
Theorem resume_overlay_agrees params p :
  _validated_spec params = Ok spec ->
  config_from_stored (stored p) = Ok (resumed (_overlay_from_spec spec)).
Proof.
  intros Hv. pose proof (validated_spec_type params spec Hv) as Ht.
  assert (forall k c, In (k, c) spec_schema -> c (jget k spec) = true) as At by (intros; by eapply well_typed_at).
  unfold config_from_stored. cbv zeta.
  rewrite (stored_list p "firewall_extra_domains" is_str), (stored_list p "firewall_ipv6_hosts" is_str),
    (stored_list p "firewall_aws_ip_ranges" is_str), (stored_list p "forward_ports" is_int),
    (stored_dict p "extra_env"), (stored_list p "storage_mounts" is_dict), (stored_dict p "resources_hard")
    by first [reflexivity | apply is_dict_str_map, At; cbn; tauto | apply is_dict_ceilings, At; cbn; tauto | apply At; cbn; tauto].
  rewrite stored_mounts. unfold mbind, res_bind. unfold resumed, _overlay_from_spec. cbv zeta. cbn [tailscale_hostname
    tailscale_serve_port remote_control_name claude_profile egress_proxy role default_config].
  rewrite (stored_text p "tailscale_hostname"), (stored_text p "remote_control_name"), (stored_text p "claude_profile"),
    (stored_choice p "egress_proxy" _ "disabled" "enabled"), (stored_port p)
    by first [reflexivity | apply At; cbn; tauto].
  do 2 f_equal.
  - by rewrite stored_no_proxy.
  - rewrite (stored_choice p "role" _ "worker" "auditor") by first [reflexivity | apply At; cbn; tauto].
    destruct (jget "role" spec); try done. by destruct (String.eqb_spec (lower s) "worker").
Qed.
End Resume.

(** ** A request *)

Definition sample_params : json :=
  JObj [("project", JStr "proj"); ("name", JStr "desk-1"); ("extra_mounts", JList [JStr "/a:/b"]);
        ("forward_ports", JList [JInt 8080]); ("egress_proxy", JStr "ENABLED"); ("tailscale_serve_port", JInt 0)].

Definition sample_spec : obj :=
  Eval vm_compute in match _validated_spec (H := demo_env) sample_params with Ok s => s | Err _ => [] end.

Lemma validated_spec_well_typed_witness : well_typed (H := demo_env) sample_spec.
Proof. apply (validated_spec_well_typed (H := demo_env) sample_params sample_spec). vm_compute. reflexivity. Defined.

Lemma resume_overlay_agrees_witness :
  config_from_stored (H := demo_env) (stored (H := demo_env) sample_spec "/o.json")
  = Ok (resumed sample_spec (_overlay_from_spec (H := demo_env) sample_spec)).
Proof. apply (resume_overlay_agrees (H := demo_env) sample_spec sample_params "/o.json"). vm_compute. reflexivity. Defined.

(** A serve port of 0 changes on resume, and the proxy directory goes. *)
Example resume_differs :
  (fun c => (tailscale_serve_port c, proxy_config_host_dir c)) (_overlay_from_spec (H := demo_env) sample_spec)
    = (JInt 0, Some (JStr "/root/.drydock/proxy"))
  /\ (fun c => (tailscale_serve_port c, proxy_config_host_dir c)) (resumed sample_spec (_overlay_from_spec (H := demo_env) sample_spec))
    = (JInt 3000, None).
Proof. vm_compute. split; reflexivity. Qed.
