(* ===== verification/Workload.v ===== *)
(** [core/workload.py] and [daemon/workload_handlers.py]: a workload's resource lifts
    as a transaction of reversible actions, its lease, the expiry sweep and the two
    RPC handlers. [Action] is the source's protocol; [CgroupLiftAction] is its one
    implementation. *)

From S2P Require Import Prelude PyStr PyVal Datetime Registry World Rpc Ceilings.
From Stdlib Require Import List.


#[export] Instance spec_float_eq_dec : EqDecision SpecFloat.spec_float.
Proof. solve_decision. Defined.
#[export] Instance HardCeilings_eq_dec : EqDecision HardCeilings.
Proof. solve_decision. Defined.

Definition get_or (k : string) (d : json) (o : obj) : json :=
  let v := jget k o in if truthy v then v else d.

(** ** Spec and lease *)

Record WorkloadSpec : Type := mkSpec {
  sp_kind : string; sp_description : string; sp_expected : obj; sp_duration : Z
}.

Definition spec_to_dict (s : WorkloadSpec) : json :=
  JObj [("kind", JStr (sp_kind s)); ("description", JStr (sp_description s));
        ("expected", JObj (sp_expected s)); ("duration_max_seconds", JInt (sp_duration s))].

Definition _VALID_KINDS : list string := ["training"; "crawl"; "batch"; "experiment"; "interactive"].
Definition _MAX_DURATION_SECONDS : Z := 12 * 3600.

Definition validation_error {A} (msg : string) : res exn A :=
  Err (PyError "WorkloadValidationError" msg).

Section Validation.
Context `{FloatRepr}.

Definition validate_spec (spec : WorkloadSpec) : res exn WorkloadSpec :=
  if negb (existsb (String.eqb (sp_kind spec)) _VALID_KINDS)
  then validation_error ("unknown workload kind " +:+ repr_str (sp_kind spec)
         +:+ "; expected one of " +:+ repr_sorted _VALID_KINDS)
  else if negb ((1 <=? sp_duration spec) && (sp_duration spec <=? _MAX_DURATION_SECONDS))
  then validation_error ("duration_max_seconds must be in [1, " +:+ str_of_Z _MAX_DURATION_SECONDS
         +:+ "]; got " +:+ str_of_Z (sp_duration spec))
  else
    let cgroup_part := List.filter (fun kv => is_ceiling_key (fst kv)) (sp_expected spec) in
    match cgroup_part with
    | [] => Ok spec
    | _ => match from_dict (JObj cgroup_part) with
           | Ok _ => Ok spec
           | Err e =>
               if exn_class e =s "ResourceCeilingError"
               then validation_error ("invalid cgroup ceilings in expected: " +:+ str_exn e)
               else Err e
           end
    end.

End Validation.

(** ** Actions *)

(** The [Action] protocol: apply the effect and return what the revert needs, undo it
    given that, and the parameters to persist. *)
Record Action : Type := mkAction {
  a_kind : string;
  a_apply : W obj;
  a_revert : obj -> W unit;
  a_serialize : obj
}.

Section Lift.
Context `{Env}.

(** The fields [lifted] sets and [original] does not. *)
Definition unsafe_fields (original lifted : HardCeilings) : list string :=
  (if is_some (memory_max lifted) && negb (is_some (memory_max original)) then ["memory_max"] else [])
  ++ (if is_some (cpu_max lifted) && negb (is_some (cpu_max original)) then ["cpu_max"] else [])
  ++ (if is_some (pids_max lifted) && negb (is_some (pids_max original)) then ["pids_max"] else []).

Definition lift_apply (container_id : string) (original lifted : HardCeilings) : W obj :=
  match unsafe_fields original lifted with
  | [] =>
      flags ← apply_cgroup_limits container_id lifted;
      mret [("container_id", JStr container_id);
            ("applied_flags", JList (map (fun f => JStr (render_flag f)) flags));
            ("original", JObj (to_dict original)); ("lifted", JObj (to_dict lifted))]
  | unsafe => cgroup_error ("refusing to lift cgroup field(s) " +:+ repr_list (map repr_str unsafe)
      +:+ " on a drydock with no original cap — docker can't revert to unlimited in place. "
      +:+ "Set explicit standing caps in project YAML resources_hard before lifting.")
  end.

Definition lift_revert (persisted : obj) : W unit :=
  original ← lift (from_dict (get_or "original" (JObj []) persisted));
  lifted ← lift (from_dict (get_or "lifted" (JObj []) persisted));
  match assoc "container_id" persisted with
  | Some (JStr cid) => _ ← revert_cgroup_limits cid original lifted; mret tt
  | Some _ => throw (PyError "TypeError" "expected str, bytes or os.PathLike object")
  | None => throw (PyError "KeyError" "'container_id'")
  end.

Definition lift_serialize (container_id : string) (original lifted : HardCeilings) : obj :=
  [("kind", JStr "cgroup_lift"); ("container_id", JStr container_id);
   ("original", JObj (to_dict original)); ("lifted", JObj (to_dict lifted))].

Definition CgroupLiftAction (container_id : string) (original lifted : HardCeilings) : Action :=
  mkAction "cgroup_lift" (lift_apply container_id original lifted) lift_revert
    (lift_serialize container_id original lifted).

Definition deserialize_action (payload : obj) : res exn Action :=
  if str_eq_json "cgroup_lift" (jget "kind" payload) then
    match assoc "container_id" payload with
    | Some (JStr cid) =>
        original ← from_dict (get_or "original" (JObj []) payload);
        lifted ← from_dict (get_or "lifted" (JObj []) payload);
        Ok (CgroupLiftAction cid original lifted)
    | Some _ => Err (PyError "TypeError" "container_id")
    | None => Err (PyError "KeyError" "'container_id'")
    end
  else validation_error ("unknown action kind: " +:+ py_repr (jget "kind" payload)).

(** Only cgroup lifts exist so far. [{**original, **request}] keeps unrequested fields. *)
Definition build_actions_for_spec (spec : WorkloadSpec) (container_id : string)
    (original_resources_hard : json) : res exn (list Action) :=
  let cgroup_request := List.filter (fun kv => is_ceiling_key (fst kv)) (sp_expected spec) in
  match cgroup_request with
  | [] => Ok []
  | _ =>
      original ← from_dict original_resources_hard;
      let base := match original_resources_hard with JObj o => o | _ => [] end in
      lifted ← from_dict (JObj (jmerge base cgroup_request));
      Ok (if bool_decide (original = lifted) then []
          else [CgroupLiftAction container_id original lifted])
  end.
End Lift.

(** ** Atomic apply and revert *)

Record WorkloadApplyError : Type := mkApplyError { failed_at : nat; cause : exn }.

(** Undo in the order given, keeping going past failures. *)
Fixpoint rollback (applied : list (Action * obj)) (w : world) : world :=
  match applied with
  | [] => w
  | (a, p) :: rest => rollback rest (snd (a_revert a p w))
  end.

(** The loop of [apply_actions_atomically]: [applied] holds the earlier actions,
    latest first. *)
Fixpoint apply_loop (idx : nat) (applied : list (Action * obj)) (actions : list Action)
    (w : world) : res WorkloadApplyError (list (Action * obj)) * world :=
  match actions with
  | [] => (Ok (rev applied), w)
  | a :: rest =>
      match a_apply a w with
      | (Ok p, w') => apply_loop (S idx) ((a, p) :: applied) rest w'
      | (Err e, w') => (Err (mkApplyError idx e), rollback applied w')
      end
  end.

Definition applied_entry (ap : Action * obj) : obj :=
  jset "persisted" (JObj (snd ap)) (a_serialize (fst ap)).

Definition apply_actions_atomically (actions : list Action) (w : world)
    : res WorkloadApplyError (list obj) * world :=
  match apply_loop 0 [] actions w with
  | (Ok applied, w') => (Ok (map applied_entry applied), w')
  | (Err e, w') => (Err e, w')
  end.

Section Revert.
Context `{Env}.

(** One entry: what [deserialize_action(entry).revert(entry.get("persisted") or entry)] does. *)
Definition revert_entry (entry : obj) : W unit :=
  a ← lift (deserialize_action entry);
  match get_or "persisted" (JObj entry) entry with
  | JObj p => a_revert a p
  | _ => throw (PyError "AttributeError" "object has no attribute 'get'")
  end.

Definition revert_result (entry : obj) (r : res exn unit) : obj :=
  match r with
  | Ok _ => [("kind", jget "kind" entry); ("ok", JBool true)]
  | Err e => [("kind", jget "kind" entry); ("ok", JBool false); ("error", JStr (str_exn e))]
  end.

(** Best effort over [entries] in the order given. *)
Fixpoint revert_loop (entries : list obj) (w : world) : list obj * world :=
  match entries with
  | [] => ([], w)
  | e :: rest =>
      let '(r, w1) := revert_entry e w in
      let '(rs, w2) := revert_loop rest w1 in
      (revert_result e r :: rs, w2)
  end.

(** The latest action is reverted first; the results are in the original order. *)
Definition revert_lease_actions (applied_actions : list obj) (w : world) : list obj * world :=
  let '(rs, w') := revert_loop (rev applied_actions) w in (rev rs, w').

Definition any_failure (results : list obj) : bool :=
  existsb (fun r => negb (truthy (jget "ok" r))) results.

(** The stored action list; [None] is anything but a list of objects. *)
Definition as_entries (v : json) : option (list obj) :=
  match v with
  | JList l =>
      fold_right (fun x acc => match x, acc with
                               | JObj o, Some os => Some (o :: os)
                               | _, _ => None
                               end) (Some []) l
  | _ => None
  end.

(** ** Lease assembly and the sweep *)

Definition new_lease_id : W string := u ← uuid4; mret ("wl_" +:+ u).

Definition assemble_lease (drydock_id : string) (spec : WorkloadSpec) (applied : list obj)
    : W workload_row :=
  granted ← utc_now;
  match add_seconds granted (sp_duration spec) with
  | None => throw overflow_error
  | Some expires =>
      i ← new_lease_id;
      mret (mkWorkload i drydock_id (spec_to_dict spec) (Some (JList (map JObj applied)))
              (isoformat granted) (isoformat expires) "active" None None)
  end.

Definition due (cutoff : string) (r : workload_row) : bool :=
  wl_active r && ts_ltb (wl_expires_at r) cutoff.

Definition results_json (rs : list obj) : json := JList (map JObj rs).

(** Revert a row's actions and mark it; [ok_status] is its status when nothing failed. *)
Definition revoke_row_actions (i ok_status : string) (entries : list obj)
    : W (list obj * string) :=
  results ← (fun w => let '(rs, w') := revert_lease_actions entries w in (Ok rs, w'));
  let terminal := if any_failure results then "partial-revoked" else ok_status in
  now ← _utc_now;
  _ ← reg (mark_workload_lease_revoked i terminal (results_json results) now);
  mret (results, terminal).

(** An unreadable action list counts as empty. *)
Definition sweep_entries (r : workload_row) : res exn (list obj) :=
  match wl_actions r with
  | None => Ok []
  | Some v => match as_entries v with
              | Some es => Ok es
              | None => Err (PyError "TypeError" "applied_actions")
              end
  end.

Definition sweep_row (r : workload_row) : W obj :=
  entries ← lift (sweep_entries r);
  '(results, terminal) ← revoke_row_actions (wl_id r) "expired" entries;
  mret [("lease_id", JStr (wl_id r)); ("drydock_id", JStr (wl_drydock_id r));
        ("terminal_status", JStr terminal); ("results", results_json results)].

Fixpoint sweep_rows (rows : list workload_row) : W (list obj) :=
  match rows with
  | [] => mret []
  | r :: rest => s ← sweep_row r; ss ← sweep_rows rest; mret (s :: ss)
  end.

Definition sweep_expired_leases (now : option datetime) : W (list obj) :=
  moment ← match now with Some t => mret t | None => utc_now end;
  rows ← reg_get (fun d => order_by le_expires
                    (tbl_select (due (isoformat moment)) (workload_leases d)));
  sweep_rows rows.

(** ** RPC handlers *)

Definition invalid_params {A} (data : obj) : res exn A := rpc_error (-32602) "invalid_params" data.

Definition _validated_register_params (params : json) : res exn WorkloadSpec :=
  match params with
  | JObj o =>
      match jget "kind" o with
      | JStr kind =>
          match get_or "description" (JStr "") o with
          | JStr description =>
              match get_or "expected" (JObj []) o with
              | JObj expected =>
                  match jget_default "duration_max_seconds" (JInt 3600) o with
                  | JInt duration => Ok (mkSpec kind description expected duration)
                  | _ => invalid_params [("field", JStr "duration_max_seconds");
                                         ("reason", JStr "must be an integer")]
                  end
              | _ => invalid_params [("field", JStr "expected"); ("reason", JStr "must be an object")]
              end
          | _ => invalid_params [("field", JStr "description"); ("reason", JStr "must be a string")]
          end
      | _ => invalid_params [("field", JStr "kind"); ("reason", JStr "must be a string")]
      end
  | _ => invalid_params [("reason", JStr "expected object")]
  end.

Definition _drydock_by_id (drydock_id : string) (d : db) : option Drydock :=
  option_map _row_to_drydock (tbl_first (by_id drydock_id) (drydocks d)).

Definition validated (spec : WorkloadSpec) : res exn WorkloadSpec :=
  match validate_spec spec with
  | Ok spec => Ok spec
  | Err e => if exn_class e =s "WorkloadValidationError"
             then rpc_error (-32602) "invalid_workload_spec" [("reason", JStr (str_exn e))]
             else Err e
  end.

Definition kinds (applied : list obj) : list json := map (jget "kind") applied.

(** The applying half: the actions are in effect when the lease row is written. *)
Definition grant_workload (caller : string) (request_id : json) (spec : WorkloadSpec)
    (actions : list Action) : W json :=
  outcome ← (fun w => let '(r, w') := apply_actions_atomically actions w in (Ok r, w'));
  match outcome with
  | Err e =>
      _ ← emit_audit "workload.lease_apply_failed" (Some caller) request_id "RegisterWorkload" "error"
            [("kind", JStr (sp_kind spec)); ("failed_at", JInt (Z.of_nat (failed_at e)));
             ("cause", JStr (str_exn (cause e)))];
      rpc (-32019) "workload_apply_failed"
        [("failed_at", JInt (Z.of_nat (failed_at e))); ("cause", JStr (str_exn (cause e)))]
  | Ok applied =>
      lease ← assemble_lease caller spec applied;
      _ ← reg (insert_workload_lease lease);
      _ ← emit_audit "workload.lease_granted" (Some caller) request_id "RegisterWorkload" "ok"
            [("lease_id", JStr (wl_id lease)); ("kind", JStr (sp_kind spec));
             ("duration_max_seconds", JInt (sp_duration spec)); ("actions", JList (kinds applied));
             ("expires_at", JStr (wl_expires_at lease))];
      mret (JObj [("lease_id", JStr (wl_id lease)); ("drydock_id", JStr (wl_drydock_id lease));
        ("kind", JStr (sp_kind spec)); ("granted_at", JStr (wl_granted_at lease));
        ("expires_at", JStr (wl_expires_at lease));
        ("applied_actions", JList (map (fun k => JObj [("kind", k)]) (kinds applied)));
        ("status", JStr (wl_status lease))])
  end.

Definition register_workload (params request_id : json) (caller : option string) : W json :=
  match caller with
  | None => throw (RpcError (-32004) "unauthenticated" None)
  | Some caller =>
      spec ← lift (_validated_register_params params);
      _ ← lift (validated spec);
      ws ← reg_get (_drydock_by_id caller);
      match ws with
      | None => rpc (-32603) "caller_drydock_not_found" [("drydock_id", JStr caller)]
      | Some ws =>
          if is_empty (container_id ws) then
            rpc (-32018) "drydock_not_running"
              [("fix", JStr "Start the drydock first; cgroup lift requires a live container.")]
          else
            existing ← reg_get (list_active_workload_leases (Some caller));
            match existing with
            | e :: _ =>
                rpc (-32017) "workload_lease_exists"
                  [("lease_id", JStr (wl_id e));
                   ("fix", JStr "ReleaseWorkload the existing lease before registering another.")]
            | [] =>
                actions ← lift (build_actions_for_spec spec (container_id ws)
                  (if truthy (original_resources_hard ws) then original_resources_hard ws else JObj []));
                grant_workload caller request_id spec actions
            end
      end
  end.

Definition _release_response (r : workload_row) (results : option (list obj)) : json :=
  JObj ([("lease_id", JStr (wl_id r)); ("drydock_id", JStr (wl_drydock_id r));
         ("status", JStr (wl_status r)); ("revoked_at", opt_str (wl_revoked_at r))]
        ++ match results with Some rs => [("results", results_json rs)] | None => [] end).

(** [json.loads(row["applied_actions_json"])], iterated as action records. *)
Definition release_entries (r : workload_row) : res exn (list obj) :=
  match wl_actions r with
  | None => Err (PyError "JSONDecodeError" "Expecting value")
  | Some v => match as_entries v with
              | Some es => Ok es
              | None => Err (PyError "TypeError" "applied_actions")
              end
  end.

Definition release_active (caller lease_id : string) (request_id : json) (row : workload_row)
    : W json :=
  applied ← lift (release_entries row);
  '(results, terminal) ← revoke_row_actions lease_id "released" applied;
  _ ← emit_audit "workload.lease_released" (Some caller) request_id "ReleaseWorkload"
        (if any_failure results then "error" else "ok")
        [("lease_id", JStr lease_id); ("terminal_status", JStr terminal);
         ("results", results_json results)];
  row ← reg_get (get_workload_lease lease_id);
  match row with
  | Some row => mret (_release_response row (Some results))
  | None => throw (PyError "TypeError" "'NoneType' object is not subscriptable")
  end.

Definition release_workload (params request_id : json) (caller : option string) : W json :=
  match caller with
  | None => throw (RpcError (-32004) "unauthenticated" None)
  | Some caller =>
      match params with
      | JObj o =>
          match jget "lease_id" o with
          | JStr lease_id =>
              if is_empty lease_id then
                lift (invalid_params [("field", JStr "lease_id");
                                      ("reason", JStr "must be a non-empty string")])
              else
                row ← reg_get (get_workload_lease lease_id);
                match row with
                | None => rpc (-32601) "lease_not_found" [("lease_id", JStr lease_id)]
                | Some row =>
                    if negb (wl_drydock_id row =s caller) then
                      rpc (-32004) "forbidden" [("reason", JStr "lease_belongs_to_other_drydock")]
                    else if negb (wl_active row) then mret (_release_response row None)
                    else release_active caller lease_id request_id row
                end
          | _ => lift (invalid_params [("field", JStr "lease_id");
                                       ("reason", JStr "must be a non-empty string")])
          end
      | _ => lift (invalid_params [("reason", JStr "expected object with lease_id")])
      end
  end.
End Revert.
