(* ===== verification/WorkloadFacts.v ===== *)
(** Correctness of [Workload.v]: atomicity of the action transaction against an abstract
    contract that the cgroup lift satisfies, restoration of the container's ceilings,
    one active lease per desk, idempotent release, and the sweep. *)

From S2P Require Import Prelude PyStr PyVal Datetime Registry RegistryFacts World Rpc WorldFacts RpcFacts Ceilings Workload.
From Stdlib Require Import List.

(** ** The contract of an action *)

(** From a world satisfying [pre], a failed apply changes nothing that [same] observes,
    and a revert that succeeds takes back what the apply did. *)
Class Reversible (same : relation world) (pre : world -> Prop) (a : Action) : Prop := {
  apply_fails_clean : forall w e w', pre w -> a_apply a w = (Err e, w') -> same w' w;
  revert_undoes : forall w p w1 w' u w2, pre w -> a_apply a w = (Ok p, w1) -> same w' w1 ->
    a_revert a p w' = (Ok u, w2) -> same w2 w
}.

Section Atomic.
Context (same : relation world) `{!Equivalence same}.

(** Each action is applied in a world that meets its precondition. *)
Fixpoint admissible (pres : list (world -> Prop)) (actions : list Action) (w : world) : Prop :=
  match pres, actions with
  | [], [] => True
  | pre :: pres', a :: rest =>
      pre w /\ Reversible same pre a
      /\ match a_apply a w with (Ok _, w1) => admissible pres' rest w1 | (Err _, _) => True end
  | _, _ => False
  end.

(** Every revert of a rollback succeeds. *)
Fixpoint rollback_clean (applied : list (Action * obj)) (w : world) : Prop :=
  match applied with
  | [] => True
  | (a, p) :: rest => is_ok (fst (a_revert a p w)) = true /\ rollback_clean rest (snd (a_revert a p w))
  end.

(** Undoing [applied] (latest first) from a world that looks like [w1] leads back to
    one that looks like [w]. *)
Definition undoes (applied : list (Action * obj)) (w1 w : world) : Prop :=
  forall w', same w' w1 -> rollback_clean applied w' -> same (rollback applied w') w.

Lemma undoes_nil w : undoes [] w w.
Proof. intros w' Hs _. exact Hs. Qed.

Lemma undoes_cons a p pre applied w0 w1 w2 :
  Reversible same pre a -> pre w1 -> a_apply a w1 = (Ok p, w2) -> undoes applied w1 w0 ->
  undoes ((a, p) :: applied) w2 w0.
Proof.
  intros Hr Hpre Ha Hu w' Hs. cbn [rollback_clean rollback].
  destruct (a_revert a p w') as [[u|e] w3] eqn:Hv; cbn [fst snd is_ok]; intros [Hok Hc]; [|done].
  apply Hu; [|done]. by eapply revert_undoes.
Qed.

(** The actions are applied one after another; [ap] holds each with what its apply returned. *)
Inductive applied_in_turn : list Action -> world -> list (Action * obj) -> world -> Prop :=
  | in_turn_nil w : applied_in_turn [] w [] w
  | in_turn_cons a p rest ap w w1 w2 : a_apply a w = (Ok p, w1) -> applied_in_turn rest w1 ap w2 ->
      applied_in_turn (a :: rest) w ((a, p) :: ap) w2.

Lemma apply_loop_spec actions : forall idx applied w r w', apply_loop idx applied actions w = (r, w') ->
  match r with
  | Ok ap => exists ap', applied_in_turn actions w ap' w' /\ ap = rev applied ++ ap'
  | Err e => exists ap' w1 a w2, failed_at e = (idx + length ap')%nat
      /\ applied_in_turn (firstn (length ap') actions) w ap' w1 /\ nth_error actions (length ap') = Some a
      /\ a_apply a w1 = (Err (cause e), w2) /\ w' = rollback (rev ap' ++ applied) w2
  end.
Proof.
  induction actions as [|a rest IH]; intros idx applied w r w'; cbn [apply_loop].
  - intros [= <- <-]. exists []. split; [constructor|]. by rewrite app_nil_r.
  - destruct (a_apply a w) as [[p|e0] w1] eqn:Ha.
    + intros E%IH. destruct r as [ap|e].
      * destruct E as (ap' & Ht & ->). exists ((a, p) :: ap'). split; [by econstructor|]. cbn. by rewrite <- app_assoc.
      * destruct E as (ap' & w2 & b & w3 & Hi & Ht & Hb & He & Hw). exists ((a, p) :: ap'), w2, b, w3.
        split; [cbn; lia|]. split; [by econstructor|]. split; [done|]. split; [done|]. cbn. by rewrite <- app_assoc.
    + intros [= <- <-]. exists [], w, a, w1. split; [cbn; lia|]. split; [constructor|]. done.
Qed.

Lemma in_turn_fst actions w ap w' : applied_in_turn actions w ap w' -> map fst ap = actions.
Proof. induction 1; cbn; congruence. Qed.

Lemma in_turn_undoes actions : forall pres k applied ap w0 w w1, admissible pres actions w -> undoes applied w w0 ->
  applied_in_turn (firstn k actions) w ap w1 ->
  undoes (rev ap ++ applied) w1 w0
  /\ forall a, nth_error actions k = Some a -> exists pre, pre w1 /\ Reversible same pre a.
Proof.
  induction actions as [|a rest IH]; intros pres k applied ap w0 w w1 Hadm Hu Ht.
  - rewrite firstn_nil in Ht. inversion Ht; subst. split; [done|]. by destruct k.
  - destruct pres as [|pre pres]; [done|]. destruct Hadm as (Hpre & Hrev & Hadm). destruct k as [|k]; cbn [firstn] in Ht.
    + inversion Ht; subst. split; [done|]. intros b [= <-]. by exists pre.
    + inversion Ht as [|a' p rest' ap' w' w2 w3 Ha Ht']; subst. rewrite Ha in Hadm. cbn [rev]. rewrite <- app_assoc. cbn [app nth_error].
      eapply IH; [exact Hadm| |exact Ht']. by eapply undoes_cons.
Qed.

(** C39: The transaction is all or nothing. If it returns, every action was applied, one after another, and the entries record each
    with what its own apply had returned. If the action at index k fails, the k actions before it had been applied in this way
    and exactly these are undone, latest first, each by its revert on what its own apply had returned; as
    long as those reverts succeed nothing of the transaction remains visible. This holds for any actions that satisfy the
    [Reversible] contract. *)
Theorem apply_actions_atomic pres actions w :
  admissible pres actions w ->
  match apply_actions_atomically actions w with
  | (Ok entries, w') => exists ap, applied_in_turn actions w ap w' /\ entries = map applied_entry ap
  | (Err e, w') => exists ap w1 a w2, length ap = failed_at e
      /\ applied_in_turn (firstn (failed_at e) actions) w ap w1
      /\ nth_error actions (failed_at e) = Some a /\ a_apply a w1 = (Err (cause e), w2)
      /\ w' = rollback (rev ap) w2 /\ (rollback_clean (rev ap) w2 -> same w' w)
  end.
Proof.
  intros Hadm. unfold apply_actions_atomically.
  destruct (apply_loop 0 [] actions w) as [r w'] eqn:E. apply apply_loop_spec in E. destruct r as [ap|e].
  - destruct E as (ap' & Ht & ->). by exists ap'.
  - destruct E as (ap & w1 & a & w2 & Hi & Ht & Ha & He & Hw). cbn in Hi. rewrite app_nil_r in Hw. rewrite Hi.
    exists ap, w1, a, w2. split_and!; try done. intros Hc.
    destruct (in_turn_undoes actions pres (length ap) [] ap w w w1 Hadm (undoes_nil w) Ht) as [Hu Hr].
    destruct (Hr a Ha) as (pre & Hpre & Hrev). rewrite app_nil_r in Hu. rewrite Hw. apply Hu; [|done].
    by eapply apply_fails_clean.
Qed.
End Atomic.

(** ** The cgroup lift meets the contract *)

Section LiftContract.
Context `{Env} (cid : string) (created : limits).

(** The limits of container [cid] in a world. *)
Definition live (w : world) : limits := trace_limits cid created (w_calls w).

(** Same database, same ceilings on the container. *)
Definition same_container (w w' : world) : Prop :=
  w_db w = w_db w' /\ same_ceilings (live w) (live w').

#[export] Instance same_container_equiv : Equivalence same_container.
Proof.
  split.
  - intros w. split; reflexivity.
  - intros w w' [H1 H2]. split; by symmetry.
  - intros w1 w2 w3 [H1 H2] [H3 H4]. split; etransitivity; eauto.
Qed.

Lemma docker_update_same fs w :
  let '(r, w') := docker_update fs cid w in
  w_db w' = w_db w
  /\ ((r = Ok fs /\ live w' = set_args (map render_flag fs) (live w))
      \/ (is_ok r = false /\ live w' = live w)).
Proof.
  pose proof (docker_update_limits fs cid created w) as Hd.
  assert (w_db (snd (docker_update fs cid w)) = w_db w) as Hdb.
  { unfold docker_update, run, mbind, M_bind. cbn -[update_call].
    destruct (subprocess_run _ _) as [rc o e|m|m e]; try done. by destruct (negb (rc =? 0)). }
  destruct (docker_update fs cid w) as [r w']. split; [exact Hdb | exact Hd].
Qed.

Lemma apply_cgroup_same h w :
  let '(r, w') := apply_cgroup_limits cid h w in
  w_db w' = w_db w
  /\ ((is_ok r = true /\ live w' = set_args (map render_flag (_flags_for h)) (live w))
      \/ (is_ok r = false /\ live w' = live w)).
Proof.
  unfold apply_cgroup_limits. destruct (is_empty cid); [split; [done | by right]|].
  pose proof (docker_update_same (_flags_for h) w) as Hd. destruct (_flags_for h) as [|f fs].
  - split; [done|]. by left.
  - destruct (docker_update _ cid w) as [r w']. destruct Hd as [H1 [[-> H2]|H2]]; auto.
Qed.

Lemma revert_cgroup_same o x w :
  let '(r, w') := revert_cgroup_limits cid o x w in
  w_db w' = w_db w
  /\ (is_ok r = true -> live w' = set_args (map render_flag (_revert_flags_for o x)) (live w)).
Proof.
  unfold revert_cgroup_limits. pose proof (docker_update_same (_revert_flags_for o x) w) as Hd.
  destruct (_revert_flags_for o x) as [|f fs]; [done|].
  destruct (docker_update _ cid w) as [r w']. destruct Hd as [H1 [[-> H2]|[H0 H2]]];
    (split; [done|]); [done|congruence].
Qed.

Lemma get_or_ceilings k h o :
  assoc k o = Some (JObj (to_dict h)) -> valid_ceilings h ->
  from_dict (get_or k (JObj []) o) = Ok h.
Proof.
  intros Ha Hv. unfold get_or, jget. rewrite Ha.
  destruct (truthy (JObj (to_dict h))) eqn:Ht; [by apply from_dict_to_dict_valid|].
  rewrite <- (from_dict_to_dict_valid h Hv). unfold from_dict. rewrite Ht. done.
Qed.

Definition persisted_of (flags : list flag) (original lifted : HardCeilings) : obj :=
  [("container_id", JStr cid); ("applied_flags", JList (map (fun f => JStr (render_flag f)) flags));
   ("original", JObj (to_dict original)); ("lifted", JObj (to_dict lifted))].

Lemma lift_revert_eq p original lifted w :
  assoc "container_id" p = Some (JStr cid) -> assoc "original" p = Some (JObj (to_dict original)) ->
  assoc "lifted" p = Some (JObj (to_dict lifted)) ->
  valid_ceilings original -> valid_ceilings lifted ->
  lift_revert p w = (r ← revert_cgroup_limits cid original lifted; mret tt) w.
Proof.
  intros H1 H2 H3 Ho Hl. unfold lift_revert.
  rewrite (get_or_ceilings _ _ _ H2 Ho), lift_bind, (get_or_ceilings _ _ _ H3 Hl), lift_bind, H1. done.
Qed.

Lemma unsafe_covered original lifted :
  unsafe_fields original lifted = [] -> covered original lifted.
Proof.
  unfold unsafe_fields, covered, ceiling_text. intros Hu k Hk.
  destruct original as [[c|] [m|] [p|]], lifted as [[c'|] [m'|] [p'|]];
    cbn in Hu; try discriminate Hu; destruct Hk as [<-|[<-|[<-|[]]]]; cbn; congruence.
Qed.

Lemma lift_apply_inv original lifted w r w' :
  lift_apply cid original lifted w = (r, w') ->
  w_db w' = w_db w
  /\ match r with
     | Ok p => unsafe_fields original lifted = []
               /\ (exists fs, p = persisted_of fs original lifted)
               /\ live w' = set_args (map render_flag (_flags_for lifted)) (live w)
     | Err _ => live w' = live w
     end.
Proof.
  unfold lift_apply. destruct (unsafe_fields original lifted) eqn:Eu.
  - pose proof (apply_cgroup_same lifted w) as Ha. intros E.
    apply bind_inv in E as [(fs & w1 & E1 & E2)|(e & E1 & ->)]; rewrite E1 in Ha.
    + rewrite ret_eq in E2. injection E2 as <- <-. destruct Ha as [Hdb [[_ Hl]|[? _]]]; [|done].
      split; [done|]. split; [done|]. split; [|done]. by exists fs.
    + destruct Ha as [Hdb [[? _]|[_ Hl]]]; [done|]. done.
  - unfold cgroup_error. rewrite throw_eq. intros [= <- <-]. done.
Qed.

#[export] Instance lift_reversible original lifted :
  valid_ceilings original -> valid_ceilings lifted ->
  Reversible same_container (fun w => under original (live w)) (CgroupLiftAction cid original lifted).
Proof.
  intros Ho Hl. split; cbn [a_apply a_revert CgroupLiftAction].
  - intros w e w' _ Ha. apply lift_apply_inv in Ha as [Hdb Hlive]. split; [done|]. by rewrite Hlive.
  - intros w p w1 w' u w2 Hu Ha [Hdb Hs] Hr.
    apply lift_apply_inv in Ha as (Hdb1 & Hun & (fs & ->) & Hlive).
    rewrite (lift_revert_eq _ original lifted) in Hr by done.
    pose proof (revert_cgroup_same original lifted w') as Hrev.
    apply bind_inv in Hr as [(x & w3 & E1 & E2)|(e & _ & [=])]. rewrite ret_eq in E2.
    injection E2 as _ <-. rewrite E1 in Hrev. destruct Hrev as [Hdb3 Hrev].
    split; [congruence|]. rewrite Hrev by done.
    apply (lift_revert_limits original lifted); [by apply unsafe_covered|done|]. by rewrite <- Hlive.
Qed.

(** The persisted form of a lift is read back as that lift. *)
Lemma deserialize_lift original lifted p :
  valid_ceilings original -> valid_ceilings lifted ->
  deserialize_action (applied_entry (CgroupLiftAction cid original lifted, p))
  = Ok (CgroupLiftAction cid original lifted).
Proof.
  intros Ho Hl. unfold deserialize_action, applied_entry.
  change (jset "persisted" (JObj (snd (CgroupLiftAction cid original lifted, p))) _)
    with (lift_serialize cid original lifted ++ [("persisted", JObj p)]).
  set (e := lift_serialize cid original lifted ++ [("persisted", JObj p)]).
  rewrite (get_or_ceilings "original" original e) by done.
  rewrite (get_or_ceilings "lifted" lifted e) by done. reflexivity.
Qed.

Lemma revert_entry_lift original lifted fs w :
  valid_ceilings original -> valid_ceilings lifted ->
  revert_entry (applied_entry (CgroupLiftAction cid original lifted,
                               persisted_of fs original lifted)) w
  = (r ← revert_cgroup_limits cid original lifted; mret tt) w.
Proof.
  intros Ho Hl. unfold revert_entry. rewrite (deserialize_lift _ _ _ Ho Hl), lift_bind.
  cbn [get_or]. change (get_or "persisted" _ _) with (JObj (persisted_of fs original lifted)).
  cbv iota. cbn [a_revert CgroupLiftAction]. by apply lift_revert_eq.
Qed.
End LiftContract.

Definition demo_original : HardCeilings := mkCeilings None (Some "4g") None.
Definition demo_lifted : HardCeilings := mkCeilings None (Some "8g") None.

Lemma normal_size_mem (n : Z) : 0 < n -> normal_size (str_of_Z n +:+ "g").
Proof. intros H. exists n, "g". split; [done|]. split; [right; right; right; by left|done]. Qed.

Lemma demo_original_valid : valid_ceilings demo_original.
Proof. split; [done|]. split; [|done]. intros m [= <-]. by apply (normal_size_mem 4). Qed.
Lemma demo_lifted_valid : valid_ceilings demo_lifted.
Proof. split; [done|]. split; [|done]. intros m [= <-]. by apply (normal_size_mem 8). Qed.
Lemma no_ceilings_valid : valid_ceilings no_ceilings.
Proof. repeat split; done. Qed.

Lemma demo_under : under (H := demo_env) demo_original {["--memory" := "4g"]}.
Proof. intros k [<-|[<-|[<-|[]]]]; cbn; try done; intros _; reflexivity. Qed.

Lemma apply_actions_atomic_witness :
  let good := CgroupLiftAction (H := demo_env) "c1" demo_original demo_lifted in
  let refused := CgroupLiftAction (H := demo_env) "c1" no_ceilings demo_lifted in
  exists applied w1, snd (apply_actions_atomically [good; refused] empty_world) = rollback (rev applied) w1
  /\ map fst applied = [good].
Proof.
  cbv zeta.
  pose proof (apply_actions_atomic (same_container (H := demo_env) "c1" {["--memory" := "4g"]})
    [fun w => under (H := demo_env) demo_original (live (H := demo_env) "c1" {["--memory" := "4g"]} w);
     fun w => under (H := demo_env) no_ceilings (live (H := demo_env) "c1" {["--memory" := "4g"]} w)]
    [CgroupLiftAction (H := demo_env) "c1" demo_original demo_lifted;
     CgroupLiftAction (H := demo_env) "c1" no_ceilings demo_lifted] empty_world) as HH.
  assert (forall P Q : Prop, P -> (P -> Q) -> Q) as Hmp by auto.
  eapply Hmp; [|intros Hadm; specialize (HH Hadm)].
  - cbn [admissible]. split; [exact demo_under|].
    split; [apply lift_reversible; [exact demo_original_valid | exact demo_lifted_valid]|].
    destruct (a_apply _ empty_world) as [[p|e] w1]; [|exact I].
    split; [intros k _ Hk; exfalso; apply Hk; unfold ceiling_text; repeat case_match; reflexivity|].
    split; [apply lift_reversible; [exact no_ceilings_valid | exact demo_lifted_valid]|].
    destruct (a_apply _ w1) as [[q|e] w2]; exact I.
  - destruct (apply_actions_atomically _ empty_world) as [[es|e] w'] eqn:E.
    + exfalso. revert E. vm_compute. discriminate.
    + destruct HH as (ap & w1 & a & w2 & _ & Ht & _ & _ & Hw & _). exists ap, w2. split; [exact Hw|].
      assert (failed_at e = 1%nat) as Hat
        by (revert E; vm_compute; intros [= <- _]; reflexivity).
      rewrite Hat in Ht. exact (in_turn_fst _ _ _ _ Ht).
Defined.

(** ** Registering and releasing *)

Section Handlers.
Context `{Env}.

Lemma build_actions_inv spec cid base actions :
  build_actions_for_spec spec cid base = Ok actions ->
  actions = [] \/ exists original lifted, valid_ceilings original /\ valid_ceilings lifted
                  /\ from_dict base = Ok original /\ actions = [CgroupLiftAction cid original lifted].
Proof.
  unfold build_actions_for_spec. destruct (List.filter _ _) as [|kv kvs]; [intros [= <-]; by left|].
  intros (o & Ho & (l & Hl & E)%res_bind_ok)%res_bind_ok.
  destruct (bool_decide (o = l)); injection E as <-; [by left|]. right. exists o, l.
  split; [by eapply from_dict_valid|]. split; [by eapply from_dict_valid|]. done.
Qed.

(** What is in effect after a successful apply of a spec's actions. *)
Lemma apply_spec_actions cid created spec base actions w :
  build_actions_for_spec spec cid base = Ok actions ->
  let '(r, w') := apply_actions_atomically actions w in
  w_db w' = w_db w
  /\ match r with
     | Ok applied => (applied = [] /\ w' = w)
         \/ exists original lifted fs, valid_ceilings original /\ valid_ceilings lifted
            /\ from_dict base = Ok original /\ covered original lifted
            /\ applied = [applied_entry (CgroupLiftAction cid original lifted,
                                         persisted_of cid fs original lifted)]
            /\ live cid created w' = set_args (map render_flag (_flags_for lifted)) (live cid created w)
     | Err _ => live cid created w' = live cid created w
     end.
Proof.
  intros Hb. apply build_actions_inv in Hb as [->|(orig & lft & Ho & Hl & Hfo & ->)]; [cbn; by auto|].
  unfold apply_actions_atomically. cbn [apply_loop a_apply CgroupLiftAction].
  destruct (lift_apply cid orig lft w) as [[p|e] w1] eqn:E; cbn;
    apply (lift_apply_inv cid created) in E; destruct E as [Hdb E].
  - destruct E as (Hu & (fs & ->) & Hlive). split; [done|]. right. exists orig, lft, fs.
    split; [done|]. split; [done|]. split; [done|]. split; [by apply unsafe_covered|]. done.
  - done.
Qed.

(** Nothing but the audit log and the clock. *)
Definition same_state (w w' : world) : Prop := w_db w' = w_db w /\ w_calls w' = w_calls w.

Lemma emit_audit_run ev pr id m r d w :
  existsb (String.eqb ev) V2_EVENTS = true ->
  exists o w', emit_audit ev pr id m r d w = (o, w') /\ same_state w w'
    /\ match o with Ok _ => True | Err e => audit_error e end.
Proof.
  intros He. destruct (emit_audit_cases ev pr id m r d w He) as (o & w' & E & Hv & Hc & Ho). exists o, w'.
  split; [exact E|]. split; [|exact Ho]. by injection Hv as Hd _ _.
Qed.

(** The lease of a spec whose actions were applied, as it is assembled. *)
Definition fresh_lease (caller : string) (spec : WorkloadSpec) (applied : list obj) (lease : workload_row) : Prop :=
  wl_drydock_id lease = caller /\ wl_status lease = "active"
  /\ wl_actions lease = Some (JList (map JObj applied))
  /\ wl_revoked_at lease = None
  /\ (exists t e, wl_granted_at lease = isoformat t /\ wl_expires_at lease = isoformat e
                  /\ dt_valid t /\ add_seconds t (sp_duration spec) = Some e).

Lemma assemble_lease_run caller spec applied w r w' : assemble_lease caller spec applied w = (r, w') ->
  same_state w w' /\ match r with
                     | Ok lease => fresh_lease caller spec applied lease /\ wl_revoke_results lease = None
                     | Err e => exn_class e <> "_RpcError"
                     end.
Proof.
  unfold assemble_lease, mbind, M_bind, utc_now. cbv beta iota. destruct (add_seconds _ _) as [ex|] eqn:Eadd.
  - cbn. intros [= <- <-]. split; [done|]. split; [|done]. cbn. repeat split; try done.
    exists (clock (w_ticks w)), ex. repeat split; try done; apply clock_ok.
  - intros [= <- <-]. by split.
Qed.

(** What a grant leads to: a lease row more, even when the audit log then cannot be written, or none. *)
Lemma grant_workload_cases caller id spec actions w r w' :
  grant_workload caller id spec actions w = (r, w') ->
  let '(ra, wa) := apply_actions_atomically actions w in
  (exists applied lease, ra = Ok applied /\ fresh_lease caller spec applied lease
     /\ existsb (by_wl (wl_id lease)) (workload_leases (w_db wa)) = false
     /\ w_db w' = set_workload_leases (workload_leases (w_db wa) ++ [lease]) (w_db wa) /\ w_calls w' = w_calls wa
     /\ match r with Ok resp => exists kvs, resp = JObj (("lease_id", JStr (wl_id lease)) :: kvs) | Err e => audit_error e end)
  \/ exists e, r = Err e /\ w_db w' = w_db wa /\ (exn_class e = "_RpcError" -> is_ok ra = false /\ w_calls w' = w_calls wa).
Proof.
  unfold grant_workload. intros E. destruct (apply_actions_atomically actions w) as [ra wa] eqn:Ea.
  apply bind_inv in E as [(r0 & wb & E1 & E)|(e & E1 & _)]; rewrite Ea in E1; [|discriminate E1]. injection E1 as <- <-.
  destruct ra as [applied|err].
  2:{ right. destruct (emit_audit_run "workload.lease_apply_failed" (Some caller) id "RegisterWorkload" "error"
        [("kind", JStr (sp_kind spec)); ("failed_at", JInt (Z.of_nat (failed_at err)));
         ("cause", JStr (str_exn (cause err)))] wa eq_refl) as (o & w3 & E3 & [H3a H3b] & Ho).
      unfold mbind, M_bind in E. rewrite E3 in E. destruct o as [x|e]; injection E as <- <-; eexists; (split; [reflexivity|]); auto. }
  apply bind_inv in E as [(lease & w1 & E1 & E)|(e & E1 & ->)]; apply assemble_lease_run in E1 as [[Hdb Hcalls] L];
    [|right; exists e; by split_and!]. destruct L as [L Lr].
  apply bind_inv in E as [(u & w2 & E2 & E)|(e & E2 & ->)].
  - left. exists applied, lease. split; [done|]. split; [done|].
    unfold reg, insert_workload_lease in E2. msimp in E2. rewrite Hdb in E2.
    destruct (existsb (by_wl (wl_id lease)) _) eqn:Eid; [discriminate E2|]. destruct L as (L1 & L2 & L3 & L4 & L5).
    rewrite L2 in E2. cbn [wl_status_ok existsb orb negb] in E2. rewrite String.eqb_refl in E2.
    cbn [orb negb] in E2. msimp in E2. injection E2 as _ <-.
    match type of E with (emit_audit ?ev ?pr ?i ?m ?ok ?d ≫= _) ?w0 = _ =>
      destruct (emit_audit_run ev pr i m ok d w0 eq_refl) as (o & w4 & E4 & [H4a H4b] & Ho) end.
    split; [done|]. unfold mbind, M_bind in E. rewrite E4 in E.
    assert (w_db w4 = set_workload_leases (workload_leases (w_db wa) ++ [lease]) (w_db wa)) as Hd4
      by (rewrite H4a; cbn; do 3 f_equal; destruct lease; cbn in *; by subst).
    assert (w_calls w4 = w_calls wa) as Hc4 by by rewrite H4b.
    destruct o as [x|e]; injection E as <- <-; (split; [exact Hd4|]); (split; [exact Hc4|]); [|exact Ho]. eexists. reflexivity.
  - right. exists e. split; [done|]. unfold reg, insert_workload_lease in E2. rewrite gets_bind in E2.
    destruct (_ || _); [|discriminate E2]. rewrite throw_eq in E2. injection E2 as <- <-. rewrite set_db_id. by split.
Qed.

Lemma grant_workload_inv caller id spec actions w resp w' :
  grant_workload caller id spec actions w = (Ok resp, w') ->
  exists applied wa lease,
    apply_actions_atomically actions w = (Ok applied, wa)
    /\ fresh_lease caller spec applied lease
    /\ existsb (by_wl (wl_id lease)) (workload_leases (w_db wa)) = false
    /\ w_db w' = set_workload_leases (workload_leases (w_db wa) ++ [lease]) (w_db wa)
    /\ w_calls w' = w_calls wa
    /\ exists kvs, resp = JObj (("lease_id", JStr (wl_id lease)) :: kvs).
Proof.
  intros E%grant_workload_cases. destruct (apply_actions_atomically actions w) as [ra wa].
  destruct E as [(applied & lease & -> & H1 & H2 & H3 & H4 & H5)|(e & [=] & _)]. by exists applied, wa, lease.
Qed.

Lemma validate_spec_ok spec y :
  validate_spec spec = Ok y ->
  y = spec /\ In (sp_kind spec) _VALID_KINDS /\ 1 <= sp_duration spec <= _MAX_DURATION_SECONDS.
Proof.
  unfold validate_spec. destruct (existsb _ _VALID_KINDS) eqn:Ek; [|done].
  destruct (_ && _) eqn:Ed; cbn [negb]; [|done]. breflect. intros E.
  split; [|split; [|done]].
  - destruct (List.filter _ _); [congruence|]. destruct (from_dict _) as [h|e]; [congruence|].
    destruct (_ =s _); discriminate E.
  - apply existsb_exists in Ek as (k & Hk & He). breflect. by rewrite He.
Qed.

Lemma validated_ok spec x : validated spec = Ok x -> validate_spec spec = Ok spec.
Proof.
  unfold validated. destruct (validate_spec spec) as [y|e] eqn:Es.
  - intros _. f_equal. by apply validate_spec_ok in Es as [-> _].
  - by destruct (_ =s _).
Qed.

Lemma register_workload_inv params id caller w resp w' :
  register_workload params id (Some caller) w = (Ok resp, w') ->
  exists spec ws actions,
    validate_spec spec = Ok spec
    /\ _drydock_by_id caller (w_db w) = Some ws /\ container_id ws <> ""
    /\ list_active_workload_leases (Some caller) (w_db w) = []
    /\ build_actions_for_spec spec (container_id ws)
         (if truthy (original_resources_hard ws) then original_resources_hard ws else JObj [])
       = Ok actions
    /\ grant_workload caller id spec actions w = (Ok resp, w').
Proof.
  unfold register_workload. intros E. rewrite lift_bind in E.
  destruct (_validated_register_params params) as [spec|e]; [|discriminate E].
  rewrite lift_bind in E. destruct (validated spec) as [x|e] eqn:Ev; [|discriminate E].
  assert (validate_spec spec = Ok spec) as Hval by by eapply validated_ok.
  rewrite reg_gets_bind in E. destruct (_drydock_by_id caller (w_db w)) as [ws|]; [|discriminate E].
  destruct (is_empty (container_id ws)) eqn:Ec; [discriminate E|]. apply is_empty_false in Ec.
  rewrite reg_gets_bind in E. destruct (list_active_workload_leases _ _) as [|y l]; [|discriminate E].
  rewrite lift_bind in E.
  destruct (build_actions_for_spec _ _ _) as [actions|e] eqn:Eb; [|discriminate E].
  exists spec, ws, actions. done.
Qed.
(** ** Reverting *)

Lemma lift_revert_db p w : w_db (snd (lift_revert p w)) = w_db w.
Proof.
  unfold lift_revert. rewrite lift_bind. destruct (from_dict _) as [o|e]; [|done].
  rewrite lift_bind. destruct (from_dict _) as [l|e]; [|done].
  destruct (assoc _ p) as [[| | | |cid| |]|]; try done.
  pose proof (revert_cgroup_same cid ∅ o l w) as Hr. unfold mbind, M_bind.
  destruct (revert_cgroup_limits cid o l w) as [[fs|e] w']; apply Hr.
Qed.

Lemma revert_entry_db e w : w_db (snd (revert_entry e w)) = w_db w.
Proof.
  unfold revert_entry. rewrite lift_bind. destruct (deserialize_action e) as [a|x] eqn:Ea; [|done].
  assert (forall p, w_db (snd (a_revert a p w)) = w_db w) as Ha.
  { unfold deserialize_action in Ea. destruct (str_eq_json _ _); [|discriminate Ea].
    destruct (assoc _ e) as [[| | | |cid| |]|]; try discriminate Ea.
    apply res_bind_ok in Ea as (o & _ & Ea). apply res_bind_ok in Ea as (l & _ & [= <-]).
    intros p. apply lift_revert_db. }
  destruct (get_or _ _ e); done || apply Ha.
Qed.

Lemma revert_loop_db es w : w_db (snd (revert_loop es w)) = w_db w.
Proof.
  revert w. induction es as [|e es IH]; intros w; cbn [revert_loop]; [done|].
  pose proof (revert_entry_db e w) as He. destruct (revert_entry e w) as [r w1].
  specialize (IH w1). destruct (revert_loop es w1) as [rs w2]. cbn in *. congruence.
Qed.

Lemma revert_lease_actions_db es w : w_db (snd (revert_lease_actions es w)) = w_db w.
Proof.
  unfold revert_lease_actions. pose proof (revert_loop_db (rev es) w) as Hd.
  by destruct (revert_loop (rev es) w) as [rs w'].
Qed.

Definition terminal_of (ok_status : string) (rs : list obj) : string :=
  if any_failure rs then "partial-revoked" else ok_status.

(** Revoking always completes; only the row's own table changes. *)
Lemma revoke_row_actions_run i ok_status es w :
  wl_status_ok ok_status = true ->
  let '(rs, w1) := revert_lease_actions es w in
  exists w' now, revoke_row_actions i ok_status es w = (Ok (rs, terminal_of ok_status rs), w')
  /\ w_calls w' = w_calls w1
  /\ w_db w' = set_workload_leases
       (tbl_update (by_wl i) (revoke_wl (terminal_of ok_status rs) now (results_json rs))
          (workload_leases (w_db w))) (w_db w).
Proof.
  intros Hok. pose proof (revert_lease_actions_db es w) as Hdb.
  unfold revoke_row_actions. destruct (revert_lease_actions es w) as [rs w1] eqn:Er.
  cbn [snd] in Hdb.
  assert (wl_status_ok (terminal_of ok_status rs) = true) as Ht
    by (unfold terminal_of; destruct (any_failure rs); [reflexivity | done]).
  unfold mbind at 1, M_bind at 1. rewrite Er. cbv beta zeta. fold (terminal_of ok_status rs).
  rewrite utc_now_bind, reg_bind. cbn [w_db].
  unfold mark_workload_lease_revoked. rewrite gets_bind, Ht, andb_false_r, modify_eq.
  cbn [fst snd]. rewrite ret_eq, Hdb. do 2 eexists. split; [reflexivity|]. split; reflexivity.
Qed.

Lemma as_entries_map es : as_entries (JList (map JObj es)) = Some es.
Proof.
  cbn. induction es as [|e es IH]; cbn [map fold_right]; [done|]. by rewrite IH.
Qed.

Lemma release_active_inv caller lid id row w resp w' :
  release_active caller lid id row w = (Ok resp, w') ->
  exists es rs w1 r2, release_entries row = Ok es /\ revert_lease_actions es w = (rs, w1)
    /\ get_workload_lease lid (w_db w') = Some r2
    /\ resp = _release_response r2 (Some rs)
    /\ (exists now, w_db w' = set_workload_leases
         (tbl_update (by_wl lid) (revoke_wl (terminal_of "released" rs) now (results_json rs))
            (workload_leases (w_db w))) (w_db w))
    /\ w_calls w' = w_calls w1.
Proof.
  unfold release_active. intros E. rewrite lift_bind in E.
  destruct (release_entries row) as [es|e]; [|discriminate E].
  pose proof (revoke_row_actions_run lid "released" es w eq_refl) as Hr.
  destruct (revert_lease_actions es w) as [rs w1] eqn:Erv. destruct Hr as (w2 & now & Hrun & Hcalls & Hdb).
  unfold mbind, M_bind in E. rewrite Hrun in E.
  destruct (emit_audit_run "workload.lease_released" (Some caller) id "ReleaseWorkload"
    (if any_failure rs then "error" else "ok")
    [("lease_id", JStr lid); ("terminal_status", JStr (terminal_of "released" rs));
     ("results", results_json rs)] w2 eq_refl) as (o & w3 & E3 & [H3a H3b] & _).
  rewrite E3 in E. destruct o as [x|e]; [|discriminate E]. unfold reg_get, gets in E.
  destruct (get_workload_lease lid (w_db w3)) as [r2|] eqn:Eg; [|discriminate E].
  rewrite ret_eq in E. injection E as <- <-. exists es, rs, w1, r2.
  split; [done|]. split; [done|]. split; [done|]. split; [done|].
  split; [exists now; congruence | congruence].
Qed.

Lemma release_workload_eq lid id caller w :
  is_empty lid = false ->
  release_workload (JObj [("lease_id", JStr lid)]) id (Some caller) w
  = match get_workload_lease lid (w_db w) with
    | None => rpc (-32601) "lease_not_found" [("lease_id", JStr lid)] w
    | Some row =>
        if negb (wl_drydock_id row =s caller) then
          rpc (-32004) "forbidden" [("reason", JStr "lease_belongs_to_other_drydock")] w
        else if negb (wl_active row) then (Ok (_release_response row None), w)
        else release_active caller lid id row w
    end.
Proof.
  intros He. unfold release_workload. cbn [jget assoc]. change (jget "lease_id" _) with (JStr lid).
  cbv iota. rewrite He, reg_gets_bind. destruct (get_workload_lease _ _); [|done].
  by repeat case_goal.
Qed.

(** Whatever a workload lifted is taken back: if the drydock's container runs under its standing
    ceilings when a workload is registered, then once the lease is released with status
    "released" the container's cpu, memory and pids limits, as set by the docker calls that
    succeeded, are those it had before, whatever happened in between as long as the lease row
    and the ceilings were not changed by someone else. *)
Theorem release_restores_ceilings params id caller w resp w1 lid ws original created w2 id2 resp2 w3 :
  register_workload params id (Some caller) w = (Ok resp, w1) ->
  (exists kvs, resp = JObj (("lease_id", JStr lid) :: kvs)) ->
  _drydock_by_id caller (w_db w) = Some ws ->
  from_dict (if truthy (original_resources_hard ws) then original_resources_hard ws else JObj [])
    = Ok original ->
  under original (live (container_id ws) created w) ->
  get_workload_lease lid (w_db w2) = get_workload_lease lid (w_db w1) ->
  same_ceilings (live (container_id ws) created w2) (live (container_id ws) created w1) ->
  release_workload (JObj [("lease_id", JStr lid)]) id2 (Some caller) w2 = (Ok resp2, w3) ->
  (exists row rs, resp2 = _release_response row rs /\ wl_status row = "released") ->
  same_ceilings (live (container_id ws) created w3) (live (container_id ws) created w).
Proof.
  intros Hreg (kvs & ->) Hws Horig Hunder Hrow Hsame Hrel (frow & frs & -> & Hst).
  apply register_workload_inv in Hreg as (spec & ws' & actions & _ & Hws' & _ & _ & Hb & Hg).
  rewrite Hws in Hws'. injection Hws' as <-.
  apply grant_workload_inv in Hg as (applied & wa & lease & Ha & (L1 & L2 & L3 & _ & _) & Hid & Hdb & Hc & (k2 & [= Hlid _])).
  pose proof (apply_spec_actions (container_id ws) created _ _ _ w Hb) as Hap. rewrite Ha in Hap.
  destruct Hap as [_ Hap].
  assert (live (container_id ws) created w1 = live (container_id ws) created wa) as Hl1
    by (unfold live; by rewrite Hc).
  assert (get_workload_lease lid (w_db w1) = Some lease) as Hget.
  { rewrite Hdb. unfold get_workload_lease. cbn [workload_leases set_workload_leases].
    rewrite tbl_first_app, Hlid, (proj2 (tbl_first_None _ _) (tbl_fresh _ _ Hid)).
    unfold tbl_first, by_wl; cbn. by rewrite String.eqb_refl. }
  destruct (is_empty lid) eqn:Hne.
  { unfold release_workload in Hrel. change (jget "lease_id" _) with (JStr lid) in Hrel.
    cbv iota in Hrel. rewrite Hne in Hrel. discriminate Hrel. }
  rewrite release_workload_eq, Hrow, Hget, L1, String.eqb_refl in Hrel by done.
  unfold wl_active in Hrel. rewrite L2 in Hrel. cbn [negb] in Hrel. change ("active" =s "active") with true in Hrel.
  cbn [negb] in Hrel.
  apply release_active_inv in Hrel as (es & rs & wr & r2 & Hes & Hrev & Hget3 & Hresp & (now & Hdb3) & Hc3).
  unfold release_entries in Hes. rewrite L3, as_entries_map in Hes. injection Hes as <-.
  (* the row read back carries the terminal status *)
  assert (any_failure rs = false) as Hok.
  { rewrite Hdb3 in Hget3. unfold get_workload_lease in Hget3. cbn [workload_leases set_workload_leases] in Hget3.
    rewrite tbl_first_update in Hget3 by done.
    unfold get_workload_lease in Hrow, Hget. rewrite Hrow, Hget in Hget3. cbn [option_map] in Hget3.
    unfold by_wl in Hget3. rewrite Hlid, String.eqb_refl in Hget3. injection Hget3 as <-.
    unfold _release_response in Hresp. injection Hresp as _ _ Hs _. rewrite Hst in Hs.
    unfold revoke_wl, terminal_of in Hs. cbn in Hs. destruct (any_failure rs); [discriminate Hs | done]. }
  assert (live (container_id ws) created w3 = live (container_id ws) created wr) as Hl3
    by (unfold live; by rewrite Hc3).
  rewrite Hl3.
  destruct Hap as [[-> ->]|(o & l & fs & Ho & Hl & Hfo & Hcov & -> & Hlive)].
  - cbn in Hrev. injection Hrev as <- <-. by rewrite <- Hl1.
  - rewrite Horig in Hfo. injection Hfo as <-.
    unfold revert_lease_actions in Hrev. cbn [rev app revert_loop] in Hrev.
    destruct (revert_entry _ w2) as [r wx] eqn:Ere. cbn in Hrev. injection Hrev as <- <-.
    rewrite revert_entry_lift in Ere by done.
    assert (is_ok r = true) as Hr by (destruct r; [done | cbn in Hok; discriminate Hok]).
    pose proof (revert_cgroup_same (container_id ws) created original l w2) as Hrv.
    apply bind_inv in Ere as [(x & w4 & E1 & E2)|(e & _ & ->)]; [|discriminate Hr].
    rewrite ret_eq in E2. injection E2 as _ <-. rewrite E1 in Hrv. destruct Hrv as [_ Hrv].
    rewrite Hrv by done.
    apply (lift_revert_limits original l); [done|done|]. rewrite Hsame, Hl1, Hlive. reflexivity.
Qed.
End Handlers.

(** A drydock running under a 4g cap, alone on its harbor. *)
Definition demo_dock : Drydock :=
  mkDrydock "a" "p" "/r" "dock_a" "" "" "HEAD" "running" "c1" "" "" "" "t" "t" (JObj []) "" None
    (JObj [("memory_max", JStr "4g")]).
Definition demo_world : world :=
  set_db (set_drydocks [new_dock_row demo_dock] empty_db) empty_world.
Definition demo_request : json :=
  JObj [("kind", JStr "training"); ("expected", JObj [("memory_max", JStr "8g")])].
Definition demo_w1 : world := snd (register_workload (H := demo_env) demo_request (JInt 1) (Some "dock_a") demo_world).
Definition demo_lid : string := "wl_" +:+ pad 32 0.
Definition demo_w3 : world :=
  snd (release_workload (H := demo_env) (JObj [("lease_id", JStr demo_lid)]) (JInt 2) (Some "dock_a") demo_w1).

Definition answer (r : res exn json) : json := match r with Ok v => v | Err _ => JNull end.
Definition demo_resp1 : json :=
  answer (fst (register_workload (H := demo_env) demo_request (JInt 1) (Some "dock_a") demo_world)).
Definition demo_resp3 : json :=
  answer (fst (release_workload (H := demo_env) (JObj [("lease_id", JStr demo_lid)]) (JInt 2)
                 (Some "dock_a") demo_w1)).

Lemma release_restores_ceilings_witness :
  length (w_calls demo_w3) = 2%nat
  /\ same_ceilings (live (H := demo_env) "c1" {["--memory" := "4g"]} demo_w3)
    (live (H := demo_env) "c1" {["--memory" := "4g"]} demo_world).
Proof.
  split; [vm_compute; reflexivity|].
  refine (@release_restores_ceilings demo_env demo_request (JInt 1) "dock_a" demo_world demo_resp1 demo_w1
    demo_lid demo_dock demo_original {["--memory" := "4g"]} demo_w1 (JInt 2) demo_resp3 demo_w3
    _ _ _ _ _ eq_refl _ _ _).
  - vm_compute. reflexivity.
  - eexists. vm_compute. reflexivity.
  - reflexivity.
  - reflexivity.
  - exact demo_under.
  - reflexivity.
  - vm_compute. reflexivity.
  - eexists (mkWorkload demo_lid "dock_a" JNull None "" "" "released" (Some _) None),
      (Some [[("kind", JStr "cgroup_lift"); ("ok", JBool true)]]). split; [vm_compute; reflexivity|].
    reflexivity.
Defined.

(** ** One active lease, idempotent release, the sweep *)

Section Leases.
Context `{Env}.

(** At most one active workload lease per desk, ids unique. *)
Definition one_active (d : db) : Prop :=
  NoDup (map wl_id (workload_leases d))
  /\ NoDup (map wl_drydock_id (tbl_select wl_active (workload_leases d))).

(** One call of a workload operation of the daemon. *)
Inductive workload_step : world -> world -> Prop :=
  | step_register params id caller w : workload_step w (snd (register_workload params id caller w))
  | step_release params id caller w : workload_step w (snd (release_workload params id caller w))
  | step_sweep now w : workload_step w (snd (sweep_expired_leases now w)).

Definition keeps (P : db -> Prop) {A} (m : W A) : Prop := preserves (fun w => P (w_db w)) m.

Lemma revoke_active_select i st t rs tbl :
  st <> "active" ->
  tbl_select wl_active (tbl_update (by_wl i) (revoke_wl st t rs) tbl)
  = tbl_delete (by_wl i) (tbl_select wl_active tbl).
Proof.
  intros Hst. unfold tbl_select, tbl_update, tbl_delete.
  induction tbl as [|r tbl IH]; cbn [map List.filter]; [done|]. destruct (by_wl i r) eqn:Ei.
  - replace (wl_active (revoke_wl st t rs r)) with false
      by (unfold wl_active; cbn; symmetry; by apply String.eqb_neq).
    destruct (wl_active r); cbn [List.filter]; [by rewrite Ei|done].
  - destruct (wl_active r); cbn [List.filter]; [by rewrite Ei, IH|done].
Qed.

Lemma one_active_revoke i st t rs d :
  st <> "active" -> one_active d ->
  one_active (set_workload_leases (tbl_update (by_wl i) (revoke_wl st t rs) (workload_leases d)) d).
Proof.
  intros Hst [H1 H2]. split; cbn [workload_leases set_workload_leases]; [by rewrite tbl_update_map|].
  rewrite revoke_active_select by done. by apply tbl_delete_NoDup.
Qed.

Lemma terminal_not_active ok rs : ok <> "active" -> terminal_of ok rs <> "active".
Proof. unfold terminal_of. by destruct (any_failure rs). Qed.

(** How a RegisterWorkload ends: one lease more, or none. *)
Lemma register_workload_cases params id caller w r w' :
  register_workload params id caller w = (r, w') ->
  (exists spec ws actions c wa applied lease, caller = Some c /\ validate_spec spec = Ok spec
     /\ _drydock_by_id c (w_db w) = Some ws /\ list_active_workload_leases (Some c) (w_db w) = []
     /\ apply_actions_atomically actions w = (Ok applied, wa) /\ fresh_lease c spec applied lease /\ w_db wa = w_db w
     /\ existsb (by_wl (wl_id lease)) (workload_leases (w_db w)) = false
     /\ w_db w' = set_workload_leases (workload_leases (w_db w) ++ [lease]) (w_db w)
     /\ match r with Ok _ => True | Err e => audit_error e end)
  \/ exists e, r = Err e /\ w_db w' = w_db w
     /\ (exn_class e = "_RpcError" -> forall c ws created, caller = Some c -> _drydock_by_id c (w_db w) = Some ws ->
           live (container_id ws) created w' = live (container_id ws) created w).
Proof.
  unfold register_workload. destruct caller as [caller|]; [|intros [= <- <-]; right; eauto].
  rewrite lift_bind. destruct (_validated_register_params params) as [spec|e0]; [|intros [= <- <-]; right; eauto].
  rewrite lift_bind. destruct (validated spec) as [x|e0] eqn:Ev; [|intros [= <- <-]; right; eauto].
  assert (validate_spec spec = Ok spec) as Hval by by eapply validated_ok.
  rewrite reg_gets_bind. destruct (_drydock_by_id caller (w_db w)) as [ws|] eqn:Ews; [|intros [= <- <-]; right; eauto].
  destruct (is_empty (container_id ws)); [intros [= <- <-]; right; eauto|].
  rewrite reg_gets_bind. destruct (list_active_workload_leases _ _) as [|y l] eqn:El; [|intros [= <- <-]; right; eauto].
  rewrite lift_bind. destruct (build_actions_for_spec _ _ _) as [actions|e0] eqn:Eb; [|intros [= <- <-]; right; eauto].
  intros E%grant_workload_cases.
  pose proof (fun created => apply_spec_actions (container_id ws) created _ _ _ w Eb) as Ha.
  destruct (apply_actions_atomically actions w) as [ra wa] eqn:Ea. pose proof (proj1 (Ha ∅)) as Hdb.
  destruct E as [(applied & lease & -> & H1 & H2 & H3 & H4 & H5)|(e & -> & Hd & Hr)].
  - left. rewrite Hdb in *. exists spec, ws, actions, caller, wa, applied, lease. split_and!; try done. by destruct r.
  - right. exists e. split; [done|]. split; [congruence|]. intros Hc c ws' created [= <-] Hws'. rewrite Ews in Hws'. injection Hws' as <-.
    destruct (Hr Hc) as [Hra Hcalls]. destruct (Ha created) as [_ Hl]. destruct ra as [?|err]; [done|]. unfold live in *. by rewrite Hcalls.
Qed.

(** A RegisterWorkload that fails leaves no lease: the database is as it was, unless all that failed was the writing of the
    audit log at the end, which leaves the lease; and when the failure is reported as an RPC error (a bad spec, a stopped
    drydock, a lease already active, a lift docker refused) the ceilings of the caller's container are as they were too. *)
Theorem register_workload_fails_clean params id caller w created ws :
  _drydock_by_id caller (w_db w) = Some ws ->
  let '(r, w') := register_workload params id (Some caller) w in
  match r with
  | Ok _ => True
  | Err e => (w_db w' = w_db w \/ audit_error e)
             /\ (exn_class e = "_RpcError" -> w_db w' = w_db w /\ live (container_id ws) created w' = live (container_id ws) created w)
  end.
Proof.
  intros Hws. destruct (register_workload params id (Some caller) w) as [[v|e] w'] eqn:E; [done|].
  apply register_workload_cases in E as [(? & ? & ? & ? & ? & ? & ? & _ & _ & _ & _ & _ & _ & _ & _ & _ & Hau)|(e' & [= <-] & Hdb & Hl)].
  - split; [by right|]. intros Hc. by destruct (audit_error_class _ Hau); congruence.
  - split; [by left|]. intros Hc. split; [done|]. by eapply Hl.
Qed.

Lemma register_one_active params id caller :
  keeps one_active (register_workload params id caller).
Proof.
  intros w Hw. destruct (register_workload params id caller w) as [r w'] eqn:E; cbn [snd].
  apply register_workload_cases in E
    as [(spec & ws & actions & c & wa & applied & lease & -> & _ & _ & Hno & _ & (L1 & L2 & _) & _ & Hid & Hdb & _)|(e & _ & -> & _)]; [|done].
  destruct Hw as [H1 H2]. rewrite Hdb. split; cbn [workload_leases set_workload_leases].
  - apply tbl_append_NoDup; [done|]. by apply (existsb_eqb_fresh wl_id).
  - unfold tbl_select. rewrite List.filter_app. cbn [List.filter]. unfold wl_active at 2. rewrite L2.
    change ("active" =s "active") with true. cbv iota. apply tbl_append_NoDup; [done|].
    intros x Hx. apply (tbl_select_In wl_active) in Hx as [Hin Hact]. rewrite L1. intros Hc.
    unfold list_active_workload_leases in Hno. apply order_by_nil in Hno.
    assert (forall r, In r (workload_leases (w_db w)) -> wl_active r && (wl_drydock_id r =s c) = false)
      as Hno' by (by apply tbl_select_nil).
    specialize (Hno' x Hin). rewrite Hact, Hc, String.eqb_refl in Hno'. discriminate Hno'.
Qed.

Lemma revoke_row_one_active i ok es : ok <> "active" -> wl_status_ok ok = true ->
  keeps one_active (revoke_row_actions i ok es).
Proof.
  intros Hne Hok w Hw. pose proof (revoke_row_actions_run i ok es w Hok) as Hr.
  destruct (revert_lease_actions es w) as [rs w1]. destruct Hr as (w' & now & Hrun & _ & Hdb).
  rewrite Hrun. cbn [snd]. rewrite Hdb. apply one_active_revoke; [by apply terminal_not_active | done].
Qed.

Lemma emit_audit_keeps P ev pr id m r d : keeps P (emit_audit ev pr id m r d).
Proof. apply (quiet_preserves w_db P), quiet_db, quiet_state, quiet_emit. Qed.

Lemma reg_query_keeps P {A} (f : db -> A) : keeps P (reg_get f).
Proof. by intros w Hw. Qed.

Lemma release_one_active params id caller : keeps one_active (release_workload params id caller).
Proof.
  unfold release_workload, keeps. destruct caller as [caller|]; [|apply preserves_throw].
  destruct params; try apply preserves_lift. destruct (jget "lease_id" kvs); try apply preserves_lift.
  destruct (is_empty s); [apply preserves_lift|].
  apply preserves_bind; [apply reg_query_keeps|]. intros [row|]; [|apply preserves_throw].
  destruct (negb _); [apply preserves_throw|]. destruct (negb _); [apply preserves_ret|].
  unfold release_active. apply preserves_bind; [apply preserves_lift|]. intros es.
  apply preserves_bind; [by apply revoke_row_one_active|]. intros [rs t].
  apply preserves_bind; [apply emit_audit_keeps|]. intros _.
  apply preserves_bind; [apply reg_query_keeps|]. intros [r2|]; [apply preserves_ret|apply preserves_throw].
Qed.

Lemma sweep_one_active now : keeps one_active (sweep_expired_leases now).
Proof.
  unfold sweep_expired_leases, keeps. apply preserves_bind.
  - destruct now; [apply preserves_ret|]. by intros w Hw.
  - intros moment. apply preserves_bind; [apply reg_query_keeps|]. intros rows.
    induction rows as [|r rows IH]; cbn [sweep_rows]; [apply preserves_ret|].
    apply preserves_bind; [|intros s; apply preserves_bind; [exact IH|intros; apply preserves_ret]].
    unfold sweep_row. apply preserves_bind; [apply preserves_lift|]. intros es.
    apply preserves_bind; [by apply revoke_row_one_active|]. intros [rs t]. apply preserves_ret.
Qed.

(** C38: Over every interleaving of RegisterWorkload, ReleaseWorkload and sweep calls, with any
    arguments and whatever docker answers, a desk never holds two active workload leases, and
    lease ids stay unique. *)
Theorem one_active_workload_lease w0 w :
  one_active (w_db w0) -> rtc workload_step w0 w -> one_active (w_db w).
Proof.
  intros H0 Hr. induction Hr as [|w1 w2 w3 Hs _ IH]; [done|]. apply IH.
  destruct Hs; [by apply register_one_active | by apply release_one_active | by apply sweep_one_active].
Qed.

(** Only the owner releases a lease, once: another desk gets "forbidden" and nothing
    changes; after a release that returned, the lease is no longer active, and releasing it again returns its
    final state without touching docker, the database or the audit log. *)
Theorem release_workload_once lid id caller w :
  is_empty lid = false ->
  let '(r, w') := release_workload (JObj [("lease_id", JStr lid)]) id (Some caller) w in
  match get_workload_lease lid (w_db w) with
  | None => is_ok r = false /\ w' = w
  | Some row =>
      if negb (wl_drydock_id row =s caller)
      then r = Err (RpcError (-32004) "forbidden"
                      (Some (JObj [("reason", JStr "lease_belongs_to_other_drydock")]))) /\ w' = w
      else match r with
           | Err _ => True
           | Ok _ => exists row', get_workload_lease lid (w_db w') = Some row'
               /\ wl_active row' = false
               /\ forall id2, release_workload (JObj [("lease_id", JStr lid)]) id2 (Some caller) w'
                              = (Ok (_release_response row' None), w')
           end
  end.
Proof.
  intros Hne. rewrite release_workload_eq by done.
  destruct (get_workload_lease lid (w_db w)) as [row|] eqn:Eg; [|done].
  destruct (negb (wl_drydock_id row =s caller)) eqn:Eo; [done|].
  assert (forall w2 row', get_workload_lease lid (w_db w2) = Some row' -> wl_active row' = false ->
            wl_drydock_id row' = wl_drydock_id row ->
            exists row', get_workload_lease lid (w_db w2) = Some row' /\ wl_active row' = false
            /\ forall id2, release_workload (JObj [("lease_id", JStr lid)]) id2 (Some caller) w2
                           = (Ok (_release_response row' None), w2)) as Hagain.
  { intros w2 row' Hg Ha Hd. exists row'. split; [done|]. split; [done|]. intros id2.
    rewrite release_workload_eq, Hg, Hd, Eo, Ha by done. done. }
  destruct (wl_active row) eqn:Ea; cbn [negb]; [|by eapply Hagain].
  destruct (release_active caller lid id row w) as [[v|e] w'] eqn:E; [|done].
  apply release_active_inv in E as (es & rs & w1 & r2 & _ & _ & Hg2 & _ & (now & Hdb) & _).
  eapply Hagain; [exact Hg2| |]; rewrite Hdb in Hg2; unfold get_workload_lease in *;
    cbn [workload_leases set_workload_leases] in Hg2; rewrite tbl_first_update, Eg in Hg2 by done;
    cbn [option_map] in Hg2; apply tbl_first_Some in Eg as [_ Hby]; rewrite Hby in Hg2;
    injection Hg2 as <-; [|done].
  unfold wl_active; cbn. apply String.eqb_neq. by apply terminal_not_active.
Qed.
End Leases.

Lemma demo_one_active : one_active empty_db.
Proof. split; constructor. Qed.

Lemma one_active_workload_lease_witness : one_active (w_db demo_w3).
Proof.
  apply (@one_active_workload_lease demo_env demo_world demo_w3).
  - exact demo_one_active.
  - apply (rtc_l _ _ demo_w1); [apply step_register|]. apply (rtc_l _ _ demo_w3); [apply step_release|].
    apply rtc_refl.
Defined.

Lemma register_workload_fails_clean_witness :
  w_db (snd (register_workload (H := demo_env) JNull (JInt 1) (Some "dock_a") demo_world)) = w_db demo_world.
Proof.
  pose proof (@register_workload_fails_clean demo_env JNull (JInt 1) "dock_a" demo_world ∅ demo_dock eq_refl) as HH.
  destruct (register_workload JNull _ _ _) as [[v|e] w'] eqn:E.
  - exfalso. revert E. vm_compute. discriminate.
  - destruct HH as [[HH|(n & b & x & HH & _)] _]; [exact HH|discriminate HH].
Defined.

Lemma release_workload_once_witness :
  snd (release_workload (H := demo_env) (JObj [("lease_id", JStr demo_lid)]) (JInt 1) (Some "dock_b") demo_w1)
  = demo_w1.
Proof.
  pose proof (@release_workload_once demo_env demo_lid (JInt 1) "dock_b" demo_w1 eq_refl) as HH.
  destruct (release_workload _ _ _ demo_w1) as [r w'].
  destruct (get_workload_lease demo_lid (w_db demo_w1)) as [row|] eqn:Eg.
  - assert (negb (wl_drydock_id row =s "dock_b") = true) as Hn
      by (revert Eg; vm_compute; intros [= <-]; reflexivity).
    rewrite Hn in HH. apply HH.
  - apply HH.
Defined.

(** ** The sweep *)

Section Sweep.
Context `{Env}.

Definition swept (r' : workload_row) : Prop :=
  wl_status r' = "expired" \/ wl_status r' = "partial-revoked".

Definition same_id (x y : workload_row) : bool := wl_id x =s wl_id y.

(** What a sweep of [rows] makes of each row of the table. *)
Definition sweep_rel (rows : list workload_row) (r r' : workload_row) : Prop :=
  wl_id r' = wl_id r /\ if existsb (same_id r) rows then swept r' else r' = r.

Lemma sweep_row_run r w :
  is_ok (sweep_entries r) = true ->
  exists s w', sweep_row r w = (Ok s, w')
  /\ Forall2 (sweep_rel [r]) (workload_leases (w_db w)) (workload_leases (w_db w')).
Proof.
  intros Hok. unfold sweep_row. rewrite lift_bind. destruct (sweep_entries r) as [es|e]; [|done].
  pose proof (revoke_row_actions_run (wl_id r) "expired" es w eq_refl) as Hr.
  destruct (revert_lease_actions es w) as [rs w1]. destruct Hr as (w' & now & Hrun & _ & Hdb).
  unfold mbind, M_bind. rewrite Hrun, ret_eq. do 2 eexists. split; [reflexivity|].
  rewrite Hdb. cbn [workload_leases set_workload_leases].
  generalize (workload_leases (w_db w)) as tbl. clear Hrun Hdb.
  induction tbl as [|x tbl IH]; cbn [tbl_update map]; constructor; [|done].
  unfold sweep_rel, same_id, by_wl. cbn [existsb]. rewrite orb_false_r.
  destruct (wl_id x =s wl_id r); [|done]. split; [done|].
  unfold swept, terminal_of; cbn. destruct (any_failure rs); auto.
Qed.

Lemma sweep_rows_run rows w :
  Forall (fun r => is_ok (sweep_entries r) = true) rows ->
  exists ss w', sweep_rows rows w = (Ok ss, w') /\ length ss = length rows
  /\ Forall2 (sweep_rel rows) (workload_leases (w_db w)) (workload_leases (w_db w')).
Proof.
  intros Hok. revert w. induction Hok as [|r rows Hr Hrows IH]; intros w; cbn [sweep_rows].
  - do 2 eexists. split; [reflexivity|]. split; [done|].
    induction (workload_leases (w_db w)); constructor; [|done]. done.
  - destruct (sweep_row_run r w Hr) as (s & w1 & E1 & F1).
    destruct (IH w1) as (ss & w2 & E2 & Hlen & F2).
    unfold mbind, M_bind. rewrite E1, E2, ret_eq. do 2 eexists. split; [reflexivity|].
    split; [cbn; by rewrite Hlen|]. clear -F1 F2.
    revert F2. generalize (workload_leases (w_db w2)).
    induction F1 as [|x y xs ys [Hxid Hx] _ IHf]; intros zs F2; inversion F2 as [|? z ? zs' [Hyid Hy] F2']; subst;
      constructor; [|by apply IHf].
    split; [congruence|]. cbn [existsb] in *. rewrite orb_false_r in Hx.
    unfold same_id in *. rewrite Hxid in Hy.
    destruct (wl_id x =s wl_id r) eqn:Er; cbn [orb].
    + destruct (existsb _ rows); [done|]. by subst.
    + subst y. done.
Qed.

Lemma sweep_rel_due rows p tbl tbl' :
  (forall r, In r tbl -> existsb (same_id r) rows = p r) -> Forall2 (sweep_rel rows) tbl tbl' ->
  Forall2 (fun r r' => wl_id r' = wl_id r /\ if p r : bool then swept r' else r' = r) tbl tbl'.
Proof.
  intros Heq HF. induction HF as [|r r' rs rs' [Hi Hr] _ IH]; constructor.
  - split; [done|]. rewrite Heq in Hr by (by left). done.
  - apply IH. intros x Hx. apply Heq. by right.
Qed.

(** A sweep completes whenever the due leases' stored actions are readable, one summary
    per due lease, whatever docker answers; afterwards no active lease is past its expiry, every lease
    that was due is "expired" or "partial-revoked", and every other lease is untouched. *)
Theorem sweep_leaves_no_overdue t w :
  NoDup (map wl_id (workload_leases (w_db w))) ->
  Forall (fun r => due (isoformat t) r = true -> is_ok (sweep_entries r) = true)
    (workload_leases (w_db w)) ->
  exists summaries w', sweep_expired_leases (Some t) w = (Ok summaries, w')
  /\ length summaries = tbl_count (due (isoformat t)) (workload_leases (w_db w))
  /\ Forall2 (fun r r' => wl_id r' = wl_id r
                          /\ if due (isoformat t) r then swept r' else r' = r)
       (workload_leases (w_db w)) (workload_leases (w_db w'))
  /\ forall r, In r (workload_leases (w_db w')) -> due (isoformat t) r = false.
Proof.
  intros Hnd Hok. unfold sweep_expired_leases. rewrite ret_bind, reg_gets_bind.
  set (tbl := workload_leases (w_db w)) in *. set (rows := order_by le_expires _).
  assert (forall r, In r rows <-> In r tbl /\ due (isoformat t) r = true) as Hin.
  { intros r. unfold rows. rewrite order_by_In, tbl_select_In. done. }
  destruct (sweep_rows_run rows w) as (ss & w' & Hrun & Hlen & HF).
  { apply Forall_forall. intros r [Hr Hd]%Hin. rewrite Forall_forall in Hok. by apply Hok. }
  exists ss, w'. split; [done|].
  assert (Forall2 (fun r r' => wl_id r' = wl_id r /\ if due (isoformat t) r then swept r' else r' = r)
            tbl (workload_leases (w_db w'))) as HF2.
  { assert (forall r, In r tbl -> existsb (same_id r) rows = due (isoformat t) r) as Heq.
    { intros r Hr. apply eq_true_iff_eq. rewrite existsb_exists. unfold same_id. split.
      - intros (x & [Hx Hd]%Hin & Hid). breflect.
        by rewrite (tbl_key_inj wl_id tbl r x Hnd Hr Hx Hid).
      - intros Hd. exists r. split; [by apply Hin | apply String.eqb_refl]. }
    by eapply sweep_rel_due. }
  split; [|split; [exact HF2|]].
  - rewrite Hlen. unfold rows, tbl_count.
    assert (forall l, length (order_by le_expires l) = length l) as ->; [|done].
    clear. induction l as [|x l IH]; cbn; [done|]. rewrite <- IH. clear.
    induction (order_by le_expires l) as [|y l' IH]; cbn; [done|].
    destruct (le_expires x y); cbn; [done|]. by rewrite IH.
  - clear -HF2. induction HF2 as [|r r' rs rs' [Hi Hr] _ IH]; [done|]. intros x [<-|Hx]; [|by apply IH].
    unfold due, wl_active in *. destruct (_ && _) eqn:Ed.
    + destruct Hr as [-> | ->]; done.
    + by subst.
Qed.
End Sweep.

Lemma sweep_leaves_no_overdue_witness :
  let t := mkDatetime (739000 * us_per_day) true in
  exists summaries w', sweep_expired_leases (H := demo_env) (Some t) demo_w1 = (Ok summaries, w')
  /\ length summaries = 1%nat.
Proof.
  cbv zeta.
  destruct (@sweep_leaves_no_overdue demo_env (mkDatetime (739000 * us_per_day) true) demo_w1)
    as (ss & w' & H1 & H2 & _).
  - vm_compute. repeat constructor. intros [].
  - vm_compute. repeat constructor.
  - exists ss, w'. split; [exact H1|]. rewrite H2. vm_compute. reflexivity.
Defined.
