(* ===== verification/Storage.v ===== *)
(** [core/storage.py] and [core/secrets.py]: the storage backends (the AWS session
    policy they narrow a credential with, and the STS call that mints it) and the
    file-backed secrets backend, as the two interfaces the broker uses. *)

From S2P Require Import Prelude PyStr PyVal Datetime Registry World.
From Stdlib Require Import List.


(** ** Storage credentials *)

Record StorageCredential : Type := mkCred {
  access_key_id : string; secret_access_key : string; session_token : string; expiration : datetime
}.

(** [StorageCredential.to_files], in the order the broker writes them. *)
Definition to_files (c : StorageCredential) : list (string * string) :=
  [("aws_access_key_id", access_key_id c); ("aws_secret_access_key", secret_access_key c);
   ("aws_session_token", session_token c); ("aws_session_expiration", isoformat (expiration c))].

Definition config_error {A} (msg : string) : res exn A := Err (PyError "StorageBackendConfigError" msg).

Definition jstrs (l : list string) : json := JList (map JStr l).

Definition object_arn (bucket prefix : string) : string :=
  if is_empty prefix then "arn:aws:s3:::" +:+ bucket +:+ "/*"
  else "arn:aws:s3:::" +:+ bucket +:+ "/" +:+ prefix +:+ "/*".

(** The object actions of a mode; both modes may also list the bucket. *)
Definition object_actions (mode : string) : res exn (list string) :=
  if mode =s "ro" then Ok ["s3:GetObject"]
  else if mode =s "rw" then Ok ["s3:GetObject"; "s3:PutObject"; "s3:DeleteObject"]
  else config_error ("unknown mode: " +:+ repr_str mode +:+ " (expected 'ro' or 'rw')").

Definition build_session_policy (bucket prefix mode : string) : res exn json :=
  let prefix := rstrip_by (Ascii.eqb "/") (strip_by (Ascii.eqb "/") prefix) in
  actions ← object_actions (lower mode);
  Ok (JObj [("Version", JStr "2012-10-17");
    ("Statement", JList
      [JObj [("Sid", JStr "ScopedObjectAccess"); ("Effect", JStr "Allow"); ("Action", jstrs actions);
             ("Resource", jstrs [object_arn bucket prefix])];
       JObj ([("Sid", JStr "ScopedListBucket"); ("Effect", JStr "Allow");
              ("Action", jstrs ["s3:ListBucket"]); ("Resource", jstrs ["arn:aws:s3:::" +:+ bucket])]
             ++ if is_empty prefix then []
                else [("Condition", JObj [("StringLike",
                        JObj [("s3:prefix", jstrs [prefix +:+ "/*"; prefix])])])])])]).

Definition clean_action (a : string) : res exn string :=
  if is_empty (strip a) then config_error ("invalid IAM action: " +:+ repr_str a) else Ok (strip a).

Definition build_provision_session_policy (actions : list string) : res exn json :=
  cleaned ← mapE clean_action actions;
  match cleaned with
  | [] => config_error "provision scope must list at least one IAM action"
  | _ => Ok (JObj [("Version", JStr "2012-10-17");
           ("Statement", JList [JObj [("Sid", JStr "ScopedProvisionAccess"); ("Effect", JStr "Allow");
                                      ("Action", jstrs cleaned); ("Resource", jstrs ["*"])]])])
  end.

(** [raw[:64]]. *)
Definition _session_name (drydock_id : string) : string := stake 64 ("drydock-" +:+ drydock_id).

(** ** Backends *)

(** The [StorageBackend] protocol. *)
Record StorageBackend : Type := mkStorageBackend {
  mint : string -> string -> string -> string -> W StorageCredential;
  mint_provision : string -> list string -> W StorageCredential
}.

Section Backends.
Context `{Env}.

Definition storage_error {A} (kind msg : string) : W A := throw (PyError kind msg).
Definition unavailable {A} (msg : string) : res exn A := Err (PyError "StorageBackendUnavailable" msg).

(** A missing or malformed field; STS writes strings. The message leaves out the text of the
    exception that the code appends. *)
Definition str_field (k : string) (o : obj) : res exn string :=
  match assoc k o with
  | Some (JStr s) => Ok s
  | _ => unavailable "malformed STS response"
  end.

(** The credential of the STS answer; [fromisoformat] is [Datetime]'s, on the
    [YYYY-MM-DDTHH:MM:SS+00:00] form STS gives. *)
Definition parse_credentials (stdout : string) : res exn StorageCredential :=
  match json_loads stdout with
  | Some (JObj data) =>
      match assoc "Credentials" data with
      | Some (JObj creds) =>
          expires ← str_field "Expiration" creds;
          match fromisoformat (replace_char "Z" "+00:00" expires) with
          | None => unavailable "malformed STS response"
          | Some t =>
              akid ← str_field "AccessKeyId" creds;
              secret ← str_field "SecretAccessKey" creds;
              token ← str_field "SessionToken" creds;
              Ok (mkCred akid secret token t)
          end
      | _ => unavailable "malformed STS response"
      end
  | _ => unavailable "malformed STS response"
  end.

Section Sts.
Context (role_arn source_profile aws_bin : string) (session_duration_seconds : Z).

Definition assume_role_call (drydock_id : string) (policy : json) : call :=
  mkCall [aws_bin; "sts"; "assume-role"; "--profile"; source_profile; "--role-arn"; role_arn;
          "--role-session-name"; _session_name drydock_id; "--policy"; json_dumps policy;
          "--duration-seconds"; str_of_Z session_duration_seconds; "--output"; "json"] "".

Definition _assume_role (drydock_id : string) (policy : json) : W StorageCredential :=
  out ← run (assume_role_call drydock_id policy);
  match out with
  | RunNotFound _ => storage_error "StorageBackendConfigError"
      ("aws CLI not found at " +:+ repr_str aws_bin +:+ " — install awscli on the Harbor")
  | RunTimeout m _ => storage_error "StorageBackendUnavailable" ("aws sts assume-role timed out: " +:+ m)
  | Ran rc stdout stderr =>
      if negb (rc =? 0) then
        let stderr := strip stderr in
        if contains "AccessDenied" stderr || contains "invalid" (lower stderr)
        then storage_error "StorageBackendPermissionDenied" (stake 400 stderr)
        else storage_error "StorageBackendUnavailable"
               (if is_empty stderr then "aws exit " +:+ str_of_Z rc else stake 400 stderr)
      else lift (parse_credentials stdout)
  end.

Definition StsAssumeRoleBackend : StorageBackend := mkStorageBackend
  (fun drydock_id bucket prefix mode =>
     policy ← lift (build_session_policy bucket prefix mode); _assume_role drydock_id policy)
  (fun drydock_id actions =>
     policy ← lift (build_provision_session_policy actions); _assume_role drydock_id policy).
End Sts.

(** The stub: checks the shapes, returns fixed credentials. *)
Definition _fake (fixed_expiration : datetime) (drydock_id : string) : StorageCredential :=
  mkCred ("STUB-" +:+ drydock_id +:+ "-AKID") ("STUB-" +:+ drydock_id +:+ "-SECRET")
    ("STUB-" +:+ drydock_id +:+ "-TOKEN") fixed_expiration.

Definition StubStorageBackend (fixed_expiration : datetime) : StorageBackend := mkStorageBackend
  (fun drydock_id bucket prefix mode =>
     _ ← lift (build_session_policy bucket prefix mode); mret (_fake fixed_expiration drydock_id))
  (fun drydock_id actions =>
     _ ← lift (build_provision_session_policy actions); mret (_fake fixed_expiration drydock_id)).

(** [build_storage_backend]; the defaults of the other arguments are the caller's. *)
Definition build_storage_backend (name : string) (role_arn : option string)
    (source_profile : string) (session_duration_seconds : Z) (stub_expiration : datetime)
    : res exn StorageBackend :=
  if name =s "sts" then
    let role_arn := default "" role_arn in
    if is_empty role_arn
    then config_error "StsAssumeRoleBackend requires role_arn — set [storage] role_arn in daemon.toml"
    else Ok (StsAssumeRoleBackend role_arn source_profile "aws" session_duration_seconds)
  else if name =s "stub" then Ok (StubStorageBackend stub_expiration)
  else Err (ValueError ("unknown_storage_backend: " +:+ repr_str name)).

(** The [SecretsBackend] protocol; [sb_file] is [isinstance(backend, FileBackend)]. *)
Record SecretsBackend : Type := mkSecretsBackend {
  sb_file : bool;
  sb_fetch : string -> string -> W (option string)
}.

(** [FileBackend.fetch]: a name that is a directory exists but cannot be read. *)
Definition file_fetch (secret_name drydock_id : string) : W (option string) :=
  f ← gets (fun w => w_files w !! (drydock_id, secret_name));
  if negb (is_some f || is_dir_name secret_name) then mret None
  else
    catch
      (_ ← fs_op;
       match f with
       | Some f => mret (Some (sf_data f))
       | None => os_error "IsADirectoryError" secret_name
       end)
      (fun e => if exn_class e =s "PermissionError"
                then throw (PyError "BackendPermissionDenied" (path_of drydock_id secret_name))
                else throw (PyError "BackendUnavailable" (path_of drydock_id secret_name))).

Definition FileBackend : SecretsBackend := mkSecretsBackend true file_fetch.

Definition build_backend (name : string) : res exn SecretsBackend :=
  if name =s "file" then Ok FileBackend
  else Err (ValueError ("unknown_secrets_backend: " +:+ repr_str name)).
End Backends.

(** ** What the broker relies on

    A backend may call out and read the clock, but leaves the database, the secret
    files and the audit log alone. *)

Definition outside (w w' : world) : Prop :=
  w_db w' = w_db w /\ w_files w' = w_files w /\ w_audit w' = w_audit w.

Class LawfulStorage (b : StorageBackend) : Prop := {
  mint_outside : forall d bu p m w, outside w (snd (mint b d bu p m w));
  mint_provision_outside : forall d acts w, outside w (snd (mint_provision b d acts w))
}.

Class LawfulSecrets (b : SecretsBackend) : Prop := {
  fetch_outside : forall n d w, outside w (snd (sb_fetch b n d w))
}.

Section Laws.
Context `{Env}.

Lemma assume_role_outside r p a s d pol w : outside w (snd (_assume_role r p a s d pol w)).
Proof.
  unfold _assume_role, run, mbind, M_bind. cbn -[assume_role_call contains].
  destruct (subprocess_run _ _) as [rc o e|m|m e]; try done.
  destruct (negb (rc =? 0)); [|done]. by destruct (_ || _).
Qed.

#[export] Instance sts_lawful r p a s : LawfulStorage (StsAssumeRoleBackend r p a s).
Proof.
  split; intros; cbn [mint mint_provision StsAssumeRoleBackend]; rewrite lift_bind.
  - destruct (build_session_policy _ _ _); [apply assume_role_outside | done].
  - destruct (build_provision_session_policy _); [apply assume_role_outside | done].
Qed.

#[export] Instance stub_lawful t : LawfulStorage (StubStorageBackend t).
Proof.
  split; intros; cbn [mint mint_provision StubStorageBackend]; rewrite lift_bind.
  - by destruct (build_session_policy _ _ _).
  - by destruct (build_provision_session_policy _).
Qed.

#[export] Instance file_lawful : LawfulSecrets FileBackend.
Proof.
  split. intros n d w. cbn [sb_fetch FileBackend]. unfold file_fetch. rewrite gets_bind.
  destruct (negb _); [done|]. unfold catch, mbind, M_bind, fs_op.
  destruct (fs_fault _) as [[[] m]|]; [done|done|]. by destruct (w_files w !! (d, n)).
Qed.
End Laws.
