(* ===== verification/Broker.v ===== *)
(** [daemon/capability_handlers.py]: the capability broker. [request_capability]
    validates the request, checks the caller's policy, materializes what is granted
    and records a lease; [release_capability] revokes it and cleans up. The handlers run on
    the world of [World.v]; the backends are the interfaces of [Storage.v]. *)

From S2P Require Import Prelude PyStr PyVal Regex Datetime Registry Policy World Rpc Storage.
From Stdlib Require Import List.

(** ** Request validation *)

Inductive cap_request : Type :=
  | ReqSecret (secret_name : string) (source_drydock_id : option string)
  | ReqStorage (bucket prefix mode : string)
  | ReqProvision (actions : list string)
  | ReqReach (domain : string) (port : Z).

Definition invalid {A} (reason : string) : res exn A :=
  rpc_error (-32602) "invalid_params" [("reason", JStr reason)].
Definition invalid_got {A} (reason : string) (got : json) : res exn A :=
  rpc_error (-32602) "invalid_params" [("reason", JStr reason); ("got", got)].

Definition alnum (c : ascii) : bool := is_upper c || is_lower c || is_digit c.
Definition lower_alnum (c : ascii) : bool := is_lower c || is_digit c.
Definition char_in (cs : string) (c : ascii) : bool := has_char c cs.

(** [^[A-Za-z0-9_.\-]{1,64}$] *)
Definition secret_char (c : ascii) : bool := alnum c || char_in "_.-" c.
Definition _SECRET_NAME_RE : re := rbetween 1 64 (RChars secret_char).

(** [^[a-z0-9][a-z0-9.\-]{1,61}[a-z0-9]$] *)
Definition bucket_char (c : ascii) : bool := lower_alnum c || char_in ".-" c.
Definition _BUCKET_RE : re :=
  RSeq (RChars lower_alnum) (RSeq (rbetween 1 61 (RChars bucket_char)) (RChars lower_alnum)).

(** [^[A-Za-z0-9_.\-/]{0,256}$] *)
Definition prefix_char (c : ascii) : bool := alnum c || char_in "_.-/" c.
Definition _PREFIX_RE : re := rupto 256 (RChars prefix_char).

(** [^LABEL(\.LABEL)+$] with [LABEL = [a-z0-9]([-a-z0-9]{0,61}[a-z0-9])?] *)
Definition label_char (c : ascii) : bool := lower_alnum c || char_in "-" c.
Definition label_re : re :=
  RSeq (RChars lower_alnum) (ropt (RSeq (rupto 61 (RChars label_char)) (RChars lower_alnum))).
Definition _NETWORK_REACH_DOMAIN_RE : re := RSeq label_re (rplus (RSeq (rchar ".") label_re)).

(** [^[A-Za-z0-9*]+:[A-Za-z0-9*]+$|^\*$] *)
Definition action_char (c : ascii) : bool := alnum c || char_in "*" c.
Definition _IAM_ACTION_RE : re :=
  RAlt (RSeq (rplus (RChars action_char)) (RSeq (rchar ":") (rplus (RChars action_char)))) (rchar "*").

Definition _validate_network_reach_scope (scope : obj) : res exn cap_request :=
  match jget "domain" scope with
  | JStr domain =>
      let canonical := rstrip_by (Ascii.eqb ".") (lower (strip domain)) in
      if negb (re_match _NETWORK_REACH_DOMAIN_RE canonical)
      then invalid_got "scope.domain must be a valid lowercase FQDN" (JStr domain)
      else
        let port := jget_default "port" (JInt 443) scope in
        match port with
        | JInt p =>
            if (p <? 1) || (65535 <? p)
            then invalid_got "scope.port must be an integer in 1..65535" port
            else Ok (ReqReach canonical p)
        | _ => invalid_got "scope.port must be an integer in 1..65535" port
        end
  | _ => invalid "scope.domain must be a string"
  end.

Definition _validate_secret_scope (scope : obj) : res exn cap_request :=
  match jget "secret_name" scope with
  | JStr n =>
      if negb (re_match _SECRET_NAME_RE n)
      then invalid "scope.secret_name must match [A-Za-z0-9_.-]{1,64}"
      else match jget "source_drydock_id" scope with
           | JNull => Ok (ReqSecret n None)
           | JStr s => Ok (ReqSecret n (Some s))
           | _ => invalid "scope.source_drydock_id must be a string"
           end
  | _ => invalid "scope.secret_name must match [A-Za-z0-9_.-]{1,64}"
  end.

(** A list or a dict cannot be looked up in a set. *)
Definition unhashable (v : json) : bool := match v with JList _ | JObj _ => true | _ => false end.
Definition hash_error {A} : res exn A := Err (PyError "TypeError" "unhashable type").

Definition storage_mode (v : json) : option string :=
  match v with JStr m => if (m =s "ro") || (m =s "rw") then Some m else None | _ => None end.

Definition _validate_storage_scope (scope : obj) : res exn cap_request :=
  match jget "bucket" scope with
  | JStr bucket =>
      if negb (re_match _BUCKET_RE bucket)
      then invalid "scope.bucket must be a valid S3 bucket name (3-63 chars, [a-z0-9.-])"
      else
        let prefix := match jget_default "prefix" (JStr "") scope with JNull => JStr "" | p => p end in
        match prefix with
        | JStr prefix =>
            if negb (re_match _PREFIX_RE prefix)
            then invalid "scope.prefix must match [A-Za-z0-9_.-/]{0,256}"
            else
              let mode := jget_default "mode" (JStr "ro") scope in
              if unhashable mode then hash_error
              else match storage_mode mode with
                   | Some m => Ok (ReqStorage bucket (strip_by is_slash prefix) m)
                   | None => invalid_got "scope.mode must be one of ['ro', 'rw']" mode
                   end
        | _ => invalid "scope.prefix must match [A-Za-z0-9_.-/]{0,256}"
        end
  | _ => invalid "scope.bucket must be a valid S3 bucket name (3-63 chars, [a-z0-9.-])"
  end.

Definition valid_action (a : json) : res exn string :=
  match a with
  | JStr s => if re_match _IAM_ACTION_RE s then Ok s
              else invalid_got "scope.actions entries must match 'service:action' (e.g. 's3:CreateBucket', 'iam:*', '*')" a
  | _ => invalid_got "scope.actions entries must match 'service:action' (e.g. 's3:CreateBucket', 'iam:*', '*')" a
  end.

Definition _validate_provision_scope (scope : obj) : res exn cap_request :=
  match jget "actions" scope with
  | JList (a :: l) =>
      if (64 <? length (a :: l))%nat then invalid "scope.actions must be <= 64 entries"
      else cleaned ← mapE valid_action (a :: l); Ok (ReqProvision cleaned)
  | _ => invalid "scope.actions must be a non-empty list"
  end.

Definition _SUPPORTED_CAPABILITY_TYPES : list string :=
  ["SECRET"; "STORAGE_MOUNT"; "INFRA_PROVISION"; "NETWORK_REACH"].

Definition _validate_request_params (params : json) : res exn cap_request :=
  match params with
  | JObj o =>
      let type_ := jget "type" o in
      if unhashable type_ then hash_error
      else
        let t := match type_ with JStr s => s | _ => "" end in
        if negb (existsb (String.eqb t) _SUPPORTED_CAPABILITY_TYPES) then
          if existsb (String.eqb t) (map CapabilityType_value all_CapabilityType)
          then rpc_error (-32013) "capability_unsupported"
                 [("type", type_);
                  ("fix", JStr "Supported types: ['INFRA_PROVISION', 'NETWORK_REACH', 'SECRET', 'STORAGE_MOUNT']")]
          else invalid_got "type must be one of CapabilityType" type_
        else
          match jget "scope" o with
          | JObj scope =>
              if t =s "SECRET" then _validate_secret_scope scope
              else if t =s "STORAGE_MOUNT" then _validate_storage_scope scope
              else if t =s "INFRA_PROVISION" then _validate_provision_scope scope
              else _validate_network_reach_scope scope
          | _ => invalid "scope must be an object"
          end
  | _ => invalid "params must be an object"
  end.

(** ** Policy reads *)

(** A JSON list column; no writer stores anything else. *)
Definition _policy_list (v : json) : res exn (list json) :=
  match v with JList l => Ok l | _ => Err (PyError "TypeError" "not a list") end.

Section Broker.
Context `{Env}.

Definition CapabilityKind_exn (v : json) : res exn CapabilityKind :=
  match v with
  | JStr s => match CapabilityKind_of s with
              | Some k => Ok k
              | None => Err (ValueError (repr_str s +:+ " is not a valid CapabilityKind"))
              end
  | _ => Err (ValueError (py_repr v +:+ " is not a valid CapabilityKind"))
  end.

Definition _check_capability (policy_row : dock_row) (kind : CapabilityKind) (fix_hint : string)
    : res exn unit :=
  l ← _policy_list (dr_capabilities policy_row);
  caps ← mapE CapabilityKind_exn l;
  if existsb (fun k => bool_decide (k = kind)) caps then Ok tt
  else rpc_error (-32005) "capability_not_granted"
         [("missing", JStr (CapabilityKind_value kind)); ("fix", JStr fix_hint)].

Definition _lookup_drydock (drydock_id : string) (d : db) : option Drydock :=
  List.find (fun ws => id ws =s drydock_id) (list_drydocks None None d).

(** [except Exception] around [create_amendment]. *)
Definition _emit_capability_amendment (kind : string) (request : obj) (caller status : string)
    (reason : string) : W unit :=
  u ← uuid4;
  now ← _utc_now;
  catch (_ ← reg (create_amendment now (stake 8 u) kind (JObj request) "dockworker" caller
                    (Some caller) None (Some reason) None None status);
         mret tt)
    (fun _ => mret tt).

Definition load_policy (caller : string) : W dock_row :=
  row ← reg_get (load_desk_policy caller);
  match row with
  | Some r => mret r
  | None => rpc (-32001) "desk_not_found" [("drydock_id", JStr caller)]
  end.

(** The caller's drydock, which must have a container. *)
Definition running_drydock (caller : string) : W Drydock :=
  ws ← reg_get (_lookup_drydock caller);
  match ws with
  | Some ws => if is_empty (container_id ws)
               then rpc (-32010) "desk_not_running" [("drydock_id", JStr caller)]
               else mret ws
  | None => rpc (-32010) "desk_not_running" [("drydock_id", JStr caller)]
  end.

Definition on_os_error {A} (m : W A) (h : exn -> W A) : W A :=
  catch m (fun e => if is_os_error e then h e else throw e).
Definition on_class {A} (k : string) (m : W A) (h : exn -> W A) : W A :=
  catch m (fun e => if exn_class e =s k then h e else throw e).

Definition materialization_failed {A} (e : exn) : W A :=
  rpc (-32011) "materialization_failed" [("detail", JStr (str_exn e))].

(** Insert the lease, record the amendment and the audit event, answer the lease. *)
Definition issue_lease (lease : CapabilityLease) (caller : string) (request_id : json)
    (kind : string) (request : obj) (reason : string) (expiry_json : json)
    (extra : obj) : W json :=
  _ ← reg (insert_lease lease);
  _ ← _emit_capability_amendment kind request caller "auto_approved" reason;
  _ ← emit_audit "lease.issued" (Some caller) request_id "RequestCapability" "ok"
        ([("lease_id", JStr (lease_id lease)); ("drydock_id", JStr caller);
          ("type", JStr (CapabilityType_value (lease_type lease)));
          ("scope", JObj (scope lease)); ("expiry", expiry_json)] ++ extra);
  mret (to_wire lease).

(** ** Network reach *)

Definition reason_text (r : option reach_reason) : string :=
  match r with
  | Some no_entitlement => "no_entitlement"
  | Some domain_not_entitled => "domain_not_entitled"
  | Some port_not_entitled => "port_not_entitled"
  | None => "None"
  end.

Definition glob_hint (domain : string) : string :=
  let labels := split_on "." domain in
  if (3 <=? length labels)%nat
  then "or a covering glob like '*." +:+ join "." (tail labels) +:+ "'"
  else "(no covering glob suggested for short FQDNs — add the bare domain)".

Definition reach_fix (domain : string) (port : Z) (r : option reach_reason) : string :=
  match r with
  | Some no_entitlement =>
      "Add at least one entry to delegatable_network_reach in the project YAML"
  | Some domain_not_entitled =>
      "Add '" +:+ domain +:+ "' " +:+ glob_hint domain +:+ " to delegatable_network_reach"
  | Some port_not_entitled =>
      "Add port " +:+ str_of_Z port +:+ " to network_reach_ports (default allowlist is [80, 443])"
  | None => "Tighten/widen the Dock's network_reach policy"
  end.

Definition reach_call (container_id domain : string) (port : Z) : call :=
  mkCall ["docker"; "exec"; "--user"; "root"; container_id;
          "/usr/local/bin/add-allowed-domain.sh"; domain; str_of_Z port] "".

(** The message for a non-JSON answer leaves out what Python prints of it. *)
Definition _materialize_network_reach (container_id domain : string) (port : Z) : W json :=
  '(rc, stdout, stderr) ← run_uncaught (reach_call container_id domain port);
  if negb (rc =? 0) && is_empty (strip stdout)
  then throw (PyError "RuntimeError" ("add-allowed-domain.sh failed (exit " +:+ str_of_Z rc +:+ "): "
                +:+ (if is_empty (strip stderr) then "no output" else strip stderr)))
  else match json_loads stdout with
       | Some v => mret v
       | None => throw (PyError "RuntimeError" "add-allowed-domain.sh returned non-JSON")
       end.

Definition deny_reach (caller : string) (request_id : json) (domain : string) (port : Z)
    (granted_domains granted_ports : list json) (reason : option reach_reason) : W json :=
  let audit_detail :=
    [("rule", JStr "network_reach"); ("subreason", JStr (reason_text reason));
     ("requested", JObj [("domain", JStr domain); ("port", JInt port)]);
     ("granted_domains", JList granted_domains);
     ("granted_ports", JList (match granted_ports with [] => [JInt 80; JInt 443] | l => l end))] in
  _ ← emit_audit "lease.denied" (Some caller) request_id "RequestCapability" "denied"
        (("type", JStr "NETWORK_REACH") :: audit_detail);
  _ ← _emit_capability_amendment "network_reach" [("domain", JStr domain); ("port", JInt port)]
        caller "escalated" ("narrowness_violated: " +:+ reason_text reason);
  rpc (-32006) "narrowness_violated" (audit_detail ++ [("fix", JStr (reach_fix domain port reason))]).

Definition grant_reach (caller : string) (request_id : json) (domain : string) (port : Z)
    (is_wildcard_grant : bool) (add_result : obj) : W json :=
  if negb (truthy (jget "ok" add_result)) then
    let err := jget_default "error" (JStr "add_failed") add_result in
    _ ← emit_audit "lease.denied" (Some caller) request_id "RequestCapability" "denied"
          [("type", JStr "NETWORK_REACH"); ("error", err); ("domain", JStr domain)];
    let fix_ := if str_eq_json "dns_resolution_failed" err
                then "DNS resolution failed — check that the domain is reachable from the Harbor"
                else "Check container logs at /tmp/firewall-add.log for ipset/iptables errors" in
    rpc (-32011) "materialization_failed" [("detail", JObj add_result); ("fix", JStr fix_)]
  else
    added ← lift (as_list (jget_default "added" (JList []) add_result));
    present ← lift (as_list (jget_default "already_present" (JList []) add_result));
    u ← uuid4;
    now ← utc_now;
    let lease := mkLease ("nr_" +:+ u) caller NETWORK_REACH
      [("domain", JStr domain); ("port", JInt port); ("resolved_ips", JList (added ++ present))]
      now None "daemon" false None in
    issue_lease lease caller request_id "network_reach" [("domain", JStr domain); ("port", JInt port)]
      ("within_policy" +:+ (if is_wildcard_grant then " (wildcard grant)" else "")) JNull
      [("wildcard_grant", JBool is_wildcard_grant)].

Definition _handle_network_reach_request (caller : string) (request_id : json) (domain : string)
    (port : Z) : W json :=
  policy_row ← load_policy caller;
  _ ← lift (_check_capability policy_row REQUEST_NETWORK_REACH
              "Grant request_network_reach in the Dock's project YAML capabilities");
  granted_domains ← lift (_policy_list (dr_network_reach policy_row));
  granted_ports ← lift (_policy_list (dr_reach_ports policy_row));
  let '(allowed, reason) := matches_network_reach domain port granted_domains granted_ports in
  if negb allowed then deny_reach caller request_id domain port granted_domains granted_ports reason
  else
    drydock ← running_drydock caller;
    add_result ← on_class "RuntimeError"
      (_materialize_network_reach (container_id drydock) domain port) materialization_failed;
    match add_result with
    | JObj o => grant_reach caller request_id domain port
                  (existsb (str_eq_json "*") granted_domains) o
    | _ => throw (PyError "AttributeError" "object has no attribute 'get'")
    end.

(** ** Secrets *)

(** Write into the caller's host secret directory, which its container mounts. *)
Definition _materialize_to_host_secret_dir (caller secret_name payload : string) : W unit :=
  _ ← mkdir_p (secret_dir caller);
  _ ← write_bytes caller secret_name payload;
  _ ← chown_to_container;
  chmod_ro caller secret_name.

Definition _materialize_secret (container_id secret_name payload : string) : W unit :=
  '(rc, _, stderr) ← run_uncaught
     (mkCall ["docker"; "exec"; "--user"; "root"; container_id; "mkdir"; "-p"; "/run/secrets"] "");
  if negb (rc =? 0) then throw (PyError "RuntimeError" ("mkdir failed: " +:+ strip stderr))
  else
    let target := "/run/secrets/" +:+ secret_name in
    '(rc2, _, stderr2) ← run_uncaught
       (mkCall ["docker"; "exec"; "-i"; "--user"; "root"; container_id; "sh"; "-c";
                "cat > " +:+ target +:+ " && chmod 0400 " +:+ target +:+ " && chown 1000:1000 " +:+ target]
          payload);
    if negb (rc2 =? 0) then throw (PyError "RuntimeError" ("write failed: " +:+ strip stderr2))
    else mret tt.

Definition fetch_secret (backend : SecretsBackend) (secret_name desk : string) : W string :=
  payload ← on_class "BackendUnavailable"
    (on_class "BackendPermissionDenied" (sb_fetch backend secret_name desk)
       (fun e => rpc (-32007) "backend_permission_denied" [("detail", JStr (str_exn e))]))
    (fun e => rpc (-32008) "backend_unavailable" [("detail", JStr (str_exn e)); ("retry", JBool true)]);
  match payload with
  | Some p => mret p
  | None => rpc (-32009) "backend_missing_secret"
      [("secret_name", JStr secret_name);
       ("fix", JStr ("ws secret set " +:+ desk +:+ " " +:+ secret_name +:+ " < value"))]
  end.

Definition entitled (secret_name : string) (l : list json) : res exn bool :=
  if existsb unhashable l then hash_error else Ok (existsb (str_eq_json secret_name) l).

Definition nonempty_str (o : option string) : option string :=
  match o with Some s => if is_empty s then None else Some s | None => None end.

Definition other_desk (source : option string) (caller : string) : bool :=
  match source with Some s => negb (s =s caller) | None => false end.

Definition _handle_secret_request (backend : SecretsBackend) (caller : string) (request_id : json)
    (secret_name : string) (source : option string) : W json :=
  policy_row ← load_policy caller;
  _ ← lift (_check_capability policy_row REQUEST_SECRET_LEASES
              "Grant request_secret_leases in the Dock's project YAML capabilities");
  entitlements ← lift (_policy_list (dr_secrets policy_row));
  ok ← lift (entitled secret_name entitlements);
  if negb ok then
    _ ← _emit_capability_amendment "secret_grant"
          [("secret_name", JStr secret_name); ("source_drydock_id", opt_str source)]
          caller "escalated" "narrowness_violated: secret_not_entitled";
    rpc (-32006) "narrowness_violated"
      [("rule", JStr "secret_entitlement"); ("requested", JStr secret_name);
       ("fix", JStr "Add the secret to delegatable_secrets in the project YAML")]
  else
    let fetch_desk_id := default caller (nonempty_str source) in
    let is_cross_desk := other_desk source caller in
    _ ← (if is_cross_desk then
           src ← reg_get (load_desk_policy (default "" source));
           match src with
           | None => rpc (-32001) "source_desk_not_found" [("source_drydock_id", opt_str source)]
           | Some _ => mret tt
           end
         else mret tt);
    payload ← fetch_secret backend secret_name fetch_desk_id;
    drydock ← running_drydock caller;
    _ ← (if is_cross_desk && sb_file backend then
           on_os_error (_materialize_to_host_secret_dir caller secret_name payload)
             materialization_failed
         else if negb (sb_file backend) then
           on_class "RuntimeError" (_materialize_secret (container_id drydock) secret_name payload)
             materialization_failed
         else mret tt);
    u ← uuid4;
    now ← utc_now;
    let lease_scope := ("secret_name", JStr secret_name)
      :: match nonempty_str source with Some s => [("source_drydock_id", JStr s)] | None => [] end in
    issue_lease (mkLease ("ls_" +:+ u) caller SECRET lease_scope now None "daemon" false None)
      caller request_id "secret_grant"
      [("secret_name", JStr secret_name); ("source_drydock_id", opt_str source)]
      "within_policy" JNull [].

(** ** AWS credentials *)

Fixpoint write_files (caller : string) (files : list (string * string)) : W unit :=
  match files with
  | [] => mret tt
  | (n, v) :: rest =>
      _ ← unlink caller n;
      _ ← write_bytes caller n v;
      _ ← chown_to_container;
      _ ← chmod_ro caller n;
      write_files caller rest
  end.

Definition _materialize_storage_credentials (caller : string) (cred : StorageCredential) : W unit :=
  _ ← mkdir_p (secret_dir caller); write_files caller (to_files cred).

Definition _STORAGE_CRED_FILENAMES : list string :=
  ["aws_access_key_id"; "aws_secret_access_key"; "aws_session_token"; "aws_session_expiration"].

(** Best effort: an [OSError] is logged. *)
Definition unlink_quiet (caller n : string) : W unit :=
  on_os_error (unlink caller n) (fun _ => mret tt).

Fixpoint remove_files (caller : string) (names : list string) : W unit :=
  match names with
  | [] => mret tt
  | n :: rest => _ ← unlink_quiet caller n; remove_files caller rest
  end.

Definition _remove_storage_credentials (caller : string) : W unit :=
  remove_files caller _STORAGE_CRED_FILENAMES.

(** [while True: prior = find_active_aws_lease(...)]. Each round revokes one active
    lease, so the number of leases bounds the rounds. *)
Fixpoint supersede_loop (fuel : nat) (caller : string) (request_id : json) (reason : string)
    : W unit :=
  match fuel with
  | O => throw (PyError "OutOfFuel" "")
  | S fuel' =>
      prior ← reg_query (find_active_aws_lease caller);
      match prior with
      | None => mret tt
      | Some l =>
          _ ← reg (revoke_lease (lease_id l) "superseded");
          _ ← emit_audit "lease.released" (Some caller) request_id "RequestCapability" "ok"
                [("lease_id", JStr (lease_id l)); ("reason", JStr reason)];
          supersede_loop fuel' caller request_id reason
      end
  end.

Definition supersede (caller : string) (request_id : json) (reason : string) : W unit :=
  n ← reg_get (fun d => length (leases d));
  supersede_loop (S n) caller request_id reason.

(** The errors of [mint] and [mint_provision]. *)
Definition minting {A} (m : W A) : W A :=
  catch m (fun e =>
    let k := exn_class e in
    if k =s "StorageBackendConfigError"
    then rpc (-32016) "storage_backend_config_error" [("detail", JStr (str_exn e))]
    else if k =s "StorageBackendPermissionDenied"
    then rpc (-32007) "backend_permission_denied" [("detail", JStr (str_exn e))]
    else if k =s "StorageBackendUnavailable"
    then rpc (-32008) "backend_unavailable" [("detail", JStr (str_exn e)); ("retry", JBool true)]
    else throw e).

Definition backend_missing {A} : W A :=
  rpc (-32015) "storage_backend_not_configured"
    [("fix", JStr "Set [storage] backend = 'sts' and role_arn = '...' in ~/.drydock/daemon.toml")].

(** Materialize a minted credential and issue its lease. *)
Definition grant_aws (caller : string) (request_id : json) (type_ : CapabilityType)
    (lease_scope : obj) (kind : string) (request : obj) (cred : StorageCredential) : W json :=
  _ ← on_os_error (_materialize_storage_credentials caller cred) materialization_failed;
  u ← uuid4;
  now ← utc_now;
  let expires := JStr (isoformat (expiration cred)) in
  issue_lease (mkLease ("ls_" +:+ u) caller type_ (lease_scope ++ [("expiration", expires)]) now
                 (Some (expiration cred)) "daemon" false None)
    caller request_id kind request "within_policy" expires [].

Definition storage_obj (bucket prefix mode : string) : obj :=
  [("bucket", JStr bucket); ("prefix", JStr prefix); ("mode", JStr mode)].

Definition _handle_storage_request (storage_backend : option StorageBackend) (caller : string)
    (request_id : json) (bucket prefix mode : string) : W json :=
  match storage_backend with
  | None => backend_missing
  | Some backend =>
      _ ← supersede caller request_id "superseded_by_new_storage_lease";
      policy_row ← load_policy caller;
      _ ← lift (_check_capability policy_row REQUEST_STORAGE_LEASES
                  "Grant request_storage_leases in the Dock's project YAML capabilities");
      granted_scopes ← lift (_policy_list (dr_storage_scopes policy_row));
      if negb (matches_storage_scope (mkStorageRequest (Some bucket) (Some prefix) (Some mode)) granted_scopes)
      then
        _ ← _emit_capability_amendment "storage_grant" (storage_obj bucket prefix mode) caller
              "escalated" "narrowness_violated: storage_scope_not_entitled";
        rpc (-32006) "narrowness_violated"
          [("rule", JStr "storage_scope"); ("requested", JObj (storage_obj bucket prefix mode));
           ("granted", JList granted_scopes);
           ("fix", JStr ("Add a matching entry to delegatable_storage_scopes in the project YAML "
              +:+ "(e.g. 's3://bucket/prefix/*' or 'rw:s3://bucket/prefix/*')"))]
      else
        _ ← running_drydock caller;
        cred ← minting (mint backend caller bucket prefix mode);
        grant_aws caller request_id STORAGE_MOUNT (storage_obj bucket prefix mode) "storage_grant"
          (storage_obj bucket prefix mode) cred
  end.

Definition _handle_provision_request (storage_backend : option StorageBackend) (caller : string)
    (request_id : json) (actions : list string) : W json :=
  match storage_backend with
  | None => backend_missing
  | Some backend =>
      _ ← supersede caller request_id "superseded_by_new_provision_lease";
      policy_row ← load_policy caller;
      _ ← lift (_check_capability policy_row REQUEST_PROVISION_LEASES
                  "Grant request_provision_leases in the Dock's project YAML capabilities");
      granted ← lift (_policy_list (dr_provision_scopes policy_row));
      if negb (matches_provision_actions (map JStr actions) granted) then
        _ ← _emit_capability_amendment "provision_grant" [("actions", jstrs actions)] caller
              "escalated" "narrowness_violated: provision_actions_not_entitled";
        rpc (-32006) "narrowness_violated"
          [("rule", JStr "provision_actions"); ("requested", jstrs actions); ("granted", JList granted);
           ("fix", JStr "Add matching IAM action globs to delegatable_provision_scopes in the project YAML")]
      else
        _ ← running_drydock caller;
        cred ← minting (mint_provision backend caller actions);
        grant_aws caller request_id INFRA_PROVISION [("actions", jstrs actions)] "provision_grant"
          [("actions", jstrs actions)] cred
  end.

(** ** The two handlers *)

Definition request_capability (backend : SecretsBackend) (storage_backend : option StorageBackend)
    (params request_id : json) (caller : option string) : W json :=
  match caller with
  | None => rpc (-32004) "unauthenticated" [("reason", JStr "no_caller")]
  | Some caller =>
      spec ← lift (_validate_request_params params);
      match spec with
      | ReqSecret n src => _handle_secret_request backend caller request_id n src
      | ReqStorage b p m => _handle_storage_request storage_backend caller request_id b p m
      | ReqProvision acts => _handle_provision_request storage_backend caller request_id acts
      | ReqReach d p => _handle_network_reach_request caller request_id d p
      end
  end.

(** Best effort. *)
Definition _remove_from_host_secret_dir (caller secret_name : string) : W unit :=
  unlink_quiet caller secret_name.

(** The cleanup of a secret lease that was revoked just now: only a copy made from
    another desk is removed, and only when no active lease still grants the name. *)
Definition cleanup_secret (caller : string) (lease : CapabilityLease) : W unit :=
  match jget "source_drydock_id" (scope lease), jget "secret_name" (scope lease) with
  | JStr source, JStr secret_name =>
      if negb (source =s caller) then
        still ← reg_query (find_active_secret_lease caller secret_name);
        match still with
        | None => _remove_from_host_secret_dir caller secret_name
        | Some _ => mret tt
        end
      else mret tt
  | _, _ => mret tt
  end.

Definition cleanup_aws (caller : string) : W unit :=
  still ← reg_query (find_active_aws_lease caller);
  match still with
  | None => _remove_storage_credentials caller
  | Some _ => mret tt
  end.

Definition release_owned (caller lease_id0 : string) (request_id : json) (lease : CapabilityLease)
    : W json :=
  revoked ← reg (revoke_lease lease_id0 "released");
  _ ← (if is_type SECRET lease && revoked then cleanup_secret caller lease else mret tt);
  _ ← (if is_aws lease && revoked then cleanup_aws caller else mret tt);
  _ ← (if revoked : bool then
         _ ← emit_audit "lease.released" (Some caller) request_id "ReleaseCapability" "ok"
               [("lease_id", JStr lease_id0); ("reason", JStr "client_release");
                ("source_drydock_id", jget "source_drydock_id" (scope lease))];
         mret tt
       else mret tt);
  mret (JObj [("lease_id", JStr lease_id0); ("revoked", JBool revoked)]).

Definition release_capability (params request_id : json) (caller : option string) : W json :=
  match caller with
  | None => rpc (-32004) "unauthenticated" [("reason", JStr "no_caller")]
  | Some caller =>
      match params with
      | JObj o =>
          match jget "lease_id" o with
          | JStr lease_id0 =>
              if is_empty lease_id0 then lift (invalid "lease_id required (string)")
              else
                lease ← reg_query (get_lease lease_id0);
                match lease with
                | None => rpc (-32012) "lease_not_found" [("lease_id", JStr lease_id0)]
                | Some lease =>
                    if negb (lease_drydock_id lease =s caller)
                    then rpc (-32012) "lease_not_found" [("lease_id", JStr lease_id0)]
                    else release_owned caller lease_id0 request_id lease
                end
          | _ => lift (invalid "lease_id required (string)")
          end
      | _ => lift (invalid "params must be an object")
      end
  end.

(** ** [daemon/server.py]'s handlers, with the secrets root configured *)

Definition _request_capability (backend : SecretsBackend) (storage_backend : option StorageBackend)
    (params request_id : json) (caller : option string) : W json :=
  with_task_log "RequestCapability" params request_id
    (request_capability backend storage_backend params request_id caller) status_completed.

Definition _release_capability (params request_id : json) (caller : option string) : W json :=
  release_capability params request_id caller.
End Broker.
