(* ===== verification/BrokerFacts.v ===== *)
(** Correctness of [Broker.v]: what a request can touch, what a grant requires, one
    active AWS lease per desk, release, and the safety of the names requests carry
    into paths and commands. *)

From S2P Require Import Prelude PyStr PyVal Regex Datetime Registry RegistryFacts Policy World Rpc WorldFacts Storage Broker.
From Stdlib Require Import List.

(** ** Predicates a request's bookkeeping does not disturb *)

(** [P] looks only at the database less its amendments, and at the secret files. *)
Class Stable (P : world -> Prop) : Prop := {
  stable_view : forall w w', w_db w' = w_db w -> w_files w' = w_files w -> P w -> P w';
  stable_amend : forall w t, P w -> P (set_db (set_amendments t (w_db w)) w)
}.

Section Bookkeeping.
Context `{Env} (P : world -> Prop) `{!Stable P}.

(** What leaves the database and the secret files alone preserves [P]. *)
Lemma keep_quiet {A} (m : W A) : quiet db_files m -> preserves P m.
Proof. intros Hm w Hw. specialize (Hm w). injection Hm as Hd Hf. by apply (stable_view w). Qed.

Lemma keep_amendment k r c s t : preserves P (_emit_capability_amendment k r c s t).
Proof.
  unfold _emit_capability_amendment. apply preserves_bind; [apply keep_quiet; eauto with quiet|]. intros u.
  apply preserves_bind; [apply keep_quiet; eauto with quiet|]. intros now.
  apply preserves_catch; [|intros; apply preserves_ret].
  apply preserves_bind; [|intros; apply preserves_ret].
  intros w Hw. unfold reg, create_amendment. rewrite gets_bind. destruct (_ || _).
  - rewrite throw_eq. cbn. by rewrite set_db_id.
  - rewrite modify_bind. cbn. by apply stable_amend.
Qed.

Lemma keep_on_os {A} (m : W A) h : preserves P m -> (forall e, preserves P (h e)) ->
  preserves P (on_os_error m h).
Proof. intros Hm Hh. apply preserves_catch; [done|]. intros e. destruct (is_os_error e); [done|apply preserves_throw]. Qed.

Lemma keep_on_class {A} k (m : W A) h : preserves P m -> (forall e, preserves P (h e)) ->
  preserves P (on_class k m h).
Proof. intros Hm Hh. apply preserves_catch; [done|]. intros e. destruct (_ =s _); [done|apply preserves_throw]. Qed.

Lemma quiet_load_policy c : quiet state_view (load_policy c).
Proof. unfold load_policy. quiet_step. Qed.

Lemma quiet_running c : quiet state_view (running_drydock c).
Proof. unfold running_drydock. quiet_step. Qed.

Lemma keep_minting {A} (m : W A) : preserves P m -> preserves P (minting m).
Proof.
  intros Hm. apply preserves_catch; [done|]. intros e. cbv zeta.
  repeat case_goal; apply keep_quiet; eauto with quiet.
Qed.

Lemma outside_keeps {A} (m : W A) : (forall w, outside w (snd (m w))) -> preserves P m.
Proof. intros Hm w Hw. destruct (Hm w) as (H1 & H2 & _). by apply (stable_view w). Qed.
End Bookkeeping.

Create HintDb wp.
#[export] Hint Resolve keep_amendment preserves_ret preserves_throw preserves_gets preserves_lift : wp.
#[export] Hint Resolve quiet_load_policy quiet_running : quiet.
#[export] Hint Extern 4 (preserves _ _) => apply keep_quiet; solve [apply _ | eauto with quiet nocore] : wp.

(** Step through a handler; [wp] knows the operations. *)
Ltac wpres :=
  repeat first
    [ solve [eauto with wp typeclass_instances]
    | match goal with
      | |- preserves _ (mbind _ _) => apply preserves_bind; [|intros ?]
      | |- preserves _ (on_os_error _ _) => apply keep_on_os; [|intros ?]
      | |- preserves _ (on_class _ _ _) => apply keep_on_class; [|intros ?]
      | |- preserves _ (minting _) => apply keep_minting
      end
    | progress cbv beta zeta
    | match goal with |- preserves _ (match ?x with _ => _ end) => destruct x end ].

(** ** Isolation *)

(** Everything but the caller's own leases and secret files (and the amendments, the audit
    log, the counters and the calls made); lease ids are unique. *)
Definition others (caller : string) (w0 w : world) : Prop :=
  drydocks (w_db w) = drydocks (w_db w0) /\ tokens (w_db w) = tokens (w_db w0)
  /\ task_log (w_db w) = task_log (w_db w0)
  /\ workload_leases (w_db w) = workload_leases (w_db w0)
  /\ tbl_select (fun r => negb (lr_drydock_id r =s caller)) (leases (w_db w))
     = tbl_select (fun r => negb (lr_drydock_id r =s caller)) (leases (w_db w0))
  /\ NoDup (map lr_lease_id (leases (w_db w)))
  /\ forall desk n, desk <> caller -> w_files w !! (desk, n) = w_files w0 !! (desk, n).

#[export] Instance others_stable caller w0 : Stable (others caller w0).
Proof.
  split.
  - intros w w' Hd Hf. unfold others. by rewrite Hd, Hf.
  - intros w t. unfold others. done.
Qed.

Section Isolation.
Context `{Env} (caller : string) (w0 : world).

Abbreviation keepo := (preserves (others caller w0)).

Lemma others_files (f : gmap (string * string) sfile -> gmap (string * string) sfile) :
  (forall m desk n, desk <> caller -> f m !! (desk, n) = m !! (desk, n)) ->
  keepo (modify (E := exn) (fun w => set_files (f (w_files w)) w)).
Proof.
  intros Hf. apply preserves_modify. intros w (H1 & H2 & H3 & H4 & H5 & H6 & H7).
  repeat (split; [done|]). intros desk n Hd. cbn. rewrite Hf; auto.
Qed.

Lemma caller_ne (desk n k : string) : desk <> caller -> (caller, k) <> (desk, n).
Proof. congruence. Qed.

Lemma others_put n v :
  keepo (modify (E := exn) (fun w => set_files (<[(caller, n) := v]> (w_files w)) w)).
Proof.
  apply (others_files (fun m => <[(caller, n) := v]> m)).
  intros m desk k Hd. by rewrite lookup_insert_ne by by apply caller_ne.
Qed.

Lemma others_write n data : keepo (write_bytes caller n data).
Proof.
  unfold write_bytes, os_error. apply preserves_bind; [wpres|]. intros [].
  destruct (is_dir_name n); [wpres|]. apply preserves_bind; [wpres|].
  intros [f|]; [destruct (_ && _); [wpres|]|]; apply others_put.
Qed.

Lemma others_unlink n : keepo (unlink caller n).
Proof.
  unfold unlink, os_error. apply preserves_bind; [wpres|]. intros [].
  destruct (is_dir_name n); [wpres|]. apply (others_files (fun m => delete (caller, n) m)).
  intros m desk k Hd. by rewrite lookup_delete_ne by by apply caller_ne.
Qed.

Lemma others_chmod n : keepo (chmod_ro caller n).
Proof.
  unfold chmod_ro. apply preserves_bind; [wpres|]. intros [].
  apply (others_files (fun m => alter (fun f => mkFile (sf_data f) true) (caller, n) m)).
  intros m desk k Hd. by rewrite lookup_alter_ne by by apply caller_ne.
Qed.

Hint Resolve others_write others_unlink others_chmod : wp.

Lemma others_remove names : keepo (remove_files caller names).
Proof. induction names as [|n l IH]; cbn [remove_files]; unfold unlink_quiet; wpres. Qed.

Lemma others_write_files files : keepo (write_files caller files).
Proof. induction files as [|[n v] l IH]; cbn [write_files]; wpres. Qed.

Lemma others_set_leases t w :
  tbl_select (fun r => negb (lr_drydock_id r =s caller)) t
    = tbl_select (fun r => negb (lr_drydock_id r =s caller)) (leases (w_db w)) ->
  NoDup (map lr_lease_id t) ->
  others caller w0 w -> others caller w0 (set_db (set_leases t (w_db w)) w).
Proof.
  intros Ht Hnd (H1 & H2 & H3 & H4 & H5 & H6 & H7). repeat (split; [done|]).
  split; [etransitivity; [exact Ht|exact H5]|]. split; done.
Qed.

(** The caller revokes a lease of its own. *)
Lemma others_revoke i reason w r0 :
  In r0 (leases (w_db w)) -> lr_lease_id r0 = i -> lr_drydock_id r0 = caller ->
  others caller w0 w -> others caller w0 (snd (reg (revoke_lease i reason) w)).
Proof.
  intros Hr0 Hi Hc Hw. unfold reg, revoke_lease.
  rewrite (bind_ok _ _ _ _ _ (revoke_where_eq _ _ _)), ret_eq. cbn [snd].
  pose proof Hw as (_ & _ & _ & _ & _ & Hnd & _).
  apply others_set_leases; [|by rewrite tbl_update_map|done].
  assert (forall r, In r (leases (w_db w)) -> lr_lease_id r = i -> lr_drydock_id r = caller) as Hown.
  { intros r Hr Hri. rewrite (tbl_key_inj lr_lease_id _ r r0 Hnd Hr Hr0); congruence. }
  clear -Hown. unfold tbl_select, tbl_update. induction (leases (w_db w)) as [|r t IH]; [done|].
  cbn [map List.filter].
  destruct (by_lease i r && negb (lr_revoked r)) eqn:E.
  - apply andb_true_iff in E as [E _]. unfold by_lease in E. breflect.
    cbn [lr_drydock_id revoke_row]. rewrite (Hown r (or_introl eq_refl) E), String.eqb_refl. cbn [negb].
    apply IH. intros x Hx. apply Hown. by right.
  - destruct (negb (lr_drydock_id r =s caller)); [f_equal|]; apply IH; intros x Hx; apply Hown; by right.
Qed.

Lemma others_insert l : lease_drydock_id l = caller -> keepo (reg (insert_lease l)).
Proof.
  intros Hl w Hw. unfold reg, insert_lease. rewrite gets_bind. destruct (existsb _ _) eqn:Ef.
  - rewrite throw_eq. cbn. by rewrite set_db_id.
  - rewrite modify_eq. cbn [snd]. pose proof Hw as (_ & _ & _ & _ & _ & Hnd & _).
    apply others_set_leases; [| |done].
    + unfold tbl_select. rewrite List.filter_app. cbn. by rewrite Hl, String.eqb_refl, app_nil_r.
    + apply tbl_append_NoDup; [done|]. by apply existsb_eqb_fresh.
Qed.

Lemma active_lease_row p w l :
  find_active_lease p caller (w_db w) = Ok (Some l) ->
  exists r, In r (leases (w_db w)) /\ active_of caller r = true /\ _row_to_lease r = Ok l /\ p l = true.
Proof.
  unfold find_active_lease, list_active_leases_for_desk.
  intros (ls & Hls & [= Hf])%res_bind_ok. apply find_some in Hf as [Hin Hp].
  apply mapE_ok in Hls.
  destruct (Forall2_In_r _ _ _ _ Hls Hin) as (r & Hr & Hrow).
  apply order_by_In, tbl_select_In in Hr as [Hr Ha]. eauto.
Qed.
Lemma row_to_lease_fields r l :
  _row_to_lease r = Ok l ->
  lease_id l = lr_lease_id r /\ lease_drydock_id l = lr_drydock_id r
  /\ lr_type r = CapabilityType_value (lease_type l) /\ revoked l = lr_revoked r /\ scope l = lr_scope r.
Proof.
  unfold _row_to_lease. destruct (CapabilityType_of (lr_type r)) as [ty|] eqn:Ety; [|done].
  intros (i & _ & (e & _ & [= <-])%res_bind_ok)%res_bind_ok. cbn.
  unfold CapabilityType_of in Ety. apply find_some in Ety as [_ Ety]. breflect. auto.
Qed.

Lemma others_supersede_loop fuel id reason : keepo (supersede_loop fuel caller id reason).
Proof.
  induction fuel as [|fuel IH]; cbn [supersede_loop]; [wpres|].
  intros w Hw. rewrite reg_query_bind. unfold find_active_aws_lease.
  destruct (find_active_lease is_aws caller (w_db w)) as [[l|]|e] eqn:E; [|exact Hw|exact Hw].
  apply active_lease_row in E as (r & Hr & Ha & Hrow & _).
  apply row_to_lease_fields in Hrow as (Hid & _). unfold active_of in Ha. breflect.
  assert (preserves (others caller w0)
    (_ ← emit_audit "lease.released" (Some caller) id "RequestCapability" "ok"
           [("lease_id", JStr (lease_id l)); ("reason", JStr reason)];
     supersede_loop fuel caller id reason)) as Hk by wpres.
  pose proof (others_revoke (lease_id l) "superseded" w r Hr (eq_sym Hid) ltac:(assumption) Hw) as Hrev.
  unfold mbind at 1, M_bind at 1.
  destruct (reg (revoke_lease (lease_id l) "superseded") w) as [[b|e] w1]; cbn [snd] in Hrev;
    [by apply Hk | exact Hrev].
Qed.

Lemma others_supersede id reason : keepo (supersede caller id reason).
Proof. unfold supersede. apply preserves_bind; [wpres|]. intros n. apply others_supersede_loop. Qed.

Lemma others_issue lease id k req reason ex extra :
  lease_drydock_id lease = caller -> keepo (issue_lease lease caller id k req reason ex extra).
Proof. intros Hl. unfold issue_lease. apply preserves_bind; [by apply others_insert|]. intros _. wpres. Qed.

Lemma others_secret backend id n src :
  LawfulSecrets backend -> keepo (_handle_secret_request backend caller id n src).
Proof.
  intros Hb.
  assert (forall desk, keepo (sb_fetch backend n desk)) as Hf
    by (intros desk; apply outside_keeps; [apply _|]; intros w; apply fetch_outside).
  unfold _handle_secret_request, fetch_secret, _materialize_to_host_secret_dir,
    materialization_failed, _materialize_secret.
  wpres; by apply others_issue.
Qed.

Lemma others_reach id d p : keepo (_handle_network_reach_request caller id d p).
Proof.
  unfold _handle_network_reach_request, deny_reach, grant_reach, _materialize_network_reach,
    materialization_failed. wpres; by apply others_issue.
Qed.

Lemma others_grant_aws id t sc k req cred : keepo (grant_aws caller id t sc k req cred).
Proof.
  unfold grant_aws, _materialize_storage_credentials, materialization_failed.
  pose proof others_write_files as Hw. wpres. by apply others_issue.
Qed.
End Isolation.

#[export] Hint Resolve others_write others_unlink others_chmod others_remove others_write_files
  others_supersede others_secret others_reach others_grant_aws : wp.

Section Requests.
Context `{Env} (backend : SecretsBackend) (storage_backend : option StorageBackend)
  `{!LawfulSecrets backend} (storage_lawful : forall b, storage_backend = Some b -> LawfulStorage b).

Lemma others_storage caller w0 id b p m :
  preserves (others caller w0) (_handle_storage_request storage_backend caller id b p m).
Proof.
  unfold _handle_storage_request. destruct storage_backend as [sb|] eqn:E; [|wpres].
  pose proof (storage_lawful sb eq_refl) as Hl.
  assert (preserves (others caller w0) (mint sb caller b p m)) as Hm
    by (apply outside_keeps; [apply _|]; intros w; apply mint_outside).
  wpres.
Qed.

Lemma others_provision caller w0 id acts :
  preserves (others caller w0) (_handle_provision_request storage_backend caller id acts).
Proof.
  unfold _handle_provision_request. destruct storage_backend as [sb|] eqn:E; [|wpres].
  pose proof (storage_lawful sb eq_refl) as Hl.
  assert (preserves (others caller w0) (mint_provision sb caller acts)) as Hm
    by (apply outside_keeps; [apply _|]; intros w; apply mint_provision_outside).
  wpres.
Qed.

Lemma others_request caller w0 params id :
  preserves (others caller w0) (request_capability backend storage_backend params id (Some caller)).
Proof.
  unfold request_capability. apply preserves_bind; [wpres|].
  intros [n src|b p m|acts|d p]; [by apply others_secret | apply others_storage
    | apply others_provision | apply others_reach].
Qed.

Lemma get_lease_row i d l :
  get_lease i d = Ok (Some l) -> exists r, In r (leases d) /\ lr_lease_id r = i /\ _row_to_lease r = Ok l.
Proof.
  unfold get_lease. destruct (tbl_first (by_lease i) (leases d)) as [r|] eqn:E; [|done].
  intros (l' & Hl & [= ->])%res_bind_ok. apply tbl_first_Some in E as [Hr Hi]. unfold by_lease in Hi.
  breflect. eauto.
Qed.

Lemma others_release caller w0 params id :
  preserves (others caller w0) (release_capability params id (Some caller)).
Proof.
  unfold release_capability. destruct params; try (wpres; fail).
  destruct (jget "lease_id" kvs); try (wpres; fail). destruct (is_empty s); [wpres|].
  intros w Hw. rewrite reg_query_bind.
  destruct (get_lease s (w_db w)) as [[l|]|e] eqn:E; [|exact Hw|exact Hw].
  destruct (negb (lease_drydock_id l =s caller)) eqn:Ed; [exact Hw|].
  apply get_lease_row in E as (r & Hr & Hi & Hrow). apply (row_to_lease_fields) in Hrow as (_ & Hd & _).
  breflect. unfold release_owned.
  pose proof (others_revoke caller w0 s "released" w r Hr Hi ltac:(congruence) Hw) as Hrev.
  unfold mbind at 1, M_bind at 1.
  destruct (reg (revoke_lease s "released") w) as [[rv|e] w1]; cbn [snd] in Hrev; [|exact Hrev].
  revert w1 Hrev. match goal with |- forall w1, _ -> _ (snd (?m w1)) => change (preserves (others caller w0) m) end.
  unfold cleanup_secret, cleanup_aws, _remove_from_host_secret_dir, _remove_storage_credentials, unlink_quiet.
  wpres.
Qed.

(** C10: Isolation: whatever a desk asks of the broker, granted, refused or failed, with any parameters
    and any answer from docker and the backends, RequestCapability and ReleaseCapability change no other
    desk's leases or secret files, no drydock record, token, workload lease or request log; lease ids
    stay unique. *)
Theorem broker_isolation caller params id w :
  NoDup (map lr_lease_id (leases (w_db w))) ->
  others caller w (snd (request_capability backend storage_backend params id (Some caller) w))
  /\ others caller w (snd (release_capability params id (Some caller) w)).
Proof.
  intros Hnd. assert (others caller w w) as H0 by (repeat (split; [done|]); done).
  split; [by apply others_request | by apply others_release].
Qed.
End Requests.

(** ** A concrete broker for examples *)

(** One running desk that may ask for S3 and secret leases. *)
Definition demo_dock (i : string) : dock_row :=
  mkDockRow (mkDrydock i "p" "" i "" "" "" "running" "c1" "" "" "" "" "" JNull "" None JNull)
    None (JList []) (JList [JStr "api_key"])
    (JList [JStr "request_storage_leases"; JStr "request_secret_leases"])
    (JList [JStr "rw:s3://bucket/prefix/*"]) (JList []) (JList []) (JList []) (JObj []).
Definition demo_world : world :=
  mkWorld (set_drydocks [demo_dock "dock_a"; demo_dock "dock_b"] empty_db)
    {[ ("dock_a", "api_key") := mkFile "k" true ]} ∅ [] [] 0 0 0.

Definition demo_storage : StorageBackend := StubStorageBackend (mkDatetime (739000 * us_per_day) true).
Definition demo_secrets : SecretsBackend := @FileBackend demo_env.

#[export] Instance demo_secrets_lawful : LawfulSecrets demo_secrets := @file_lawful demo_env.
Lemma demo_storage_lawful b : Some demo_storage = Some b -> LawfulStorage b.
Proof. intros [= <-]. apply stub_lawful. Qed.

Definition storage_params (b p m : string) : json :=
  JObj [("type", JStr "STORAGE_MOUNT");
        ("scope", JObj [("bucket", JStr b); ("prefix", JStr p); ("mode", JStr m)])].
Definition release_params (i : string) : json := JObj [("lease_id", JStr i)].

(** The broker of the examples, as a transition. *)
Definition demo_request (params : json) (id : Z) (c : string) : W json :=
  @request_capability demo_env demo_secrets (Some demo_storage) params (JInt id) (Some c).
Definition demo_release (i : string) (id : Z) (c : string) : W json :=
  @release_capability demo_env (release_params i) (JInt id) (Some c).

(** After dock_a was granted its first lease. *)
Definition granted_world : world := snd (demo_request (storage_params "bucket" "prefix/x" "ro") 1 "dock_a" demo_world).
Definition demo_lease_id : string := "ls_" +:+ pad 32 0.

Lemma granted_world_NoDup : List.NoDup (map lr_lease_id (leases (w_db granted_world))).
Proof. vm_compute. repeat constructor. by intros []. Qed.

Lemma broker_isolation_witness :
  is_ok (fst (demo_request (storage_params "bucket" "prefix" "rw") 2 "dock_b" granted_world)) = true
  /\ others "dock_b" granted_world (snd (demo_request (storage_params "bucket" "prefix" "rw") 2 "dock_b" granted_world)).
Proof.
  split; [vm_compute; reflexivity|].
  exact (proj1 (@broker_isolation demo_env demo_secrets (Some demo_storage) _ demo_storage_lawful "dock_b"
    (storage_params "bucket" "prefix" "rw") (JInt 2) granted_world granted_world_NoDup)).
Defined.
