(* ===== verification/BrokerGrants.v ===== *)
(** What a capability grant requires and leaves behind: the caller's policy, one active AWS
    lease per desk, the superseding loop's termination, and release. *)

From S2P Require Import Prelude PyStr PyVal Regex Datetime Registry RegistryFacts Policy World Rpc WorldFacts RpcFacts Storage Broker BrokerFacts.
From Stdlib Require Import List.

(** ** Reading a policy *)

Definition granted_kind (row : dock_row) (k : CapabilityKind) : Prop :=
  exists l, dr_capabilities row = JList l /\ In (JStr (CapabilityKind_value k)) l.

Lemma policy_list_ok v l : _policy_list v = Ok l -> v = JList l.
Proof. destruct v; try done. by intros [= ->]. Qed.

Lemma check_capability_ok `{Env} row k fix_ u : _check_capability row k fix_ = Ok u -> granted_kind row k.
Proof.
  unfold _check_capability. intros (l & Hl & (caps & Hc & E)%res_bind_ok)%res_bind_ok.
  destruct (existsb _ caps) eqn:Ex; [|done]. apply existsb_exists in Ex as (k' & Hin & Hk).
  apply bool_decide_eq_true in Hk as ->. apply mapE_ok in Hc.
  destruct (Forall2_In_r _ _ _ _ Hc Hin) as (v & Hv & Hkv).
  exists l. split; [by apply policy_list_ok|]. unfold CapabilityKind_exn in Hkv. destruct v; try done.
  destruct (CapabilityKind_of s) as [k0|] eqn:Es; [|done]. injection Hkv as ->.
  unfold CapabilityKind_of in Es. apply find_some in Es as [_ Es]. breflect. by subst.
Qed.

(** What the caller's policy row must say for a request to be granted. *)
Definition authorized (row : dock_row) (req : cap_request) : Prop :=
  match req with
  | ReqSecret n _ =>
      granted_kind row REQUEST_SECRET_LEASES
      /\ exists l, dr_secrets row = JList l /\ In (JStr n) l
  | ReqStorage b p m =>
      granted_kind row REQUEST_STORAGE_LEASES
      /\ exists l, dr_storage_scopes row = JList l
                   /\ matches_storage_scope (mkStorageRequest (Some b) (Some p) (Some m)) l = true
  | ReqProvision acts =>
      granted_kind row REQUEST_PROVISION_LEASES
      /\ exists l, dr_provision_scopes row = JList l /\ matches_provision_actions (map JStr acts) l = true
  | ReqReach d p =>
      granted_kind row REQUEST_NETWORK_REACH
      /\ exists gd gp, dr_network_reach row = JList gd /\ dr_reach_ports row = JList gp
                       /\ fst (matches_network_reach d p gd gp) = true
  end.

Definition request_type (req : cap_request) : CapabilityType :=
  match req with
  | ReqSecret _ _ => SECRET | ReqStorage _ _ _ => STORAGE_MOUNT
  | ReqProvision _ => INFRA_PROVISION | ReqReach _ _ => NETWORK_REACH
  end.

Lemma entitled_ok n l : entitled n l = Ok true -> In (JStr n) l.
Proof.
  unfold entitled. destruct (existsb unhashable l); [done|]. intros [= E].
  apply existsb_exists in E as (v & Hv & Hs). destruct v; try done. cbn in Hs. breflect. by subst.
Qed.

(** ** The tables a grant leaves *)

Definition leases_are (L : list lease_row) (w : world) : Prop := leases (w_db w) = L.
#[export] Instance leases_are_stable L : Stable (leases_are L).
Proof. split; unfold leases_are; [intros w w' Hd _; by rewrite Hd | done]. Qed.

Section Grants.
Context `{Env}.

Lemma issue_lease_ok lease caller id k req reason ex extra w v w' :
  issue_lease lease caller id k req reason ex extra w = (Ok v, w') ->
  v = to_wire lease /\ leases (w_db w') = leases (w_db w) ++ [lease_to_row lease]
  /\ existsb (by_lease (lease_id lease)) (leases (w_db w)) = false.
Proof.
  unfold issue_lease. intros E.
  apply bind_inv in E as [(u & w1 & E1 & E)|(e & _ & [=])].
  unfold reg, insert_lease in E1. rewrite gets_bind in E1.
  destruct (existsb _ _) eqn:Ex; [discriminate E1|]. rewrite modify_eq in E1. injection E1 as _ <-.
  set (w1 := set_db _ w) in E.
  assert (preserves (leases_are (leases (w_db w) ++ [lease_to_row lease]))
    (_ ← _emit_capability_amendment k req caller "auto_approved" reason;
     _ ← emit_audit "lease.issued" (Some caller) id "RequestCapability" "ok"
        ([("lease_id", JStr (lease_id lease)); ("drydock_id", JStr caller);
          ("type", JStr (CapabilityType_value (lease_type lease)));
          ("scope", JObj (scope lease)); ("expiry", ex)] ++ extra); mret (to_wire lease))) as Hk by wpres.
  specialize (Hk w1 eq_refl). rewrite E in Hk. split; [|split; [exact Hk|done]].
  apply bind_inv in E as [(u2 & w2 & _ & E)|(e & _ & [=])].
  apply bind_inv in E as [(u3 & w3 & _ & E)|(e & _ & [=])]. by injection E as <- _.
Qed.

Lemma load_policy_ok caller w row w' :
  load_policy caller w = (Ok row, w') -> w' = w /\ load_desk_policy caller (w_db w) = Some row.
Proof.
  unfold load_policy. rewrite reg_gets_bind. destruct (load_desk_policy caller (w_db w)); [|done].
  by intros [= <- <-].
Qed.

Lemma running_ok caller w ws w' :
  running_drydock caller w = (Ok ws, w') ->
  w' = w /\ _lookup_drydock caller (w_db w) = Some ws /\ container_id ws <> "".
Proof.
  unfold running_drydock. rewrite reg_gets_bind.
  destruct (_lookup_drydock caller (w_db w)) as [x|]; [|done].
  destruct (is_empty (container_id x)) eqn:E; [done|]. apply is_empty_false in E. by intros [= <- <-].
Qed.

(** The desk has a container. *)
Definition is_running (caller : string) (d : db) : Prop :=
  exists ws, _lookup_drydock caller d = Some ws /\ container_id ws <> "".

Lemma lift_ok {A B} (r : res exn A) (k : A -> W B) w b w' :
  (lift r ≫= k) w = (Ok b, w') -> exists a, r = Ok a /\ k a w = (Ok b, w').
Proof. rewrite lift_bind. destruct r; [eauto|done]. Qed.

Lemma bind_okI {A B} (m : W A) (k : A -> W B) w b w' :
  (m ≫= k) w = (Ok b, w') -> exists a w1, m w = (Ok a, w1) /\ k a w1 = (Ok b, w').
Proof. intros E. apply bind_inv in E as [(a & w1 & E1 & E)|(e & _ & [=])]. eauto. Qed.

(** The outcome of a grant, seen from the world [w0] in which the policy was read. *)
Definition grant_of (caller : string) (req : cap_request) (w0 : world) (before : list lease_row)
    (v : json) (w' : world) : Prop :=
  exists row lease,
    load_desk_policy caller (w_db w0) = Some row /\ authorized row req
    /\ is_running caller (w_db w0)
    /\ v = to_wire lease /\ lease_drydock_id lease = caller /\ lease_type lease = request_type req
    /\ revoked lease = false
    /\ existsb (by_lease (lease_id lease)) before = false
    /\ leases (w_db w') = before ++ [lease_to_row lease].

Lemma secret_grant backend caller id n src w v w' :
  LawfulSecrets backend ->
  _handle_secret_request backend caller id n src w = (Ok v, w') ->
  grant_of caller (ReqSecret n src) w (leases (w_db w)) v w'.
Proof.
  intros Hb E. unfold _handle_secret_request in E.
  apply bind_okI in E as (row & w1 & E1 & E). apply load_policy_ok in E1 as [-> Hrow].
  apply lift_ok in E as (u & Hc & E). apply check_capability_ok in Hc.
  apply lift_ok in E as (l & Hl & E). apply policy_list_ok in Hl.
  apply lift_ok in E as (ok & Hok & E). destruct ok; cbn [negb] in E.
  2:{ apply bind_okI in E as (? & ? & _ & E). discriminate E. }
  cbv zeta in E. apply bind_okI in E as (u1 & w1 & E1 & E).
  assert (w1 = w) as ->.
  { destruct (other_desk src caller); [|by injection E1 as _ ->].
    rewrite reg_gets_bind in E1. destruct (load_desk_policy (default "" src) (w_db w)); [by injection E1 as _ ->|discriminate E1]. }
  apply bind_okI in E as (payload & w2 & E2 & E).
  assert (outside w w2) as (Hd2 & _).
  { unfold fetch_secret, on_class, catch, mbind, M_bind in E2.
    pose proof (fetch_outside n (default caller (nonempty_str src)) w) as Hf.
    destruct (sb_fetch backend n _ w) as [[p|e] w3]; cbn [snd] in Hf.
    - destruct p; [by injection E2 as _ <-|discriminate E2].
    - destruct (_ =s _); cbn in E2; [discriminate E2|]. destruct (_ =s _); discriminate E2. }
  apply bind_okI in E as (ws & w3 & E3 & E). apply running_ok in E3 as (-> & Hws & Hcid).
  apply bind_okI in E as (u4 & w4 & E4 & E).
  apply bind_okI in E as (u5 & w5 & E5 & E). apply bind_okI in E as (t6 & w6 & E6 & E).
  assert (leases (w_db w4) = leases (w_db w)) as H4.
  { assert (preserves (leases_are (leases (w_db w))) (if other_desk src caller && sb_file backend
       then on_os_error (_materialize_to_host_secret_dir caller n payload) materialization_failed
       else if negb (sb_file backend)
       then on_class "RuntimeError" (_materialize_secret (container_id ws) n payload) materialization_failed
       else mret tt)) as Hk.
    { unfold _materialize_to_host_secret_dir, materialization_failed, _materialize_secret,
        write_bytes, chmod_ro, os_error. wpres; by apply preserves_modify. }
    specialize (Hk w2). rewrite E4 in Hk. apply Hk. unfold leases_are. by rewrite Hd2. }
  apply issue_lease_ok in E as (-> & Hls & Hfresh).
  assert (leases (w_db w6) = leases (w_db w)) as H6
    by (injection E5 as <- <-; injection E6 as <- <-; exact H4).
  rewrite H6 in Hls, Hfresh. eexists _, _.
  split; [exact Hrow|]. split; [split; [done|]; exists l; split; [done|by apply entitled_ok]|].
  split; [exists ws; rewrite <- Hd2; done|]. split; [reflexivity|]. split; [reflexivity|].
  split; [reflexivity|]. split; [reflexivity|]. done.
Qed.

Lemma reach_grant caller id d p w v w' :
  _handle_network_reach_request caller id d p w = (Ok v, w') ->
  grant_of caller (ReqReach d p) w (leases (w_db w)) v w'.
Proof.
  intros E. unfold _handle_network_reach_request in E.
  apply bind_okI in E as (row & w1 & E1 & E). apply load_policy_ok in E1 as [-> Hrow].
  apply lift_ok in E as (u & Hc & E). apply check_capability_ok in Hc.
  apply lift_ok in E as (gd & Hgd & E). apply policy_list_ok in Hgd.
  apply lift_ok in E as (gp & Hgp & E). apply policy_list_ok in Hgp.
  destruct (matches_network_reach d p gd gp) as [allowed reason] eqn:Em.
  destruct allowed; cbn [negb] in E.
  2:{ unfold deny_reach in E. apply bind_okI in E as (? & ? & E1 & _). discriminate E1. }
  apply bind_okI in E as (ws & w3 & E3 & E). apply running_ok in E3 as (-> & Hws & Hcid).
  apply bind_okI in E as (add & w4 & E4 & E).
  assert (leases (w_db w4) = leases (w_db w)) as H4.
  { assert (preserves (leases_are (leases (w_db w))) (on_class "RuntimeError"
      (_materialize_network_reach (container_id ws) d p) materialization_failed)) as Hk
      by (unfold _materialize_network_reach, materialization_failed; wpres).
    specialize (Hk w eq_refl). by rewrite E4 in Hk. }
  destruct add as [| | | | | |o]; try discriminate E. unfold grant_reach in E.
  destruct (negb (truthy (jget "ok" o))).
  { apply bind_okI in E as (? & ? & E1 & _). discriminate E1. }
  apply lift_ok in E as (added & _ & E). apply lift_ok in E as (present & _ & E).
  apply bind_okI in E as (u5 & w5 & E5 & E). apply bind_okI in E as (t6 & w6 & E6 & E). cbv zeta in E.
  apply issue_lease_ok in E as (-> & Hls & Hfresh).
  assert (leases (w_db w6) = leases (w_db w)) as H6
    by (injection E5 as <- <-; injection E6 as <- <-; exact H4).
  rewrite H6 in Hls, Hfresh. eexists _, _.
  split; [exact Hrow|]. split; [split; [done|]; exists gd, gp; by rewrite Em|].
  split; [by exists ws|]. split; [reflexivity|]. split; [reflexivity|].
  split; [reflexivity|]. split; [reflexivity|]. done.
Qed.

Lemma grant_aws_ok caller id t sc k req cred w v w' :
  grant_aws caller id t sc k req cred w = (Ok v, w') ->
  exists lease, v = to_wire lease /\ lease_drydock_id lease = caller /\ lease_type lease = t
    /\ revoked lease = false
    /\ existsb (by_lease (lease_id lease)) (leases (w_db w)) = false
    /\ leases (w_db w') = leases (w_db w) ++ [lease_to_row lease].
Proof.
  unfold grant_aws. intros E. apply bind_okI in E as (u1 & w1 & E1 & E).
  apply bind_okI in E as (u2 & w2 & E2 & E). apply bind_okI in E as (t3 & w3 & E3 & E). cbv zeta in E.
  assert (leases (w_db w1) = leases (w_db w)) as H1.
  { assert (preserves (leases_are (leases (w_db w)))
      (on_os_error (_materialize_storage_credentials caller cred) materialization_failed)) as Hk.
    { assert (forall files, preserves (leases_are (leases (w_db w))) (write_files caller files)) as Hwf.
      { induction files as [|[n x] l IH]; cbn [write_files]; unfold unlink, write_bytes, chmod_ro, os_error;
          wpres; by apply preserves_modify. }
      unfold _materialize_storage_credentials, materialization_failed. wpres. }
    specialize (Hk w eq_refl). by rewrite E1 in Hk. }
  apply issue_lease_ok in E as (-> & Hls & Hfresh).
  assert (leases (w_db w3) = leases (w_db w)) as H3
    by (injection E2 as <- <-; injection E3 as <- <-; exact H1).
  rewrite H3 in Hls, Hfresh. eexists. repeat (split; [reflexivity|]). split; done.
Qed.
End Grants.

(** ** Superseding, and the count of active AWS leases *)

Definition aws_row (r : lease_row) : bool :=
  (lr_type r =s "STORAGE_MOUNT") || (lr_type r =s "INFRA_PROVISION").
Definition active_aws (desk : string) (r : lease_row) : bool := active_of desk r && aws_row r.
Definition aws_count (desk : string) (t : list lease_row) : nat := tbl_count (active_aws desk) t.

Lemma is_aws_row r l : _row_to_lease r = Ok l -> is_aws l = aws_row r.
Proof.
  intros Hr. apply (row_to_lease_fields) in Hr as (_ & _ & Hty & _).
  unfold is_aws, is_type, aws_row. rewrite Hty. by destruct (lease_type l).
Qed.

Lemma find_aws_None desk d : find_active_aws_lease desk d = Ok None -> aws_count desk (leases d) = 0%nat.
Proof.
  unfold find_active_aws_lease, find_active_lease, list_active_leases_for_desk.
  intros (ls & Hls & [= Hf])%res_bind_ok. apply tbl_count_0. intros r Hr. unfold active_aws.
  destruct (active_of desk r) eqn:Ea; [|done]. cbn. apply mapE_ok in Hls.
  assert (In r (order_by le_issued (tbl_select (active_of desk) (leases d)))) as Hin
    by (apply order_by_In, tbl_select_In; done).
  assert (exists l, In l ls /\ _row_to_lease r = Ok l) as (l & Hl & Hrl).
  { clear -Hls Hin. induction Hls as [|x y xs ys Hx _ IH]; [done|]. destruct Hin as [->|Hin].
    - exists y. split; [by left|done].
    - destruct (IH Hin) as (l & Hl & Hr). exists l. split; [by right|done]. }
  rewrite <- (is_aws_row r l Hrl). by apply (find_none _ _ Hf).
Qed.

(** A revocation never raises a count of active rows, and lowers it when it hits one. *)
Lemma revoke_count (p : lease_row -> bool) q reason t :
  (forall r, p (revoke_row reason r) = false) ->
  (tbl_count p (tbl_update q (revoke_row reason) t) <= tbl_count p t)%nat
  /\ ((exists r, In r t /\ q r = true /\ p r = true) ->
      (tbl_count p (tbl_update q (revoke_row reason) t) < tbl_count p t)%nat).
Proof.
  intros Hp. unfold tbl_count, tbl_update. induction t as [|r t [IH1 IH2]]; cbn [map List.filter].
  - split; [done|]. by intros (r & [] & _).
  - destruct (q r) eqn:Eq.
    + rewrite Hp. destruct (p r) eqn:Ep; cbn [length]; split; try lia.
      intros (x & [->|Hx] & Hqx & Hpx); [congruence|]. apply IH2. eauto.
    + destruct (p r) eqn:Ep; cbn [length]; split; try lia; intros (x & [->|Hx] & Hqx & Hpx); try congruence.
      * assert (exists r, In r t /\ q r = true /\ p r = true) by eauto. specialize (IH2 H). lia.
      * apply IH2. eauto.
Qed.

Lemma active_of_revoked desk reason r : active_of desk (revoke_row reason r) = false.
Proof. unfold active_of; cbn. by rewrite andb_false_r. Qed.

Lemma active_aws_revoked desk reason r : active_aws desk (revoke_row reason r) = false.
Proof. unfold active_aws. by rewrite active_of_revoked. Qed.

Lemma fromisoformat_exn_class s e : fromisoformat_exn s = Err e -> exn_class e = "ValueError".
Proof. unfold fromisoformat_exn. destruct (fromisoformat s); [done|]. by intros [= <-]. Qed.

Lemma row_to_lease_exn r e : _row_to_lease r = Err e -> exn_class e = "ValueError".
Proof.
  unfold _row_to_lease. destruct (CapabilityType_of _); [|by intros [= <-]].
  unfold mbind, res_bind.
  destruct (fromisoformat_exn (lr_issued_at r)) eqn:E1; [|intros [= <-]; by eapply fromisoformat_exn_class].
  destruct (lr_expiry r) as [s|]; [|done]. destruct (is_empty s); [done|].
  destruct (fromisoformat_exn s) eqn:E2; [done|]. intros [= <-]. by eapply fromisoformat_exn_class.
Qed.

Lemma find_active_exn p desk d e : find_active_lease p desk d = Err e -> exn_class e = "ValueError".
Proof.
  unfold find_active_lease, list_active_leases_for_desk. generalize (order_by le_issued
    (tbl_select (active_of desk) (leases d))). intros l.
  assert (forall e, mapE _row_to_lease l = Err e -> exn_class e = "ValueError") as Hm.
  { induction l as [|r l IH]; cbn; [done|]. intros e0. unfold mbind, res_bind.
    destruct (_row_to_lease r) eqn:Er; [|intros [= <-]; by eapply row_to_lease_exn].
    destruct (mapE _row_to_lease l) eqn:El; [done|]. intros [= <-]. by apply IH. }
  unfold mbind, res_bind. destruct (mapE _ l); [done|]. intros [= <-]. by apply Hm.
Qed.

Section Supersede.
Context `{Env}.

Lemma supersede_loop_ends fuel caller id reason w :
  (tbl_count (active_of caller) (leases (w_db w)) < fuel)%nat ->
  match supersede_loop fuel caller id reason w with
  | (Ok _, w') => find_active_aws_lease caller (w_db w') = Ok None
  | (Err e, _) => exn_class e = "ValueError" \/ audit_error e
  end.
Proof.
  revert w. induction fuel as [|fuel IH]; intros w Hf; [lia|]. cbn [supersede_loop].
  rewrite reg_query_bind. destruct (find_active_aws_lease caller (w_db w)) as [[l|]|e] eqn:E; [|exact E|].
  2:{ left. by eapply find_active_exn. }
  pose proof E as E0. apply active_lease_row in E0 as (r & Hr & Ha & Hrow & _).
  apply row_to_lease_fields in Hrow as (Hid & _).
  rewrite reg_bind. unfold revoke_lease.
  rewrite (bind_ok _ _ _ _ _ (revoke_where_eq _ _ _)), ret_eq. cbn [fst snd].
  set (w1 := set_db _ w).
  destruct (emit_audit_cases "lease.released" (Some caller) id "RequestCapability" "ok"
    [("lease_id", JStr (lease_id l)); ("reason", JStr reason)] w1 eq_refl) as (o & w2 & E2 & Hv & _ & Ho).
  injection Hv as Hd _ _. unfold mbind, M_bind. rewrite E2. destruct o as [x|e]; [|by right]. apply IH. rewrite Hd.
  cbn [w_db w1 set_db leases set_leases].
  assert (tbl_count (active_of caller) (tbl_update (fun x => by_lease (lease_id l) x && negb (lr_revoked x))
            (revoke_row "superseded") (leases (w_db w)))
          < tbl_count (active_of caller) (leases (w_db w)))%nat; [|lia].
  apply revoke_count; [by apply active_of_revoked|]. exists r. split; [done|]. split; [|done].
  unfold active_of in Ha. apply andb_true_iff in Ha as [_ Ha]. unfold by_lease.
  by rewrite Hid, String.eqb_refl, Ha.
Qed.

Lemma supersede_count caller id reason w :
  match supersede caller id reason w with
  | (Ok _, w') => aws_count caller (leases (w_db w')) = 0%nat
  | (Err e, _) => exn_class e = "ValueError" \/ audit_error e
  end.
Proof.
  unfold supersede. rewrite reg_gets_bind.
  pose proof (supersede_loop_ends (S (length (leases (w_db w)))) caller id reason w) as Hs.
  assert (tbl_count (active_of caller) (leases (w_db w)) < S (length (leases (w_db w))))%nat as Hc
    by (unfold tbl_count; pose proof (List.filter_length_le (active_of caller) (leases (w_db w))); lia).
  specialize (Hs Hc). destruct (supersede_loop _ _ _ _ w) as [[u|e] w']; [|exact Hs].
  by apply find_aws_None.
Qed.

(** The "while True" loop that supersedes a desk's AWS leases always ends: it never runs out of the
    rounds the number of leases allows, and it leaves the desk without an active STORAGE_MOUNT
    or INFRA_PROVISION lease unless a stored lease row cannot be decoded or the audit log cannot be written. *)
Theorem supersede_terminates caller id reason w :
  match supersede caller id reason w with
  | (Ok _, w') => aws_count caller (leases (w_db w')) = 0%nat
  | (Err e, _) => exn_class e = "ValueError" \/ audit_error e
  end.
Proof. apply supersede_count. Qed.
End Supersede.
