(* ===== verification/BrokerLeases.v ===== *)
(** The life of a lease: what any granted request leaves in the lease table, at most one
    active AWS lease per desk in every reachable state, and release. *)

From S2P Require Import Prelude PyStr PyVal Regex Datetime Registry RegistryFacts Policy World Rpc WorldFacts RpcFacts Storage Broker BrokerFacts BrokerGrants.
From Stdlib Require Import List.

Definition is_aws_type (t : CapabilityType) : bool :=
  match t with STORAGE_MOUNT | INFRA_PROVISION => true | _ => false end.

(** ** A granted AWS request *)

Section Grants.
Context `{Env} (caller : string).

(** The part of the world the policy checks read. *)
Lemma others_reads w w1 : others caller w w1 ->
  load_desk_policy caller (w_db w1) = load_desk_policy caller (w_db w)
  /\ _lookup_drydock caller (w_db w1) = _lookup_drydock caller (w_db w).
Proof.
  intros (Hd & _). unfold load_desk_policy, _lookup_drydock, list_drydocks. by rewrite Hd.
Qed.

Lemma others_refl w : NoDup (map lr_lease_id (leases (w_db w))) -> others caller w w.
Proof. intros Hnd. repeat (split; [done|]). done. Qed.

(** The lease table between the superseding and the new lease: only the caller's rows
    differ from the table before, and none of them is an active AWS lease. *)
Definition superseded_from (w : world) (before : list lease_row) : Prop :=
  aws_count caller before = 0%nat
  /\ tbl_select (fun r => negb (lr_drydock_id r =s caller)) before
     = tbl_select (fun r => negb (lr_drydock_id r =s caller)) (leases (w_db w)).

Lemma supersede_ok id reason w u w1 :
  NoDup (map lr_lease_id (leases (w_db w))) ->
  supersede caller id reason w = (Ok u, w1) ->
  others caller w w1 /\ superseded_from w (leases (w_db w1)).
Proof.
  intros Hnd E. pose proof (others_supersede caller w id reason w (others_refl w Hnd)) as Ho.
  rewrite E in Ho. cbn [snd] in Ho. split; [done|].
  pose proof (supersede_count caller id reason w) as Hs. rewrite E in Hs.
  split; [done|]. apply Ho.
Qed.

(** The tail both AWS handlers share, from the world [w1] the superseding left. *)
Lemma aws_tail req w w1 row t sc id k robj cred w3 v w' :
  others caller w w1 -> superseded_from w (leases (w_db w1)) ->
  load_desk_policy caller (w_db w1) = Some row -> authorized row req ->
  (exists ws, _lookup_drydock caller (w_db w1) = Some ws /\ container_id ws <> "") ->
  outside w1 w3 -> t = request_type req ->
  grant_aws caller id t sc k robj cred w3 = (Ok v, w') ->
  exists before, superseded_from w before /\ grant_of caller req w before v w'.
Proof.
  intros Ho Hs Hrow Ha (ws & Hws & Hc) (Hd3 & _) -> Hg. exists (leases (w_db w1)). split; [done|].
  destruct (others_reads w w1 Ho) as [Hl Hk]. rewrite Hl in Hrow. rewrite Hk in Hws.
  apply grant_aws_ok in Hg as (lease & Hv & Hdd & Ht & Hr & Hf & Hls). rewrite Hd3 in Hf, Hls.
  exists row, lease. repeat (split; [done|]). split; [by exists ws|]. done.
Qed.

Lemma minting_ok {A} (m : W A) w a w1 : minting m w = (Ok a, w1) -> m w = (Ok a, w1).
Proof.
  unfold minting, catch. destruct (m w) as [[x|e] w2]; [done|].
  repeat case_goal; discriminate.
Qed.

Lemma storage_grant sb id b p m w v w' :
  (forall be, sb = Some be -> LawfulStorage be) -> NoDup (map lr_lease_id (leases (w_db w))) ->
  _handle_storage_request sb caller id b p m w = (Ok v, w') ->
  exists before, superseded_from w before /\ grant_of caller (ReqStorage b p m) w before v w'.
Proof.
  intros Hsb Hnd E. unfold _handle_storage_request in E. destruct sb as [be|]; [|discriminate E].
  specialize (Hsb be eq_refl).
  apply bind_okI in E as (u & w1 & E1 & E). apply supersede_ok in E1 as [Ho Hs]; [|done].
  apply bind_okI in E as (row & w2 & E2 & E). apply load_policy_ok in E2 as [-> Hrow].
  apply lift_ok in E as (u1 & Hc & E). apply check_capability_ok in Hc.
  apply lift_ok in E as (l & Hl & E). apply policy_list_ok in Hl.
  destruct (matches_storage_scope _ l) eqn:Em; cbn [negb] in E.
  2:{ apply bind_okI in E as (? & ? & _ & E). discriminate E. }
  apply bind_okI in E as (ws & w2 & E2 & E). apply running_ok in E2 as (-> & Hws & Hcid).
  apply bind_okI in E as (cred & w3 & E3 & E). apply minting_ok in E3.
  eapply aws_tail; [exact Ho|exact Hs|exact Hrow| |by exists ws| |reflexivity|exact E].
  - split; [done|]. by exists l.
  - pose proof (mint_outside caller b p m w1) as Hm. by rewrite E3 in Hm.
Qed.

Lemma provision_grant sb id acts w v w' :
  (forall be, sb = Some be -> LawfulStorage be) -> NoDup (map lr_lease_id (leases (w_db w))) ->
  _handle_provision_request sb caller id acts w = (Ok v, w') ->
  exists before, superseded_from w before /\ grant_of caller (ReqProvision acts) w before v w'.
Proof.
  intros Hsb Hnd E. unfold _handle_provision_request in E. destruct sb as [be|]; [|discriminate E].
  specialize (Hsb be eq_refl).
  apply bind_okI in E as (u & w1 & E1 & E). apply supersede_ok in E1 as [Ho Hs]; [|done].
  apply bind_okI in E as (row & w2 & E2 & E). apply load_policy_ok in E2 as [-> Hrow].
  apply lift_ok in E as (u1 & Hc & E). apply check_capability_ok in Hc.
  apply lift_ok in E as (l & Hl & E). apply policy_list_ok in Hl.
  destruct (matches_provision_actions _ l) eqn:Em; cbn [negb] in E.
  2:{ apply bind_okI in E as (? & ? & _ & E). discriminate E. }
  apply bind_okI in E as (ws & w2 & E2 & E). apply running_ok in E2 as (-> & Hws & Hcid).
  apply bind_okI in E as (cred & w3 & E3 & E). apply minting_ok in E3.
  eapply aws_tail; [exact Ho|exact Hs|exact Hrow| |by exists ws| |reflexivity|exact E].
  - split; [done|]. by exists l.
  - pose proof (mint_provision_outside caller acts w1) as Hm. by rewrite E3 in Hm.
Qed.
End Grants.

Section Main.
Context `{Env} (backend : SecretsBackend) (storage_backend : option StorageBackend)
  `{!LawfulSecrets backend} (storage_lawful : forall b, storage_backend = Some b -> LawfulStorage b).

(** C5: RequestCapability grants only what the caller's policy allows: when it answers with a lease,
    the parameters passed validation, the caller's stored policy holds the capability kind and covers the
    secret, bucket scope, IAM actions or domain and port asked for, the caller has a container, and the
    lease, active, fresh and issued to the caller, is the one row added. For AWS leases the row
    is added to a table in which the caller has no active AWS lease left and every other desk's leases
    are as they were; for the other kinds the table is otherwise unchanged. *)
Theorem request_capability_grants caller params id w v w' :
  NoDup (map lr_lease_id (leases (w_db w))) ->
  request_capability backend storage_backend params id (Some caller) w = (Ok v, w') ->
  exists req before,
    _validate_request_params params = Ok req /\ grant_of caller req w before v w'
    /\ if is_aws_type (request_type req) then superseded_from caller w before
       else before = leases (w_db w).
Proof.
  intros Hnd E. unfold request_capability in E. apply lift_ok in E as (req & Hreq & E).
  exists req. destruct req as [n src|b p m|acts|d p].
  - apply secret_grant in E; [|done]. by eexists.
  - apply storage_grant in E as (before & Hb & Hg); [|done..]. by exists before.
  - apply provision_grant in E as (before & Hb & Hg); [|done..]. by exists before.
  - apply reach_grant in E. by eexists.
Qed.
End Main.

(** ** At most one active AWS lease per desk *)

(** [leads P Q m]: from a world that satisfies [P], [m] ends, returning or raising, in one
    that satisfies [Q]. *)
Definition leads {A} (P Q : world -> Prop) (m : W A) : Prop := forall w, P w -> Q (snd (m w)).

Lemma leads_weaken {A} (P Q : world -> Prop) (m : W A) :
  (forall w, P w -> Q w) -> preserves P m -> leads P Q m.
Proof. intros HPQ Hm w Hw. by apply HPQ, Hm. Qed.

Lemma leads_bind {A B} (P Q : world -> Prop) (m : W A) (k : A -> W B) :
  (forall w, P w -> Q w) -> preserves P m -> (forall a, leads P Q (k a)) -> leads P Q (m ≫= k).
Proof.
  intros HPQ Hm Hk w Hw. specialize (Hm w Hw). unfold mbind, M_bind.
  destruct (m w) as [[a|e] w1]; [by apply Hk | by apply HPQ].
Qed.

(** The desk has at most [n] active AWS leases. *)
Definition aws_le (n : nat) (desk : string) (w : world) : Prop :=
  (aws_count desk (leases (w_db w)) <= n)%nat.

#[export] Instance aws_le_stable n desk : Stable (aws_le n desk).
Proof. split; unfold aws_le; [intros w w' Hd _; by rewrite Hd | done]. Qed.

Lemma aws_le_S n desk w : aws_le n desk w -> aws_le (S n) desk w.
Proof. unfold aws_le. lia. Qed.

Lemma aws_count_app desk t r :
  aws_count desk (t ++ [r]) = (aws_count desk t + if active_aws desk r then 1 else 0)%nat.
Proof. unfold aws_count, tbl_count. rewrite List.filter_app, length_app. cbn. by destruct (active_aws desk r). Qed.

Lemma aws_count_others caller desk t :
  desk <> caller -> aws_count desk t = aws_count desk (tbl_select (fun r => negb (lr_drydock_id r =s caller)) t).
Proof.
  intros Hne. unfold aws_count, tbl_count, tbl_select. induction t as [|r t IH]; [done|]. cbn [List.filter].
  destruct (lr_drydock_id r =s caller) eqn:E; cbn [negb List.filter].
  - destruct (active_aws desk r) eqn:Ea; [|exact IH]. unfold active_aws, active_of in Ea. breflect. congruence.
  - destruct (active_aws desk r); cbn [length]; by rewrite IH.
Qed.

Section OneLease.
Context `{Env}.

Lemma aws_revoke_where n desk p reason :
  preserves (aws_le n desk) (reg (revoke_where p reason)).
Proof.
  intros w Hw. unfold reg. rewrite revoke_where_eq. cbn [snd]. unfold aws_le, aws_count in *.
  cbn [w_db set_db leases set_leases].
  pose proof (proj1 (revoke_count (active_aws desk) (fun x => p x && negb (lr_revoked x)) reason
                       (leases (w_db w)) (active_aws_revoked desk reason))). lia.
Qed.

Lemma reg_bind_ret_state {A B} (m : DB A) (f : A -> B) w :
  snd (reg (a ← m; mret (f a)) w) = snd (reg m w).
Proof. unfold reg, mbind, M_bind. by destruct (m (w_db w)) as [[a|e] d]. Qed.

Lemma aws_revoke n desk i reason : preserves (aws_le n desk) (reg (revoke_lease i reason)).
Proof. intros w Hw. unfold revoke_lease. rewrite reg_bind_ret_state. by apply aws_revoke_where. Qed.

Lemma aws_supersede n desk caller id reason : preserves (aws_le n desk) (supersede caller id reason).
Proof.
  unfold supersede. apply preserves_bind; [wpres|]. intros m.
  induction m as [|m IH]; cbn [supersede_loop].
  - apply preserves_bind; [wpres|]. intros [l|]; [|wpres]. apply preserves_bind; [apply aws_revoke|]. intros _. wpres.
  - apply preserves_bind; [wpres|]. intros [l|]; [|wpres]. apply preserves_bind; [apply aws_revoke|]. intros _.
    apply preserves_bind; [wpres|]. intros _. exact IH.
Qed.

Lemma aws_unlink n desk c k : preserves (aws_le n desk) (unlink c k).
Proof. unfold unlink, os_error. wpres; by apply preserves_modify. Qed.
Lemma aws_write n desk c k d : preserves (aws_le n desk) (write_bytes c k d).
Proof. unfold write_bytes, os_error. wpres; by apply preserves_modify. Qed.
Lemma aws_chmod n desk c k : preserves (aws_le n desk) (chmod_ro c k).
Proof. unfold chmod_ro. wpres; by apply preserves_modify. Qed.
Hint Resolve aws_unlink aws_write aws_chmod aws_revoke aws_supersede : wp.

Lemma aws_write_files n desk c files : preserves (aws_le n desk) (write_files c files).
Proof. induction files as [|[k v] l IH]; cbn [write_files]; wpres. Qed.
Hint Resolve aws_write_files : wp.

Lemma aws_remove n desk c names : preserves (aws_le n desk) (remove_files c names).
Proof. induction names as [|k l IH]; cbn [remove_files]; unfold unlink_quiet; wpres. Qed.
Hint Resolve aws_remove : wp.

(** A lease of another kind leaves the count alone; an AWS lease adds one. *)
Lemma aws_insert n desk l :
  leads (aws_le n desk) (aws_le (if is_aws_type (lease_type l) then S n else n) desk) (reg (insert_lease l)).
Proof.
  intros w Hw. unfold reg, insert_lease. rewrite gets_bind.
  assert (aws_le (if is_aws_type (lease_type l) then S n else n) desk w) as Hw'
    by (destruct (is_aws_type _); [by apply aws_le_S|done]).
  destruct (existsb _ _).
  - rewrite throw_eq. cbn [snd]. by rewrite set_db_id.
  - rewrite modify_eq. cbn [snd]. unfold aws_le in *. cbn [w_db set_db leases set_leases].
    rewrite aws_count_app. unfold active_aws, aws_row, lease_to_row at 2 3. cbn [lr_type].
    destruct (lease_type l); cbn [is_aws_type CapabilityType_value] in *; cbn;
      try (destruct (active_of desk _); cbn; lia); rewrite ?andb_false_r; lia.
Qed.

Lemma aws_issue n desk l c id k r reason ex extra :
  leads (aws_le n desk) (aws_le (if is_aws_type (lease_type l) then S n else n) desk)
    (issue_lease l c id k r reason ex extra).
Proof.
  intros w Hw. pose proof (aws_insert n desk l w Hw) as Hi. unfold issue_lease. unfold mbind at 1, M_bind at 1.
  destruct (reg (insert_lease l) w) as [[u|e] w1]; [|exact Hi]. cbn [snd] in Hi.
  match goal with |- aws_le ?m _ (snd (?p w1)) => assert (preserves (aws_le m desk) p) as Hp by wpres end.
  by apply Hp.
Qed.

Lemma aws_secret desk backend c id n src :
  LawfulSecrets backend -> preserves (aws_le 1 desk) (_handle_secret_request backend c id n src).
Proof.
  intros Hb. assert (forall d, preserves (aws_le 1 desk) (sb_fetch backend n d)) as Hf
    by (intros d; apply outside_keeps; [apply _|]; intros w; apply fetch_outside).
  assert (forall l k r reason ex extra, lease_type l = SECRET ->
    preserves (aws_le 1 desk) (issue_lease l c id k r reason ex extra)) as Hi
    by (intros l k r reason ex extra Hl w; pose proof (aws_issue 1 desk l c id k r reason ex extra w) as Hx;
        rewrite Hl in Hx; exact Hx).
  unfold _handle_secret_request, fetch_secret, _materialize_to_host_secret_dir,
    materialization_failed, _materialize_secret.
  wpres; by apply Hi.
Qed.

Lemma aws_reach desk c id d p : preserves (aws_le 1 desk) (_handle_network_reach_request c id d p).
Proof.
  assert (forall l k r reason ex extra, lease_type l = NETWORK_REACH ->
    preserves (aws_le 1 desk) (issue_lease l c id k r reason ex extra)) as Hi
    by (intros l k r reason ex extra Hl w; pose proof (aws_issue 1 desk l c id k r reason ex extra w) as Hx;
        rewrite Hl in Hx; exact Hx).
  unfold _handle_network_reach_request, deny_reach, grant_reach, _materialize_network_reach,
    materialization_failed. wpres; by apply Hi.
Qed.

Lemma aws_grant desk c id t sc k r cred :
  is_aws_type t = true -> leads (aws_le 0 desk) (aws_le 1 desk) (grant_aws c id t sc k r cred).
Proof.
  intros Ht. unfold grant_aws, _materialize_storage_credentials, materialization_failed.
  do 3 (apply leads_bind; [by apply aws_le_S|wpres|intros ?]). intros w Hw.
  match goal with |- aws_le _ _ (snd (issue_lease ?l ?c ?id ?k ?r ?re ?ex ?ea w)) =>
    pose proof (aws_issue 0 desk l c id k r re ex ea w Hw) as Hx end.
  cbn [lease_type] in Hx. rewrite Ht in Hx. exact Hx.
Qed.

(** After superseding, the caller has none left, and one grant adds one. *)
Lemma aws_after_supersede {A} c id reason (k : unit -> W A) :
  (forall u, leads (aws_le 0 c) (aws_le 1 c) (k u)) ->
  preserves (aws_le 1 c) (supersede c id reason ≫= k).
Proof.
  intros Hk w Hw. pose proof (aws_supersede 1 c c id reason w Hw) as H1.
  pose proof (supersede_count c id reason w) as H0. unfold mbind at 1, M_bind at 1.
  destruct (supersede c id reason w) as [[u|e] w1]; [|exact H1]. apply Hk. unfold aws_le. lia.
Qed.

Lemma aws_storage sb c id b p m :
  (forall be, sb = Some be -> LawfulStorage be) ->
  preserves (aws_le 1 c) (_handle_storage_request sb c id b p m).
Proof.
  intros Hl. unfold _handle_storage_request. destruct sb as [be|]; [|wpres]. specialize (Hl be eq_refl).
  assert (preserves (aws_le 0 c) (mint be c b p m)) as Hm
    by (apply outside_keeps; [apply _|]; intros w; apply mint_outside).
  apply aws_after_supersede. intros u.
  do 3 (apply leads_bind; [apply aws_le_S|wpres|intros ?]).
  destruct (negb _); [apply leads_weaken; [apply aws_le_S|wpres]|].
  do 2 (apply leads_bind; [apply aws_le_S|wpres|intros ?]). by apply aws_grant.
Qed.

Lemma aws_provision sb c id acts :
  (forall be, sb = Some be -> LawfulStorage be) ->
  preserves (aws_le 1 c) (_handle_provision_request sb c id acts).
Proof.
  intros Hl. unfold _handle_provision_request. destruct sb as [be|]; [|wpres]. specialize (Hl be eq_refl).
  assert (preserves (aws_le 0 c) (mint_provision be c acts)) as Hm
    by (apply outside_keeps; [apply _|]; intros w; apply mint_provision_outside).
  apply aws_after_supersede. intros u.
  do 3 (apply leads_bind; [apply aws_le_S|wpres|intros ?]).
  destruct (negb _); [apply leads_weaken; [apply aws_le_S|wpres]|].
  do 2 (apply leads_bind; [apply aws_le_S|wpres|intros ?]). by apply aws_grant.
Qed.

Lemma aws_release n desk params id caller :
  preserves (aws_le n desk) (release_capability params id caller).
Proof.
  unfold release_capability, release_owned, cleanup_secret, cleanup_aws, _remove_from_host_secret_dir,
    _remove_storage_credentials, unlink_quiet.
  wpres.
Qed.

Lemma aws_request backend sb desk params id caller w :
  LawfulSecrets backend -> (forall be, sb = Some be -> LawfulStorage be) ->
  NoDup (map lr_lease_id (leases (w_db w))) ->
  aws_le 1 desk w -> aws_le 1 desk (snd (request_capability backend sb params id caller w)).
Proof.
  intros Hb Hs Hnd Hw. destruct caller as [c|]; [|exact Hw].
  destruct (String.eq_dec desk c) as [->|Hne].
  - revert w Hnd Hw. assert (preserves (aws_le 1 c) (request_capability backend sb params id (Some c))) as Hp;
      [|intros w _; apply Hp].
    unfold request_capability. apply preserves_bind; [wpres|].
    intros [n src|b p m|acts|d p]; [by apply aws_secret|by apply aws_storage|by apply aws_provision|apply aws_reach].
  - pose proof (others_request backend sb Hs c w params id w (others_refl c w Hnd)) as (_ & _ & _ & _ & Ho & _).
    unfold aws_le in *. rewrite (aws_count_others c desk) in * by done. by rewrite Ho.
Qed.
End OneLease.

(** ** Runs of the broker *)

Section Runs.
Context `{Env} (backend : SecretsBackend) (storage_backend : option StorageBackend)
  `{!LawfulSecrets backend} (storage_lawful : forall b, storage_backend = Some b -> LawfulStorage b).

(** One step of the daemon, as the lease table sees it: a request or a release by
    any caller, the revocation of a destroyed desk's leases, or anything that leaves the table
    alone. *)
Inductive broker_step : world -> world -> Prop :=
  | step_request params id caller w :
      broker_step w (snd (request_capability backend storage_backend params id caller w))
  | step_release params id caller w :
      broker_step w (snd (release_capability params id caller w))
  | step_destroy desk reason w :
      broker_step w (snd (reg (revoke_leases_for_desk desk reason) w))
  | step_other w w' : leases (w_db w') = leases (w_db w) -> broker_step w w'.

Definition leases_inv (w : world) : Prop :=
  NoDup (map lr_lease_id (leases (w_db w))) /\ forall desk, aws_le 1 desk w.

Lemma broker_step_inv w w' : broker_step w w' -> leases_inv w -> leases_inv w'.
Proof.
  intros Hs [Hnd Ha]. destruct Hs as [params id caller w|params id caller w|desk reason w|w w' E].
  - split; [|intros desk; by apply aws_request]. destruct caller as [c|]; [|done].
    by apply (others_request backend storage_backend storage_lawful c w params id w (others_refl c w Hnd)).
  - split; [|intros desk; by apply aws_release]. destruct caller as [c|]; [|done].
    by apply (others_release c w params id w (others_refl c w Hnd)).
  - split; [|intros d; by apply aws_revoke_where].
    unfold revoke_leases_for_desk, reg. rewrite revoke_where_eq. cbn [snd w_db set_db leases set_leases].
    by rewrite tbl_update_map.
  - unfold leases_inv, aws_le. by rewrite E.
Qed.

(** C4: In every state the broker can reach from an empty lease table, under any interleaving of
    requests and releases by any desks, granted, refused or failed at any point, with desk destructions
    and anything else in between, each desk holds at most one active AWS lease (STORAGE_MOUNT and
    INFRA_PROVISION together), and lease ids are unique. *)
Theorem one_active_aws_lease w w' :
  leases (w_db w) = [] -> rtc broker_step w w' ->
  NoDup (map lr_lease_id (leases (w_db w')))
  /\ forall desk, (aws_count desk (leases (w_db w')) <= 1)%nat.
Proof.
  intros E Hr. assert (leases_inv w) as H0.
  { unfold leases_inv, aws_le. rewrite E. split; [constructor|]. intros desk. cbn. lia. }
  clear E. revert H0. induction Hr as [w|w1 w2 w3 Hs _ IH]; [done|].
  intros H0. by apply IH, (broker_step_inv w1).
Qed.
End Runs.

(** ** Witnesses *)

Lemma request_capability_grants_witness :
  exists v before, fst (demo_request (storage_params "bucket" "prefix" "rw") 2 "dock_a" granted_world) = Ok v
    /\ superseded_from "dock_a" granted_world before
    /\ @grant_of "dock_a" (ReqStorage "bucket" "prefix" "rw") granted_world before v
         (snd (demo_request (storage_params "bucket" "prefix" "rw") 2 "dock_a" granted_world)).
Proof.
  unfold demo_request.
  destruct (@request_capability demo_env demo_secrets (Some demo_storage) (storage_params "bucket" "prefix" "rw")
    (JInt 2) (Some "dock_a") granted_world) as [r w'] eqn:E.
  assert (is_ok r = true) as Hr by (replace r with (fst (r, w')) by done; rewrite <- E; vm_compute; reflexivity).
  destruct r as [v|]; [|discriminate Hr]. exists v.
  destruct (@request_capability_grants demo_env demo_secrets (Some demo_storage) _ demo_storage_lawful "dock_a"
    (storage_params "bucket" "prefix" "rw") (JInt 2) granted_world v w' granted_world_NoDup E)
    as (req & before & Hreq & Hg & Hb).
  assert (req = ReqStorage "bucket" "prefix" "rw") as -> by (vm_compute in Hreq; congruence).
  exists before. split; [reflexivity|]. split; [exact Hb|exact Hg].
Defined.

Lemma one_active_aws_lease_witness :
  let w' := snd (demo_request (storage_params "bucket" "prefix" "rw") 2 "dock_a" granted_world) in
  length (leases (w_db w')) = 2%nat /\ (aws_count "dock_a" (leases (w_db w')) <= 1)%nat.
Proof.
  cbv zeta. split; [vm_compute; reflexivity|]. unfold granted_world, demo_request.
  apply (@one_active_aws_lease demo_env demo_secrets (Some demo_storage) _ demo_storage_lawful demo_world);
    [reflexivity|].
  eapply rtc_l; [exact (step_request _ _ (storage_params "bucket" "prefix/x" "ro") (JInt 1) (Some "dock_a") demo_world)|].
  eapply rtc_l; [exact (step_request _ _ (storage_params "bucket" "prefix" "rw") (JInt 2) (Some "dock_a") _)|].
  apply rtc_refl.
Defined.
