(* ===== verification/BrokerRelease.v ===== *)
(** Releasing a lease, retrying a request, and what refusals leave behind. *)

From S2P Require Import Prelude PyStr PyVal Regex Datetime Registry RegistryFacts Policy World Rpc WorldFacts RpcFacts Storage Broker BrokerFacts BrokerGrants BrokerLeases.
From Stdlib Require Import List.

(** ** Release *)

Section Release.
Context `{Env}.

Definition lease_not_found (i : string) : exn :=
  RpcError (-32012) "lease_not_found" (Some (JObj [("lease_id", JStr i)])).

(** The lease id of a well-formed release request. *)
Definition release_target (params : json) (i : string) : Prop :=
  exists o, params = JObj o /\ jget "lease_id" o = JStr i /\ i <> "".

Lemma release_eq params id c i w :
  release_target params i ->
  release_capability params id (Some c) w
  = match get_lease i (w_db w) with
    | Ok None => (Err (lease_not_found i), w)
    | Ok (Some l) => if lease_drydock_id l =s c then release_owned c i id l w
                     else (Err (lease_not_found i), w)
    | Err e => (Err e, w)
    end.
Proof.
  intros (o & -> & Ho & Hi). unfold release_capability. rewrite Ho.
  destruct (is_empty i) eqn:E; [destruct i; done|]. rewrite reg_query_bind.
  destruct (get_lease i (w_db w)) as [[l|]|e]; [|done|done].
  by destruct (lease_drydock_id l =s c).
Qed.

(** ReleaseCapability tells a desk nothing about other desks' leases: for a lease of another desk it
    gives exactly the answer it gives for an id that does not exist, and changes nothing. *)
Theorem release_foreign_like_missing params id c i w :
  release_target params i ->
  match get_lease i (w_db w) with
  | Ok None => True
  | Ok (Some l) => lease_drydock_id l <> c
  | Err _ => False
  end ->
  release_capability params id (Some c) w = (Err (lease_not_found i), w).
Proof.
  intros Ht Hl. rewrite (release_eq _ _ _ _ _ Ht).
  destruct (get_lease i (w_db w)) as [[l|]|e]; [|done|done].
  by apply String.eqb_neq in Hl as ->.
Qed.

(** What the cleanup and the audit event leave alone. *)
Definition db_is (d : db) (w : world) : Prop := w_db w = d.

Lemma db_fs_op d : preserves (db_is d) fs_op.
Proof. intros w Hw. unfold fs_op. by destruct (fs_fault _) as [[? ?]|]. Qed.
Lemma db_unlink d c n : preserves (db_is d) (unlink c n).
Proof.
  unfold unlink, os_error. apply preserves_bind; [apply db_fs_op|]. intros [].
  destruct (is_dir_name n); [apply preserves_throw|by apply preserves_modify].
Qed.
Lemma db_unlink_quiet d c n : preserves (db_is d) (unlink_quiet c n).
Proof.
  unfold unlink_quiet, on_os_error. apply preserves_catch; [apply db_unlink|]. intros e.
  destruct (is_os_error e); [apply preserves_ret|apply preserves_throw].
Qed.
Lemma db_remove d c names : preserves (db_is d) (remove_files c names).
Proof.
  induction names as [|n l IH]; cbn [remove_files]; [apply preserves_ret|].
  apply preserves_bind; [apply db_unlink_quiet|]. by intros [].
Qed.
Lemma db_query {A} d (f : db -> res exn A) : preserves (db_is d) (reg_query f).
Proof. intros w Hw. unfold reg_query, reg, query. cbn. by rewrite set_db_id. Qed.
Lemma db_emit d ev pr id m r dt : preserves (db_is d) (emit_audit ev pr id m r dt).
Proof. apply (quiet_preserves w_db (fun x => x = d)), quiet_db, quiet_state, quiet_emit. Qed.

Lemma db_cleanup_secret d c l : preserves (db_is d) (cleanup_secret c l).
Proof.
  unfold cleanup_secret. destruct (jget "source_drydock_id" _); try apply preserves_ret.
  destruct (jget "secret_name" _); try apply preserves_ret. destruct (negb _); [|apply preserves_ret].
  apply preserves_bind; [apply db_query|]. intros [x|]; [apply preserves_ret|apply db_unlink_quiet].
Qed.
Lemma db_cleanup_aws d c : preserves (db_is d) (cleanup_aws c).
Proof.
  unfold cleanup_aws. apply preserves_bind; [apply db_query|].
  intros [x|]; [apply preserves_ret|apply db_remove].
Qed.

(** The revocation is the only change of the database. *)
Lemma release_owned_db c i id l w r w' :
  release_owned c i id l w = (r, w') ->
  w_db w' = snd (revoke_lease i "released" (w_db w))
  /\ (forall v, r = Ok v -> v = JObj [("lease_id", JStr i);
        ("revoked", JBool match fst (revoke_lease i "released" (w_db w)) with Ok b => b | Err _ => false end)]).
Proof.
  unfold release_owned. rewrite reg_bind. unfold revoke_lease.
  rewrite (bind_ok _ _ _ _ _ (revoke_where_eq _ _ _)), ret_eq. cbn [fst snd].
  set (b := rowcount_pos _). set (d := set_leases _ (w_db w)). set (w1 := set_db d w). intros E.
  assert (db_is d w1) as H1 by done. split.
  - match type of E with ?m w1 = _ => assert (preserves (db_is d) m) as Hp end.
    { apply preserves_bind; [case_goal; [apply db_cleanup_secret|apply preserves_ret]|]. intros _.
      apply preserves_bind; [case_goal; [apply db_cleanup_aws|apply preserves_ret]|]. intros _.
      apply preserves_bind; [|intros _; apply preserves_ret]. destruct b; [|apply preserves_ret].
      apply preserves_bind; [apply db_emit|]. intros _. apply preserves_ret. }
    specialize (Hp w1 H1). by rewrite E in Hp.
  - intros v ->. apply bind_okI in E as (? & w2 & _ & E). apply bind_okI in E as (? & w3 & _ & E).
    apply bind_okI in E as (? & w4 & _ & E). by injection E as <- _.
Qed.

Lemma get_lease_first i d l :
  get_lease i d = Ok (Some l) ->
  exists r, tbl_first (by_lease i) (leases d) = Some r /\ _row_to_lease r = Ok l.
Proof.
  unfold get_lease. destruct (tbl_first (by_lease i) (leases d)) as [r|]; [|done].
  intros (l' & Hl & [= ->])%res_bind_ok. eauto.
Qed.

(** Decoding a row whose [revoked] and [revocation_reason] columns changed. *)
Lemma row_to_lease_revoked reason r l :
  _row_to_lease r = Ok l ->
  exists l', _row_to_lease (revoke_row reason r) = Ok l' /\ revoked l' = true
             /\ lease_drydock_id l' = lease_drydock_id l.
Proof.
  unfold _row_to_lease. cbn [revoke_row lr_type lr_issued_at lr_expiry lr_lease_id lr_drydock_id lr_scope
    lr_issuer lr_revoked lr_reason].
  destruct (CapabilityType_of (lr_type r)); [|done].
  intros (t & Ht & (x & Hx & [= <-])%res_bind_ok)%res_bind_ok. rewrite Ht. cbn. rewrite Hx. cbn. eauto.
Qed.

(** Releasing a lease of one's own that is decodable: an answered release reports whether the lease was still
    active, marks exactly that lease released (an earlier revocation keeps its reason), and a second
    release, whatever its request id, answers "revoked": false and changes nothing at all. *)
Theorem release_capability_once params id id2 c i l w v w' :
  NoDup (map lr_lease_id (leases (w_db w))) ->
  release_target params i -> get_lease i (w_db w) = Ok (Some l) -> lease_drydock_id l = c ->
  release_capability params id (Some c) w = (Ok v, w') ->
  v = JObj [("lease_id", JStr i); ("revoked", JBool (negb (revoked l)))]
  /\ w_db w' = set_leases (tbl_update (fun x => by_lease i x && negb (lr_revoked x)) (revoke_row "released")
                             (leases (w_db w))) (w_db w)
  /\ release_capability params id2 (Some c) w'
     = (Ok (JObj [("lease_id", JStr i); ("revoked", JBool false)]), w').
Proof.
  intros Hnd Ht Hl Hc E. rewrite (release_eq _ _ _ _ _ Ht), Hl, Hc, String.eqb_refl in E.
  apply release_owned_db in E as [Hdb Hv]. specialize (Hv v eq_refl).
  destruct (get_lease_first _ _ _ Hl) as (r & Hf & Hr).
  rewrite (revoke_lease_first _ _ _ r Hnd Hf) in Hdb, Hv. cbn [fst snd] in Hdb, Hv.
  pose proof (row_to_lease_fields r l Hr) as (_ & _ & _ & Hrev & _).
  split; [by rewrite Hrev|]. split; [done|].
  assert (exists l', get_lease i (w_db w') = Ok (Some l') /\ lease_drydock_id l' = c) as (l' & Hl' & Hd').
  { rewrite Hdb. unfold get_lease. cbn [leases set_leases]. rewrite tbl_first_update, Hf by done. cbn [option_map].
    destruct (by_lease i r && negb (lr_revoked r)).
    - destruct (row_to_lease_revoked "released" r l Hr) as (l' & -> & _ & Hd). exists l'. by rewrite Hd.
    - rewrite Hr. by exists l. }
  rewrite (release_eq _ _ _ _ _ Ht), Hl', Hd', String.eqb_refl. unfold release_owned.
  rewrite reg_bind, revoke_lease_none.
  2:{ intros x Hx. rewrite Hdb in Hx. by apply (revoked_not_active (by_lease i) "released" _ x) in Hx. }
  cbn [fst snd]. rewrite set_db_id, !andb_false_r. done.
Qed.
End Release.

(** ** The credential files *)

Section Files.
Context `{Env} (no_faults : forall n, fs_fault n = None).

Lemma unlink_quiet_ok c n w :
  is_dir_name n = false ->
  unlink_quiet c n w
  = (Ok tt, mkWorld (w_db w) (delete (c, n) (w_files w)) (w_host w) (w_audit w) (w_calls w) (w_ticks w) (w_uuids w)
              (S (w_fsops w))).
Proof.
  intros Hn. unfold unlink_quiet, on_os_error, catch, unlink, mbind, M_bind, fs_op.
  rewrite no_faults. by rewrite Hn.
Qed.

Lemma remove_files_ok c names w :
  (forall n, In n names -> is_dir_name n = false) ->
  let '(r, w') := remove_files c names w in
  r = Ok tt /\ w_db w' = w_db w
  /\ forall d n, w_files w' !! (d, n)
       = if (d =s c) && existsb (String.eqb n) names then None else w_files w !! (d, n).
Proof.
  revert w. induction names as [|m names IH]; intros w Hd; cbn [remove_files].
  - rewrite ret_eq. split; [done|]. split; [done|]. intros d n. by rewrite andb_false_r.
  - rewrite (bind_ok _ _ _ _ _ (unlink_quiet_ok c m w (Hd m (or_introl eq_refl)))).
    specialize (IH (mkWorld (w_db w) (delete (c, m) (w_files w)) (w_host w) (w_audit w) (w_calls w) (w_ticks w)
      (w_uuids w) (S (w_fsops w))) (fun n Hn => Hd n (or_intror Hn))).
    destruct (remove_files c names _) as [r w']. destruct IH as (-> & Hdb & Hf). split; [done|]. split; [done|].
    intros d n. rewrite Hf. cbn [w_files existsb].
    destruct (String.eqb_spec d c) as [->|Hdc]; cbn [andb].
    + destruct (String.eqb_spec n m) as [->|Hnm]; cbn [orb].
      * rewrite lookup_delete_eq. by destruct (existsb _ names).
      * rewrite lookup_delete_ne by congruence. done.
    + rewrite lookup_delete_ne by congruence. done.
Qed.

(** The caller's credential files are gone. *)
Definition creds_gone (c : string) (w : world) : Prop :=
  forall n, In n _STORAGE_CRED_FILENAMES -> w_files w !! (c, n) = None.

#[local] Instance creds_gone_stable c : Stable (creds_gone c).
Proof. split; unfold creds_gone; [intros w w' _ Hf; by rewrite Hf | done]. Qed.

Lemma cleanup_aws_gone c w u w' :
  aws_count c (leases (w_db w)) = 0%nat -> cleanup_aws c w = (Ok u, w') -> creds_gone c w'.
Proof.
  intros H0. unfold cleanup_aws. rewrite reg_query_bind.
  destruct (find_active_aws_lease c (w_db w)) as [[l|]|e] eqn:E; [| |discriminate].
  - exfalso. unfold find_active_aws_lease in E.
    apply active_lease_row in E as (r & Hr & Ha & Hrow & Hp).
    rewrite (is_aws_row r l Hrow) in Hp. pose proof (proj1 (tbl_count_0 _ _) H0 r Hr) as Hx.
    unfold active_aws in Hx. rewrite Ha, Hp in Hx. discriminate Hx.
  - unfold _remove_storage_credentials. intros Hw.
    pose proof (remove_files_ok c _STORAGE_CRED_FILENAMES w) as Hr. rewrite Hw in Hr.
    destruct Hr as (_ & _ & Hf).
    { intros n. cbn [_STORAGE_CRED_FILENAMES In]. intros Hn. repeat destruct Hn as [<-|Hn]; done. }
    intros n Hn. rewrite Hf, String.eqb_refl. cbn [andb].
    destruct (existsb _ _) eqn:Ex; [done|]. exfalso.
    assert (existsb (String.eqb n) _STORAGE_CRED_FILENAMES = true); [|congruence].
    apply existsb_exists. exists n. split; [done|apply String.eqb_refl].
Qed.

(** When the file system does not fail, an answered release of a desk's only active AWS lease leaves none of
    the four aws_* credential files in the desk's secret directory. *)
Theorem release_removes_aws_files params id c i l w v w' :
  NoDup (map lr_lease_id (leases (w_db w))) -> (aws_count c (leases (w_db w)) <= 1)%nat ->
  release_target params i -> get_lease i (w_db w) = Ok (Some l) -> lease_drydock_id l = c ->
  is_aws l = true -> revoked l = false ->
  release_capability params id (Some c) w = (Ok v, w') -> creds_gone c w'.
Proof.
  intros Hnd H1 Ht Hl Hc Haws Hrev E. rewrite (release_eq _ _ _ _ _ Ht), Hl, Hc, String.eqb_refl in E.
  destruct (get_lease_first _ _ _ Hl) as (r & Hf & Hr).
  pose proof (row_to_lease_fields r l Hr) as (Hid & Hdesk & _ & Hrv & _).
  pose proof (tbl_first_Some _ _ _ Hf) as [Hin Hby].
  unfold release_owned in E. rewrite reg_bind, (revoke_lease_first _ _ _ r Hnd Hf) in E. cbn [fst snd] in E.
  rewrite <- Hrv, Hrev in E. cbn [negb] in E. rewrite !andb_true_r, Haws in E.
  assert (is_type SECRET l = false) as Hns.
  { unfold is_aws, is_type in *. by destruct (lease_type l). }
  rewrite Hns, ret_bind in E. set (w1 := set_db _ w) in E.
  apply bind_okI in E as (u2 & w2 & E2 & E). apply cleanup_aws_gone in E2.
  - match type of E with ?m w2 = _ => assert (preserves (creds_gone c) m) as Hp by wpres end.
    specialize (Hp w2 E2). by rewrite E in Hp.
  - cbn [w1 w_db set_db leases set_leases].
    assert (tbl_count (active_aws c) (tbl_update (fun x => by_lease i x && negb (lr_revoked x))
              (revoke_row "released") (leases (w_db w)))
            < tbl_count (active_aws c) (leases (w_db w)))%nat as Hlt.
    { apply revoke_count; [by apply active_aws_revoked|]. exists r. split; [done|].
      rewrite Hby, <- Hrv, Hrev. split; [done|]. unfold active_aws, active_of.
      rewrite <- Hdesk, Hc, String.eqb_refl, <- Hrv, Hrev. cbn [andb negb].
      by rewrite <- (is_aws_row r l Hr). }
    unfold aws_count in *. lia.
Qed.
End Files.

(** ** Retrying a request *)

Section Retry.
Context `{Env} (backend : SecretsBackend) (storage_backend : option StorageBackend)
  `{!LawfulSecrets backend} (storage_lawful : forall b, storage_backend = Some b -> LawfulStorage b).

(** C6: RequestCapability under its task log runs once per request id: any later call with
    the same id (whatever its parameters and caller) leaves the whole world as it is, so it mints no
    second credential and issues no second lease, and it gets the first answer back, the lease
    or the RPC error with its data; after a run that died of another exception it is told the
    request is in progress. *)
Theorem request_capability_retry params id caller w r w1 :
  NoDup (map lr_lease_id (leases (w_db w))) ->
  id <> JNull -> own_row (str_id id) w = None ->
  _request_capability backend storage_backend params id caller w = (r, w1) ->
  forall params2 caller2,
    _request_capability backend storage_backend params2 id caller2 w1 = (retry_answer (str_id id) r, w1).
Proof.
  intros Hnd Hid Hown E params2 caller2. unfold _request_capability in *.
  eapply with_task_log_retry; [exact Hid|exact Hown| |by left|exact E].
  intros w' Hw'. destruct caller as [c|]; [|done]. unfold own_row.
  assert (leases (w_db w') = leases (w_db w)) as El by (exact (f_equal leases (Hw' []))).
  assert (NoDup (map lr_lease_id (leases (w_db w')))) as Hnd' by (by rewrite El).
  pose proof (others_request backend storage_backend storage_lawful c w' params id w' (others_refl c w' Hnd'))
    as (_ & _ & Ht & _).
  by rewrite Ht.
Qed.
End Retry.

(** ** What a refusal leaves behind *)

(** The audit event of a NETWORK_REACH denial is not in the event vocabulary: the denial
    ends in the [ValueError] of [emit_audit], before the amendment is recorded and
    before the [narrowness_violated] answer. *)
Lemma reach_denial_unknown_event `{Env} c id d p gd gp reason w :
  deny_reach c id d p gd gp reason w
  = (Err (ValueError ("unknown audit event: " +:+ repr_str "lease.denied"
       +:+ " (known: " +:+ repr_sorted V2_EVENTS +:+ ")")), w).
Proof.
  unfold deny_reach. cbv zeta. apply bind_err. unfold emit_audit.
  assert (existsb (String.eqb "lease.denied") V2_EVENTS = false) as -> by (vm_compute; reflexivity).
  reflexivity.
Qed.

(** A desk with an active S3 lease, the capability and a storage scope for another bucket. *)
Definition refused_world : world :=
  mkWorld
    (set_leases
       [mkLeaseRow "ls_1" "dock_a" "STORAGE_MOUNT" [] "2024-01-01T00:00:00+00:00" None "daemon" false None]
       (set_drydocks
          [mkDockRow (mkDrydock "a" "p" "" "dock_a" "" "" "" "running" "c1" "" "" "" "" "" JNull "" None JNull)
             None (JList []) (JList []) (JList [JStr "request_storage_leases"]) (JList [JStr "s3://other/x"]) (JList [])
             (JList []) (JList []) (JObj [])]
          empty_db))
    {[ ("dock_a", "aws_session_token") := mkFile "tok" true ]} ∅ [] [] 0 0 0.

(** A refused storage request has already revoked the lease the desk held, while the
    credential files of that lease stay. *)
Lemma refused_storage_loses_lease :
  let run := @_handle_storage_request demo_env (Some (@StubStorageBackend (mkDatetime 0 true))) "dock_a"
               (JStr "r") "bucket" "prefix" "rw" refused_world in
  match fst run with Err (RpcError c m _) => c = -32006 /\ m = "narrowness_violated" | _ => False end
  /\ aws_count "dock_a" (leases (w_db refused_world)) = 1%nat
  /\ aws_count "dock_a" (leases (w_db (snd run))) = 0%nat
  /\ w_files (snd run) !! ("dock_a", "aws_session_token") = Some (mkFile "tok" true).
Proof. cbv zeta. vm_compute. repeat split. Qed.

(** ** Witnesses *)

Lemma demo_target i : i <> "" -> release_target (release_params i) i.
Proof. intros Hi. by exists [("lease_id", JStr i)]. Qed.

(** dock_b asks for dock_a's lease. *)
Lemma release_foreign_like_missing_witness :
  demo_release demo_lease_id 7 "dock_b" granted_world = (Err (lease_not_found demo_lease_id), granted_world).
Proof.
  apply (@release_foreign_like_missing demo_env); [by apply demo_target|]. vm_compute. discriminate.
Defined.

(** The lease of [granted_world], as the table gives it back. *)
Definition granted_lease : option CapabilityLease :=
  match get_lease demo_lease_id (w_db granted_world) with Ok o => o | Err _ => None end.

Lemma release_capability_once_witness :
  demo_release demo_lease_id 8 "dock_a" (snd (demo_release demo_lease_id 7 "dock_a" granted_world))
  = (Ok (JObj [("lease_id", JStr demo_lease_id); ("revoked", JBool false)]),
     snd (demo_release demo_lease_id 7 "dock_a" granted_world)).
Proof.
  destruct granted_lease as [l|] eqn:El; [|vm_compute in El; discriminate El].
  unfold demo_release.
  destruct (@release_capability demo_env (release_params demo_lease_id) (JInt 7) (Some "dock_a") granted_world)
    as [r w'] eqn:E. cbn [snd].
  assert (is_ok r = true) as Hr by (replace r with (fst (r, w')) by done; rewrite <- E; vm_compute; reflexivity).
  destruct r as [v|]; [|discriminate Hr].
  refine (proj2 (proj2 (@release_capability_once demo_env (release_params demo_lease_id) (JInt 7) (JInt 8) "dock_a"
    demo_lease_id l granted_world v w' granted_world_NoDup _ _ _ E))).
  - by apply demo_target.
  - vm_compute in El |- *. by rewrite El.
  - vm_compute in El. by injection El as <-.
Defined.

Lemma release_removes_aws_files_witness :
  w_files granted_world !! ("dock_a", "aws_session_token") = Some (mkFile "STUB-dock_a-TOKEN" true)
  /\ creds_gone "dock_a" (snd (demo_release demo_lease_id 7 "dock_a" granted_world)).
Proof.
  split; [vm_compute; reflexivity|].
  destruct granted_lease as [l|] eqn:El; [|vm_compute in El; discriminate El].
  unfold demo_release.
  destruct (@release_capability demo_env (release_params demo_lease_id) (JInt 7) (Some "dock_a") granted_world)
    as [r w'] eqn:E. cbn [snd].
  assert (is_ok r = true) as Hr by (replace r with (fst (r, w')) by done; rewrite <- E; vm_compute; reflexivity).
  destruct r as [v|]; [|discriminate Hr].
  apply (@release_removes_aws_files demo_env (fun _ => eq_refl) (release_params demo_lease_id) (JInt 7) "dock_a"
    demo_lease_id l granted_world v w' granted_world_NoDup).
  - vm_compute. lia.
  - by apply demo_target.
  - vm_compute in El |- *. by rewrite El.
  - vm_compute in El. by injection El as <-.
  - vm_compute in El. by injection El as <-.
  - vm_compute in El. by injection El as <-.
  - exact E.
Defined.

(** The retry of a granted request, by another caller and with other parameters. *)
Lemma request_capability_retry_witness :
  let run p c := @_request_capability demo_env demo_secrets (Some demo_storage) p (JInt 1) (Some c) in
  let first := run (storage_params "bucket" "prefix" "rw") "dock_a" demo_world in
  is_ok (fst first) = true /\ run JNull "dock_b" (snd first) = first.
Proof.
  cbv zeta. destruct (@_request_capability demo_env demo_secrets (Some demo_storage)
    (storage_params "bucket" "prefix" "rw") (JInt 1) (Some "dock_a") demo_world) as [r w'] eqn:E. cbn [fst snd].
  assert (is_ok r = true) as Hr by (replace r with (fst (r, w')) by done; rewrite <- E; vm_compute; reflexivity).
  split; [exact Hr|]. destruct r as [v|]; [|discriminate Hr].
  apply (@request_capability_retry demo_env demo_secrets (Some demo_storage) _ demo_storage_lawful
    (storage_params "bucket" "prefix" "rw") (JInt 1) (Some "dock_a") demo_world (Ok v) w');
    [apply List.NoDup_nil | discriminate | reflexivity | exact E].
Defined.
