(* ===== verification/BrokerNames.v ===== *)
(** What the request validators let through into paths, shell commands, ARNs and IAM
    policies, and what a minted AWS credential can reach. *)

From S2P Require Import Prelude PyStr PyVal Regex Datetime Registry Policy World Rpc WorldFacts RpcFacts Storage Broker BrokerFacts BrokerGrants.
From Stdlib Require Import List.

(** ** Validated requests *)

(** Every character class of the expression lies within [q]. *)
Fixpoint re_within (q : ascii -> bool) (r : re) : Prop :=
  match r with
  | REmpty | REps => True
  | RChars p => forall c, p c = true -> q c = true
  | RSeq r1 r2 | RAlt r1 r2 => re_within q r1 /\ re_within q r2
  | RStar r => re_within q r
  end.

Lemma re_within_lang q r s : re_within q r -> rlang r s -> all_chars q s = true.
Proof.
  intros Hw H. revert Hw. induction H as [|p c Hc|r1 r2 s1 s2 _ IH1 _ IH2|r1 r2 s _ IH|r1 r2 s _ IH|r|r c s1 s2 _ IH1 _ IH2];
    cbn [re_within]; intros Hw; try done.
  - cbn. by rewrite (Hw c Hc).
  - destruct Hw as [H1 H2]. rewrite all_chars_app, IH1, IH2; done.
  - by apply IH, Hw.
  - by apply IH, Hw.
  - specialize (IH1 Hw). specialize (IH2 Hw). cbn in IH1 |- *. rewrite all_chars_app.
    apply andb_true_iff in IH1 as [-> ->]. by rewrite IH2.
Qed.

Lemma re_within_upto q n p : (forall c, p c = true -> q c = true) -> re_within q (rupto n (RChars p)).
Proof. intros H. induction n as [|n IH]; cbn; auto. Qed.

Lemma re_within_between q m n p : (forall c, p c = true -> q c = true) -> re_within q (rbetween m n (RChars p)).
Proof. intros H. induction m as [|m IH]; cbn; [by apply re_within_upto|auto]. Qed.

(** The text consists of [q]-characters, up to newlines: [$] lets one through at the end. *)
Definition only (q : ascii -> bool) (s : string) : Prop :=
  all_chars (fun c => q c || Ascii.eqb c newline) s = true.

Lemma only_all q s : all_chars q s = true -> only q s.
Proof. apply all_chars_impl. by intros c ->. Qed.

Lemma re_match_only q r s : re_within q r -> re_match r s = true -> only q s.
Proof.
  intros Hw [H|(t & -> & H)]%re_match_lang; [by apply only_all, (re_within_lang q r)|].
  unfold only. rewrite all_chars_app. apply andb_true_iff. split; [|cbn; by rewrite orb_true_r].
  by apply only_all, (re_within_lang q r).
Qed.

(** One path component: no slash, no shell metacharacter. *)
Definition fqdn_char (c : ascii) : bool := label_char c || Ascii.eqb "." c.
Definition iam_char (c : ascii) : bool := action_char c || Ascii.eqb ":" c.

Lemma lower_alnum_label c : lower_alnum c = true -> fqdn_char c = true.
Proof. unfold fqdn_char, label_char. by intros ->. Qed.

Lemma label_within : re_within fqdn_char label_re.
Proof.
  split; [exact lower_alnum_label|]. split; [done|]. split; [|exact lower_alnum_label].
  apply re_within_upto. intros c. unfold fqdn_char. by intros ->.
Qed.

(** What the validated parts of a request are made of. *)
Definition well_formed (req : cap_request) : Prop :=
  match req with
  | ReqSecret n _ => only secret_char n
  | ReqStorage b p m => only bucket_char b /\ only prefix_char p /\ (m = "ro" \/ m = "rw")
  | ReqProvision acts => (1 <= length acts <= 64)%nat /\ Forall (only iam_char) acts
  | ReqReach d p => only fqdn_char d /\ 1 <= p <= 65535
  end.

Lemma rpc_error_ne {A} c m d (x : A) : rpc_error c m d = Ok x -> False.
Proof. done. Qed.

Lemma secret_scope_sound scope req : _validate_secret_scope scope = Ok req -> well_formed req.
Proof.
  unfold _validate_secret_scope. destruct (jget "secret_name" scope); try discriminate.
  destruct (re_match _SECRET_NAME_RE s) eqn:E; [|discriminate]. cbn [negb].
  apply (re_match_only secret_char) in E; [|by apply re_within_between].
  destruct (jget "source_drydock_id" scope); try discriminate; by intros [= <-].
Qed.

Lemma bucket_within : re_within bucket_char _BUCKET_RE.
Proof.
  assert (forall c, lower_alnum c = true -> bucket_char c = true) as Hl by (unfold bucket_char; by intros c ->).
  split; [exact Hl|]. split; [by apply re_within_between|exact Hl].
Qed.

Lemma storage_scope_sound scope req : _validate_storage_scope scope = Ok req -> well_formed req.
Proof.
  unfold _validate_storage_scope. destruct (jget "bucket" scope) as [| | | |b| |]; try discriminate.
  destruct (re_match _BUCKET_RE b) eqn:Eb; [|discriminate]. cbn [negb]. cbv zeta.
  apply (re_match_only bucket_char) in Eb; [|apply bucket_within].
  match goal with |- context [match (match ?x with _ => _ end) with _ => _ end] =>
    destruct (match x with JNull => JStr "" | p => p end) as [| | | |p| |]; try discriminate end.
  destruct (re_match _PREFIX_RE p) eqn:Ep; [|discriminate]. cbn [negb].
  apply (re_match_only prefix_char) in Ep; [|by apply re_within_upto].
  destruct (unhashable _); [discriminate|]. destruct (storage_mode _) as [m|] eqn:Em; [|discriminate].
  intros [= <-]. split; [done|]. split; [by apply strip_by_all|].
  unfold storage_mode in Em. destruct (jget_default "mode" _ _); try discriminate.
  destruct (_ || _) eqn:Eo; [|discriminate]. injection Em as <-.
  apply orb_true_iff in Eo as [Eo|Eo]; breflect; auto.
Qed.

Lemma valid_action_only a s : valid_action a = Ok s -> only iam_char s.
Proof.
  unfold valid_action. destruct a; try discriminate. destruct (re_match _IAM_ACTION_RE s0) eqn:E; [|discriminate].
  intros [= <-]. apply (re_match_only iam_char) in E; [done|].
  assert (forall c, action_char c = true -> iam_char c = true) as Ha by (unfold iam_char; by intros c ->).
  assert (re_within iam_char (rplus (RChars action_char))) as Hp by (split; exact Ha).
  split; [split; [exact Hp|split; [|exact Hp]]|]; intros c <-%Ascii.eqb_eq; done.
Qed.

Lemma provision_scope_sound scope req : _validate_provision_scope scope = Ok req -> well_formed req.
Proof.
  unfold _validate_provision_scope. destruct (jget "actions" scope) as [| | | | |l|]; try discriminate.
  destruct l as [|a l]; [discriminate|]. destruct (Nat.ltb_spec 64 (length (a :: l))) as [|Hlen]; [discriminate|].
  intros (acts & Ha & [= <-])%res_bind_ok. apply mapE_ok in Ha. split.
  - pose proof (Forall2_length Ha) as Hl. cbn [length] in *. lia.
  - apply List.Forall_forall. intros s Hs.
    destruct (Forall2_In_r _ _ _ _ Ha Hs) as (x & _ & Hx). by eapply valid_action_only.
Qed.

Lemma reach_scope_sound scope req : _validate_network_reach_scope scope = Ok req -> well_formed req.
Proof.
  unfold _validate_network_reach_scope. destruct (jget "domain" scope) as [| | | |d| |]; try discriminate.
  cbv zeta. destruct (re_match _ _) eqn:E; [|discriminate]. cbn [negb].
  apply (re_match_only fqdn_char) in E.
  2:{ pose proof label_within as Hl. assert (re_within fqdn_char (rchar ".")) as Hd
        by (intros c <-%Ascii.eqb_eq; done).
      split; [exact Hl|]. split; by split. }
  destruct (jget_default "port" _ scope) as [| |p| | | |]; try discriminate.
  destruct ((p <? 1) || (65535 <? p)) eqn:Ep; [discriminate|]. intros [= <-]. breflect. by split.
Qed.

(** Every request that passes validation is made of harmless text and in-range numbers: secret names
    hold only letters, digits, "_", "." and "-" (so no path separator and no shell metacharacter
    reaches the "sh -c" and the file paths they are put in), buckets and prefixes only
    their S3 alphabets, the mode is "ro" or "rw", there are 1 to 64 IAM actions over letters, digits,
    "*" and ":", domains are lower-case host-name text and ports lie in 1..65535; up to the newline that
    Python's "$" lets through. *)
Theorem validated_requests_well_formed params req :
  _validate_request_params params = Ok req -> well_formed req.
Proof.
  unfold _validate_request_params. destruct params; try discriminate. cbv zeta.
  destruct (unhashable _); [discriminate|]. destruct (negb _).
  - destruct (existsb _ _); discriminate.
  - destruct (jget "scope" kvs) as [| | | | | |scope]; try discriminate.
    repeat (destruct (_ =s _); [first [apply secret_scope_sound | apply storage_scope_sound
      | apply provision_scope_sound]|]). apply reach_scope_sound.
Qed.

Lemma validated_requests_well_formed_witness :
  well_formed (ReqStorage "data-bucket" "raw/2024" "rw").
Proof.
  apply (validated_requests_well_formed (JObj [("type", JStr "STORAGE_MOUNT");
    ("scope", JObj [("bucket", JStr "data-bucket"); ("prefix", JStr "/raw/2024/"); ("mode", JStr "rw")])])).
  vm_compute. reflexivity.
Defined.

(** The newline: a secret name and a domain that end in one pass. *)
Example secret_name_newline :
  _validate_request_params (JObj [("type", JStr "SECRET");
    ("scope", JObj [("secret_name", JStr ("key" +:+ String newline ""))])])
  = Ok (ReqSecret ("key" +:+ String newline "") None).
Proof. vm_compute. reflexivity. Qed.

Example reach_domain_newline :
  _validate_request_params (JObj [("type", JStr "NETWORK_REACH");
    ("scope", JObj [("domain", JStr ("a.com" +:+ String newline "."))])])
  = Ok (ReqReach ("a.com" +:+ String newline "") 443).
Proof. vm_compute. reflexivity. Qed.

(** The two directory names pass the secret-name check. *)
Example secret_name_dots :
  _validate_request_params (JObj [("type", JStr "SECRET"); ("scope", JObj [("secret_name", JStr "..")])])
  = Ok (ReqSecret ".." None).
Proof. vm_compute. reflexivity. Qed.
