(* ===== verification/DestroyFacts.v ===== *)
(** DestroyDesk: which rows, tokens, leases and files a destroy takes, that it reaches the
    whole subtree and nothing else, and that it ends, also on a cyclic table. *)

From S2P Require Import Prelude PyStr PyVal Datetime Registry RegistryFacts World Rpc WorldFacts Overlay Container DeskSpec Desks.
From Stdlib Require Import List.

(** ** What a destroy leaves of the database *)

Definition among (ids : list string) (i : string) : bool := existsb (String.eqb i) ids.
Definition kept_row (ids : list string) (r : dock_row) : bool := negb (among ids (id (dr_dock r))).
Definition kept_token (ids : list string) (r : token_row) : bool := negb (among ids (tk_drydock_id r)).

Definition lease_reads (r : lease_row) : bool := is_ok (_row_to_lease r).
Definition leases_read (d : db) : Prop := Forall (fun r => lease_reads r = true) (leases d).

Definition active_among (ids : list string) (r : lease_row) : bool :=
  among ids (lr_drydock_id r) && negb (lr_revoked r).

(** The desks [ids] are gone: their rows and tokens are deleted, their active leases are
    revoked (if all the leases of the table can be read), and nothing else has changed but
    the events. *)
Record gone (ids : list string) (d d' : db) : Prop := mkGone {
  gone_rows : drydocks d' = List.filter (kept_row ids) (drydocks d);
  gone_tokens : tokens d' = List.filter (kept_token ids) (tokens d);
  gone_leases : leases_read d ->
    leases d' = tbl_update (active_among ids) (revoke_row "desk_destroyed") (leases d);
  gone_rest : (task_log d', deskwatch_events d', yards d', amendments d', workload_leases d',
               migrations d', clarifications d')
              = (task_log d, deskwatch_events d, yards d, amendments d, workload_leases d,
                 migrations d, clarifications d)
}.

Lemma among_app a b i : among (a ++ b) i = among a i || among b i.
Proof. apply existsb_app. Qed.
Lemma among_In ids i : among ids i = true <-> In i ids.
Proof.
  unfold among. rewrite existsb_exists. split.
  - by intros (x & Hx & ->%String.eqb_eq).
  - intros Hi. exists i. split; [done|apply String.eqb_refl].
Qed.
Lemma among_perm a b i : (forall x, In x a <-> In x b) -> among a i = among b i.
Proof.
  intros Hab. destruct (among a i) eqn:E; symmetry.
  - by apply among_In, Hab, among_In.
  - destruct (among b i) eqn:E2; [|done]. apply among_In, Hab, among_In in E2. congruence.
Qed.

Lemma filter_filter_negb {A} (p q s : A -> bool) t :
  (forall x, s x = q x && p x) -> List.filter p (List.filter q t) = List.filter s t.
Proof.
  intros Hs. induction t as [|x t IH]; cbn; [done|]. rewrite Hs. destruct (q x); cbn; [|done].
  destruct (p x); by rewrite IH.
Qed.

Lemma reads_revoke reason r : lease_reads (revoke_row reason r) = lease_reads r.
Proof.
  unfold lease_reads, _row_to_lease. cbn [lr_type lr_issued_at lr_expiry revoke_row].
  destruct (CapabilityType_of (lr_type r)); [|done].
  destruct (fromisoformat_exn (lr_issued_at r)); cbn -[fromisoformat]; [|done].
  destruct (lr_expiry r) as [s|]; [|done]. destruct (is_empty s); [done|]. by destruct (fromisoformat_exn s).
Qed.

Lemma leases_read_update p reason d t :
  leases d = tbl_update p (revoke_row reason) t ->
  Forall (fun r => lease_reads r = true) t -> leases_read d.
Proof.
  unfold leases_read. intros -> Ht. apply Forall_tbl_update; [exact Ht|].
  intros r _ Hr. by rewrite reads_revoke.
Qed.

Lemma gone_nil d : gone [] d d.
Proof.
  assert (forall R (t : list R), List.filter (fun _ => true) t = t) as Hid by (induction t; cbn; congruence).
  split; [symmetry; apply Hid..| |done]. intros _. unfold tbl_update. symmetry. apply map_id.
Qed.

Lemma gone_trans a b d d1 d2 : gone a d d1 -> gone b d1 d2 -> gone (a ++ b) d d2.
Proof.
  intros [R1 T1 L1 X1] [R2 T2 L2 X2]. split.
  - rewrite R2, R1. apply filter_filter_negb. intros x. unfold kept_row. by rewrite among_app, negb_orb.
  - rewrite T2, T1. apply filter_filter_negb. intros x. unfold kept_token. by rewrite among_app, negb_orb.
  - intros Hr. pose proof (L1 Hr) as H1. rewrite (L2 (leases_read_update _ _ _ _ H1 Hr)), H1. unfold tbl_update.
    rewrite map_map. apply map_ext. intros x. unfold active_among. rewrite among_app.
    destruct (among a (lr_drydock_id x)) eqn:Ea, (lr_revoked x) eqn:Er; cbn;
      by rewrite ?Ea, ?Er, ?andb_false_r, ?andb_true_r.
  - by rewrite X2, X1.
Qed.

Lemma gone_ext a b d d' : (forall x, In x a <-> In x b) -> gone a d d' -> gone b d d'.
Proof.
  intros Hab [R T L X]. assert (forall i, among a i = among b i) as E by (intros; by apply among_perm). split; [..|done].
  - rewrite R. apply filter_ext. intros. unfold kept_row. by rewrite E.
  - rewrite T. apply filter_ext. intros. unfold kept_token. by rewrite E.
  - intros Hr. rewrite (L Hr). unfold tbl_update. apply map_ext. intros. unfold active_among. by rewrite E.
Qed.

Lemma gone_row_In ids d d' r : gone ids d d' -> In r (drydocks d') -> In r (drydocks d) /\ ~ In (id (dr_dock r)) ids.
Proof.
  intros G Hr. rewrite (gone_rows _ _ _ G) in Hr. apply filter_In in Hr as [Hr Hk]. split; [done|].
  unfold kept_row in Hk. intros Hi%among_In. by rewrite Hi in Hk.
Qed.

(** ** One desk *)

Section Destroy.
Context `{Env} (dry_run : bool).

Lemma attempt_run i step m w : exists fs, attempt i step m w = (Ok fs, snd (m w)).
Proof. unfold attempt, catch, mbind, M_bind. destruct (m w) as [[a|e] w1]; cbn; eauto. Qed.

Lemma quiet_docker_step v h c : quiet db_files (docker_step v h c).
Proof. unfold docker_step. quiet_step. Qed.
#[local] Hint Resolve quiet_docker_step : quiet.

Lemma quiet_stop c : quiet db_files (stop dry_run c).
Proof. unfold stop. quiet_step. Qed.
Lemma quiet_remove c : quiet db_files (Container.remove dry_run c).
Proof. unfold Container.remove. quiet_step. Qed.
#[local] Hint Resolve quiet_stop quiet_remove : quiet.

Lemma quiet_attempt {V} (v : world -> V) i step m : quiet v m -> quiet v (attempt i step m).
Proof. intros Hm. apply quiet_catch; [|done]. apply quiet_bind; [exact Hm|done]. Qed.
#[local] Hint Resolve quiet_attempt : quiet.

Lemma remove_container_run d w :
  exists fs w', remove_container dry_run d w = (Ok fs, w') /\ db_files w' = db_files w.
Proof.
  assert (quiet db_files (remove_container dry_run d)) as Hq by (unfold remove_container; quiet_step).
  assert (exists fs, fst (remove_container dry_run d w) = Ok fs) as (fs & E).
  { unfold remove_container. destruct (is_empty _); [by eexists|].
    destruct (attempt_run (id d) "container_stop" (stop dry_run (container_id d)) w) as [f1 E1].
    rewrite (bind_ok _ _ _ _ _ E1).
    destruct (attempt_run (id d) "container_remove" (Container.remove dry_run (container_id d))
                (snd (stop dry_run (container_id d) w))) as [f2 E2].
    rewrite (bind_ok _ _ _ _ _ E2). by eexists. }
  specialize (Hq w). destruct (remove_container dry_run d w) as [r w']. cbn in E, Hq. subst r. eauto.
Qed.

Lemma remove_worktree_run d w :
  exists fs w', remove_worktree d w = (Ok fs, w') /\ db_files w' = db_files w.
Proof.
  assert (quiet db_files (remove_worktree d)) as Hq by (unfold remove_worktree; quiet_step).
  assert (exists fs, fst (remove_worktree d w) = Ok fs) as (fs & E).
  { unfold remove_worktree. destruct (is_empty _); [by eexists|].
    unfold rmtree_quiet, catch, mbind, M_bind. destruct (fs_op w) as [[u|e] w1]; by eexists. }
  specialize (Hq w). destruct (remove_worktree d w) as [r w']. cbn in E, Hq. subst r. eauto.
Qed.

Lemma quiet_emit_released i ls : quiet state_view (emit_released i ls).
Proof. induction ls as [|l ls IH]; cbn [emit_released]; quiet_step. Qed.
#[local] Hint Resolve quiet_emit_released : quiet.

Lemma mapE_err {E A B} (f : A -> res E B) l e : mapE f l = Err e -> exists x, In x l /\ is_ok (f x) = false.
Proof.
  revert e. induction l as [|x l IH]; cbn; intros e; [discriminate|].
  destruct (f x) eqn:Ef; unfold mbind, res_bind; [|intros _; exists x; rewrite Ef; auto].
  destruct (mapE f l) eqn:El; [discriminate|]. intros _. destruct (IH _ eq_refl) as (y & Hy & Hy2). eauto.
Qed.

Lemma listing_reads i d : leases_read d -> is_ok (list_active_leases_for_desk i d) = true.
Proof.
  intros Hr. unfold list_active_leases_for_desk. destruct (mapE _ _) eqn:E; [done|].
  apply mapE_err in E as (x & Hx & Hbad). apply order_by_In, tbl_select_In in Hx as [Hx _].
  unfold leases_read in Hr. rewrite List.Forall_forall in Hr. specialize (Hr x Hx). unfold lease_reads in Hr. congruence.
Qed.

Lemma revoke_desk_leases_run i w :
  w_files (snd (revoke_desk_leases i w)) = w_files w
  /\ exists ls, w_db (snd (revoke_desk_leases i w)) = set_leases ls (w_db w)
     /\ (leases_read (w_db w) -> ls = tbl_update (active_among [i]) (revoke_row "desk_destroyed") (leases (w_db w))).
Proof.
  unfold revoke_desk_leases. rewrite reg_query_bind. pose proof (listing_reads i (w_db w)) as Hok.
  destruct (list_active_leases_for_desk i (w_db w)) as [ls|e].
  - rewrite reg_bind. unfold revoke_leases_for_desk. rewrite revoke_where_eq. cbn [fst snd].
    pose proof (quiet_emit_released i ls (set_db (set_leases (tbl_update
      (fun x => (lr_drydock_id x =s i) && negb (lr_revoked x)) (revoke_row "desk_destroyed") (leases (w_db w)))
      (w_db w)) w)) as Hq.
    destruct (emit_released i ls _) as [r w']. cbn [snd] in *. injection Hq as Hd Hf _. rewrite Hd, Hf.
    split; [done|]. eexists. split; [done|]. intros _. apply map_ext. intros x.
    unfold active_among, among; cbn. by rewrite orb_false_r.
  - split; [done|]. exists (leases (w_db w)). split; [by destruct w as [[] ? ? ? ? ? ? ?]|].
    intros Hr. by specialize (Hok Hr).
Qed.

Lemma quiet_secret_dir i : quiet db_files (handle_secret_dir i).
Proof. unfold handle_secret_dir. quiet_step. Qed.
Lemma quiet_remove_overlay p : quiet db_files (remove_overlay_if_any p).
Proof. unfold remove_overlay_if_any, remove_overlay. quiet_step. Qed.

(** The files a destroy of [ids] may leave: their token files may be gone, no other is. *)
Definition files_after (ids : list string) (f f' : gmap (string * string) sfile) : Prop :=
  forall k, f' !! k = f !! k \/ (snd k = TOKEN_FILENAME /\ In (fst k) ids /\ f' !! k = None).

Lemma files_after_refl ids f : files_after ids f f.
Proof. intros k. by left. Qed.

Lemma files_after_trans a b f f1 f2 : files_after a f f1 -> files_after b f1 f2 -> files_after (a ++ b) f f2.
Proof.
  intros H1 H2 k. destruct (H2 k) as [E2|(Hk & Hi & E2)].
  - rewrite E2. destruct (H1 k) as [E1|(Hk & Hi & E1)]; [by left|right]. rewrite in_app_iff. auto.
  - right. rewrite in_app_iff. auto.
Qed.

Lemma files_after_sub a b f f' : (forall x, In x a -> In x b) -> files_after a f f' -> files_after b f f'.
Proof. intros Hab Hf k. destruct (Hf k) as [E|(Hk & Hi & E)]; [by left|right; auto]. Qed.

Lemma unlink_token_run i w :
  w_db (snd (unlink i TOKEN_FILENAME w)) = w_db w
  /\ files_after [i] (w_files w) (w_files (snd (unlink i TOKEN_FILENAME w))).
Proof.
  unfold unlink, fs_op, mbind, M_bind. destruct (fs_fault (w_fsops w)) as [[b m]|]; cbn -[TOKEN_FILENAME].
  - split; [done|apply files_after_refl].
  - split; [done|]. intros k. destruct (decide (k = (i, TOKEN_FILENAME))) as [->|Hk].
    + right. cbn. split; [done|]. split; [by left|]. apply lookup_delete_eq.
    + left. by apply lookup_delete_ne.
Qed.

(** The snapshot [d] of a row names the row it was taken from, if that is still there. *)
Definition keyed (d : Drydock) (b : db) : Prop :=
  forall r, In r (drydocks b) -> by_name (name d) r = by_id (id d) r.

Lemma delete_row_run now d b :
  keyed d b -> exists es, snd (delete_drydock now (name d) b)
                          = set_drydocks (List.filter (kept_row [id d]) (drydocks b)) (set_events es b).
Proof.
  intros Hk. unfold delete_drydock. rewrite gets_bind.
  assert (tbl_delete (by_name (name d)) (drydocks b) = List.filter (kept_row [id d]) (drydocks b)) as E.
  { apply filter_ext_in. intros r Hr. rewrite (Hk r Hr). unfold kept_row, among, by_id; cbn.
    by rewrite orb_false_r. }
  rewrite <- E. destruct (get_drydock _ _); [by eexists|]. exists (events b). by destruct b.
Qed.

Definition dict_config (d : Drydock) : Prop := match config d with JObj _ => True | _ => False end.

(** A desk's destroy returns whatever its steps do, and takes its own row, token and
    leases. *)
Lemma destroy_one_run d w :
  keyed d (w_db w) -> dict_config d ->
  exists fs w', _destroy_one dry_run d w = (Ok fs, w')
    /\ gone [id d] (w_db w) (w_db w') /\ files_after [id d] (w_files w) (w_files w').
Proof.
  intros Hk Hc. unfold _destroy_one.
  destruct (remove_container_run d w) as (f1 & w1 & E1 & V1). rewrite (bind_ok _ _ _ _ _ E1).
  destruct (attempt_run (id d) "lease_revoke" (revoke_desk_leases (id d)) w1) as [f2 E2]. rewrite (bind_ok _ _ _ _ _ E2).
  destruct (revoke_desk_leases_run (id d) w1) as (F2 & L2). set (w2 := snd (revoke_desk_leases (id d) w1)) in *.
  destruct (attempt_run (id d) "token_delete" (revoke_desk_token (id d)) w2) as [f3 E3]. rewrite (bind_ok _ _ _ _ _ E3).
  assert (db_files (snd (revoke_desk_token (id d) w2))
          = (set_tokens (tbl_delete (token_of (id d)) (tokens (w_db w2))) (w_db w2), w_files w2)) as V3.
  { unfold revoke_desk_token. rewrite reg_bind. cbn [fst snd delete_token modify].
    match goal with |- db_files (snd (?m ?w)) = _ => assert (quiet db_files m) as Hq by quiet_step; by rewrite (Hq w) end. }
  set (w3 := snd (revoke_desk_token (id d) w2)) in *.
  destruct (attempt_run (id d) "token_file_remove" (unlink (id d) TOKEN_FILENAME) w3) as [f4 E4]. rewrite (bind_ok _ _ _ _ _ E4).
  destruct (unlink_token_run (id d) w3) as [D4 F4]. set (w4 := snd (unlink (id d) TOKEN_FILENAME w3)) in *.
  destruct (attempt_run (id d) "secret_dir_handle" (handle_secret_dir (id d)) w4) as [f5 E5]. rewrite (bind_ok _ _ _ _ _ E5).
  pose proof (quiet_secret_dir (id d) w4) as V5. set (w5 := snd (handle_secret_dir (id d) w4)) in *.
  destruct (remove_worktree_run d w5) as (f6 & w6 & E6 & V6). rewrite (bind_ok _ _ _ _ _ E6).
  unfold dict_config in Hc. destruct (config d) as [| | | | | |cfg] eqn:Ec; try done. rewrite lift_bind.
  destruct (attempt_run (id d) "overlay_remove" (remove_overlay_if_any (destroy_overlay_path d cfg)) w6) as [f7 E7].
  rewrite (bind_ok _ _ _ _ _ E7).
  pose proof (quiet_remove_overlay (destroy_overlay_path d cfg) w6) as V7.
  set (w7 := snd (remove_overlay_if_any _ w6)) in *.
  destruct (attempt_run (id d) "drydock_delete" (delete_desk_row (name d)) w7) as [f8 E8]. rewrite (bind_ok _ _ _ _ _ E8).
  eexists _, _. split; [reflexivity|].
  assert (db_files w7 = (set_tokens (tbl_delete (token_of (id d)) (tokens (w_db w2))) (w_db w2), w_files w4)) as V.
  { rewrite V7, V6, V5. unfold db_files. rewrite D4. by rewrite (f_equal fst V3 : w_db w3 = _). }
  destruct L2 as (ls & D2 & L2).
  pose proof (f_equal fst V : w_db w7 = _) as Vd. pose proof (f_equal snd V : w_files w7 = _) as Vf.
  pose proof (f_equal fst V1 : w_db w1 = w_db w) as Vd1. pose proof (f_equal snd V1 : w_files w1 = w_files w) as Vf1.
  pose proof (f_equal snd V3 : w_files w3 = w_files w2) as Vf3. cbn [fst snd] in *.
  rewrite D2, Vd1 in Vd. rewrite Vd1 in L2. rewrite Vf3, F2, Vf1 in F4.
  unfold delete_desk_row, _utc_now, utc_now, mbind, M_bind, mret, M_ret, reg. cbn [fst snd w_db].
  match goal with |- context[delete_drydock ?t ?n ?b] => destruct (delete_row_run t d b) as (es & Ed) end.
  { intros r Hr. rewrite Vd in Hr. cbn in Hr. by apply Hk. }
  destruct (delete_drydock _ _ _) as [r b']. cbn [snd] in Ed. subst b'. cbn [snd w_db w_files set_db]. split; [|by rewrite Vf].
  rewrite Vd. split; cbn; [done| |exact L2|done].
  apply filter_ext. intros x. unfold kept_token, among, token_of; cbn. by rewrite orb_false_r.
Qed.

(** ** The tree *)

Abbreviation tree := (_destroy_tree dry_run).

Lemma bind_ext {A B} (m m' : W A) (k k' : A -> W B) w :
  m w = m' w -> (forall a w1, m w = (Ok a, w1) -> k a w1 = k' a w1) -> (m ≫= k) w = (m' ≫= k') w.
Proof. unfold mbind, M_bind. intros <- Hk. destruct (m w) as [[a|e] w1]; [by apply Hk|done]. Qed.

Definition row_ids (b : db) : list string := map (fun r => id (dr_dock r)) (drydocks b).

(** A destroy only removes rows. *)
Definition rows_within (U : list string) (w : world) : Prop := incl (row_ids (w_db w)) U.

Lemma quiet_rows {A} U (m : W A) : quiet w_db m -> preserves (rows_within U) m.
Proof. intros Hq. apply (quiet_preserves w_db (fun b => incl (row_ids b) U)). exact Hq. Qed.

Lemma reg_rows {A} U (m : DB A) :
  (forall b, incl (row_ids (snd (m b))) (row_ids b)) -> preserves (rows_within U) (reg m).
Proof.
  intros Hm w Hw. unfold rows_within, reg. specialize (Hm (w_db w)). destruct (m (w_db w)) as [r b].
  cbn in *. intros x Hx. by apply Hw, Hm.
Qed.

Lemma delete_row_rows now n b : incl (row_ids (snd (delete_drydock now n b))) (row_ids b).
Proof.
  unfold delete_drydock, row_ids. rewrite gets_bind.
  destruct (get_drydock _ _); intros x (r & <- & (Hr & _)%filter_In)%in_map_iff; by apply (in_map (fun r => id (dr_dock r))).
Qed.

Lemma quiet_unlink i n : quiet w_db (unlink i n).
Proof. unfold unlink. quiet_step. Qed.
Lemma quiet_worktree d : quiet db_files (remove_worktree d).
Proof. unfold remove_worktree. quiet_step. Qed.
#[local] Hint Resolve quiet_secret_dir quiet_remove_overlay quiet_unlink quiet_worktree : quiet.

Lemma one_rows U d : preserves (rows_within U) (_destroy_one dry_run d).
Proof.
  unfold _destroy_one, remove_container, attempt, revoke_desk_leases, revoke_desk_token, delete_desk_row.
  repeat first
    [ solve [apply quiet_rows; quiet_step]
    | apply reg_rows; intros b; first [apply delete_row_rows | intros x Hx; exact Hx]
    | match goal with
      | |- preserves _ (mbind _ _) => apply preserves_bind; [|intros ?]
      | |- preserves _ (catch _ _) => apply preserves_catch; [|intros ?]
      | |- preserves _ (if ?x then _ else _) => destruct x
      end ].
Qed.

Lemma each_rows U f cs :
  (forall c, preserves (rows_within U) (f c)) -> preserves (rows_within U) (destroy_each f cs).
Proof.
  intros Hf. induction cs as [|c cs IH]; cbn [destroy_each]; [apply preserves_ret|].
  apply preserves_bind; [apply Hf|]. intros [ids fs]. apply preserves_bind; [exact IH|]. intros [ids' fs']. apply preserves_ret.
Qed.

Lemma tree_rows U n vis d : preserves (rows_within U) (tree n vis d).
Proof.
  revert vis d. induction n as [|n IH]; cbn [_destroy_tree]; intros vis d; [apply preserves_throw|].
  destruct (existsb _ vis); [apply quiet_rows, quiet_db, quiet_state, quiet_rpc|].
  apply preserves_bind; [apply preserves_gets|]. intros cs. apply preserves_bind; [by apply each_rows|].
  intros [ids fs]. apply preserves_bind; [apply one_rows|]. intros own. apply preserves_ret.
Qed.

Lemma child_row i b c :
  In c (get_children i b) -> exists r, In r (drydocks b) /\ dr_dock r = c /\ dr_parent r = Some i.
Proof.
  unfold get_children. intros (r & <- & Hr)%in_map_iff. apply order_by_In, tbl_select_In in Hr as [Hr Hp].
  exists r. split; [done|]. split; [done|]. unfold opt_str_eqb in Hp. destruct (dr_parent r); [|done].
  by apply String.eqb_eq in Hp as ->.
Qed.

Lemma each_ext U f g cs w :
  rows_within U w ->
  (forall c w, In c cs -> rows_within U w -> f c w = g c w) ->
  (forall c, preserves (rows_within U) (f c)) ->
  destroy_each f cs w = destroy_each g cs w.
Proof.
  intros Hw Hfg Hf. revert w Hw. induction cs as [|c cs IH]; cbn [destroy_each]; intros w Hw; [done|].
  apply bind_ext; [apply Hfg; [by left|done]|]. intros [ids fs] w1 E1. apply bind_ext; [|done].
  apply IH; [intros; apply Hfg; [by right|done]|]. pose proof (Hf c w Hw) as H1. by rewrite E1 in H1.
Qed.

(** More depth than there are ids not yet visited makes no difference: a path of distinct ids
    is no longer than the table, and an id met again stops the recursion. *)
Lemma tree_depth U n m vis d w :
  rows_within U w -> In (id d) U -> NoDup vis -> incl vis U ->
  (length U < n + length vis)%nat -> (n <= m)%nat -> tree n vis d w = tree m vis d w.
Proof.
  revert m vis d w. induction n as [|n IH]; intros m vis d w Hw Hd Hnd Hin Hn Hm.
  { pose proof (NoDup_incl_length Hnd Hin). lia. }
  destruct m as [|m]; [lia|]. cbn [_destroy_tree]. destruct (existsb _ vis) eqn:Ev; [done|].
  unfold reg_get. rewrite !gets_bind. apply bind_ext; [|done].
  apply (each_ext U); [done| |apply tree_rows]. intros c w1 Hc Hw1. apply IH; [done|..].
  - apply child_row in Hc as (r & Hr & <- & _). apply Hw. by apply (in_map (fun r => id (dr_dock r))).
  - constructor; [|done]. intros Hv%among_In. unfold among in Hv. congruence.
  - intros x [<-|Hx]; auto.
  - cbn. lia.
  - lia.
Qed.

(** a destroy always ends: on any table, cyclic or not, and for any desk of it, a recursion
    one level deeper than there are rows behaves as every deeper one, so the bound in
    [destroy_desk] never cuts a recursion short. *)
Theorem destroy_terminates depth d w :
  In (id d) (row_ids (w_db w)) -> (S (length (drydocks (w_db w))) <= depth)%nat ->
  tree depth [] d w = tree (S (length (drydocks (w_db w)))) [] d w.
Proof.
  intros Hd Hn. symmetry. apply (tree_depth (row_ids (w_db w))); [by intros x|done|constructor|by intros x| |done].
  unfold row_ids. rewrite length_map. cbn. lia.
Qed.

(** ** The subtree *)

(** [i] is a desk of [b] below the desk [top]. *)
Inductive descends (b : db) (top : string) : string -> Prop :=
  | descends_child r : In r (drydocks b) -> dr_parent r = Some top -> descends b top (id (dr_dock r))
  | descends_step m r : descends b top m -> In r (drydocks b) -> dr_parent r = Some m ->
                        descends b top (id (dr_dock r)).

Definition sub_rows (b b' : db) : Prop := incl (drydocks b') (drydocks b).

Lemma descends_mono b b' top i : sub_rows b b' -> descends b' top i -> descends b top i.
Proof. intros Hs Hd. induction Hd; [eapply descends_child|eapply descends_step]; eauto. Qed.

Lemma descends_below b top m i : descends b top m -> descends b m i -> descends b top i.
Proof. intros Hm Hd. induction Hd; eapply descends_step; eauto. Qed.

(** What holds of the rows and is kept as rows go: a name and an id each name one row, the
    configurations are objects, and parents rank below their children. *)
Record rows_fit (rank : string -> nat) (b : db) : Prop := mkFit {
  fit_keys : forall r r', In r (drydocks b) -> In r' (drydocks b) ->
    by_name (name (dr_dock r)) r' = by_id (id (dr_dock r)) r';
  fit_dicts : forall r, In r (drydocks b) -> dict_config (dr_dock r);
  fit_rank : forall r p, In r (drydocks b) -> dr_parent r = Some p -> (rank p < rank (id (dr_dock r)))%nat
}.

Lemma rows_fit_sub rank b b' : sub_rows b b' -> rows_fit rank b -> rows_fit rank b'.
Proof. intros Hs [K D R]. split; eauto. Qed.

Lemma keyed_sub d b b' : sub_rows b b' -> keyed d b -> keyed d b'.
Proof. intros Hs Hk r Hr. by apply Hk, Hs. Qed.

Lemma gone_sub ids b b' : gone ids b b' -> sub_rows b b'.
Proof. intros G r Hr. by apply (gone_row_In _ _ _ _ G) in Hr as [Hr _]. Qed.

(** The desks [ids] were taken, and no desk that is left has one of them as its parent. *)
Record took (ids : list string) (w w' : world) : Prop := mkTook {
  took_gone : gone ids (w_db w) (w_db w');
  took_files : files_after ids (w_files w) (w_files w');
  took_closed : forall r p, In r (drydocks (w_db w')) -> dr_parent r = Some p -> ~ In p ids
}.

Lemma took_app a b w w1 w2 : took a w w1 -> took b w1 w2 -> took (a ++ b) w w2.
Proof.
  intros [G1 F1 C1] [G2 F2 C2]. split; [by eapply gone_trans|by eapply files_after_trans|].
  intros r p Hr Hp [Hi|Hi]%in_app_iff; [|by eapply C2]. eapply C1; [|exact Hp|exact Hi]. by apply (gone_sub _ _ _ G2).
Qed.

Lemma each_run rank f cs w :
  rows_fit rank (w_db w) ->
  (forall c, In c cs -> keyed c (w_db w)) ->
  (forall c w1, In c cs -> sub_rows (w_db w) (w_db w1) -> exists ids fs w2,
     f c w1 = (Ok (ids, fs), w2) /\ took (id c :: ids) w1 w2
     /\ forall i, In i ids -> descends (w_db w1) (id c) i) ->
  exists ids fs w2, destroy_each f cs w = (Ok (ids, fs), w2) /\ took ids w w2
    /\ incl (map id cs) ids
    /\ forall i, In i ids -> exists c, In c cs /\ (i = id c \/ descends (w_db w) (id c) i).
Proof.
  intros Hf Hk Hrun. revert w Hf Hk Hrun. induction cs as [|c cs IH]; cbn [destroy_each]; intros w Hf Hk Hrun.
  { exists [], [], w. split; [done|]. split; [|split; [by intros ?|by intros ? []]].
    split; [apply gone_nil|apply files_after_refl|by intros ? ? ? ? []]. }
  destruct (Hrun c w (or_introl eq_refl) (fun r Hr => Hr)) as (ids & fs & w1 & E1 & T1 & D1).
  rewrite (bind_ok _ _ _ _ _ E1). pose proof (gone_sub _ _ _ (took_gone _ _ _ T1)) as S1.
  destruct (IH w1) as (ids2 & fs2 & w2 & E2 & T2 & I2 & D2).
  - by apply (rows_fit_sub _ _ _ S1).
  - intros c' Hc. apply (keyed_sub _ _ _ S1). apply Hk. by right.
  - intros c' w' Hc Hs. apply Hrun; [by right|]. intros r Hr. by apply S1, Hs.
  - rewrite (bind_ok _ _ _ _ _ E2). exists (id c :: ids ++ ids2), (fs ++ fs2), w2. split; [done|].
    split; [exact (took_app _ _ _ _ _ T1 T2)|]. split.
    + intros i [<-|Hi]; [by left|]. right. apply in_app_iff. right. by apply I2.
    + intros i [<-|[Hi|Hi]%in_app_iff].
      * exists c. split; [by left|by left].
      * exists c. split; [by left|]. right. by apply D1.
      * destruct (D2 i Hi) as (c' & Hc & Hd). exists c'. split; [by right|].
        destruct Hd as [->|Hd]; [by left|right; by eapply descends_mono].
Qed.

(** On a table whose parents are ranked, the recursion returns and takes the desk and the desks
    below it. *)
Lemma tree_run rank U n vis d w :
  rows_fit rank (w_db w) -> keyed d (w_db w) -> dict_config d ->
  rows_within U w -> In (id d) U -> NoDup vis -> incl vis U -> (length U < n + length vis)%nat ->
  (forall v, In v vis -> (rank v < rank (id d))%nat) ->
  exists ids fs w', tree n vis d w = (Ok (ids, fs), w') /\ took (id d :: ids) w w'
    /\ forall i, In i ids -> descends (w_db w) (id d) i.
Proof.
  revert vis d w. induction n as [|n IH]; intros vis d w Hf Hk Hc Hw Hd Hnd Hin Hn Hv.
  { pose proof (NoDup_incl_length Hnd Hin). lia. }
  cbn [_destroy_tree]. assert (~ In (id d) vis) as Hnv by (intros Hi; specialize (Hv _ Hi); lia).
  destruct (existsb _ vis) eqn:Ev; [exfalso; by apply Hnv, among_In|]. rewrite reg_gets_bind.
  destruct (each_run rank (tree n (id d :: vis)) (get_children (id d) (w_db w)) w Hf)
    as (ids & fs & w1 & E1 & T1 & I1 & D1).
  - intros c (r & Hr & <- & _)%child_row r' Hr'. by apply (fit_keys _ _ Hf).
  - intros c w1 (r & Hr & <- & Hp)%child_row Hs. apply IH.
    + by apply (rows_fit_sub _ _ _ Hs).
    + intros r' Hr'. apply (fit_keys _ _ Hf); auto.
    + by apply (fit_dicts _ _ Hf).
    + intros x (r' & <- & Hr')%in_map_iff. apply Hw. apply (in_map (fun r => id (dr_dock r))). by apply Hs.
    + apply Hw. by apply (in_map (fun r => id (dr_dock r))).
    + by constructor.
    + intros x [<-|Hx]; auto.
    + cbn. lia.
    + pose proof (fit_rank _ _ Hf r (id d) Hr Hp). intros v [<-|Hvi]; [done|]. specialize (Hv v Hvi). lia.
  - rewrite (bind_ok _ _ _ _ _ E1). pose proof (gone_sub _ _ _ (took_gone _ _ _ T1)) as S1.
    destruct (destroy_one_run d w1 (keyed_sub _ _ _ S1 Hk) Hc) as (own & w2 & E2 & G2 & F2).
    rewrite (bind_ok _ _ _ _ _ E2). exists ids, (fs ++ own), w2. split; [done|]. split.
    + destruct T1 as [G1 F1 C1]. split.
      * apply (gone_ext (ids ++ [id d])); [|by eapply gone_trans]. intros x. rewrite in_app_iff. cbn. tauto.
      * apply (files_after_sub (ids ++ [id d])); [|by eapply files_after_trans]. intros x. rewrite in_app_iff. cbn. tauto.
      * intros r p Hr Hp [<-|Hi].
        -- pose proof (gone_row_In _ _ _ _ (gone_trans _ _ _ _ _ G1 G2) Hr) as [Hr0 Hni]. apply Hni, in_app_iff. left.
           apply I1, (in_map id), (in_map _row_to_drydock _ r), order_by_In, tbl_select_In. split; [done|]. unfold opt_str_eqb. rewrite Hp. apply String.eqb_refl.
        -- apply (C1 r p); [|done|done]. by apply (gone_sub _ _ _ G2).
    + intros i Hi. destruct (D1 i Hi) as (c & (r & Hr & <- & Hp)%child_row & [->|Hdesc]).
      * by eapply descends_child.
      * eapply descends_below; [by eapply descends_child|exact Hdesc].
Qed.

(** ** The family of desks *)

(** The tree of desks is sound: ids and names are unique, configurations are objects, and every
    parent is a desk of the table, with no cycle. *)
Record family (b : db) : Prop := mkFamily {
  fam_ids : NoDup (row_ids b);
  fam_names : NoDup (map (fun r => name (dr_dock r)) (drydocks b));
  fam_dicts : forall r, In r (drydocks b) -> dict_config (dr_dock r);
  fam_tree : exists rank : string -> nat, forall r p, In r (drydocks b) -> dr_parent r = Some p ->
    (rank p < rank (id (dr_dock r)))%nat /\ In p (row_ids b)
}.

Lemma family_fit b : family b -> exists rank, rows_fit rank b.
Proof.
  intros [Hi Hn Hd (rank & Hr)]. exists rank. split; [|done|by intros r p Hin Hp; destruct (Hr r p Hin Hp)].
  intros r r' Hr1 Hr2. unfold by_name, by_id.
  destruct (String.eqb_spec (name (dr_dock r')) (name (dr_dock r))) as [E|E].
  - pose proof (tbl_key_inj (fun r => name (dr_dock r)) _ r' r Hn Hr2 Hr1 E) as ->. symmetry. apply String.eqb_refl.
  - destruct (String.eqb_spec (id (dr_dock r')) (id (dr_dock r))) as [E2|]; [|done].
    pose proof (tbl_key_inj (fun r => id (dr_dock r)) _ r' r Hi Hr2 Hr1 E2) as ->. done.
Qed.

Lemma family_took ids w w' : took ids w w' -> family (w_db w) -> family (w_db w').
Proof.
  intros [G F C] [Hi Hn Hd (rank & Hr)]. unfold row_ids in *. split; unfold row_ids; try rewrite (gone_rows _ _ _ G).
  - by apply (tbl_delete_NoDup (fun r => id (dr_dock r)) (fun r => among ids (id (dr_dock r)))).
  - by apply (tbl_delete_NoDup (fun r => name (dr_dock r)) (fun r => among ids (id (dr_dock r)))).
  - intros r (Hin & _)%filter_In. by apply Hd.
  - exists rank. intros r p Hin0 Hp. apply (proj1 (filter_In _ _ _)) in Hin0 as Hin. destruct Hin as [Hin _].
    destruct (Hr r p Hin Hp) as [Hlt Hpin]. split; [done|].
    apply in_map_iff in Hpin as (q & Hq & Hqin). apply in_map_iff. exists q. split; [done|]. apply filter_In. split; [done|].
    unfold kept_row. rewrite Hq. destruct (among ids p) eqn:E; [|done]. apply among_In in E. exfalso.
    apply (C r p); [|done|done]. by rewrite (gone_rows _ _ _ G).
Qed.

Lemma descends_rank rank b top i : rows_fit rank b -> descends b top i -> (rank top < rank i)%nat.
Proof.
  intros Hf Hd. induction Hd as [r Hr Hp|m r Hm IH Hr Hp]; pose proof (fit_rank _ _ Hf r _ Hr Hp); lia.
Qed.

(** The desks taken are all there are below the target. *)
Lemma took_descends rank top ids w w' i :
  rows_fit rank (w_db w) -> took (top :: ids) w w' -> descends (w_db w) top i -> In i ids.
Proof.
  intros Hf [G F C] Hd.
  assert (In i (top :: ids)) as [<-|Hi]; [|pose proof (descends_rank _ _ _ _ Hf Hd); lia|done].
  induction Hd as [r Hr Hp|m r Hm IH Hr Hp];
    destruct (among (top :: ids) (id (dr_dock r))) eqn:E; try (by apply among_In); exfalso;
    (eapply (C r); [rewrite (gone_rows _ _ _ G); apply filter_In; split; [done|]; unfold kept_row; by rewrite E|exact Hp|]).
  - by left.
  - exact IH.
Qed.

Definition destroy_result (d : Drydock) (cascaded : list string) (failures : list json) : json :=
  JObj ([("destroyed", JBool true); ("drydock_id", JStr (id d)); ("cascaded", jstrs cascaded)]
        ++ match failures with [] => [] | _ => [("partial_failures", JList failures)] end).

Lemma lookup_row tn th b d :
  _lookup_destroy_target tn th b = Some d -> exists r, In r (drydocks b) /\ dr_dock r = d.
Proof.
  unfold _lookup_destroy_target, _lookup_by_name_or_id, get_drydock.
  destruct tn; intros E; destruct (tbl_first _ _) as [r|] eqn:Er; try discriminate; injection E as <-;
    apply tbl_first_Some in Er as [Hr _]; by exists r.
Qed.

Lemma destroy_desk_run params request_id caller w tn th d :
  family (w_db w) -> _validated_destroy_target params = Ok (tn, th) ->
  _lookup_destroy_target tn th (w_db w) = Some d ->
  exists cascaded failures r w', destroy_desk dry_run params request_id caller w = (r, w')
    /\ (r = Ok (destroy_result d cascaded failures) \/ exists e, r = Err e /\ audit_error e)
    /\ took (id d :: cascaded) w w' /\ forall i, In i cascaded <-> descends (w_db w) (id d) i.
Proof.
  intros Hfam Ev El. unfold destroy_desk. rewrite Ev, lift_bind, reg_gets_bind, El, reg_gets_bind.
  destruct (family_fit _ Hfam) as (rank & Hf). destruct (lookup_row _ _ _ _ El) as (r & Hr & Hd).
  destruct (tree_run rank (row_ids (w_db w)) (S (length (drydocks (w_db w)))) [] d w) as (ids & fs & w1 & E1 & T1 & D1);
    [done| | |by intros x|by rewrite <- Hd; apply (in_map (fun r => id (dr_dock r)))|constructor|by intros x| |by intros v []|].
  - intros r' Hr'. rewrite <- Hd. by apply (fit_keys _ _ Hf).
  - rewrite <- Hd. by apply (fit_dicts _ _ Hf).
  - unfold row_ids. rewrite length_map. cbn. lia.
  - rewrite (bind_ok _ _ _ _ _ E1). cbv zeta.
    match goal with |- context[emit_audit ?a ?b ?c ?e ?f ?g ≫= _] =>
      destruct (emit_audit_cases a b c e f g w1 eq_refl) as (o & w2 & E2 & Hq & _ & Ho) end.
    injection Hq as Hq1 Hq2 _. exists ids, fs.
    exists (match o with Ok _ => Ok (destroy_result d ids fs) | Err e => Err e end), w2.
    split; [unfold mbind, M_bind; rewrite E2; destruct o; [unfold destroy_result; by destruct fs|done]|].
    split; [destruct o as [x|e]; [by left|right; eauto]|]. split.
    + destruct T1 as [G F C]. split; rewrite ?Hq1, ?Hq2; done.
    + intros i. split; [apply D1|]. by eapply took_descends.
Qed.

(** C17: DestroyDesk on a sound family of desks (unique keys, configurations that are objects, parents that exist and form a forest)
    always takes the whole subtree, whatever docker, the files and the audit log answer: the desks taken are exactly the target and those below it;
    their rows and tokens are deleted and no others; all their active leases, and no others, are revoked as
    [desk_destroyed] (when the stored leases can be read); every other table but the registry's event history is as it was; and the family is sound
    again, so no desk is left whose parent is gone. And it returns a result with exactly this cascade, unless the last
    audit event cannot be written, which ends a destruction that is done with the error of the append. *)
Theorem destroy_desk_takes_subtree params request_id caller w tn th d :
  family (w_db w) -> _validated_destroy_target params = Ok (tn, th) ->
  _lookup_destroy_target tn th (w_db w) = Some d ->
  exists cascaded failures r w',
    destroy_desk dry_run params request_id caller w = (r, w')
    /\ (r = Ok (destroy_result d cascaded failures) \/ exists e, r = Err e /\ audit_error e)
    /\ (forall i, In i cascaded <-> descends (w_db w) (id d) i)
    /\ gone (id d :: cascaded) (w_db w) (w_db w')
    /\ family (w_db w').
Proof.
  intros Hf Ev El. destruct (destroy_desk_run params request_id caller w tn th d Hf Ev El) as (ids & fs & r & w' & E & Hr & T & D).
  exists ids, fs, r, w'. do 2 (split; [done|]). split; [done|]. split; [apply T|by eapply family_took].
Qed.

Lemma destroy_desk_family params request_id caller w :
  family (w_db w) -> family (w_db (snd (destroy_desk dry_run params request_id caller w))).
Proof.
  intros Hf. destruct (_validated_destroy_target params) as [[tn th]|e] eqn:Ev.
  - destruct (_lookup_destroy_target tn th (w_db w)) as [d|] eqn:El.
    + destruct (destroy_desk_run params request_id caller w tn th d Hf Ev El) as (ids & fs & r & w' & E & _ & T & D).
      rewrite E. by eapply family_took.
    + unfold destroy_desk. by rewrite Ev, lift_bind, reg_gets_bind, El.
  - unfold destroy_desk. by rewrite Ev, lift_bind.
Qed.

(** ** Secrets outlive their desk *)

(** The secret files but for the tokens the daemon wrote. *)
Definition user_secrets (w : world) : gmap (string * string) sfile :=
  base.filter (fun kv => (snd (fst kv) =s TOKEN_FILENAME) = false) (w_files w).

Lemma user_secrets_at w desk n : n <> TOKEN_FILENAME -> user_secrets w !! (desk, n) = w_files w !! (desk, n).
Proof.
  intros Hn%String.eqb_neq. unfold user_secrets. generalize (w_files w). intros m.
  apply option_eq. intros f. rewrite map_lookup_filter_Some. cbn [fst snd]. tauto.
Qed.

Lemma quiet_user {A} (m : W A) : quiet w_files m -> quiet user_secrets m.
Proof. apply (quiet_weaken w_files (base.filter _)). Qed.

Lemma quiet_user_reg {A} (m : DB A) : quiet user_secrets (reg m).
Proof. intros w. unfold reg. by destruct (m (w_db w)). Qed.

Lemma quiet_user_unlink i : quiet user_secrets (unlink i TOKEN_FILENAME).
Proof.
  intros w. unfold unlink, fs_op, mbind, M_bind. destruct (fs_fault (w_fsops w)) as [[b m]|]; [done|].
  apply (map_filter_delete_not (M := gmap (string * string))). intros f _ Hn. by rewrite String.eqb_refl in Hn.
Qed.

#[local] Hint Extern 3 (quiet user_secrets _) => simple apply quiet_user_reg : quiet.
#[local] Hint Extern 4 (quiet user_secrets _) => simple apply quiet_user, quiet_files : quiet.
#[local] Hint Resolve quiet_user_unlink : quiet.

Lemma quiet_user_one d : quiet user_secrets (_destroy_one dry_run d).
Proof.
  unfold _destroy_one, remove_container, attempt, revoke_desk_leases, revoke_desk_token, delete_desk_row. quiet_step.
Qed.
#[local] Hint Resolve quiet_user_one : quiet.

Lemma quiet_user_tree n vis d : quiet user_secrets (tree n vis d).
Proof.
  revert vis d. induction n as [|n IH]; cbn [_destroy_tree]; intros vis d; [quiet_step|].
  destruct (existsb _ vis); [quiet_step|]. apply quiet_bind; [quiet_step|]. intros cs.
  apply quiet_bind; [|intros []; quiet_step]. induction cs as [|c cs IHc]; cbn [destroy_each]; [quiet_step|].
  apply quiet_bind; [apply IH|]. intros []. apply quiet_bind; [exact IHc|]. intros []. quiet_step.
Qed.

(** no DestroyDesk, whatever it is asked and whatever fails on the way, changes or removes a
    secret file other than a desk's token: the secrets the user has set are there for the next
    desk of the name. *)
Theorem destroy_keeps_user_secrets params request_id caller w desk n :
  n <> TOKEN_FILENAME ->
  w_files (snd (destroy_desk dry_run params request_id caller w)) !! (desk, n) = w_files w !! (desk, n).
Proof.
  intros Hn. assert (quiet user_secrets (destroy_desk dry_run params request_id caller)) as Hq.
  { unfold destroy_desk. apply quiet_bind; [quiet_step|]. intros [tn th]. apply quiet_bind; [quiet_step|]. intros [d|]; [|quiet_step].
    apply quiet_bind; [quiet_step|]. intros depth. apply quiet_bind; [apply quiet_user_tree|]. intros []. quiet_step. }
  rewrite <- !(user_secrets_at _ desk n Hn). by rewrite Hq.
Qed.
End Destroy.

(** ** A desk with a child *)

Definition demo_desk (n : string) : Drydock :=
  mkDrydock n "proj" "/srv/code/proj" ("dock_" +:+ slug n) "" "main" "HEAD" "running" "" "" "" "" "t" "t"
    (JObj []) "" None (JObj []).

Definition demo_row (n : string) (parent : option string) : dock_row :=
  set_field (F_parent_drydock_id parent) (new_dock_row (demo_desk n)).

Definition family_db : db :=
  set_tokens [mkToken "dock_a" "h1" "t" None "dock"; mkToken "dock_b" "h2" "t" None "dock"]
    (set_drydocks [demo_row "a" None; demo_row "b" (Some "dock_a"); demo_row "c" None] empty_db).

Definition family_world : world := set_db family_db empty_world.

Lemma family_db_ok : family family_db.
Proof.
  split; [vm_compute; repeat constructor; cbn; intuition congruence..| |].
  - by intros r [<-|[<-|[<-|[]]]].
  - exists (fun i => if i =s "dock_b" then 1%nat else 0%nat).
    intros r p [<-|[<-|[<-|[]]]] [= <-]. split; [vm_compute; lia|vm_compute; auto].
Qed.

Definition destroy_a : json := JObj [("name", JStr "a")].

Example destroy_a_ex :
  map (fun r => name (dr_dock r))
    (drydocks (w_db (snd (destroy_desk (H := demo_env) true destroy_a (JInt 1) None family_world)))) = ["c"].
Proof. reflexivity. Qed.

Lemma destroy_desk_takes_subtree_witness :
  exists cascaded failures w',
    destroy_desk (H := demo_env) true destroy_a (JInt 1) None family_world
    = (Ok (destroy_result (demo_desk "a") cascaded failures), w')
    /\ family (w_db w').
Proof.
  destruct (destroy_desk_takes_subtree (H := demo_env) true destroy_a (JInt 1) None family_world
              (Some "a") "dock_a" (demo_desk "a") family_db_ok eq_refl eq_refl)
    as (c & f & r & w' & E & [->|(e & _ & n & b & m & Hb & _)] & _ & _ & F); [|discriminate Hb].
  exists c, f, w'. split; [exact E|exact F].
Defined.

Lemma destroy_terminates_witness :
  _destroy_tree (H := demo_env) true 9 [] (demo_desk "a") family_world
  = _destroy_tree (H := demo_env) true 4 [] (demo_desk "a") family_world.
Proof.
  exact (destroy_terminates (H := demo_env) true 9 (demo_desk "a") family_world (or_introl eq_refl) ltac:(vm_compute; lia)).
Defined.

Lemma destroy_keeps_user_secrets_witness :
  w_files (snd (destroy_desk (H := demo_env) true destroy_a (JInt 1) None
    (set_files {[("dock_a", "api_key") := mkFile "k" false]} family_world))) !! ("dock_a", "api_key")
  = Some (mkFile "k" false).
Proof.
  rewrite (destroy_keeps_user_secrets (H := demo_env) true destroy_a (JInt 1) None
    (set_files {[("dock_a", "api_key") := mkFile "k" false]} family_world) "dock_a" "api_key" ltac:(discriminate)).
  reflexivity.
Defined.
