(* ===== verification/SpawnFacts.v ===== *)
(** CreateDesk and SpawnChild: what a create does to the table of desks on every path, that a
    spawn happens only within its parent's policy and its cap, and that the family of
    desks stays sound over every run of the desk handlers. *)

From S2P Require Import Prelude PyStr PyVal Datetime Registry RegistryFacts Policy PolicyFacts World Rpc WorldFacts Proxy Overlay Container DeskSpec Desks DestroyFacts.
From Stdlib Require Import List.

(** ** A table with one desk added *)

Lemma get_drydock_name n b ws : get_drydock n b = Some ws -> name ws = n.
Proof.
  unfold get_drydock. destruct (tbl_first _ _) as [r|] eqn:Er; [|done]. intros [= <-].
  apply tbl_first_Some in Er as [_ Hn]. unfold by_name in Hn. by apply String.eqb_eq in Hn.
Qed.

(** No desk has the name. *)
Definition fresh_name (b : db) (n : string) : Prop := forall r, In r (drydocks b) -> by_name n r = false.

Lemma get_drydock_none n b : get_drydock n b = None -> fresh_name b n.
Proof.
  unfold get_drydock. destruct (tbl_first _ _) eqn:E; [done|]. intros _ r. by apply (proj1 (tbl_first_None _ _)).
Qed.

Section Added.
Context (b0 : db) (n i : string) (Hn : fresh_name b0 n).

(** [b] has the desks of [b0] and one more, named [n] with the new id [i], of which [Q] holds. *)
Definition added (Q : dock_row -> Prop) (b : db) : Prop :=
  exists r, drydocks b = drydocks b0 ++ [r] /\ name (dr_dock r) = n /\ id (dr_dock r) = i
    /\ ~ In i (row_ids b0) /\ Q r.

(** Or it has just the desks of [b0]. *)
Definition extended (Q : dock_row -> Prop) (b : db) : Prop := drydocks b = drydocks b0 \/ added Q b.

Lemma added_impl (Q Q' : dock_row -> Prop) b : (forall r, Q r -> Q' r) -> added Q b -> added Q' b.
Proof. intros HQ (r & E & Er & Ei & Hf & Hq). exists r. split_and!; auto. Qed.

Lemma added_update (Q Q' : dock_row -> Prop) f b :
  (forall r, id (dr_dock (f r)) = id (dr_dock r) /\ name (dr_dock (f r)) = name (dr_dock r)) ->
  (forall r, Q r -> Q' (f r)) ->
  added Q b -> added Q' (set_drydocks (tbl_update (by_name n) f (drydocks b)) b).
Proof.
  intros Hk HQ (r & E & Er & Ei & Hf & Hq). exists (f r). rewrite E. cbn [drydocks set_drydocks]. unfold tbl_update at 1.
  rewrite map_app. fold (tbl_update (by_name n) f (drydocks b0)). rewrite (tbl_update_id _ _ _ Hn). cbn.
  unfold by_name. rewrite Er, String.eqb_refl. destruct (Hk r) as [-> ->]. split_and!; auto.
Qed.

Lemma added_get Q b : added Q b -> exists r, get_drydock n b = Some (dr_dock r) /\ Q r /\ name (dr_dock r) = n
  /\ id (dr_dock r) = i.
Proof.
  intros (r & E & Er & Ei & _ & Hq). exists r. unfold get_drydock. rewrite E, tbl_first_app.
  rewrite (proj2 (tbl_first_None _ _) Hn). unfold tbl_first; cbn. unfold by_name at 1. rewrite Er, String.eqb_refl. auto.
Qed.
End Added.

(** ** The row of a created desk *)

Definition delegated (spec : obj) (r : dock_row) : Prop :=
  dr_firewall_domains r = JList (spec_list "delegatable_firewall_domains" spec)
  /\ dr_secrets r = JList (spec_list "delegatable_secrets" spec)
  /\ dr_capabilities r = JList (spec_list "capabilities" spec)
  /\ dr_storage_scopes r = JList (spec_list "delegatable_storage_scopes" spec)
  /\ dr_provision_scopes r = JList (spec_list "delegatable_provision_scopes" spec)
  /\ dr_network_reach r = JList (spec_list "delegatable_network_reach" spec)
  /\ dr_reach_ports r = JList (spec_list "network_reach_ports" spec)
  /\ dr_resources_hard r = JObj (spec_obj "resources_hard" spec).

(** With parent [par] and the policy of [spec]. *)
Definition created (spec : obj) (par : option string) (r : dock_row) : Prop :=
  dict_config (dr_dock r) /\ dr_parent r = par /\ delegated spec r.

(** What holds of a row left by a create that failed. *)
Definition loose (par : option string) (r : dock_row) : Prop :=
  dict_config (dr_dock r) /\ (dr_parent r = None \/ dr_parent r = par).

Lemma created_loose spec par r : created spec par r -> loose par r.
Proof. intros (Hd & Hp & _). split; auto. Qed.

(** The fields the later steps of a create write. *)
Definition passive (f : dock_field) : bool :=
  match f with
  | F_state _ | F_container_id _ | F_worktree_path _ | F_pinned_yaml_sha256 _ | F_yard_id _ | F_updated_at _
  | F_config (JObj _) => true
  | _ => false
  end.

Lemma passive_field spec par f r : passive f = true -> created spec par r -> created spec par (set_field f r).
Proof.
  unfold created, dict_config. intros Hf (Hd & Hp & Hs). destruct f as [| | | |c| | | | | | | | | | | |]; try discriminate Hf; try (split_and!; done).
  destruct c; try discriminate Hf. by split_and!.
Qed.

Lemma passive_fields spec par fs r : forallb passive fs = true -> created spec par r -> created spec par (set_fields fs r).
Proof.
  unfold set_fields. revert r. induction fs as [|f fs IH]; cbn [forallb fold_left]; intros r Hf Hr; [done|].
  apply andb_true_iff in Hf as [Hf Hfs]. apply IH; [done|]. by apply passive_field.
Qed.

Definition rows_view (w : world) : list dock_row := drydocks (w_db w).

Lemma quiet_rows_view {A} (m : W A) : quiet w_db m -> quiet rows_view m.
Proof. apply (quiet_weaken w_db drydocks). Qed.
#[export] Hint Extern 5 (quiet rows_view _) => simple apply quiet_rows_view : quiet.

(** ** The steps that leave the table of desks alone *)

Section Steps.
Context `{Env} (dry_run : bool).

Lemma quiet_check_available : quiet db_files check_available.
Proof. unfold check_available. quiet_step. Qed.
Lemma quiet_up a b : quiet db_files (up dry_run a b).
Proof. unfold up. quiet_step. Qed.
Lemma quiet_git d c e : quiet db_files (_run_git d c e).
Proof. unfold _run_git. quiet_step. Qed.
#[local] Hint Resolve quiet_git quiet_check_available quiet_up : quiet.
Lemma quiet_checkout ws : quiet db_files (create_checkout ws).
Proof. unfold create_checkout, _branch_exists, _rewrite_origin. quiet_step. Qed.
Lemma quiet_sha p : quiet db_files (compute_project_yaml_sha p).
Proof. unfold compute_project_yaml_sha. quiet_step. Qed.
Lemma quiet_overlay ws d c b : quiet db_files (write_overlay ws d c b).
Proof. unfold write_overlay, merge_into_base. quiet_step. Qed.
Lemma quiet_folder p : quiet db_files (_read_workspace_folder_from_overlay p).
Proof. unfold _read_workspace_folder_from_overlay. quiet_step. Qed.
Lemma quiet_trust c f : quiet db_files (seed_drydock_trust c f).
Proof. unfold seed_drydock_trust, _read_existing, _docker_exec. quiet_step. Qed.
Lemma quiet_storage c s : quiet db_files (_maybe_setup_storage_mounts c s).
Proof. unfold _maybe_setup_storage_mounts, _run_setup_storage_mounts. quiet_step. Qed.
Lemma quiet_container r : quiet db_files (container_of dry_run r).
Proof. unfold container_of. quiet_step. Qed.
Lemma quiet_gitconfig : quiet db_files _ensure_gitconfig_stub.
Proof. unfold _ensure_gitconfig_stub. quiet_step. Qed.
Lemma quiet_regenerate ws p : quiet db_files (_regenerate_overlay_for_resume ws p).
Proof. unfold _regenerate_overlay_for_resume, regenerate_overlay_from_drydock. pose proof quiet_overlay. quiet_step. Qed.

Lemma quiet_issue_token i : quiet rows_view (issue_token_for_desk i).
Proof.
  assert (forall j n p, quiet w_db (_write_secret_atomic j n p)) as Hw.
  { intros. unfold _write_secret_atomic, write_bytes, chmod_ro, os_replace. quiet_step. }
  unfold issue_token_for_desk. apply quiet_bind; [quiet_step|]. intros [tk|]; [quiet_step|].
  apply quiet_bind; [done|]. intros p. apply quiet_bind; [apply quiet_rows_view, Hw|]. intros _.
  apply quiet_bind; [quiet_step|]. intros t. apply quiet_bind; [|quiet_step].
  intros w. unfold rows_view, reg, insert_token, modify. cbn. by destruct (existsb _ _).
Qed.
End Steps.

#[export] Hint Resolve quiet_check_available quiet_up quiet_checkout quiet_sha quiet_overlay quiet_folder quiet_trust
  quiet_storage quiet_container quiet_gitconfig quiet_regenerate quiet_issue_token quiet_write_acl : quiet.

(** ** A create, step by step *)

Section Create.
Context `{Env} (dry_run : bool) (b0 : db) (spec : obj) (parent : option string).

Let n := spec_text "name" spec.
Let i := "dock_" +:+ slug n.
Context (Hn : fresh_name b0 n).

Definition at_start (w : world) : Prop := drydocks (w_db w) = drydocks b0.
Definition has_row (Q : dock_row -> Prop) (w : world) : Prop := added b0 n i Q (w_db w).
(** Where a create that fails may stop. *)
Definition stopped (w : world) : Prop := extended b0 n i (loose parent) (w_db w).

Abbreviation row := (created spec parent).

Lemma stopped_start w : at_start w -> stopped w.
Proof. intros Hw. by left. Qed.
Lemma stopped_row Q w : (forall r, Q r -> loose parent r) -> has_row Q w -> stopped w.
Proof. intros HQ Hw. right. by eapply added_impl. Qed.
Lemma stopped_created w : has_row row w -> stopped w.
Proof. apply stopped_row, created_loose. Qed.

Lemma has_row_view Q w w' : rows_view w' = rows_view w -> has_row Q w -> has_row Q w'.
Proof. unfold rows_view, has_row, added. by intros ->. Qed.

Lemma step_quiet {A} Q (m : W A) : quiet rows_view m -> (forall r, Q r -> loose parent r) ->
  hoare (has_row Q) m (fun _ => has_row Q) stopped.
Proof.
  intros Hq HQ w Hw. specialize (Hq w). destruct (m w) as [[a|e] w']; cbn in Hq.
  - by apply (has_row_view _ w).
  - apply (stopped_row Q); [done|]. by apply (has_row_view _ w).
Qed.

Lemma step_start {A} (m : W A) : quiet rows_view m -> hoare at_start m (fun _ => at_start) stopped.
Proof.
  intros Hq w Hw. specialize (Hq w). unfold rows_view in Hq. destruct (m w) as [[a|e] w']; cbn in Hq.
  - unfold at_start. by rewrite Hq.
  - apply stopped_start. unfold at_start. by rewrite Hq.
Qed.

(** A row read back: the desk's own. *)
Definition own_row (Q : dock_row -> Prop) (o : option Drydock) : Prop :=
  exists r, o = Some (dr_dock r) /\ Q r /\ name (dr_dock r) = n /\ id (dr_dock r) = i.

Lemma step_touch Q Q' fs m :
  m = n -> (forall now r, Q r -> Q' (set_fields (fs ++ [F_updated_at now]) r)) -> fs <> [] ->
  hoare (has_row Q) (touch_drydock m fs) (fun o w => has_row Q' w /\ own_row Q' o) stopped.
Proof.
  intros -> HQ Hfs w Hw. unfold touch_drydock, _utc_now, utc_now, mbind, M_bind, mret, M_ret, reg, update_drydock.
  destruct fs as [|f fs]; [done|]. cbn [fst snd w_db set_db modify gets].
  split; [|apply (added_get b0 n i Hn)]; (eapply (added_update b0 n i Hn Q Q'); [apply set_fields_key|apply HQ|exact Hw]).
Qed.

Lemma step_passive m fs : m = n -> forallb passive fs = true -> fs <> [] ->
  hoare (has_row row) (touch_drydock m fs) (fun o w => has_row row w /\ own_row row o) stopped.
Proof.
  intros Hm Hf. apply step_touch; [done|]. intros now r. apply passive_fields. by rewrite forallb_app, Hf.
Qed.

Lemma step_state m st : m = n ->
  hoare (has_row row) (touch_state m st) (fun o w => has_row row w /\ own_row row o) stopped.
Proof.
  intros -> w Hw. unfold touch_state, _utc_now, utc_now, mbind, M_bind, mret, M_ret, reg.
  unfold update_state. rewrite modify_bind, gets_bind. cbn [w_db].
  match goal with |- context[get_drydock n ?b] => assert (added b0 n i row b) as Hb by
    (eapply (added_update b0 n i Hn row row); [apply set_fields_key|intros r; by apply passive_fields|exact Hw]);
    destruct (added_get b0 n i Hn row b Hb) as (r & Eg & Hr & Hnm & Hid); rewrite Eg end.
  cbn. split; [exact Hb|]. by exists r.
Qed.

Lemma step_row_of Q o : (forall r, Q r -> loose parent r) ->
  hoare (fun w => has_row Q w /\ own_row Q o) (row_of o) (fun ws w => has_row Q w /\ name ws = n /\ id ws = i) stopped.
Proof. intros HQ w [Hw (r & -> & _ & Hnm)]. by cbn. Qed.

(** [o ← touch; row_of o]. *)
Lemma step_touch_row m fs : m = n -> forallb passive fs = true -> fs <> [] ->
  hoare (has_row row) (o ← touch_drydock m fs; row_of o) (fun ws w => has_row row w /\ name ws = n /\ id ws = i) stopped.
Proof.
  intros. eapply hoare_bind; [by apply step_passive|]. intros o. apply step_row_of, created_loose.
Qed.

(** *** Registration *)

Definition bare (r : dock_row) : Prop := dict_config (dr_dock r) /\ dr_parent r = None.

Lemma bare_loose r : bare r -> loose parent r.
Proof. intros [Hd Hp]. split; auto. Qed.
Lemma orphan_loose r : created spec None r -> loose parent r.
Proof. intros (Hd & Hp & _). split; auto. Qed.

Lemma step_create now now2 :
  hoare at_start (reg (create_drydock now2 (post_init now (new_desk spec))))
    (fun ws w => has_row bare w /\ name ws = n /\ id ws = i) stopped.
Proof.
  intros w Hw. unfold reg, create_drydock. rewrite gets_bind.
  set (ws := post_init now (new_desk spec)).
  assert (get_drydock (name ws) (w_db w) = None) as ->.
  { unfold get_drydock. change (name ws) with n. rewrite Hw. by rewrite (proj2 (tbl_first_None _ _) Hn). }
  rewrite gets_bind. destruct (existsb _ _) eqn:Et; cbn -[new_dock_row].
  - apply stopped_start. exact Hw.
  - split; [|done]. exists (new_dock_row ws). rewrite Hw in *. split; [done|]. split; [done|]. split; [done|]. split; [|done].
    intros (r & Er & Hr)%in_map_iff. pose proof (tbl_fresh _ _ Et r Hr) as Hne. unfold by_id in Hne.
    apply String.eqb_neq in Hne. by apply Hne.
Qed.

Lemma step_delegations m : m = n ->
  hoare (has_row bare) (set_delegations m spec) (fun _ w => has_row (created spec None) w) stopped.
Proof.
  intros -> w Hw. unfold set_delegations, _utc_now, utc_now, mbind, M_bind, mret, M_ret, reg, update_desk_delegations,
    json_list, opt_field, update_drydock. cbn [app fst snd w_db].
  rewrite bind_bind, modify_bind, gets_bind. unfold has_row, mret, M_ret. cbn [w_db set_db].
  eapply (added_update b0 n i Hn bare); [apply set_fields_key| |exact Hw].
  intros r [Hd Hp]. unfold created, delegated. by split_and!.
Qed.

Lemma step_parent ws : name ws = n -> id ws = i ->
  hoare (has_row (created spec None))
    (match parent with
     | Some p => o ← touch_drydock (name ws) [F_parent_drydock_id (Some p)]; row_of o
     | None => mret ws
     end) (fun ws w => has_row row w /\ name ws = n /\ id ws = i) stopped.
Proof.
  intros Hnm Hid. destruct parent as [p|] eqn:Ep.
  - eapply hoare_bind; [eapply (step_touch (created spec None) (created spec (Some p)))|]; [done| |done|].
    + intros now r (Hd & Hp & Hs). by split_and!.
    + intros o. apply step_row_of. rewrite Ep. apply created_loose.
  - by apply hoare_ret.
Qed.

Lemma step_yard ws : name ws = n -> id ws = i ->
  hoare (has_row row) (join_yard ws spec) (fun ws w => has_row row w /\ name ws = n /\ id ws = i) stopped.
Proof.
  intros Hnm Hid. unfold join_yard. destruct (text_value _); [|by apply hoare_ret].
  eapply hoare_bind; [apply step_quiet; [quiet_step|apply created_loose]|]. intros [y|]; [|by apply hoare_throw, stopped_created].
  by apply step_touch_row.
Qed.

Lemma step_register :
  hoare at_start (register_desk spec parent) (fun ws w => has_row row w /\ name ws = n /\ id ws = i) stopped.
Proof.
  unfold register_desk. eapply hoare_bind; [apply step_start; quiet_step|]. intros pinned.
  eapply hoare_bind; [apply step_start; quiet_step|]. intros now.
  eapply hoare_bind; [apply step_start; quiet_step|]. intros now2.
  eapply hoare_bind; [apply step_create|]. intros ws. apply hoare_pure. intros [Hnm Hid].
  eapply hoare_bind; [by apply step_delegations|]. intros ?.
  eapply hoare_bind; [by apply step_parent|]. intros ws2. apply hoare_pure. intros [Hnm2 Hid2].
  eapply (hoare_bind _ _ _ (fun ws w => has_row row w /\ name ws = n /\ id ws = i)).
  { destruct (is_empty pinned); [by apply hoare_ret|]. by apply step_touch_row. }
  intros ws3. apply hoare_pure. intros [Hnm3 Hid3].
  eapply (hoare_bind _ _ _ (fun _ => has_row row)); [|intros ?; by apply step_yard].
  apply step_quiet; [|apply created_loose]. quiet_step.
Qed.

(** *** The container *)

Lemma step_quiet_row {A} (m : W A) : quiet rows_view m -> hoare (has_row row) m (fun _ => has_row row) stopped.
Proof. intros Hq. apply step_quiet; [done|apply created_loose]. Qed.

Lemma step_prepare ws : name ws = n -> id ws = i ->
  hoare (has_row row) (prepare_desk spec ws) (fun p w => has_row row w /\ name (fst p) = n /\ id (fst p) = i) stopped.
Proof.
  intros Hnm Hid. unfold prepare_desk. eapply hoare_bind; [apply step_quiet_row; quiet_step|]. intros path.
  eapply hoare_bind; [by apply step_passive|]. intros o.
  eapply hoare_bind; [apply step_row_of, created_loose|]. intros ws2. apply hoare_pure. intros [Hnm2 Hid2].
  eapply hoare_bind; [apply step_quiet_row; quiet_step|]. intros found. destruct (negb found).
  { eapply hoare_bind; [by apply step_state|]. intros o2. apply hoare_throw. intros w [Hw _]. by apply stopped_created. }
  eapply hoare_bind; [apply step_quiet_row; quiet_step|]. intros ?.
  eapply hoare_bind; [apply step_quiet_row; quiet_step|]. intros ?.
  eapply hoare_bind; [apply step_quiet_row; quiet_step|]. intros overlay_path.
  eapply hoare_bind; [by apply step_passive|]. intros o2.
  eapply hoare_bind; [apply step_row_of, created_loose|]. intros ws3. apply hoare_pure. intros [Hnm3 Hid3].
  by apply hoare_ret.
Qed.

(** With the state it ends in. *)
Definition running (r : dock_row) : Prop := row r /\ state (dr_dock r) = "running".

Lemma running_loose r : running r -> loose parent r.
Proof. intros [Hr _]. by eapply created_loose. Qed.

Lemma step_start_container m folder overlay source : m = n ->
  hoare (has_row row) (start_container dry_run m folder overlay source)
    (fun ws w => has_row running w /\ name ws = n /\ id ws = i) stopped.
Proof.
  intros Hm. unfold start_container. eapply (hoare_bind _ _ _ (fun _ => has_row row)).
  { unfold up_or_error. eapply (hoare_catch _ _ _ _ _ (has_row row)).
    - intros w Hw. pose proof (quiet_rows_view _ (quiet_db _ (quiet_up dry_run folder overlay)) w) as Hq.
      destruct (up dry_run folder overlay w) as [[a|e] w']; by apply (has_row_view _ w).
    - intros e. destruct e; try by apply hoare_throw, stopped_created.
      eapply hoare_bind; [by apply step_state|]. intros o. apply hoare_throw. intros w [Hw _]. by apply stopped_created. }
  intros up_result. eapply hoare_bind; [apply step_quiet_row; quiet_step|]. intros cid.
  eapply hoare_bind; [apply step_quiet_row; quiet_step|]. intros cid_text.
  eapply hoare_bind; [eapply (step_touch row running); [done| |done]|].
  { intros now r Hr. split; [by apply passive_fields|done]. }
  intros o. eapply hoare_bind; [apply step_row_of, running_loose|]. intros ws. apply hoare_pure. intros [Hnm Hid].
  eapply (hoare_bind _ _ _ (fun _ => has_row running)); [|by intros ?; apply hoare_ret].
  apply step_quiet; [quiet_step|apply running_loose].
Qed.

(** A create that returns has added one desk, named as asked, in state [running], with the
    caller's row as its parent and the policy of the request; one that fails has
    added at most one desk, with that name and id and no other parent. *)
Lemma step_perform :
  hoare at_start (_perform_create dry_run spec parent)
    (fun result w => has_row running w /\ jget "drydock_id" result = JStr i) stopped.
Proof.
  unfold _perform_create. eapply hoare_bind; [apply step_register|]. intros ws. apply hoare_pure. intros [Hnm Hid].
  eapply hoare_bind; [by apply step_prepare|]. intros [ws2 overlay_path]. apply hoare_pure. cbn [fst]. intros [Hnm2 Hid2].
  cbv zeta. eapply hoare_bind; [apply step_quiet_row; quiet_step|]. intros ?.
  eapply hoare_bind; [apply step_quiet_row; quiet_step|]. intros ?.
  eapply hoare_bind; [apply step_quiet_row; quiet_step|]. intros ?.
  eapply hoare_bind; [by apply step_state|]. intros o.
  eapply hoare_bind; [apply step_row_of, created_loose|]. intros ws3. apply hoare_pure. intros [Hnm3 Hid3].
  eapply hoare_bind; [by apply step_start_container|]. intros ws4. apply hoare_pure. intros [Hnm4 Hid4].
  apply hoare_ret. intros w Hw. split; [done|]. unfold desk_result. by rewrite Hid4.
Qed.
End Create.

(** ** The two handlers *)

Section Handlers.
Context `{Env} (dry_run : bool).

Abbreviation desk_name := (spec_text "name").
Definition desk_id (spec : obj) : string := "dock_" +:+ slug (desk_name spec).

Lemma on_ws_error_ok {A} (m : W A) h w : exists r', on_ws_error m h w = (r', snd (m w)) /\ is_ok r' = is_ok (fst (m w)).
Proof. unfold on_ws_error, catch. destruct (m w) as [[a|[]] w']; by eexists. Qed.

Lemma quiet_check_spawn caller rid spec : quiet state_view (check_spawn caller rid spec).
Proof. unfold check_spawn. quiet_step. Qed.

(** What the checks of a spawn establish. *)
Definition spawn_allowed (caller : string) (spec : obj) (b : db) : Prop :=
  exists policy child,
    _load_parent_policy caller b = Ok policy /\ _build_child_spec spec = Ok child
    /\ narrower policy child
    /\ _count_provisioning_children caller b < SPAWN_CHILD_INFLIGHT_MAX.

Lemma check_spawn_allowed caller rid spec w u w' :
  check_spawn caller rid spec w = (Ok u, w') -> spawn_allowed caller spec (w_db w).
Proof.
  unfold check_spawn. rewrite reg_gets_bind. destruct (Z.leb_spec SPAWN_CHILD_INFLIGHT_MAX (_count_provisioning_children caller (w_db w))); [done|].
  rewrite reg_query_bind. destruct (_load_parent_policy caller (w_db w)) as [policy|] eqn:Ep; [|done].
  rewrite lift_bind. destruct (_build_child_spec spec) as [child|] eqn:Ec; [|done].
  destruct (validate_spawn policy child) as [|ru pv rv it fi] eqn:Ev; [exists policy, child; by rewrite <- validate_spawn_allow_iff|].
  intros E. apply bind_inv in E as [(a & w1 & _ & E)|(e & _ & E)]; discriminate.
Qed.

(** The outcome of a create: an added desk, or at most one. *)
Definition create_outcome (b0 : db) (spec : obj) (par : option string) (ok : bool) (b : db) : Prop :=
  extended b0 (desk_name spec) (desk_id spec) (loose par) b
  /\ (ok = true -> added b0 (desk_name spec) (desk_id spec) (running spec par) b).

Lemma perform_outcome spec par (k : obj -> W json) w :
  get_drydock (desk_name spec) (w_db w) = None -> (forall o, quiet state_view (k o)) ->
  let '(r, w') := (o ← _perform_create dry_run spec par; k o) w in
  create_outcome (w_db w) spec par (is_ok r) (w_db w').
Proof.
  intros Hnone Hk. pose proof (get_drydock_none _ _ Hnone) as Hn.
  pose proof (step_perform dry_run (w_db w) spec par Hn w eq_refl) as Hp. unfold mbind, M_bind.
  destruct (_perform_create dry_run spec par w) as [[o|e] w1].
  - destruct Hp as [Hp _]. pose proof (f_equal (fun v => fst (fst v)) (Hk o w1)) as Hq. cbn in Hq.
    destruct (k o w1) as [r w2]. cbn in Hq. rewrite Hq. split; [|done]. right. eapply added_impl; [|exact Hp]. apply running_loose.
  - split; [exact Hp|done].
Qed.

(** A spawn changes the database only when it was allowed. *)
Lemma spawn_child_inv params rid caller w :
  let '(r, w') := spawn_child dry_run params rid (Some caller) w in
  (w_db w' = w_db w /\ is_ok r = false)
  \/ exists spec, _validated_spec params = Ok spec /\ get_drydock (desk_name spec) (w_db w) = None
     /\ spawn_allowed caller spec (w_db w)
     /\ create_outcome (w_db w) spec (Some caller) (is_ok r) (w_db w').
Proof.
  unfold spawn_child. rewrite lift_bind. destruct (_validated_spec params) as [spec|e] eqn:Es; [|by left].
  match goal with |- context[on_ws_error ?m ?h w] => destruct (on_ws_error_ok m h w) as (r' & -> & Hr) end.
  rewrite reg_gets_bind in *. destruct (get_drydock (spec_text "name" spec) (w_db w)) as [ws|] eqn:Eg; [by left|].
  pose proof (f_equal (fun v => fst (fst v)) (quiet_check_spawn caller rid spec w)) as Hq. cbn in Hq.
  destruct (check_spawn caller rid spec w) as [[u|e] w1] eqn:Ec; [|rewrite (bind_err _ _ _ _ _ Ec) in *; by left].
  rewrite (bind_ok _ _ _ _ _ Ec) in *. right. exists spec. split; [done|]. split; [done|]. split; [by eapply check_spawn_allowed|].
  cbn [snd] in Hq. rewrite <- Hq in Eg.
  match goal with |- context[(_perform_create dry_run spec (Some caller) ≫= ?k) w1] =>
    pose proof (perform_outcome spec (Some caller) k w1 Eg ltac:(intros; quiet_step)) as Hp;
    destruct ((_perform_create dry_run spec (Some caller) ≫= k) w1) as [r w2] end.
  rewrite Hq in Hp. cbn [fst] in Hr. by rewrite Hr.
Qed.

(** C18: SpawnChild is narrow. Either it is refused and the database is as it was; or the
    parent's stored policy loads, the request forms a child specification, and that one is narrower: each of its firewall
    domains has the canonical form of one that the parent may delegate, each of its extra mounts that of a mount of the
    parent, its secrets are among those the parent may delegate and its capabilities among the
    parent's (a subset, not a strict one; the other fields of the request are not compared, and the parent need not hold
    the capability to spawn); fewer children than the cap are being provisioned;
    and then at most one desk is added, under the requested name and no parent but the
    caller; when the call succeeds that desk is there, running, a child of the caller, with the
    delegations of the request as its policy, and no other desk's row has changed. *)
Theorem spawn_child_within_policy params rid caller w :
  let '(r, w') := spawn_child dry_run params rid (Some caller) w in
  (w_db w' = w_db w /\ is_ok r = false)
  \/ exists spec policy child, _validated_spec params = Ok spec
     /\ _load_parent_policy caller (w_db w) = Ok policy /\ _build_child_spec spec = Ok child
     /\ (forall d, d ∈ spec_firewall_extra_domains child -> exists c d', canonicalize_domain (JStr d) = Ok c
           /\ d' ∈ delegatable_firewall_domains policy /\ canonicalize_domain (JStr d') = Ok c)
     /\ (forall m, m ∈ spec_extra_mounts child -> exists c m', _canonicalize_mount_tuple m None = Ok c
           /\ m' ∈ extra_mounts policy /\ _canonicalize_mount_tuple m' None = Ok c)
     /\ spec_secret_entitlements child ⊆ delegatable_secrets policy
     /\ spec_capabilities child ⊆ capabilities policy
     /\ _count_provisioning_children caller (w_db w) < SPAWN_CHILD_INFLIGHT_MAX
     /\ create_outcome (w_db w) spec (Some caller) (is_ok r) (w_db w').
Proof.
  pose proof (spawn_child_inv params rid caller w) as Hs. destruct (spawn_child _ _ _ _ w) as [r w'].
  destruct Hs as [Hs|(spec & Ev & _ & (policy & child & Hp & Hb & [_ Hd Hk Hc _ Hm] & Hn) & Ho)]; [by left|].
  right. exists spec, policy, child. by split_and!.
Qed.

Lemma count_extended b0 n i par b p :
  extended b0 n i (loose par) b ->
  _count_provisioning_children p b <= _count_provisioning_children p b0 + (if opt_str_eqb par p then 1 else 0).
Proof.
  unfold _count_provisioning_children, tbl_count. intros [->|(r & -> & _ & _ & _ & _ & Hp)]; [destruct (opt_str_eqb par p); lia|].
  rewrite filter_app, length_app. unfold child_in_state at 2. cbn [List.filter].
  destruct Hp as [-> | ->]; cbn; [destruct (opt_str_eqb par p); lia|].
  destruct (opt_str_eqb par p); cbn; [destruct (_ =s _); cbn; lia|lia].
Qed.

(** the cap on provisioning children holds over a spawn: for every parent, the children
    being provisioned afterwards are no more than before, or within the cap. *)
Theorem spawn_child_cap params rid caller w p :
  _count_provisioning_children p (w_db (snd (spawn_child dry_run params rid (Some caller) w)))
  <= Z.max (_count_provisioning_children p (w_db w)) SPAWN_CHILD_INFLIGHT_MAX.
Proof.
  pose proof (spawn_child_inv params rid caller w) as Hs. destruct (spawn_child _ _ _ _ w) as [r w']. cbn [snd].
  destruct Hs as [[-> _]|(spec & _ & _ & (pol & ch & _ & _ & _ & Hcap) & [Ho _])]; [lia|].
  pose proof (count_extended _ _ _ _ _ p Ho) as Hc. cbn [opt_str_eqb] in Hc.
  destruct (String.eqb_spec caller p) as [->|]; lia.
Qed.

(** ** The family over every run *)

Definition shape_of (r : dock_row) : string * string * option string * json :=
  (id (dr_dock r), name (dr_dock r), dr_parent r, config (dr_dock r)).
Definition tree_shape (w : world) : list (string * string * option string * json) :=
  map shape_of (drydocks (w_db w)).

Lemma shape_row b b' r : map shape_of (drydocks b') = map shape_of (drydocks b) -> In r (drydocks b') ->
  exists r0, In r0 (drydocks b) /\ shape_of r0 = shape_of r.
Proof. intros E Hr. apply (in_map shape_of) in Hr. rewrite E in Hr. apply in_map_iff in Hr as (r0 & E0 & Hr). by exists r0. Qed.

Lemma shape_ids b : row_ids b = map (fun s => fst (fst (fst s))) (map shape_of (drydocks b)).
Proof. unfold row_ids. by rewrite map_map. Qed.

Lemma family_shape b b' : map shape_of (drydocks b') = map shape_of (drydocks b) -> family b -> family b'.
Proof.
  intros E [Hi Hnm Hd (rank & Hr)]. assert (row_ids b' = row_ids b) as Eids by (by rewrite !shape_ids, E). split.
  - by rewrite Eids.
  - assert (forall x, map (fun r => name (dr_dock r)) (drydocks x) = map (fun s => snd (fst (fst s))) (map shape_of (drydocks x)))
      as En by (intros; by rewrite map_map). rewrite En, E, <- En. done.
  - intros r Hin. destruct (shape_row _ _ _ E Hin) as (r0 & Hr0 & [= E1 E2 E3 E4]). specialize (Hd r0 Hr0).
    unfold dict_config in *. by rewrite <- E4.
  - exists rank. intros r p Hin Hp. destruct (shape_row _ _ _ E Hin) as (r0 & Hr0 & [= E1 E2 E3 E4]).
    rewrite Eids, <- E1. apply Hr; [done|]. congruence.
Qed.

Lemma family_extended b0 n i par b :
  family b0 -> fresh_name b0 n -> extended b0 n i (loose par) b -> (forall p, par = Some p -> In p (row_ids b0)) -> family b.
Proof.
  intros Hf Hn [E|(r & E & Er & Ei & Hi & Hd & Hp)] Hpar; [apply (family_shape b0); [by rewrite E|done]|].
  destruct Hf as [Fi Fn Fd (rank & Fr)].
  assert (row_ids b = row_ids b0 ++ [i]) as Eids by (unfold row_ids; rewrite E, map_app; cbn; by rewrite Ei). split.
  - unfold row_ids. rewrite E. apply (tbl_append_NoDup (fun r => id (dr_dock r))); [done|].
    intros x Hx Ex. apply Hi. rewrite <- Ei, <- Ex. by apply (in_map (fun r => id (dr_dock r))).
  - rewrite E. apply (tbl_append_NoDup (fun r => name (dr_dock r))); [done|].
    intros r0 Hr0. pose proof (Hn r0 Hr0) as Hne. unfold by_name in Hne. apply String.eqb_neq in Hne. congruence.
  - intros r0. rewrite E. intros [Hr0|[<-|[]]]%in_app_iff; [by apply Fd|done].
  - exists (fun x => if x =s i then S (match par with Some p => rank p | None => 0%nat end) else rank x).
    assert (forall p, In p (row_ids b0) -> (p =s i) = false) as Hne by (intros p Hpin; apply String.eqb_neq; congruence).
    intros r0 p. rewrite E, Eids. intros [Hr0|[<-|[]]]%in_app_iff Hp0; rewrite in_app_iff.
    + destruct (Fr r0 p Hr0 Hp0) as [Hlt Hpin]. rewrite (Hne p Hpin), (Hne (id (dr_dock r0))); [auto|].
      by apply (in_map (fun r => id (dr_dock r))).
    + assert (par = Some p) as -> by (destruct Hp as [Hp|Hp]; congruence). specialize (Hpar p eq_refl).
      rewrite (Hne p Hpar), Ei, String.eqb_refl. auto.
Qed.

Lemma quiet_shape {A} (m : W A) : quiet rows_view m -> quiet tree_shape m.
Proof. apply (quiet_weaken rows_view (map shape_of)). Qed.

Lemma shape_update n fs t : (forall r, shape_of (set_fields fs r) = shape_of r) ->
  map shape_of (tbl_update (by_name n) (set_fields fs) t) = map shape_of t.
Proof. intros Hs. unfold tbl_update. rewrite map_map. apply map_ext. intros r. destruct (by_name n r); [apply Hs|done]. Qed.

Lemma quiet_touch_state n st : quiet tree_shape (touch_state n st).
Proof.
  apply quiet_bind; [apply quiet_shape; quiet_step|]. intros now w. unfold reg, update_state. rewrite modify_bind, gets_bind.
  destruct (get_drydock n _); cbn; unfold tree_shape; cbn; by apply (shape_update n [F_state st; F_updated_at now]).
Qed.

Lemma quiet_touch_running n c st : quiet tree_shape (touch_drydock n [F_container_id c; F_state st]).
Proof.
  apply quiet_bind; [apply quiet_shape; quiet_step|]. intros now w. unfold reg, update_drydock. rewrite modify_bind.
  cbn; unfold tree_shape; cbn. by apply (shape_update n ([F_container_id c; F_state st] ++ [F_updated_at now])).
Qed.

#[local] Hint Extern 6 (quiet tree_shape _) => simple apply quiet_shape : quiet.
#[local] Hint Resolve quiet_touch_state quiet_touch_running quiet_stop : quiet.

Lemma quiet_resume ws : quiet tree_shape (_resume_desk dry_run ws).
Proof. unfold _resume_desk, resume_failed, start_container, up_or_error, row_of. quiet_step. Qed.

Lemma quiet_stop_desk params rid caller : quiet tree_shape (stop_desk dry_run params rid caller).
Proof. unfold stop_desk, desk_not_found. quiet_step. Qed.

Lemma family_create params rid caller w :
  family (w_db w) -> family (w_db (snd (create_desk dry_run params rid caller w))).
Proof.
  intros Hf. unfold create_desk. rewrite lift_bind. destruct (_validated_spec params) as [spec|e]; [|done].
  match goal with |- context[on_ws_error ?m ?h w] => destruct (on_ws_error_ok m h w) as (r' & -> & _) end. cbn [snd].
  rewrite reg_gets_bind. destruct (get_drydock (spec_text "name" spec) (w_db w)) as [ws|] eqn:Eg.
  - destruct (resumable (state ws)); [|done]. apply (family_shape (w_db w)); [|done].
    match goal with |- context[snd (?m w)] => assert (quiet tree_shape m) as Hq; [|exact (Hq w)] end.
    apply quiet_bind; [apply quiet_resume|]. intros o. quiet_step.
  - match goal with |- context[(_perform_create dry_run spec None ≫= ?k) w] =>
      pose proof (perform_outcome spec None k w Eg ltac:(intros; quiet_step)) as Hp;
      destruct ((_perform_create dry_run spec None ≫= k) w) as [r w2] end. cbn [snd].
    eapply family_extended; [done|by apply get_drydock_none|apply Hp|done].
Qed.

Lemma load_parent_row caller b policy : _load_parent_policy caller b = Ok policy -> In caller (row_ids b).
Proof.
  unfold _load_parent_policy, load_desk_policy. destruct (tbl_first _ _) as [r|] eqn:E; [|done]. intros _.
  apply tbl_first_Some in E as [Hr Hid]. unfold by_id in Hid. apply String.eqb_eq in Hid as <-. by apply (in_map (fun r => id (dr_dock r))).
Qed.

Lemma family_spawn params rid caller w :
  family (w_db w) -> family (w_db (snd (spawn_child dry_run params rid caller w))).
Proof.
  intros Hf. destruct caller as [caller|]; [|done].
  pose proof (spawn_child_inv params rid caller w) as Hs. destruct (spawn_child _ _ _ _ w) as [r w']. cbn [snd].
  destruct Hs as [[-> _]|(spec & _ & Eg & (pol & ch & Hl & _) & [Ho _])]; [done|].
  eapply family_extended; [done|by apply get_drydock_none|exact Ho|].
  intros p [= <-]. by eapply load_parent_row.
Qed.

(** A handler of desks that ran, or anything else that leaves names, ids, parents and
    configurations of the desks as they are. *)
Inductive desk_step : world -> world -> Prop :=
  | desk_create params rid caller w : desk_step w (snd (create_desk dry_run params rid caller w))
  | desk_spawn params rid caller w : desk_step w (snd (spawn_child dry_run params rid caller w))
  | desk_destroy params rid caller w : desk_step w (snd (destroy_desk dry_run params rid caller w))
  | desk_stop params rid caller w : desk_step w (snd (stop_desk dry_run params rid caller w))
  | desk_other w w' : tree_shape w' = tree_shape w -> desk_step w w'.

(** over every sequence of desk requests, whatever they ask and whatever fails on the way, the
    family of desks stays sound: names and ids are unique, every desk's parent is a desk of
    the table, and there is no cycle. So a cascade never meets a cycle and never leaves
    an orphan. *)
Theorem desk_family_invariant w w' : rtc desk_step w w' -> family (w_db w) -> family (w_db w').
Proof.
  induction 1 as [|w w1 w2 Hs _ IH]; [done|]. intros Hf. apply IH. destruct Hs as [ | | | |w w1 E].
  - by apply family_create.
  - by apply family_spawn.
  - by apply destroy_desk_family.
  - apply (family_shape (w_db w)); [apply quiet_stop_desk|done].
  - by apply (family_shape (w_db w)).
Qed.
End Handlers.

(** ** A child spawned and destroyed with its parent *)

#[local] Instance spawn_env : Env := {|
  clock := @clock demo_env; clock_ok := @clock_ok demo_env; uuid_hex := @uuid_hex demo_env;
  token_bytes := @token_bytes demo_env; token_bytes_len := @token_bytes_len demo_env;
  sha256 := @sha256 demo_env; subprocess_run := @subprocess_run demo_env; run_host := @run_host demo_env;
  which := @which demo_env; env_float_repr := @env_float_repr demo_env; json_loads _ := Some (JObj []);
  json_dumps := @json_dumps demo_env; json_dumps_indent := @json_dumps_indent demo_env;
  yaml_load := @yaml_load demo_env; yaml_dump := @yaml_dump demo_env; fs_fault := @fs_fault demo_env; audit_fault := @audit_fault demo_env;
  is_root := true; secrets_root := "/root/.drydock/secrets"; home := "/root"; environ _ := None |}.

Definition spawn_world : world :=
  set_host {["/srv/code/proj/.git" := NDir;
             "/root/.drydock/worktrees/dock_d/.devcontainer/devcontainer.json" := NFile "{}"]} family_world.

Definition spawn_d : json := JObj [("project", JStr "proj"); ("name", JStr "d")].

Example spawn_ex :
  map (fun r => (name (dr_dock r), state (dr_dock r), dr_parent r))
    (drydocks (w_db (snd (spawn_child true spawn_d (JInt 1) (Some "dock_b") spawn_world))))
  = [("a", "running", None); ("b", "running", Some "dock_a"); ("c", "running", None);
     ("d", "running", Some "dock_b")].
Proof. vm_compute. reflexivity. Qed.

Definition spawned_world : world := snd (spawn_child true spawn_d (JInt 1) (Some "dock_b") spawn_world).

Example destroy_cascade_ex :
  map (fun r => name (dr_dock r)) (drydocks (w_db (snd (destroy_desk true destroy_a (JInt 2) None spawned_world)))) = ["c"].
Proof. vm_compute. reflexivity. Qed.

Lemma desk_family_invariant_witness :
  family (w_db (snd (destroy_desk true destroy_a (JInt 2) None spawned_world))).
Proof.
  apply (desk_family_invariant true spawn_world); [|exact family_db_ok].
  eapply rtc_l; [apply (desk_spawn true spawn_d (JInt 1) (Some "dock_b"))|].
  apply rtc_once. apply (desk_destroy true destroy_a (JInt 2) None).
Defined.
