(* ===== verification/Auditor.v ===== *)
(** [daemon/auditor_handlers.py]: the actions the Port Auditor may take on other desks, its
    scope gate, its dry run and its live execution. *)

From S2P Require Import Prelude PyStr PyVal Registry World Rpc Proxy Overlay Container DeskSpec Desks Storage Broker.
From Stdlib Require Import List.

Definition VALID_ACTION_KINDS : list string := ["stop_dock"; "revoke_lease"; "throttle_egress"; "freeze_storage"].

Section Auditor.
Context `{Env}.

(** The dict [_validate_params] returns. [target_drydock_id] and [lease_id] are what the request
    gave, which only the kinds that need them check. *)
Record action_spec : Type := mkAction {
  a_kind : string; a_target : json; a_lease_id : json; a_reason : string; a_evidence : obj;
  a_action : option string
}.

Definition is_text (v : json) : bool := match text_value v with Some _ => true | None => false end.

Definition needs_target (kind : string) : bool :=
  existsb (String.eqb kind) ["stop_dock"; "throttle_egress"; "freeze_storage"].

Definition check_action (v : json) : res exn (option string) :=
  match v with
  | JNull => Ok None
  | JStr s => if existsb (String.eqb (lower s)) ["freeze"; "unfreeze"] then Ok (Some (lower s))
              else invalid_field "action" "must be 'freeze' or 'unfreeze'"
  | _ => invalid_field "action" "must be 'freeze' or 'unfreeze'"
  end.

Definition check_evidence (v : json) : res exn obj :=
  match (if truthy v then v else JObj []) with
  | JObj o => Ok o
  | _ => invalid_field "evidence" "must be an object"
  end.

Definition invalid_kind {A} : res exn A :=
  rpc_error (-32602) "invalid_params" [("field", JStr "kind"); ("expected_one_of", jstrs VALID_ACTION_KINDS)].

Definition _validate_params (params : json) : res exn action_spec :=
  match params with
  | JObj o =>
      match jget "kind" o with
      | JStr kind =>
          if negb (existsb (String.eqb kind) VALID_ACTION_KINDS) then invalid_kind
          else
            match jget "reason" o with
            | JStr reason =>
                if is_empty (strip reason) then invalid_field "reason" "must be a non-empty string"
                else
                  let target := jget "target_drydock_id" o in
                  let lease_id := jget "lease_id" o in
                  if needs_target kind && negb (is_text target)
                  then invalid_field "target_drydock_id" ("required for kind=" +:+ kind)
                  else if (kind =s "revoke_lease") && negb (is_text lease_id)
                  then invalid_field "lease_id" "required for kind=revoke_lease"
                  else
                    evidence ← check_evidence (jget "evidence" o);
                    action ← check_action (jget "action" o);
                    Ok (mkAction kind target lease_id reason evidence action)
            | _ => invalid_field "reason" "must be a non-empty string"
            end
      | _ => invalid_kind
      end
  | _ => rpc_error (-32602) "invalid_params" [("reason", JStr "expected object")]
  end.

(** ** Live actions *)

(** [WHERE id = ?] of a text. *)
Definition row_with_id (target : json) (d : db) : option dock_row :=
  match target with JStr t => tbl_first (by_id t) (drydocks d) | _ => None end.

Definition _live_stop_dock (spec : action_spec) : W obj :=
  row ← reg_get (row_with_id (a_target spec));
  match row with
  | None => rpc (-32601) "drydock_not_found" [("target_drydock_id", a_target spec)]
  | Some r =>
      result ← stop_desk false (JObj [("name", JStr (name (dr_dock r)))]) JNull None;
      mret [("primitive", JStr "stop_desk"); ("primitive_result", result)]
  end.

(** The handler of ReleaseCapability, called without a caller. *)
Definition _live_revoke_lease (spec : action_spec) : W obj :=
  result ← release_capability (JObj [("lease_id", a_lease_id spec)]) JNull None;
  mret [("primitive", JStr "release_capability"); ("primitive_result", result)].

(** What the allowlist becomes: nothing, or the reach the registry records. *)
Definition throttled_domains (action : string) (r : dock_row) : res exn (list json) :=
  if action =s "freeze" then Ok [] else as_list (dr_network_reach r).

Definition _live_throttle_egress (spec : action_spec) : W obj :=
  let action := default "freeze" (a_action spec) in
  row ← reg_get (row_with_id (a_target spec));
  match row, a_target spec with
  | Some r, JStr target_id =>
      new_domains ← lift (throttled_domains action r);
      written_path ← write_smokescreen_acl target_id new_domains proxy_root_from_home;
      sighup_sent ← send_sighup (container_id (dr_dock r));
      mret [("primitive", JStr "throttle_egress"); ("action", JStr action);
            ("target_drydock_id", JStr target_id); ("target_drydock_name", JStr (name (dr_dock r)));
            ("written_path", JStr written_path); ("sighup_sent", JBool sighup_sent);
            ("domain_count_after", int_len new_domains)]
  | _, t => lift (invalid_field "target_drydock_id" ("no drydock with id " +:+ py_str t))
  end.

Definition _execute_live (spec : action_spec) : W obj :=
  let kind := a_kind spec in
  if kind =s "stop_dock" then _live_stop_dock spec
  else if kind =s "revoke_lease" then _live_revoke_lease spec
  else if kind =s "throttle_egress" then _live_throttle_egress spec
  else if kind =s "freeze_storage" then
    rpc (-32021) "auditor_action_unsupported"
      [("kind", JStr kind);
       ("fix", JStr ("freeze_storage primitive not built yet — only "
          +:+ "stop_dock, revoke_lease, throttle_egress are live."))]
  else lift (invalid_field "kind" ("unhandled kind " +:+ repr_str kind)).

(** ** The handler *)

Definition is_live_actions_enabled : bool := default "0" (environ "AUDITOR_LIVE_ACTIONS") =s "1".

Definition outcome_of (spec : action_spec) (dry_run : bool) : obj :=
  [("kind", JStr (a_kind spec)); ("target_drydock_id", a_target spec); ("lease_id", a_lease_id spec);
   ("reason", JStr (a_reason spec)); ("evidence", JObj (a_evidence spec));
   ("execution_mode", JStr (if dry_run then "dry_run" else "live"))].

Definition refuse_auditor {A} (caller : string) (auditor_id : option string) (request_id : json) : W A :=
  _ ← emit_audit "auditor.action_refused" (Some caller) request_id "AuditorAction" "error"
        [("reason", JStr "caller_not_auditor"); ("caller_drydock_id", JStr caller);
         ("designated_auditor_id", opt_str auditor_id)];
  rpc (-32020) "auditor_scope_required"
    [("fix", JStr ("This RPC requires an auditor-scoped bearer token. Run `drydock auditor designate <name>` "
       +:+ "to grant the scope to a drydock."))].

Definition auditor_action (dry_run : bool) (params request_id : json) (caller : option string) : W json :=
  match caller with
  | None => throw (RpcError (-32004) "unauthenticated" None)
  | Some caller =>
      auditor_id ← reg_get get_auditor_drydock_id;
      if negb (opt_str_eqb auditor_id caller) then refuse_auditor caller auditor_id request_id
      else
        spec ← lift (_validate_params params);
        let outcome := outcome_of spec dry_run in
        if dry_run then
          _ ← emit_audit "auditor.action_dry_run" (Some caller) request_id "AuditorAction" "ok" outcome;
          mret (JObj (outcome ++ [("executed", JBool false);
            ("note", JStr ("AUDITOR_LIVE_ACTIONS not set — call audited, primitive not invoked. "
               +:+ "Set the env var to enable live execution."))]))
        else
          live_result ← _execute_live spec;
          let outcome := jmerge outcome live_result in
          _ ← emit_audit "auditor.action_executed" (Some caller) request_id "AuditorAction" "ok" outcome;
          mret (JObj (jset "executed" (JBool true) outcome))
  end.

(** [daemon/server.py]'s handler. *)
Definition _auditor_action (params request_id : json) (caller : option string) : W json :=
  with_task_log "AuditorAction" params request_id
    (auditor_action (negb is_live_actions_enabled) params request_id caller) status_completed.
End Auditor.
