(* ===== verification/AuditorFacts.v ===== *)
(** Correctness of [Auditor.v]: what the auditor's action authority cannot do, whatever it asks
    for and whatever fails, that a freeze is undone by an unfreeze, and that a refused or
    dry-run action has no effect. *)

From S2P Require Import Prelude PyStr PyVal Registry World Rpc WorldFacts Proxy Overlay Container DeskSpec Desks Storage Broker DestroyFacts SpawnFacts Auditor.
From Stdlib Require Import List.

Section Authority.
Context `{Env}.

(** Everything but the audit log, the clock and the counters. *)
Definition effects_view (w : world) : db * gmap (string * string) sfile * gmap string node * list call :=
  (state_view w, w_calls w).

Lemma inert_emit ev pr id m r d : quiet effects_view (emit_audit ev pr id m r d).
Proof.
  intros w. destruct (existsb (String.eqb ev) V2_EVENTS) eqn:E; [|unfold emit_audit; by rewrite E].
  destruct (emit_audit_cases ev pr id m r d w E) as (o & w' & Ew & Hv & Hc & _). unfold effects_view. by rewrite Ew; cbn; rewrite Hv, Hc.
Qed.
Lemma inert_get {A} (f : db -> A) : quiet effects_view (reg_get f).
Proof. done. Qed.
#[local] Hint Resolve inert_emit inert_get : quiet.

(** An action of a caller that is not the designated auditor, and every action while live
    actions are off, changes neither the database nor a file and runs no command. *)
Theorem gated_action_is_inert dry_run params rid c w :
  opt_str_eqb (get_auditor_drydock_id (w_db w)) c = false \/ dry_run = true ->
  effects_view (snd (auditor_action dry_run params rid (Some c) w)) = effects_view w.
Proof.
  unfold auditor_action, refuse_auditor, rpc. rewrite reg_gets_bind.
  destruct (opt_str_eqb _ c); cbn [negb]; intros [Hg|Hd]; try discriminate; subst;
    match goal with |- effects_view (snd (?m w)) = _ => assert (quiet effects_view m) as Hq by quiet_step; apply Hq end.
Qed.

(** ** The reach of a live action *)

(** A row without its state and its time of update. *)
Definition still (r : dock_row) : dock_row := set_fields [F_state ""; F_updated_at ""] r.

(** What no action changes: the secret files, every row up to its state, and every other table
    (the log of events aside). *)
Definition bounded_view (w : world) :=
  let d := w_db w in
  (w_files w, map still (drydocks d),
   (tokens d, leases d, task_log d, deskwatch_events d, yards d),
   (amendments d, workload_leases d, migrations d, clarifications d)).

(** The commands an action may run, on the container of a registered desk. *)
Definition auditor_call (d : db) (k : call) : Prop :=
  exists r, In r (drydocks d) /\ let c := container_id (dr_dock r) in
    k = mkCall ["docker"; "stop"; c] "" \/ k = sighup_call c.

Definition within (w0 w : world) : Prop :=
  bounded_view w = bounded_view w0
  /\ exists ks, w_calls w = w_calls w0 ++ ks /\ Forall (auditor_call (w_db w0)) ks.

Lemma within_refl w : within w w.
Proof. split; [done|]. exists []. by rewrite app_nil_r. Qed.

(** [m] stays within the reach of the actions on [w0]. *)
Definition stays {A} (w0 : world) (m : W A) : Prop := preserves (within w0) m.

Definition bounded_calls (w : world) := (bounded_view w, w_calls w).

Lemma stays_quiet {A} w0 (m : W A) : quiet bounded_calls m -> stays w0 m.
Proof.
  intros Hq w (Hv & ks & Hk & Ha). specialize (Hq w).
  pose proof (f_equal fst Hq) as E1. pose proof (f_equal snd Hq) as E2. cbn in E1, E2.
  split; [congruence|]. exists ks. by rewrite E2.
Qed.

Lemma quiet_effects {A} (m : W A) : quiet effects_view m -> quiet bounded_calls m.
Proof. intros Hq w. specialize (Hq w). injection Hq as E1 E2 E3 E4. unfold bounded_calls, bounded_view. by rewrite E1, E2, E4. Qed.
#[local] Hint Extern 4 (quiet bounded_calls _) => simple apply quiet_effects : quiet.

Lemma stays_bind {A B} w0 (m : W A) (k : A -> W B) : stays w0 m -> (forall a, stays w0 (k a)) -> stays w0 (m ≫= k).
Proof. apply preserves_bind. Qed.

Lemma stays_run w0 k : auditor_call (w_db w0) k -> stays w0 (run_uncaught k).
Proof.
  intros Hk w (Hv & ks & Hks & Ha). unfold run_uncaught, run, mbind, M_bind.
  destruct (subprocess_run (w_calls w) k); cbn [snd mret M_ret throw];
    (split; [exact Hv|exists (ks ++ [k]); split; [cbn; by rewrite Hks, app_assoc|by apply Forall_app_2; [|repeat constructor]]]).
Qed.

Lemma still_update n st now t :
  map still (tbl_update (by_name n) (set_fields [F_state st; F_updated_at now]) t) = map still t.
Proof. unfold tbl_update. rewrite map_map. apply map_ext. intros r. by destruct (by_name n r). Qed.

Lemma stays_touch w0 n st : stays w0 (touch_state n st).
Proof.
  apply stays_quiet. apply quiet_bind; [done|]. intros now w. unfold reg, update_state. rewrite modify_bind, gets_bind.
  unfold bounded_calls, bounded_view.
  destruct (get_drydock n _) as [ws|]; unfold log_event; rewrite ?bind_bind, ?gets_bind, ?modify_bind, ?modify_eq;
    cbn -[still set_fields tbl_update]; by rewrite still_update.
Qed.

Lemma quiet_write_acl_calls i l root : quiet bounded_calls (write_smokescreen_acl i l root).
Proof.
  unfold write_smokescreen_acl, mkdir_p, host_write, host_replace, host_at.
  assert (quiet bounded_calls fs_op) as Hf by (intros w; unfold fs_op; by destruct (fs_fault _) as [[]|]).
  quiet_step.
Qed.
#[local] Hint Resolve quiet_write_acl_calls : quiet.

Lemma stop_target d w0 :
  In d (map dr_dock (drydocks (w_db w0))) -> stays w0 (stop false (container_id d)).
Proof.
  intros (r & Er & Hr)%in_map_iff. unfold stop. destruct (_ || _); [by apply stays_quiet|].
  unfold docker_step. apply stays_bind; [apply stays_run; exists r; rewrite Er; auto|].
  intros [[rc so] se]. apply stays_quiet. quiet_step.
Qed.

Lemma stays_stop r w0 : In r (drydocks (w_db w0)) ->
  within w0 (snd (stop_desk false (JObj [("name", JStr (name (dr_dock r)))]) JNull None w0)).
Proof.
  intros Hr. unfold stop_desk. rewrite lift_bind. unfold _validated_stop_target, validated_target. cbn [jget assoc].
  cbn -[slug by_name is_empty]. destruct (is_empty (name (dr_dock r))); [apply within_refl|]. rewrite reg_gets_bind.
  unfold _lookup_by_name_or_id, get_drydock.
  destruct (tbl_first _ _) as [r1|] eqn:E; cbn [option_map]; [|apply within_refl].
  apply tbl_first_Some in E as [Hr1 _].
  match goal with |- within _ (snd (?m _)) => assert (stays w0 m) as Hs; [|apply Hs, within_refl] end.
  apply stays_bind; [apply stop_target; by apply in_map|]. intros _.
  apply stays_bind; [apply stays_touch|]. intros _. by apply stays_quiet.
Qed.

Lemma stays_throttle spec w0 : within w0 (snd (_live_throttle_egress spec w0)).
Proof.
  unfold _live_throttle_egress. rewrite reg_gets_bind.
  destruct (row_with_id (a_target spec) (w_db w0)) as [r|] eqn:E; [|apply within_refl].
  destruct (a_target spec) as [| | | |t| |]; try apply within_refl.
  apply tbl_first_Some in E as [Hr _]. rewrite lift_bind.
  destruct (throttled_domains _ r) as [ds|e]; [|apply within_refl].
  match goal with |- within _ (snd (?m _)) => assert (stays w0 m) as Hs; [|apply Hs, within_refl] end.
  apply stays_bind; [apply stays_quiet; quiet_step|]. intros p. apply stays_bind; [|intros b; by apply stays_quiet].
  unfold send_sighup. destruct (is_empty _); [by apply stays_quiet|].
  apply preserves_catch; [|intros e; by apply stays_quiet]. apply stays_bind; [apply stays_run; exists r; auto|]. intros [[rc so] se]. by apply stays_quiet.
Qed.

Lemma stays_live spec w0 : within w0 (snd (_execute_live spec w0)).
Proof.
  unfold _execute_live. destruct (_ =s "stop_dock").
  { unfold _live_stop_dock. rewrite reg_gets_bind. destruct (row_with_id _ _) as [r|] eqn:E; [|apply within_refl].
    assert (In r (drydocks (w_db w0))) as Hr.
    { unfold row_with_id in E. destruct (a_target spec); try done. by apply tbl_first_Some in E as [? _]. }
    pose proof (stays_stop r w0 Hr) as Hs. unfold mbind, M_bind. destruct (stop_desk _ _ _ _ w0) as [[v|e] w1]; exact Hs. }
  destruct (_ =s "revoke_lease"); [apply within_refl|].
  destruct (_ =s "throttle_egress"); [apply stays_throttle|].
  destruct (_ =s "freeze_storage"); apply within_refl.
Qed.

Lemma auditor_within dry_run params rid caller w : within w (snd (auditor_action dry_run params rid caller w)).
Proof.
  unfold auditor_action. destruct caller as [c|]; [|apply within_refl]. rewrite reg_gets_bind.
  assert (forall ev pr i m r d, stays w (emit_audit ev pr i m r d)) as He by (intros; apply stays_quiet; quiet_step).
  destruct (negb _).
  { unfold refuse_auditor. apply stays_bind; [apply He|intros; by apply stays_quiet|apply within_refl]. }
  rewrite lift_bind. destruct (_validate_params params) as [spec|e]; [|apply within_refl]. cbv zeta. destruct dry_run.
  { apply stays_bind; [apply He|intros; by apply stays_quiet|apply within_refl]. }
  pose proof (stays_live spec w) as Hl. unfold mbind at 1, M_bind at 1.
  destruct (_execute_live spec w) as [[live|e] w1]; [|exact Hl].
  apply stays_bind; [apply He|intros; by apply stays_quiet|exact Hl].
Qed.

(** What an action may do to the leases: revoke. *)
Definition only_revoked (r r' : lease_row) : Prop := r' = r \/ exists reason, r' = revoke_row reason r.

(** The action asked for is the revocation of a lease. *)
Definition asks_revocation (params : json) : Prop := exists spec, _validate_params params = Ok spec /\ a_kind spec = "revoke_lease".

(** Every desk but for its state and its time of update, and every table but the leases and the history of events. *)
Definition untouched (w : world) :=
  let d := w_db w in
  (map still (drydocks d), tokens d, task_log d, deskwatch_events d, yards d, amendments d, workload_leases d, migrations d,
   clarifications d).

(** C23: Whatever an auditor's action asks for and however it ends: no desk is created or destroyed, no policy, parent or other
    field of a desk but its state and its time of update changes, no token is written, and no other table but the leases and
    the history of events; a lease can only be revoked and a secret file only be removed, and neither unless
    the action is a [revoke_lease]; and every command it runs is a stop of, or a reload signal to, the container of a
    registered desk. *)
Theorem auditor_blast_radius dry_run params rid caller w :
  let w' := snd (auditor_action dry_run params rid caller w) in
  untouched w' = untouched w
  /\ Forall2 only_revoked (leases (w_db w)) (leases (w_db w')) /\ w_files w' ⊆ w_files w
  /\ (~ asks_revocation params -> leases (w_db w') = leases (w_db w) /\ w_files w' = w_files w)
  /\ exists ks, w_calls w' = w_calls w ++ ks /\ Forall (auditor_call (w_db w)) ks.
Proof.
  intros w'. destruct (auditor_within dry_run params rid caller w) as [Hv Hk]. fold w' in Hv, Hk.
  unfold bounded_view in Hv. injection Hv as Hf Hs Ht Hl Htl Hdw Hy Ham Hwl Hm Hc. split_and!; try done.
  - unfold untouched. by rewrite Hs, Ht, Htl, Hdw, Hy, Ham, Hwl, Hm, Hc.
  - rewrite Hl. generalize (leases (w_db w)). intros l. clear. induction l; constructor; [by left|done].
  - by rewrite Hf.
Qed.

(** The live revocation of a lease is always refused: it calls the release handler without a
    caller, which that handler takes for a missing token. *)
Lemma live_revoke_refused params rid c spec w :
  get_auditor_drydock_id (w_db w) = Some c -> _validate_params params = Ok spec -> a_kind spec = "revoke_lease" ->
  auditor_action false params rid (Some c) w
  = (Err (RpcError (-32004) "unauthenticated" (Some (JObj [("reason", JStr "no_caller")]))), w).
Proof.
  intros Ha Ev Ek. unfold auditor_action. rewrite reg_gets_bind, Ha. cbn [opt_str_eqb]. rewrite String.eqb_refl. cbn [negb].
  rewrite lift_bind, Ev. cbv zeta. unfold _execute_live. by rewrite Ek.
Qed.

(** ** Freeze and unfreeze *)

Definition rule_file (t : string) (w : world) : option node := w_host w !! acl_path proxy_root_from_home t.

(** The rules CreateDesk writes for the reach [l]. *)
Definition rules (t : string) (l : list json) (n : option node) : Prop :=
  exists acl, generate_smokescreen_acl t l = Ok acl /\ n = Some (NFile (yaml_dump acl)).

Lemma throttle_rules (Hk : rules_kept) spec t r w v w' :
  a_target spec = JStr t -> tbl_first (by_id t) (drydocks (w_db w)) = Some r ->
  _live_throttle_egress spec w = (Ok v, w') ->
  exists ds, throttled_domains (default "freeze" (a_action spec)) r = Ok ds /\ rules t ds (rule_file t w')
    /\ w_db w' = w_db w.
Proof.
  intros Et Er E. unfold _live_throttle_egress in E. rewrite reg_gets_bind, Et in E. cbn [row_with_id] in E. rewrite Er in E.
  rewrite lift_bind in E. destruct (throttled_domains _ r) as [ds|e]; [|discriminate E].
  exists ds. split; [done|].
  apply bind_inv in E as [(p & w1 & E1 & E)|(e & _ & [=])].
  assert (w_db w1 = w_db w) as D1 by (eapply quiet_db_eq; [|exact E1]; apply quiet_db, quiet_write_acl).
  apply write_acl_ok in E1 as (-> & acl & Hg & Hw).
  apply bind_inv in E as [(b & w2 & E2 & E)|(e & _ & [=])]. injection E as _ <-. split.
  - exists acl. split; [done|]. unfold rule_file. by rewrite (send_sighup_host Hk _ _ _ _ _ E2).
  - rewrite <- D1. eapply quiet_db_eq; [|exact E2]. unfold send_sighup. quiet_step.
Qed.

(** Throttling is reversible: a freeze that succeeds leaves a rule file that admits no host
    and no domain, and an unfreeze after it puts back, byte for byte, the rules that
    CreateDesk writes for the reach the registry records. *)
Theorem unfreeze_restores_rules (Hk : rules_kept) freeze unfreeze t r l n w v1 w1 v2 w2 :
  a_target freeze = JStr t -> a_action freeze = None \/ a_action freeze = Some "freeze" ->
  a_target unfreeze = JStr t -> a_action unfreeze = Some "unfreeze" ->
  tbl_first (by_id t) (drydocks (w_db w)) = Some r -> dr_network_reach r = JList l ->
  rule_file t w = n -> rules t l n ->
  _live_throttle_egress freeze w = (Ok v1, w1) -> _live_throttle_egress unfreeze w1 = (Ok v2, w2) ->
  rule_file t w1 = Some (NFile (yaml_dump (acl_json t [] []))) /\ rule_file t w2 = n /\ w_db w2 = w_db w.
Proof.
  intros Et1 Ea1 Et2 Ea2 Er Hl Hn (acl & Hg & Hacl) E1 E2.
  destruct (throttle_rules Hk _ _ _ _ _ _ Et1 Er E1) as (ds1 & Ed1 & (acl1 & Hg1 & R1) & D1).
  rewrite <- D1 in Er. destruct (throttle_rules Hk _ _ _ _ _ _ Et2 Er E2) as (ds2 & Ed2 & (acl2 & Hg2 & R2) & D2).
  rewrite Ea2 in Ed2. cbn in Ed2. rewrite Hl in Ed2. injection Ed2 as <-. split; [|split; congruence].
  assert (ds1 = []) as -> by (destruct Ea1 as [Ea|Ea]; rewrite Ea in Ed1; by injection Ed1).
  injection Hg1 as <-. exact R1.
Qed.
End Authority.

(** ** A frozen desk *)

Definition auditor_world (n : option node) : world :=
  set_host (match n with Some x => {[acl_path (@proxy_root_from_home demo_env) "dock_a" := x]} | None => empty end)
    (set_db (set_tokens [mkToken "dock_a" "h" "t" None "dock"; mkToken "dock_p" "h2" "t" None "auditor"]
      (set_drydocks [proxy_desk] empty_db)) empty_world).

Definition freeze_a : action_spec := mkAction "throttle_egress" (JStr "dock_a") JNull "noise" [] None.
Definition unfreeze_a : action_spec := mkAction "throttle_egress" (JStr "dock_a") JNull "quiet" [] (Some "unfreeze").
Definition rules_a : option node :=
  Some (NFile (@yaml_dump demo_env (acl_json "dock_a" ["api.x.com"] ["y.com"]))).

Lemma unfreeze_restores_rules_witness :
  exists v1 w1 v2 w2, _live_throttle_egress (H := demo_env) freeze_a (auditor_world rules_a) = (Ok v1, w1)
    /\ _live_throttle_egress (H := demo_env) unfreeze_a w1 = (Ok v2, w2)
    /\ rule_file (H := demo_env) "dock_a" w2 = rules_a.
Proof.
  destruct (_live_throttle_egress (H := demo_env) freeze_a (auditor_world rules_a)) as [[v1|e] w1] eqn:E1;
    [|vm_compute in E1; discriminate].
  destruct (_live_throttle_egress (H := demo_env) unfreeze_a w1) as [[v2|e] w2] eqn:E2;
    [|vm_compute in E1; injection E1 as _ <-; vm_compute in E2; discriminate].
  exists v1, w1, v2, w2. split; [reflexivity|]. split; [exact E2|].
  assert (rules (H := demo_env) "dock_a" [JStr "api.x.com"; JStr "*.y.com"] rules_a) as Hr
    by (eexists; split; [vm_compute; reflexivity|reflexivity]).
  assert (rule_file (H := demo_env) "dock_a" (auditor_world rules_a) = rules_a) as Hf by (vm_compute; reflexivity).
  exact (proj1 (proj2 (unfreeze_restores_rules (H := demo_env) ltac:(intros h c x t; reflexivity) freeze_a unfreeze_a "dock_a" proxy_desk
    [JStr "api.x.com"; JStr "*.y.com"] rules_a (auditor_world rules_a) v1 w1 v2 w2
    eq_refl (or_introl eq_refl) eq_refl eq_refl eq_refl eq_refl Hf Hr E1 E2))).
Defined.

Lemma gated_action_is_inert_witness :
  effects_view (snd (auditor_action (H := demo_env) false (JObj []) (JInt 1) (Some "dock_a") (auditor_world None)))
  = effects_view (auditor_world None).
Proof.
  apply (gated_action_is_inert (H := demo_env) false (JObj []) (JInt 1) "dock_a" (auditor_world None)). by left.
Defined.

Definition stop_request : json :=
  JObj [("kind", JStr "stop_dock"); ("reason", JStr "idle"); ("target_drydock_id", JStr "dock_a")].

(** A live stop changes the desk's state, and only that. *)
Example live_stop_ex :
  let w' := snd (auditor_action (H := demo_env) false stop_request (JInt 1) (Some "dock_p") (auditor_world None)) in
  map (fun r => state (dr_dock r)) (drydocks (w_db w')) = ["suspended"]
  /\ tokens (w_db w') = tokens (w_db (auditor_world None)).
Proof. vm_compute. auto. Qed.

(** An allowlist narrowed by UpdateProxyAllowlist does not survive a freeze: the unfreeze widens it
    to the whole recorded reach. *)
Example unfreeze_widens :
  let narrow := @yaml_dump demo_env (acl_json "dock_a" ["api.x.com"] []) in
  let w1 := snd (_live_throttle_egress (H := demo_env) freeze_a (auditor_world (Some (NFile narrow)))) in
  rule_file (H := demo_env) "dock_a" (snd (_live_throttle_egress (H := demo_env) unfreeze_a w1)) = rules_a.
Proof. vm_compute. reflexivity. Qed.
