(* ===== verification/AuditQuery.v ===== *)
(** [daemon/audit_handlers.py]: the paginated query over the audit log, a file with one JSON
    object per line. *)

From S2P Require Import Prelude PyStr PyVal Datetime Registry World Rpc.
From Stdlib Require Import List.

Definition DEFAULT_LIMIT : Z := 100.
Definition MAX_LIMIT : Z := 1000.

(** The dict [_validate_filters] returns. *)
Record filters : Type := mkFilters {
  f_limit : Z; f_before_ts : option string; f_event : option string; f_principal : option string
}.

(** [None] or a text. *)
Definition text_or_none (reason : string) (v : json) : res exn (option string) :=
  match v with
  | JNull => Ok None
  | JStr s => Ok (Some s)
  | _ => rpc_error (-32602) "invalid_params" [("reason", JStr reason)]
  end.

(** [isinstance(limit, int)] also holds of a [bool]. *)
Definition check_limit (v : json) : res exn Z :=
  let bad := rpc_error (-32602) "invalid_params"
               [("reason", JStr ("limit must be int in [1, " +:+ str_of_Z MAX_LIMIT +:+ "]"))] in
  match v with
  | JInt z => if (z <? 1) || (MAX_LIMIT <? z) then bad else Ok z
  | JBool b => if b then Ok 1 else bad
  | _ => bad
  end.

Definition _validate_filters (params : json) : res exn filters :=
  match (match params with JNull => JObj [] | _ => params end) with
  | JObj o =>
      limit ← check_limit (jget_default "limit" (JInt DEFAULT_LIMIT) o);
      before_ts ← text_or_none "before_ts must be ISO8601 string" (jget "before_ts" o);
      event ← text_or_none "event must be a string" (jget "event" o);
      principal ← text_or_none "principal must be a string" (jget "principal" o);
      Ok (mkFilters limit before_ts event principal)
  | _ => rpc_error (-32602) "invalid_params" [("reason", JStr "params must be an object")]
  end.

(** V2 entries carry [ts], v1 entries [timestamp]. *)
Definition _entry_ts (entry : obj) : option string :=
  match py_or (jget "ts" entry) (jget "timestamp" entry) with JStr s => Some s | _ => None end.

Definition _entry_ts_for_sort (entry : obj) : string := default "" (_entry_ts entry).

Definition matches_event (f : filters) (entry : obj) : bool :=
  match f_event f with Some e => str_eq_json e (jget "event" entry) | None => true end.

Definition matches_principal (f : filters) (entry : obj) : bool :=
  match f_principal f with
  | Some p => str_eq_json p (jget "principal" entry) || str_eq_json p (jget "drydock_id" entry)
  | None => true
  end.

Definition before (cursor : option string) (entry : obj) : bool :=
  match cursor with
  | Some c => match _entry_ts entry with Some ts => String.ltb ts c | None => false end
  | None => true
  end.

Definition _matches (entry : obj) (f : filters) : bool :=
  matches_event f entry && matches_principal f entry && before (f_before_ts f) entry.

(** [sort(key=_entry_ts_for_sort, reverse=True)]: events of one instant stay in the log's order. *)
Definition newest_first (a b : obj) : bool :=
  String.leb (_entry_ts_for_sort b) (_entry_ts_for_sort a).

Section GetAudit.
Context `{Env}.

(** The objects of the log: blank lines, malformed ones and other values are skipped. *)
Definition entry_of_line (line : string) : list obj :=
  if is_empty (strip line) then []
  else match json_loads (strip line) with Some (JObj o) => [o] | _ => [] end.

Definition read_entries (lines : list string) : list obj := flat_map entry_of_line lines.

Definition matching (lines : list string) (f : filters) : list obj :=
  order_by newest_first (List.filter (fun e => _matches e f) (read_entries lines)).

(** The page and the cursor of the next one. *)
Definition page_of (limit : Z) (matching : list obj) : list obj * option string :=
  let page := firstn (Z.to_nat limit) matching in
  (page, if limit <? Z.of_nat (length matching)
         then match rev page with e :: _ => _entry_ts e | [] => None end else None).

Definition audit_page (page : list obj) (cursor : option string) : json :=
  JObj [("events", JList (map JObj page)); ("next_before_ts", opt_str cursor)].

(** [log] is the file's lines, [None] when there is no file. *)
Definition get_audit (log : option (list string)) (params : json) : res exn json :=
  f ← _validate_filters params;
  match log with
  | None => Ok (audit_page [] None)
  | Some lines =>
      let '(page, next_cursor) := page_of (f_limit f) (matching lines f) in
      Ok (audit_page page next_cursor)
  end.

(** The server's wrapper; the log has a line for each event emitted, and is made by the first. *)
Definition audit_lines (w : world) : option (list string) :=
  match w_audit w with [] => None | es => Some (map json_dumps es) end.

Definition _get_audit (params request_id : json) (caller : option string) : W json :=
  log ← gets audit_lines;
  lift (get_audit log params).
End GetAudit.

(** * Theorems

    What the paginated audit query gives: a client that follows the cursors reads every event
    that matched when it began exactly once, newest first, although the daemon goes on
    appending; events that share an instant at the end of a page are lost. *)

(** ** Order *)

Abbreviation ts := _entry_ts_for_sort.

Lemma newest_total a b : newest_first a b = true \/ newest_first b a = true.
Proof. apply String.leb_total. Qed.

Lemma newest_trans a b c : newest_first a b = true -> newest_first b c = true -> newest_first a c = true.
Proof. unfold newest_first. intros. by eapply string_leb_trans. Qed.

(** Distinct instants in descending order. *)
Definition newer (a b : obj) : Prop := String.ltb (ts b) (ts a) = true.

Lemma sorted_newer l :
  StronglySorted (fun a b => newest_first a b = true) l -> List.NoDup (map ts l) -> StronglySorted newer l.
Proof.
  induction 1 as [|x l Hl IH Hx]; cbn; [constructor|]. inversion 1 as [|? ? Hnin Hnd]; subst.
  constructor; [by apply IH|]. rewrite List.Forall_forall in *. intros y Hy. unfold newer. rewrite string_ltb_leb.
  destruct (String.leb (ts x) (ts y)) eqn:E; [|done]. destruct Hnin.
  rewrite (string_leb_eq (ts x) (ts y)); [by apply in_map|done|]. by apply Hx.
Qed.

Lemma Sorted_app_r {A} (R : A -> A -> Prop) l k : StronglySorted R (l ++ k) -> StronglySorted R k.
Proof. induction l as [|x l IH]; cbn; [done|]. inversion 1; auto. Qed.

Lemma Sorted_app_lr {A} (R : A -> A -> Prop) l k a b :
  StronglySorted R (l ++ k) -> In a l -> In b k -> R a b.
Proof.
  induction l as [|x l IH]; cbn; [done|]. inversion 1 as [|? ? Hs Hf]; subst. intros [->|Ha] Hb; [|auto].
  rewrite List.Forall_forall in Hf. apply Hf, in_or_app. by right.
Qed.

Lemma filter_all {A} (p : A -> bool) l : Forall (fun x => p x = true) l -> List.filter p l = l.
Proof. induction 1 as [|x l Hx _ IH]; cbn; [done|]. by rewrite Hx, IH. Qed.
Lemma filter_none {A} (p : A -> bool) l : Forall (fun x => p x = false) l -> List.filter p l = [].
Proof. induction 1 as [|x l Hx _ IH]; cbn; [done|]. by rewrite Hx. Qed.

(** The events after the cursor are those behind its page. *)
Lemma filter_before_cursor l k e c :
  StronglySorted newer ((l ++ [e]) ++ k) -> Forall (fun x => _entry_ts x <> None) ((l ++ [e]) ++ k) ->
  _entry_ts e = Some c -> List.filter (before (Some c)) ((l ++ [e]) ++ k) = k.
Proof.
  intros Hs Ht He. assert (ts e = c) as Hc by (unfold ts; by rewrite He).
  rewrite filter_app, (filter_none _ (l ++ [e])), filter_all; [done| |].
  - apply List.Forall_forall. intros x Hx. unfold before. rewrite List.Forall_forall in Ht.
    specialize (Ht x (in_or_app _ _ _ (or_intror Hx))).
    assert (newer e x) as Hn by (eapply Sorted_app_lr; [exact Hs|apply in_or_app; right; by left|done]).
    unfold newer in Hn. rewrite Hc in Hn. unfold ts in Hn. by destruct (_entry_ts x).
  - apply List.Forall_forall. intros x Hx. unfold before. destruct (_entry_ts x) as [t|] eqn:E; [|done].
    assert (ts x = t) as Htx by (unfold ts; by rewrite E). rewrite string_ltb_leb. apply negb_false_iff.
    apply in_app_or in Hx as [Hx|[<-|[]]]; [|rewrite <- Hc, Htx; apply string_leb_refl].
    assert (newer x e) as Hn.
    { rewrite <- app_assoc in Hs. eapply Sorted_app_lr; [exact Hs|done|by left]. }
    unfold newer in Hn. rewrite Hc, Htx, string_ltb_leb in Hn. apply negb_true_iff in Hn.
    destruct (String.leb_total c t); [done|]. congruence.
Qed.

(** ** A walk over the pages *)

Section Walk.
Context `{Env}.

Definition with_cursor (c : string) (f : filters) : filters :=
  mkFilters (f_limit f) (Some c) (f_event f) (f_principal f).

Lemma validate_cursor o f c :
  _validate_filters (JObj o) = Ok f -> _validate_filters (JObj (jset "before_ts" (JStr c) o)) = Ok (with_cursor c f).
Proof.
  intros E. apply res_bind_ok in E as (z & Hz & E). apply res_bind_ok in E as (b & Hb & E).
  apply res_bind_ok in E as (v & Hv & E). apply res_bind_ok in E as (p & Hp & E). injection E as <-.
  unfold _validate_filters, jget_default, jget in *. rewrite assoc_jset_eq, !assoc_jset_ne by done.
  rewrite Hz. cbn -[text_or_none]. by rewrite Hv, Hp.
Qed.

Lemma validate_limit params f : _validate_filters params = Ok f -> 1 <= f_limit f <= MAX_LIMIT.
Proof.
  assert (forall v z, check_limit v = Ok z -> 1 <= z <= MAX_LIMIT) as Hl.
  { intros [|[]|n| | | |] z; cbn; try done; [intros [= <-]; done|].
    destruct (Z.ltb_spec n 1), (Z.ltb_spec MAX_LIMIT n); cbn; try done. intros [= <-]. lia. }
  unfold _validate_filters. destruct params; try done;
    (intros E; apply res_bind_ok in E as (z & Hz & E); apply Hl in Hz;
     apply res_bind_ok in E as (? & _ & E); apply res_bind_ok in E as (? & _ & E);
     apply res_bind_ok in E as (? & _ & E); injection E as <-; exact Hz).
Qed.

(** A client that follows [next_before_ts]; its n-th request sees the log [log n]. *)
Fixpoint audit_walk (fuel : nat) (log : nat -> list string) (n : nat) (o : obj) : option (list (list json)) :=
  match fuel with
  | O => None
  | S fuel' =>
      match get_audit (Some (log n)) (JObj o) with
      | Ok (JObj r) =>
          match jget "events" r, jget "next_before_ts" r with
          | JList es, JNull => Some [es]
          | JList es, JStr c => option_map (cons es) (audit_walk fuel' log (S n) (jset "before_ts" (JStr c) o))
          | _, _ => None
          end
      | _ => None
      end
  end.

Lemma matching_app f a b :
  (forall e, In e (read_entries b) -> _matches e f = false) -> matching (a ++ b) f = matching a f.
Proof.
  intros Hb. unfold matching, read_entries in *. rewrite flat_map_app, filter_app.
  rewrite (filter_none _ (flat_map entry_of_line b)), app_nil_r; [done|]. by apply List.Forall_forall.
Qed.

(** The events below a cursor that is one of the matching events' instants. *)
Lemma matching_cursor lines f e c :
  In e (matching lines f) -> _entry_ts e = Some c ->
  matching lines (with_cursor c f) = List.filter (before (Some c)) (matching lines f).
Proof.
  intros He Hc. unfold matching in *. rewrite (order_by_filter _ newest_total newest_trans). f_equal.
  apply order_by_In, filter_In in He as [_ He]. unfold _matches in He. apply andb_true_iff in He as [_ He].
  induction (read_entries lines) as [|x l IH]; [done|]. cbn [List.filter].
  assert (_matches x (with_cursor c f) = _matches x f && before (Some c) x) as ->.
  { unfold _matches. change (f_before_ts (with_cursor c f)) with (Some c).
    change (matches_event (with_cursor c f) x) with (matches_event f x).
    change (matches_principal (with_cursor c f) x) with (matches_principal f x).
    destruct (matches_event f x && matches_principal f x); [|done]. cbn [andb].
    destruct (before (Some c) x) eqn:B; [|by rewrite andb_false_r]. rewrite andb_true_r. symmetry.
    unfold before in *. destruct (f_before_ts f) as [d|]; [|done]. rewrite Hc in He. destruct (_entry_ts x) as [t|]; [|done].
    rewrite string_ltb_leb in *. rewrite negb_true_iff in *. destruct (String.leb d t) eqn:D; [|done].
    assert (String.leb t c = true) as Htc by (destruct (String.leb_total c t); [congruence|done]).
    rewrite <- He. symmetry. by eapply string_leb_trans. }
  destruct (_matches x f); cbn [andb List.filter]; [|done]. destruct (before (Some c) x); [by rewrite IH|done].
Qed.
End Walk.

(** ** The log while it is read *)

Section Growing.
Context `{Env} (base : list string) (extra : nat -> list string).

Definition growing (n : nat) : list string := base ++ extra n.

(** What is appended is not older than [es]. *)
Definition appended_later (es : list obj) : Prop := forall n e e' t t',
  In e (read_entries (extra n)) -> In e' es -> _entry_ts e = Some t -> _entry_ts e' = Some t' ->
  String.ltb t t' = false.

Definition timed (e : obj) : Prop := _entry_ts e <> None.

(** One page of sorted events, with what is left of them. *)
Lemma page_split limit es :
  1 <= limit -> Forall timed es -> StronglySorted newer es ->
  page_of limit es = (es, None)
  \/ exists page e c rest, es = (page ++ [e]) ++ rest /\ _entry_ts e = Some c
     /\ page_of limit es = (page ++ [e], Some c) /\ Z.of_nat (length (page ++ [e])) <= limit
     /\ List.filter (before (Some c)) es = rest.
Proof.
  intros Hl Ht Hs. unfold page_of. destruct (Z.ltb_spec limit (Z.of_nat (length es))) as [Hlt|Hle].
  - right. set (n := Z.to_nat limit) in *.
    assert (length (firstn n es) = n) as Hn by (rewrite length_firstn; lia).
    destruct (rev (firstn n es)) as [|e p] eqn:Er.
    { apply (f_equal (@length _)) in Er. rewrite length_rev, Hn in Er. cbn in Er. lia. }
    assert (firstn n es = rev p ++ [e]) as Ep by (by rewrite <- (rev_involutive (firstn n es)), Er).
    assert (es = (rev p ++ [e]) ++ skipn n es) as Hes by (rewrite <- Ep; symmetry; apply firstn_skipn).
    assert (In e es) as He by (rewrite Hes; apply in_or_app; left; apply in_or_app; right; by left).
    pose proof Ht as Ht2. rewrite List.Forall_forall in Ht2. specialize (Ht2 e He). unfold timed in Ht2.
    destruct (_entry_ts e) as [c|] eqn:Hc; [|done].
    exists (rev p), e, c, (skipn n es). split_and!; [done|done|by rewrite Ep|rewrite <- Ep, Hn; lia|].
    rewrite Hes at 1. apply filter_before_cursor with (e := e); [by rewrite <- Hes|by rewrite <- Hes|done].
  - left. by rewrite firstn_all2 by lia.
Qed.

Lemma walk_pages fuel n o f es :
  _validate_filters (JObj o) = Ok f -> matching base f = es -> matching (growing n) f = es ->
  StronglySorted newer es -> Forall timed es -> appended_later es -> (length es < fuel)%nat ->
  exists pages, audit_walk fuel growing n o = Some pages /\ concat pages = map JObj es
    /\ Forall (fun p => Z.of_nat (length p) <= f_limit f) pages.
Proof.
  revert n o f es. induction fuel as [|fuel IH]; [lia|]. intros n o f es Hv Hb Hm Hs Ht Hx Hf.
  pose proof (validate_limit _ _ Hv) as [Hl _]. cbn [audit_walk]. unfold get_audit. rewrite Hv.
  unfold mbind, res_bind. rewrite Hm. destruct (page_split (f_limit f) es Hl Ht Hs) as
    [E|(page & e & c & rest & Hes & Hc & E & Hlen & Hrest)]; rewrite E; cbn.
  - exists [map JObj es]. split; [done|]. split; [cbn; apply app_nil_r|]. repeat constructor.
    rewrite length_map. unfold page_of in E. destruct (Z.ltb_spec (f_limit f) (Z.of_nat (length es))); [|done].
    injection E as E _. apply (f_equal (@length _)) in E. rewrite length_firstn in E. lia.
  - assert (In e es) as He by (rewrite Hes; apply in_or_app; left; apply in_or_app; right; by left).
    assert (matching base (with_cursor c f) = rest) as Hbr.
    { rewrite (matching_cursor _ _ e); [by rewrite Hb|by rewrite Hb|done]. }
    destruct (IH (S n) (jset "before_ts" (JStr c) o) (with_cursor c f) rest) as (pages & Hp & Hcat & Hall).
    + by apply validate_cursor.
    + done.
    + unfold growing. rewrite matching_app; [done|]. intros x Hin. unfold _matches.
      cbn [f_before_ts with_cursor before]. destruct (_entry_ts x) as [t|] eqn:Etx; [|apply andb_false_r].
      rewrite (Hx _ _ _ _ _ Hin He Etx Hc). apply andb_false_r.
    + rewrite Hes in Hs. by apply Sorted_app_r in Hs.
    + rewrite Hes in Ht. by apply List.Forall_app in Ht as [_ Ht].
    + intros i x y t t' Hi Hy. apply (Hx i x y t t' Hi). rewrite Hes. apply in_or_app. by right.
    + rewrite Hes in Hf. rewrite !length_app in Hf. cbn in Hf. lia.
    + rewrite Hp. exists (map JObj (page ++ [e]) :: pages). split; [done|]. split.
      * cbn [concat]. rewrite Hcat, <- map_app, <- Hes. done.
      * constructor; [by rewrite length_map|done].
Qed.
End Growing.

(** C33: A client that asks for a page and then follows [next_before_ts] reads, whatever the
    daemon appends meanwhile, every event that matched its filters when it began exactly once, newest
    first and at most [limit] at a time, and comes to an end, provided that these events have
    timestamps of which no two are equal and that what is appended is not older. *)
Theorem audit_walk_enumerates `{Env} base extra params f :
  _validate_filters (JObj params) = Ok f -> extra 0%nat = [] ->
  Forall timed (List.filter (fun e => _matches e f) (read_entries base)) ->
  List.NoDup (map _entry_ts_for_sort (List.filter (fun e => _matches e f) (read_entries base))) ->
  appended_later extra (List.filter (fun e => _matches e f) (read_entries base)) ->
  exists pages events,
    audit_walk (S (length (read_entries base))) (growing base extra) 0 params = Some pages
    /\ concat pages = map JObj events
    /\ Permutation events (List.filter (fun e => _matches e f) (read_entries base))
    /\ StronglySorted newer events
    /\ Forall (fun page => Z.of_nat (length page) <= f_limit f) pages.
Proof.
  intros Hv H0 Ht Hn Hx. set (sel := List.filter (fun e => _matches e f) (read_entries base)) in *.
  assert (Permutation (matching base f) sel) as Hp by apply order_by_perm.
  assert (StronglySorted newer (matching base f)) as Hs.
  { apply sorted_newer; [apply order_by_sorted; [apply newest_total|apply newest_trans]|].
    eapply Permutation_NoDup; [|exact Hn]. symmetry. by apply Permutation_map. }
  edestruct (walk_pages base extra (S (length (read_entries base))) 0 params f (matching base f)) as (pages & Hw & Hc & Hl);
    [done|done| |done|by rewrite Hp| |  |].
  - unfold growing. by rewrite H0, app_nil_r.
  - intros n e e' t t' Hi Hin. apply (Hx n e e' t t' Hi). by rewrite <- Hp.
  - rewrite (Permutation_length Hp). unfold sel. pose proof (filter_length_le (fun e => _matches e f) (read_entries base)). lia.
  - eauto 8.
Qed.

(** ** Concrete logs *)

(** A decoder of lines that are their own timestamps. *)
#[local] Instance line_env : Env := {|
  clock := clock (Env := demo_env); clock_ok := clock_ok (Env := demo_env); uuid_hex := uuid_hex (Env := demo_env);
  token_bytes := token_bytes (Env := demo_env); token_bytes_len := token_bytes_len (Env := demo_env);
  sha256 s := s; subprocess_run _ _ := Ran 0 "" ""; run_host _ _ h := h; which _ := None;
  env_float_repr := env_float_repr (Env := demo_env);
  json_loads s := Some (JObj [("ts", JStr s); ("event", JStr "desk.created"); ("principal", JNull)]);
  json_dumps _ := ""; json_dumps_indent _ := ""; yaml_load _ := None; yaml_dump _ := "";
  fs_fault _ := None; audit_fault _ := None; is_root := false; secrets_root := "/s"; home := "/h"; environ _ := None |}.

Definition two_at_a_time : obj := [("limit", JInt 2); ("event", JStr "desk.created")].

Lemma audit_walk_enumerates_witness :
  (forall n e e' t t', In e (read_entries ((fun n => repeat "t9" n) n)) ->
     In e' (read_entries ["t1"; "t3"; "t2"; ""; "t5"; "t4"]) -> _entry_ts e = Some t -> _entry_ts e' = Some t' ->
     String.ltb t t' = false) /\
  exists pages events,
    audit_walk 6 (growing ["t1"; "t3"; "t2"; ""; "t5"; "t4"] (fun n => repeat "t9" n)) 0 two_at_a_time = Some pages
    /\ concat pages = map JObj events
    /\ Permutation events (read_entries ["t1"; "t3"; "t2"; ""; "t5"; "t4"])
    /\ StronglySorted newer events
    /\ Forall (fun page => Z.of_nat (length page) <= 2) pages.
Proof.
  assert (forall n e e' t t', In e (read_entries (repeat "t9" n)) ->
     In e' (read_entries ["t1"; "t3"; "t2"; ""; "t5"; "t4"]) -> _entry_ts e = Some t -> _entry_ts e' = Some t' ->
     String.ltb t t' = false) as Hlater.
  { intros n e e' t t' He He' Ht Ht'. assert (t = "t9") as ->.
    { apply in_flat_map in He as (l & ->%repeat_spec & [<-|[]]). vm_compute in Ht. by injection Ht. }
    vm_compute in He'. destruct_or! He'; try done; subst e'; vm_compute in Ht'; injection Ht' as <-; reflexivity. }
  split; [exact Hlater|].
  pose proof (audit_walk_enumerates ["t1"; "t3"; "t2"; ""; "t5"; "t4"] (fun n => repeat "t9" n) two_at_a_time
           (mkFilters 2 None (Some "desk.created") None) eq_refl eq_refl) as R.
  assert (Forall timed (read_entries ["t1"; "t3"; "t2"; ""; "t5"; "t4"])) as Ht by (repeat constructor; discriminate).
  assert (List.NoDup (map _entry_ts_for_sort (read_entries ["t1"; "t3"; "t2"; ""; "t5"; "t4"]))) as Hn
    by (vm_compute; repeat constructor; cbn; intros X; destruct_or! X; discriminate).
  specialize (R Ht Hn Hlater). vm_compute in R. vm_compute. exact R.
Defined.

(** Events that share the instant of the last event of a page are on no page. *)
Example boundary_tie_lost :
  audit_walk 9 (growing ["t1"; "t2"; "t2"; "t2"] (fun _ => [])) 0 two_at_a_time
  = Some [map JObj (read_entries ["t2"; "t2"]); map JObj (read_entries ["t1"])].
Proof. vm_compute. reflexivity. Qed.

(** [isinstance(True, int)]. *)
Example bool_limit : _validate_filters (JObj [("limit", JBool true)]) = Ok (mkFilters 1 None None None).
Proof. reflexivity. Qed.
