(* ===== verification/Recovery.v ===== *)
(** [daemon/recovery.py], first part: what the daemon does at startup with the requests that
    were in progress when it last stopped. The daemon's secrets root is the default one, which
    this code names itself. *)

From S2P Require Import Prelude PyStr PyVal Datetime Registry World Rpc Overlay Container DeskSpec Desks.
From Stdlib Require Import List.

Section Recovery.
Context `{Env}.

Record RecoveryReport : Type := mkReport { completed : Z; rolled_back : Z; unknown_method : Z }.

Definition no_report : RecoveryReport := mkReport 0 0 0.
Definition add_report (a b : RecoveryReport) : RecoveryReport :=
  mkReport (completed a + completed b) (rolled_back a + rolled_back b) (unknown_method a + unknown_method b).
Definition one_completed : RecoveryReport := mkReport 1 0 0.
Definition one_rolled_back : RecoveryReport := mkReport 0 1 0.
Definition one_unknown : RecoveryReport := mkReport 0 0 1.

(** ** What a request was about *)

Definition _load_spec (spec_json : json) : obj := match spec_json with JObj o => o | _ => [] end.

Definition _expected_drydock_name (spec : obj) : string :=
  match text_value (jget "name" spec) with
  | Some n => n
  | None => default "" (text_value (jget "project" spec))
  end.

Definition _workspace_id (drydock_name : string) : string := "dock_" +:+ slug drydock_name.

Definition _expected_destroy_desk_id (spec : obj) : string :=
  match text_value (jget "name" spec) with
  | Some n => _workspace_id n
  | None => default "" (text_value (jget "drydock_id" spec))
  end.

Definition _expected_destroy_drydock (spec : obj) (d : db) : option Drydock :=
  match text_value (jget "name" spec) with
  | Some n => get_drydock n d
  | None => match text_value (jget "drydock_id" spec) with
            | Some i => option_map _row_to_drydock (tbl_first (by_id i) (drydocks d))
            | None => None
            end
  end.

Definition _drydock_parent_desk_id (n : string) (d : db) : option string :=
  match tbl_first (by_name n) (drydocks d) with
  | Some r => match dr_parent r with Some p => if is_empty p then None else Some p | None => None end
  | None => None
  end.

Definition _desk_ref (drydock : Drydock) (spec : obj) (d : db) : json :=
  JObj ([("drydock_id", JStr (id drydock)); ("name", JStr (name drydock));
         ("project", JStr (default (project drydock) (text_value (jget "project" spec))));
         ("branch", JStr (if is_empty (branch drydock) then "ws/" +:+ name drydock else branch drydock));
         ("state", JStr "running"); ("container_id", JStr (container_id drydock));
         ("worktree_path", JStr (worktree_path drydock))]
        ++ match _drydock_parent_desk_id (name drydock) d with
           | Some p => [("parent_drydock_id", JStr p)]
           | None => []
           end).

(** ** Undoing a create *)

Definition _remove_worktree_best_effort (path : string) : W unit :=
  found ← path_exists path;
  if found : bool then rmtree_quiet path else mret tt.

Definition _remove_overlay_best_effort (path : string) : W unit :=
  found ← path_exists path;
  if found : bool then catch (remove_overlay path) (fun _ => mret tt) else mret tt.

Definition overlay_of_id (i : string) : string := OVERLAY_DIR // (i +:+ ".devcontainer.json").

Definition partial_state (st : string) : string :=
  "drydock_partial_state:" +:+ (if is_empty st then "unknown" else st).

Definition _rollback_partial_create (drydock_name : string) (drydock : option Drydock) : W string :=
  match drydock with
  | None =>
      _ ← (if is_empty drydock_name then mret tt
           else
             _ ← _remove_worktree_best_effort (DEFAULT_CHECKOUT_BASE // _workspace_id drydock_name);
             _remove_overlay_best_effort (overlay_of_id (_workspace_id drydock_name)));
      mret "drydock_missing"
  | Some d =>
      _ ← (if is_empty (worktree_path d) then mret tt
           else _remove_worktree_best_effort (path_str (worktree_path d)));
      cfg ← lift (match config d with JObj o => Ok o | v => attr_error v "get" end);
      _ ← (match text_value (jget "overlay_path" cfg) with
           | Some p => _remove_overlay_best_effort (path_str p)
           | None => _remove_overlay_best_effort (overlay_of_id (id d))
           end);
      _ ← delete_desk_row (name d);
      mret (partial_state (state d))
  end.

(** ** One request *)

Definition recoverable (method : string) : bool :=
  existsb (String.eqb method) ["CreateDesk"; "DestroyDesk"; "SpawnChild"].

Definition crash_outcome (reason : string) : json :=
  JObj [("code", JInt (-32000)); ("message", JStr "crashed_during_create");
        ("data", JObj [("reason", JStr reason)])].

Definition recover_unknown (key method : string) : W RecoveryReport :=
  _ ← _finish_task_log key "failed"
        (JObj [("code", JInt (-32000)); ("message", JStr "unknown_method_during_recovery");
               ("data", JObj [("method", JStr method)])]);
  mret one_unknown.

Definition recover_destroy (key : string) (spec : obj) : W RecoveryReport :=
  target ← reg_get (_expected_destroy_drydock spec);
  match target with
  | None =>
      _ ← _finish_task_log key "completed"
            (JObj [("destroyed", JBool true); ("drydock_id", JStr (_expected_destroy_desk_id spec));
                   ("recovered", JBool true)]);
      mret one_completed
  | Some d =>
      depth ← reg_get (fun b => S (length (drydocks b)));
      '(cascaded, failures) ← _destroy_tree false depth [] d;
      let ok := match failures with [] => true | _ => false end in
      _ ← _finish_task_log key (if ok then "completed" else "failed")
            (JObj ([("destroyed", JBool true); ("drydock_id", JStr (id d)); ("cascaded", jstrs cascaded);
                    ("recovered", JBool true)]
                   ++ if ok then [] else [("partial_failures", JList failures)]));
      mret (if ok then one_completed else one_rolled_back)
  end.

Definition is_up (d : Drydock) : bool := (state d =s "running") && negb (is_empty (container_id d)).

Definition recover_create (key : string) (spec : obj) : W RecoveryReport :=
  let drydock_name := _expected_drydock_name spec in
  drydock ← reg_get (fun b => if is_empty drydock_name then None else get_drydock drydock_name b);
  match (match drydock with Some d => if is_up d then Some d else None | None => None end) with
  | Some d =>
      outcome ← reg_get (_desk_ref d spec);
      _ ← _finish_task_log key "completed" outcome;
      mret one_completed
  | None =>
      reason ← _rollback_partial_create drydock_name drydock;
      _ ← _finish_task_log key "failed" (crash_outcome reason);
      mret one_rolled_back
  end.

Definition recover_row (row : task_row) : W RecoveryReport :=
  let key := tl_request_id row in
  if negb (recoverable (tl_method row)) then recover_unknown key (tl_method row)
  else
    let spec := _load_spec (tl_spec row) in
    if tl_method row =s "DestroyDesk" then recover_destroy key spec else recover_create key spec.

(** ** All of them, oldest first *)

Definition in_progress (r : task_row) : bool := tl_status r =s "in_progress".
Definition le_created (a b : task_row) : bool := String.leb (tl_created_at a) (tl_created_at b).

Fixpoint recover_rows (rows : list task_row) : W RecoveryReport :=
  match rows with
  | [] => mret no_report
  | r :: rows' => a ← recover_row r; b ← recover_rows rows'; mret (add_report a b)
  end.

Definition recover_in_progress : W RecoveryReport :=
  rows ← reg_get (fun d => order_by le_created (tbl_select in_progress (task_log d)));
  recover_rows rows.
End Recovery.
