(* ===== verification/RecoveryFacts.v ===== *)
(** Correctness of [Recovery.v]: recovery always ends, leaves no request in progress, and
    takes no desk but those an unfinished request was about. *)

From S2P Require Import Prelude PyStr PyVal Datetime Registry RegistryFacts World Rpc WorldFacts RpcFacts Overlay Container DeskSpec Desks DestroyFacts Recovery.
From Stdlib Require Import List Permutation.

Section RecoveryFacts.
Context `{Env}.

(** ** The rows of the log *)

(** The row of [key] ended, the others are as they were. *)
Definition finished (key : string) (t t' : list task_row) : Prop := closes_key tl_request_id in_progress key t t'.

Lemma finished_update key st out now t : st <> "in_progress" ->
  finished key t (tbl_update (by_request key) (finish_row st out now) t).
Proof. intros Hst. exists (finish_row st out now). split_and!; try done. intros r. unfold in_progress. cbn. by apply String.eqb_neq. Qed.

Lemma finish_run key st out w :
  exists now w', _finish_task_log key st out w = (Ok tt, w')
    /\ w_db w' = set_task_log (tbl_update (by_request key) (finish_row st out now) (task_log (w_db w))) (w_db w).
Proof. unfold _finish_task_log. rewrite utc_now_bind, modify_eq. by eexists _, _. Qed.

Definition task_ids (t : list task_row) : list string := map tl_request_id t.

(** ** What one request's recovery does *)

(** The desk [d] is the one an unfinished request was about. *)
Definition target_of (t : task_row) (d : Drydock) : Prop :=
  let spec := _load_spec (tl_spec t) in
  if tl_method t =s "DestroyDesk"
  then match text_value (jget "name" spec) with
       | Some n => name d = n
       | None => text_value (jget "drydock_id" spec) = Some (id d)
       end
  else name d = _expected_drydock_name spec /\ is_up d = false.

(** The desk of [r] is that desk, or for a destroy one below it. *)
Definition concerns (t : task_row) (b : db) (r : dock_row) : Prop :=
  exists rd, In rd (drydocks b) /\ target_of t (dr_dock rd)
    /\ (id (dr_dock r) = id (dr_dock rd)
        \/ tl_method t = "DestroyDesk" /\ descends b (id (dr_dock rd)) (id (dr_dock r))).

Lemma concerns_mono t b b' r : sub_rows b b' -> concerns t b' r -> concerns t b r.
Proof.
  intros Hs (rd & Hrd & Ht & Hc). exists rd. split; [by apply Hs|]. split; [done|].
  destruct Hc as [Hc|[Hm Hd]]; [by left|right; split; [done|by eapply descends_mono]].
Qed.

Record recovered (t : task_row) (b b' : db) : Prop := mkRecovered {
  rec_rows : sub_rows b b';
  rec_log : finished (tl_request_id t) (task_log b) (task_log b');
  rec_taken : forall r, In r (drydocks b) -> In r (drydocks b') \/ recoverable (tl_method t) = true /\ concerns t b r
}.

Lemma recovered_same t b b' st out now :
  st <> "in_progress" ->
  b' = set_task_log (tbl_update (by_request (tl_request_id t)) (finish_row st out now) (task_log b)) b ->
  recovered t b b'.
Proof. intros Hst ->. split; [by intros r|by apply finished_update|by left]. Qed.

Definition total {A} (m : W A) : Prop := forall w, exists a w', m w = (Ok a, w') /\ db_files w' = db_files w.

Lemma total_best_effort p : total (_remove_worktree_best_effort p).
Proof.
  intros w. assert (quiet db_files (_remove_worktree_best_effort p)) as Hq
    by (unfold _remove_worktree_best_effort; quiet_step).
  specialize (Hq w). unfold _remove_worktree_best_effort, path_exists, rmtree_quiet, catch in *. rewrite gets_bind in *.
  destruct (is_some _); [|by eexists _, _]. destruct ((fs_op ≫= _) w) as [[u|e] w1]; by eexists _, _.
Qed.

Lemma total_overlay p : total (_remove_overlay_best_effort p).
Proof.
  intros w. assert (quiet db_files (_remove_overlay_best_effort p)) as Hq
    by (unfold _remove_overlay_best_effort, remove_overlay; quiet_step).
  specialize (Hq w). unfold _remove_overlay_best_effort, path_exists, catch in *. rewrite gets_bind in *.
  destruct (is_some _); [|by eexists _, _]. destruct (remove_overlay p w) as [[u|e] w1]; by eexists _, _.
Qed.

Lemma total_bind {A B} (m : W A) (k : A -> W B) : total m -> (forall a, total (k a)) -> total (m ≫= k).
Proof.
  intros Hm Hk w. destruct (Hm w) as (a & w1 & E & V). destruct (Hk a w1) as (b & w2 & E2 & V2).
  exists b, w2. rewrite (bind_ok _ _ _ _ _ E). split; [done|congruence].
Qed.
Lemma total_ret {A} (a : A) : total (mret a).
Proof. intros w. by exists a, w. Qed.

Lemma total_db {A} (m : W A) w : total m -> exists a w', m w = (Ok a, w') /\ w_db w' = w_db w.
Proof. intros Ht. destruct (Ht w) as (a & w' & E & V). exists a, w'. split; [done|]. by injection V. Qed.

(** Undoing a create takes the row, if there is one. *)
Lemma rollback_run n o w :
  (forall d, o = Some d -> keyed d (w_db w) /\ dict_config d) ->
  exists reason w', _rollback_partial_create n o w = (Ok reason, w')
    /\ task_log (w_db w') = task_log (w_db w)
    /\ drydocks (w_db w') = match o with
                            | Some d => List.filter (kept_row [id d]) (drydocks (w_db w))
                            | None => drydocks (w_db w)
                            end.
Proof.
  intros Ho. destruct o as [d|]; unfold _rollback_partial_create.
  - destruct (Ho d eq_refl) as [Hk Hc].
    destruct (total_db (if is_empty (worktree_path d) then mret tt
      else _remove_worktree_best_effort (path_str (worktree_path d))) w) as (u & w1 & E1 & V1);
      [destruct (is_empty _); [apply total_ret|apply total_best_effort]|].
    rewrite (bind_ok _ _ _ _ _ E1). unfold dict_config in Hc. destruct (config d) as [| | | | | |cfg]; try done.
    rewrite lift_bind.
    match goal with |- context[(?m ≫= _) w1] =>
      destruct (total_db m w1) as (u2 & w2 & E2 & V2); [destruct (text_value _); apply total_overlay|] end.
    rewrite (bind_ok _ _ _ _ _ E2). unfold delete_desk_row. rewrite bind_bind, utc_now_bind, reg_bind. cbn [w_db].
    set (now := isoformat _).
    destruct (delete_row_run now d (w_db w2)) as (es & Ed); [by rewrite V2, V1|].
    assert (fst (delete_drydock now (name d) (w_db w2)) = Ok tt) as ->
      by (unfold delete_drydock; rewrite gets_bind; by destruct (get_drydock _ _)).
    eexists _, _. split; [done|]. cbn [w_db set_db]. by rewrite Ed, V2, V1.
  - match goal with |- context[(?m ≫= _) w] => destruct (total_db m w) as (u & w1 & E1 & V1) end.
    { destruct (is_empty n); [apply total_ret|]. apply total_bind; [apply total_best_effort|intros _; apply total_overlay]. }
    rewrite (bind_ok _ _ _ _ _ E1). eexists _, _. split; [done|]. by rewrite V1.
Qed.

Lemma fit_dock rank b d : rows_fit rank b -> In d (map dr_dock (drydocks b)) -> keyed d b /\ dict_config d.
Proof.
  intros Hf (r & <- & Hr)%in_map_iff. split; [|by apply (fit_dicts _ _ Hf)].
  intros r' Hr'. by apply (fit_keys _ _ Hf).
Qed.

Lemma expected_In t b d : tl_method t = "DestroyDesk" ->
  _expected_destroy_drydock (_load_spec (tl_spec t)) b = Some d -> In d (map dr_dock (drydocks b)) /\ target_of t d.
Proof.
  intros Hm. unfold _expected_destroy_drydock, target_of. rewrite Hm. cbn [String.eqb Ascii.eqb]. cbv zeta.
  destruct (text_value _) as [n|]; [apply get_drydock_In|].
  destruct (text_value _) as [i|]; [|done]. destruct (tbl_first _ _) as [r|] eqn:E; [|done]. intros [= <-].
  apply tbl_first_Some in E as [Hr Hi]. split; [by apply in_map|]. unfold by_id in Hi. apply String.eqb_eq in Hi. by subst i.
Qed.

Lemma status_ne b : (if b : bool then "completed" else "failed") <> "in_progress".
Proof. by destruct b. Qed.

(** The end of a request whose recovery has taken some rows. *)
Lemma recovered_end t b b1 b' st out now :
  st <> "in_progress" -> sub_rows b b1 -> task_log b1 = task_log b ->
  (forall r, In r (drydocks b) -> In r (drydocks b1) \/ recoverable (tl_method t) = true /\ concerns t b r) ->
  b' = set_task_log (tbl_update (by_request (tl_request_id t)) (finish_row st out now) (task_log b1)) b1 ->
  recovered t b b'.
Proof. intros Hst Hs Hl Ht ->. split; [done| |done]. cbn. rewrite Hl. by apply finished_update. Qed.

Lemma kept_or_in ids b r : In r (drydocks b) -> In r (List.filter (kept_row ids) (drydocks b)) \/ In (id (dr_dock r)) ids.
Proof.
  intros Hr. destruct (kept_row ids r) eqn:E; [left; by apply filter_In|right].
  unfold kept_row in E. apply negb_false_iff in E. by apply among_In.
Qed.

Lemma destroy_row_run rank t w :
  rows_fit rank (w_db w) -> tl_method t = "DestroyDesk" ->
  exists rep w', recover_destroy (tl_request_id t) (_load_spec (tl_spec t)) w = (Ok rep, w')
    /\ recovered t (w_db w) (w_db w') /\ completed rep + rolled_back rep + unknown_method rep = 1.
Proof.
  intros Hf Hm. unfold recover_destroy. rewrite reg_gets_bind.
  destruct (_expected_destroy_drydock _ (w_db w)) as [d|] eqn:Ed.
  - destruct (expected_In _ _ _ Hm Ed) as [Hin Htg]. destruct (fit_dock _ _ _ Hf Hin) as [Hk Hc]. rewrite reg_gets_bind.
    apply in_map_iff in Hin as (rd & Erd & Hrd).
    destruct (tree_run false rank (row_ids (w_db w)) (S (length (drydocks (w_db w)))) [] d w) as (ids & fs & w1 & E1 & [G F C] & D1);
      [done|done|done|by intros x|by rewrite <- Erd; apply (in_map (fun r => id (dr_dock r)))|constructor|by intros x| |by intros v []|].
    { unfold row_ids. rewrite length_map. cbn. lia. }
    rewrite (bind_ok _ _ _ _ _ E1). cbv zeta. set (ok := match fs with [] => true | _ => false end).
    match goal with |- context[_finish_task_log ?k ?st ?out ≫= _] =>
      destruct (finish_run k st out w1) as (now & w2 & E2 & V2) end.
    rewrite (bind_ok _ _ _ _ _ E2). eexists _, _. split; [done|]. split; [|by destruct ok].
    eapply (recovered_end t (w_db w) (w_db w1)); [apply status_ne|by eapply gone_sub| | |exact V2].
    + pose proof (gone_rest _ _ _ G) as E. by injection E.
    + intros r Hr. destruct (kept_or_in (id d :: ids) _ r Hr) as [Hl|Hi].
      * left. by rewrite (gone_rows _ _ _ G).
      * right. split; [by rewrite Hm|]. exists rd. rewrite Erd. split; [done|]. split; [done|]. destruct Hi as [->|Hi]; [by left|right; auto].
  - match goal with |- context[_finish_task_log ?k ?st ?out ≫= _] =>
      destruct (finish_run k st out w) as (now & w2 & E2 & V2) end.
    rewrite (bind_ok _ _ _ _ _ E2). eexists _, _. split; [done|]. split; [|done].
    eapply recovered_same; [|exact V2]. done.
Qed.

Lemma create_row_run rank t w :
  rows_fit rank (w_db w) -> recoverable (tl_method t) = true -> tl_method t <> "DestroyDesk" ->
  exists rep w', recover_create (tl_request_id t) (_load_spec (tl_spec t)) w = (Ok rep, w')
    /\ recovered t (w_db w) (w_db w') /\ completed rep + rolled_back rep + unknown_method rep = 1.
Proof.
  intros Hf Hrec Hm. unfold recover_create. cbv zeta. rewrite reg_gets_bind. set (n := _expected_drydock_name _).
  set (o := if is_empty n then None else get_drydock n (w_db w)).
  assert (forall d, o = Some d -> In d (map dr_dock (drydocks (w_db w))) /\ name d = n) as Ho.
  { intros d. subst o. destruct (is_empty n); [done|]. apply get_drydock_In. }
  destruct (match o with Some d => if is_up d then Some d else None | None => None end) as [d|] eqn:Eu.
  - rewrite reg_gets_bind.
    match goal with |- context[_finish_task_log ?k ?st ?out ≫= _] =>
      destruct (finish_run k st out w) as (now & w2 & E2 & V2) end.
    rewrite (bind_ok _ _ _ _ _ E2). eexists _, _. split; [done|]. split; [|done].
    eapply recovered_same; [|exact V2]. done.
  - destruct (rollback_run n o w) as (reason & w1 & E1 & L1 & R1).
    { intros d Hd. destruct (Ho d Hd) as [Hin _]. by apply (fit_dock rank). }
    rewrite (bind_ok _ _ _ _ _ E1).
    match goal with |- context[_finish_task_log ?k ?st ?out ≫= _] =>
      destruct (finish_run k st out w1) as (now & w2 & E2 & V2) end.
    rewrite (bind_ok _ _ _ _ _ E2). eexists _, _. split; [done|]. split; [|done].
    eapply (recovered_end t (w_db w) (w_db w1)); [|intros r Hr|exact L1|intros r Hr|exact V2]; [done|..].
    + rewrite R1 in Hr. destruct o; [by apply filter_In in Hr as [? _]|done].
    + rewrite R1. destruct o as [d|] eqn:Eo; [|by left].
      destruct (kept_or_in [id d] _ r Hr) as [Hl|Hi]; [by left|]. right. split; [done|].
      destruct (Ho d eq_refl) as [(rd & Erd & Hrd)%in_map_iff Hn]. exists rd. rewrite Erd. split; [done|].
      destruct Hi as [Hi|[]]. split; [|by left]. unfold target_of. apply String.eqb_neq in Hm. rewrite Hm.
      split; [done|by destruct (is_up d)].
Qed.

Lemma recover_row_run rank t w :
  rows_fit rank (w_db w) ->
  exists rep w', recover_row t w = (Ok rep, w')
    /\ recovered t (w_db w) (w_db w') /\ completed rep + rolled_back rep + unknown_method rep = 1.
Proof.
  intros Hf. unfold recover_row. destruct (recoverable (tl_method t)) eqn:Er; cbn [negb].
  - destruct (String.eqb_spec (tl_method t) "DestroyDesk"); [by apply (destroy_row_run rank)|by apply (create_row_run rank)].
  - unfold recover_unknown.
    match goal with |- context[_finish_task_log ?k ?st ?out ≫= _] =>
      destruct (finish_run k st out w) as (now & w2 & E2 & V2) end.
    rewrite (bind_ok _ _ _ _ _ E2). eexists _, _. split; [done|]. split; [|done].
    eapply recovered_same; [|exact V2]. done.
Qed.

(** ** The whole log *)

(** What the recovery of the requests [ts] does. *)
Record swept (ts : list task_row) (b b' : db) : Prop := mkSwept {
  sw_rows : sub_rows b b';
  sw_log : closes_keys tl_request_id in_progress (task_ids ts) (task_log b) (task_log b');
  sw_taken : forall r, In r (drydocks b) ->
    In r (drydocks b') \/ exists t, In t ts /\ recoverable (tl_method t) = true /\ concerns t b r
}.

Lemma swept_cons t ts b b1 b2 : recovered t b b1 -> swept ts b1 b2 -> swept (t :: ts) b b2.
Proof.
  intros [S1 L1 T1] [S2 L2 T2]. split.
  - intros r Hr. by apply S1, S2.
  - by eapply closes_cons.
  - intros r Hr. destruct (T1 r Hr) as [Hr1|[Hm Hc]]; [|right; exists t; split; [by left|done]].
    destruct (T2 r Hr1) as [Hr2|(t2 & Ht2 & Hm & Hc)]; [by left|]. right. exists t2. split; [by right|]. split; [done|].
    by eapply concerns_mono.
Qed.

Lemma recover_rows_run rank ts w :
  rows_fit rank (w_db w) ->
  exists rep w', recover_rows ts w = (Ok rep, w') /\ swept ts (w_db w) (w_db w')
    /\ completed rep + rolled_back rep + unknown_method rep = Z.of_nat (length ts).
Proof.
  revert w. induction ts as [|t ts IH]; intros w Hf; cbn [recover_rows].
  { exists no_report, w. split; [done|]. split; [|done]. split; [by intros r|apply closes_nil|auto]. }
  destruct (recover_row_run rank t w Hf) as (a & w1 & E1 & R1 & N1). rewrite (bind_ok _ _ _ _ _ E1).
  destruct (IH w1) as (b & w2 & E2 & R2 & N2); [by eapply rows_fit_sub; [apply R1|]|].
  rewrite (bind_ok _ _ _ _ _ E2). eexists _, _. split; [done|]. split; [by eapply swept_cons|].
  cbn [completed rolled_back unknown_method add_report length]. lia.
Qed.

Lemma open_rows r b : In r (order_by le_created (tbl_select in_progress (task_log b))) <-> In r (task_log b) /\ in_progress r = true.
Proof. by rewrite order_by_In, tbl_select_In. Qed.

Lemma recover_run w : family (w_db w) ->
  let ts := order_by le_created (tbl_select in_progress (task_log (w_db w))) in
  exists rep w', recover_in_progress w = (Ok rep, w') /\ swept ts (w_db w) (w_db w')
    /\ completed rep + rolled_back rep + unknown_method rep = Z.of_nat (tbl_count in_progress (task_log (w_db w))).
Proof.
  intros Hfam ts. destruct (family_fit _ Hfam) as (rank & Hf).
  destruct (recover_rows_run rank ts w Hf) as (rep & w' & E & S & N). exists rep, w'. split.
  - unfold recover_in_progress. by rewrite reg_gets_bind.
  - split; [done|]. rewrite N. f_equal. subst ts. by rewrite (Permutation_length (order_by_perm _ _)).
Qed.

Lemma recover_leaves_none_open w : family (w_db w) -> List.NoDup (task_ids (task_log (w_db w))) ->
  exists rep w', recover_in_progress w = (Ok rep, w') /\ forall r, In r (task_log (w_db w')) -> in_progress r = false.
Proof.
  intros Hfam Hnd. destruct (recover_run w Hfam) as (rep & w' & E & [_ L _] & _). exists rep, w'. split; [exact E|].
  apply (closes_all _ _ _ _ _ Hnd (fun r => open_rows r _) L).
Qed.

(** C19: The recovery at startup always ends, whatever the requests in progress were and whatever
    docker and the files answer; afterwards no request of the log is in progress, so no
    retry is told to wait for ever; those that had ended keep their outcome; and the report counts
    every request it found. *)
Theorem recovery_ends_every_request w :
  family (w_db w) -> List.NoDup (task_ids (task_log (w_db w))) ->
  exists rep w', recover_in_progress w = (Ok rep, w')
    /\ (forall r, In r (task_log (w_db w')) -> in_progress r = false)
    /\ (forall r, In r (task_log (w_db w)) -> in_progress r = false -> In r (task_log (w_db w')))
    /\ task_ids (task_log (w_db w')) = task_ids (task_log (w_db w))
    /\ completed rep + rolled_back rep + unknown_method rep
       = Z.of_nat (tbl_count in_progress (task_log (w_db w))).
Proof.
  intros Hfam Hnd. destruct (recover_run w Hfam) as (rep & w' & E & [S L T] & N).
  destruct (closes_all _ _ _ _ _ Hnd (fun r => open_rows r _) L) as [Ho Hk].
  exists rep, w'. split_and!; try done. apply L.
Qed.

(** Recovery takes no desk's row but that of a desk an unfinished CreateDesk or SpawnChild
    named and that is not running with a container, or one that an unfinished DestroyDesk
    named or that lies below it; it adds and changes none. *)
Theorem recovery_takes_only_unfinished w :
  family (w_db w) ->
  incl (drydocks (w_db (snd (recover_in_progress w)))) (drydocks (w_db w))
  /\ forall r, In r (drydocks (w_db w)) -> ~ In r (drydocks (w_db (snd (recover_in_progress w)))) ->
     exists t, In t (task_log (w_db w)) /\ in_progress t = true /\ recoverable (tl_method t) = true
               /\ concerns t (w_db w) r.
Proof.
  intros Hfam. destruct (recover_run w Hfam) as (rep & w' & -> & [S L T] & N). cbn [snd]. split; [exact S|].
  intros r Hr Hn. destruct (T r Hr) as [Hl|(t & Ht & Hm & Hc)]; [by exfalso|].
  apply order_by_In, tbl_select_In in Ht as [Ht Hp]. eauto.
Qed.
End RecoveryFacts.

(** ** A daemon that starts after a crash *)

Definition crash_row (key method : string) (spec : json) : task_row :=
  mkTask key method spec "in_progress" None "t" None.

Definition crashed_world : world :=
  set_db (set_task_log [crash_row "1" "DestroyDesk" (JObj [("name", JStr "a")]);
                        crash_row "2" "CreateDesk" (JObj [("name", JStr "c")]);
                        crash_row "3" "RequestCapability" (JObj [])] family_db) family_world.

Lemma crashed_family : family (w_db crashed_world).
Proof. destruct family_db_ok as [A B C D]. by split. Qed.

Example recovery_ex :
  let '(r, w') := recover_in_progress (H := demo_env) crashed_world in
  r = Ok (mkReport 1 1 1)
  /\ drydocks (w_db w') = []
  /\ map (fun t => (tl_request_id t, tl_status t)) (task_log (w_db w')) = [("1", "completed"); ("2", "failed"); ("3", "failed")].
Proof. vm_compute. auto. Qed.

Lemma recovery_ends_every_request_witness :
  exists rep w', recover_in_progress (H := demo_env) crashed_world = (Ok rep, w')
    /\ completed rep + rolled_back rep + unknown_method rep = 3.
Proof.
  assert (List.NoDup (task_ids (task_log (w_db crashed_world)))) as Hnd
    by (repeat constructor; cbn; intuition congruence).
  destruct (recovery_ends_every_request (H := demo_env) crashed_world crashed_family Hnd) as (rep & w' & E & _ & _ & _ & N).
  exists rep, w'. split; [exact E|exact N].
Defined.

Lemma recovery_takes_only_unfinished_witness :
  incl (drydocks (w_db (snd (recover_in_progress (H := demo_env) crashed_world)))) (drydocks (w_db crashed_world)).
Proof. exact (proj1 (recovery_takes_only_unfinished (H := demo_env) crashed_world crashed_family)). Defined.

(** The desk an unfinished CreateDesk names need not be one that it made: a request that ended in an
    internal error stays in progress in the log, and a restart then destroys the desk of that
    name, worktree and row, if it is stopped at the time. *)
Definition suspended_world : world :=
  set_host {["/w/c" := NDir; "/w/c/work.txt" := NFile "unpushed"]}
    (set_db (set_task_log [crash_row "2" "CreateDesk" (JObj [("name", JStr "c")])]
      (set_drydocks [set_fields [F_state "suspended"; F_worktree_path "/w/c"] (demo_row "c" None)] empty_db)) empty_world).

Example recovery_takes_suspended_desk :
  let w' := snd (recover_in_progress (H := demo_env) suspended_world) in
  drydocks (w_db w') = [] /\ w_host w' !! "/w/c/work.txt" = None.
Proof. vm_compute. auto. Qed.
