(* ===== verification/ProjectConfigFacts.v ===== *)
(** Correctness of [ProjectConfig.v]: a storage mount declared in the project file implies the
    capability, the storage scope and the firewall range it needs, keeps what the file
    declares itself, and expanding twice changes nothing more. *)

From S2P Require Import Prelude PyStr PyVal Policy PolicyFacts PolicyGrants World Container ProjectConfig.
From Stdlib Require Import List.

(** ** The scope of a mount *)

Lemma rstrip_app_ne p a s : rstrip_by p s <> "" -> rstrip_by p (a +:+ s) = a +:+ rstrip_by p s.
Proof.
  intros Hs. induction a as [|c a IH]; [done|]. cbn. rewrite IH.
  destruct (a +:+ rstrip_by p s) as [|d r] eqn:E; [by apply app_eq_nil_s in E as [_ E]|]. done.
Qed.

Lemma rstrip_app_all p s t : all_chars p t = true -> rstrip_by p (s +:+ t) = rstrip_by p s.
Proof.
  intros Ht. induction s as [|c s IH]; cbn; [|by rewrite IH].
  induction t as [|c t IHt]; [done|]. cbn in *. apply andb_true_iff in Ht as [Hc Ht]. by rewrite IHt, Hc.
Qed.

(** The [s3://] URL of a place, with trailing slashes [t]. *)
Definition mount_url (bucket pfx t : string) : string :=
  "s3://" +:+ (bucket +:+ (if is_empty pfx then "" else "/" +:+ pfx) +:+ t).

Lemma mount_body bucket pfx t :
  bucket <> "" -> has_char "/" bucket = false -> strip_by is_slash pfx = pfx -> all_chars is_slash t = true ->
  rstrip_by is_slash (bucket +:+ (if is_empty pfx then "" else "/" +:+ pfx) +:+ t)
  = bucket +:+ (if is_empty pfx then "" else "/" +:+ pfx).
Proof.
  intros Hb1 Hb2 Hp Ht. rewrite <- app_assoc_s, rstrip_app_all by done.
  assert (rstrip_by is_slash bucket = bucket) as Hb by (apply rstrip_by_none; by rewrite has_char_all, negb_false_iff in Hb2).
  destruct (is_empty pfx) eqn:E; [by rewrite app_nil_r_s|].
  assert (rstrip_by is_slash pfx = pfx) as Hr by (rewrite <- Hp at 1; unfold strip_by; rewrite rstrip_by_idem; exact Hp).
  rewrite <- app_assoc_s, rstrip_app_ne; rewrite Hr; [done|]. by apply is_empty_false.
Qed.

Lemma mount_scope_render sc t :
  scope_wf sc -> all_chars is_slash t = true ->
  mount_scope (sc_mode_max sc) (mount_url (sc_bucket sc) (sc_prefix sc) t) = render_storage_scope sc.
Proof.
  destruct sc as [b pfx mode]. intros [(Hb1 & Hb2 & _) (Hp & _) Hm] Ht. cbn [sc_bucket sc_prefix sc_mode_max] in *.
  unfold mount_scope, mount_url. change (sdrop 5 ("s3://" +:+ ?x)) with x.
  change (Ascii.eqb "/") with is_slash. cbv zeta. rewrite mount_body by done. unfold render_storage_scope.
  cbn [sc_bucket sc_prefix sc_mode_max].
  assert (is_empty (b +:+ (if is_empty pfx then "" else "/" +:+ pfx)) = false) as -> by by destruct b.
  rewrite app_assoc_s. destruct (mode =s "rw"); cbn [String.append]; by rewrite ?app_assoc_s.
Qed.

Lemma mount_url_s3 b p t : startswith (mount_url b p t) "s3://" = true.
Proof. apply startswith_spec. by eexists. Qed.

(** ** Adding texts *)

Lemma add_text_In x l : In (JStr x) (add_text x l).
Proof.
  unfold add_text. destruct (existsb (str_eq_json x) l) eqn:E.
  - apply existsb_exists in E as ([] & Hin & Hs); try done. cbn in Hs. by apply String.eqb_eq in Hs as ->.
  - apply in_app_iff. right. by left.
Qed.

Lemma add_text_incl x l : incl l (add_text x l).
Proof. unfold add_text. destruct (existsb _ l); [by intros v|]. intros v Hv. apply in_app_iff. by left. Qed.

Lemma add_text_again x l : In (JStr x) l -> add_text x l = l.
Proof.
  intros Hx. unfold add_text. assert (existsb (str_eq_json x) l = true) as ->; [|done].
  apply existsb_exists. exists (JStr x). split; [done|apply String.eqb_refl].
Qed.

Section Expansion.
Context `{FloatRepr}.

(** What an entry asks for. *)
Definition entry_needs (entry : json) (scope fw : string) : Prop :=
  exists o source mode, entry = JObj o /\ check_source (jget_default "source" (JStr "") o) = Ok source
    /\ check_mode (jget "mode" o) = Ok mode /\ check_target (jget_default "target" (JStr "") o) = Ok tt
    /\ scope = mount_scope mode source /\ fw = firewall_entry (jget "region" o).

Lemma expand_entry_ok acc e acc' :
  expand_entry acc e = Ok acc' <->
  exists scope fw, entry_needs e scope fw /\ acc' = (add_text scope (fst acc), add_text fw (snd acc)).
Proof.
  split.
  - unfold expand_entry. destruct e as [| | | | | |o]; try discriminate. intros E.
    apply res_bind_ok in E as (source & Es & E). apply res_bind_ok in E as (mode & Em & E).
    apply res_bind_ok in E as ([] & Et & [= <-]). eexists _, _. split; [|reflexivity]. by exists o, source, mode.
  - intros (scope & fw & (o & source & mode & -> & Es & Em & Et & -> & ->) & ->). unfold expand_entry.
    by rewrite Es, Em, Et.
Qed.

Lemma expand_entries_ok acc es acc' :
  expand_entries acc es = Ok acc' ->
  incl (fst acc) (fst acc') /\ incl (snd acc) (snd acc')
  /\ forall e, In e es -> exists scope fw, entry_needs e scope fw /\ In (JStr scope) (fst acc') /\ In (JStr fw) (snd acc').
Proof.
  revert acc. induction es as [|e es IH]; intros acc E; cbn in E.
  - injection E as <-. split; [by intros v|]. split; [by intros v|]. by intros ? [].
  - apply res_bind_ok in E as (acc1 & E1 & E). destruct (IH _ E) as (I1 & I2 & I3).
    apply expand_entry_ok in E1 as (scope & fw & Hn & ->). cbn [fst snd] in *.
    split; [intros v Hv; by apply I1, add_text_incl|]. split; [intros v Hv; by apply I2, add_text_incl|].
    intros e' [<-|He]; [|by apply I3]. exists scope, fw. split; [done|]. split; [apply I1|apply I2]; apply add_text_In.
Qed.

(** Entries whose needs are met add nothing. *)
Lemma expand_entries_again scopes fw es :
  (forall e, In e es -> exists s f, entry_needs e s f /\ In (JStr s) scopes /\ In (JStr f) fw) ->
  expand_entries (scopes, fw) es = Ok (scopes, fw).
Proof.
  induction es as [|e es IH]; intros He; [done|]. cbn.
  destruct (He e (or_introl eq_refl)) as (s & f & Hn & Hs & Hf).
  assert (expand_entry (scopes, fw) e = Ok (scopes, fw)) as ->.
  { apply expand_entry_ok. exists s, f. cbn [fst snd]. by rewrite !add_text_again. }
  apply IH. intros e' He'. apply He. by right.
Qed.

Lemma expand_inv cfg cfg' :
  truthy (pc_storage_mounts cfg) = true -> expand_storage_mounts cfg = Ok cfg' ->
  exists caps scopes fw entries scopes' fw',
    as_list (pc_capabilities cfg) = Ok caps /\ as_list (pc_delegatable_storage_scopes cfg) = Ok scopes
    /\ as_list (pc_firewall_aws_ip_ranges cfg) = Ok fw /\ as_list (pc_storage_mounts cfg) = Ok entries
    /\ expand_entries (scopes, fw) entries = Ok (scopes', fw')
    /\ cfg' = with_mounts (add_text "request_storage_leases" caps) scopes' fw' cfg.
Proof.
  intros Ht. unfold expand_storage_mounts. rewrite Ht. cbn [negb]. intros E.
  apply res_bind_ok in E as (caps & E1 & E). apply res_bind_ok in E as (scopes & E2 & E).
  apply res_bind_ok in E as (fw & E3 & E). apply res_bind_ok in E as (entries & E4 & E).
  apply res_bind_ok in E as ([scopes' fw'] & E5 & [= <-]). by exists caps, scopes, fw, entries, scopes', fw'.
Qed.

(** An accepted project file whose mounts declare [bucket/prefix] gives the desk what the
    mount needs, in terms of the broker's own checks: the capability to ask for storage
    leases, a storage scope under which a request for any key below the prefix, in the declared
    mode or in [ro], matches, and the firewall range; and it keeps every scope,
    capability and range the file declares itself. *)
Theorem storage_mounts_granted cfg cfg' entries o sc t :
  expand_storage_mounts cfg = Ok cfg' -> pc_storage_mounts cfg = JList entries -> In (JObj o) entries ->
  scope_wf sc -> all_chars is_slash t = true ->
  jget_default "source" (JStr "") o = JStr (mount_url (sc_bucket sc) (sc_prefix sc) t) ->
  check_mode (jget "mode" o) = Ok (sc_mode_max sc) ->
  exists caps scopes fw, pc_capabilities cfg' = JList caps /\ pc_delegatable_storage_scopes cfg' = JList scopes
    /\ pc_firewall_aws_ip_ranges cfg' = JList fw
    /\ In (JStr "request_storage_leases") caps
    /\ (forall key mode, path_within (sc_prefix sc) (strip_by is_slash key) -> mode = "ro" \/ mode = sc_mode_max sc ->
         matches_storage_scope (mkStorageRequest (Some (sc_bucket sc)) (Some key) (Some mode)) scopes = true)
    /\ In (JStr (firewall_entry (jget "region" o))) fw
    /\ (forall l, pc_delegatable_storage_scopes cfg = JList l -> incl l scopes)
    /\ (forall l, pc_capabilities cfg = JList l -> incl l caps)
    /\ (forall l, pc_firewall_aws_ip_ranges cfg = JList l -> incl l fw).
Proof.
  intros E Hm Hin Hsc Ht Hsrc Hmode.
  assert (truthy (pc_storage_mounts cfg) = true) as Htr by (rewrite Hm; by destruct entries).
  destruct (expand_inv _ _ Htr E) as (caps & scopes & fw & es & scopes' & fw' & E1 & E2 & E3 & E4 & E5 & ->).
  rewrite Hm in E4. injection E4 as <-. destruct (expand_entries_ok _ _ _ E5) as (I1 & I2 & I3). cbn [fst snd] in *.
  destruct (I3 _ Hin) as (scope & f & (o' & source & mode & [= <-] & Es & Em & _ & -> & ->) & Hs & Hf).
  eexists _, _, _. split; [done|]. split; [done|]. split; [done|]. split; [apply add_text_In|]. split; [|split; [done|]].
  - intros key md Hk Hmd. rewrite Hsrc in Es. cbn [jget_default check_source] in Es. rewrite mount_url_s3 in Es. injection Es as <-.
    rewrite Hmode in Em. injection Em as <-. rewrite (mount_scope_render sc t Hsc Ht) in Hs.
    apply matches_storage_scope_spec; [by intros ->|]. exists (JStr (render_storage_scope sc)), sc.
    split; [done|]. split; [by apply parse_rendered|]. split; [done|]. split; [done|].
    cbn. intros ->. by destruct Hmd as [?| ->].
  - split; [|split].
    + intros l Hl. rewrite Hl in E2. injection E2 as <-. exact I1.
    + intros l Hl. rewrite Hl in E1. injection E1 as <-. apply add_text_incl.
    + intros l Hl. rewrite Hl in E3. injection E3 as <-. exact I2.
Qed.

(** Expanding the mounts of an expanded project file changes nothing. *)
Theorem expand_storage_mounts_idempotent cfg cfg' :
  expand_storage_mounts cfg = Ok cfg' -> expand_storage_mounts cfg' = Ok cfg'.
Proof.
  intros E. destruct (truthy (pc_storage_mounts cfg)) eqn:Ht.
  - destruct (expand_inv _ _ Ht E) as (caps & scopes & fw & es & scopes' & fw' & E1 & E2 & E3 & E4 & E5 & ->).
    destruct (expand_entries_ok _ _ _ E5) as (_ & _ & I3). cbn [fst snd] in I3. unfold expand_storage_mounts.
    cbn [pc_storage_mounts pc_capabilities pc_delegatable_storage_scopes pc_firewall_aws_ip_ranges with_mounts].
    rewrite Ht, E4. cbn [negb as_list]. unfold mbind, res_bind. rewrite (expand_entries_again scopes' fw' es I3).
    rewrite (add_text_again _ _ (add_text_In _ _)). by destruct cfg.
  - unfold expand_storage_mounts in E. rewrite Ht in E. injection E as <-. unfold expand_storage_mounts. by rewrite Ht.
Qed.
End Expansion.

(** ** A project with a mount *)

#[local] Instance no_floats : FloatRepr := {| float_repr _ := "" |}.

Definition mount_entry : obj :=
  [("source", JStr "s3://data/raw/"); ("target", JStr "/mnt/raw"); ("mode", JStr "RW")].
Definition mount_project : ProjectConfig :=
  project_of
    [("repo_path", JStr "/srv/p"); ("storage_mounts", JList [JObj mount_entry]);
     ("delegatable_storage_scopes", JList [JStr "s3://own/*"])].

Example expand_ex :
  option_map (fun c => (pc_capabilities c, pc_delegatable_storage_scopes c, pc_firewall_aws_ip_ranges c))
    (match expand_storage_mounts mount_project with Ok c => Some c | Err _ => None end)
  = Some (JList [JStr "request_storage_leases"], JList [JStr "s3://own/*"; JStr "rw:s3://data/raw/*"],
          JList [JStr "us-west-2:AMAZON"]).
Proof. reflexivity. Qed.

Lemma expand_storage_mounts_idempotent_witness :
  exists c, expand_storage_mounts mount_project = Ok c /\ expand_storage_mounts c = Ok c.
Proof.
  eexists. split; [reflexivity|].
  exact (expand_storage_mounts_idempotent mount_project _ eq_refl).
Defined.

Lemma storage_mounts_granted_witness :
  exists scopes, matches_storage_scope (mkStorageRequest (Some "data") (Some "raw/x") (Some "rw")) scopes = true
    /\ In (JStr "s3://own/*") scopes.
Proof.
  assert (scope_wf (mkScope "data" "raw" "rw")) as Hsc by (constructor; cbn; auto).
  destruct (expand_storage_mounts mount_project) as [c|e] eqn:E; [|discriminate E].
  destruct (storage_mounts_granted mount_project c [JObj mount_entry] mount_entry
    (mkScope "data" "raw" "rw") "/" E eq_refl (or_introl eq_refl) Hsc eq_refl eq_refl eq_refl)
    as (caps & scopes & fw & _ & _ & _ & _ & Hm & _ & Hk & _).
  exists scopes. split.
  - apply Hm; [|by right]. right. exists ["x"]. reflexivity.
  - exact (Hk _ eq_refl _ (or_introl eq_refl)).
Defined.
