(* ===== verification/SnapshotFacts.v ===== *)
(** Correctness of [Snapshot.v]: manifests read back, and restoring a snapshot puts a desk's
    secrets and overlay back exactly, touching no other desk. *)

From S2P Require Import Prelude PyStr PyVal Registry World WorldFacts Overlay Container Snapshot.
From Stdlib Require Import List.

(** ** Manifests *)

Lemma volume_round v : volume_of (volume_dict v) = Ok v.
Proof. by destruct v. Qed.

Lemma worktree_round w : worktree_of (worktree_dict w) = Ok w.
Proof. by destruct w. Qed.

Lemma mapE_round {E A B} (f : A -> res E B) (g : B -> A) l : (forall x, f (g x) = Ok x) -> mapE f (map g l) = Ok l.
Proof. intros Hfg. induction l as [|x l IH]; cbn; [done|]. by rewrite Hfg, IH. Qed.

Lemma manifest_reads_back m : manifest_from_dict (manifest_to_dict m) = Ok m.
Proof.
  unfold manifest_from_dict, manifest_to_dict. destruct m as [a b c d e f g h wt vols n].
  destruct wt as [w|]; cbn -[worktree_dict worktree_of volume_of].
  - change (worktree_dict w) with (JObj [("branch", wt_branch w); ("commit_sha", wt_commit_sha w);
      ("repo_path", wt_repo_path w); ("is_dirty", wt_is_dirty w); ("dirty_files", JList (wt_dirty_files w))]).
    cbn -[worktree_of volume_of mapE]. 
    match goal with |- context[worktree_of ?x] => replace (worktree_of x) with (Ok w : res exn _) by (symmetry; apply worktree_round) end.
    cbn -[volume_of mapE]. by rewrite (mapE_round _ _ _ volume_round).
  - by rewrite (mapE_round _ _ _ volume_round).
Qed.

(** A manifest reads back from its dictionary as it was written, whatever it records. *)
Theorem manifest_round_trip m : manifest_from_dict (manifest_to_dict m) = Ok m.
Proof. apply manifest_reads_back. Qed.

(** ** Capture *)

Section Capture.
Context `{Env, TarGz}.

Lemma write_replacing_ok dir n data w u w' :
  write_replacing dir n data w = (Ok u, w') -> w_host w' !! (dir // n) = Some (NFile data).
Proof.
  unfold write_replacing. intros E.
  apply bind_inv in E as [(u1 & w1 & E1 & E)|(e & _ & [=])]. apply host_write_ok in E1.
  apply bind_inv in E as [(u2 & w2 & E2 & E)|(e & _ & [=])]. apply fs_op_host in E2.
  apply host_replace_ok in E. by rewrite E, E2.
Qed.

Lemma at_write_replacing p dir n data :
  p <> dir // n -> p <> dir // (n +:+ ".tmp") -> quiet (at_path p) (write_replacing dir n data).
Proof. intros Hn Ht. unfold write_replacing. quiet_step. Qed.

Lemma quiet_write_replacing dir n data : quiet db_files (write_replacing dir n data).
Proof. unfold write_replacing. quiet_step. Qed.

Lemma quiet_copy_each {V A} (v : world -> V) (copy : A -> W unit) l :
  (forall x, quiet v (copy x)) -> quiet v (copy_each copy l).
Proof.
  intros Hc. induction l as [|x l IH]; cbn [copy_each]; [apply quiet_ret|].
  apply quiet_bind; [apply quiet_catch; [apply quiet_bind; [apply Hc|intros; apply quiet_ret]|]|].
  - intros e. destruct (is_os_error e); [apply quiet_ret|apply quiet_throw].
  - intros ok. apply quiet_bind; [exact IH|]. intros; apply quiet_ret.
Qed.

Lemma quiet_copy_all {V A} (v : world -> V) (copy : A -> W unit) l :
  (forall x, quiet v (copy x)) -> quiet v (copy_all copy l).
Proof.
  intros Hc. apply quiet_bind; [by apply quiet_copy_each|]. intros []; [apply quiet_ret|apply quiet_throw].
Qed.

Lemma quiet_stage_secrets i : quiet state_view (stage_secrets i).
Proof.
  unfold stage_secrets. apply quiet_bind; [apply quiet_host_at|]. intros n. destruct (is_ndir n); [|apply quiet_ret].
  apply quiet_bind; [apply quiet_fs_op|]. intros _. apply quiet_bind; [apply quiet_gets|]. intros fs.
  apply quiet_bind; [by apply quiet_copy_all; intros; apply quiet_fs_op|]. intros; apply quiet_ret.
Qed.

Lemma quiet_stage_overlay i : quiet state_view (stage_overlay i).
Proof. unfold stage_overlay. quiet_step. Qed.

Lemma quiet_worktree_capture d : quiet db_files (_capture_worktree d).
Proof. unfold _capture_worktree, _git, _looks_like_worktree. quiet_step. Qed.

Lemma quiet_check_clean t : quiet state_view (check_clean t).
Proof. unfold check_clean. quiet_step. Qed.
#[local] Hint Resolve quiet_write_replacing quiet_stage_secrets quiet_stage_overlay quiet_worktree_capture
  quiet_check_clean : quiet.

Lemma quiet_snapshot d mid : quiet db_files (snapshot_drydock d mid).
Proof. unfold snapshot_drydock. quiet_step. Qed.

(** What the archive of a snapshot holds of the desk's secrets and overlay. *)
Definition captured_secrets (i : string) (w : world) (ms : list tar_member) (path : json) : Prop :=
  if is_ndir (at_path (secret_dir i) w)
  then ms = secret_members i (secret_files i w) /\ path = JStr (secrets_prefix i)
  else ms = [] /\ path = JNull.

Definition captured_overlay (i : string) (w : world) (ms : list tar_member) (path : json) : Prop :=
  match at_path (overlay_file_of i) w with
  | Some (NFile text) => ms = [mkMember OVERLAY_IN_TARBALL (TFile text false)] /\ path = JStr OVERLAY_IN_TARBALL
  | _ => ms = [] /\ path = JNull
  end.

Lemma stage_secrets_ok i w ms path w' :
  stage_secrets i w = (Ok (ms, path), w') -> captured_secrets i w ms path.
Proof.
  unfold stage_secrets, captured_secrets, host_at. rewrite gets_bind. fold (at_path (secret_dir i) w).
  destruct (is_ndir _); [|by intros [= <- <- _]]. intros E.
  apply bind_inv in E as [(u1 & w1 & E1 & E)|(e & _ & [=])]. apply fs_op_state in E1. rewrite gets_bind in E.
  apply bind_inv in E as [(u2 & w2 & _ & E)|(e & _ & [=])]. injection E as <- <- _.
  injection E1 as _ Ef _. unfold secret_files. by rewrite Ef.
Qed.

Lemma stage_overlay_ok i w ms path w' :
  stage_overlay i w = (Ok (ms, path), w') -> captured_overlay i w ms path.
Proof.
  unfold stage_overlay, captured_overlay, host_at. rewrite gets_bind. fold (at_path (overlay_file_of i) w).
  destruct (at_path _ w) as [[|text]|] eqn:Ea; cbn [is_nfile]; [by intros [= <- <- _]| |by intros [= <- <- _]].
  unfold host_read. rewrite bind_bind. intros E.
  apply bind_inv in E as [(u1 & w1 & E1 & E)|(e & _ & [=])]. apply fs_op_host in E1. unfold host_at in E.
  rewrite bind_bind, gets_bind, E1 in E. unfold at_path in Ea. rewrite Ea in E. rewrite ret_bind in E. by injection E as <- <- _.
Qed.

Definition snapshot_dir_of (mid : string) : string := DEFAULT_MIGRATIONS_ROOT // mid.

(** A snapshot that succeeds has written the archive and the manifest it returns. *)
Lemma snapshot_ok d mid w dir m w' :
  (forall p, p = secret_dir (id d) \/ p = overlay_file_of (id d) ->
     run_keeps p /\ ~ In p (path_chain (snapshot_dir_of mid))) ->
  snapshot_drydock d mid w = (Ok (dir, m), w') ->
  exists secrets overlay,
    dir = snapshot_dir_of mid /\ sm_drydock_id m = JStr (id d) /\ sm_migration_id m = JStr mid
    /\ captured_secrets (id d) w secrets (sm_secrets_path m)
    /\ captured_overlay (id d) w overlay (sm_overlay_path m)
    /\ _capture_registry_row (id d) (w_db w) = Ok (sm_registry_row m)
    /\ at_path (dir // "snapshot.tgz") w' = Some (NFile (tar_pack (secrets ++ overlay)))
    /\ at_path (dir // "manifest.json") w' = Some (NFile (json_dumps_indent (manifest_to_dict m))).
Proof.
  intros Hk E. unfold snapshot_drydock in E. cbv zeta in E. fold (snapshot_dir_of mid) in E. set (t := snapshot_dir_of mid) in *.
  assert (forall p, p = secret_dir (id d) \/ p = overlay_file_of (id d) -> quiet (at_path p) (mkdir_p t)) as Q1
    by (intros p Hp; destruct (Hk p Hp); by apply at_mkdir).
  assert (forall p, p = secret_dir (id d) \/ p = overlay_file_of (id d) -> quiet (at_path p) (_capture_worktree d)) as Q2.
  { intros p Hp. destruct (Hk p Hp) as [Hr _]. unfold _capture_worktree, _git, _looks_like_worktree. quiet_step. }
  apply bind_inv in E as [(u1 & w1 & E1 & E)|(e & _ & [=])].
  apply bind_inv in E as [(u2 & w2 & E2 & E)|(e & _ & [=])]. apply fs_op_state in E2. rewrite reg_query_bind in E.
  assert (w_db w2 = w_db w /\ w_files w2 = w_files w) as [D2 F2].
  { pose proof (quiet_at _ _ _ _ _ (quiet_mkdir t) E1) as V. injection V as V1 V2. injection E2 as V3 V4 _. by rewrite V3, V4. }
  assert (forall p, p = secret_dir (id d) \/ p = overlay_file_of (id d) -> at_path p w2 = at_path p w) as H2.
  { intros p Hp. rewrite <- (quiet_at _ _ _ _ _ (Q1 p Hp) E1). injection E2 as _ _ Hh. unfold at_path. by rewrite Hh. }
  rewrite D2 in E. destruct (_capture_registry_row (id d) (w_db w)) as [row|e]; [|discriminate E].
  apply bind_inv in E as [(wt & w3 & E3 & E)|(e & _ & [=])].
  assert (w_files w3 = w_files w) as F3.
  { pose proof (quiet_at _ _ _ _ _ (quiet_worktree_capture d) E3) as V. injection V as _ V. by rewrite V. }
  assert (forall p, p = secret_dir (id d) \/ p = overlay_file_of (id d) -> at_path p w3 = at_path p w) as H3.
  { intros p Hp. rewrite <- (H2 p Hp). by apply (quiet_at _ _ _ _ _ (Q2 p Hp) E3). }
  apply bind_inv in E as [(u4 & w4 & E4 & E)|(e & _ & [=])].
  pose proof (quiet_at _ _ _ _ _ (quiet_check_clean wt) E4) as V4. injection V4 as _ F4 G4.
  apply bind_inv in E as [([secrets spath] & w5 & E5 & E)|(e & _ & [=])].
  pose proof (quiet_at _ _ _ _ _ (quiet_stage_secrets (id d)) E5) as V5. injection V5 as _ F5 G5. apply stage_secrets_ok in E5.
  apply bind_inv in E as [([overlay opath] & w6 & E6 & E)|(e & _ & [=])]. apply stage_overlay_ok in E6.
  apply bind_inv in E as [(u7 & w7 & E7 & E)|(e & _ & [=])]. apply write_replacing_ok in E7.
  apply bind_inv in E as [(now & w8 & E8 & E)|(e & _ & [=])].
  pose proof (quiet_at _ _ _ _ _ quiet_now_text E8) as V8. injection V8 as _ _ G8.
  apply bind_inv in E as [(u9 & w9 & E9 & E)|(e & _ & [=])].
  match type of E9 with write_replacing _ _ (json_dumps_indent (manifest_to_dict ?m0)) _ = _ => set (m0' := m0) in * end.
  injection E as <- <- <-.
  exists secrets, overlay. split_and!; try done.
  - unfold captured_secrets in *. unfold secret_files in *. unfold at_path in *.
    rewrite F4, F3, G4 in E5. rewrite <- (H3 (secret_dir (id d))) by auto. exact E5.
  - unfold captured_overlay, at_path in *. rewrite G5, G4 in E6. rewrite <- (H3 (overlay_file_of (id d))) by auto. exact E6.
  - rewrite (quiet_at _ _ _ _ _ (at_write_replacing (t // "snapshot.tgz") t "manifest.json" _ ltac:(by apply join_ne) ltac:(by apply join_ne)) E9).
    unfold at_path. by rewrite G8.
  - apply write_replacing_ok in E9. exact E9.
Qed.
End Capture.

(** ** The secret files of a desk *)

Lemma secret_files_In i n f w : In (n, f) (secret_files i w) <-> w_files w !! (i, n) = Some f.
Proof.
  unfold secret_files. rewrite <- list_elem_of_In, list_elem_of_omap. split.
  - intros ([[j m] g] & Hin & Hs). cbn in Hs. destruct (String.eqb_spec j i) as [->|]; [|done]. injection Hs as <- <-.
    by apply elem_of_map_to_list.
  - intros Hl. exists (i, n, f). split; [by apply elem_of_map_to_list|]. cbn. by rewrite String.eqb_refl.
Qed.

Lemma secret_names_NoDup i w : List.NoDup (map fst (secret_files i w)).
Proof.
  unfold secret_files. pose proof (NoDup_fst_map_to_list (w_files w)) as Hnd. apply NoDup_ListNoDup in Hnd.
  induction (map_to_list (w_files w)) as [|[[j m] g] l IH]; [constructor|]. cbn in Hnd. inversion Hnd as [|x y Hx Hl]; subst.
  specialize (IH Hl). cbn. destruct (String.eqb_spec j i) as [->|]; [|exact IH]. cbn. constructor; [|exact IH].
  intros ([n f] & Hn & Hin)%in_map_iff. cbn in Hn. subst n. apply Hx.
  apply list_elem_of_In, list_elem_of_omap in Hin as ([[j2 m2] g2] & Hin & Hs). cbn in Hs.
  destruct (String.eqb_spec j2 i) as [->|]; [|done]. injection Hs as -> ->.
  apply in_map_iff. exists (i, m, f). split; [done|by apply list_elem_of_In].
Qed.

(** ** What the archive gives back *)

Lemma startswith_app a b : startswith (a +:+ b) a = true.
Proof. apply startswith_spec. by exists b. Qed.

Lemma files_under_app dir a b : files_under dir (a ++ b) = files_under dir a ++ files_under dir b.
Proof. unfold files_under. apply omap_app. Qed.

Lemma under_name i n : startswith (secrets_prefix i +:+ "/" +:+ n) (secrets_prefix i +:+ "/") = true.
Proof. rewrite <- app_assoc_s. apply startswith_app. Qed.

Lemma files_under_secrets i fs : files_under (secrets_prefix i) (secret_members i fs) = fs.
Proof.
  unfold secret_members, files_under. cbn [omap list_omap tm_kind]. induction fs as [|[n [data ro]] fs IH]; [done|].
  cbn -[secrets_prefix startswith sdrop].
  assert (startswith (secrets_prefix i +:+ String "/" n) (secrets_prefix i +:+ "/") = true) as -> by apply under_name.
  assert (sdrop (String.length (secrets_prefix i) + 1) (secrets_prefix i +:+ String "/" n) = n) as ->.
  { change (String "/" n) with ("/" +:+ n). rewrite <- app_assoc_s.
    replace (String.length (secrets_prefix i) + 1)%nat with (String.length (secrets_prefix i +:+ "/"))
      by (rewrite length_app_s; cbn; lia). apply sdrop_app. }
  f_equal. exact IH.
Qed.

Lemma files_under_snapshot `{Env} i w secrets spath overlay opath w2 :
  is_ndir (at_path (secret_dir i) w) = true ->
  captured_secrets i w secrets spath -> captured_overlay i w2 overlay opath ->
  files_under (secrets_prefix i) (secrets ++ overlay) = secret_files i w
  /\ has_dir (secrets_prefix i) (secrets ++ overlay) = true.
Proof.
  intros Hd Hs Ho. unfold captured_secrets in Hs. rewrite Hd in Hs. destruct Hs as [-> _]. split.
  - rewrite files_under_app, files_under_secrets.
    assert (files_under (secrets_prefix i) overlay = []) as ->; [|apply app_nil_r].
    unfold captured_overlay in Ho. destruct (at_path _ w2) as [[|text]|]; by destruct Ho as [-> _].
  - unfold has_dir, secret_members. cbn -[secrets_prefix startswith]. rewrite String.eqb_refl. by rewrite orb_true_r.
Qed.

Lemma file_at_overlay i fs text :
  file_at OVERLAY_IN_TARBALL (secret_members i fs ++ [mkMember OVERLAY_IN_TARBALL (TFile text false)]) = Some text.
Proof.
  unfold file_at, secret_members. cbn -[secrets_prefix]. induction fs as [|f fs IH]; [done|]. cbn -[secrets_prefix]. exact IH.
Qed.

(** ** Restoring *)

Section Restore.
Context `{Env, TarGz}.

(** The rest of the world when only secret files change. *)
Definition but_files (w : world) : db * gmap string node := (w_db w, w_host w).

Lemma but_state {A} (m : W A) : quiet state_view m -> quiet but_files m.
Proof. intros Hm w. specialize (Hm w). injection Hm as E1 E2 E3. unfold but_files. by rewrite E1, E3. Qed.

Lemma remove_files_of_ok i l w u w' :
  remove_files_of i l w = (Ok u, w') ->
  but_files w' = but_files w
  /\ (forall n, In n l -> w_files w' !! (i, n) = None)
  /\ (forall j n, j <> i \/ ~ In n l -> w_files w' !! (j, n) = w_files w !! (j, n)).
Proof.
  revert w. induction l as [|x l IH]; cbn [remove_files_of]; intros w E.
  - injection E as _ <-. by split_and!.
  - apply bind_inv in E as [(u1 & w1 & E1 & E)|(e & _ & [=])]. apply fs_op_state in E1. rewrite modify_bind in E.
    destruct (IH _ E) as (V & I & O). injection E1 as D1 F1 G1. split; [|split].
    + rewrite V. unfold but_files. cbn. by rewrite D1, G1.
    + intros n [->|Hn]; [|by apply I]. destruct (in_dec string_dec n l) as [Hn|Hn]; [by apply I|].
      rewrite O by (by right). cbn. apply lookup_delete_eq.
    + intros j n Hj. rewrite O by (destruct Hj as [Hj|Hj]; [by left|right; intros Hn; apply Hj; by right]).
      cbn. rewrite F1. apply lookup_delete_ne. intros [= <- <-]. destruct Hj as [Hj|Hj]; [done|]. apply Hj. by left.
Qed.

Lemma rmtree_secrets_ok i w u w' :
  rmtree_secrets i w = (Ok u, w') ->
  w_db w' = w_db w /\ (forall n, w_files w' !! (i, n) = None)
  /\ (forall j n, j <> i -> w_files w' !! (j, n) = w_files w !! (j, n))
  /\ (forall p, p <> secret_dir i -> at_path p w' = at_path p w).
Proof.
  unfold rmtree_secrets. rewrite gets_bind. intros E.
  apply bind_inv in E as [(u1 & w1 & E1 & E)|(e & _ & [=])]. apply remove_files_of_ok in E1 as (V & I & O). injection V as D1 G1.
  pose proof (quiet_at _ _ _ _ _ (quiet_host_rmdir (secret_dir i)) E) as V2. injection V2 as D2 F2. split_and!.
  - by rewrite D2.
  - intros n. rewrite F2. destruct (in_dec string_dec n (map fst (secret_files i w))) as [Hn|Hn]; [by apply I|].
    rewrite O by (by right). destruct (w_files w !! (i, n)) as [f|] eqn:El; [|done].
    exfalso. apply Hn. apply in_map_iff. exists (n, f). split; [done|]. by apply secret_files_In.
  - intros j n Hj. rewrite F2. apply O. by left.
  - intros p Hp. rewrite (quiet_at _ _ _ _ _ (at_rmdir p (secret_dir i) Hp) E). unfold at_path. by rewrite G1.
Qed.

Lemma copy_each_ok {A} (copy : A -> W unit) l w b w' :
  copy_each copy l w = (Ok b, w') -> b = true ->
  forall P : world -> list A -> Prop,
    (forall x xs w u w1, P w (x :: xs) -> copy x w = (Ok u, w1) -> P w1 xs) ->
    P w l -> P w' [].
Proof.
  intros E Hb P Hs. revert w b E Hb. induction l as [|x l IH]; cbn [copy_each]; intros w b E Hb Hp.
  - by injection E as <- <-.
  - apply bind_inv in E as [(ok & w1 & E1 & E)|(e & _ & [=])].
    apply bind_inv in E as [(rest & w2 & E2 & E)|(e & _ & [=])]. injection E as <- <-.
    apply andb_true_iff in Hb as [-> ->]. unfold catch in E1.
    destruct ((copy x ≫= fun _ => mret true) w) as [[a|e] w3] eqn:Ec.
    + injection E1 as -> <-. apply bind_inv in Ec as [(u & w4 & Ec & Er)|(e & _ & [=])]. injection Er as <-.
      apply (IH w4 true E2 eq_refl). by eapply Hs.
    + destruct (is_os_error e); [discriminate E1|by injection E1].
Qed.

Lemma copy_secrets_ok i fs w u w' :
  List.NoDup (map fst fs) -> copy_all (write_secret i) fs w = (Ok u, w') ->
  but_files w' = but_files w
  /\ (forall n f, In (n, f) fs -> w_files w' !! (i, n) = Some f)
  /\ (forall j n, j <> i \/ ~ In n (map fst fs) -> w_files w' !! (j, n) = w_files w !! (j, n)).
Proof.
  intros Hnd. unfold copy_all. intros E. apply bind_inv in E as [(ok & w1 & E1 & E)|(e & _ & [=])].
  destruct ok; [|discriminate E]. injection E as _ <-.
  set (P := fun w2 rest => exists done, fs = done ++ rest /\ but_files w2 = but_files w
      /\ (forall n f, In (n, f) done -> w_files w2 !! (i, n) = Some f)
      /\ (forall j n, j <> i \/ ~ In n (map fst fs) -> w_files w2 !! (j, n) = w_files w !! (j, n))).
  assert (P w1 []) as (done & Ed & V & I & O).
  2: { rewrite app_nil_r in Ed. subst done. by split_and!. }
  apply (copy_each_ok (write_secret i) fs w true w1 E1 eq_refl P); [|exists []; by split_and!].
  intros [n f] rest w2 u2 w3 (done & Ed & V & I & O) Ew. exists (done ++ [(n, f)]).
  unfold write_secret in Ew. apply bind_inv in Ew as [(u3 & w4 & Ef & Ew)|(e & _ & [=])]. apply fs_op_state in Ef.
  rewrite modify_eq in Ew. injection Ew as _ <-. injection Ef as D4 F4 G4. cbn [fst snd].
  assert (List.NoDup (map fst done ++ n :: map fst rest)) as Hnd2 by (rewrite Ed, map_app in Hnd; exact Hnd).
  split; [by rewrite Ed, <- app_assoc|]. split; [|split].
  - rewrite <- V. unfold but_files. cbn. by rewrite D4, G4.
  - intros n2 f2 [Hin|[[= <- <-]|[]]]%in_app_iff; cbn; rewrite F4.
    + rewrite lookup_insert_ne; [by apply I|]. intros [= <-]. apply NoDup_remove_2 in Hnd2. apply Hnd2, in_app_iff.
      left. by apply (in_map fst) in Hin.
    + apply lookup_insert_eq.
  - intros j n2 Hj. cbn. rewrite F4, lookup_insert_ne; [by apply O|]. intros [= <- <-]. destruct Hj as [Hj|Hj]; [done|].
    apply Hj. rewrite Ed, map_app. apply in_app_iff. right. by left.
Qed.

(** The places of a desk and of a snapshot are apart, and no subprocess writes to the former. *)
Record separate (i mid : string) : Prop := mkSeparate {
  sep_run : run_keeps (secret_dir i) /\ run_keeps (overlay_file_of i);
  sep_snapshot : ~ In (secret_dir i) (path_chain (snapshot_dir_of mid))
                 /\ ~ In (overlay_file_of i) (path_chain (snapshot_dir_of mid));
  sep_overlay : overlay_file_of i <> secret_dir i /\ ~ In (overlay_file_of i) (path_chain (secret_dir i));
  sep_name : plain (i +:+ ".devcontainer.json") = true
}.

(** The desk's secret files lie in an existing directory. *)
Definition files_housed (i : string) (w : world) : Prop :=
  forall n f, w_files w !! (i, n) = Some f -> is_some (at_path (secret_dir i) w) = true.

(** Secrets from the archive: the desk's files are those of the archive, and no others. *)
Lemma restore_secrets_ok m members i w0 w u w' :
  sm_secrets_path m = JStr (secrets_prefix i) -> sm_drydock_id m = JStr i ->
  files_under (secrets_prefix i) members = secret_files i w0 -> has_dir (secrets_prefix i) members = true ->
  files_housed i w -> restore_secrets m members w = (Ok u, w') ->
  w_db w' = w_db w
  /\ (forall n, w_files w' !! (i, n) = w_files w0 !! (i, n))
  /\ (forall j n, j <> i -> w_files w' !! (j, n) = w_files w !! (j, n))
  /\ (forall p, p <> secret_dir i -> ~ In p (path_chain (secret_dir i)) -> at_path p w' = at_path p w).
Proof.
  intros Ep Ei Ef Hd Hh. unfold restore_secrets. rewrite Ep, Ei. cbn -[secrets_prefix secret_dir mkdir_p].
  change (is_empty (secrets_prefix i)) with false. cbn [negb]. rewrite !lift_bind, Hd. cbn [negb]. unfold path_exists.
  rewrite gets_bind, Ef. fold (at_path (secret_dir i) w). intros E.
  apply bind_inv in E as [(u1 & w1 & E1 & E)|(e & _ & [=])].
  apply bind_inv in E as [(u2 & w2 & E2 & E)|(e & _ & [=])].
  pose proof (quiet_at _ _ _ _ _ (quiet_mkdir (secret_dir i)) E2) as V2. injection V2 as D2 F2.
  apply (copy_secrets_ok i _ _ _ _ (secret_names_NoDup i w0)) in E as (V3 & I3 & O3). injection V3 as D3 G3.
  assert (w_db w1 = w_db w /\ (forall n, w_files w1 !! (i, n) = None)
    /\ (forall j n, j <> i -> w_files w1 !! (j, n) = w_files w !! (j, n))
    /\ (forall p, p <> secret_dir i -> at_path p w1 = at_path p w)) as (D1 & N1 & O1 & G1).
  { destruct (is_some (at_path (secret_dir i) w)) eqn:Ex; [by apply rmtree_secrets_ok in E1|].
    injection E1 as _ <-. split_and!; try done. intros n. destruct (w_files w !! (i, n)) as [f|] eqn:El; [|done].
    specialize (Hh n f El). congruence. }
  split_and!.
  - congruence.
  - intros n. destruct (w_files w0 !! (i, n)) as [f|] eqn:El; [by apply I3, secret_files_In|].
    rewrite O3, F2; [apply N1|]. right. intros ([n2 f] & En & Hin)%in_map_iff. cbn in En. subst n2.
    apply secret_files_In in Hin. congruence.
  - intros j n Hj. rewrite O3 by (by left). by rewrite F2, O1.
  - intros p Hp Hc. unfold at_path at 1. rewrite G3. fold (at_path p w2).
    rewrite (quiet_at _ _ _ _ _ (at_mkdir p (secret_dir i) Hc) E2). by apply G1.
Qed.

Lemma overlay_parts i : plain (i +:+ ".devcontainer.json") = true -> path_parts (overlay_file_of i) <> [].
Proof. intros Hp E. unfold overlay_file_of in E. rewrite path_parts_plain_join in E by done. by destruct (path_parts _). Qed.

Lemma restore_overlay_ok m members i text w u w' :
  plain (i +:+ ".devcontainer.json") = true -> sm_drydock_id m = JStr i ->
  sm_overlay_path m = JStr OVERLAY_IN_TARBALL -> file_at OVERLAY_IN_TARBALL members = Some text ->
  is_ndir (at_path (overlay_file_of i) w) = false -> restore_overlay m members w = (Ok u, w') ->
  at_path (overlay_file_of i) w' = Some (NFile text).
Proof.
  intros Hn Ei Ep Ef Hd. unfold restore_overlay. rewrite Ep, Ei. change (negb (truthy (JStr OVERLAY_IN_TARBALL))) with false.
  cbv iota. cbn [text_of py_str]. rewrite lift_bind, Ef. intros E.
  apply bind_inv in E as [(u1 & w1 & E1 & E)|(e & _ & [=])].
  pose proof (quiet_at _ _ _ _ _ (at_mkdir (overlay_file_of i) _ (chain_parent _ (overlay_parts i Hn))) E1) as V1.
  unfold copy2, host_at in E. rewrite gets_bind in E. fold (at_path (overlay_file_of i) w1) in E. rewrite V1, Hd in E.
  by apply host_write_ok in E.
Qed.

Lemma restore_no_overlay m members w u w' : sm_overlay_path m = JNull -> restore_overlay m members w = (Ok u, w') -> w' = w.
Proof. unfold restore_overlay. intros ->. by intros [= _ <-]. Qed.

Lemma quiet_restore_overlay m members : quiet db_files (restore_overlay m members).
Proof. unfold restore_overlay, copy2. quiet_step. Qed.

Lemma restore_parts `{!LawfulTar} dir m members w m' w' :
  json_loads (json_dumps_indent (manifest_to_dict m)) = Some (manifest_to_dict m) ->
  at_path (dir // "manifest.json") w = Some (NFile (json_dumps_indent (manifest_to_dict m))) ->
  at_path (dir // "snapshot.tgz") w = Some (NFile (tar_pack members)) ->
  restore_drydock dir w = (Ok m', w') ->
  m' = m /\ exists wa ua wb ub, state_view wa = state_view w /\ restore_secrets m members wa = (Ok ua, wb)
    /\ restore_overlay m members wb = (Ok ub, w').
Proof.
  intros Hj Hm Ht. unfold restore_drydock. intros E.
  apply bind_inv in E as [(m1 & w1 & E1 & E)|(e & _ & [=])].
  assert (m1 = m /\ state_view w1 = state_view w) as [-> V1].
  { assert (quiet state_view (load_manifest dir)) as Hq by (unfold load_manifest; quiet_step).
    split; [|exact (quiet_at _ _ _ _ _ Hq E1)]. unfold load_manifest, host_read in E1. rewrite bind_bind in E1.
    apply bind_inv in E1 as [(u0 & w0 & E0 & E1)|(e & _ & [=])]. apply fs_op_host in E0. unfold host_at in E1.
    rewrite bind_bind, gets_bind, E0 in E1. unfold at_path in Hm. rewrite Hm, ret_bind, Hj, manifest_reads_back in E1. by injection E1. }
  apply bind_inv in E as [(ms & w2 & E2 & E)|(e & _ & [=])].
  assert (ms = members /\ state_view w2 = state_view w1) as [-> V2].
  { unfold extract_snapshot in E2.
    apply bind_inv in E2 as [(u3 & w3 & E3 & E2)|(e & _ & [=])]. apply fs_op_state in E3.
    apply bind_inv in E2 as [(u4 & w4 & E4 & E2)|(e & _ & [=])]. apply (quiet_at _ _ _ _ _ quiet_uuid) in E4.
    unfold host_read in E2. rewrite bind_bind in E2.
    apply bind_inv in E2 as [(u5 & w5 & E5 & E2)|(e & _ & [=])]. apply fs_op_state in E5. unfold host_at in E2.
    rewrite bind_bind, gets_bind in E2.
    assert (state_view w5 = state_view w) as V5 by congruence.
    injection V5 as D5 F5 G5. unfold at_path in Ht. rewrite G5, Ht, ret_bind, tar_pack_unpack in E2.
    unfold _safe_extract in E2. destruct (List.find _ members); [discriminate E2|].
    apply bind_inv in E2 as [(u6 & w6 & E6 & E2)|(e & _ & [=])]. apply fs_op_state in E6. injection E2 as <- <-.
    split; [done|]. rewrite E6, V1. unfold state_view. by rewrite D5, F5, G5. }
  apply bind_inv in E as [(ua & wb & E3 & E)|(e & _ & [=])].
  apply bind_inv in E as [(ub & wc & E4 & E)|(e & _ & [=])]. injection E as <- <-.
  split; [done|]. exists w2, ua, wb, ub. split; [congruence|]. by split.
Qed.
End Restore.

Section RoundTrip.
Context `{Env, TarGz, !LawfulTar}.

Lemma restore_undoes d mid w dir m w1 w2 m' w3 :
  separate (id d) mid ->
  snapshot_drydock d mid w = (Ok (dir, m), w1) ->
  json_loads (json_dumps_indent (manifest_to_dict m)) = Some (manifest_to_dict m) ->
  at_path (dir // "snapshot.tgz") w2 = at_path (dir // "snapshot.tgz") w1 ->
  at_path (dir // "manifest.json") w2 = at_path (dir // "manifest.json") w1 ->
  files_housed (id d) w2 -> is_ndir (at_path (overlay_file_of (id d)) w2) = false ->
  restore_drydock dir w2 = (Ok m', w3) ->
  m' = m /\ w_db w3 = w_db w2
  /\ (forall n, w_files w3 !! (id d, n)
        = w_files (if is_ndir (at_path (secret_dir (id d)) w) then w else w2) !! (id d, n))
  /\ (forall j n, j <> id d -> w_files w3 !! (j, n) = w_files w2 !! (j, n))
  /\ at_path (overlay_file_of (id d)) w3
     = match at_path (overlay_file_of (id d)) w with
       | Some (NFile text) => Some (NFile text)
       | _ => at_path (overlay_file_of (id d)) w2
       end.
Proof.
  intros [[R1 R2] [S1 S2] [O1 O2] Hn] E Hj Ht Hm Hh Hd Er.
  apply snapshot_ok in E as (secrets & overlay & -> & Ei & _ & Cs & Co & _ & Tt & Tm); [|by intros p [-> | ->]].
  rewrite <- Ht in Tt. rewrite <- Hm in Tm.
  apply (restore_parts _ _ _ _ _ _ Hj Tm Tt) in Er as (-> & wa & ua & wb & ub & Va & Es & Eo).
  split; [done|]. injection Va as Da Fa Ga.
  assert (files_housed (id d) wa) as Hha.
  { intros n f. rewrite Fa. intros Hl%Hh. unfold at_path in *. by rewrite Ga. }
  pose proof (quiet_at _ _ _ _ _ (quiet_restore_overlay m (secrets ++ overlay)) Eo) as V3. injection V3 as D3 F3.
  assert (w_db wb = w_db wa
    /\ (forall n, w_files wb !! (id d, n) = w_files (if is_ndir (at_path (secret_dir (id d)) w) then w else wa) !! (id d, n))
    /\ (forall j n, j <> id d -> w_files wb !! (j, n) = w_files wa !! (j, n))
    /\ at_path (overlay_file_of (id d)) wb = at_path (overlay_file_of (id d)) wa) as (Db & Sb & Ob & Gb).
  { destruct (is_ndir (at_path (secret_dir (id d)) w)) eqn:Ed.
    - assert (sm_secrets_path m = JStr (secrets_prefix (id d))) as Ep
        by (unfold captured_secrets in Cs; rewrite Ed in Cs; apply Cs).
      destruct (files_under_snapshot _ _ _ _ _ _ _ Ed Cs Co) as [Hf Hdir].
      apply (restore_secrets_ok _ _ _ w _ _ _ Ep Ei Hf Hdir Hha) in Es as (D & I & O & G). split_and!; auto.
    - assert (sm_secrets_path m = JNull) as Ep by (unfold captured_secrets in Cs; rewrite Ed in Cs; apply Cs).
      unfold restore_secrets in Es. rewrite Ep in Es. injection Es as _ <-. by split_and!. }
  split_and!.
  - congruence.
  - intros n. rewrite F3, Sb. destruct (is_ndir (at_path (secret_dir (id d)) w)); [done|]. by rewrite Fa.
  - intros j n Hj2. rewrite F3, Ob by done. by rewrite Fa.
  - assert (at_path (overlay_file_of (id d)) wb = at_path (overlay_file_of (id d)) w2) as Gw
      by (rewrite Gb; unfold at_path; by rewrite Ga).
    unfold captured_overlay in Co. destruct (at_path (overlay_file_of (id d)) w) as [[|text]|]; destruct Co as [-> Ep];
      [by rewrite (restore_no_overlay _ _ _ _ _ Ep Eo)| |by rewrite (restore_no_overlay _ _ _ _ _ Ep Eo)].
    apply (restore_overlay_ok m _ (id d) text _ _ _ Hn Ei Ep) in Eo; [done| |by rewrite Gw].
    unfold captured_secrets in Cs. destruct (is_ndir _); destruct Cs as [-> _]; [apply file_at_overlay|done].
Qed.

(** C22: A snapshot undoes what happens to a desk's portable state after it. A restore that succeeds,
    from any later state in which the two snapshot files are as they were written, returns the
    manifest that the snapshot wrote and changes neither a secret of another desk nor the registry. If the
    desk had a secret directory when the snapshot was taken, its secret files are then exactly those of
    that moment, with their bytes and modes, and those that came since are gone; if it had none, its
    secrets stay as they are before the restore. Likewise its overlay file has the text it had, or stays as
    it is if there was none. Provided that the manifest reads back as JSON; that no
    subprocess touches the desk's secret directory and overlay, which are no part of the
    snapshot's path or of each other's ([separate]); and that before the restore the desk's secret files lie in a
    directory that exists ([files_housed]) and no directory stands in the overlay file's place. *)
Theorem restore_undoes_changes d mid w dir m w1 w2 m' w3 :
  separate (id d) mid ->
  snapshot_drydock d mid w = (Ok (dir, m), w1) ->
  json_loads (json_dumps_indent (manifest_to_dict m)) = Some (manifest_to_dict m) ->
  at_path (dir // "snapshot.tgz") w2 = at_path (dir // "snapshot.tgz") w1 ->
  at_path (dir // "manifest.json") w2 = at_path (dir // "manifest.json") w1 ->
  files_housed (id d) w2 -> is_ndir (at_path (overlay_file_of (id d)) w2) = false ->
  restore_drydock dir w2 = (Ok m', w3) ->
  m' = m /\ w_db w3 = w_db w2
  /\ (forall n, w_files w3 !! (id d, n)
        = w_files (if is_ndir (at_path (secret_dir (id d)) w) then w else w2) !! (id d, n))
  /\ (forall j n, j <> id d -> w_files w3 !! (j, n) = w_files w2 !! (j, n))
  /\ at_path (overlay_file_of (id d)) w3
     = match at_path (overlay_file_of (id d)) w with
       | Some (NFile text) => Some (NFile text)
       | _ => at_path (overlay_file_of (id d)) w2
       end.
Proof. apply restore_undoes. Qed.

(** Taking a snapshot changes neither the database nor a secret. *)
Lemma snapshot_only_reads d mid w : db_files (snd (snapshot_drydock d mid w)) = db_files w.
Proof. apply quiet_snapshot. Qed.
End RoundTrip.

(** ** The guard of the extraction *)

(** An entry that climbs out is refused, but one that ends in a sibling directory whose name
    extends the extraction directory's is let through. *)
Example traversal_refused : safe_member "/tmp/mig-restore-x" (mkMember "../../etc/passwd" (TFile "" false)) = false.
Proof. reflexivity. Qed.
Example sibling_accepted : safe_member "/tmp/mig-restore-x" (mkMember "../mig-restore-xy/f" (TFile "" false)) = true.
Proof. reflexivity. Qed.

(** ** A concrete archive format: texts with their lengths in unary *)

Fixpoint ones (n : nat) : string := match n with O => "0" | S n => String "1" (ones n) end.
Definition enc_text (s : string) : string := ones (String.length s) +:+ s.

Fixpoint dec_text (n : nat) (s : string) : option (string * string) :=
  match s with
  | String "1" s' => dec_text (S n) s'
  | String "0" s' => Some (stake n s', sdrop n s')
  | _ => None
  end.

Lemma dec_enc s t n : dec_text n (ones (String.length s) +:+ s +:+ t) = Some (stake (n + String.length s) (s +:+ t), sdrop (n + String.length s) (s +:+ t)).
Proof.
  generalize (s +:+ t). intros u. generalize (String.length s). intros k. revert n. induction k as [|k IH]; intros n; cbn.
  - by rewrite Nat.add_0_r.
  - rewrite IH. by rewrite Nat.add_succ_r.
Qed.

Lemma dec_enc_text s t : dec_text 0 (enc_text s +:+ t) = Some (s, t).
Proof. unfold enc_text. rewrite app_assoc_s, dec_enc. cbn. by rewrite stake_app, sdrop_app. Qed.

Definition enc_member (m : tar_member) : string :=
  match tm_kind m with
  | TDir => "D" +:+ enc_text (tm_name m)
  | TFile d ro => (if ro then "R" else "W") +:+ enc_text (tm_name m) +:+ enc_text d
  end.

Definition demo_pack (l : list tar_member) : string := fold_right (fun m s => enc_member m +:+ s) "" l.

Definition dec_member (s : string) : option (tar_member * string) :=
  match s with
  | String "D" s' => match dec_text 0 s' with Some (n, r) => Some (mkMember n TDir, r) | None => None end
  | String k s' =>
      match dec_text 0 s' with
      | Some (n, r) => match dec_text 0 r with
                       | Some (d, r) => Some (mkMember n (TFile d (Ascii.eqb k "R")), r)
                       | None => None
                       end
      | None => None
      end
  | EmptyString => None
  end.

Fixpoint demo_unpack (fuel : nat) (s : string) : option (list tar_member) :=
  match fuel, s with
  | _, EmptyString => Some []
  | O, _ => None
  | S fuel, s => match dec_member s with
                 | Some (m, r) => option_map (cons m) (demo_unpack fuel r)
                 | None => None
                 end
  end.

Lemma dec_enc_member m t : dec_member (enc_member m +:+ t) = Some (m, t).
Proof.
  destruct m as [n [|d ro]]; unfold enc_member; cbn [tm_kind tm_name].
  - rewrite app_assoc_s. cbn -[enc_text]. by rewrite dec_enc_text.
  - rewrite !app_assoc_s. destruct ro; cbn -[enc_text]; by rewrite dec_enc_text, dec_enc_text.
Qed.

Lemma enc_member_cons m t : exists c r, enc_member m +:+ t = String c r.
Proof. unfold enc_member. destruct (tm_kind m) as [|d []]; cbn; eauto. Qed.

Lemma demo_unpack_pack l fuel : (length l <= fuel)%nat -> demo_unpack fuel (demo_pack l) = Some l.
Proof.
  revert fuel. induction l as [|m l IH]; intros fuel Hf; [by destruct fuel|]. destruct fuel as [|fuel]; cbn in Hf; [lia|].
  cbn [demo_pack fold_right]. fold (demo_pack l). pose proof (dec_enc_member m (demo_pack l)) as Hm.
  destruct (enc_member_cons m (demo_pack l)) as (c & r & E). rewrite E in *. cbn [demo_unpack]. rewrite Hm, IH by lia. done.
Qed.

Lemma demo_pack_length l : (length l <= String.length (demo_pack l))%nat.
Proof.
  induction l as [|m l IH]; [done|]. cbn [demo_pack fold_right length]. fold (demo_pack l). rewrite length_app_s.
  destruct (enc_member_cons m "") as (c & r & E). rewrite app_nil_r_s in E. rewrite E. cbn. lia.
Qed.

#[export] Instance demo_tar : TarGz := {| tar_pack := demo_pack; tar_unpack s := demo_unpack (String.length s) s |}.
#[export] Instance demo_tar_lawful : LawfulTar.
Proof. split. intros l. apply demo_unpack_pack, demo_pack_length. Qed.

(** ** A desk captured, damaged and restored *)

Definition env_with_json (loaded : json) (text : string) : Env := {|
  clock := @clock demo_env; clock_ok := @clock_ok demo_env; uuid_hex := @uuid_hex demo_env;
  token_bytes := @token_bytes demo_env; token_bytes_len := @token_bytes_len demo_env;
  sha256 := @sha256 demo_env; subprocess_run := @subprocess_run demo_env; run_host := @run_host demo_env;
  which := @which demo_env; env_float_repr := @env_float_repr demo_env; json_loads _ := Some loaded;
  json_dumps := @json_dumps demo_env; json_dumps_indent _ := text;
  yaml_load := @yaml_load demo_env; yaml_dump := @yaml_dump demo_env; fs_fault := @fs_fault demo_env; audit_fault := @audit_fault demo_env;
  is_root := true; secrets_root := "/root/.drydock/secrets"; home := "/root"; environ _ := None |}.

Definition snap_desk : Drydock :=
  mkDrydock "a" "p" "/r" "dock_a" "" "main" "HEAD" "running" "c1" "" "img:1" "" "t" "t" (JObj []) "" None (JObj []).

Definition snap_world : world :=
  set_host {["/root/.drydock/secrets/dock_a" := NDir; "/root/.drydock/overlays/dock_a.devcontainer.json" := NFile "{ov}"]}
    (set_files {[("dock_a", "key") := mkFile "k1" true; ("dock_b", "key") := mkFile "b" true]}
      (set_db (set_drydocks [new_dock_row snap_desk] empty_db) empty_world)).

Definition no_manifest : SnapshotManifest :=
  mkManifest JNull JNull JNull JNull JNull JNull JNull JNull None [] JNull.

Definition result_or {A} (d : A) (r : res exn A) : A := match r with Ok a => a | Err _ => d end.

Definition snap_manifest : SnapshotManifest :=
  Eval vm_compute in
    snd (result_or ("", no_manifest) (fst (snapshot_drydock (H := env_with_json JNull "M") snap_desk "mig_1" snap_world))).

#[local] Instance snap_env : Env := env_with_json (manifest_to_dict snap_manifest) "M".

Definition taken_world : world := Eval vm_compute in snd (snapshot_drydock snap_desk "mig_1" snap_world).

(** The key is replaced, another file added and the overlay rewritten. *)
Definition damaged_world : world :=
  Eval vm_compute in
  set_host (<["/root/.drydock/overlays/dock_a.devcontainer.json" := NFile "broken"]> (w_host taken_world))
    (set_files (<[("dock_a", "key") := mkFile "k2" false]> (<[("dock_a", "extra") := mkFile "x" false]> (w_files taken_world)))
      taken_world).

Lemma separate_with loaded text : separate (H := env_with_json loaded text) "dock_a" "mig_1".
Proof.
  split; [by split| | |reflexivity]; split; try (vm_compute; intuition congruence).
Qed.

Definition restored_world : world :=
  Eval vm_compute in snd (restore_drydock "/root/.drydock/migrations/mig_1" damaged_world).

Lemma restore_undoes_changes_witness :
  restore_drydock "/root/.drydock/migrations/mig_1" damaged_world = (Ok snap_manifest, restored_world)
  /\ w_files restored_world !! ("dock_a", "key") = Some (mkFile "k1" true)
  /\ w_files restored_world !! ("dock_a", "extra") = None
  /\ at_path "/root/.drydock/overlays/dock_a.devcontainer.json" restored_world = Some (NFile "{ov}").
Proof.
  assert (snapshot_drydock snap_desk "mig_1" snap_world
          = (Ok ("/root/.drydock/migrations/mig_1", snap_manifest), taken_world)) as E by (vm_compute; reflexivity).
  assert (restore_drydock "/root/.drydock/migrations/mig_1" damaged_world = (Ok snap_manifest, restored_world)) as Er
    by (vm_compute; reflexivity).
  split; [exact Er|].
  destruct (restore_undoes_changes snap_desk "mig_1" snap_world _ snap_manifest taken_world damaged_world snap_manifest restored_world
    (separate_with _ _) E eq_refl ltac:(vm_compute; reflexivity) ltac:(vm_compute; reflexivity)
    ltac:(intros n f _; vm_compute; reflexivity) ltac:(vm_compute; reflexivity) Er) as (_ & _ & S & _ & O).
  split; [|split].
  - etransitivity; [exact (S "key")|]. vm_compute. reflexivity.
  - etransitivity; [exact (S "extra")|]. vm_compute. reflexivity.
  - etransitivity; [exact O|]. vm_compute. reflexivity.
Defined.
