(* ===== verification/Migration.v ===== *)
(** [core/migration.py] and [cli/migrate.py]: the plan of a migration, the checks before it, and
    the command that records the plan. *)

From S2P Require Import Prelude PyStr PyVal Datetime Registry World Container.
From Stdlib Require Import List.

(** ** Stages, statuses, targets *)

Inductive MigrationStage : Type :=
  | PLAN | PRECHECK | DRAIN | SNAPSHOT | STOP | MUTATE | RESTORE | START | VERIFY | ROLLBACK | CLEANUP.

Definition stage_value (s : MigrationStage) : string :=
  match s with
  | PLAN => "plan" | PRECHECK => "precheck" | DRAIN => "drain" | SNAPSHOT => "snapshot" | STOP => "stop"
  | MUTATE => "mutate" | RESTORE => "restore" | START => "start" | VERIFY => "verify" | ROLLBACK => "rollback"
  | CLEANUP => "cleanup"
  end.

Inductive MigrationStatus : Type := PLANNED | IN_PROGRESS | COMPLETED | ROLLED_BACK | FAILED.

Definition status_value (s : MigrationStatus) : string :=
  match s with
  | PLANNED => "planned" | IN_PROGRESS => "in_progress" | COMPLETED => "completed"
  | ROLLED_BACK => "rolled_back" | FAILED => "failed"
  end.

#[export] Instance MigrationStage_eq_dec : EqDecision MigrationStage.
Proof. solve_decision. Defined.

Inductive MigrationTarget : Type :=
  | ImageBumpTarget (new_image : string)
  | ProjectReloadTarget
  | SchemaMigrationTarget (target_schema_version : Z).

Definition target_kind (t : MigrationTarget) : string :=
  match t with
  | ImageBumpTarget _ => "image_bump"
  | ProjectReloadTarget => "project_reload"
  | SchemaMigrationTarget _ => "schema_migration"
  end.

(** [asdict(target)]. *)
Definition _serialize_target (t : MigrationTarget) : obj :=
  match t with
  | ImageBumpTarget i => [("new_image", JStr i)]
  | ProjectReloadTarget => []
  | SchemaMigrationTarget v => [("target_schema_version", JInt v)]
  end ++ [("kind", JStr (target_kind t))].

(** ** The plan *)

Record MigrationPlan : Type := mkPlan {
  pl_migration_id : string; pl_drydock_id : string; pl_drydock_name : string; pl_source_harbor : string;
  pl_target_harbor : string; pl_target_kind : string; pl_target_summary : obj; pl_changes : list (string * string);
  pl_downtime : Z; pl_warnings : list string; pl_rollback_strategy : string; pl_created_at : string
}.

Definition plan_to_dict (p : MigrationPlan) : json :=
  JObj [("migration_id", JStr (pl_migration_id p)); ("drydock_id", JStr (pl_drydock_id p));
        ("drydock_name", JStr (pl_drydock_name p)); ("source_harbor", JStr (pl_source_harbor p));
        ("target_harbor", JStr (pl_target_harbor p)); ("target_kind", JStr (pl_target_kind p));
        ("target_summary", JObj (pl_target_summary p));
        ("changes", JObj (map (fun kv => (fst kv, JStr (snd kv))) (pl_changes p)));
        ("estimated_downtime_seconds", JInt (pl_downtime p));
        ("in_flight_lease_warnings", JList (map JStr (pl_warnings p)));
        ("rollback_strategy", JStr (pl_rollback_strategy p)); ("created_at", JStr (pl_created_at p))].

Definition human_summary (p : MigrationPlan) : list string :=
  ["Migration plan " +:+ pl_migration_id p;
   "  drydock: " +:+ pl_drydock_name p +:+ " (" +:+ pl_drydock_id p +:+ ")";
   "  harbor:  " +:+ pl_source_harbor p +:+ " → " +:+ pl_target_harbor p;
   "  target:  " +:+ pl_target_kind p]
  ++ match pl_changes p with
     | [] => []
     | cs => "  changes:" :: map (fun kv => "    " +:+ fst kv +:+ ": " +:+ snd kv) cs
     end
  ++ ["  estimated downtime: " +:+ str_of_Z (pl_downtime p) +:+ "s"]
  ++ match pl_warnings p with [] => [] | ws => "  warnings:" :: map (fun w => "    ⚠ " +:+ w) ws end
  ++ ["  rollback: " +:+ pl_rollback_strategy p].

Section Planner.
Context `{Env}.

(** What a target changes, and for how long the desk is down; a bump to the current image is
    refused. *)
Definition planned_changes (d : Drydock) (t : MigrationTarget) : res exn (list (string * string) * Z) :=
  match t with
  | ImageBumpTarget i =>
      let current_image := if is_empty (image d) then "(none)" else image d in
      if current_image =s i
      then Err (ValueError ("image bump no-op: drydock '" +:+ name d +:+ "' already on " +:+ repr_str i
                  +:+ "; nothing to do"))
      else Ok ([("image", current_image +:+ " → " +:+ i); ("overlay", "regenerate (image change)")], 30)
  | ProjectReloadTarget =>
      Ok ([("overlay", "regenerate from current project YAML"); ("registry_config", "re-pin policy")], 30)
  | SchemaMigrationTarget v => Ok ([("registry_schema", "→ V" +:+ str_of_Z v)], 120)
  end.

Definition lease_warnings (ls : list workload_row) : list string :=
  omap (fun l => if is_empty (wl_expires_at l) then None
                 else Some ("active WorkloadLease " +:+ wl_id l +:+ " (expires " +:+ wl_expires_at l +:+ ")")) ls.

Definition new_migration_id : W string := u ← uuid4; mret ("mig_" +:+ stake 16 u).

Definition plan_migration (d : Drydock) (t : MigrationTarget) (source_harbor : string) (ls : list workload_row)
    : W MigrationPlan :=
  '(changes, downtime) ← lift (planned_changes d t);
  i ← new_migration_id;
  now ← _utc_now;
  mret (mkPlan i (id d) (name d) source_harbor source_harbor (target_kind t) (_serialize_target t) changes downtime
          (lease_warnings ls) "snapshot-and-restore" now).

(** ** Pre-check *)

Record PreCheckResult : Type := mkPrecheck { refusals : list string; pc_warnings : list string }.

Definition precheck_dict (r : PreCheckResult) : json :=
  JObj [("refusals", JList (map JStr (refusals r))); ("warnings", JList (map JStr (pc_warnings r)))].

Definition isinstance_image_bump (kind : string) : bool := kind =s "image_bump".

(** [None] for a probe that could not tell. *)
Definition precheck_migration (d : Drydock) (p : MigrationPlan) (disk_free_bytes : option Z) (daemon_healthy : bool)
    (target_image_present : option bool) : PreCheckResult :=
  mkPrecheck
    ((if daemon_healthy then [] else ["daemon health check failed on target Harbor"])
     ++ (if state d =s "migrating"
         then ["drydock '" +:+ name d +:+ "' has state='migrating' — finish or "
               +:+ "rollback the prior migration before starting another"] else [])
     ++ match target_image_present with
        | Some false =>
            if isinstance_image_bump (pl_target_kind p)
            then ["target image not present locally (" +:+ py_repr (jget "new_image" (pl_target_summary p)) +:+ "); "
                  +:+ "docker pull it first or unpin to fetch on demand"] else []
        | _ => []
        end)
    (match disk_free_bytes with
     | Some n => if n <? 1000000000
                 then ["low disk free (" +:+ str_of_Z (n / 1000000) +:+ " MB); snapshot may not fit"] else []
     | None => []
     end ++ pl_warnings p).

(** [None] when docker cannot be reached. *)
Definition probe_target_image_present (img : string) : W (option bool) :=
  catch ('(rc, _, _) ← run_uncaught (mkCall [default "docker" (which "docker"); "image"; "inspect"; img] "");
         mret (Some (rc =? 0)))
    (fun e => if (exn_class e =s "FileNotFoundError") || (exn_class e =s "TimeoutExpired") then mret None else throw e).

(** ** [cli/migrate.py] *)

(** [int(text)], a [ValueError] turned into the command's error. *)
Definition _parse_target (spec : string) : res exn MigrationTarget :=
  let spec := strip spec in
  if spec =s "reload" then Ok ProjectReloadTarget
  else if startswith spec "image=" then
    let new_image := strip (sdrop 6 spec) in
    if is_empty new_image
    then Err (WsError "invalid --target image: empty image tag"
           (Some "Use --target image=<tag>, e.g. ghcr.io/stevefan/drydock-base:v1.0.20"))
    else Ok (ImageBumpTarget new_image)
  else if startswith spec "schema=" then
    match int_of_str (sdrop 7 spec) with
    | Some v => Ok (SchemaMigrationTarget v)
    | None => Err (WsError "invalid --target schema: not an integer version"
                (Some "Use --target schema=<int>, e.g. --target schema=8"))
    end
  else Err (WsError ("unknown --target form: " +:+ repr_str spec)
         (Some "Supported: 'image=<tag>', 'reload', 'schema=<int>'")).

(** The host name, the free space and the answer of the daemon's health method. *)
Context (hostname : string) (disk_free : option Z) (daemon_answers : bool).

(** The command up to the execution: the recorded plan and its checks, or why there is none. *)
Definition plan_command (n target_spec : string) (dry_run : bool) : W (MigrationPlan * PreCheckResult) :=
  drydock ← reg_get (get_drydock n);
  match drydock with
  | None => throw (WsError ("drydock_not_found: '" +:+ n +:+ "'")
              (Some "Use `drydock list` to see what's registered."))
  | Some d =>
      target ← lift (_parse_target target_spec);
      in_flight ← reg_get (list_active_migrations (Some (id d)));
      match in_flight with
      | m :: _ => throw (WsError ("migration_in_progress: drydock '" +:+ n +:+ "' has migration " +:+ mg_id m
                           +:+ " in_progress") (Some "Resolve or rollback the prior migration first."))
      | [] =>
          leases ← reg_get (list_active_workload_leases (Some (id d)));
          plan ← catch (plan_migration d target hostname leases)
                   (fun e => match e with ValueError m => throw (WsError m (Some "")) | _ => throw e end);
          present ← match target with
                    | ImageBumpTarget i => if dry_run then mret None else probe_target_image_present i
                    | _ => mret None
                    end;
          let precheck := precheck_migration d plan (if dry_run then None else disk_free)
                            (dry_run || daemon_answers) present in
          now ← _utc_now;
          _ ← reg (insert_migration now (pl_migration_id plan) (id d) (plan_to_dict plan) "planned");
          mret (plan, precheck)
      end
  end.

(** Whether the command goes on to execute the plan. *)
Definition executes (r : PreCheckResult) (force dry_run : bool) : bool :=
  match refusals r with
  | [] => negb dry_run && (force || match pc_warnings r with [] => true | _ => false end)
  | _ => false
  end.
End Planner.
