(* ===== verification/MigrationExec.v ===== *)
(** [core/migration_executor.py]: the migration state machine. A [StageFailure] a stage raises is
    a value here ([inl]), since only the executor's own [_stage] and [execute_migration] see it;
    every other exception is one of the monad. *)

From S2P Require Import Prelude PyStr PyVal Datetime Registry World Rpc Overlay Container ProjectConfig Snapshot DeskSpec Desks Migration.
From Stdlib Require Import List.

Record StageOutcome : Type := mkStage { so_stage : string; so_status : string; so_detail : obj }.

Record MigrationOutcome : Type := mkOutcome {
  mo_migration_id : string; mo_drydock_id : string; mo_terminal_status : string; mo_stages : list StageOutcome;
  mo_snapshot_path : option string; mo_error : option obj
}.

Definition stage_dict (s : StageOutcome) : json :=
  JObj [("stage", JStr (so_stage s)); ("status", JStr (so_status s)); ("detail", JObj (so_detail s))].

Definition outcome_to_dict (o : MigrationOutcome) : json :=
  JObj [("migration_id", JStr (mo_migration_id o)); ("drydock_id", JStr (mo_drydock_id o));
        ("terminal_status", JStr (mo_terminal_status o)); ("stages", JList (map stage_dict (mo_stages o)));
        ("snapshot_path", opt_str (mo_snapshot_path o));
        ("error", match mo_error o with Some e => JObj e | None => JNull end)].

Definition add_stage (s : StageOutcome) (o : MigrationOutcome) : MigrationOutcome :=
  mkOutcome (mo_migration_id o) (mo_drydock_id o) (mo_terminal_status o) (mo_stages o ++ [s]) (mo_snapshot_path o)
    (mo_error o).
Definition set_terminal (t : MigrationStatus) (o : MigrationOutcome) : MigrationOutcome :=
  mkOutcome (mo_migration_id o) (mo_drydock_id o) (status_value t) (mo_stages o) (mo_snapshot_path o) (mo_error o).
Definition set_snapshot_path (p : string) (o : MigrationOutcome) : MigrationOutcome :=
  mkOutcome (mo_migration_id o) (mo_drydock_id o) (mo_terminal_status o) (mo_stages o) (Some p) (mo_error o).
Definition set_error (e : obj) (o : MigrationOutcome) : MigrationOutcome :=
  mkOutcome (mo_migration_id o) (mo_drydock_id o) (mo_terminal_status o) (mo_stages o) (mo_snapshot_path o) (Some e).

(** A [StageFailure]: its stage and its detail. *)
Definition failure : Type := MigrationStage * obj.

Section Executor.
Context `{Env, TarGz}.

(** A stage's body: its detail, or the failure it raises. *)
Abbreviation body := (W (failure + obj)).

Definition fails (s : MigrationStage) (detail : obj) : body := mret (inl (s, detail)).
Definition done_with (detail : obj) : body := mret (inr detail).

(** ** The stages *)

Definition drain_ttl_seconds : Z := 60.

Definition _do_precheck (d : Drydock) : body :=
  if state d =s "migrating" then fails PRECHECK [("reason", JStr "drydock_state=migrating")]
  else done_with [("drydock_state", JStr (state d))].

Definition _do_drain : body :=
  done_with [("drain_version", JStr "v0"); ("ttl_seconds", JInt drain_ttl_seconds)].

Definition manifest_summary (m : SnapshotManifest) : json :=
  let present v := JBool (match v with JNull => false | _ => true end) in
  JObj [("drydock_id", sm_drydock_id m); ("captured_at", sm_captured_at m);
        ("secrets_present", present (sm_secrets_path m)); ("overlay_present", present (sm_overlay_path m));
        ("worktree_dirty", match sm_worktree m with Some w => wt_is_dirty w | None => JBool false end)].

Definition _do_snapshot (d : Drydock) (mid : string) : body :=
  catch ('(dir, m) ← snapshot_drydock d mid;
         done_with [("snapshot_dir", JStr dir); ("bytes_total", sm_bytes_total m);
                    ("manifest_summary", manifest_summary m)])
    (fun e => if is_snapshot_error e
              then fails SNAPSHOT [("reason", JStr "snapshot_failed"); ("error", JStr (str_exn e))]
              else throw e).

Definition _do_stop (d : Drydock) : body :=
  if is_empty (container_id d) then done_with [("skipped", JBool true); ("reason", JStr "no_container_id")]
  else
    '(rc, _, stderr) ← run_uncaught (mkCall [default "docker" (which "docker"); "stop"; "-t";
                         str_of_Z drain_ttl_seconds; container_id d] "");
    if rc =? 0 then done_with [("container_id", JStr (container_id d)); ("stopped", JBool true)]
    else if contains "No such container" stderr
    then done_with [("skipped", JBool true); ("reason", JStr "container_already_gone")]
    else fails STOP [("reason", JStr "docker_stop_failed"); ("exit_code", JInt rc);
                     ("stderr", JStr (stake 500 (strip stderr)))].

Definition _mutate_image_bump (d : Drydock) (target_summary : obj) : body :=
  let new_image := jget "new_image" target_summary in
  if negb (truthy new_image) then fails MUTATE [("reason", JStr "image_bump_missing_new_image")]
  else
    text ← lift (sql_text new_image);
    _ ← touch_drydock (name d) [F_image text];
    done_with [("image_old", JStr (image d)); ("image_new", new_image)].

(** [if proj.k: kwargs[k] = list(proj.k)]. *)
Definition reload_field (v : json) : res exn (option json) :=
  if truthy v then l ← as_list v; Ok (Some (JList l)) else Ok None.

Definition updated_names (fields : list (string * option json)) : list string :=
  omap (fun kv => match snd kv with Some _ => Some (fst kv) | None => None end) fields.

Definition _mutate_project_reload (d : Drydock) : body :=
  proj ← load_project_config (project d);
  match proj with
  | None => fails MUTATE [("reason", JStr "project_yaml_missing"); ("project", JStr (project d))]
  | Some p =>
      cp ← lift (reload_field (pc_capabilities p));
      sc ← lift (reload_field (pc_delegatable_secrets p));
      fw ← lift (reload_field (pc_delegatable_firewall_domains p));
      ss ← lift (reload_field (pc_delegatable_storage_scopes p));
      ps ← lift (reload_field (pc_delegatable_provision_scopes p));
      let names := updated_names [("capabilities", cp); ("delegatable_secrets", sc);
                     ("delegatable_firewall_domains", fw); ("delegatable_storage_scopes", ss);
                     ("delegatable_provision_scopes", ps)] in
      _ ← match names with
          | [] => mret tt
          | _ => now ← _utc_now; reg (update_desk_delegations now (name d) fw sc cp ss ps None None None)
          end;
      done_with [("project", JStr (project d)); ("delegations_updated", jstrs names)]
  end.

(** [config.mutate_dispatcher] is not set by the command. *)
Definition _do_mutate (d : Drydock) (plan : obj) : body :=
  let target_kind := jget "target_kind" plan in
  match py_or (jget "target_summary" plan) (JObj []) with
  | JObj target_summary =>
      if str_eq_json "image_bump" target_kind then _mutate_image_bump d target_summary
      else if str_eq_json "project_reload" target_kind then _mutate_project_reload d
      else if str_eq_json "schema_migration" target_kind then
        fails MUTATE [("reason", JStr "schema_migration_not_implemented");
                      ("fix", JStr "Schema migrations need multi-drydock orchestration; M2.")]
      else fails MUTATE [("reason", JStr "unknown_target_kind"); ("target_kind", target_kind)]
  | v => lift (attr_error v "get")
  end.

Definition _do_start (d : Drydock) : body :=
  if is_empty (worktree_path d) then done_with [("skipped", JBool true); ("reason", JStr "no_worktree_path")]
  else
    fresh ← reg_get (get_drydock (name d));
    match fresh with
    | None => fails START [("reason", JStr "drydock_disappeared_after_mutate")]
    | Some ws =>
        catch (result ← _resume_desk false ws;
               done_with [("started", JBool true); ("container_id", jget "container_id" result);
                          ("state", jget "state" result)])
          (fun e => fails START [("reason", JStr "resume_failed"); ("error", JStr (str_exn e))])
    end.

Definition _do_verify (d : Drydock) (start_skipped : bool) : body :=
  if start_skipped
  then done_with [("verified", JBool false); ("skipped", JBool true); ("reason", JStr "start_skipped")]
  else
    fresh ← reg_get (get_drydock (name d));
    match fresh with
    | None => fails VERIFY [("reason", JStr "drydock_disappeared_after_start")]
    | Some ws =>
        if state ws =s "running"
        then done_with [("verified", JBool true); ("drydock_state", JStr (state ws)); ("container_id", JStr (container_id ws))]
        else fails VERIFY [("reason", JStr "not_running_after_start"); ("state", JStr (state ws))]
    end.

Definition _do_cleanup (snapshot_dir : option string) : body :=
  done_with [("snapshot_retained", JBool (is_some snapshot_dir)); ("snapshot_dir", opt_str snapshot_dir)].

(** ** The stage runner *)

Definition mg_update (mid : string) (st stage snapshot : option string) (error : option json) (completed : option string)
    : W unit := reg (update_migration mid st stage snapshot error completed).

Definition stage_event (o : MigrationOutcome) (mid result : string) (s : MigrationStage) (outcome : string) (detail : obj)
    : W json :=
  emit_audit "drydock.migration_stage" (Some (mo_drydock_id o)) (JStr mid) "MigrationExecutor" result
    (jmerge [("stage", JStr (stage_value s)); ("outcome", JStr outcome)] detail).

Definition _stage (o : MigrationOutcome) (mid : string) (s : MigrationStage) (fn : body)
    : W (MigrationOutcome * (failure + StageOutcome)) :=
  _ ← mg_update mid None (Some (stage_value s)) None None None;
  r ← catch (x ← fn; mret (inr x)) (fun e => mret (inl e));
  match r with
  | inr (inl f) => mret (o, inl f)
  | inl e =>
      let detail := [("error", JStr (str_exn e)); ("error_type", JStr (exn_class e))] in
      _ ← stage_event o mid "error" s "failed" detail;
      mret (add_stage (mkStage (stage_value s) "failed" detail) o, inl (s, detail))
  | inr (inr detail) =>
      let record := mkStage (stage_value s) "ok" detail in
      _ ← stage_event o mid "ok" s "ok" detail;
      mret (add_stage record o, inr record)
  end.

(** ** The forward path *)

(** Where the forward path ended: the snapshot if it was taken, the failure if there was one. *)
Record walk : Type := mkWalk {
  wk_outcome : MigrationOutcome; wk_snapshot : option string; wk_failure : option failure
}.

(** One stage, then the rest; a failure ends the path with the snapshot [snap] taken so far. *)
Definition then_stage (snap : option string) (st : W (MigrationOutcome * (failure + StageOutcome)))
    (k : MigrationOutcome -> StageOutcome -> W walk) : W walk :=
  '(o, r) ← st;
  match r with
  | inl f => mret (mkWalk o snap (Some f))
  | inr so => k o so
  end.

Definition detail_text (k : string) (d : obj) : option string :=
  match jget k d with JStr s => if is_empty s then None else Some s | _ => None end.

(** From STOP on, with the snapshot in [dir]. *)
Definition after_snapshot (d : Drydock) (plan : obj) (mid : string) (dir : option string) (o : MigrationOutcome)
    : W walk :=
  then_stage dir (_stage o mid STOP (_do_stop d)) (fun o _ =>
  then_stage dir (_stage o mid MUTATE (_do_mutate d plan)) (fun o _ =>
  then_stage dir (_stage o mid START (_do_start d)) (fun o start_result =>
  then_stage dir (_stage o mid VERIFY (_do_verify d (truthy (jget "skipped" (so_detail start_result))))) (fun o _ =>
  then_stage dir (_stage o mid CLEANUP (_do_cleanup dir)) (fun o _ =>
  mret (mkWalk o dir None)))))).

Definition record_snapshot (mid : string) (dir : option string) (o : MigrationOutcome) : W MigrationOutcome :=
  match dir with
  | Some p => _ ← mg_update mid None None (Some p) None None; mret (set_snapshot_path p o)
  | None => mret o
  end.

Definition forward (d : Drydock) (plan : obj) (mid : string) (o : MigrationOutcome) : W walk :=
  then_stage None (_stage o mid PRECHECK (_do_precheck d)) (fun o _ =>
  then_stage None (_stage o mid DRAIN _do_drain) (fun o _ =>
  then_stage None (_stage o mid SNAPSHOT (_do_snapshot d mid)) (fun o snap_result =>
    let dir := detail_text "snapshot_dir" (so_detail snap_result) in
    o ← record_snapshot mid dir o;
    after_snapshot d plan mid dir o))).

(** ** Rollback *)

(** [k in v] for a text [k]. *)
Definition text_in (k : string) (v : json) : res exn bool :=
  match v with
  | JStr s => Ok (contains k s)
  | JList l => Ok (existsb (str_eq_json k) l)
  | JObj o => Ok (is_some (assoc k o))
  | _ => Err (PyError "TypeError" ("argument of type '" +:+ type_name v +:+ "' is not iterable"))
  end.

(** Put the image back that the snapshot recorded. *)
Definition restore_image (n : string) (m : SnapshotManifest) : W unit :=
  prior ← lift (get_item "drydocks" JNull (sm_registry_row m));
  let prior := py_or prior (JObj []) in
  found ← lift (text_in "image" prior);
  if found : bool
  then
    v ← lift (item "image" prior);
    text ← lift (sql_text v);
    _ ← touch_drydock n [F_image text];
    mret tt
  else mret tt.

Definition end_migration (mid : string) (st : MigrationStatus) (error : option obj) : W unit :=
  now ← _utc_now;
  mg_update mid (Some (status_value st)) None None (option_map JObj error) (Some now).

Definition failed_event (o : MigrationOutcome) (mid : string) (details : obj) : W json :=
  emit_audit "drydock.migration_failed" (Some (mo_drydock_id o)) (JStr mid) "MigrationExecutor" "error" details.

Definition error_or_empty (o : MigrationOutcome) : obj := default [] (mo_error o).

Definition _rollback (o : MigrationOutcome) (mid : string) (d : Drydock) (snapshot_dir : string) : W MigrationOutcome :=
  _ ← mg_update mid None (Some (stage_value ROLLBACK)) None None None;
  r ← catch (m ← restore_drydock snapshot_dir; _ ← restore_image (name d) m; mret None) (fun e => mret (Some e));
  match r with
  | Some e =>
      let err := jmerge (error_or_empty o) [("rollback_error", JStr (str_exn e));
                                           ("rollback_error_type", JStr (exn_class e))] in
      let o := set_error err (set_terminal FAILED o) in
      _ ← end_migration mid FAILED (Some err);
      _ ← failed_event o mid err;
      mret (add_stage (mkStage (stage_value ROLLBACK) "failed" [("error", JStr (str_exn e))]) o)
  | None =>
      let o := set_terminal ROLLED_BACK (add_stage (mkStage (stage_value ROLLBACK) "ok" []) o) in
      _ ← end_migration mid ROLLED_BACK (mo_error o);
      _ ← emit_audit "drydock.migration_rolled_back" (Some (mo_drydock_id o)) (JStr mid) "MigrationExecutor" "ok"
            [("failed_stage", jget "failed_stage" (error_or_empty o))];
      mret o
  end.

(** ** The executor *)

Definition _drydock_by_id (i : string) (b : db) : option Drydock :=
  option_map _row_to_drydock (tbl_first (by_id i) (drydocks b)).

Definition succeed (o : MigrationOutcome) (mid : string) : W MigrationOutcome :=
  let o := set_terminal COMPLETED o in
  now ← _utc_now;
  _ ← mg_update mid (Some (status_value COMPLETED)) (Some (stage_value CLEANUP)) None None (Some now);
  _ ← emit_audit "drydock.migrated" (Some (mo_drydock_id o)) (JStr mid) "MigrationExecutor" "ok"
        [("stages", jstrs (map so_stage (mo_stages o)))];
  mret o.

(** A failure: before the snapshot there is nothing to roll back. *)
Definition fail_or_rollback (wk : walk) (f : failure) (mid : string) (d : Drydock) : W MigrationOutcome :=
  let err := jmerge [("failed_stage", JStr (stage_value (fst f)))] (snd f) in
  let o := set_error err (wk_outcome wk) in
  match wk_snapshot wk with
  | None =>
      let o := set_terminal FAILED o in
      _ ← end_migration mid FAILED (Some err);
      _ ← failed_event o mid err;
      mret o
  | Some dir => _rollback o mid d dir
  end.

Definition finish_walk (wk : walk) (mid : string) (d : Drydock) : W MigrationOutcome :=
  match wk_failure wk with
  | None => succeed (wk_outcome wk) mid
  | Some f => fail_or_rollback wk f mid d
  end.

Definition run_planned (mid : string) (d : Drydock) (plan : obj) : W MigrationOutcome :=
  _ ← mg_update mid (Some (status_value IN_PROGRESS)) (Some (stage_value PRECHECK)) None None None;
  _ ← emit_audit "drydock.migration_started" (Some (id d)) (JStr mid) "MigrationExecutor" "ok" [("plan", JObj plan)];
  wk ← forward d plan mid (mkOutcome mid (id d) (status_value IN_PROGRESS) [] None None);
  finish_walk wk mid d.

Definition execute_migration (mid : string) : W MigrationOutcome :=
  migration_row ← reg_get (get_migration mid);
  match migration_row with
  | None => throw (ValueError ("migration " +:+ repr_str mid +:+ " not found"))
  | Some row =>
      if negb (mg_status row =s "planned")
      then throw (ValueError ("migration " +:+ repr_str mid +:+ " has status " +:+ repr_str (mg_status row)
             +:+ "; executor expects 'planned'"))
      else
        drydock_id ← lift (item "drydock_id" (mg_plan row));
        drydock ← reg_get (fun b => match drydock_id with JStr i => _drydock_by_id i b | _ => None end);
        match drydock, mg_plan row with
        | Some d, JObj plan => run_planned mid d plan
        | _, _ => throw (ValueError ("plan references missing drydock " +:+ py_repr drydock_id))
        end
  end.
End Executor.
