(* ===== verification/MigrationRecovery.v ===== *)
(** [daemon/recovery.py], second part: what the daemon does at startup with the migrations that
    were in progress when it last stopped. It never resumes one: a migration whose snapshot is
    there is rolled back from it, every other one is marked failed. *)

From S2P Require Import Prelude PyStr PyVal Datetime Registry World Overlay Container ProjectConfig Snapshot DeskSpec Desks Migration MigrationExec.
From Stdlib Require Import List.

Section MigrationRecovery.
Context `{Env, TarGz}.

(** The image of the snapshot goes to the row of the desk with the migration's id, if it is there. *)
Definition restore_image_by_id (drydock_id : string) (m : SnapshotManifest) : W unit :=
  prior ← lift (get_item "drydocks" JNull (sm_registry_row m));
  let prior := py_or prior (JObj []) in
  found ← lift (text_in "image" prior);
  if found : bool
  then
    row ← reg_get (_drydock_by_id drydock_id);
    match row with
    | Some d =>
        v ← lift (item "image" prior);
        text ← lift (sql_text v);
        _ ← touch_drydock (name d) [F_image text];
        mret tt
    | None => mret tt
    end
  else mret tt.

Definition _rollback_migration_from_snapshot (drydock_id snapshot_path : string) : W unit :=
  manifest ← restore_drydock snapshot_path;
  restore_image_by_id drydock_id manifest.

(** The two counts of the report. *)
Definition counts : Type := Z * Z.

Definition end_recovered (mid : string) (st : MigrationStatus) (error : obj) : W unit :=
  now ← _utc_now;
  mg_update mid (Some (status_value st)) None None (Some (JObj error)) (Some now).

Definition restart_error (r : migration_row) : obj :=
  [("reason", JStr "daemon_restart_recovery"); ("current_stage", opt_str (mg_stage r))].

(** The rollback and its record; otherwise the error that becomes part of the record of the
    failure, if there was one. *)
Definition try_rollback (r : migration_row) : W (unit + obj) :=
  match mg_snapshot r with
  | None => mret (inr [])
  | Some p =>
      if is_empty p then mret (inr [])
      else
        found ← path_exists (path_str p);
        if negb found then mret (inr [])
        else catch (_ ← _rollback_migration_from_snapshot (mg_drydock_id r) (path_str p);
                    _ ← end_recovered (mg_id r) ROLLED_BACK (restart_error r);
                    mret (inl tt))
               (fun e => mret (inr [("rollback_error", JStr (str_exn e))]))
  end.

Definition recover_migration (r : migration_row) : W counts :=
  outcome ← try_rollback r;
  match outcome with
  | inl _ => mret (1, 0)
  | inr err => _ ← end_recovered (mg_id r) FAILED (restart_error r ++ err); mret (0, 1)
  end.

Definition stalled (r : migration_row) : bool := mg_status r =s "in_progress".
Definition le_mg_created (a b : migration_row) : bool := String.leb (mg_created_at a) (mg_created_at b).

Fixpoint recover_migrations (rows : list migration_row) : W counts :=
  match rows with
  | [] => mret (0, 0)
  | r :: rows' =>
      '(a, b) ← recover_migration r;
      '(a', b') ← recover_migrations rows';
      mret (a + a', b + b')
  end.

Definition recover_in_progress_migrations : W counts :=
  rows ← reg_get (fun d => order_by le_mg_created (tbl_select stalled (migrations d)));
  recover_migrations rows.
End MigrationRecovery.
