(* ===== verification/MigrationFacts.v ===== *)
(** Correctness of [Migration.v], [MigrationExec.v] and [MigrationRecovery.v]. An abstract machine
    says what a migration may do; the executor is shown to follow it to an end and to leave the
    migration's row where the machine stands, whatever docker, git and the files answer. *)

From stdpp Require Import relations.
From S2P Require Import Prelude PyStr PyVal Datetime Registry RegistryFacts World Rpc WorldFacts RpcFacts Overlay Container ProjectConfig Snapshot DeskSpec Desks DestroyFacts SpawnFacts SnapshotFacts Migration MigrationExec MigrationRecovery.
From Stdlib Require Import List.

(** ** The machine *)

(** A migration is in a stage, with a snapshot or without, or rolls back, or has ended with a status
    in the stage it had entered last. *)
Inductive phase : Type :=
  | At (s : MigrationStage) (snap : bool)
  | Back
  | Ended (t : MigrationStatus) (s : MigrationStage).

(** The stages in their order. *)
Definition next_stage (s : MigrationStage) : option MigrationStage :=
  match s with
  | PRECHECK => Some DRAIN | DRAIN => Some SNAPSHOT | SNAPSHOT => Some STOP | STOP => Some MUTATE
  | MUTATE => Some START | START => Some VERIFY | VERIFY => Some CLEANUP
  | _ => None
  end.

Definition has_snapshot (s : MigrationStage) (snap : bool) : bool :=
  match s with SNAPSHOT => true | _ => snap end.

(** What the migration has recorded of its stages. *)
Definition log : Type := list (string * string).
Definition entry (s : MigrationStage) (status : string) : string * string := (stage_value s, status).

Inductive mstep : phase * log -> phase * log -> Prop :=
  | step_next s s' snap l : next_stage s = Some s' ->
      mstep (At s snap, l) (At s' (has_snapshot s snap), l ++ [entry s "ok"])
  | step_complete snap l : mstep (At CLEANUP snap, l) (Ended COMPLETED CLEANUP, l ++ [entry CLEANUP "ok"])
  | step_fail s snap l l' : l' = l \/ l' = l ++ [entry s "failed"] ->
      mstep (At s snap, l) (if snap then Back else Ended FAILED s, l')
  | step_restored l : mstep (Back, l) (Ended ROLLED_BACK ROLLBACK, l ++ [entry ROLLBACK "ok"])
  | step_stuck l : mstep (Back, l) (Ended FAILED ROLLBACK, l ++ [entry ROLLBACK "failed"]).

Definition start_phase : phase * log := (At PRECHECK false, []).

(** ** Where the registry stands *)

(** The row of the migration, and the rows of the others. *)
Definition migs (w : world) : list migration_row := migrations (w_db w).
Definition others (mid : string) (w : world) : list migration_row :=
  List.filter (fun r => negb (by_mg mid r)) (migs w).

Definition row_at (mid st stage : string) (w : world) : Prop :=
  exists r, get_migration mid (w_db w) = Some r /\ mg_status r = st /\ mg_stage r = Some stage.

Lemma quiet_migs {A} (m : W A) : quiet w_db m -> quiet migs m.
Proof. apply (quiet_weaken w_db migrations). Qed.

#[export] Hint Extern 6 (quiet migs _) => simple apply quiet_migs : quiet.

Section Rows.
Context `{Env} (mid : string).

Lemma others_update f (t : list migration_row) : (forall r, mg_id (f r) = mg_id r) ->
  List.filter (fun r => negb (by_mg mid r)) (tbl_update (by_mg mid) f t) = List.filter (fun r => negb (by_mg mid r)) t.
Proof.
  intros Hf. assert (forall r, by_mg mid (f r) = by_mg mid r) as Hb by (intros r; unfold by_mg; by rewrite Hf).
  unfold tbl_update. induction t as [|r t IH]; [done|]. cbn [map List.filter].
  destruct (by_mg mid r) eqn:E; rewrite ?Hb, E; cbn [negb]; [exact IH|by f_equal].
Qed.

(** An update of the row with a status the table takes. *)
Lemma mg_update_run st stage snap err comp w :
  match st with Some s => mg_status_ok s = true | None => True end ->
  exists w', mg_update mid st stage snap err comp w = (Ok tt, w')
    /\ w_db w' = set_migrations (tbl_update (by_mg mid) (set_migration st stage snap err comp) (migs w)) (w_db w)
    /\ get_migration mid (w_db w') = option_map (set_migration st stage snap err comp) (get_migration mid (w_db w))
    /\ others mid w' = others mid w.
Proof.
  intros Hst. unfold mg_update, reg, update_migration. rewrite gets_bind.
  assert ((existsb (by_mg mid) (migrations (w_db w)) && match st with Some s => negb (mg_status_ok s) | None => false end)
          = false) as ->.
  { destruct st as [s|]; [rewrite Hst; cbn|]; by rewrite andb_false_r. }
  eexists. split; [done|]. split; [done|]. split.
  - unfold get_migration, migs. cbn [w_db set_db migrations set_migrations]. rewrite tbl_first_update by done.
    destruct (tbl_first _ _) as [r|] eqn:Er; [|done]. apply tbl_first_Some in Er as [_ Er]. cbn. by rewrite Er.
  - unfold others, migs. cbn. by apply others_update.
Qed.

(** Ending the migration. *)
Lemma end_run st err stage snap w :
  mg_status_ok (status_value st) = true ->
  exists now w', (now ← _utc_now; mg_update mid (Some (status_value st)) stage snap err (Some now)) w = (Ok tt, w')
    /\ w_db w' = set_migrations (tbl_update (by_mg mid)
                   (set_migration (Some (status_value st)) stage snap err (Some now)) (migs w)) (w_db w)
    /\ get_migration mid (w_db w')
       = option_map (set_migration (Some (status_value st)) stage snap err (Some now)) (get_migration mid (w_db w))
    /\ others mid w' = others mid w.
Proof.
  intros Hst. rewrite utc_now_bind.
  match goal with |- context[mg_update _ _ _ _ _ (Some ?n) ?w1] =>
    destruct (mg_update_run (Some (status_value st)) stage snap err (Some n) w1 Hst) as (w' & E & D & G & O) end.
  eexists _, w'. split; [exact E|]. split; [exact D|]. by split.
Qed.
End Rows.

(** ** The bodies of the stages *)

Section Bodies.
Context `{Env, TarGz}.

Lemma migs_touch_drydock n fs : quiet migs (touch_drydock n fs).
Proof.
  apply quiet_bind; [quiet_step|]. intros now w. by destruct fs.
Qed.
Lemma migs_touch_state n st : quiet migs (touch_state n st).
Proof.
  apply quiet_bind; [quiet_step|]. intros now w. unfold reg, update_state. rewrite modify_bind, gets_bind.
  by destruct (get_drydock n _).
Qed.
Lemma migs_delegations now n a b c d e f g h : quiet migs (reg (update_desk_delegations now n a b c d e f g h)).
Proof. intros w. unfold reg, update_desk_delegations. cbv zeta. by destruct (_ ++ _). Qed.
Lemma migs_snapshot d mid : quiet migs (snapshot_drydock d mid).
Proof. apply quiet_migs, quiet_db, quiet_snapshot. Qed.
Lemma db_remove_files i l : quiet w_db (remove_files_of i l).
Proof. induction l as [|n l IH]; cbn [remove_files_of]; quiet_step. Qed.
Lemma db_restore dir : quiet w_db (restore_drydock dir).
Proof.
  pose proof db_remove_files.
  unfold restore_drydock, load_manifest, extract_snapshot, _safe_extract, restore_secrets, restore_overlay,
    rmtree_secrets, write_secret, copy2.
  quiet_step; apply quiet_copy_all; intros; quiet_step.
Qed.
Lemma migs_restore dir : quiet migs (restore_drydock dir).
Proof. apply quiet_migs, db_restore. Qed.
Lemma migs_load prj : quiet migs (load_project_config prj).
Proof. apply quiet_migs, quiet_db. unfold load_project_config. quiet_step. Qed.
End Bodies.

#[local] Hint Resolve migs_touch_drydock migs_touch_state migs_delegations migs_snapshot migs_restore migs_load : quiet.

Section Stages.
Context `{Env, TarGz}.

Lemma migs_resume ws : quiet migs (_resume_desk false ws).
Proof. unfold _resume_desk, resume_failed, start_container, up_or_error, row_of. quiet_step. Qed.

(** What a computation returns, when it returns. *)
Definition returns {A} (P : A -> Prop) (m : W A) : Prop := forall w a w', m w = (Ok a, w') -> P a.

Lemma returns_ret {A} (P : A -> Prop) a : P a -> returns P (mret a).
Proof. by intros Ha w b w' [= <- _]. Qed.
Lemma returns_throw {A} (P : A -> Prop) e : returns P (throw e).
Proof. by intros w a w' [=]. Qed.
Lemma returns_bind {A B} (P : B -> Prop) (m : W A) (k : A -> W B) : (forall a, returns P (k a)) -> returns P (m ≫= k).
Proof. intros Hk w b w' E. apply bind_inv in E as [(a & w1 & _ & E)|(e & _ & [=])]. by apply (Hk a w1 b w'). Qed.
Lemma returns_catch {A} (P : A -> Prop) m h : returns P m -> (forall e, returns P (h e)) -> returns P (catch m h).
Proof.
  intros Hm Hh w a w' E. unfold catch in E. destruct (m w) as [[b|e] w1] eqn:Em; [|by apply (Hh e w1 a w')].
  injection E as -> ->. by apply (Hm w a w').
Qed.

(** A body leaves the migrations alone, and its failures carry the stage's name. *)
Definition tagged (s : MigrationStage) (x : failure + obj) : Prop :=
  match x with inl f => fst f = s | inr _ => True end.

Record stage_body (s : MigrationStage) (fn : W (failure + obj)) : Prop := mkBody {
  body_quiet : quiet migs fn;
  body_tagged : returns (tagged s) fn
}.

Ltac tag_step :=
  repeat first
    [ match goal with
      | |- returns _ (mbind _ _) => apply returns_bind; intros ?
      | |- returns _ (catch _ _) => apply returns_catch; [|intros ?]
      | |- returns _ (throw _) => apply returns_throw
      | |- returns _ (fails _ _) => by apply returns_ret
      | |- returns _ (done_with _) => by apply returns_ret
      | |- returns _ (lift (attr_error _ _)) => by intros ? ? ? [=]
      end
    | progress cbv beta zeta
    | match goal with |- returns _ (match ?x with _ => _ end) => destruct x end ].

Lemma body_precheck d : stage_body PRECHECK (_do_precheck d).
Proof. unfold _do_precheck. split; [quiet_step|tag_step]. Qed.
Lemma body_drain : stage_body DRAIN _do_drain.
Proof. split; [done|]. unfold _do_drain. tag_step. Qed.
Lemma body_snapshot d mid : stage_body SNAPSHOT (_do_snapshot d mid).
Proof. unfold _do_snapshot. split; [quiet_step|tag_step]. Qed.
Lemma body_stop d : stage_body STOP (_do_stop d).
Proof. unfold _do_stop. split; [quiet_step|tag_step]. Qed.
Lemma body_mutate d plan : stage_body MUTATE (_do_mutate d plan).
Proof. unfold _do_mutate, _mutate_image_bump, _mutate_project_reload. split; [quiet_step|tag_step]. Qed.
Lemma body_start d : stage_body START (_do_start d).
Proof. pose proof migs_resume. unfold _do_start. split; [quiet_step|tag_step]. Qed.
Lemma body_verify d b : stage_body VERIFY (_do_verify d b).
Proof. unfold _do_verify. split; [quiet_step|tag_step]. Qed.
Lemma body_cleanup dir : stage_body CLEANUP (_do_cleanup dir).
Proof. split; [done|]. unfold _do_cleanup. tag_step. Qed.
End Stages.

(** ** One stage *)

Definition recs (o : MigrationOutcome) : log := map (fun s => (so_stage s, so_status s)) (mo_stages o).

(** What the stages leave alone in the outcome. *)
Definition frame (o : MigrationOutcome) : string * string * option obj * option string :=
  (mo_migration_id o, mo_drydock_id o, mo_error o, mo_snapshot_path o).

Lemma recs_add o so : recs (add_stage so o) = recs o ++ [(so_stage so, so_status so)].
Proof. unfold recs. cbn. by rewrite map_app. Qed.

Section Walk.
Context `{Env, TarGz} (mid : string).

Definition moving (s : MigrationStage) (w : world) : Prop := row_at mid "in_progress" (stage_value s) w.

Lemma row_at_same st stage w w' : migs w' = migs w -> row_at mid st stage w -> row_at mid st stage w'.
Proof. unfold row_at, get_migration, migs. by intros ->. Qed.
Lemma others_same w w' : migs w' = migs w -> others mid w' = others mid w.
Proof. unfold others. by intros ->. Qed.

(** Where the row of an ended migration stands, and that of one in any phase of the machine. *)
Definition ended (t : MigrationStatus) (s : MigrationStage) (w : world) : Prop :=
  exists r, get_migration mid (w_db w) = Some r /\ mg_status r = status_value t /\ mg_stage r = Some (stage_value s)
    /\ is_some (mg_completed_at r) = true.

Definition stands (ph : phase) (w : world) : Prop :=
  match ph with At s _ => moving s w | Back => moving ROLLBACK w | Ended t s => ended t s w end.

Lemma stands_same ph w w' : migs w' = migs w -> stands ph w -> stands ph w'.
Proof. unfold stands, moving, row_at, ended, get_migration, migs. by intros ->. Qed.

(** An event is recorded, or the audit log cannot be written; the migrations stay. *)
Lemma event_then {A} ev pr i m r d (k : json -> W A) w : existsb (String.eqb ev) V2_EVENTS = true ->
  exists w1, migs w1 = migs w
    /\ ((exists j, (emit_audit ev pr i m r d ≫= k) w = k j w1)
        \/ exists e, (emit_audit ev pr i m r d ≫= k) w = (Err e, w1) /\ audit_error e).
Proof.
  intros He. destruct (emit_audit_cases ev pr i m r d w He) as (x & w1 & E & V & _ & X). exists w1. split.
  { unfold migs. injection V as Vd _ _. by rewrite Vd. }
  destruct x as [j|e]; [left; exists j; by rewrite (bind_ok _ _ _ _ _ E)|].
  right. exists e. split; [by rewrite (bind_err _ _ _ _ _ E)|exact X].
Qed.

(** What the audit log's failure leaves: a state of the machine that the migration had got to. *)
Record aborted (x : phase * log) (w : world) (e : exn) (w' : world) : Prop := mkAborted {
  ab_audit : audit_error e;
  ab_others : others mid w' = others mid w;
  ab_stands : exists y, rtc mstep x y /\ stands (fst y) w'
}.

Lemma aborted_after x y w w1 e w' : rtc mstep x y -> others mid w1 = others mid w -> aborted y w1 e w' -> aborted x w e w'.
Proof. intros Hr Ho [A O (z & Hz & S)]. split; [exact A|congruence|]. exists z. split; [by etrans|exact S]. Qed.

Lemma stage_run s fn o w stage :
  stage_body s fn -> row_at mid "in_progress" stage w ->
  exists x w', _stage o mid s fn w = (x, w') /\ moving s w' /\ others mid w' = others mid w
    /\ match x with
       | Ok (o', r) => frame o' = frame o
           /\ match r with
              | inl f => fst f = s /\ (recs o' = recs o \/ recs o' = recs o ++ [entry s "failed"])
              | inr so => recs o' = recs o ++ [entry s "ok"] /\ exists w1 w2, fn w1 = (Ok (inr (so_detail so)), w2)
              end
       | Err e => audit_error e
       end.
Proof.
  intros [Hq Ht] (r0 & G0 & S0 & _). unfold _stage, stage_event.
  destruct (mg_update_run mid None (Some (stage_value s)) None None None w I) as (w1 & E1 & _ & G1 & O1).
  rewrite (bind_ok _ _ _ _ _ E1). rewrite G0 in G1.
  assert (moving s w1) as M1 by (eexists; split; [exact G1|by split]).
  assert (forall w', migs w' = migs w1 -> moving s w' /\ others mid w' = others mid w) as Hsame.
  { intros w' V. split; [by apply (row_at_same _ _ w1)|by rewrite (others_same w1)]. }
  specialize (Hq w1). destruct (fn w1) as [r w2] eqn:Ef; cbn [snd] in Hq.
  assert (exists y, (catch (x ← fn; mret (inr x)) (fun e => mret (inl e))) w1 = (Ok y, w2)
            /\ y = match r with Ok x => inr x | Err e => inl e end) as (y & Ec & ->).
  { unfold catch. destruct r as [x|e]; [rewrite (bind_ok _ _ _ _ _ Ef)|rewrite (bind_err _ _ _ _ _ Ef)]; by eexists. }
  rewrite (bind_ok _ _ _ _ _ Ec). destruct r as [[f|d]|e].
  - eexists _, w2. split; [done|]. destruct (Hsame w2 Hq) as [M O]. split; [exact M|]. split; [exact O|].
    split; [done|]. split; [by apply (Ht _ _ _ Ef)|by left].
  - match goal with |- context[emit_audit ?ev ?pr ?i ?m ?r ?d ≫= ?k] =>
      destruct (event_then ev pr i m r d k w2 eq_refl) as (w3 & V & [(j & E)|(e & E & X)]) end;
      rewrite Hq in V; destruct (Hsame w3 V) as [M O]; eexists _, w3; (split; [exact E|]); (do 2 (split; [done|])); [|done].
    split; [done|]. rewrite recs_add. split; [done|]. by exists w1, w2.
  - match goal with |- context[emit_audit ?ev ?pr ?i ?m ?r ?d ≫= ?k] =>
      destruct (event_then ev pr i m r d k w2 eq_refl) as (w3 & V & [(j & E)|(e' & E & X)]) end;
      rewrite Hq in V; destruct (Hsame w3 V) as [M O]; eexists _, w3; (split; [exact E|]); (do 2 (split; [done|])); [|done].
    split; [done|]. rewrite recs_add. split; [done|]. by right.
Qed.

(** ** The way forward *)

(** A walk from the state [(ph, l)] of the machine. *)
Record walked (ph : phase) (o : MigrationOutcome) (w : world) (wk : walk) (w' : world) : Prop := mkWalked {
  wd_others : others mid w' = others mid w;
  wd_ids : fst (frame (wk_outcome wk)) = fst (frame o);
  wd_path : mo_snapshot_path (wk_outcome wk) = wk_snapshot wk;
  wd_run : match wk_failure wk with
           | None => rtc mstep (ph, recs o) (Ended COMPLETED CLEANUP, recs (wk_outcome wk)) /\ moving CLEANUP w'
           | Some f => exists l, rtc mstep (ph, recs o) (At (fst f) (is_some (wk_snapshot wk)), l)
                         /\ (recs (wk_outcome wk) = l \/ recs (wk_outcome wk) = l ++ [entry (fst f) "failed"])
                         /\ moving (fst f) w'
           end
}.

Definition walks (ph : phase) (o : MigrationOutcome) (w : world) (m : W walk) : Prop :=
  exists r w', m w = (r, w')
    /\ match r with Ok wk => walked ph o w wk w' | Err e => aborted (ph, recs o) w e w' end.

Lemma walks_after ph o w ph' o' w1 m : rtc mstep (ph, recs o) (ph', recs o') -> others mid w1 = others mid w ->
  fst (frame o') = fst (frame o) -> walks ph' o' w1 m -> exists r w', m w1 = (r, w')
    /\ match r with Ok wk => walked ph o w wk w' | Err e => aborted (ph, recs o) w e w' end.
Proof.
  intros Hr Ho Hf (r & w' & E & C). exists r, w'. split; [exact E|]. destruct r as [wk|e]; [|by eapply aborted_after].
  destruct C as [O I P Q]. split; [congruence|congruence|done|].
  destruct (wk_failure wk) as [f|].
  - destruct Q as (l & Hl & Q). exists l. split; [by etrans|done].
  - destruct Q as [Hl Hm]. split; [by etrans|done].
Qed.

Lemma then_run s snap ph fn k o w stage :
  stage_body s fn -> row_at mid "in_progress" stage w -> mo_snapshot_path o = snap ->
  (forall l, mstep (At s (is_some snap), l) (ph, l ++ [entry s "ok"])) ->
  (forall o' so w1, frame o' = frame o -> moving s w1 -> (exists w2 w3, fn w2 = (Ok (inr (so_detail so)), w3)) ->
     walks ph o' w1 (k o' so)) ->
  walks (At s (is_some snap)) o w (then_stage snap (_stage o mid s fn) k).
Proof.
  intros Hb Hr Hs Hph Hk. destruct (stage_run s fn o w stage Hb Hr) as (x & w1 & E & M & O & R).
  unfold walks, then_stage. destruct x as [[o' r]|e].
  2:{ rewrite (bind_err _ _ _ _ _ E). eexists _, w1. split; [done|]. split; [done|exact O|]. eexists. by split; [constructor|]. }
  rewrite (bind_ok _ _ _ _ _ E). destruct R as [F R]. pose proof F as F'. injection F' as F1 F2 F3 F4. destruct r as [f|so].
  - destruct R as [<- R]. eexists _, w1. split; [done|]. split; [done|cbn; congruence|cbn; congruence|].
    cbn. exists (recs o). split; [constructor|]. by split.
  - destruct R as [R D]. eapply walks_after; [|exact O|by rewrite F|exact (Hk o' so w1 F M D)].
    rewrite R. eapply rtc_l; [apply Hph|constructor].
Qed.
End Walk.

Lemma join_nonempty a b : is_empty (a // b) = false.
Proof.
  assert (forall r l, is_empty (path_render r l) = false) as Hr
    by (intros r l; unfold path_render; cbv zeta; by case_match).
  unfold path_join, path_str. destruct (_ || _); [apply Hr|]. destruct (endswith _ _); apply Hr.
Qed.

Section Snapshots.
Context `{Env, TarGz}.

Lemma returns_post {A B} (Q : A -> Prop) (P : B -> Prop) (m : W A) (k : A -> W B) :
  returns Q m -> (forall a, Q a -> returns P (k a)) -> returns P (m ≫= k).
Proof.
  intros Hm Hk w b w' E. apply bind_inv in E as [(a & w1 & Ea & E)|(e & _ & [=])]. by apply (Hk a (Hm _ _ _ Ea) w1 b w').
Qed.

Lemma snapshot_dir d mid : returns (fun x => fst x = DEFAULT_MIGRATIONS_ROOT // mid) (snapshot_drydock d mid).
Proof.
  unfold snapshot_drydock. cbv zeta. repeat first [apply returns_bind; intros ?|match goal with |- returns _ (match ?x with _ => _ end) => destruct x end].
  by apply returns_ret.
Qed.

Definition dir_recorded (x : failure + obj) : Prop :=
  match x with inl _ => True | inr dt => exists p, detail_text "snapshot_dir" dt = Some p end.

Lemma do_snapshot_dir d mid : returns dir_recorded (_do_snapshot d mid).
Proof.
  unfold _do_snapshot. apply returns_catch.
  - apply (returns_post (fun x => fst x = DEFAULT_MIGRATIONS_ROOT // mid)); [apply snapshot_dir|]. intros [dir m] Hd.
    cbn in Hd. apply returns_ret. exists dir. unfold detail_text, jget. cbn.
    by rewrite Hd, join_nonempty.
  - intros e. destruct (is_snapshot_error e); [by apply returns_ret|apply returns_throw].
Qed.

Context (mid : string).

Lemma after_walks d plan dir o w :
  moving mid SNAPSHOT w -> mo_snapshot_path o = Some dir ->
  walks mid (At STOP true) o w (after_snapshot d plan mid (Some dir) o).
Proof.
  intros Hm Hp. unfold after_snapshot. change (At STOP true) with (At STOP (is_some (Some dir))).
  assert (forall o', frame o' = frame o -> mo_snapshot_path o' = Some dir) as Hpath by (intros o' [= _ _ _ ->]; done).
  eapply then_run; [apply body_stop|exact Hm|done|intros l; by apply (step_next STOP MUTATE)|].
  intros o1 so1 w1 F1 M1 _. cbn [has_snapshot].
  eapply then_run; [apply body_mutate|exact M1|by apply Hpath|intros l; by apply (step_next MUTATE START)|].
  intros o2 so2 w2 F2 M2 _. rewrite F1 in F2.
  eapply then_run; [apply body_start|exact M2|by apply Hpath|intros l; by apply (step_next START VERIFY)|].
  intros o3 so3 w3 F3 M3 _. rewrite F2 in F3.
  eapply then_run; [apply body_verify|exact M3|by apply Hpath|intros l; by apply (step_next VERIFY CLEANUP)|].
  intros o4 so4 w4 F4 M4 _. rewrite F3 in F4.
  eapply then_run; [apply body_cleanup|exact M4|by apply Hpath|intros l; apply step_complete|].
  intros o5 so5 w5 F5 M5 _. rewrite F4 in F5.
  exists (Ok (mkWalk o5 (Some dir) None)), w5. split; [done|]. split; [done|done|by apply Hpath|]. by split; [constructor|].
Qed.

Lemma forward_walks d plan o w stage :
  row_at mid "in_progress" stage w -> mo_snapshot_path o = None ->
  walks mid (At PRECHECK false) o w (forward d plan mid o).
Proof.
  intros Hr Hp. unfold forward. change (At PRECHECK false) with (At PRECHECK (is_some (@None string))).
  eapply then_run; [apply body_precheck|exact Hr|done|intros l; by apply (step_next PRECHECK DRAIN)|].
  intros o1 so1 w1 F1 M1 _. cbn [has_snapshot].
  assert (mo_snapshot_path o1 = None) as P1 by (injection F1; congruence).
  eapply then_run; [apply body_drain|exact M1|done|intros l; by apply (step_next DRAIN SNAPSHOT)|].
  intros o2 so2 w2 F2 M2 _. assert (mo_snapshot_path o2 = None) as P2 by (injection F2; congruence).
  eapply then_run; [apply body_snapshot|exact M2|done|intros l; by apply (step_next SNAPSHOT STOP)|].
  intros o3 so3 w3 F3 M3 (wa & wb & Eb). destruct (do_snapshot_dir _ _ _ _ _ Eb) as (dir & Ed). cbv beta zeta. rewrite Ed.
  unfold record_snapshot. destruct M3 as (r3 & G3 & S3 & T3).
  destruct (mg_update_run mid None None (Some dir) None None w3 I) as (w4 & E4 & _ & G4 & O4). rewrite G3 in G4.
  unfold walks at 1. rewrite bind_bind, (bind_ok _ _ _ _ _ E4), ret_bind.
  assert (moving mid SNAPSHOT w4) as M4 by (eexists; split; [exact G4|by split]).
  eapply (walks_after mid (At STOP true) o3); [|exact O4| |by apply (after_walks d plan dir (set_snapshot_path dir o3))]; [constructor|done].
Qed.
End Snapshots.

(** ** The end *)

Section Ends.
Context `{Env, TarGz} (mid : string).

Lemma end_at t s stage' snap err w :
  mg_status_ok (status_value t) = true -> moving mid s w -> (stage' = None \/ stage' = Some (stage_value s)) ->
  exists w', (now ← _utc_now; mg_update mid (Some (status_value t)) stage' snap err (Some now)) w = (Ok tt, w')
    /\ ended mid t s w' /\ others mid w' = others mid w.
Proof.
  intros Ht (r & G & S & T) Hs. destruct (end_run mid t err stage' snap w Ht) as (now & w' & E & _ & G' & O).
  exists w'. split; [exact E|]. split; [|exact O]. rewrite G in G'. eexists. split; [exact G'|]. split; [done|].
  split; [|done]. by destruct Hs as [-> | ->].
Qed.

(** An outcome and a world that the machine's end describes, from the state [x]; or what the audit
    log's failure leaves. *)
Definition closed (x : phase * log) (w : world) (r : res exn MigrationOutcome) (w' : world) : Prop :=
  match r with
  | Ok o => exists t s, rtc mstep x (Ended t s, recs o) /\ mo_terminal_status o = status_value t
      /\ ended mid t s w' /\ others mid w' = others mid w /\ (mo_error o = None <-> t = COMPLETED)
  | Err e => aborted mid x w e w'
  end.

Definition closes (x : phase * log) (w : world) (m : W MigrationOutcome) : Prop :=
  exists r w', m w = (r, w') /\ closed x w r w'.

(** The event that follows the end of the row. *)
Lemma closes_event x w w1 o t s ev pr m r d :
  rtc mstep x (Ended t s, recs o) -> mo_terminal_status o = status_value t -> (mo_error o = None <-> t = COMPLETED) ->
  ended mid t s w1 -> others mid w1 = others mid w -> existsb (String.eqb ev) V2_EVENTS = true ->
  exists r0 w', (_ ← emit_audit ev pr (JStr mid) m r d; mret o) w1 = (r0, w') /\ closed x w r0 w'.
Proof.
  intros Hr Ht He Hd Ho Hev.
  destruct (event_then ev pr (JStr mid) m r d (fun _ => mret o) w1 Hev) as (w2 & V & [(j & E)|(e & E & X)]);
    exists (match (_ ← emit_audit ev pr (JStr mid) m r d; mret o) w1 with (a, _) => a end), w2; rewrite E; (split; [done|]).
  - exists t, s. split; [exact Hr|]. split; [exact Ht|]. split; [by apply (stands_same mid (Ended t s) w1)|].
    split; [by rewrite (others_same mid w1)|exact He].
  - split; [exact X|by rewrite (others_same mid w1)|]. exists (Ended t s, recs o). split; [exact Hr|].
    by apply (stands_same mid (Ended t s) w1).
Qed.

Lemma succeed_closes o w : moving mid CLEANUP w -> mo_error o = None ->
  closes (Ended COMPLETED CLEANUP, recs o) w (succeed o mid).
Proof.
  intros Hm He. unfold succeed. cbv zeta. destruct (end_at COMPLETED CLEANUP (Some "cleanup") None None w eq_refl Hm) as (w1 & E1 & D1 & O1);
    [by right|].
  unfold closes. rewrite <- bind_bind, (bind_ok _ _ _ _ _ E1). by apply (closes_event _ _ _ _ COMPLETED CLEANUP); try done; constructor.
Qed.

Lemma fail_closes s l o err w : moving mid s w -> l = recs o \/ recs o = l ++ [entry s "failed"] ->
  closes (At s false, l) w
    (_ ← end_migration mid FAILED (Some err); _ ← failed_event (set_terminal FAILED (set_error err o)) mid err;
     mret (set_terminal FAILED (set_error err o))).
Proof.
  intros Hm Hl. unfold end_migration, failed_event.
  destruct (end_at FAILED s None None (Some (JObj err)) w eq_refl Hm) as (w1 & E1 & D1 & O1); [by left|].
  unfold closes. change (option_map JObj (Some err)) with (Some (JObj err)). rewrite (bind_ok _ _ _ _ _ E1).
  apply (closes_event _ _ _ _ FAILED s); try done.
  eapply rtc_l; [|constructor]. apply (step_fail s false). cbn. destruct Hl as [Hl|Hl]; [by left|by right].
Qed.

Lemma rollback_closes o d dir w s :
  moving mid s w -> mo_error o <> None -> closes (Back, recs o) w (_rollback o mid d dir).
Proof.
  intros (r0 & G0 & S0 & _) He. unfold _rollback.
  destruct (mg_update_run mid None (Some (stage_value ROLLBACK)) None None None w I) as (w1 & E1 & _ & G1 & O1).
  unfold closes. rewrite (bind_ok _ _ _ _ _ E1). rewrite G0 in G1.
  assert (moving mid ROLLBACK w1) as M1 by (eexists; split; [exact G1|by split]).
  match goal with |- context[catch ?m ?h ≫= _] => set (body := m); set (hd := h) end.
  assert (quiet migs (catch body hd)) as Hq by (subst body hd; unfold restore_image; quiet_step).
  assert (exists x w2, catch body hd w1 = (Ok x, w2)) as (x & w2 & E2).
  { subst hd. unfold catch. destruct (body w1) as [[x|e] w2]; by eexists _, w2. }
  rewrite (bind_ok _ _ _ _ _ E2). specialize (Hq w1). rewrite E2 in Hq. cbn in Hq.
  apply (row_at_same mid _ _ _ _ Hq) in M1.
  assert (others mid w2 = others mid w) as O2 by (by rewrite (others_same mid _ _ Hq)).
  destruct x as [e|]; cbv zeta; unfold end_migration, failed_event.
  - set (err := jmerge _ _). destruct (end_at FAILED ROLLBACK None None (Some (JObj err)) w2 eq_refl M1) as (w3 & E3 & D3 & O3); [by left|].
    change (option_map JObj (Some err)) with (Some (JObj err)). rewrite (bind_ok _ _ _ _ _ E3).
    apply (closes_event _ _ _ _ FAILED ROLLBACK); try done; [|congruence].
    rewrite recs_add. eapply rtc_l; [|constructor]. apply step_stuck.
  - destruct (end_at ROLLED_BACK ROLLBACK None None (option_map JObj (mo_error o)) w2 eq_refl M1) as (w3 & E3 & D3 & O3); [by left|].
    cbn [mo_error set_terminal add_stage]. rewrite (bind_ok _ _ _ _ _ E3).
    apply (closes_event _ _ _ _ ROLLED_BACK ROLLBACK); try done; [|congruence].
    assert (forall t o', recs (set_terminal t o') = recs o') as -> by done.
    rewrite recs_add. eapply rtc_l; [|constructor]. apply step_restored.
Qed.
End Ends.

(** ** What the machine's log says *)

Definition forward_stages : list MigrationStage := [PRECHECK; DRAIN; SNAPSHOT; STOP; MUTATE; START; VERIFY; CLEANUP].

(** The stages before one. *)
Fixpoint until (s : MigrationStage) (l : list MigrationStage) : list MigrationStage :=
  match l with
  | [] => []
  | x :: l' => if decide (x = s) then [] else x :: until s l'
  end.

Definition oks (l : list MigrationStage) : log := map (fun s => entry s "ok") l.

(** The log of a migration that failed in [s]: every stage before it, and [s] itself if its body
    raised something unforeseen. *)
Definition failed_in (s : MigrationStage) (l : log) : Prop :=
  l = oks (until s forward_stages) \/ l = oks (until s forward_stages) ++ [entry s "failed"].

Definition early (s : MigrationStage) : Prop := In s [PRECHECK; DRAIN; SNAPSHOT].
Definition late (s : MigrationStage) : Prop := In s [STOP; MUTATE; START; VERIFY; CLEANUP].

Definition log_fits (x : phase * log) : Prop :=
  match fst x with
  | At s snap => snd x = oks (until s forward_stages) /\ (early s /\ snap = false \/ late s /\ snap = true)
  | Back => exists s, late s /\ failed_in s (snd x)
  | Ended COMPLETED _ => snd x = oks forward_stages
  | Ended ROLLED_BACK _ => exists s l, late s /\ failed_in s l /\ snd x = l ++ [entry ROLLBACK "ok"]
  | Ended _ _ => exists s l, failed_in s l
                   /\ (early s /\ snd x = l \/ late s /\ snd x = l ++ [entry ROLLBACK "failed"])
  end.

Lemma mstep_fits x y : mstep x y -> log_fits x -> log_fits y.
Proof.
  intros [s s' snap l Hn|snap l|s snap l l' Hl|l|l]; unfold log_fits; cbn [fst snd].
  - intros [-> Hs].
    destruct s; try discriminate Hn; injection Hn as <-; (split; [done|]); destruct Hs as [[[?|[?|[?|[]]]] ->]|[[?|[?|[?|[?|[?|[]]]]]] ->]];
      try discriminate; cbn; unfold early, late; cbn; tauto.
  - by intros [-> _].
  - intros [-> [[Hs ->]|[Hs ->]]]; cbn [log_fits fst snd].
    + exists s, l'. split; [destruct Hl as [-> | ->]; [by left|by right]|by left].
    + exists s. split; [done|]. destruct Hl as [-> | ->]; [by left|by right].
  - intros (s & Hs & Hf). by exists s, l.
  - intros (s & Hs & Hf). exists s, l. split; [done|by right].
Qed.

Lemma machine_fits x : rtc mstep start_phase x -> log_fits x.
Proof.
  assert (log_fits start_phase) as Hs by (cbn; split; [done|left; split; [by left|done]]). revert Hs. generalize start_phase.
  intros y Hs Hr. induction Hr as [y|y z x Hy Hr IH]; [done|]. by apply IH, (mstep_fits y).
Qed.

(** The machine never ends where it began. *)
Lemma ended_status x t s l : rtc mstep x (Ended t s, l) -> t = PLANNED \/ t = IN_PROGRESS -> x = (Ended t s, l).
Proof.
  intros R Ht. remember (Ended t s, l) as y eqn:Ey. revert Ey.
  induction R as [y|x z y Hx R IH]; intros Ey; [done|]. subst y. rewrite (IH eq_refl) in Hx. exfalso.
  clear R IH.
  destruct Ht as [-> | ->]; inversion Hx; subst; destruct snap; congruence.
Qed.

(** ** The executor *)

Section Execution.
Context `{Env, TarGz}.

Lemma closes_after mid x y w w1 m : rtc mstep x y -> others mid w1 = others mid w -> closes mid y w1 m ->
  exists r w', m w1 = (r, w') /\ closed mid x w r w'.
Proof.
  intros Hr Ho (r & w' & E & C). exists r, w'. split; [exact E|]. destruct r as [o|e]; [|by eapply aborted_after].
  destruct C as (t & s & R & T & D & O & X). exists t, s. split; [by etrans|]. split; [done|]. split; [done|].
  split; [congruence|done].
Qed.

Lemma finish_closes mid ph o w wk w1 d :
  walked mid ph o w wk w1 -> mo_error o = None ->
  exists r w', finish_walk wk mid d w1 = (r, w') /\ closed mid (ph, recs o) w r w'.
Proof.
  intros [O I P R] He. unfold finish_walk. destruct (wk_failure wk) as [f|].
  - destruct R as (l & Hl & Hr & Hm). unfold fail_or_rollback. cbv zeta. set (err := jmerge _ _).
    destruct (wk_snapshot wk) as [dir|].
    + apply (closes_after mid _ (Back, recs (set_error err (wk_outcome wk)))); [|exact O|by eapply rollback_closes].
      eapply rtc_r; [exact Hl|]. apply (step_fail (fst f) true). exact Hr.
    + eapply closes_after; [exact Hl|exact O|]. apply fail_closes; [done|]. destruct Hr as [Hr|Hr]; [by left|by right].
  - destruct R as [Hl Hm]. eapply closes_after; [exact Hl|exact O|]. apply succeed_closes; [done|].
    injection I as _ _ Ie. congruence.
Qed.

(** A migration that the executor takes: planned, with a plan that names a desk of the registry. *)
Record executable (mid : string) (d : Drydock) (w : world) : Prop := mkExecutable {
  ex_row : exists r i plan, get_migration mid (w_db w) = Some r /\ mg_status r = "planned" /\ mg_plan r = JObj plan
             /\ assoc "drydock_id" plan = Some (JStr i) /\ _drydock_by_id i (w_db w) = Some d
}.

Lemma execute_closes mid d w : executable mid d w ->
  exists r w', execute_migration mid w = (r, w') /\ closed mid start_phase w r w'.
Proof.
  intros [(r & i & plan & G & S & P & A & D)]. unfold execute_migration. rewrite reg_gets_bind, G, S.
  change (negb ("planned" =s "planned")) with false. cbv iota. rewrite P. unfold item. rewrite A, lift_bind. cbv beta iota.
  rewrite reg_gets_bind, D.
  unfold run_planned.
  destruct (mg_update_run mid (Some (status_value IN_PROGRESS)) (Some (stage_value PRECHECK)) None None None w eq_refl)
    as (w1 & E1 & _ & G1 & O1). rewrite G in G1. rewrite (bind_ok _ _ _ _ _ E1).
  assert (moving mid PRECHECK w1) as M1 by (eexists; split; [exact G1|by split]).
  match goal with |- context[emit_audit ?ev ?pr ?i ?m ?r ?d ≫= ?k] =>
    destruct (event_then ev pr i m r d k w1 eq_refl) as (w2 & V2 & [(j & E2)|(e & E2 & X2)]) end; rewrite E2; clear E2.
  2:{ eexists _, w2. split; [done|]. split; [exact X2|by rewrite (others_same mid w1)|].
      exists start_phase. split; [constructor|]. by apply (stands_same mid (At PRECHECK false) w1). }
  apply (row_at_same mid _ _ _ _ V2) in M1. apply (others_same mid) in V2. rewrite O1 in V2.
  set (o0 := mkOutcome mid (id d) (status_value IN_PROGRESS) [] None None).
  destruct (forward_walks mid d plan o0 w2 _ M1 eq_refl) as ([wk|e] & w3 & E3 & W3).
  - rewrite (bind_ok _ _ _ _ _ E3). destruct W3 as [O3 I3 P3 R3].
    apply (finish_closes mid _ o0); [|done]. split; [congruence|done|done|exact R3].
  - rewrite (bind_err _ _ _ _ _ E3). eexists _, w3. split; [done|].
    eapply aborted_after; [constructor|exact V2|exact W3].
Qed.

(** C7: The executor refines the abstract machine. Executing a planned migration whose plan names a
    desk of the registry, whatever docker, git, the files and the desk's
    configuration answer, takes the migration from the machine's start to a state in which the registry's row of the
    migration then stands, and leaves the rows of all other migrations as they were. If every
    event could be written to the audit log, an outcome is returned and that state is an end of
    the machine: the recorded stages and the terminal status are those of the complete run, and the row
    has that status, the last stage and a completion time. Otherwise the
    executor raises what the append raised and does no more: the row is in progress at the stage that
    was being recorded, or has ended if it was the last event. *)
Theorem execution_follows_machine mid d w : executable mid d w ->
  exists r w' ph l, execute_migration mid w = (r, w') /\ rtc mstep start_phase (ph, l)
    /\ match ph with
       | Ended t s => exists m, get_migration mid (w_db w') = Some m /\ mg_status m = status_value t
                        /\ mg_stage m = Some (stage_value s) /\ is_some (mg_completed_at m) = true
       | At s _ => row_at mid "in_progress" (stage_value s) w'
       | Back => row_at mid "in_progress" "rollback" w'
       end
    /\ others mid w' = others mid w
    /\ match r with
       | Ok o => l = recs o /\ exists t s, ph = Ended t s /\ mo_terminal_status o = status_value t
       | Err e => audit_error e
       end.
Proof.
  intros Hx. destruct (execute_closes mid d w Hx) as (r & w' & E & C). exists r, w'. destruct r as [o|e].
  - destruct C as (t & s & R & T & D & O & _). exists (Ended t s), (recs o). split; [exact E|]. split; [exact R|]. split; [exact D|].
    split; [exact O|]. split; [done|]. by exists t, s.
  - destruct C as [A O ([ph l] & R & S)]. exists ph, l. split; [exact E|]. split; [exact R|]. split; [by destruct ph|by split].
Qed.

End Execution.

(** ** From the command to the executor *)

Section Command.
Context `{Env, TarGz} (hostname : string) (disk_free : option Z) (daemon_answers : bool).

Lemma parse_target_named spec i : _parse_target spec = Ok (ImageBumpTarget i) -> i <> "".
Proof.
  unfold _parse_target. cbv zeta. destruct (_ =s "reload"); [done|]. destruct (startswith _ "image=").
  - generalize (strip (sdrop 6 (strip spec))). intros s. destruct (is_empty s) eqn:E; [done|]. intros [= <-] Es. by rewrite Es in E.
  - destruct (startswith _ "schema="); [destruct (int_of_str _)|]; done.
Qed.

Lemma changes_differ d i cs : planned_changes d (ImageBumpTarget i) = Ok cs -> i <> "" -> image d <> i.
Proof.
  unfold planned_changes. cbv zeta. destruct (is_empty (image d)) eqn:E.
  - intros _ Hi Ei. rewrite Ei in E. by destruct i.
  - by destruct (String.eqb_spec (image d) i).
Qed.

Lemma plan_migration_inv d t h ls w p w' : plan_migration d t h ls w = (Ok p, w') ->
  w_db w' = w_db w /\ (exists cs, planned_changes d t = Ok cs)
  /\ pl_drydock_id p = id d /\ pl_target_kind p = target_kind t.
Proof.
  unfold plan_migration. destruct (planned_changes d t) as [[cs dn]|e]; rewrite lift_bind; [|by intros [=]].
  intros E. apply bind_inv in E as [(i & w1 & E1 & E)|(e & _ & [=])]. apply bind_inv in E as [(now & w2 & E2 & E)|(e & _ & [=])].
  injection E as <- <-. split; [|split; [by eexists|done]].
  assert (quiet w_db new_migration_id) as Hq by (unfold new_migration_id; quiet_step).
  by rewrite (quiet_db_eq _ _ _ _ (quiet_db _ (quiet_state _ quiet_now_text)) E2), (quiet_db_eq _ _ _ _ Hq E1).
Qed.

Lemma insert_inv now i dk pl st d u d' : insert_migration now i dk pl st d = (Ok u, d') ->
  d' = set_migrations (migrations d ++ [mkMigration i dk pl st None None now None None]) d
  /\ existsb (by_mg i) (migrations d) = false.
Proof.
  unfold insert_migration. rewrite gets_bind. destruct (existsb _ _) eqn:E; cbn [orb]; [by intros [=]|].
  destruct (mg_status_ok st); [|by intros [=]]. cbn [negb]. rewrite modify_eq. by intros [= _ <-].
Qed.

(** What the command plans, the executor can run: a plan it records names a desk that is
    registered, has no other migration in progress and, for an image bump, does not have that image already;
    its row is planned under the plan's id, so the executor takes it; and planning itself changes
    no desk. *)
Theorem planned_migrations_run n spec dry_run w p pc w' :
  List.NoDup (row_ids (w_db w)) ->
  plan_command hostname disk_free daemon_answers n spec dry_run w = (Ok (p, pc), w') ->
  exists d t, get_drydock n (w_db w) = Some d /\ _parse_target spec = Ok t
    /\ executable (pl_migration_id p) d w'
    /\ list_active_migrations (Some (id d)) (w_db w') = []
    /\ drydocks (w_db w') = drydocks (w_db w)
    /\ (forall i, t = ImageBumpTarget i -> image d <> i).
Proof.
  intros Hnd. unfold plan_command. rewrite reg_gets_bind. destruct (get_drydock n (w_db w)) as [d|] eqn:Ed; [|by intros [=]].
  destruct (_parse_target spec) as [t|e] eqn:Et; rewrite lift_bind; [|by intros [=]]. rewrite reg_gets_bind.
  destruct (list_active_migrations (Some (id d)) (w_db w)) as [|m0 l0] eqn:El; [|by intros [=]]. rewrite reg_gets_bind.
  intros E. apply bind_inv in E as [(p1 & w1 & E1 & E)|(e & _ & [=])].
  unfold catch in E1. destruct (plan_migration _ _ _ _ w) as [[p0|[]] w0] eqn:Ep; try discriminate E1.
  injection E1 as -> ->. apply plan_migration_inv in Ep as (D1 & (cs & Ecs) & Pi & _).
  apply bind_inv in E as [(pr & w2 & E2 & E)|(e & _ & [=])].
  assert (w_db w2 = w_db w1) as D2.
  { refine (quiet_db_eq _ _ _ _ _ E2). destruct t; [destruct dry_run|..]; unfold probe_target_image_present; quiet_step. }
  cbv zeta in E. apply bind_inv in E as [(now & w3 & E3 & E)|(e & _ & [=])].
  assert (w_db w3 = w_db w2) as D3 by (refine (quiet_db_eq _ _ _ _ _ E3); quiet_step).
  apply bind_inv in E as [(u & w4 & E4 & E)|(e & _ & [=])]. injection E as <- _ <-.
  unfold reg in E4. destruct (insert_migration _ _ _ _ _ (w_db w3)) as [r4 d4] eqn:Ei. injection E4 as -> <-.
  apply insert_inv in Ei as [-> Hfresh].
  assert (w_db w3 = w_db w) as D by congruence. rewrite D in *. cbn [w_db set_db].
  exists d, t. split; [done|]. split; [done|]. split; [|split; [|split; [done|]]].
  - split. eexists _, (id d), _. unfold get_migration. cbn [w_db set_db migrations set_migrations]. rewrite tbl_first_app.
    rewrite (proj2 (tbl_first_None _ _) (tbl_fresh _ _ Hfresh)). unfold tbl_first; cbn [List.find]. unfold by_mg at 1. cbn [mg_id].
    rewrite String.eqb_refl. split; [done|]. split; [done|]. split; [done|]. split; [cbn; by rewrite Pi|].
    apply get_drydock_In in Ed as [(r & <- & Hr)%in_map_iff _]. unfold _drydock_by_id. cbn [w_db set_db drydocks set_migrations].
    rewrite (tbl_first_unique (fun r => id (dr_dock r)) _ _ r Hnd); [done| |done|unfold by_id; by apply String.eqb_eq].
    intros x y Hx Hy. unfold by_id in Hx, Hy. apply String.eqb_eq in Hx, Hy. congruence.
  - unfold list_active_migrations in *. cbn [migrations set_migrations]. unfold tbl_select in *. rewrite filter_app. cbn [List.filter mg_status].
    by rewrite app_nil_r.
  - intros i ->. eapply changes_differ; [exact Ecs|]. by eapply parse_target_named.
Qed.
End Command.

(** ** A migration of a stopped desk *)

Definition migrating_plan (kind : string) (target : obj) : obj :=
  [("drydock_id", JStr "dock_a"); ("target_kind", JStr kind); ("target_summary", JObj target)].

Definition planned_row (kind : string) (target : obj) : migration_row :=
  mkMigration "mig_1" "dock_a" (JObj (migrating_plan kind target)) "planned" None None "t" None None.

Definition migration_world (kind : string) (target : obj) : world :=
  set_db (set_migrations [planned_row kind target] (w_db snap_world)) snap_world.

Lemma migration_executable kind target : executable "mig_1" snap_desk (migration_world kind target).
Proof. split. exists (planned_row kind target), "dock_a", (migrating_plan kind target). by split_and!. Qed.

Definition migration_run (kind : string) (target : obj) : res exn MigrationOutcome * world :=
  execute_migration (H := demo_env) (H0 := demo_tar) "mig_1" (migration_world kind target).

Definition run_summary (x : res exn MigrationOutcome * world) : option (string * list (string * string) * list (string * string * string)) :=
  match fst x with
  | Ok o => Some (mo_terminal_status o, recs o,
              map (fun r => (image (dr_dock r), state (dr_dock r), container_id (dr_dock r))) (drydocks (w_db (snd x))))
  | Err _ => None
  end.

(** An image bump goes through every stage; a schema migration fails in MUTATE, and where the manifest
    does not read back the rollback fails too. *)
Example bump_completes :
  run_summary (migration_run "image_bump" [("new_image", JStr "img:2")])
  = Some ("completed", oks forward_stages, [("img:2", "running", "c1")]).
Proof. vm_compute. reflexivity. Qed.
Example schema_fails :
  run_summary (migration_run "schema_migration" [])
  = Some ("failed", oks [PRECHECK; DRAIN; SNAPSHOT; STOP] ++ [entry ROLLBACK "failed"], [("img:1", "running", "c1")]).
Proof. vm_compute. reflexivity. Qed.

(** An audit log that takes the first two events of a migration only: the migration stops in its second
    stage, and its row says that it is still in progress. *)
Definition unwritable_log (k : nat) (n : nat) : option (bool * string) :=
  if (k <=? n)%nat then Some (false, "No space left on device") else None.

Definition full_disk_env : Env :=
  match demo_env with
  | Build_Env c ck uh tb tl sh sr rh wh fr jl jd ji yl yd ff _ ir se ho en =>
      Build_Env c ck uh tb tl sh sr rh wh fr jl jd ji yl yd ff (unwritable_log 2) ir se ho en
  end.

Example unwritable_log_leaves_in_progress :
  let '(r, w') := execute_migration (H := full_disk_env) (H0 := demo_tar) "mig_1" (migration_world "project_reload" []) in
  r = Err (PyError "OSError" "No space left on device")
  /\ map (fun m => (mg_status m, mg_stage m)) (migs w') = [("in_progress", Some "drain")].
Proof. vm_compute. auto. Qed.

Lemma execution_follows_machine_witness :
  exists o w' t s, migration_run "image_bump" [("new_image", JStr "img:2")] = (Ok o, w')
    /\ rtc mstep start_phase (Ended t s, recs o) /\ mo_terminal_status o = status_value t.
Proof.
  destruct (execution_follows_machine (H := demo_env) (H0 := demo_tar) "mig_1" snap_desk _
    (migration_executable "image_bump" [("new_image", JStr "img:2")])) as ([o|e] & w' & ph & l & E & R & _ & _ & X).
  - destruct X as (-> & t & s & -> & T). exists o, w', t, s. split; [exact E|]. split; [exact R|exact T].
  - exfalso. destruct X as (n & denied & msg & X & _). discriminate X.
Defined.


Definition planning : res exn (MigrationPlan * PreCheckResult) * world :=
  plan_command (H := demo_env) "host" None true "a" "image=img:2" true snap_world.

Lemma planned_migrations_run_witness :
  exists p pc w' d t, planning = (Ok (p, pc), w') /\ get_drydock "a" (w_db snap_world) = Some d
    /\ _parse_target "image=img:2" = Ok t /\ executable (pl_migration_id p) d w'.
Proof.
  destruct planning as [[[p pc]|e] w'] eqn:E; [|vm_compute in E; discriminate E].
  assert (List.NoDup (row_ids (w_db snap_world))) as Hnd by (repeat constructor; cbn; tauto).
  destruct (planned_migrations_run (H := demo_env) "host" None true "a" "image=img:2" true snap_world p pc w' Hnd E)
    as (d & t & G & P & X & _).
  exists p, pc, w', d, t. split; [reflexivity|]. split; [exact G|]. split; [exact P|exact X].
Defined.
