(* ===== verification/MigrationRollback.v ===== *)
(** What a rolled-back migration leaves of the desk: its image, its secrets and its overlay are
    those from before the migration. *)

From S2P Require Import Prelude PyStr PyVal Datetime Registry RegistryFacts World Rpc WorldFacts RpcFacts Overlay Container ProjectConfig Snapshot DeskSpec Desks DestroyFacts SpawnFacts SnapshotFacts Migration MigrationExec MigrationRecovery MigrationFacts.
From Stdlib Require Import List.

(** ** What the stages after the snapshot keep *)

(** The desk's tree and secrets, its secret directory, some overlay file, and two files of the
    snapshot. *)
Record kept `{Env} (i man tgz : string) (w0 w : world) : Prop := mkKept {
  kp_shape : tree_shape w = tree_shape w0;
  kp_files : w_files w = w_files w0;
  kp_secrets : at_path (secret_dir i) w0 = Some NDir -> at_path (secret_dir i) w = Some NDir;
  kp_overlay : (exists t, at_path (overlay_file_of i) w0 = Some (NFile t)) ->
               exists t, at_path (overlay_file_of i) w = Some (NFile t);
  kp_man : forall t, at_path man w0 = Some (NFile t) -> at_path man w = Some (NFile t);
  kp_tgz : forall t, at_path tgz w0 = Some (NFile t) -> at_path tgz w = Some (NFile t)
}.

Section Kept.
Context `{Env} (i man tgz : string) (w0 : world).
Hypothesis (Rs : run_keeps (secret_dir i)) (Ro : run_keeps (overlay_file_of i)) (Rm : run_keeps man) (Rt : run_keeps tgz).

Definition keeps {A} (m : W A) : Prop := preserves (kept i man tgz w0) m.

Definition host_files (w : world) : gmap (string * string) sfile * gmap string node := (w_files w, w_host w).

Lemma keeps_quiet {A} (m : W A) : quiet tree_shape m -> quiet host_files m -> keeps m.
Proof.
  intros Ht Hf w [A1 A2 A3 A4 A5 A6]. specialize (Ht w). specialize (Hf w). injection Hf as E2 E3. unfold at_path in *.
  split; unfold at_path; rewrite ?E3; congruence || done.
Qed.

Lemma keeps_bind {A B} (m : W A) (k : A -> W B) : keeps m -> (forall a, keeps (k a)) -> keeps (m ≫= k).
Proof. apply preserves_bind. Qed.
Lemma keeps_catch {A} (m : W A) h : keeps m -> (forall e, keeps (h e)) -> keeps (catch m h).
Proof. apply preserves_catch. Qed.

Lemma keeps_state {A} (m : W A) : quiet state_view m -> keeps m.
Proof.
  intros Hq. apply keeps_quiet; intros w; specialize (Hq w); injection Hq as E1 E2 E3;
    unfold tree_shape, host_files; by rewrite ?E1, ?E2, ?E3.
Qed.

(** A change of the host's files alone. *)
Lemma keeps_host (f : gmap string node -> gmap string node) :
  (forall h p n, h !! p = Some n -> p = secret_dir i \/ p = overlay_file_of i \/ p = man \/ p = tgz -> f h !! p = Some n) ->
  keeps (modify (E := exn) (fun w => set_host (f (w_host w)) w)).
Proof.
  intros Hf. apply preserves_modify. intros w [A1 A2 A3 A4 A5 A6]. unfold at_path in *. split; unfold at_path; cbn; [done|done|..].
  - intros Hd. apply Hf; auto.
  - intros Hd. destruct (A4 Hd) as (t & Ht). exists t. apply Hf; auto.
  - intros t Ht. apply Hf; auto.
  - intros t Ht. apply Hf; auto 6.
Qed.

Lemma keeps_run_raw c : keeps (run c).
Proof.
  intros w [A1 A2 A3 A4 A5 A6].
  pose proof (Rs (w_calls w) c (w_host w)) as Es. pose proof (Ro (w_calls w) c (w_host w)) as Eo.
  pose proof (Rm (w_calls w) c (w_host w)) as Em. pose proof (Rt (w_calls w) c (w_host w)) as Et.
  unfold run. split; unfold at_path in *; cbn [snd w_host w_files]; rewrite ?Es, ?Eo, ?Em, ?Et; done.
Qed.

Lemma keeps_run c : keeps (run_uncaught c).
Proof. apply preserves_bind; [apply keeps_run_raw|]. intros []; by apply keeps_state. Qed.

Lemma mk_dirs_keeps q h p n : h !! p = Some n -> mk_dirs q h !! p = Some n.
Proof.
  intros Hp. unfold mk_dirs. induction (path_chain q) as [|x l IH]; [done|]. cbn [fold_right].
  destruct (fold_right _ h l !! x) eqn:E; [exact IH|]. rewrite lookup_insert_ne; [exact IH|]. intros ->. congruence.
Qed.

Lemma keeps_mkdir q : keeps (mkdir_p q).
Proof.
  apply preserves_bind; [apply keeps_state, quiet_fs_op|]. intros _. apply (keeps_host (mk_dirs q)). intros h p n Hp _.
  by apply mk_dirs_keeps.
Qed.

(** Writing a file that is not of the snapshot; it fails on a directory. *)
Lemma keeps_write q t : q <> man -> q <> tgz -> keeps (host_write q t).
Proof.
  intros Hm Ht. apply preserves_bind; [apply keeps_state, quiet_fs_op|]. intros _.
  apply preserves_gets_bind. intros w [A1 A2 A3 A4 A5 A6].
  assert (w_host w !! q <> Some NDir -> kept i man tgz w0 (set_host (<[q := NFile t]> (w_host w)) w)) as Hw.
  { intros Hn. unfold at_path in *. split; unfold at_path; cbn; [done|done|..].
    - intros Hd. rewrite lookup_insert_ne; [by apply A3|]. intros ->. by apply Hn, A3.
    - intros Hd. destruct (decide (q = overlay_file_of i)) as [->|Hq]; [exists t; apply lookup_insert_eq|].
      rewrite lookup_insert_ne by done. by apply A4.
    - intros x Hx. rewrite lookup_insert_ne by done. by apply A5.
    - intros x Hx. rewrite lookup_insert_ne by done. by apply A6. }
  destruct (w_host w !! q) as [[|x]|] eqn:E; [done|apply Hw; congruence|apply Hw; congruence].
Qed.

(** Registry updates that leave a desk's id, name, parent and configuration. *)
Lemma keeps_fields now n fs : (forall r, shape_of (set_fields (fs ++ [F_updated_at now]) r) = shape_of r) ->
  keeps (reg (update_drydock now n fs)).
Proof.
  intros Hs. apply keeps_quiet; intros w; unfold reg, update_drydock; (destruct fs as [|f fs]; [done|]); [|done].
  rewrite modify_bind. cbn -[shape_of set_fields tbl_update app map]. unfold tree_shape. cbn -[shape_of set_fields tbl_update app map].
  by apply (shape_update n ((f :: fs) ++ [F_updated_at now])).
Qed.

Lemma keeps_touch_state n st : keeps (touch_state n st).
Proof.
  apply keeps_quiet; [apply quiet_touch_state|]. apply quiet_bind; [done|]. intros now w.
  unfold reg, update_state. rewrite modify_bind, gets_bind. by destruct (get_drydock n (set_drydocks _ _)).
Qed.

Lemma keeps_touch n fs : (forall now r, shape_of (set_fields (fs ++ [F_updated_at now]) r) = shape_of r) ->
  keeps (touch_drydock n fs).
Proof. intros Hs. apply preserves_bind; [by apply keeps_state|]. intros now. by apply keeps_fields. Qed.

Lemma keeps_delegations now n a b c d e f g : keeps (reg (update_desk_delegations now n a b c d e f g None)).
Proof.
  set (fs := opt_field F_firewall_domains a ++ opt_field F_secrets b ++ opt_field F_capabilities c
    ++ opt_field F_storage_scopes d ++ opt_field F_provision_scopes e ++ opt_field F_network_reach f
    ++ opt_field F_reach_ports g ++ opt_field F_resources_hard None).
  assert (forall r, shape_of (set_fields (fs ++ [F_updated_at now]) r) = shape_of r) as Hs
    by (intros r; subst fs; destruct a, b, c, d, e, f, g; reflexivity).
  pose proof (keeps_fields now n fs Hs) as Hk. intros w Hw. specialize (Hk w Hw).
  unfold reg, update_desk_delegations in *. fold fs. cbv zeta. destruct fs as [|x l]; [cbn; by rewrite set_db_id|].
  unfold mbind, M_bind. by destruct (update_drydock now n (x :: l) (w_db w)) as [[?|?] ?].
Qed.

Lemma keeps_update mid st s sn er co : keeps (mg_update mid st s sn er co).
Proof.
  apply keeps_quiet; intros w; unfold mg_update, reg, update_migration; rewrite gets_bind; by destruct (_ && _).
Qed.

Create HintDb keeps.
#[local] Hint Resolve keeps_run_raw keeps_run keeps_mkdir keeps_touch_state keeps_delegations keeps_update : keeps.
#[local] Hint Extern 4 (keeps _) => apply keeps_state; solve [eauto with quiet nocore] : keeps.

Ltac keep_step :=
  repeat first
    [ solve [eauto with keeps nocore]
    | match goal with
      | |- keeps (mbind _ _) => apply keeps_bind; [|intros ?]
      | |- keeps (catch _ _) => apply keeps_catch; [|intros ?]
      end
    | progress cbv beta zeta
    | match goal with |- keeps (match ?x with _ => _ end) => destruct x end ].

(** ** A resume of the desk, whatever else it does *)

(** The name of a desk's overlay is not that of a file of the snapshot. *)
Hypothesis (Nm : path_name man = "manifest.json") (Nt : path_name tgz = "snapshot.tgz").

Lemma overlay_name dir j : plain (j +:+ ".devcontainer.json") = true ->
  overlay_file dir j <> man /\ overlay_file dir j <> tgz.
Proof.
  intros Hp. unfold overlay_file. split; intros E; apply (f_equal path_name) in E; rewrite path_name_join in E by done;
    rewrite ?Nm, ?Nt in E; apply (f_equal (fun s => String.length s)) in E; rewrite length_app_s in E; cbn in E; lia.
Qed.

Lemma keeps_overlay ws dir c b : plain (id ws +:+ ".devcontainer.json") = true -> keeps (write_overlay ws dir c b).
Proof.
  intros Hp. unfold write_overlay, merge_into_base. destruct (overlay_name dir (id ws) Hp) as [H1 H2].
  pose proof (fun t => keeps_write _ t H1 H2). keep_step.
Qed.

Lemma keeps_resume ws : plain (id ws +:+ ".devcontainer.json") = true -> keeps (_resume_desk false ws).
Proof.
  intros Hp. pose proof (fun d c b => keeps_overlay ws d c b Hp).
  assert (forall n c st, keeps (touch_drydock n [F_container_id c; F_state st])) by (intros; by apply keeps_touch).
  unfold _resume_desk, resume_failed, start_container, up_or_error, row_of, _regenerate_overlay_for_resume,
    regenerate_overlay_from_drydock, check_available, up, container_of, _read_workspace_folder_from_overlay,
    seed_drydock_trust, _read_existing, _docker_exec, _maybe_setup_storage_mounts, _run_setup_storage_mounts.
  keep_step.
Qed.
(** ** The stages after the snapshot *)

Context `{TarGz} (d : Drydock) (mid : string).
Hypothesis (Names : forall r, In r (drydocks (w_db w0)) -> name (dr_dock r) = name d ->
  plain (id (dr_dock r) +:+ ".devcontainer.json") = true).

Lemma fresh_plain w ws : kept i man tgz w0 w -> get_drydock (name d) (w_db w) = Some ws ->
  plain (id ws +:+ ".devcontainer.json") = true.
Proof.
  intros Hk Hg. apply get_drydock_In in Hg as [(r & <- & Hr)%in_map_iff Hn].
  destruct (shape_row _ _ r (kp_shape _ _ _ _ _ Hk) Hr) as (r0 & Hr0 & E). injection E as Ei En _ _. rewrite <- Ei.
  apply Names; [done|congruence].
Qed.

Lemma keeps_start : keeps (_do_start d).
Proof.
  unfold _do_start. destruct (is_empty _); [by apply keeps_state|]. apply preserves_gets_bind. intros w Hw.
  destruct (get_drydock (name d) (w_db w)) as [ws|] eqn:Eg; [|by apply keeps_state].
  pose proof (keeps_resume ws (fresh_plain w ws Hw Eg)) as Hr.
  match goal with |- kept _ _ _ _ (snd (?m w)) => assert (keeps m) as Hk; [|by apply Hk] end. keep_step.
Qed.

Lemma keeps_stop : keeps (_do_stop d).
Proof. unfold _do_stop. keep_step. Qed.
Lemma keeps_mutate plan : keeps (_do_mutate d plan).
Proof.
  assert (forall n t, keeps (touch_drydock n [F_image t])) by (intros; by apply keeps_touch).
  unfold _do_mutate, _mutate_image_bump, _mutate_project_reload, load_project_config. keep_step.
Qed.
Lemma keeps_verify b : keeps (_do_verify d b).
Proof. unfold _do_verify. keep_step. Qed.
Lemma keeps_stage o s fn : keeps fn -> keeps (_stage o mid s fn).
Proof. intros Hf. unfold _stage, stage_event. keep_step. Qed.
Lemma keeps_then sn st k : keeps st -> (forall o so, keeps (k o so)) -> keeps (then_stage sn st k).
Proof. intros Hs Hk. unfold then_stage. keep_step. Qed.

Lemma keeps_after plan dir o : keeps (after_snapshot d plan mid dir o).
Proof.
  unfold after_snapshot. repeat (apply keeps_then; [apply keeps_stage|intros ? ?]);
    [apply keeps_stop|apply keeps_mutate|apply keeps_start|apply keeps_verify|by apply keeps_state..].
Qed.
End Kept.

(** ** Following a run that rolled back *)

(** The desks, the secrets and the host's files. *)
Definition desk_view (w : world) : list dock_row * gmap (string * string) sfile * gmap string node :=
  (drydocks (w_db w), w_files w, w_host w).

Lemma quiet_desk {A} (m : W A) : quiet state_view m -> quiet desk_view m.
Proof. apply (quiet_weaken state_view (fun v => (drydocks (fst (fst v)), snd (fst v), snd v))). Qed.

Section Runs.
Context `{Env, TarGz} (d : Drydock) (mid : string).

Lemma desk_update m st s sn er co : quiet desk_view (mg_update m st s sn er co).
Proof. intros w. unfold mg_update, reg, update_migration. rewrite gets_bind. by destruct (_ && _). Qed.

#[local] Hint Resolve desk_update : quiet.
#[local] Hint Extern 6 (quiet desk_view _) => simple apply quiet_desk : quiet.

Lemma then_inv sn st k w wk w' : then_stage sn st k w = (Ok wk, w') ->
  exists o r w1, st w = (Ok (o, r), w1)
    /\ match r with inl f => wk = mkWalk o sn (Some f) /\ w1 = w' | inr so => k o so w1 = (Ok wk, w') end.
Proof.
  unfold then_stage. intros E. apply bind_inv in E as [([o r] & w1 & E1 & E)|(e & _ & [=])].
  exists o, r, w1. split; [done|]. destruct r as [f|so]; [by injection E as <- <-|done].
Qed.

(** A stage that succeeded ran its body to the end. *)
Lemma stage_inv o s fn w o' so w1 : _stage o mid s fn w = (Ok (o', inr so), w1) ->
  exists wa wb, desk_view wa = desk_view w /\ fn wa = (Ok (inr (so_detail so)), wb) /\ desk_view w1 = desk_view wb.
Proof.
  unfold _stage. intros E. apply bind_inv in E as [(u & wa & E1 & E)|(e & _ & [=])].
  apply bind_inv in E as [(r & wb & E2 & E)|(e & _ & [=])].
  unfold catch in E2. destruct r as [e|[f|dt]]; cbn zeta in E.
  - apply bind_inv in E as [(j & wc & _ & E)|(e2 & _ & [=])]. discriminate E.
  - discriminate E.
  - apply bind_inv in E as [(j & wc & E3 & E)|(e2 & _ & [=])]. injection E as _ <- <-. exists wa, wb.
    split; [exact (quiet_at _ _ _ _ _ (desk_update _ _ _ _ _ _) E1)|]. split; [|].
    + destruct ((x ← fn; mret (inr x)) wa) as [[x|e] wx] eqn:Ef; [|discriminate E2]. injection E2 as -> ->.
      apply bind_inv in Ef as [(x & wy & Ef & E4)|(e2 & _ & [=])]. by injection E4 as -> ->.
    + refine (quiet_at _ _ _ _ _ _ E3). unfold stage_event. quiet_step.
Qed.

Lemma do_snapshot_inv w dt w' : _do_snapshot d mid w = (Ok (inr dt), w') ->
  exists dir m, snapshot_drydock d mid w = (Ok (dir, m), w') /\ detail_text "snapshot_dir" dt = Some dir.
Proof.
  intros E. destruct (do_snapshot_dir _ _ _ _ _ E) as (dir & Hd). revert E Hd. unfold _do_snapshot, catch.
  destruct ((snapshot_drydock d mid ≫= _) w) as [[x|e] w1] eqn:Es; [|destruct (is_snapshot_error e); by intros [=]].
  intros [= -> ->] Hd. apply bind_inv in Es as [([dir2 m] & w2 & Es & E)|(e & _ & [=])].
  injection E as <- ->. exists dir2, m. split; [done|]. revert Hd. unfold detail_text, jget. cbn.
  destruct (is_empty dir2); [done|]. done.
Qed.

Lemma after_keeps_dir plan dir o w wk w' x : after_snapshot d plan mid (Some dir) o w = (Ok wk, w') ->
  wk_snapshot wk = Some x -> dir = x.
Proof.
  intros E Hw. unfold after_snapshot in E.
  do 5 (apply then_inv in E as (? & [?|?] & ? & _ & E); [destruct E as [-> _]; by injection Hw as ->|]).
  injection E as <- _. by injection Hw as ->.
Qed.

(** The way forward up to the snapshot and from there. *)
Lemma forward_inv plan o w wk w' dir : forward d plan mid o w = (Ok wk, w') -> wk_snapshot wk = Some dir ->
  exists ws m ws1 w1 o1, desk_view ws = desk_view w /\ snapshot_drydock d mid ws = (Ok (dir, m), ws1)
    /\ desk_view w1 = desk_view ws1 /\ after_snapshot d plan mid (Some dir) o1 w1 = (Ok wk, w').
Proof.
  intros E Hw. unfold forward in E.
  apply then_inv in E as (o1 & [f|so1] & w1 & E1 & E); [by destruct E as [-> _]|].
  apply stage_inv in E1 as (a1 & b1 & V1 & E1 & U1).
  apply then_inv in E as (o2 & [f|so2] & w2 & E2 & E); [by destruct E as [-> _]|].
  apply stage_inv in E2 as (a2 & b2 & V2 & E2 & U2).
  apply then_inv in E as (o3 & [f|so3] & w3 & E3 & E); [by destruct E as [-> _]|].
  apply stage_inv in E3 as (a3 & b3 & V3 & E3 & U3).
  assert (desk_view b1 = desk_view a1) as S1
    by (refine (quiet_at desk_view _ _ _ _ _ E1); unfold _do_precheck; quiet_step).
  assert (desk_view b2 = desk_view a2) as S2 by (refine (quiet_at desk_view _ _ _ _ _ E2); unfold _do_drain; quiet_step).
  apply do_snapshot_inv in E3 as (dir2 & m & E3 & Hd). cbv beta zeta in E. rewrite Hd in E. unfold record_snapshot in E.
  rewrite bind_bind in E. apply bind_inv in E as [(u & w4 & E4 & E)|(e & _ & [=])]. rewrite ret_bind in E.
  pose proof (quiet_at _ _ _ _ _ (desk_update _ _ _ _ _ _) E4) as V4.
  assert (dir2 = dir) as -> by exact (after_keeps_dir _ _ _ _ _ _ _ E Hw).
  exists a3, m, b3, w4, (set_snapshot_path dir o3). split; [congruence|]. split; [done|]. split; [congruence|done].
Qed.
(** Putting the image back. *)
Lemma restore_image_inv m r rest w u w' :
  sm_registry_row m = JObj (("drydocks", drydocks_dict r) :: rest) -> restore_image (name d) m w = (Ok u, w') ->
  (forall d', get_drydock (name d) (w_db w') = Some d' -> image d' = image (dr_dock r))
  /\ host_files w' = host_files w.
Proof.
  intros Em. unfold restore_image. rewrite Em.
  change (get_item "drydocks" JNull (JObj (("drydocks", drydocks_dict r) :: rest))) with (Ok (E := exn) (drydocks_dict r)).
  rewrite lift_bind. cbv zeta. change (py_or (drydocks_dict r) (JObj [])) with (drydocks_dict r).
  change (text_in "image" (drydocks_dict r)) with (Ok (E := exn) true). rewrite lift_bind. cbv iota.
  change (item "image" (drydocks_dict r)) with (Ok (E := exn) (JStr (image (dr_dock r)))). rewrite lift_bind.
  cbn [sql_text]. rewrite lift_bind. intros E. apply bind_inv in E as [(o & w1 & E1 & E)|(e & _ & [=])]. injection E as _ <-.
  unfold touch_drydock in E1. rewrite utc_now_bind in E1. unfold reg, update_drydock in E1. rewrite modify_bind in E1.
  injection E1 as _ <-. split; [|done]. intros d' Hd. revert Hd. unfold get_drydock.
  cbn -[tbl_update set_fields by_name tbl_first]. rewrite tbl_first_update by done.
  destruct (tbl_first _ _) as [r0|] eqn:Er; [|done]. apply tbl_first_Some in Er as [_ Er]. cbn. rewrite Er. by intros [= <-].
Qed.

(** A rollback that succeeded. *)
Lemma rollback_inv o dir w o' w' : _rollback o mid d dir w = (Ok o', w') -> mo_terminal_status o' = "rolled_back" ->
  exists m w1 w2 w3, desk_view w1 = desk_view w /\ restore_drydock dir w1 = (Ok m, w2)
    /\ restore_image (name d) m w2 = (Ok tt, w3) /\ desk_view w' = desk_view w3.
Proof.
  unfold _rollback. intros E Ht. apply bind_inv in E as [(u & w1 & E1 & E)|(e & _ & [=])].
  apply bind_inv in E as [(r & w3 & E2 & E)|(e & _ & [=])]. destruct r as [e|]; cbv zeta in E.
  { apply bind_inv in E as [(u2 & w4 & _ & E)|(e2 & _ & [=])]. apply bind_inv in E as [(j & w5 & _ & E)|(e2 & _ & [=])].
    by injection E as <- _. }
  unfold catch in E2. destruct ((restore_drydock dir ≫= _) w1) as [[x|e] wx] eqn:Er; [|discriminate E2].
  injection E2 as -> ->. apply bind_inv in Er as [(m & w2 & Er & E2)|(e & _ & [=])].
  apply bind_inv in E2 as [([] & w4 & E4 & E2)|(e & _ & [=])]. injection E2 as ->.
  exists m, w1, w2, w3. split; [exact (quiet_at _ _ _ _ _ (desk_update _ _ _ _ _ _) E1)|]. split; [exact Er|].
  split; [exact E4|]. refine (quiet_at _ _ _ _ _ _ E). unfold end_migration. quiet_step.
Qed.

(** The whole run. *)
Lemma execute_inv w o w' : executable mid d w -> execute_migration mid w = (Ok o, w') ->
  mo_terminal_status o = "rolled_back" ->
  exists dir plan o1 ws m ws1 w1 wk w2 m' w3 w4 w5,
    desk_view ws = desk_view w /\ snapshot_drydock d mid ws = (Ok (dir, m), ws1) /\ desk_view w1 = desk_view ws1
    /\ after_snapshot d plan mid (Some dir) o1 w1 = (Ok wk, w2) /\ desk_view w3 = desk_view w2
    /\ restore_drydock dir w3 = (Ok m', w4) /\ restore_image (name d) m' w4 = (Ok tt, w5)
    /\ desk_view w' = desk_view w5.
Proof.
  intros [(r & i & plan & G & S & P & A & D)] E Ht. unfold execute_migration in E. rewrite reg_gets_bind, G, S in E.
  change (negb ("planned" =s "planned")) with false in E. cbv iota in E. rewrite P in E. unfold item in E.
  rewrite A, lift_bind in E. cbv beta iota in E. rewrite reg_gets_bind, D in E. unfold run_planned in E.
  apply bind_inv in E as [(u & wa & E1 & E)|(e & _ & [=])]. apply bind_inv in E as [(j & wb & E2 & E)|(e & _ & [=])].
  apply bind_inv in E as [(wk & wc & E3 & E)|(e & _ & [=])].
  pose proof (quiet_at _ _ _ _ _ (desk_update _ _ _ _ _ _) E1) as V1.
  assert (desk_view wb = desk_view wa) as V2 by (refine (quiet_at desk_view _ _ _ _ _ E2); quiet_step).
  unfold finish_walk in E. destruct (wk_failure wk) as [f|].
  - unfold fail_or_rollback in E. cbv zeta in E. destruct (wk_snapshot wk) as [dir|] eqn:Ew.
    + apply (forward_inv _ _ _ _ _ dir) in E3 as (ws & m & ws1 & w1 & o1 & Vs & Es & Vw & Ea); [|exact Ew].
      apply rollback_inv in E as (m' & x1 & x2 & x3 & X1 & X2 & X3 & X4); [|exact Ht].
      exists dir, plan, o1, ws, m, ws1, w1, wk, wc, m', x1, x2, x3. split_and!; try done. congruence.
    + apply bind_inv in E as [(u2 & w4 & _ & E)|(e2 & _ & [=])]. apply bind_inv in E as [(j2 & w5 & _ & E)|(e2 & _ & [=])].
      by injection E as <- _.
  - unfold succeed in E. cbv zeta in E. apply bind_inv in E as [(u1 & w3 & _ & E)|(e2 & _ & [=])].
    apply bind_inv in E as [(u2 & w4 & _ & E)|(e2 & _ & [=])]. apply bind_inv in E as [(j2 & w5 & _ & E)|(e2 & _ & [=])].
    by injection E as <- _.
Qed.
End Runs.

(** ** What is put back *)

Section Rollback.
Context `{Env, TarGz, !LawfulTar}.

(** A desk with its secret directory and overlay in place, whose files and whose snapshot's files
    the subprocesses leave alone. *)
Definition snapshot_files (mid : string) : list string :=
  map (fun n => snapshot_dir_of mid // n) ["snapshot.tgz"; "snapshot.tgz.tmp"; "manifest.json"; "manifest.json.tmp"].

Record in_place (d : Drydock) (mid overlay : string) (w : world) : Prop := mkInPlace {
  ip_separate : separate (id d) mid;
  ip_manifest : run_keeps (snapshot_dir_of mid // "manifest.json");
  ip_tarball : run_keeps (snapshot_dir_of mid // "snapshot.tgz");
  ip_apart : ~ In (secret_dir (id d)) (snapshot_files mid) /\ ~ In (overlay_file_of (id d)) (snapshot_files mid);
  ip_secrets : at_path (secret_dir (id d)) w = Some NDir;
  ip_overlay : at_path (overlay_file_of (id d)) w = Some (NFile overlay);
  ip_ids : List.NoDup (row_ids (w_db w));
  ip_names : List.NoDup (map (fun r => name (dr_dock r)) (drydocks (w_db w)))
}.

(** The desk of the plan, among the rows. *)
Lemma planned_desk d mid w : executable mid d w -> exists r, In r (drydocks (w_db w)) /\ dr_dock r = d.
Proof.
  intros [(r & i & plan & _ & _ & _ & _ & D)]. unfold _drydock_by_id in D. destruct (tbl_first _ _) as [r0|] eqn:E; [|done].
  apply tbl_first_Some in E as [Hr _]. injection D as <-. by exists r0.
Qed.

Lemma named_desk d mid w r : executable mid d w -> List.NoDup (row_ids (w_db w)) ->
  List.NoDup (map (fun r => name (dr_dock r)) (drydocks (w_db w))) -> In r (drydocks (w_db w)) ->
  name (dr_dock r) = name d -> id (dr_dock r) = id d.
Proof.
  intros Hx _ Hn Hr En. destruct (planned_desk d mid w Hx) as (r0 & Hr0 & <-).
  by rewrite (tbl_key_inj (fun r => name (dr_dock r)) _ r r0 Hn Hr Hr0 En).
Qed.

(** The row that the snapshot records. *)
Lemma restore_rows d mid w ws m : executable mid d w -> List.NoDup (row_ids (w_db w)) ->
  drydocks (w_db ws) = drydocks (w_db w) -> _capture_registry_row (id d) (w_db ws) = Ok (sm_registry_row m) ->
  exists r rest, sm_registry_row m = JObj (("drydocks", drydocks_dict r) :: rest) /\ image (dr_dock r) = image d.
Proof.
  intros Hx Hi Hd. unfold _capture_registry_row. rewrite Hd. destruct (tbl_first _ _) as [r|] eqn:Er; [|done].
  intros [= E]. exists r. eexists. split; [by symmetry|]. apply tbl_first_Some in Er as [Hr Ei].
  destruct (planned_desk d mid w Hx) as (r0 & Hr0 & E0). unfold by_id in Ei. apply String.eqb_eq in Ei.
  rewrite <- E0 in *. by rewrite (tbl_key_inj (fun r => id (dr_dock r)) _ r r0 Hi Hr Hr0 Ei).
Qed.

Lemma at_snapshot p mid d : run_keeps p -> ~ In p (path_chain (snapshot_dir_of mid)) -> ~ In p (snapshot_files mid) ->
  quiet (at_path p) (snapshot_drydock d mid).
Proof.
  intros Hr Hc Hf. assert (forall n, In n ["snapshot.tgz"; "snapshot.tgz.tmp"; "manifest.json"; "manifest.json.tmp"] ->
    p <> snapshot_dir_of mid // n) as Hne
    by (intros n Hn ->; apply Hf; by apply (in_map (fun n => snapshot_dir_of mid // n))).
  assert (forall t, quiet (at_path p) (write_replacing (snapshot_dir_of mid) "snapshot.tgz" t)) as Q1
    by (intros t; apply at_write_replacing; apply Hne; cbn; tauto).
  assert (forall t, quiet (at_path p) (write_replacing (snapshot_dir_of mid) "manifest.json" t)) as Q2
    by (intros t; apply at_write_replacing; apply Hne; cbn; tauto).
  pose proof (at_mkdir p _ Hc) as Q3. pose proof (fun c => at_run_uncaught p c Hr) as Q4.
  assert (forall l : list (string * sfile), quiet (at_path p) (copy_all (fun _ => fs_op) l)) as Q5
    by (intros l; apply quiet_copy_all; intros; quiet_step).
  unfold snapshot_drydock, stage_secrets, stage_overlay, check_clean, _capture_worktree, _git, _looks_like_worktree. cbv zeta.
  fold (snapshot_dir_of mid). quiet_step.
Qed.

(** C8: A migration that returns rolled back has put the desk back: its image is the one it had
    before the migration, its secrets have the bytes and modes they had, new ones are gone,
    and its overlay file has its old text, whatever the stages changed. Provided that the plan was
    planned and names the desk, that the snapshot's manifest reads back as JSON, and that the desk is in
    place ([in_place]): its secret directory and its overlay file exist when the migration starts, the
    ids and the names of the registry's desks are unique, the paths of the secrets, the overlay and the snapshot
    are apart, and docker, git and devcontainer leave those paths alone. The desk's container, its
    state in the registry and its worktree are not put back. *)
Theorem rolled_back_restores d mid overlay w o w' :
  executable mid d w -> in_place d mid overlay w -> execute_migration mid w = (Ok o, w') ->
  mo_terminal_status o = "rolled_back" ->
  exists m, sm_drydock_id m = JStr (id d)
    /\ (json_loads (json_dumps_indent (manifest_to_dict m)) = Some (manifest_to_dict m) ->
        (forall d', get_drydock (name d) (w_db w') = Some d' -> image d' = image d)
        /\ (forall n, w_files w' !! (id d, n) = w_files w !! (id d, n))
        /\ at_path (overlay_file_of (id d)) w' = Some (NFile overlay)).
Proof.
  intros Hx [Hsep Rm Rt [A1 A2] Hs Ho Hi Hn] E Ht. pose proof Hsep as [[R1 R2] [S1 S2] [O1 O2] Hp].
  destruct (execute_inv d mid w o w' Hx E Ht) as
    (dir & plan & o1 & ws & m & ws1 & w1 & wk & w2 & m' & w3 & w4 & w5 & Vs & Es & V1 & Ea & V3 & Er & Ei & V5).
  pose proof Es as Es'.
  apply snapshot_ok in Es' as (secrets & ov & -> & Eid & _ & Cs & Co & Erow & Tt & Tm); [|by intros p [-> | ->]].
  exists m. split; [exact Eid|]. intros Hj.
  pose proof (quiet_at _ _ _ _ _ (quiet_snapshot d mid) Es) as Qs. injection Qs as Ds Fs. injection Vs as Bs Gs Hs'.
  pose proof (quiet_at _ _ _ _ _ (at_snapshot _ mid d R1 S1 A1) Es) as P1.
  pose proof (quiet_at _ _ _ _ _ (at_snapshot _ mid d R2 S2 A2) Es) as P2. unfold at_path in P1, P2. rewrite Hs' in P1, P2.
  injection V1 as B1 G1 H1'. set (man := snapshot_dir_of mid // "manifest.json") in *.
  set (tgz := snapshot_dir_of mid // "snapshot.tgz") in *.
  assert (kept (id d) man tgz w1 w2) as [K1 K2 K3 K4 K5 K6].
  { pose proof (keeps_after (id d) man tgz w1 R1 R2 Rm Rt) as Hk.
    specialize (Hk ltac:(by apply path_name_join) ltac:(by apply path_name_join) d mid).
    assert (kept (id d) man tgz w1 (snd (after_snapshot d plan mid (Some (snapshot_dir_of mid)) o1 w1))) as Hw;
      [apply Hk|by rewrite Ea in Hw]; [|by split].
    intros r Hr En. assert (drydocks (w_db w1) = drydocks (w_db w)) as Ed by congruence. rewrite Ed in Hr.
    by rewrite (named_desk d mid w r Hx Hi Hn Hr En). }
  injection V3 as B3 G3 H3'. unfold at_path in *.
  apply (restore_undoes d mid ws (snapshot_dir_of mid) m ws1 w3 m' w4 Hsep Es Hj) in Er as (-> & Db & Sf & _ & Of).
  - specialize (restore_rows d mid w ws m Hx Hi Bs Erow) as (r & rest & Er & Eim).
    apply (restore_image_inv d m r rest _ _ _ Er) in Ei as [Im Hf]. injection V5 as B5 G5 H5. injection Hf as Gf Hf'.
    split; [|split].
    + intros d' Hd. rewrite <- Eim. apply Im. unfold get_drydock in *. by rewrite <- B5.
    + intros n. rewrite G5, Gf, Sf. unfold at_path. rewrite Hs', Hs. cbn [is_ndir]. by rewrite Gs.
    + rewrite H5, Hf'. unfold at_path in Of. by rewrite Of, Hs', Ho.
  - unfold at_path. fold tgz. rewrite H3', Tt. apply K6. by rewrite H1'.
  - unfold at_path. fold man. rewrite H3', Tm. apply K5. by rewrite H1'.
  - intros n f _. unfold at_path. rewrite H3', K3; [done|]. by rewrite H1', P1.
  - unfold at_path. rewrite H3'. destruct K4 as (t & ->); [|done]. exists overlay. by rewrite H1', P2.
Qed.
End Rollback.

(** ** A schema migration, which the executor cannot do *)

(** The world in which the run takes its snapshot, and the manifest it writes. *)
Definition schema_world : world := migration_world "schema_migration" [].

Definition before_snapshot : W unit :=
  let env := env_with_json JNull "M" in
  let o := mkOutcome "mig_1" "dock_a" "in_progress" [] None None in
  _ ← mg_update "mig_1" (Some "in_progress") (Some "precheck") None None None;
  _ ← emit_audit (H := env) "drydock.migration_started" (Some "dock_a") (JStr "mig_1") "MigrationExecutor" "ok" [];
  '(o, _) ← _stage (H := env) o "mig_1" PRECHECK (_do_precheck snap_desk);
  '(o, _) ← _stage (H := env) o "mig_1" DRAIN _do_drain;
  mret tt.

Definition schema_manifest : SnapshotManifest :=
  Eval vm_compute in
    snd (result_or ("", no_manifest)
      (fst (snapshot_drydock (H := env_with_json JNull "M") snap_desk "mig_1" (snd (before_snapshot schema_world))))).

#[local] Instance schema_env : Env := env_with_json (manifest_to_dict schema_manifest) "M".

Definition schema_end : world := Eval vm_compute in snd (execute_migration "mig_1" schema_world).
Definition schema_outcome : MigrationOutcome :=
  Eval vm_compute in result_or (mkOutcome "" "" "" [] None None) (fst (execute_migration "mig_1" schema_world)).

Lemma schema_in_place : in_place snap_desk "mig_1" "{ov}" schema_world.
Proof.
  split; [apply separate_with|by split|by split| |reflexivity|reflexivity|repeat constructor; cbn; tauto..].
  split; vm_compute; intuition congruence.
Qed.

Lemma rolled_back_restores_witness :
  execute_migration "mig_1" schema_world = (Ok schema_outcome, schema_end)
  /\ mo_terminal_status schema_outcome = "rolled_back"
  /\ exists m, sm_drydock_id m = JStr "dock_a"
    /\ (json_loads (json_dumps_indent (manifest_to_dict m)) = Some (manifest_to_dict m) ->
        at_path (overlay_file_of "dock_a") schema_end = Some (NFile "{ov}")).
Proof.
  assert (execute_migration "mig_1" schema_world = (Ok schema_outcome, schema_end)) as E by (vm_compute; reflexivity).
  split; [exact E|]. split; [reflexivity|].
  destruct (rolled_back_restores snap_desk "mig_1" "{ov}" schema_world schema_outcome schema_end
    (migration_executable "schema_migration" []) schema_in_place E eq_refl) as (m & Em & Hm).
  exists m. split; [exact Em|]. intros Hj. apply (Hm Hj).
Defined.

(** The rollback puts the files and the image back, but the container that STOP stopped stays stopped,
    and the row goes on saying that it runs. *)
Example rolled_back_desk_is_down :
  map argv (w_calls schema_end) = [["/usr/bin/docker"; "stop"; "-t"; "60"; "c1"]]
  /\ map (fun r => state (dr_dock r)) (drydocks (w_db schema_end)) = ["running"].
Proof. vm_compute. auto. Qed.
