(* ===== verification/MigrationRecoveryFacts.v ===== *)
(** Correctness of [MigrationRecovery.v]: no migration survives a restart of the daemon in
    progress. *)

From S2P Require Import Prelude PyStr PyVal Datetime Registry World Rpc WorldFacts RpcFacts Overlay Container ProjectConfig Snapshot DeskSpec Desks SnapshotFacts Migration MigrationExec MigrationRecovery MigrationFacts.
From Stdlib Require Import List Permutation.

Section MigrationRecoveryFacts.
Context `{Env, TarGz}.

#[local] Hint Resolve migs_restore migs_touch_drydock : quiet.

Definition closed_by (t : MigrationStatus) (k : string) (w w' : world) : Prop :=
  exists err now, migs w' = tbl_update (by_mg k) (set_migration (Some (status_value t)) None None (Some err) (Some now)) (migs w).

Lemma closed_closes t k w w' : t = ROLLED_BACK \/ t = FAILED -> closed_by t k w w' ->
  closes_key mg_id stalled k (migs w) (migs w').
Proof. intros Ht (err & now & ->). eexists. split; [|split; [|reflexivity]]; [done|]. by destruct Ht as [-> | ->]. Qed.

Lemma end_recovered_run k t err w : mg_status_ok (status_value t) = true ->
  exists w', end_recovered k t err w = (Ok tt, w') /\ closed_by t k w w'.
Proof.
  intros Ht. unfold end_recovered. destruct (end_run k t (Some (JObj err)) None None w Ht) as (now & w' & E & D & _).
  exists w'. split; [exact E|]. exists (JObj err), now. unfold migs at 1. by rewrite D.
Qed.

Lemma try_rollback_run r w :
  exists x w', try_rollback r w = (Ok x, w')
    /\ match x with inl _ => closed_by ROLLED_BACK (mg_id r) w w' | inr _ => migs w' = migs w end.
Proof.
  unfold try_rollback. destruct (mg_snapshot r) as [p|]; [|by eexists _, w]. destruct (is_empty p); [by eexists _, w|].
  unfold path_exists. rewrite gets_bind. destruct (is_some _); cbn [negb]; [|by eexists _, w].
  assert (quiet migs (_rollback_migration_from_snapshot (mg_drydock_id r) (path_str p))) as Hq
    by (unfold _rollback_migration_from_snapshot, restore_image_by_id; quiet_step).
  specialize (Hq w). unfold catch. destruct (_rollback_migration_from_snapshot _ _ w) as [[u|e] w1] eqn:E; cbn [snd] in Hq.
  - destruct (end_recovered_run (mg_id r) ROLLED_BACK (restart_error r) w1 eq_refl) as (w2 & E2 & err & now & D).
    rewrite (bind_ok _ _ _ _ _ E), (bind_ok _ _ _ _ _ E2). eexists _, w2. split; [done|]. exists err, now. by rewrite D, Hq.
  - rewrite (bind_err _ _ _ _ _ E). by eexists _, w1.
Qed.

Lemma recover_migration_run r w :
  exists c w', recover_migration r w = (Ok c, w') /\ fst c + snd c = 1
    /\ closed_by (if 0 <? fst c then ROLLED_BACK else FAILED) (mg_id r) w w'.
Proof.
  unfold recover_migration. destruct (try_rollback_run r w) as (x & w1 & E1 & C). rewrite (bind_ok _ _ _ _ _ E1).
  destruct x as [u|err]; [by exists (1, 0), w1|].
  destruct (end_recovered_run (mg_id r) FAILED (restart_error r ++ err) w1 eq_refl) as (w2 & E2 & er & now & D).
  rewrite (bind_ok _ _ _ _ _ E2). exists (0, 1), w2. split_and!; try done. exists er, now. by rewrite D, C.
Qed.

Definition mg_ids (l : list migration_row) : list string := map mg_id l.

Lemma recover_migrations_run rows w :
  exists c w', recover_migrations rows w = (Ok c, w') /\ fst c + snd c = Z.of_nat (length rows)
    /\ closes_keys mg_id stalled (mg_ids rows) (migs w) (migs w').
Proof.
  revert w. induction rows as [|r rows IH]; intros w; cbn [recover_migrations].
  { exists (0, 0), w. split; [done|]. split; [done|apply closes_nil]. }
  destruct (recover_migration_run r w) as ([a b] & w1 & E1 & N1 & C1). rewrite (bind_ok _ _ _ _ _ E1).
  destruct (IH w1) as ([a' b'] & w2 & E2 & N2 & C2). rewrite (bind_ok _ _ _ _ _ E2). cbn [fst snd] in *.
  eexists _, w2. split; [done|]. split; [cbn [fst snd length]; lia|]. eapply closes_cons; [|exact C2].
  eapply closed_closes; [|exact C1]. destruct (0 <? a); auto.
Qed.

Lemma recover_migrations_closes w : exists rolled_back failed w',
  recover_in_progress_migrations w = (Ok (rolled_back, failed), w')
  /\ (List.NoDup (mg_ids (migs w)) ->
      (forall r, In r (migs w') -> stalled r = false) /\ (forall r, In r (migs w) -> stalled r = false -> In r (migs w')))
  /\ mg_ids (migs w') = mg_ids (migs w)
  /\ rolled_back + failed = Z.of_nat (tbl_count stalled (migs w)).
Proof.
  unfold recover_in_progress_migrations. rewrite reg_gets_bind. fold (migs w).
  set (rows := order_by le_mg_created (tbl_select stalled (migs w))).
  destruct (recover_migrations_run rows w) as ([a b] & w' & E & N & C). exists a, b, w'. split; [exact E|].
  assert (forall r, In r rows <-> In r (migs w) /\ stalled r = true) as Hrows
    by (intros r; unfold rows; by rewrite order_by_In, tbl_select_In).
  split_and!; [intros Hnd; by destruct (closes_all _ _ _ _ _ Hnd Hrows C)|apply C|].
  cbn in N. rewrite N. f_equal. unfold rows. by rewrite (Permutation_length (order_by_perm _ _)).
Qed.

(** C20: The recovery of migrations at startup always ends, whatever the snapshots hold and the files
    answer; afterwards no migration is in progress, so a desk whose migration the crash
    interrupted can be migrated again; migrations that had ended are as they were; and the report
    counts each interrupted one once, as rolled back or as failed. *)
Theorem no_migration_survives_restart w : List.NoDup (mg_ids (migs w)) ->
  exists rolled_back failed w', recover_in_progress_migrations w = (Ok (rolled_back, failed), w')
    /\ (forall r, In r (migs w') -> stalled r = false)
    /\ (forall r, In r (migs w) -> stalled r = false -> In r (migs w'))
    /\ mg_ids (migs w') = mg_ids (migs w)
    /\ rolled_back + failed = Z.of_nat (tbl_count stalled (migs w)).
Proof.
  intros Hnd. destruct (recover_migrations_closes w) as (a & b & w' & E & C & R). exists a, b, w'.
  destruct (C Hnd) as [Ho Hk]. by split_and!; try apply R.
Qed.

End MigrationRecoveryFacts.

(** ** A daemon that died in the middle of two migrations *)

Definition stalled_row (i : string) (snapshot : option string) : migration_row :=
  mkMigration i "dock_a" (JObj []) "in_progress" (Some "stop") snapshot "t" None None.

Definition stalled_world : world :=
  set_db (set_migrations [stalled_row "mig_1" (Some "/root/.drydock/migrations/mig_1"); stalled_row "mig_2" None]
    (w_db damaged_world)) damaged_world.

Example stalled_ex :
  let '(r, w') := recover_in_progress_migrations (H := snap_env) stalled_world in
  r = Ok (1, 1) /\ map mg_status (migs w') = ["rolled_back"; "failed"]
  /\ w_files w' !! ("dock_a", "key") = Some (mkFile "k1" true).
Proof. vm_compute. auto. Qed.

Lemma no_migration_survives_restart_witness :
  exists a b w', recover_in_progress_migrations (H := snap_env) stalled_world = (Ok (a, b), w') /\ a + b = 2.
Proof.
  assert (List.NoDup (mg_ids (migs stalled_world))) as Hnd by (repeat constructor; cbn; intuition congruence).
  destruct (no_migration_survives_restart (H := snap_env) stalled_world Hnd) as (a & b & w' & E & _ & _ & _ & N).
  exists a, b, w'. split; [exact E|]. etransitivity; [exact N|]. vm_compute. reflexivity.
Defined.
