(* ===== verification/DaemonConfig.v ===== *)
(** [daemon/config.py]: the configuration the daemon reads at its start. A TOML date or time is a value that is
    no text, number or table, and is treated alike: any list stands for it. *)

From S2P Require Import Prelude PyStr PyVal Registry World Storage.
From Stdlib Require Import List.

Definition KNOWN_SECRETS_BACKENDS : list string := ["file"].
Definition KNOWN_STORAGE_BACKENDS : list string := ["sts"; "stub"].
Definition DEFAULT_STORAGE_SOURCE_PROFILE : string := "drydock-runner".
Definition DEFAULT_STORAGE_SESSION_DURATION : Z := 14400.

Definition ConfigError {A} (message : string) : res exn A := Err (PyError "ConfigError" message).

(** The duration is the integer of the value, which may be [True]. *)
Record WsdConfig : Type := mkWsdConfig {
  cf_secrets_backend : string; cf_storage_backend : option string; cf_role_arn : option string;
  cf_source_profile : string; cf_session_duration : Z
}.

Definition default_config : WsdConfig :=
  mkWsdConfig "file" None None DEFAULT_STORAGE_SOURCE_PROFILE DEFAULT_STORAGE_SESSION_DURATION.

(** [not isinstance(v, str) or not v]: the message, else the text. *)
Definition nonempty_text (message : string) (v : json) : res exn string :=
  match v with
  | JStr s => if is_empty s then ConfigError message else Ok s
  | _ => ConfigError message
  end.

Definition known (what : string) (choices : list string) (s : string) : res exn string :=
  if existsb (String.eqb s) choices then Ok s
  else ConfigError (what +:+ ": " +:+ repr_str s +:+ " (known: " +:+ repr_sorted choices +:+ ")").

Definition secrets_section (path : string) (data : obj) : res exn string :=
  match jget_default "secrets" (JObj []) data with
  | JObj secrets =>
      s ← nonempty_text (path +:+ ": [secrets] backend must be a non-empty string")
            (jget_default "backend" (JStr "file") secrets);
      known "unknown_secrets_backend" KNOWN_SECRETS_BACKENDS s
  | _ => ConfigError (path +:+ ": [secrets] must be a TOML table")
  end.

(** [isinstance(v, int) and v > 0]: [True] is one. *)
Definition positive_int (message : string) (v : json) : res exn Z :=
  match v with
  | JInt n => if n <=? 0 then ConfigError message else Ok n
  | JBool true => Ok 1
  | _ => ConfigError message
  end.

(** [None] for a key that is absent. *)
Definition opt_text (message : string) (v : json) : res exn (option string) :=
  match v with JNull => Ok None | v => s ← nonempty_text message v; Ok (Some s) end.

Definition storage_section (path secrets : string) (storage : obj) : res exn WsdConfig :=
  backend ← opt_text (path +:+ ": [storage] backend must be a non-empty string") (jget "backend" storage);
  backend ← match backend with
            | None => Ok None
            | Some b => b ← known "unknown_storage_backend" KNOWN_STORAGE_BACKENDS b; Ok (Some b)
            end;
  role ← opt_text (path +:+ ": [storage] role_arn must be a non-empty string") (jget "role_arn" storage);
  profile ← nonempty_text (path +:+ ": [storage] source_profile must be a non-empty string")
              (jget_default "source_profile" (JStr DEFAULT_STORAGE_SOURCE_PROFILE) storage);
  duration ← positive_int (path +:+ ": [storage] session_duration_seconds must be a positive integer")
               (jget_default "session_duration_seconds" (JInt DEFAULT_STORAGE_SESSION_DURATION) storage);
  if (match backend with Some b => b =s "sts" | None => false end) && negb (is_some role)
  then ConfigError (path +:+ ": [storage] backend = 'sts' requires role_arn (the drydock-agent role ARN)")
  else Ok (mkWsdConfig secrets backend role profile duration).

Definition config_of (path : string) (data : obj) : res exn WsdConfig :=
  secrets ← secrets_section path data;
  match jget "storage" data with
  | JNull => Ok (mkWsdConfig secrets None None DEFAULT_STORAGE_SOURCE_PROFILE DEFAULT_STORAGE_SESSION_DURATION)
  | JObj storage => storage_section path secrets storage
  | _ => ConfigError (path +:+ ": [storage] must be a TOML table")
  end.

Section Load.
Context `{Env}.
(** [tomllib.load]: a table, or [None] for a [TOMLDecodeError]. *)
Variable toml_load : string -> option obj.

Definition load_wsd_config (path : string) : W WsdConfig :=
  found ← path_exists path;
  if negb found then mret default_config
  else
    text ← host_read path;
    match toml_load text with
    | None => throw (PyError "ConfigError" ("invalid TOML in " +:+ path))
    | Some data => lift (config_of path data)
    end.
End Load.
