(* ===== verification/Daemon.v ===== *)
(** The daemon as [daemon/server.py] assembles it: the method table with every handler in it, each
    under the wrapper that the server gives it. *)

From S2P Require Import Prelude PyStr PyVal Registry World Rpc Clarify Proxy Desks Workload Storage Broker Auditor AuditQuery.
From Stdlib Require Import List.

(** What [serve] configures: the backends, [--dry-run], and the process. *)
Record settings : Type := mkSettings {
  secrets_backend : SecretsBackend; storage : option StorageBackend; dry_run : bool; pid : Z
}.

Section Daemon.
Context `{Env} (cfg : settings).

Definition _health (params request_id : json) (caller : option string) : W json :=
  mret (JObj [("ok", JBool true); ("pid", JInt (pid cfg)); ("version", JStr "v2-slice1b")]).

Definition _register_workload (params request_id : json) (caller : option string) : W json :=
  with_task_log "RegisterWorkload" params request_id (register_workload params request_id caller) status_completed.

Definition _release_workload (params request_id : json) (caller : option string) : W json :=
  with_task_log "ReleaseWorkload" params request_id (release_workload params request_id caller) status_completed.

Definition daemon_handlers : handlers := {|
  h_create_desk := _create_desk (dry_run cfg);
  h_destroy_desk := _destroy_desk (dry_run cfg);
  h_spawn_child := _spawn_child (dry_run cfg);
  h_request_capability := _request_capability (secrets_backend cfg) (storage cfg);
  h_release_capability := _release_capability;
  h_stop_desk := _stop_desk (dry_run cfg);
  h_list_desks := _list_desks;
  h_list_children := _list_children;
  h_inspect_desk := _inspect_desk;
  h_get_audit := _get_audit;
  h_health := _health;
  h_whoami := _whoami;
  h_register_workload := _register_workload;
  h_release_workload := _release_workload;
  h_auditor_action := _auditor_action;
  h_register_clarification := _register_clarification;
  h_update_proxy_allowlist := _update_proxy_allowlist |}.

(** One request, from its payload to its response. *)
Definition serve_request (payload : json) (w : world) : option json * world :=
  _dispatch (_METHODS daemon_handlers) payload w.
End Daemon.
