(* ===== verification/Serve.v ===== *)
(** The start of the daemon ([serve] of [daemon/server.py], [daemon/__main__.py]) and what it does besides
    answering: one tick of the sweeper of expired workload leases. *)

From S2P Require Import Prelude PyStr PyVal Datetime Registry World Snapshot Workload Storage Recovery MigrationRecovery DaemonConfig Daemon.
From Stdlib Require Import List.

Section Serve.
Context `{Env, TarGz}.

(** ** The start *)

(** The fixed expiry of the stub's credentials, the start of 2100 in the harbor's local time. *)
Variable stub_expiration : datetime.

Definition serve_storage (c : WsdConfig) : res exn (option StorageBackend) :=
  match cf_storage_backend c with
  | Some b =>
      if is_empty b then Ok None
      else s ← build_storage_backend b (cf_role_arn c) (cf_source_profile c) (cf_session_duration c) stub_expiration;
           Ok (Some s)
  | None => Ok None
  end.

Definition clear_socket (socket_path : string) : W unit :=
  _ ← mkdir_p (path_parent socket_path);
  found ← path_exists socket_path;
  if found : bool then host_unlink socket_path else mret tt.

Definition TASK_LOG_HOURS : Z := 24.

Definition sweep_task_log : W nat := now ← utc_now; reg (evict_old_task_log TASK_LOG_HOURS now).

(** [_Server(str(socket_path), _Handler)]: the bind of a Unix socket makes the file of its name, which must not be
    there yet; [sun_path] holds 107 bytes and the final null. [allow_reuse_address] means nothing to such a socket. *)
Definition bind_socket (p : string) : W unit :=
  if (108 <=? String.length p)%nat then os_error "OSError" "AF_UNIX path too long"
  else
    _ ← fs_op;
    h ← gets w_host;
    if is_some (h !! p) then os_error "OSError" "[Errno 98] Address already in use"
    else if forallb (fun q => is_ndir (h !! q)) (path_chain (path_parent p))
    then modify (fun w => set_host (<[p := NFile ""]> (w_host w)) w)
    else os_error "FileNotFoundError" "[Errno 2] No such file or directory".

(** The [chmod] of the socket, whose failure is only logged; the mode is not part of the state. *)
Definition chmod_socket : W unit := catch fs_op (fun e => if is_os_error e then mret tt else throw e).

(** Up to [serve_forever]. The secrets backend is built by the requests that use it, from the name in the
    configuration. *)
Definition serve (socket_path : string) (dry_run : bool) (pid : Z) (c : WsdConfig) : W settings :=
  storage ← lift (serve_storage c);
  _ ← clear_socket socket_path;
  _ ← recover_in_progress;
  _ ← recover_in_progress_migrations;
  _ ← sweep_task_log;
  _ ← bind_socket socket_path;
  _ ← chmod_socket;
  secrets ← lift (build_backend (cf_secrets_backend c));
  mret (mkSettings secrets storage dry_run pid).

(** What [serve] does when it is interrupted. *)
Definition stop_serving (socket_path : string) : W unit :=
  catch (host_unlink socket_path) (fun e => if exn_class e =s "FileNotFoundError" then mret tt else throw e).

Definition _env_truthy (value : option string) : bool :=
  match value with
  | None => false
  | Some v => existsb (String.eqb (lower (strip v))) ["1"; "true"; "yes"; "on"]
  end.

(** The exit code 2 of a configuration that is refused, or the daemon. *)
Definition main (toml_load : string -> option obj) (socket config_path : string) (pid : Z) : W (Z + settings) :=
  config ← catch (c ← load_wsd_config toml_load config_path; mret (Some c))
             (fun e => if exn_class e =s "ConfigError" then mret None else throw e);
  match config with
  | None => mret (inl 2)
  | Some c => s ← serve socket (_env_truthy (environ "DRYDOCK_WSD_DRY_RUN")) pid c; mret (inr s)
  end.

(** ** The sweeper *)

Definition quietly (m : W unit) : W unit := catch m (fun _ => mret tt).

Definition audit_swept (s : obj) : W unit :=
  let expired := str_eq_json "expired" (jget "terminal_status" s) in
  quietly (_ ← emit_audit (if expired then "workload.lease_expired" else "workload.lease_partial_revoked")
                 (match jget "drydock_id" s with JStr i => Some i | _ => None end) JNull "WorkloadSweeper"
                 (if expired then "ok" else "error") s;
           mret tt).

Fixpoint audit_each (summaries : list obj) : W unit :=
  match summaries with [] => mret tt | s :: l => _ ← audit_swept s; audit_each l end.

Definition sweep_tick : W unit :=
  summaries ← catch (l ← sweep_expired_leases None; mret (Some l)) (fun _ => mret None);
  match summaries with Some l => audit_each l | None => mret tt end.
End Serve.
