(* ===== verification/DaemonFacts.v ===== *)
(** The handlers together: every request, whatever it asks and whoever sends it, changes the
    database only by the registry's operations, and what that preserves over every sequence
    of requests. *)

From stdpp Require Import relations.
From S2P Require Import Prelude PyStr PyVal Datetime Registry RegistryFacts World Rpc WorldFacts Clarify Proxy Ceilings Overlay Container DeskSpec Desks Workload WorkloadFacts Storage Broker BrokerFacts DestroyFacts SpawnFacts Auditor AuditQuery Daemon.
From Stdlib Require Import List.

(** ** The operations that requests use *)

(** The task log, a desk's state, clarifications, leases revoked, workload leases, amendments filed, desks' rows and
    tokens with what goes with them, leases granted. No operation designates
    an auditor or touches yards and migrations. *)
Inductive kind : Set := TaskLog | DeskState | Asking | Revoking | Workloads | Amending | Desk | Grant.

Inductive request_write : kind -> db -> db -> Prop :=
  | write_task r d : existsb (by_request (tl_request_id r)) (task_log d) = false ->
      request_write TaskLog d (set_task_log (task_log d ++ [r]) d)
  | write_outcome k st v now d :
      request_write TaskLog d (set_task_log (tbl_update (by_request k) (finish_row st v now) (task_log d)) d)
  | write_state now n st d : request_write DeskState d (snd (update_state now n st d))
  | write_clarification i k s e c x d : request_write Asking d (snd (insert_clarification i k s e c x d))
  | write_revoke i r d : request_write Revoking d (snd (revoke_lease i r d))
  | write_workload r d : request_write Workloads d (snd (insert_workload_lease r d))
  | write_revoke_workload i s v t d : request_write Workloads d (snd (mark_workload_lease_revoked i s v t d))
  | write_amendment now f k q pt pi i y r s e st d :
      request_write Amending d (snd (create_amendment now f k q pt pi i y r s e st d))
  | write_create now ws d : request_write Desk d (snd (create_drydock now ws d))
  | write_drydock now n fs d : request_write Desk d (snd (update_drydock now n fs d))
  | write_delete now n d : request_write Desk d (snd (delete_drydock now n d))
  | write_delegations now n a b c e f g h i d :
      request_write Desk d (snd (update_desk_delegations now n a b c e f g h i d))
  | write_token i h t d : request_write Desk d (snd (insert_token i h t d))
  | write_delete_token i d : request_write Desk d (snd (delete_token i d))
  | write_revoke_desk i r d : request_write Desk d (snd (revoke_leases_for_desk i r d))
  | write_lease l d : request_write Grant d (snd (insert_lease l d)).

Definition write_of (K : list kind) (d d' : db) : Prop := exists k, In k K /\ request_write k d d'.

(** A computation that changes the database only by operations of the kinds [K]. *)
Definition writes (K : list kind) {A} (m : W A) : Prop := forall w, rtc (write_of K) (w_db w) (w_db (snd (m w))).

Section Writes.
Context (K : list kind).

Lemma writes_quiet {A} (m : W A) : quiet w_db m -> writes K m.
Proof. intros Hq w. rewrite Hq. done. Qed.

Lemma writes_bind {A B} (m : W A) (k : A -> W B) : writes K m -> (forall a, writes K (k a)) -> writes K (m ≫= k).
Proof.
  intros Hm Hk w. specialize (Hm w). unfold mbind, M_bind. destruct (m w) as [[a|e] w1]; [|done].
  etransitivity; [exact Hm|apply Hk].
Qed.

Lemma writes_catch {A} (m : W A) (h : exn -> W A) : writes K m -> (forall e, writes K (h e)) -> writes K (catch m h).
Proof.
  intros Hm Hh w. specialize (Hm w). unfold catch. destruct (m w) as [[a|e] w1]; [done|].
  etransitivity; [exact Hm|apply Hh].
Qed.

Lemma writes_lift {A B} (r : res exn A) (k : A -> W B) : (forall a, r = Ok a -> writes K (k a)) -> writes K (lift r ≫= k).
Proof. intros Hk w. rewrite lift_bind. destruct r as [a|e]; [by apply Hk|done]. Qed.

Lemma writes_reg {A} k (m : DB A) : In k K -> (forall d, request_write k d (snd (m d))) -> writes K (reg m).
Proof.
  intros Hk Hm w. specialize (Hm (w_db w)). unfold reg. destruct (m (w_db w)) as [r d]. apply rtc_once. by exists k.
Qed.

Lemma writes_outside {A} (m : W A) : (forall w, outside w (snd (m w))) -> writes K m.
Proof. intros Ho. apply writes_quiet. intros w. apply Ho. Qed.

Lemma writes_weaken {A} (m : W A) K' : incl K' K -> writes K' m -> writes K m.
Proof.
  intros Hi Hm w. specialize (Hm w). induction Hm as [|x y z (k & Hk & Hs) _ IH]; [done|].
  eapply rtc_l; [|exact IH]. exists k. auto.
Qed.
End Writes.

Create HintDb writes.
#[export] Hint Extern 1 (In _ (_ :: _)) => solve [cbn; tauto] : writes.
#[export] Hint Extern 1 (writes _ (reg _)) => eapply writes_reg; [|intros ?; constructor]; solve [cbn; tauto|eassumption] : writes.
#[export] Hint Extern 4 (writes _ _) => simple apply writes_quiet; solve [eauto with quiet nocore] : writes.

Ltac writes_step :=
  repeat first
    [ solve [eauto with writes nocore]
    | match goal with
      | |- writes _ (on_os_error _ _) => unfold on_os_error
      | |- writes _ (on_class _ _ _) => unfold on_class
      | |- writes _ (on_ws_error _ _) => unfold on_ws_error
      | |- writes _ (lift _ ≫= _) => apply writes_lift; intros ? ?
      | |- writes _ (mbind _ _) => apply writes_bind; [|intros ?]
      | |- writes _ (catch _ _) => apply writes_catch; [|intros ?]
      end
    | progress cbv beta zeta
    | match goal with |- writes _ (match ?x with _ => _ end) => destruct x end ].

Section Handlers.
Context `{Env}.

Lemma writes_touch_state K n st : In DeskState K -> writes K (touch_state n st).
Proof. intros. unfold touch_state. writes_step. Qed.
Lemma writes_touch_drydock K n fs : In Desk K -> writes K (touch_drydock n fs).
Proof. intros. unfold touch_drydock. writes_step. Qed.
Hint Resolve writes_touch_state writes_touch_drydock : writes.

Lemma db_write_bytes d n x : quiet w_db (write_bytes d n x).
Proof. unfold write_bytes. quiet_step. Qed.
Lemma db_chmod d n : quiet w_db (chmod_ro d n).
Proof. unfold chmod_ro. quiet_step. Qed.
Lemma db_os_replace d a b : quiet w_db (os_replace d a b).
Proof. unfold os_replace. quiet_step. Qed.
Lemma unlink_db d n : quiet w_db (unlink d n).
Proof. unfold unlink. quiet_step. Qed.
Lemma db_generate_token : quiet w_db generate_token.
Proof. done. Qed.
Hint Resolve db_write_bytes db_chmod db_os_replace unlink_db db_generate_token : quiet.

Lemma writes_issue_token i : writes [TaskLog; DeskState; Desk] (issue_token_for_desk i).
Proof. unfold issue_token_for_desk, _write_secret_atomic. writes_step. Qed.

(** *** Desks *)

Section Desks.
Context (dry_run : bool).

Lemma db_stop c : quiet w_db (stop dry_run c).
Proof. apply quiet_db, quiet_stop. Qed.
Hint Resolve writes_issue_token db_stop : writes.
Hint Resolve db_stop : quiet.

Lemma writes_register spec par : writes [TaskLog; DeskState; Desk] (register_desk spec par).
Proof. unfold register_desk, set_delegations, join_yard, row_of. writes_step. Qed.

Lemma writes_prepare spec ws : writes [TaskLog; DeskState; Desk] (prepare_desk spec ws).
Proof. unfold prepare_desk, row_of. writes_step. Qed.

Lemma writes_start_container n f o s : writes [TaskLog; DeskState; Desk] (start_container dry_run n f o s).
Proof. unfold start_container, up_or_error, row_of. writes_step. Qed.
Hint Resolve writes_register writes_prepare writes_start_container : writes.

Lemma writes_perform_create spec par : writes [TaskLog; DeskState; Desk] (_perform_create dry_run spec par).
Proof. unfold _perform_create, row_of. writes_step. Qed.

Lemma writes_resume ws : writes [TaskLog; DeskState; Desk] (_resume_desk dry_run ws).
Proof. unfold _resume_desk, resume_failed, row_of. writes_step. Qed.
Hint Resolve writes_perform_create writes_resume : writes.

Lemma writes_create_desk p id c : writes [TaskLog; DeskState; Desk] (create_desk dry_run p id c).
Proof. unfold create_desk, on_ws_error, already_running. writes_step. Qed.

Lemma writes_spawn_child p id c : writes [TaskLog; DeskState; Desk] (spawn_child dry_run p id c).
Proof. unfold spawn_child, check_spawn, on_ws_error, already_running. writes_step. Qed.

Lemma remove_db c : quiet w_db (Container.remove dry_run c).
Proof. apply quiet_db, quiet_remove. Qed.
Hint Resolve remove_db quiet_emit_released quiet_secret_dir quiet_worktree quiet_remove_overlay : quiet.

Lemma writes_destroy_one d : writes [TaskLog; DeskState; Desk] (_destroy_one dry_run d).
Proof.
  unfold _destroy_one, remove_container, attempt, revoke_desk_leases, revoke_desk_token, delete_desk_row. writes_step.
Qed.
Hint Resolve writes_destroy_one : writes.

Lemma writes_destroy_tree n vis d : writes [TaskLog; DeskState; Desk] (_destroy_tree dry_run n vis d).
Proof.
  revert vis d. induction n as [|n IH]; intros vis d; cbn [_destroy_tree]; [writes_step|].
  destruct (existsb _ _); [writes_step|]. apply writes_bind; [writes_step|]. intros cs.
  apply writes_bind; [|intros [ids fs]; writes_step].
  induction cs as [|c cs IHc]; cbn [destroy_each]; [writes_step|]. apply writes_bind; [apply IH|]. intros [a b].
  apply writes_bind; [apply IHc|]. intros [a' b']. writes_step.
Qed.
Hint Resolve writes_destroy_tree : writes.

Lemma writes_destroy_desk p id c : writes [TaskLog; DeskState; Desk] (destroy_desk dry_run p id c).
Proof. unfold destroy_desk, desk_not_found. writes_step. Qed.

Lemma writes_stop_desk p id c : writes [TaskLog; DeskState] (stop_desk dry_run p id c).
Proof. unfold stop_desk, desk_not_found. writes_step. Qed.
End Desks.
Hint Resolve writes_create_desk writes_spawn_child writes_destroy_desk writes_stop_desk : writes.

(** *** The task log *)

Lemma tbl_first_fresh k d : tbl_first (by_request k) (task_log d) = None -> existsb (by_request k) (task_log d) = false.
Proof.
  rewrite tbl_first_None. intros Hn. destruct (existsb _ _) eqn:E; [|done].
  apply existsb_exists in E as (r & Hr & Hk). by rewrite Hn in Hk.
Qed.

Lemma writes_finish K k st v : In TaskLog K -> writes K (_finish_task_log k st v).
Proof.
  unfold _finish_task_log. intros Hk. apply writes_bind; [writes_step|]. intros now w. apply rtc_once. exists TaskLog. split; [done|apply write_outcome].
Qed.
Hint Resolve writes_finish : writes.

(** A new entry of the log, under a request id it does not hold. *)
Lemma writes_entry {B} K k (mk : string -> task_row) (h : W B) w :
  tbl_first (by_request k) (task_log (w_db w)) = None -> (forall now, tl_request_id (mk now) = k) -> In TaskLog K -> writes K h ->
  rtc (write_of K) (w_db w) (w_db (snd ((now ← _utc_now;
    _ ← modify (fun w => set_db (set_task_log (task_log (w_db w) ++ [mk now]) (w_db w)) w); h) w))).
Proof.
  intros E Hk HK Hh. unfold _utc_now, utc_now, mbind, M_bind. cbn. eapply rtc_l; [|apply Hh].
  cbn. exists TaskLog. split; [done|]. apply write_task. rewrite Hk. by apply tbl_first_fresh.
Qed.

Lemma writes_task_log K m p id fn st : In TaskLog K -> writes K fn -> writes K (with_task_log m p id fn st).
Proof.
  intros HK Hfn. unfold with_task_log. destruct id; [writes_step|..].
  all: match goal with |- context[str_id ?i] => generalize (str_id i) end; intros k w; rewrite reg_gets_bind.
  all: destruct (tbl_first _ _) as [r|] eqn:E; [done|].
  all: apply (writes_entry K k (fun now => mkTask k m p "in_progress" None now None)); [exact E|done|done|writes_step].
Qed.
Hint Resolve writes_task_log : writes.

(** *** Workloads *)

Lemma db_cgroup_apply c l : quiet w_db (apply_cgroup_limits c l).
Proof. unfold apply_cgroup_limits, docker_update, docker_bin. quiet_step. Qed.

Lemma db_lift_apply c o l : quiet w_db (lift_apply c o l).
Proof. pose proof (db_cgroup_apply c l). unfold lift_apply. quiet_step. Qed.

Lemma db_apply spec cid o acts w :
  build_actions_for_spec spec cid o = Ok acts -> w_db (snd (apply_actions_atomically acts w)) = w_db w.
Proof.
  intros E. assert (acts = [] \/ exists a b, acts = [CgroupLiftAction cid a b]) as Ha.
  { unfold build_actions_for_spec in E. destruct (List.filter _ _); [injection E as <-; by left|].
    apply res_bind_ok in E as (a & _ & E). apply res_bind_ok in E as (b & _ & E). injection E as <-.
    case_bool_decide; [by left|right; eauto]. }
  destruct Ha as [->|(a & b & ->)]; [done|]. unfold apply_actions_atomically. cbn [apply_loop a_apply CgroupLiftAction].
  pose proof (db_lift_apply cid a b w) as Hq. by destruct (lift_apply cid a b w) as [[p|e] w1].
Qed.

Lemma writes_revoke_row i st es : writes [TaskLog; Workloads] (revoke_row_actions i st es).
Proof.
  unfold revoke_row_actions. apply writes_bind; [|intros rs; writes_step].
  apply writes_quiet. intros w. pose proof (revert_lease_actions_db es w) as Hq.
  by destruct (revert_lease_actions es w).
Qed.

Lemma writes_grant_workload c id spec cid o acts :
  build_actions_for_spec spec cid o = Ok acts -> writes [TaskLog; Workloads] (grant_workload c id spec acts).
Proof.
  intros Hb. unfold grant_workload. apply writes_bind; [|intros oc; unfold assemble_lease; writes_step].
  apply writes_quiet. intros w. pose proof (db_apply spec cid o acts w Hb) as Hq. by destruct (apply_actions_atomically acts w).
Qed.

Lemma writes_register_workload p id c : writes [TaskLog; Workloads] (register_workload p id c).
Proof. unfold register_workload. writes_step. by eapply writes_grant_workload. Qed.

Lemma writes_release_workload p id c : writes [TaskLog; Workloads] (release_workload p id c).
Proof. pose proof writes_revoke_row. unfold release_workload, release_active. writes_step. Qed.
Hint Resolve writes_register_workload writes_release_workload : writes.

Lemma db_sighup c : quiet w_db (send_sighup c).
Proof. unfold send_sighup. quiet_step. Qed.
Hint Resolve db_sighup : quiet.

(** *** Clarifications and proxy rules *)

Lemma writes_register_clarification p id c : writes [TaskLog; Asking] (_register_clarification p id c).
Proof. unfold _register_clarification, register_clarification, record_clarification. writes_step. Qed.

Lemma writes_update_proxy p id c : writes [] (_update_proxy_allowlist p id c).
Proof. pose proof quiet_write_acl. unfold _update_proxy_allowlist, update_proxy_allowlist, apply_update. writes_step. Qed.

(** *** The broker *)

Section Broker.
Context (cfg : settings) `{!LawfulSecrets (secrets_backend cfg)}
  (storage_lawful : forall b, storage cfg = Some b -> LawfulStorage b).

Lemma db_remove_secret d n : quiet w_db (_remove_from_host_secret_dir d n).
Proof. unfold _remove_from_host_secret_dir, unlink_quiet, on_os_error. quiet_step. Qed.

Lemma db_unlink_each c ns : quiet w_db (remove_files c ns).
Proof. induction ns as [|n ns IH]; cbn [remove_files]; [done|]. unfold unlink_quiet, on_os_error. quiet_step. Qed.

Lemma db_write_files c fs : quiet w_db (write_files c fs).
Proof. induction fs as [|[n d] fs IH]; cbn [write_files]; [done|]. quiet_step. Qed.
Hint Resolve db_remove_secret db_unlink_each db_write_files quiet_load_policy quiet_running : quiet.

Lemma writes_release_capability p id c : writes [TaskLog; Revoking] (release_capability p id c).
Proof. unfold release_capability, release_owned, cleanup_secret, cleanup_aws, _remove_storage_credentials. writes_step. Qed.

Lemma writes_amendment_emit K k r c s t : In Amending K -> writes K (_emit_capability_amendment k r c s t).
Proof. intros. unfold _emit_capability_amendment. writes_step. Qed.

Hint Resolve writes_amendment_emit : writes.

Lemma writes_issue l c id k r reason ex extra : writes [TaskLog; Revoking; Amending; Grant] (issue_lease l c id k r reason ex extra).
Proof. unfold issue_lease. writes_step. Qed.
Hint Resolve writes_issue : writes.

Lemma writes_supersede c id reason : writes [TaskLog; Revoking; Amending; Grant] (supersede c id reason).
Proof.
  unfold supersede. apply writes_bind; [writes_step|]. intros n. revert id reason.
  induction n as [|n IH]; intros id reason; cbn [supersede_loop]; writes_step.
Qed.

Lemma writes_secret c id n src : writes [TaskLog; Revoking; Amending; Grant] (_handle_secret_request (secrets_backend cfg) c id n src).
Proof.
  assert (forall d, writes [TaskLog; Revoking; Amending; Grant] (sb_fetch (secrets_backend cfg) n d)) as Hf
    by (intros d; apply writes_outside; intros w; apply fetch_outside).
  unfold _handle_secret_request, fetch_secret, _materialize_to_host_secret_dir, materialization_failed, _materialize_secret.
  writes_step.
Qed.

Lemma writes_reach c id d p : writes [TaskLog; Revoking; Amending; Grant] (_handle_network_reach_request c id d p).
Proof.
  unfold _handle_network_reach_request, deny_reach, grant_reach, _materialize_network_reach, materialization_failed.
  writes_step.
Qed.

Lemma writes_grant_aws c id t sc k r cred : writes [TaskLog; Revoking; Amending; Grant] (grant_aws c id t sc k r cred).
Proof. unfold grant_aws, _materialize_storage_credentials, materialization_failed. writes_step. Qed.
Hint Resolve writes_supersede writes_secret writes_reach writes_grant_aws writes_release_capability : writes.

Lemma writes_storage c id b p m : writes [TaskLog; Revoking; Amending; Grant] (_handle_storage_request (storage cfg) c id b p m).
Proof.
  unfold _handle_storage_request. destruct (storage cfg) as [sb|] eqn:E; [|writes_step].
  pose proof (storage_lawful sb eq_refl) as Hl.
  assert (writes [TaskLog; Revoking; Amending; Grant] (mint sb c b p m)) as Hm by (apply writes_outside; intros w; apply mint_outside).
  unfold minting. writes_step.
Qed.

Lemma writes_provision c id acts : writes [TaskLog; Revoking; Amending; Grant] (_handle_provision_request (storage cfg) c id acts).
Proof.
  unfold _handle_provision_request. destruct (storage cfg) as [sb|] eqn:E; [|writes_step].
  pose proof (storage_lawful sb eq_refl) as Hl.
  assert (writes [TaskLog; Revoking; Amending; Grant] (mint_provision sb c acts)) as Hm
    by (apply writes_outside; intros w; apply mint_provision_outside).
  unfold minting. writes_step.
Qed.
Hint Resolve writes_storage writes_provision : writes.

Lemma writes_request_capability p id c : writes [TaskLog; Revoking; Amending; Grant] (request_capability (secrets_backend cfg) (storage cfg) p id c).
Proof. unfold request_capability. writes_step. Qed.
Hint Resolve writes_request_capability : writes.

(** *** The auditor *)

Lemma writes_auditor_action dry p id c : writes [TaskLog; DeskState] (auditor_action dry p id c).
Proof.
  unfold auditor_action, refuse_auditor, _execute_live, _live_stop_dock, _live_revoke_lease, _live_throttle_egress.
  pose proof quiet_write_acl. writes_step.
Qed.
Hint Resolve writes_auditor_action writes_register_clarification writes_update_proxy : writes.

End Broker.
End Handlers.

#[export] Hint Resolve writes_task_log writes_create_desk writes_spawn_child writes_destroy_desk writes_stop_desk
  writes_register_workload writes_release_workload writes_auditor_action writes_register_clarification writes_update_proxy
  : writes.
