(* ===== verification/DaemonInvariant.v ===== *)
(** What the daemon keeps over every sequence of requests and ticks of its sweeper. *)

From stdpp Require Import relations.
From S2P Require Import Prelude PyStr PyVal Datetime Registry RegistryFacts World Rpc WorldFacts Clarify Proxy Ceilings Overlay Container DeskSpec Desks Workload Storage Broker BrokerFacts BrokerGrants BrokerLeases DestroyFacts SpawnFacts Auditor AuditQuery Daemon Serve DaemonFacts.
From Stdlib Require Import List.

(** ** What each operation leaves alone *)

Ltac frame_op :=
  unfold update_state, insert_clarification, revoke_lease, revoke_where, insert_workload_lease, mark_workload_lease_revoked,
    create_amendment, create_drydock, update_drydock, delete_drydock, update_desk_delegations, insert_token, delete_token,
    revoke_leases_for_desk, insert_lease, log_event, revoke_where;
  repeat first [done | progress msimp | case_goal].

Lemma write_task_log k d d' : request_write k d d' ->
  task_log d' = task_log d
  \/ (exists r, existsb (by_request (tl_request_id r)) (task_log d) = false /\ task_log d' = task_log d ++ [r])
  \/ exists p st v now, task_log d' = tbl_update p (finish_row st v now) (task_log d).
Proof.
  destruct 1; [right; left; eauto|right; right; by eauto|..]; left; frame_op.
Qed.

(** A token that is on record after an operation was before, or has the scope of a desk. *)
Lemma write_tokens k d d' r : request_write k d d' -> In r (tokens d') -> In r (tokens d) \/ tk_scope r = "dock".
Proof.
  intros Hw. assert (tokens d' = tokens d \/ (exists p, tokens d' = tbl_delete p (tokens d))
    \/ exists i h t, tokens d' = tokens d ++ [mkToken i h t None "dock"]) as [->|[(p & ->)|(i & h & t & ->)]].
  - destruct Hw; try solve [left; frame_op].
    + unfold insert_token. msimp. destruct (existsb _ _); [by left|]. cbn. right. right. eauto.
    + right. left. unfold delete_token. msimp. eauto.
  - auto.
  - rewrite tbl_delete_In. intros [Hr _]. by left.
  - intros [Hr|[<-|[]]]%in_app_or; [by left|by right].
Qed.

(** Operations of other kinds than [Desk] leave names, ids, parents and configurations. *)
Lemma write_shape k d d' : k <> Desk -> request_write k d d' -> map shape_of (drydocks d') = map shape_of (drydocks d).
Proof.
  intros Hk. inversion 1; subst; try done; try solve [frame_op]. unfold update_state. rewrite modify_bind, gets_bind.
  case_goal; cbn; by apply (shape_update n [F_state st; F_updated_at now]).
Qed.

(** Only [insert_lease] adds a lease; the others leave every desk's count of AWS leases or lower it. *)
Lemma revoke_where_count desk p reason d :
  (aws_count desk (leases (snd (revoke_where p reason d))) <= aws_count desk (leases d))%nat.
Proof.
  pose proof (aws_revoke_where (aws_count desk (leases d)) desk p reason (set_db d empty_world)) as Hr.
  unfold aws_le, reg in Hr. cbn in Hr. specialize (Hr (le_n _)). by destruct (revoke_where p reason d).
Qed.

Lemma write_leases k d d' : k <> Grant -> request_write k d d' ->
  leases d' = leases d \/ exists p reason, leases d' = leases (snd (revoke_where p reason d)).
Proof.
  intros Hk Hw. destruct Hw; try done; try solve [left; frame_op]; right.
  - eexists _, _. unfold revoke_lease, mbind, M_bind. destruct (revoke_where _ _ d) as [[] ?] eqn:E; by rewrite E.
  - eexists _, _. reflexivity.
Qed.

(** Lease ids are unique, and a desk has one active AWS lease at most. *)
Definition leases_ok (b : db) : Prop :=
  NoDup (map lr_lease_id (leases b)) /\ forall desk, (aws_count desk (leases b) <= 1)%nat.

Lemma write_leases_ok k d d' : k <> Grant -> request_write k d d' -> leases_ok d -> leases_ok d'.
Proof.
  intros Hk Hw [Hn Ha]. unfold leases_ok. destruct (write_leases k d d' Hk Hw) as [->|(p & reason & E)]; [done|].
  rewrite E. split; [|intros desk; etransitivity; [apply revoke_where_count|apply Ha]].
  rewrite revoke_where_eq. cbn. by rewrite tbl_update_map.
Qed.

(** ** The kinds of operation of each method *)

Definition method_kinds (method : string) : list kind :=
  if existsb (String.eqb method) ["CreateDesk"; "SpawnChild"; "DestroyDesk"] then [TaskLog; DeskState; Desk]
  else if existsb (String.eqb method) ["StopDesk"; "AuditorAction"] then [TaskLog; DeskState]
  else if method =s "RequestCapability" then [TaskLog; Revoking; Amending; Grant]
  else if method =s "ReleaseCapability" then [TaskLog; Revoking]
  else if existsb (String.eqb method) ["RegisterWorkload"; "ReleaseWorkload"] then [TaskLog; Workloads]
  else if method =s "RegisterClarification" then [TaskLog; Asking]
  else [].

(** The method a request names, if any. *)
Definition method_of (payload : json) : string :=
  match _parse_request payload with Ok p => if p_notification p then "" else p_method p | Err _ => "" end.

Section Serve.
Context `{Env} (cfg : settings) `{!LawfulSecrets (secrets_backend cfg)}
  (storage_lawful : forall b, storage cfg = Some b -> LawfulStorage b).

Definition handler_of (m : string) : option MethodSpec := assoc m (_METHODS (daemon_handlers cfg)).

Lemma handler_writes m spec p id c : handler_of m = Some spec -> writes (method_kinds m) (handler spec p id c).
Proof.
  pose proof (writes_request_capability cfg storage_lawful). pose proof (writes_release_capability). 
  unfold handler_of, _METHODS. cbn [assoc].
  repeat (match goal with |- context[m =s ?k] => destruct (String.eqb_spec m k) as [->|_] end; [intros [= <-]; cbn [handler daemon_handlers
    h_create_desk h_destroy_desk h_spawn_child h_request_capability h_release_capability h_stop_desk h_list_desks
    h_list_children h_inspect_desk h_get_audit h_health h_whoami h_register_workload h_release_workload
    h_auditor_action h_register_clarification h_update_proxy_allowlist];
    unfold _create_desk, _destroy_desk, _spawn_child, _request_capability, _release_capability, _stop_desk, _list_desks,
    _list_children, _inspect_desk, _get_audit, _health, _whoami, _register_workload, _release_workload, _auditor_action,
    list_desks, list_children, inspect_desk, whoami, desk_not_found;
    match goal with |- writes ?k _ => let v := eval vm_compute in k in change k with v end|]).
  all: try done. all: writes_step.
Qed.

(** The keys of the method's row say which operations of the registry a request may call. *)
Lemma serve_request_writes payload w :
  rtc (write_of (if has_key (method_of payload) (_METHODS (daemon_handlers cfg)) then method_kinds (method_of payload) else []))
    (w_db w) (w_db (snd (serve_request cfg payload w))).
Proof.
  unfold serve_request, method_of, _dispatch. destruct (_parse_request payload) as [p|e]; [|done].
  destruct (p_notification p); [done|]. unfold has_key. fold (handler_of (p_method p)).
  destruct (handler_of (p_method p)) as [spec|] eqn:E; [|done].
  assert (writes (method_kinds (p_method p))
    (caller ← _resolve_caller spec (p_auth p); handler spec (p_params p) (p_id p) caller)) as Hw.
  { apply writes_bind; [unfold _resolve_caller; writes_step|]. intros c. by apply (handler_writes (p_method p)). }
  specialize (Hw w). match type of Hw with context[snd ?x] => by destruct x end.
Qed.


(** ** Sequences of requests and ticks of the sweeper *)

Lemma writes_sweep : writes [TaskLog; Workloads] sweep_tick.
Proof.
  unfold sweep_tick, sweep_expired_leases. apply writes_bind.
  - apply writes_catch; [|intros e; writes_step]. apply writes_bind; [|intros l; writes_step].
    apply writes_bind; [writes_step|]. intros t. apply writes_bind; [writes_step|]. intros rows.
    induction rows as [|r rows IH]; cbn [sweep_rows]; [writes_step|]. unfold sweep_row.
    apply writes_bind; [|intros s; apply writes_bind; [exact IH|intros; writes_step]].
    apply writes_lift. intros es _. apply writes_bind; [apply writes_revoke_row|]. intros [rs st]. writes_step.
  - intros [l|]; [|writes_step]. induction l as [|s l IH]; cbn [audit_each]; [writes_step|].
    apply writes_bind; [unfold audit_swept, quietly; writes_step|done].
Qed.

Inductive daemon_step (w : world) : world -> Prop :=
  | step_request payload : daemon_step w (snd (serve_request cfg payload w))
  | step_sweep : daemon_step w (snd (sweep_tick w)).

Lemma step_footprint w w' : daemon_step w w' -> exists K, rtc (write_of K) (w_db w) (w_db w').
Proof. intros [payload|]; eexists; [apply serve_request_writes|apply writes_sweep]. Qed.

Lemma footprint_tokens K d d' r :
  rtc (write_of K) d d' -> In r (tokens d') -> auditor_scope r = true -> In r (tokens d).
Proof.
  induction 1 as [|x y z (k & _ & Hs) _ IH]; [done|]. intros Hz Ha. specialize (IH Hz Ha).
  destruct (write_tokens _ _ _ r Hs IH) as [|Hd]; [done|]. unfold auditor_scope in Ha. by rewrite Hd in Ha.
Qed.

(** No sequence of requests, with the sweeper in between, makes a desk an auditor: a token with the auditor's scope on record
    after it was on record, unchanged, before it. *)
Theorem requests_never_designate w w' r :
  rtc daemon_step w w' -> In r (tokens (w_db w')) -> auditor_scope r = true -> In r (tokens (w_db w)).
Proof.
  induction 1 as [|w w1 w2 (K & Hp)%step_footprint _ IH]; [done|]. intros Hr Ha.
  eapply footprint_tokens; [exact Hp|by apply IH|done].
Qed.

(** The database is sound: keys, statuses and the single auditor of [db_ok], the family of desks, request
    ids of the task log, and one active AWS lease per desk. *)
Record daemon_ok (b : db) : Prop := mkDaemonOk {
  ok_integrity : db_ok b;
  ok_family : family b;
  ok_requests : NoDup (map tl_request_id (task_log b));
  ok_aws : forall desk, (aws_count desk (leases b) <= 1)%nat
}.

Lemma write_integrity k d d' : request_write k d d' -> db_ok d -> db_ok d'.
Proof.
  intros Hw Hd. destruct Hw; try by apply set_task_log_ok.
  all: eapply registry_step_ok; [constructor|exact Hd].
Qed.

Lemma write_requests k d d' : request_write k d d' ->
  NoDup (map tl_request_id (task_log d)) -> NoDup (map tl_request_id (task_log d')).
Proof.
  intros Hw Hd. destruct (write_task_log _ _ _ Hw) as [->|[(r & Hr & ->)|(p & st & v & now & ->)]]; [done| |].
  - apply tbl_append_NoDup; [done|]. intros x Hx E. apply (tbl_fresh _ _ Hr) in Hx. unfold by_request in Hx.
    by rewrite E, String.eqb_refl in Hx.
  - by rewrite tbl_update_map.
Qed.

(** What every operation keeps, every request keeps. *)
Lemma footprint_keeps (P : db -> Prop) K d d' :
  (forall k x y, In k K -> request_write k x y -> P x -> P y) -> rtc (write_of K) d d' -> P d -> P d'.
Proof. intros HP. induction 1 as [|x y z (k & Hk & Hs) _ IH]; [done|]. intros Hx. apply IH. by eapply HP. Qed.

Lemma writes_keep (P : db -> Prop) K {A} (m : W A) :
  (forall k x y, In k K -> request_write k x y -> P x -> P y) -> writes K m -> preserves (fun w => P (w_db w)) m.
Proof. intros HP Hm w. by apply (footprint_keeps P K). Qed.

(** The task log around a handler. *)
Section TaskLog.
Context (P : db -> Prop) (side : forall x y, request_write TaskLog x y -> P x -> P y).

Lemma finish_keeps k st v : preserves (fun w => P (w_db w)) (_finish_task_log k st v).
Proof. apply (writes_keep P [TaskLog]); [intros k' x y [<-|[]]; apply side|apply writes_finish; by left]. Qed.

Lemma entry_keeps {B} k (mk : string -> task_row) (h : W B) w :
  tbl_first (by_request k) (task_log (w_db w)) = None -> (forall now, tl_request_id (mk now) = k) ->
  preserves (fun w => P (w_db w)) h -> P (w_db w) ->
  P (w_db (snd ((now ← _utc_now;
    _ ← modify (fun w => set_db (set_task_log (task_log (w_db w) ++ [mk now]) (w_db w)) w); h) w))).
Proof.
  intros E Hk Hh Hw. unfold _utc_now, utc_now, mbind, M_bind. cbn. apply Hh. cbn. eapply side; [|exact Hw].
  apply write_task. rewrite Hk. by apply tbl_first_fresh.
Qed.

Lemma task_log_keeps m p id fn st :
  preserves (fun w => P (w_db w)) fn -> preserves (fun w => P (w_db w)) (with_task_log m p id fn st).
Proof.
  intros Hfn. unfold with_task_log. destruct id; [apply preserves_throw|..].
  all: match goal with |- context[str_id ?i] => generalize (str_id i) end; intros k;
    apply preserves_gets_bind; intros w Hw; destruct (tbl_first _ _) as [r|] eqn:E; [exact Hw|].
  all: apply (entry_keeps k (fun now => mkTask k m p "in_progress" None now None)); [exact E|done| |done].
  all: apply preserves_bind; [apply preserves_catch; [done|]|
    intros v; apply preserves_bind; [apply finish_keeps|intros; apply preserves_ret]].
  all: intros []; try apply preserves_throw; apply preserves_bind; [apply finish_keeps|intros; apply preserves_throw].
Qed.
End TaskLog.

(** A desk handler of the table, under the task log. *)
Lemma family_write k x y : k <> Desk -> request_write k x y -> family x -> family y.
Proof. intros Hk Hw. apply family_shape. by apply (write_shape k). Qed.

Lemma handler_family m spec p id c :
  handler_of m = Some spec -> preserves (fun w => family (w_db w)) (handler spec p id c).
Proof.
  intros Hh. destruct (existsb (String.eqb m) ["CreateDesk"; "SpawnChild"; "DestroyDesk"]) eqn:Em.
  - apply existsb_exists in Em as (k & Hk & ->%String.eqb_eq). unfold handler_of in Hh.
    cbn in Hk. destruct_or! Hk; try done; subst k; cbn in Hh; injection Hh as <-; cbn [handler];
      apply task_log_keeps; try (intros x y; by apply family_write); intros w.
    + apply family_create.
    + apply family_spawn.
    + apply destroy_desk_family.
  - apply (writes_keep family (method_kinds m)); [|by apply handler_writes].
    intros k x y Hk. apply family_write. intros ->. revert Hk. unfold method_kinds. rewrite Em.
    repeat case_match; cbn; intuition discriminate.
Qed.

Lemma handler_leases m spec p id c :
  handler_of m = Some spec -> preserves (fun w => leases_ok (w_db w)) (handler spec p id c).
Proof.
  intros Hh. destruct (m =s "RequestCapability") eqn:Em.
  - apply String.eqb_eq in Em as ->. unfold handler_of in Hh. cbn in Hh. injection Hh as <-. cbn [handler].
    apply task_log_keeps; [intros x y; by apply write_leases_ok|]. intros w.
    apply (broker_step_inv (secrets_backend cfg) (storage cfg) storage_lawful). constructor.
  - apply (writes_keep leases_ok (method_kinds m)); [|by apply handler_writes].
    intros k x y Hk. apply write_leases_ok. intros ->. revert Hk. unfold method_kinds. rewrite Em.
    repeat case_match; cbn; intuition discriminate.
Qed.

Lemma dispatch_keeps (P : db -> Prop) payload :
  (forall m spec p id c, handler_of m = Some spec -> preserves (fun w => P (w_db w)) (handler spec p id c)) ->
  forall w, P (w_db w) -> P (w_db (snd (serve_request cfg payload w))).
Proof.
  intros Hh w Hw. unfold serve_request, _dispatch. destruct (_parse_request payload) as [p|e]; [|done].
  destruct (p_notification p); [done|]. fold (handler_of (p_method p)).
  destruct (handler_of (p_method p)) as [spec|] eqn:E; [|done].
  assert (preserves (fun w => P (w_db w))
    (caller ← _resolve_caller spec (p_auth p); handler spec (p_params p) (p_id p) caller)) as Hp.
  { apply preserves_bind; [|intros c; by apply (Hh (p_method p))]. apply (quiet_preserves w_db P). unfold _resolve_caller. quiet_step. }
  specialize (Hp w Hw). match type of Hp with context[snd ?x] => by destruct x end.
Qed.

(** C1: The daemon keeps its database sound over every sequence of requests and ticks of the sweeper, the requests
    well formed or not, by any callers, granted or refused, whatever subprocesses answer and wherever an operation fails: unique
    keys, declared statuses and one auditor at most; a forest of desks without a cycle or an orphan; one
    entry of the task log per request id; and one active AWS lease per desk at most. *)
Theorem daemon_keeps_database_sound w w' : rtc daemon_step w w' -> daemon_ok (w_db w) -> daemon_ok (w_db w').
Proof.
  induction 1 as [|w w1 w2 Hs _ IH]; [done|]. intros [Hi Hf Hr Ha]. apply IH.
  assert (leases_ok (w_db w1) /\ family (w_db w1)) as [[_ Ha'] Hf'].
  { destruct Hs as [payload|]; split.
    - apply (dispatch_keeps leases_ok); [apply handler_leases|]. split; [apply Hi|done].
    - apply (dispatch_keeps family); [apply handler_family|done].
    - apply (writes_keep leases_ok [TaskLog; Workloads]); [intros k x y [<-|[<-|[]]]; by apply write_leases_ok|apply writes_sweep|].
      split; [apply Hi|done].
    - apply (writes_keep family [TaskLog; Workloads]); [intros k x y [<-|[<-|[]]]; by apply family_write|apply writes_sweep|done]. }
  destruct (step_footprint _ _ Hs) as (K & Hp). split; [|exact Hf'| |exact Ha'].
  - exact (footprint_keeps db_ok _ _ _ (fun k x y _ => write_integrity k x y) Hp Hi).
  - exact (footprint_keeps (fun b => NoDup (map tl_request_id (task_log b))) _ _ _ (fun k x y _ => write_requests k x y) Hp Hr).
Qed.
End Serve.

(** ** A desk spawned and its parent destroyed, by request *)

#[local] Instance daemon_env : Env := SpawnFacts.spawn_env.

Definition dry_cfg : settings := mkSettings FileBackend None true 1.

Lemma no_storage_lawful b : storage dry_cfg = Some b -> LawfulStorage b.
Proof. discriminate. Qed.

Definition request (method auth : string) (id : Z) (params : json) : json :=
  JObj [("jsonrpc", JStr "2.0"); ("method", JStr method); ("params", params); ("id", JInt id); ("auth", JStr auth)].

Definition spawn_payload : json := request "SpawnChild" "2" 1 spawn_d.
Definition destroy_payload : json := request "DestroyDesk" "1" 2 destroy_a.

Definition after_spawn : world := snd (serve_request dry_cfg spawn_payload spawn_world).
Definition after_destroy : world := snd (serve_request dry_cfg destroy_payload (snd (sweep_tick after_spawn))).

Lemma demo_run : rtc (daemon_step dry_cfg) spawn_world after_destroy.
Proof. eapply rtc_l; [apply (step_request _ _ spawn_payload)|]. eapply rtc_l; [apply step_sweep|]. apply rtc_once, step_request. Qed.

Lemma spawn_world_ok : daemon_ok (w_db spawn_world).
Proof.
  split; [|exact family_db_ok|constructor|intros desk; cbn; lia]. constructor; try solve [constructor].
  4: by intros r r' [<-|[<-|[]]] [<-|[<-|[]]].
  all: cbn; repeat constructor; cbn; intuition discriminate.
Qed.


Lemma daemon_keeps_database_sound_witness :
  map (fun r => name (dr_dock r)) (drydocks (w_db after_destroy)) = ["c"]
  /\ map tl_status (task_log (w_db after_destroy)) = ["completed"; "completed"] /\ daemon_ok (w_db after_destroy).
Proof.
  split; [vm_compute; reflexivity|]. split; [vm_compute; reflexivity|].
  apply (daemon_keeps_database_sound dry_cfg no_storage_lawful spawn_world); [exact demo_run|exact spawn_world_ok].
Defined.

(** A harbor with an auditor, and a desk that asks for the role. *)
Definition auditor_token : token_row := mkToken "dock_c" "h9" "t" None "auditor".
Definition audited_world : world :=
  set_db (set_tokens (auditor_token :: tokens family_db) family_db) spawn_world.
Definition role_payload : json :=
  request "SpawnChild" "2" 1 (JObj [("project", JStr "proj"); ("name", JStr "d"); ("role", JStr "auditor")]).
Definition audited_world' : world := snd (serve_request dry_cfg role_payload audited_world).

Lemma requests_never_designate_witness :
  In auditor_token (tokens (w_db audited_world')) /\ In auditor_token (tokens (w_db audited_world)).
Proof.
  assert (In auditor_token (tokens (w_db audited_world'))) as Hin by (vm_compute; by left). split; [exact Hin|].
  apply (requests_never_designate dry_cfg no_storage_lawful audited_world audited_world'); [|exact Hin|reflexivity].
  apply rtc_once. apply step_request.
Defined.
