(* ===== verification/ServeFacts.v ===== *)
(** The start of the daemon: a configuration that loads is one it can start with, and the start leaves nothing
    in progress and the rest of the database sound. *)

From stdpp Require Import relations.
From S2P Require Import Prelude PyStr PyVal Datetime Registry RegistryFacts World Rpc WorldFacts RpcFacts Overlay Container ProjectConfig Snapshot DeskSpec Desks Workload Storage BrokerLeases DestroyFacts SpawnFacts Recovery RecoveryFacts SnapshotFacts Migration MigrationExec MigrationRecovery MigrationFacts MigrationRecoveryFacts DaemonConfig Daemon Serve DaemonFacts DaemonInvariant.
From Stdlib Require Import List.

(** ** The configuration *)

(** What the start relies on. *)
Record config_ok (c : WsdConfig) : Prop := mkConfigOk {
  co_secrets : cf_secrets_backend c = "file";
  co_storage : cf_storage_backend c = None \/ cf_storage_backend c = Some "stub"
    \/ cf_storage_backend c = Some "sts" /\ exists arn, cf_role_arn c = Some arn /\ arn <> "";
  co_profile : cf_source_profile c <> "";
  co_duration : 0 < cf_session_duration c
}.

Lemma nonempty_text_ok m v s : nonempty_text m v = Ok s -> v = JStr s /\ s <> "".
Proof.
  destruct v; try discriminate. cbn. destruct (is_empty s0) eqn:E; [discriminate|]. intros [= <-].
  split; [done|]. by intros ->.
Qed.

Lemma known_ok w l s t : known w l s = Ok t -> t = s /\ In s l.
Proof.
  unfold known. destruct (existsb _ l) eqn:E; [|discriminate]. intros [= <-]. split; [done|].
  apply existsb_exists in E as (x & Hx & Heq%String.eqb_eq). by subst.
Qed.

Lemma positive_int_ok m v n : positive_int m v = Ok n -> 0 < n.
Proof.
  destruct v as [|[]|z| | | |]; try discriminate; cbn; [by intros [= <-]|].
  destruct (z <=? 0) eqn:E; [discriminate|]. intros [= <-]. by apply Z.leb_gt in E.
Qed.

Lemma opt_text_ok m v o : opt_text m v = Ok o -> o = None \/ exists s, o = Some s /\ s <> "".
Proof.
  destruct v; cbn [opt_text]; try (intros (s' & [_ Hs]%nonempty_text_ok & [= <-])%res_bind_ok; eauto); intros [= <-]; auto.
Qed.

Lemma storage_section_ok path secrets st c :
  secrets = "file" -> storage_section path secrets st = Ok c -> config_ok c.
Proof.
  intros -> Hc. unfold storage_section in Hc.
  apply res_bind_ok in Hc as (b0 & _ & (b & Hb & (r & Hr%opt_text_ok & (p & [_ Hp]%nonempty_text_ok
    & (d & Hd%positive_int_ok & Hc)%res_bind_ok)%res_bind_ok)%res_bind_ok)%res_bind_ok).
  assert (b = None \/ b = Some "sts" \/ b = Some "stub") as Hk.
  { destruct b0 as [b0|]; [|injection Hb as <-; auto].
    apply res_bind_ok in Hb as (x & [-> Hin]%known_ok & [= <-]). cbn in Hin. intuition congruence. }
  destruct (_ && _) eqn:E; [discriminate|]. injection Hc as <-. split; cbn; try done.
  destruct Hk as [-> | [-> | ->]]; auto. right. right. split; [done|]. cbn in E.
  destruct Hr as [-> | (s & -> & Hs)]; [discriminate|]. eauto.
Qed.

Lemma config_of_ok path data c : config_of path data = Ok c -> config_ok c.
Proof.
  unfold config_of. intros (s & Hs & Hc)%res_bind_ok. assert (s = "file") as ->.
  { unfold secrets_section in Hs. destruct (jget_default _ _ data); try discriminate.
    apply res_bind_ok in Hs as (x & _ & [-> Hin]%known_ok). cbn in Hin. intuition congruence. }
  destruct (jget "storage" data); try discriminate; [|by eapply storage_section_ok].
  injection Hc as <-. split; cbn; auto; done.
Qed.

Lemma default_config_ok : config_ok default_config.
Proof. split; cbn; auto; done. Qed.

Section Start.
Context `{Env, TarGz} (stub_expiration : datetime) (toml_load : string -> option obj).

Lemma load_config_ok path c w w' : load_wsd_config toml_load path w = (Ok c, w') -> config_ok c.
Proof.
  unfold load_wsd_config, path_exists. rewrite gets_bind. destruct (is_some _); cbn [negb].
  - intros [(text & w1 & _ & E)|(e & _ & [=])]%bind_inv. destruct (toml_load text) as [data|]; [|discriminate E].
    injection E as E _. by eapply config_of_ok.
  - intros [= <- _]. apply default_config_ok.
Qed.

Lemma storage_builds c : config_ok c -> exists o, serve_storage stub_expiration c = Ok o.
Proof.
  intros [_ Hs _ _]. unfold serve_storage. destruct Hs as [-> | [-> | [-> (arn & -> & Hn)]]]; cbn; [eauto..|].
  destruct (is_empty arn) eqn:E; [by apply is_empty_true in E|]. cbn. eauto.
Qed.

(** A configuration that loads is one the daemon can start with: its secrets backend and its storage
    backend are built without an error, at the start and by every request, and the session duration is a positive
    number, the profile a text that is not empty. Every other configuration is refused before the start. *)
Theorem loaded_config_builds path c w w' : load_wsd_config toml_load path w = (Ok c, w') ->
  build_backend (cf_secrets_backend c) = Ok FileBackend
  /\ (exists o, serve_storage stub_expiration c = Ok o /\ forall b, o = Some b -> LawfulStorage b)
  /\ cf_source_profile c <> "" /\ 0 < cf_session_duration c.
Proof.
  intros Hc%load_config_ok. pose proof Hc as [Hs _ Hp Hd]. split; [by rewrite Hs|]. split; [|done].
  destruct (storage_builds c Hc) as (o & Ho). exists o. split; [done|]. intros b ->.
  unfold serve_storage in Ho. destruct (cf_storage_backend c) as [n|]; [|discriminate]. destruct (is_empty n); [discriminate|].
  apply res_bind_ok in Ho as (s & Hb & [= <-]). unfold build_storage_backend in Hb.
  destruct (n =s "sts"); [destruct (is_empty _); [discriminate|]|destruct (n =s "stub"); [|discriminate]];
    injection Hb as <-; apply _.
Qed.

(** ** The start *)

#[local] Hint Resolve writes_finish : writes.

Lemma writes_recover : writes [TaskLog; DeskState; Desk] recover_in_progress.
Proof.
  unfold recover_in_progress. apply writes_bind; [writes_step|]. intros rows.
  induction rows as [|r rows IH]; cbn [recover_rows]; [writes_step|].
  apply writes_bind; [|intros a; apply writes_bind; [exact IH|intros; writes_step]].
  pose proof writes_destroy_tree as Ht.
  unfold recover_row, recover_unknown, recover_destroy, recover_create, _rollback_partial_create,
    _remove_worktree_best_effort, _remove_overlay_best_effort, delete_desk_row. writes_step.
Qed.
(** What the operations of a desk and the record of a migration keep, the recovery of migrations keeps. *)
Section MigrationsKeep.
Context (P : db -> Prop) (desk : forall x y, request_write Desk x y -> P x -> P y)
  (record : forall i a b c e f x, P x -> P (snd (update_migration i a b c e f x))).

Lemma quiet_keeps {A} (m : W A) : quiet w_db m -> preserves (fun w => P (w_db w)) m.
Proof. apply quiet_preserves. Qed.

Lemma end_recovered_keeps i st err : preserves (fun w => P (w_db w)) (end_recovered i st err).
Proof.
  unfold end_recovered, mg_update. apply preserves_bind; [by apply quiet_keeps|]. intros now w Hw. unfold reg.
  pose proof (record i (Some (status_value st)) None None (Some (JObj err)) (Some now) _ Hw) as Hr.
  by destruct (update_migration _ _ _ _ _ _ _).
Qed.

Lemma touch_keeps n fs : preserves (fun w => P (w_db w)) (touch_drydock n fs).
Proof.
  unfold touch_drydock. apply preserves_bind; [by apply quiet_keeps|]. intros now w Hw. unfold reg.
  pose proof (desk _ _ (write_drydock now n fs (w_db w)) Hw) as Hr. by destruct (update_drydock _ _ _ _).
Qed.

Lemma recover_migrations_keeps : preserves (fun w => P (w_db w)) recover_in_progress_migrations.
Proof.
  unfold recover_in_progress_migrations. apply preserves_bind; [by apply quiet_keeps|]. intros rows.
  induction rows as [|r rows IH]; cbn [recover_migrations]; [apply preserves_ret|].
  apply preserves_bind; [|intros [a b]; apply preserves_bind; [exact IH|intros []; apply preserves_ret]].
  unfold recover_migration. apply preserves_bind.
  - unfold try_rollback. destruct (mg_snapshot r) as [p|]; [|apply preserves_ret]. destruct (is_empty p); [apply preserves_ret|].
    apply preserves_bind; [by apply quiet_keeps|]. intros found. destruct (negb found); [apply preserves_ret|].
    apply preserves_catch; [|intros; apply preserves_ret].
    apply preserves_bind; [|intros _; apply preserves_bind; [apply end_recovered_keeps|intros; apply preserves_ret]].
    unfold _rollback_migration_from_snapshot. apply preserves_bind; [apply quiet_keeps, db_restore|]. intros m.
    unfold restore_image_by_id. apply preserves_bind; [apply preserves_lift|]. intros prior.
    apply preserves_bind; [apply preserves_lift|]. intros [|]; [|apply preserves_ret].
    apply preserves_bind; [by apply quiet_keeps|]. intros [d|]; [|apply preserves_ret].
    apply preserves_bind; [apply preserves_lift|]. intros v. apply preserves_bind; [apply preserves_lift|]. intros t.
    apply preserves_bind; [apply touch_keeps|intros; apply preserves_ret].
  - intros [u|err]; [apply preserves_ret|]. apply preserves_bind; [apply end_recovered_keeps|intros; apply preserves_ret].
Qed.
End MigrationsKeep.

(** The part of [daemon_ok] that a restart keeps: the recovery of a request may take the row of a desk and leave its
    children. *)
Record settled (b b' : db) : Prop := mkSettled {
  st_integrity : db_ok b';
  st_requests : NoDup (map tl_request_id (task_log b'));
  st_leases : leases_ok b';
  st_auditors : forall r, In r (tokens b') -> auditor_scope r = true -> In r (tokens b)
}.

Lemma settled_write b k x y : k <> Grant -> request_write k x y -> settled b x -> settled b y.
Proof.
  intros Hk Hw [Hi Hr Hl Ha]. split.
  - by eapply write_integrity.
  - by eapply write_requests.
  - by eapply (write_leases_ok k).
  - intros r Hin Hs. apply Ha; [|done]. destruct (write_tokens _ _ _ r Hw Hin) as [|Hd]; [done|].
    unfold auditor_scope in Hs. by rewrite Hd in Hs.
Qed.

Lemma settled_writes b x y : rtc (write_of [TaskLog; DeskState; Desk]) x y -> settled b x -> settled b y.
Proof.
  induction 1 as [|x y z (k & Hk & Hw) _ IH]; [done|]. intros Hx. apply IH. eapply (settled_write _ k); [|exact Hw|exact Hx].
  by destruct Hk as [<-|[<-|[<-|[]]]].
Qed.

Lemma settled_record b i a s c e f x : settled b x -> settled b (snd (update_migration i a s c e f x)).
Proof.
  intros [Hi Hr Hl Ha].
  assert (forall A (g : db -> A), (forall t d, g (set_migrations t d) = g d) -> g (snd (update_migration i a s c e f x)) = g x) as Hg.
  { intros A g Hg. unfold update_migration. msimp. repeat case_goal; cbn; auto. }
  split; [eapply registry_step_ok; [constructor|exact Hi]|..].
  - by rewrite (Hg _ task_log).
  - unfold leases_ok. by rewrite (Hg _ leases).
  - intros r. rewrite (Hg _ tokens) by done. auto.
Qed.
Definition none_open (b : db) : Prop := forall r, In r (task_log b) -> in_progress r = false.

Lemma none_open_desk x y : request_write Desk x y -> none_open x -> none_open y.
Proof. intros Hw Hx. assert (task_log y = task_log x) as E by (inversion Hw; subst; frame_op). intros r. rewrite E. apply Hx. Qed.

Lemma none_open_record i a s c e f x : none_open x -> none_open (snd (update_migration i a s c e f x)).
Proof.
  intros Hx. assert (task_log (snd (update_migration i a s c e f x)) = task_log x) as E
    by (unfold update_migration; msimp; repeat case_goal; done).
  intros r. rewrite E. apply Hx.
Qed.

(** The last step: old entries that have ended leave the task log. *)
Lemma sweep_task_log_run w : (forall n, us_per_day <= dt_us (clock n)) ->
  exists n w', sweep_task_log w = (Ok n, w') /\ (w_host w' = w_host w /\ w_fsops w' = w_fsops w)
    /\ exists p, w_db w' = set_task_log (tbl_delete p (task_log (w_db w))) (w_db w).
Proof.
  intros Hc. unfold sweep_task_log. unfold utc_now, mbind, M_bind, reg, evict_old_task_log, add_seconds. cbn [w_db].
  set (t := clock (w_ticks w)). destruct (clock_ok (w_ticks w)) as [Hv _]. fold t in Hv. unfold dt_valid in Hv.
  assert ((0 <=? dt_us t + - (3600 * TASK_LOG_HOURS) * 1000000)
    && (dt_us t + - (3600 * TASK_LOG_HOURS) * 1000000 <? max_days * us_per_day) = true) as ->.
  { specialize (Hc (w_ticks w)). fold t in Hc. unfold TASK_LOG_HOURS, us_per_day in *. apply andb_true_iff.
    rewrite Z.leb_le, Z.ltb_lt. lia. }
  eexists _, _. split; [reflexivity|]. split; [done|]. eexists. reflexivity.
Qed.

Lemma settled_evict b x p : settled b x -> settled b (set_task_log (tbl_delete p (task_log x)) x).
Proof.
  intros [Hi Hr Hl Ha]. split; [by apply set_task_log_ok| |done|done]. cbn. by apply tbl_delete_NoDup.
Qed.

(** The socket's path can be cleared: neither operation fails and it is no directory. *)
Definition socket_clear (p : string) (w : world) : Prop :=
  fs_fault (w_fsops w) = None /\ fs_fault (S (w_fsops w)) = None /\ mk_dirs (path_parent p) (w_host w) !! p <> Some NDir.

Lemma clear_socket_run p w : socket_clear p w ->
  exists w', clear_socket p w = (Ok tt, w') /\ w_db w' = w_db w /\ at_path p w' = None.
Proof.
  intros (F1 & F2 & Hn). unfold clear_socket, mkdir_p, path_exists, host_unlink, host_at, fs_op, mbind, M_bind, gets, modify, at_path.
  rewrite F1. cbn. destruct (mk_dirs (path_parent p) (w_host w) !! p) as [[|d]|] eqn:E; cbn; [done| |by eexists].
  rewrite F2. cbn. rewrite E. eexists. split; [done|]. split; [done|]. apply lookup_delete_eq.
Qed.

(** The world in which the recovery begins, and the one in which it has ended. *)
Definition cleared (p : string) (w : world) : world := snd (clear_socket p w).
Definition recovered (p : string) (w : world) : world :=
  snd ((_ ← recover_in_progress; recover_in_progress_migrations) (cleared p w)).

(** A socket can be bound: its path is no longer than the system allows and can be cleared; what the recovery does to
    the host's files does not concern the path and its directories; and the operation itself does not fail. *)
Record socket_ready (p : string) (w : world) : Prop := mkSocketReady {
  sr_length : (String.length p < 108)%nat;
  sr_clear : socket_clear p w;
  sr_spared : at_path p (recovered p w) = at_path p (cleared p w);
  sr_dirs : forall q, In q (path_chain (path_parent p)) -> at_path q (recovered p w) = Some NDir;
  sr_fault : fs_fault (w_fsops (recovered p w)) = None
}.

(** The bind, where nothing is in its way; and the mode. *)
Lemma bind_socket_run p w : (String.length p < 108)%nat -> fs_fault (w_fsops w) = None -> at_path p w = None ->
  (forall q, In q (path_chain (path_parent p)) -> at_path q w = Some NDir) ->
  exists w', bind_socket p w = (Ok tt, w') /\ w_db w' = w_db w /\ at_path p w' = Some (NFile "").
Proof.
  intros Hl Hf Hp Hd. unfold bind_socket. rewrite (proj2 (Nat.leb_gt _ _) Hl).
  unfold fs_op, mbind, M_bind, gets, modify. rewrite Hf. cbn. unfold at_path in *. rewrite Hp. cbn.
  assert (forallb (fun q => is_ndir (w_host w !! q)) (path_chain (path_parent p)) = true) as ->.
  { apply forallb_forall. intros q Hq. by rewrite (Hd q Hq). }
  eexists. split; [done|]. split; [done|]. apply lookup_insert_eq.
Qed.

Lemma chmod_socket_run w : exists w', chmod_socket w = (Ok tt, w') /\ state_view w' = state_view w.
Proof.
  unfold chmod_socket, catch, fs_op. destruct (fs_fault (w_fsops w)) as [[b m]|]; [destruct b|]; by eexists.
Qed.

(** C21: With any configuration that loads, the daemon starts, whatever a crash left behind (a stale socket file
    too) and whatever docker and the
    files answer to the recovery: when it begins to listen its socket is bound, no request and no migration is in progress, the
    keys, the statuses and the single auditor of the database and the one active AWS lease per desk are as
    sound as before the crash, and no auditor is new. Provided that the database was sound, that the socket's path is
    not too long, is no directory and can be cleared and bound without a fault of the file
    system, the recovery leaving that path and its directories alone ([socket_ready]), and that the
    clock is past the first day of its epoch. *)
Theorem start_settles_everything c dry_run pid socket w :
  (exists path w0 w1, load_wsd_config toml_load path w0 = (Ok c, w1)) -> daemon_ok (w_db w) -> socket_ready socket w ->
  (forall n, us_per_day <= dt_us (clock n)) ->
  exists s w', serve stub_expiration socket dry_run pid c w = (Ok s, w') /\ at_path socket w' = Some (NFile "")
    /\ none_open (w_db w') /\ (forall r, In r (migs w') -> stalled r = false) /\ settled (w_db w) (w_db w').
Proof.
  intros (path & w0 & w00 & Hc%load_config_ok) [Hi Hf Hr Ha] [Hl Hs Hsp Hdir Hflt] Ht.
  destruct (storage_builds c Hc) as (o & Eo). unfold serve. rewrite lift_bind, Eo. unfold recovered, cleared in *.
  destruct (clear_socket_run _ _ Hs) as (w1 & E1 & D1 & N1). rewrite (bind_ok _ _ _ _ _ E1). rewrite E1 in *. cbn [snd] in *.
  assert (settled (w_db w) (w_db w1)) as S1 by (rewrite D1; split; auto; split; [apply Hi|done]).
  rewrite <- D1 in Hf, Hr, Hi.
  destruct (recover_leaves_none_open w1 Hf Hr) as (rep & w2 & E2 & O2). rewrite (bind_ok _ _ _ _ _ E2).
  pose proof (writes_recover w1) as W2. rewrite E2 in W2. cbn [snd] in W2.
  pose proof (settled_writes _ _ _ W2 S1) as S2.
  assert (List.NoDup (mg_ids (migs w2))) as Hm by apply (ok_mg _ (st_integrity _ _ S2)).
  destruct (recover_migrations_closes w2) as (a & b & w3 & E3 & C3 & _). destruct (C3 Hm) as [O3 _]. rewrite (bind_ok _ _ _ _ _ E3).
  pose proof (recover_migrations_keeps (settled (w_db w)) (fun x y => settled_write _ Desk x y ltac:(done)) (settled_record _) w2 S2) as S3.
  pose proof (recover_migrations_keeps none_open none_open_desk none_open_record w2 O2) as N3.
  rewrite E3 in S3, N3. cbn [snd] in S3, N3.
  assert (snd ((_ ← recover_in_progress; recover_in_progress_migrations) w1) = w3) as Er by (by rewrite (bind_ok _ _ _ _ _ E2), E3).
  rewrite Er in *. rewrite N1 in Hsp.
  destruct (sweep_task_log_run w3 Ht) as (n & w4 & E4 & (V4 & V4') & p & D4). rewrite (bind_ok _ _ _ _ _ E4).
  destruct (bind_socket_run socket w4 Hl) as (w5 & E5 & D5 & P5); [by rewrite V4'|by unfold at_path; rewrite V4|
    intros q Hq; unfold at_path; rewrite V4; by apply Hdir|]. rewrite (bind_ok _ _ _ _ _ E5).
  destruct (chmod_socket_run w5) as (w6 & E6 & V6). rewrite (bind_ok _ _ _ _ _ E6). injection V6 as D6 _ H6.
  rewrite lift_bind, (co_secrets c Hc). eexists _, w6. split; [reflexivity|].
  assert (w_db w6 = set_task_log (tbl_delete p (task_log (w_db w3))) (w_db w3)) as D by congruence. split_and!.
  - unfold at_path in *. by rewrite H6.
  - intros r. rewrite D. cbn. rewrite tbl_delete_In. intros [Hin _]. by apply N3.
  - intros r Hin. apply O3. unfold migs in *. by rewrite D in Hin.
  - rewrite D. by apply settled_evict.
Qed.
End Start.

(** ** A daemon that starts after a crash, with an STS backend *)

Definition demo_toml (_ : string) : option obj :=
  Some [("storage", JObj [("backend", JStr "sts"); ("role_arn", JStr "arn:aws:iam::1:role/agent");
                          ("session_duration_seconds", JInt 900)])].

Definition dawn : datetime := mkDatetime 0 true.

Definition config_world : world := set_host {["/d.toml" := NFile "[storage]"]} empty_world.

Definition sts_config : WsdConfig :=
  mkWsdConfig "file" (Some "sts") (Some "arn:aws:iam::1:role/agent") "drydock-runner" 900.

Lemma sts_loads : exists w', load_wsd_config (H := demo_env) demo_toml "/d.toml" config_world = (Ok sts_config, w').
Proof. eexists. vm_compute. reflexivity. Qed.

Lemma loaded_config_builds_witness : 0 < cf_session_duration sts_config /\ exists o,
  serve_storage (H := demo_env) dawn sts_config = Ok o /\ forall b, o = Some b -> LawfulStorage b.
Proof.
  destruct sts_loads as (w' & E). destruct (loaded_config_builds (H := demo_env) dawn demo_toml _ _ _ _ E) as (_ & Ho & _ & Hd).
  split; [exact Hd|exact Ho].
Defined.

Definition restart_world : world :=
  set_db (set_migrations [stalled_row "mig_2" None] (w_db crashed_world)) crashed_world.

Lemma restart_ok : daemon_ok (w_db restart_world).
Proof.
  assert (family (w_db restart_world)) as Hf by (destruct crashed_family as [A B C D]; by split).
  split; [|exact Hf| |intros desk; cbn; lia].
  - apply set_migrations_ok; [apply set_task_log_ok, spawn_world_ok|..]; repeat constructor. by intros [].
  - cbn. repeat constructor; cbn; intuition discriminate.
Qed.

(** The crash left the socket file behind. *)
Definition stale_world : world :=
  set_host (<["/root/.drydock/run/daemon.sock" := NFile ""]> (w_host restart_world)) restart_world.

Lemma start_settles_everything_witness : exists s w',
  serve (H := demo_env) dawn "/root/.drydock/run/daemon.sock" false 7 sts_config stale_world = (Ok s, w')
  /\ at_path "/root/.drydock/run/daemon.sock" w' = Some (NFile "") /\ none_open (w_db w').
Proof.
  destruct sts_loads as (w1 & E).
  destruct (start_settles_everything (H := demo_env) dawn demo_toml sts_config false 7 "/root/.drydock/run/daemon.sock" stale_world)
    as (s & w' & Es & Hp & Hn & _).
  - eauto.
  - exact restart_ok.
  - split; [cbn; lia|split; [reflexivity|split; [reflexivity|vm_compute; discriminate]]|vm_compute; reflexivity| |reflexivity].
    intros q Hq. cbn in Hq. destruct_or! Hq; try done; subst q; vm_compute; reflexivity.
  - intros n. cbn. pose proof (Z.mod_pos_bound (Z.of_nat n) 86400 ltac:(lia)). unfold us_per_day. lia.
  - exists s, w'. split; [exact Es|]. split; [exact Hp|exact Hn].
Defined.
