(* ===== verification/RoleValidator.v ===== *)
(** [core/auditor/role_validator.py]: what a project of role [auditor] may declare. The values are
    those the YAML file holds, so a value of the wrong type raises where the code meets it. *)

From S2P Require Import Prelude PyStr PyVal ProjectConfig.
From Stdlib Require Import List.
From Corelib Require Import SpecFloat.

Definition _ALLOWED_FIREWALL_DOMAINS : list string := ["api.anthropic.com"; "api.telegram.org"].
Definition _APPROVED_IMAGE_PREFIXES : list string :=
  ["ghcr.io/stevefan/drydock-base"; "ghcr.io/stevefan/drydock-port-auditor"].
Definition _MAX_CPUS : spec_float := S754_finite false 4503599627370496 (-51).
Definition _MAX_MEMORY_BYTES : Z := 4 * 1024 * 1024 * 1024.
Definition _FORBIDDEN_CAPABILITIES : list string :=
  ["request_secret_leases"; "request_storage_leases"; "request_provision_leases"; "request_workload_leases";
   "request_network_reach"].

Record Violation : Type := mkViolation { v_code : string; v_message : string }.

(** [passing] or [failing]. *)
Record ValidationResult : Type := mkResult { ok : bool; violations : list Violation }.
Definition passing : ValidationResult := mkResult true [].
Definition failing (vs : list Violation) : ValidationResult := mkResult false vs.

(** [v in s] for a frozenset of texts: a list or a dict cannot be hashed. *)
Definition in_set (s : list string) (v : json) : res exn bool :=
  if is_container v then Err (PyError "TypeError" ("unhashable type: '" +:+ type_name v +:+ "'"))
  else Ok (match v with JStr t => existsb (String.eqb t) s | _ => false end).

(** [[x for x in l if (x in s) == want]]. *)
Fixpoint select_in (want : bool) (s : list string) (l : list json) : res exn (list json) :=
  match l with
  | [] => Ok []
  | v :: l' => b ← in_set s v; vs ← select_in want s l'; Ok (if Bool.eqb b want then v :: vs else vs)
  end.

Definition is_none (v : json) : bool := match v with JNull => true | _ => false end.

Section Validate.
Context `{FloatRepr}.

(** A violation when the field holds something. *)
Definition forbid (v : json) (code message : string) : list Violation :=
  if truthy v then [mkViolation code message] else [].

Definition check_domains (cfg : ProjectConfig) : res exn (list Violation) :=
  l ← as_list (pc_firewall_extra_domains cfg);
  bad_domains ← select_in false _ALLOWED_FIREWALL_DOMAINS l;
  match bad_domains with
  | [] => Ok []
  | _ =>
      sorted ← py_sorted bad_domains;
      Ok [mkViolation "egress-domain-not-allowed"
            ("Auditor firewall_extra_domains must be subset of " +:+ repr_sorted _ALLOWED_FIREWALL_DOMAINS
             +:+ "; got disallowed: " +:+ py_repr (JList sorted))]
  end.

Definition check_capabilities (cfg : ProjectConfig) : res exn (list Violation) :=
  l ← as_list (pc_capabilities cfg);
  forbidden ← select_in true _FORBIDDEN_CAPABILITIES l;
  match forbidden with
  | [] => Ok []
  | _ =>
      sorted ← py_sorted forbidden;
      Ok [mkViolation "broker-capability-forbidden"
            ("Auditor must not declare capabilities " +:+ py_repr (JList sorted)
             +:+ "; Auditor uses direct scope, not the broker.")]
  end.

(** [except (TypeError, ValueError)]. *)
Definition check_cpu (cpu_max : json) : res exn (list Violation) :=
  match py_float cpu_max with
  | Ok f => Ok (if float_gt f _MAX_CPUS
                then [mkViolation "cpu-ceiling-exceeded"
                        ("Auditor resources_hard.cpu_max=" +:+ py_str cpu_max +:+ " exceeds max 2.0.")]
                else [])
  | Err e => if (exn_class e =s "TypeError") || (exn_class e =s "ValueError")
             then Ok [mkViolation "cpu-ceiling-malformed"
                        ("Auditor resources_hard.cpu_max must be numeric; got " +:+ py_repr cpu_max +:+ ".")]
             else Err e
  end.

Definition units : list (string * Z) := [("k", 1024); ("m", 1024 ^ 2); ("g", 1024 ^ 3); ("t", 1024 ^ 4)].

(** [try: int(...) except ValueError: return None]. *)
Definition int_or_none (r : res exn Z) : res exn (option Z) :=
  match r with
  | Ok z => Ok (Some z)
  | Err e => if exn_class e =s "ValueError" then Ok None else Err e
  end.

(** Bytes of a number, or of a text with a unit or without; [None] when it has no meaning. *)
Definition _parse_memory_to_bytes (value : json) : res exn (option Z) :=
  match value with
  | JInt z => Ok (if 0 <=? z then Some z else None)
  | JBool b => Ok (Some (if b then 1 else 0))
  | JFloat f => if SFleb (S754_zero false) f then z ← int_of_float f; Ok (Some z) else Ok None
  | JStr text =>
      let s := lower (strip text) in
      if is_empty s then Ok None
      else
        match assoc (sdrop (String.length s - 1) s) units with
        | Some unit =>
            int_or_none (f ← py_float (JStr (drop_last 1 s)); int_of_float (float_times f unit))
        | None => int_or_none (py_int (JStr s))
        end
  | _ => Ok None
  end.

Definition check_memory (memory_max : json) : res exn (list Violation) :=
  memory_bytes ← _parse_memory_to_bytes memory_max;
  Ok match memory_bytes with
     | None => [mkViolation "memory-ceiling-malformed"
                  ("Auditor resources_hard.memory_max must be a docker size string (e.g. '2g', '512m'); got "
                   +:+ py_repr memory_max +:+ ".")]
     | Some b => if _MAX_MEMORY_BYTES <? b
                 then [mkViolation "memory-ceiling-exceeded"
                         ("Auditor resources_hard.memory_max=" +:+ py_str memory_max +:+ " exceeds max "
                          +:+ str_of_Z _MAX_MEMORY_BYTES +:+ " bytes (4g).")]
                 else []
     end.

Definition check_resources (cfg : ProjectConfig) : res exn (list Violation) :=
  match pc_resources_hard cfg with
  | JObj o =>
      let cpu_max := jget "cpu_max" o in
      let memory_max := jget "memory_max" o in
      if is_none cpu_max || is_none memory_max then
        Ok [mkViolation "resource-ceiling-required"
              ("Auditor must declare resources_hard.cpu_max and resources_hard.memory_max; the Auditor is small "
               +:+ "and should not run unbounded.")]
      else c ← check_cpu cpu_max; m ← check_memory memory_max; Ok (c ++ m)
  | v => attr_error v "get"
  end.

Definition check_image (cfg : ProjectConfig) : res exn (list Violation) :=
  match pc_image cfg with
  | JNull => Ok []
  | JStr image =>
      Ok (if existsb (startswith image) _APPROVED_IMAGE_PREFIXES then []
          else [mkViolation "image-not-approved"
                  ("Auditor image " +:+ repr_str image +:+ " not in approved set; valid prefixes: "
                   +:+ repr_list (map repr_str _APPROVED_IMAGE_PREFIXES) +:+ ".")])
  | v => attr_error v "startswith"
  end.

Definition forbidden_egress (cfg : ProjectConfig) : list Violation :=
  forbid (pc_firewall_aws_ip_ranges cfg) "aws-egress-forbidden"
    "Auditor must not declare firewall_aws_ip_ranges; Auditor does not reach AWS."
  ++ forbid (pc_firewall_ipv6_hosts cfg) "ipv6-egress-forbidden"
    "Auditor must not declare firewall_ipv6_hosts; narrow egress is the principle."
  ++ forbid (pc_delegatable_network_reach cfg) "network-reach-delegation-forbidden"
    "Auditor must not declare delegatable_network_reach; the Auditor does not sublease network reach.".

Definition forbidden_delegations (cfg : ProjectConfig) : list Violation :=
  forbid (pc_delegatable_secrets cfg) "secret-delegation-forbidden" "Auditor must not declare delegatable_secrets."
  ++ forbid (pc_delegatable_storage_scopes cfg) "storage-delegation-forbidden"
    "Auditor must not declare delegatable_storage_scopes."
  ++ forbid (pc_delegatable_provision_scopes cfg) "provision-delegation-forbidden"
    "Auditor must not declare delegatable_provision_scopes."
  ++ forbid (pc_delegatable_firewall_domains cfg) "firewall-delegation-forbidden"
    "Auditor must not declare delegatable_firewall_domains.".

Definition forbidden_mounts (cfg : ProjectConfig) : list Violation :=
  forbid (pc_storage_mounts cfg) "storage-mount-forbidden" "Auditor must not declare storage_mounts."
  ++ forbid (pc_extra_mounts cfg) "extra-mount-forbidden"
    "Auditor must not declare extra_mounts; the Auditor's bind-mounts are baked at create time."
  ++ forbid (pc_forward_ports cfg) "forward-port-forbidden"
    "Auditor must not declare forward_ports; the Auditor is observation-only and exposes no listening service.".

(** All the violations, in the order the code meets them. *)
Definition auditor_violations (cfg : ProjectConfig) : res exn (list Violation) :=
  domains ← check_domains cfg;
  caps ← check_capabilities cfg;
  resources ← check_resources cfg;
  image ← check_image cfg;
  Ok (domains ++ forbidden_egress cfg ++ caps ++ forbidden_delegations cfg ++ resources ++ image
      ++ forbidden_mounts cfg).

Definition validate_auditor_role (cfg : ProjectConfig) : res exn ValidationResult :=
  if negb (pc_role cfg =s ROLE_AUDITOR) then Ok passing
  else vs ← auditor_violations cfg; Ok (match vs with [] => passing | _ => failing vs end).
End Validate.
