(* ===== verification/RoleValidatorFacts.v ===== *)
(** What the validator of auditor projects guarantees: the declared shape, exactly; and what that shape
    means for the broker. *)

From S2P Require Import Prelude PyStr PyVal Registry Policy World Rpc Ceilings ProjectConfig Desks Storage Broker BrokerFacts BrokerGrants BrokerLeases DestroyFacts RoleValidator.
From Stdlib Require Import List.
From Corelib Require Import SpecFloat.

(** ** The shape of an auditor *)

Definition empty_fields (cfg : ProjectConfig) : list json :=
  [pc_firewall_aws_ip_ranges cfg; pc_firewall_ipv6_hosts cfg; pc_delegatable_network_reach cfg;
   pc_delegatable_secrets cfg; pc_delegatable_storage_scopes cfg; pc_delegatable_provision_scopes cfg;
   pc_delegatable_firewall_domains cfg; pc_storage_mounts cfg; pc_extra_mounts cfg; pc_forward_ports cfg].

Definition text_in (s : list string) (v : json) : Prop := exists t, v = JStr t /\ In t s.

Record auditor_shape `{FloatRepr} (cfg : ProjectConfig) : Prop := mkShape {
  sh_domains : exists l, as_list (pc_firewall_extra_domains cfg) = Ok l /\ Forall (text_in _ALLOWED_FIREWALL_DOMAINS) l;
  sh_capabilities : exists l, as_list (pc_capabilities cfg) = Ok l
    /\ Forall (fun v => is_container v = false /\ ~ text_in _FORBIDDEN_CAPABILITIES v) l;
  sh_empty : Forall (fun v => truthy v = false) (empty_fields cfg);
  sh_resources : exists o cpu bytes, pc_resources_hard cfg = JObj o
    /\ jget "cpu_max" o <> JNull /\ py_float (jget "cpu_max" o) = Ok cpu /\ float_gt cpu _MAX_CPUS = false
    /\ _parse_memory_to_bytes (jget "memory_max" o) = Ok (Some bytes) /\ bytes <= _MAX_MEMORY_BYTES;
  sh_image : pc_image cfg = JNull
    \/ exists prefix rest, In prefix _APPROVED_IMAGE_PREFIXES /\ pc_image cfg = JStr (prefix +:+ rest)
}.

Lemma in_set_ok s v b : in_set s v = Ok b <-> is_container v = false /\ (b = true <-> text_in s v).
Proof.
  unfold in_set. destruct (is_container v) eqn:E; [by split; [|intros []]|]. split.
  - intros [= <-]. split; [done|]. destruct v; try by split; [|intros (t & ? & _)].
    rewrite existsb_exists. split.
    + intros (t & Ht & ->%String.eqb_eq). by exists t.
    + intros (t & [= ->] & Ht). exists t. split; [done|apply String.eqb_refl].
  - intros [_ Hb]. f_equal. destruct v; try (destruct b; [|done]; destruct (proj1 Hb eq_refl) as (? & ? & _); done).
    apply eq_true_iff_eq. rewrite Hb, existsb_exists. split.
    + intros (t & Ht & ->%String.eqb_eq). by exists t.
    + intros (t & [= ->] & Ht). exists t. split; [done|apply String.eqb_refl].
Qed.

(** Nothing is selected when no element is as wanted. *)
Lemma select_in_nil want s l :
  select_in want s l = Ok [] <-> Forall (fun v => is_container v = false /\ (if want : bool then ~ text_in s v else text_in s v)) l.
Proof.
  induction l as [|v l IH]; cbn; [by split|]. rewrite List.Forall_cons_iff, <- IH. split.
  - intros (b & Hb & E)%res_bind_ok. apply res_bind_ok in E as (vs & Hvs & E). apply in_set_ok in Hb as [Hc Hb].
    destruct (Bool.eqb b want) eqn:Eb; [discriminate E|]. injection E as ->. split; [|done]. split; [done|].
    destruct b, want; try done; [by apply Hb|]. intros Ht%Hb. done.
  - intros [[Hc Ht] ->]. assert (in_set s v = Ok (negb want)) as ->.
    { apply in_set_ok. split; [done|]. destruct want; cbn; split; done. }
    cbn. by destruct want.
Qed.

Section Shape.
Context `{FloatRepr}.

Lemma forbid_nil v c m : forbid v c m = [] <-> truthy v = false.
Proof. unfold forbid. by destruct (truthy v). Qed.

Lemma app_nil_iff {A} (l k : list A) : l ++ k = [] <-> l = [] /\ k = [].
Proof. split; [apply app_eq_nil|by intros [-> ->]]. Qed.

Lemma forbidden_nil cfg :
  forbidden_egress cfg = [] /\ forbidden_delegations cfg = [] /\ forbidden_mounts cfg = []
  <-> Forall (fun v => truthy v = false) (empty_fields cfg).
Proof.
  unfold forbidden_egress, forbidden_delegations, forbidden_mounts, empty_fields.
  rewrite !app_nil_iff, !forbid_nil, !List.Forall_cons_iff. intuition.
Qed.

(** Both list checks: no violation when nothing is selected. *)
Lemma check_list_nil field want s (report : list json -> res exn (list Violation)) :
  report [] = Ok [] -> (forall v l, report (v :: l) <> Ok []) ->
  (l ← as_list field; found ← select_in want s l; report found) = Ok []
  <-> exists l, as_list field = Ok l
        /\ Forall (fun v => is_container v = false /\ (if want : bool then ~ text_in s v else text_in s v)) l.
Proof.
  intros H0 H1. rewrite res_bind_ok. split.
  - intros (l & Hl & (found & Hf & E)%res_bind_ok). exists l. split; [done|]. destruct found as [|v k]; [|by destruct (H1 v k)].
    by apply select_in_nil.
  - intros (l & Hl & Hf%select_in_nil). exists l. split; [done|]. by rewrite Hf.
Qed.

Lemma check_domains_nil cfg :
  check_domains cfg = Ok []
  <-> exists l, as_list (pc_firewall_extra_domains cfg) = Ok l /\ Forall (text_in _ALLOWED_FIREWALL_DOMAINS) l.
Proof.
  unfold check_domains. rewrite check_list_nil; [|done|].
  - split; intros (l & Hl & Hf); exists l; (split; [done|]); (eapply List.Forall_impl; [|exact Hf]); cbn; [tauto|].
    intros v (t & -> & Ht). split; [done|by exists t].
  - intros v l. destruct (py_sorted (v :: l)) as [k|e]; done.
Qed.

Lemma check_capabilities_nil cfg :
  check_capabilities cfg = Ok []
  <-> exists l, as_list (pc_capabilities cfg) = Ok l
        /\ Forall (fun v => is_container v = false /\ ~ text_in _FORBIDDEN_CAPABILITIES v) l.
Proof.
  unfold check_capabilities. rewrite check_list_nil; [done..|]. intros v l. by destruct (py_sorted (v :: l)).
Qed.

Lemma check_cpu_nil v : check_cpu v = Ok [] <-> exists f, py_float v = Ok f /\ float_gt f _MAX_CPUS = false.
Proof.
  unfold check_cpu. destruct (py_float v) as [f|e].
  - destruct (float_gt f _MAX_CPUS) eqn:E; split; try done; [by intros (g & [= <-] & Hg); rewrite Hg in E|by exists f].
  - destruct (_ || _); split; try done; by intros (g & ? & _).
Qed.

Lemma check_memory_nil v :
  check_memory v = Ok [] <-> exists b, _parse_memory_to_bytes v = Ok (Some b) /\ b <= _MAX_MEMORY_BYTES.
Proof.
  unfold check_memory. destruct (_parse_memory_to_bytes v) as [[b|]|e]; cbn.
  - destruct (Z.ltb_spec _MAX_MEMORY_BYTES b); split; try done; [intros (c & [= <-] & Hc); lia|by exists b].
  - split; [done|by intros (c & ? & _)].
  - split; [done|by intros (c & ? & _)].
Qed.

Lemma check_resources_nil cfg :
  check_resources cfg = Ok [] <-> exists o cpu bytes, pc_resources_hard cfg = JObj o
    /\ jget "cpu_max" o <> JNull /\ py_float (jget "cpu_max" o) = Ok cpu /\ float_gt cpu _MAX_CPUS = false
    /\ _parse_memory_to_bytes (jget "memory_max" o) = Ok (Some bytes) /\ bytes <= _MAX_MEMORY_BYTES.
Proof.
  unfold check_resources. split.
  - destruct (pc_resources_hard cfg) as [| | | | | |o]; try done. cbv zeta. destruct (is_none _ || is_none _) eqn:En; [done|].
    apply orb_false_iff in En as [Hc Hm]. intros (c & Hcpu & (m & Hmem & [= E])%res_bind_ok)%res_bind_ok.
    apply app_nil_iff in E as [-> ->]. apply check_cpu_nil in Hcpu as (f & Hf & Hg). apply check_memory_nil in Hmem as (b & Hb & Hle).
    exists o, f, b. split_and!; try done. intros E. by rewrite E in Hc.
  - intros (o & f & b & -> & Hc & Hf & Hg & Hb & Hm). cbv zeta.
    assert (is_none (jget "cpu_max" o) = false) as -> by (by destruct (jget "cpu_max" o)).
    assert (is_none (jget "memory_max" o) = false) as -> by (by destruct (jget "memory_max" o)). cbn [orb].
    rewrite (proj2 (check_cpu_nil _)) by eauto. cbn. by rewrite (proj2 (check_memory_nil _)) by eauto.
Qed.

Lemma check_image_nil cfg :
  check_image cfg = Ok [] <-> pc_image cfg = JNull
    \/ exists prefix rest, In prefix _APPROVED_IMAGE_PREFIXES /\ pc_image cfg = JStr (prefix +:+ rest).
Proof.
  unfold check_image. destruct (pc_image cfg) as [|b|z|f|image|l|o];
    [by split; [intros _; left|]|by split; [|intros [[=]|(p & r & _ & [=])]]|by split; [|intros [[=]|(p & r & _ & [=])]]
    |by split; [|intros [[=]|(p & r & _ & [=])]]| |by split; [|intros [[=]|(p & r & _ & [=])]]
    |by split; [|intros [[=]|(p & r & _ & [=])]]].
  destruct (existsb (startswith image) _) eqn:E; split; try done.
  - intros _. right. apply existsb_exists in E as (p & Hp & (r & ->)%startswith_spec). by exists p, r.
  - intros [[=]|(p & r & Hp & [= ->])].
    assert (existsb (startswith (p +:+ r)) _APPROVED_IMAGE_PREFIXES = true) as Ht; [|by rewrite Ht in E].
    apply existsb_exists. exists p. split; [done|]. apply startswith_spec. by exists r.
Qed.

(** A project of role auditor is accepted exactly when it has the shape of an auditor: its firewall
    domains are among the two allowed ones, it declares no capability of the broker, no delegation, no
    other egress, no mounts and no ports, its image is approved, and its CPU and memory ceilings are
    declared, readable and not above two CPUs and four gibibytes. *)
Theorem auditor_role_shape cfg :
  pc_role cfg = ROLE_AUDITOR -> validate_auditor_role cfg = Ok passing <-> auditor_shape cfg.
Proof.
  intros Hrole. unfold validate_auditor_role. rewrite Hrole. cbn [negb String.eqb]. 
  assert (auditor_violations cfg = Ok [] <-> auditor_shape cfg) as <-.
  { unfold auditor_violations. split.
    - intros (d & Hd & (c & Hc & (r & Hr & (i & Hi & [= E])%res_bind_ok)%res_bind_ok)%res_bind_ok)%res_bind_ok.
      rewrite !app_nil_iff in E. destruct E as (-> & E1 & -> & E2 & -> & -> & E3).
      split; [exact (proj1 (check_domains_nil _) Hd)|exact (proj1 (check_capabilities_nil _) Hc)|by apply forbidden_nil
        |exact (proj1 (check_resources_nil _) Hr)|exact (proj1 (check_image_nil _) Hi)].
    - intros [Hd%check_domains_nil Hc%check_capabilities_nil (E1 & E2 & E3)%forbidden_nil Hr%check_resources_nil Hi%check_image_nil].
      by rewrite Hd, Hc, Hr, Hi, E1, E2, E3. }
  destruct (auditor_violations cfg) as [[|v vs]|e]; by cbn.
Qed.
End Shape.

(** ** What the broker gives an auditor *)

Section Broker.
Context `{Env} (backend : SecretsBackend) (storage_backend : option StorageBackend)
  `{!LawfulSecrets backend} (storage_lawful : forall b, storage_backend = Some b -> LawfulStorage b).

Lemma passing_capabilities cfg :
  pc_role cfg = ROLE_AUDITOR -> validate_auditor_role cfg = Ok passing -> check_capabilities cfg = Ok [].
Proof.
  unfold validate_auditor_role. intros ->. cbn [negb String.eqb]. intros (vs & E & Hv)%res_bind_ok.
  destruct vs; [|discriminate Hv]. unfold auditor_violations in E.
  apply res_bind_ok in E as (d & _ & (c & -> & (r & _ & (i & _ & [= E])%res_bind_ok)%res_bind_ok)%res_bind_ok).
  rewrite !app_nil_iff in E. by destruct E as (_ & _ & -> & _).
Qed.

Lemma forbidden_not_granted cfg row k :
  check_capabilities cfg = Ok [] -> dr_capabilities row = pc_capabilities cfg ->
  In (CapabilityKind_value k) _FORBIDDEN_CAPABILITIES -> ~ granted_kind row k.
Proof.
  intros (l & Hl & Hf)%check_capabilities_nil Hrow Hk (l' & Hl' & Hin). rewrite Hrow in Hl'. rewrite Hl' in Hl.
  injection Hl as ->. rewrite List.Forall_forall in Hf. apply (Hf _ Hin). by exists (CapabilityKind_value k).
Qed.

(** C24: An auditor gets nothing from the broker: a desk whose stored capabilities are those of a project
    that the validator accepts for the role is refused every request of a lease, of any type and with any
    parameters, in every state of the daemon. *)
Theorem validated_auditor_gets_no_lease cfg caller row params id w :
  pc_role cfg = ROLE_AUDITOR -> validate_auditor_role cfg = Ok passing ->
  NoDup (map lr_lease_id (leases (w_db w))) ->
  load_desk_policy caller (w_db w) = Some row -> dr_capabilities row = pc_capabilities cfg ->
  is_ok (fst (request_capability backend storage_backend params id (Some caller) w)) = false.
Proof.
  intros Hr Hv Hnd Hrow Hc. pose proof (passing_capabilities cfg Hr Hv) as Hcaps.
  destruct (request_capability _ _ _ _ _ w) as [[v|e] w'] eqn:E; [|done]. exfalso.
  assert (exists req before, grant_of caller req w before v w') as (req & before & row' & l & Hl & Ha & _).
  { unfold request_capability in E. apply lift_ok in E as (req & _ & E). exists req. destruct req as [n src|b p m|acts|d p].
    - apply secret_grant in E; [by eexists|done].
    - apply storage_grant in E as (before & _ & Hg); [by exists before|done..].
    - apply provision_grant in E as (before & _ & Hg); [by exists before|done..].
    - apply reach_grant in E. by eexists. }
  rewrite Hrow in Hl. injection Hl as <-.
  destruct req; destruct Ha as [Hk _]; (eapply forbidden_not_granted; [exact Hcaps|exact Hc| |exact Hk]); cbn; tauto.
Qed.
End Broker.

(** ** A concrete auditor, and what slips through *)

#[local] Instance demo_repr : FloatRepr := {| float_repr _ := "1.0" |}.

Definition auditor_yaml (cpu mem image : json) : json :=
  JObj [("role", JStr "auditor"); ("image", image); ("capabilities", JList [JStr "observe"]);
        ("firewall_extra_domains", JList [JStr "api.anthropic.com"]);
        ("resources_hard", JObj [("cpu_max", cpu); ("memory_max", mem)])].

Definition auditor_of (cpu mem image : json) : ProjectConfig :=
  match project_of_yaml "p.yaml" (auditor_yaml cpu mem image) with Ok c => c | Err _ => default_project end.

Definition small_auditor : ProjectConfig :=
  Eval vm_compute in auditor_of (JInt 1) (JStr "512m") (JStr "ghcr.io/stevefan/drydock-base:latest").

Lemma auditor_role_shape_witness :
  validate_auditor_role small_auditor = Ok passing /\ auditor_shape small_auditor.
Proof. split; [vm_compute; reflexivity|]. apply auditor_role_shape; vm_compute; reflexivity. Defined.

Definition verdict_codes (cpu mem image : json) : res exn (list string) :=
  r ← validate_auditor_role (auditor_of cpu mem image); Ok (map v_code (violations r)).

(** A NaN is above no ceiling, a negative size is below it, and the prefix of the image ends where the
    text does, not the name. *)
Example nan_cpu_passes : verdict_codes (JStr "nan") (JStr "1g") JNull = Ok [].
Proof. vm_compute. reflexivity. Qed.
Example negative_memory_passes : verdict_codes (JInt 1) (JStr "-9g") JNull = Ok [].
Proof. vm_compute. reflexivity. Qed.
Example image_sibling_passes : verdict_codes (JInt 1) (JStr "1g") (JStr "ghcr.io/stevefan/drydock-baseline-evil") = Ok [].
Proof. vm_compute. reflexivity. Qed.
Example infinite_memory_raises :
  verdict_codes (JInt 1) (JStr "infg") JNull = Err (PyError "OverflowError" "cannot convert float infinity to integer").
Proof. vm_compute. reflexivity. Qed.
Example oversized_auditor : verdict_codes (JInt 4) (JStr "8g") (JStr "debian") =
  Ok ["cpu-ceiling-exceeded"; "memory-ceiling-exceeded"; "image-not-approved"].
Proof. vm_compute. reflexivity. Qed.

Definition auditor_row : dock_row := set_fields [F_capabilities (pc_capabilities small_auditor)] (demo_row "a" None).
Definition auditor_world : world := set_db (set_drydocks [auditor_row] empty_db) empty_world.

Lemma validated_auditor_gets_no_lease_witness :
  load_desk_policy "dock_a" (w_db auditor_world) = Some auditor_row /\
  is_ok (fst (@request_capability demo_env demo_secrets (Some demo_storage) (storage_params "bucket" "prefix" "rw")
    (JInt 1) (Some "dock_a") auditor_world)) = false.
Proof.
  split; [vm_compute; reflexivity|].
  apply (@validated_auditor_gets_no_lease demo_env demo_secrets (Some demo_storage) _ demo_storage_lawful small_auditor
    "dock_a" auditor_row); [vm_compute; reflexivity..|constructor|vm_compute; reflexivity|vm_compute; reflexivity].
Defined.
