(* ===== verification/Schedule.v ===== *)
(** [core/schedule.py] and [cli/schedule.py]: the jobs of a desk's [deploy/schedule.yaml], and the cron file
    or launchd plists they are installed as. *)

From S2P Require Import Prelude PyStr PyVal Glob Regex Registry World Container.
From Stdlib Require Import List.

(** ** Jobs *)

Definition KNOWN_JOB_KEYS : list string := ["cron"; "command"; "log"].

(** [^[A-Za-z0-9_-]{1,64}$] *)
Definition job_char (c : ascii) : bool := is_upper c || is_lower c || is_digit c || has_char c "_-".
Definition _JOB_NAME_RE : re := rbetween 1 64 (RChars job_char).

Record ScheduleJob : Type := mkJob { j_name : string; j_cron : string; j_command : string; j_log : string }.

(** [^(\*|\d+)$] *)
Definition _CRON_FIELD_RE : re := RAlt (rchar "*") (rplus (RChars is_digit)).

Definition CRON_FIELD_NAMES : list string := ["minute"; "hour"; "day"; "month"; "weekday"].
Definition LAUNCHD_FIELD_KEYS : list string := ["Minute"; "Hour"; "Day"; "Month"; "Weekday"].

Definition interval_of : Type := list (string * Z).

Fixpoint cron_interval (expr : string) (fields names keys : list string) (acc : interval_of) : res exn interval_of :=
  match fields, names, keys with
  | raw :: fields, name :: names, key :: keys =>
      if negb (re_match _CRON_FIELD_RE raw) then
        Err (WsError ("Unsupported cron syntax in " +:+ name +:+ " field: '" +:+ raw +:+ "'")
          (Some ("Only '*' and plain integers are supported (no step/range/list). Got '" +:+ raw +:+ "' in '"
                 +:+ expr +:+ "'.")))
      else cron_interval expr fields names keys (if raw =s "*" then acc else jset key (int_of_digits raw) acc)
  | _, _, _ => Ok acc
  end.

Definition parse_cron_5field (expr : string) : res exn (list interval_of) :=
  let fields := split_ws expr in
  if negb (Nat.eqb (length fields) 5) then
    Err (WsError ("Cron expression must have exactly 5 fields, got " +:+ str_of_Z (Z.of_nat (length fields))
                  +:+ ": '" +:+ expr +:+ "'")
      (Some "Use the format: minute hour day month weekday (e.g. '0 13 * * *')."))
  else
    interval ← cron_interval expr fields CRON_FIELD_NAMES LAUNCHD_FIELD_KEYS [];
    Ok [interval].

(** ** [shlex.quote] *)

(** [[\w@%+=:,./-]] in ASCII. *)
Definition shell_safe (c : ascii) : bool := is_upper c || is_lower c || is_digit c || has_char c "_@%+=:,./-".

(** A single quote inside single quotes: close, a quoted quote, open again. *)
Definition quote_escape : string := String squote (String dquote (String squote (String dquote (String squote "")))).

Definition shlex_quote (s : string) : string :=
  if is_empty s then String squote (String squote "")
  else if all_chars shell_safe s then s
  else String squote (replace_char squote quote_escape s) +:+ String squote "".

(** ** Loading *)

Section Load.
Context `{Env}.

Definition missing_job_key (schedule_path job_name : string) (spec : obj) : option exn :=
  match List.find (fun key => negb (has_key key spec)) ["cron"; "command"] with
  | Some key => Some (WsError ("Job '" +:+ job_name +:+ "' missing required key '" +:+ key +:+ "'")
                        (Some ("Add '" +:+ key +:+ ":' to job '" +:+ job_name +:+ "' in " +:+ schedule_path +:+ ".")))
  | None => None
  end.

Definition unknown_job_keys (spec : obj) : list string :=
  order_by String.leb (List.filter (fun k => negb (existsb (String.eqb k) KNOWN_JOB_KEYS)) (map fst spec)).

Definition load_job (schedule_path job_name : string) (spec : json) : res exn ScheduleJob :=
  if negb (re_match _JOB_NAME_RE job_name) then
    Err (WsError ("Invalid job name '" +:+ job_name +:+ "': must match [A-Za-z0-9_-]{1,64}")
      (Some "Use only letters, digits, hyphens, and underscores in job names."))
  else
    match spec with
    | JObj o =>
        match unknown_job_keys o with
        | [] =>
            match missing_job_key schedule_path job_name o with
            | Some e => Err e
            | None =>
                let cron_expr := strip (py_str (jget "cron" o)) in
                _ ← parse_cron_5field cron_expr;
                Ok (mkJob job_name cron_expr (py_str (jget "command" o)) (py_str (jget_default "log" (JStr "") o)))
            end
        | unknown => Err (WsError ("Unknown keys in job '" +:+ job_name +:+ "': " +:+ join ", " unknown)
                       (Some ("Valid job keys: " +:+ join ", " (order_by String.leb KNOWN_JOB_KEYS))))
        end
    | v => Err (WsError ("Job '" +:+ job_name +:+ "' must be a mapping, got " +:+ type_name v)
             (Some ("Define '" +:+ job_name +:+ "' with keys: cron, command, log.")))
    end.

(** The jobs of a decoded file. *)
Definition schedule_jobs (schedule_path : string) (raw : json) : res exn (list ScheduleJob) :=
  let no_jobs := Err (WsError ("Schedule file " +:+ schedule_path +:+ " must contain a 'jobs' mapping")
                        (Some ("Add a top-level 'jobs:' key to " +:+ schedule_path +:+ "."))) in
  match raw with
  | JObj o =>
      match assoc "jobs" o with
      | None => no_jobs
      | Some (JObj jobs_raw) => mapE (fun kv => load_job schedule_path (fst kv) (snd kv)) jobs_raw
      | Some _ => Err (WsError ("'jobs' in " +:+ schedule_path +:+ " must be a mapping")
                    (Some "Each entry under 'jobs:' should be a named job with cron/command/log keys."))
      end
  | _ => no_jobs
  end.

Definition load_schedule (schedule_path : string) : W (list ScheduleJob) :=
  found ← path_exists schedule_path;
  if negb found then
    throw (WsError ("Schedule file not found: " +:+ schedule_path)
      (Some ("Create " +:+ schedule_path +:+ " with a 'jobs:' mapping.")))
  else
    text ← host_read schedule_path;
    match yaml_load text with
    | None => throw (WsError ("Invalid YAML in " +:+ schedule_path) (Some ("Check " +:+ schedule_path +:+ " for syntax errors.")))
    | Some raw => lift (schedule_jobs schedule_path raw)
    end.
End Load.

(** ** Rendering *)

Definition dq (s : string) : string := String dquote (s +:+ String dquote "").

(** What follows the command: its exit code is recorded and passed on. *)
Definition record_outcome (desk : string) (job : ScheduleJob) : string :=
  "; ec=$?; /usr/local/bin/ws deskwatch-record " +:+ shlex_quote desk +:+ " job_run " +:+ shlex_quote (j_name job)
  +:+ " $([ $ec -eq 0 ] && echo ok || echo failed) --detail " +:+ dq "exit $ec" +:+ "; exit $ec".

Definition run_command (desk : string) (job : ScheduleJob) : string :=
  "/usr/local/bin/ws exec " +:+ shlex_quote desk +:+ " -- " +:+ j_command job.

Definition _render_job_shell (desk : string) (job : ScheduleJob) : string :=
  let tail := if is_empty (j_log job) then "" else " >> " +:+ shlex_quote (j_log job) +:+ " 2>&1" in
  run_command desk job +:+ tail +:+ record_outcome desk job.

Definition cron_header (desk : string) : list string :=
  ["# Managed by drydock — do not edit. desk=" +:+ desk;
   "PATH=/usr/local/sbin:/usr/local/bin:/usr/sbin:/usr/bin:/sbin:/bin"; ""].

Definition cron_line (desk : string) (job : ScheduleJob) : string :=
  j_cron job +:+ " root " +:+ _render_job_shell desk job.

Definition render_cron_file (desk : string) (jobs : list ScheduleJob) : string :=
  join (String newline "") (cron_header desk ++ map (cron_line desk) jobs ++ [""]).

Definition _launchd_label (desk job_name : string) : string := "com.drydock." +:+ desk +:+ "." +:+ job_name.

Definition interval_json (i : interval_of) : json := JObj (map (fun kv => (fst kv, JInt (snd kv))) i).

Definition launchd_plist (desk : string) (job : ScheduleJob) : res exn json :=
  intervals ← parse_cron_5field (j_cron job);
  let program_args := [JStr "/bin/sh"; JStr "-c"; JStr (run_command desk job +:+ record_outcome desk job)] in
  Ok (JObj ([("Label", JStr (_launchd_label desk (j_name job))); ("ProgramArguments", JList program_args);
             ("StartCalendarInterval",
                match intervals with [i] => interval_json i | _ => JList (map interval_json intervals) end)]
            ++ if is_empty (j_log job) then []
               else [("StandardOutPath", JStr (j_log job)); ("StandardErrorPath", JStr (j_log job))])).

(** ** Installing *)

Section Install.
Context `{Env} (plist_dumps : json -> string).

Definition render_launchd_plist (desk : string) (job : ScheduleJob) : res exn string :=
  plist ← launchd_plist desk job; Ok (plist_dumps plist).

Definition _cron_file_path (desk : string) : string := path_str ("/etc/cron.d/drydock-" +:+ desk).
Definition _launchd_dir : string := home // "Library" // "LaunchAgents".
Definition _launchd_plist_path (desk job_name : string) : string :=
  _launchd_dir // (_launchd_label desk job_name +:+ ".plist").

(** [except PermissionError]. *)
Definition on_permission_error {A} (m : W A) (message fix_hint : string) : W A :=
  catch m (fun e => if exn_class e =s "PermissionError" then throw (WsError message (Some fix_hint)) else throw e).

(** The mode of the file is not part of the state. *)
Definition install_cron (desk : string) (jobs : list ScheduleJob) : W string :=
  let path := _cron_file_path desk in
  _ ← on_permission_error (_ ← host_write path (render_cron_file desk jobs); fs_op)
        ("Cannot write " +:+ path +:+ " — permission denied")
        ("Run with appropriate permissions or use sudo to write to " +:+ path_parent path +:+ ".");
  mret path.

Definition remove_cron (desk : string) : W (option string) :=
  let path := _cron_file_path desk in
  found ← path_exists path;
  if found : bool then
    _ ← on_permission_error (host_unlink path) ("Cannot remove " +:+ path +:+ " — permission denied")
          "Run with appropriate permissions or use sudo.";
    mret (Some path)
  else mret None.

Definition cron_entry_line (line : string) : bool :=
  negb (is_empty line) && negb (startswith line "#") && negb (startswith line "PATH=").

Definition list_installed_cron (desk : string) : W (list string) :=
  let path := _cron_file_path desk in
  found ← path_exists path;
  if negb found then mret []
  else text ← host_read path; mret (List.filter cron_entry_line (splitlines text)).

(** [agent_dir.glob(pattern)] for a pattern without a slash, in the order of the map. *)
Definition glob_in (dir pattern : string) (h : gmap string node) : list string :=
  List.filter (fun p => (path_parent p =s dir) && fnmatchcase (path_name p) pattern) (map fst (map_to_list h)).

Definition desk_plists (desk : string) : string := "com.drydock." +:+ desk +:+ ".*.plist".

Fixpoint unlink_stale (wanted_labels : list string) (ps : list string) : W unit :=
  match ps with
  | [] => mret tt
  | p :: ps' =>
      _ ← (if existsb (String.eqb (path_stem p)) wanted_labels then mret tt else host_unlink p);
      unlink_stale wanted_labels ps'
  end.

Fixpoint write_plists (desk : string) (jobs : list ScheduleJob) : W (list string) :=
  match jobs with
  | [] => mret []
  | job :: jobs' =>
      plist_data ← lift (render_launchd_plist desk job);
      _ ← host_write (_launchd_plist_path desk (j_name job)) plist_data;
      written ← write_plists desk jobs';
      mret (_launchd_plist_path desk (j_name job) :: written)
  end.

Definition install_launchd (desk : string) (jobs : list ScheduleJob) : W (list string) :=
  _ ← mkdir_p _launchd_dir;
  existing ← gets (fun w => glob_in _launchd_dir (desk_plists desk) (w_host w));
  _ ← unlink_stale (map (fun j => _launchd_label desk (j_name j)) jobs) existing;
  write_plists desk jobs.

Fixpoint unlink_all (ps : list string) : W unit :=
  match ps with [] => mret tt | p :: ps' => _ ← host_unlink p; unlink_all ps' end.

Definition remove_launchd (desk : string) : W (list string) :=
  found ← path_exists _launchd_dir;
  if negb found then mret []
  else
    removed ← gets (fun w => glob_in _launchd_dir (desk_plists desk) (w_host w));
    _ ← unlink_all removed;
    mret removed.

Definition list_installed_launchd (desk : string) : W (list string) :=
  found ← path_exists _launchd_dir;
  if negb found then mret []
  else gets (fun w => map path_stem (glob_in _launchd_dir (desk_plists desk) (w_host w))).

(** ** The command line: an error is printed, and is a [WsError] here *)

(** [detect_backend() == "launchd"]: the platform. *)
Context (darwin : bool).
Definition detect_backend : string := if darwin then "launchd" else "cron".

Definition schedule_path_of (ws : Drydock) : string :=
  let worktree := path_str (if is_empty (worktree_path ws) then repo_path ws else worktree_path ws) in
  if is_empty (workspace_subdir ws) then worktree // "deploy" // "schedule.yaml"
  else worktree // workspace_subdir ws // "deploy" // "schedule.yaml".

Definition known_desk (desk : string) : W Drydock :=
  ws ← reg_get (get_drydock desk);
  match ws with
  | Some ws => mret ws
  | None => throw (WsError ("Drydock '" +:+ desk +:+ "' not found in registry")
                     (Some "Run 'ws list' to see available drydocks."))
  end.

Definition jstrings (l : list string) : json := JList (map JStr l).

Definition schedule_sync (desk : string) : W json :=
  ws ← known_desk desk;
  jobs ← load_schedule (schedule_path_of ws);
  paths ← (if darwin then install_launchd desk jobs else path ← install_cron desk jobs; mret [path]);
  mret (JObj [("desk", JStr desk); ("backend", JStr detect_backend); ("jobs", JInt (Z.of_nat (length jobs)));
              ("paths", jstrings paths)]).

Definition schedule_list (desk : string) : W json :=
  ws ← known_desk desk;
  entries ← (if darwin
             then labels ← list_installed_launchd desk;
                  mret (map (fun l => JObj [("label", JStr l); ("type", JStr "launchd")]) labels)
             else lines ← list_installed_cron desk;
                  mret (map (fun l => JObj [("line", JStr l); ("type", JStr "cron")]) lines));
  found ← path_exists (schedule_path_of ws);
  yaml_jobs ← (if found : bool
               then catch (jobs ← load_schedule (schedule_path_of ws); mret (map j_name jobs))
                      (fun e => match e with WsError _ _ => mret [] | _ => throw e end)
               else mret []);
  mret (JObj [("desk", JStr desk); ("backend", JStr detect_backend); ("installed", JList entries);
              ("yaml_jobs", jstrings yaml_jobs)]).

Definition schedule_remove (desk : string) : W json :=
  paths ← (if darwin then remove_launchd desk
           else result ← remove_cron desk; mret (match result with Some p => [p] | None => [] end));
  mret (JObj [("desk", JStr desk); ("backend", JStr detect_backend); ("removed", jstrings paths)]).
End Install.
