(* ===== verification/ScheduleFacts.v ===== *)
(** Schedules: a shell reads back the words that were quoted; what is installed in a cron file is what
    the listing reads, until it is removed; and which texts slip a line of their own into it. *)

From S2P Require Import Prelude PyStr PyVal Glob Regex Registry World WorldFacts Container Schedule.
From Stdlib Require Import List.

(** ** A shell's words *)

(** The characters that mean something outside quotes, and the blanks. *)
Definition sh_special (c : ascii) : bool := has_char c "|&;<>()$`\*?[]{}#~!^" || Ascii.eqb c newline.
Definition sh_blank (c : ascii) : bool := has_char c " " || Ascii.eqb c (ascii_of_N 9).

Inductive quoting : Set := Unquoted | Single | Double.

Definition snoc (w : string) (c : ascii) : string := w +:+ String c "".

(** The words of a line that is nothing but words, quotes and blanks; [cur] is the word begun. *)
Fixpoint sh_lex (q : quoting) (cur : option string) (s : string) : option (list string) :=
  match s with
  | EmptyString => match q, cur with Unquoted, Some w => Some [w] | Unquoted, None => Some [] | _, _ => None end
  | String c s' =>
      let w := default "" cur in
      match q with
      | Unquoted =>
          if Ascii.eqb c squote then sh_lex Single (Some w) s'
          else if Ascii.eqb c dquote then sh_lex Double (Some w) s'
          else if sh_blank c then
            match cur with Some w => option_map (cons w) (sh_lex Unquoted None s') | None => sh_lex Unquoted None s' end
          else if sh_special c then None else sh_lex Unquoted (Some (snoc w c)) s'
      | Single => if Ascii.eqb c squote then sh_lex Unquoted (Some w) s' else sh_lex Single (Some (snoc w c)) s'
      | Double => if Ascii.eqb c dquote then sh_lex Unquoted (Some w) s'
                  else if has_char c "$`\" then None else sh_lex Double (Some (snoc w c)) s'
      end
  end.
Definition sh_words (s : string) : option (list string) := sh_lex Unquoted None s.

Lemma snoc_app w c s : snoc w c +:+ s = w +:+ String c s.
Proof. unfold snoc. by rewrite app_assoc_s. Qed.

Lemma safe_plain c : shell_safe c = true ->
  Ascii.eqb c squote = false /\ Ascii.eqb c dquote = false /\ sh_blank c = false /\ sh_special c = false.
Proof.
  intros Hs. assert (negb (shell_safe c) || (negb (Ascii.eqb c squote) && negb (Ascii.eqb c dquote)
    && negb (sh_blank c) && negb (sh_special c)) = true) as Ha.
  { clear Hs. revert c. apply forall_ascii. by intros [] [] [] [] [] [] [] []. }
  rewrite Hs in Ha. cbn in Ha. breflect. done.
Qed.

Lemma lex_safe cur s rest : all_chars shell_safe s = true -> is_empty s = false ->
  sh_lex Unquoted cur (s +:+ rest) = sh_lex Unquoted (Some (default "" cur +:+ s)) rest.
Proof.
  revert cur. induction s as [|c s IH]; intros cur Ha Hn; [done|]. cbn in Ha. apply andb_true_iff in Ha as [Hc Ha].
  destruct (safe_plain c Hc) as (E1 & E2 & E3 & E4). cbn [sh_lex String.append]. rewrite E1, E2, E3, E4.
  destruct s as [|d s]; [done|]. rewrite IH by done. cbn [default from_option Datatypes.id]. by rewrite snoc_app.
Qed.

Lemma lex_single w s rest :
  sh_lex Single (Some w) (replace_char squote quote_escape s +:+ String squote rest) = sh_lex Unquoted (Some (w +:+ s)) rest.
Proof.
  revert w. induction s as [|c s IH]; intros w.
  - cbn [replace_char String.append sh_lex]. rewrite Ascii.eqb_refl. cbn. by rewrite app_nil_r_s.
  - cbn [replace_char]. destruct (Ascii.eqb c squote) eqn:E.
    + apply Ascii.eqb_eq in E as ->. unfold quote_escape. cbn -[replace_char]. rewrite IH. by rewrite app_assoc_s.
    + cbn [String.append sh_lex]. rewrite E. cbn [default from_option Datatypes.id]. by rewrite IH, snoc_app.
Qed.

Lemma lex_quote cur w rest :
  sh_lex Unquoted cur (shlex_quote w +:+ rest) = sh_lex Unquoted (Some (default "" cur +:+ w)) rest.
Proof.
  unfold shlex_quote. destruct (is_empty w) eqn:En; [|destruct (all_chars shell_safe w) eqn:Es].
  - apply is_empty_true in En as ->. cbn. by rewrite app_nil_r_s.
  - by apply lex_safe.
  - rewrite app_assoc_s. cbn [String.append]. cbn [sh_lex]. rewrite Ascii.eqb_refl. apply lex_single.
Qed.

(** A shell reads back exactly the words that were quoted: of a line made of the quoted texts with
    blanks between them, whatever the texts hold, quotes, dollar signs, semicolons and newlines included,
    the words are these texts, and nothing in it is an operator or an expansion. *)
Theorem quoted_words_read_back ws : sh_words (join " " (map shlex_quote ws)) = Some ws.
Proof.
  unfold sh_words. induction ws as [|w ws IH]; [done|]. destruct ws as [|w2 ws].
  - change (join " " (map shlex_quote [w])) with (shlex_quote w). rewrite <- (app_nil_r_s (shlex_quote w)). by rewrite lex_quote.
  - change (join " " (map shlex_quote (w :: w2 :: ws))) with (shlex_quote w +:+ (" " +:+ join " " (map shlex_quote (w2 :: ws)))).
    rewrite lex_quote. change (sh_lex Unquoted (Some (default "" None +:+ w)) (" " +:+ join " " (map shlex_quote (w2 :: ws))))
      with (option_map (cons w) (sh_lex Unquoted None (join " " (map shlex_quote (w2 :: ws))))).
    by rewrite IH.
Qed.

Lemma lex_word cur w : sh_lex Unquoted cur (shlex_quote w) = Some [default "" cur +:+ w].
Proof. rewrite <- (app_nil_r_s (shlex_quote w)). by rewrite lex_quote. Qed.

(** A job runs in its own desk, whatever the texts of the schedule and of the desk hold. In the line of a
    job the shell reads the words [ws exec <desk> --] followed by the words of the job's command, the log as
    one word, if there is one, and then, as the words of the recording command, the desk and the name of the
    job: quotes, dollar signs, semicolons and newlines in these texts mean nothing to it. *)
Theorem command_runs_in_its_desk desk job : exists command log recording,
  _render_job_shell desk job
    = command +:+ (if is_empty (j_log job) then "" else " >> " +:+ log +:+ " 2>&1") +:+ "; ec=$?; " +:+ recording
      +:+ " $([ $ec -eq 0 ] && echo ok || echo failed) --detail " +:+ dq "exit $ec" +:+ "; exit $ec"
  /\ sh_words command = option_map (app ["/usr/local/bin/ws"; "exec"; desk; "--"]) (sh_words (j_command job))
  /\ sh_words log = Some [j_log job]
  /\ sh_words recording = Some ["/usr/local/bin/ws"; "deskwatch-record"; desk; "job_run"; j_name job].
Proof.
  exists (run_command desk job), (shlex_quote (j_log job)),
    ("/usr/local/bin/ws deskwatch-record " +:+ shlex_quote desk +:+ " job_run " +:+ shlex_quote (j_name job)).
  split; [unfold _render_job_shell, record_outcome; by rewrite !app_assoc_s|].
  unfold sh_words, run_command. cbn -[shlex_quote]. rewrite !lex_quote. cbn -[shlex_quote].
  rewrite !lex_word. by destruct (sh_lex Unquoted None (j_command job)).
Qed.

(** ** Lines *)

Definition one_line (s : string) : bool := all_chars (fun c => negb (is_linebreak c)) s.

Lemma splitlines_line acc l s :
  one_line l = true -> splitlines_acc acc (l +:+ String newline s) = (acc +:+ l) :: splitlines_acc "" s.
Proof.
  revert acc. induction l as [|c l IH]; intros acc; cbn [one_line all_chars String.append splitlines_acc].
  - intros _. by rewrite app_nil_r_s.
  - intros [Hc Hl]%andb_true_iff. apply negb_true_iff in Hc.
    assert (Ascii.eqb c (ascii_of_N 13) = false) as ->.
    { destruct (Ascii.eqb_spec c (ascii_of_N 13)) as [->|]; [discriminate Hc|done]. }
    cbn [andb]. rewrite Hc, IH by done. by rewrite app_assoc_s.
Qed.

Lemma splitlines_join ls :
  Forall (fun l => one_line l = true) ls -> splitlines (join (String newline "") (ls ++ [""])) = ls.
Proof.
  unfold splitlines. induction 1 as [|l ls Hl Hls IH]; [done|].
  assert (join (String newline "") ((l :: ls) ++ [""]) = l +:+ String newline (join (String newline "") (ls ++ [""]))) as ->.
  { destruct ls as [|l2 ls]; [done|]. done. }
  by rewrite splitlines_line, IH.
Qed.

Lemma one_line_app a b : one_line (a +:+ b) = one_line a && one_line b.
Proof. apply all_chars_app. Qed.

Lemma one_line_quote s : one_line s = true -> one_line (shlex_quote s) = true.
Proof.
  intros Hs. unfold shlex_quote. destruct (is_empty s); [done|]. destruct (all_chars shell_safe s); [done|].
  assert (one_line (replace_char squote quote_escape s) = true) as Hr.
  { induction s as [|c s IH]; [done|]. cbn in Hs. apply andb_true_iff in Hs as [Hc Hs]. specialize (IH Hs). cbn [replace_char].
    destruct (Ascii.eqb c squote); [by rewrite one_line_app, IH|]. cbn. by rewrite Hc. }
  change (one_line (String squote "" +:+ (replace_char squote quote_escape s +:+ String squote "")) = true).
  by rewrite !one_line_app, Hr.
Qed.

(** ** Jobs that hold no line break *)

Definition plain_job (desk : string) (j : ScheduleJob) : Prop :=
  one_line (j_cron j) = true /\ one_line (j_command j) = true /\ one_line (j_log j) = true /\ one_line (j_name j) = true.

Lemma one_line_cron_line desk j : one_line desk = true -> plain_job desk j -> one_line (cron_line desk j) = true.
Proof.
  intros Hd (Hc & Hm & Hl & Hn). unfold cron_line, _render_job_shell, run_command, record_outcome.
  rewrite !one_line_app, Hc, Hm, !(one_line_quote _ Hd), !(one_line_quote _ Hn). cbn [one_line andb].
  destruct (is_empty (j_log j)); [done|]. by rewrite !one_line_app, (one_line_quote _ Hl).
Qed.

Lemma split_ws_head c s : is_space c = false -> exists w ws, split_ws (String c s) = String c w :: ws.
Proof.
  intros Hc. cbn [split_ws]. rewrite Hc. destruct s as [|e s]; [by eexists _, _|].
  destruct (is_space e); [by eexists _, _|]. destruct (split_ws _); by eexists _, _.
Qed.

(** ** Jobs that were loaded *)

Definition cron_field (f : string) : Prop := f = "*" \/ (all_chars is_digit f = true /\ f <> "").

Lemma cron_field_match raw : has_char newline raw = false -> re_match _CRON_FIELD_RE raw = true -> cron_field raw.
Proof.
  intros Hn Hm. apply re_match_lang in Hm as [Hm|(t & -> & _)].
  - unfold _CRON_FIELD_RE in Hm. apply rlang_alt in Hm as [Hm|Hm]; [left; by apply rlang_char in Hm|].
    right. apply rlang_plus_chars in Hm. exact Hm.
  - rewrite has_char_app in Hn. apply orb_false_iff in Hn as [_ Hn]. discriminate Hn.
Qed.

Lemma split_ws_no_space s : Forall (fun w => all_chars (fun c => negb (is_space c)) w = true) (split_ws s).
Proof.
  induction s as [|c s IH]; [constructor|]. cbn [split_ws]. destruct (is_space c) eqn:Ec; [done|].
  assert (all_chars (fun c => negb (is_space c)) (String c "") = true) as H1 by (cbn; by rewrite Ec).
  destruct s as [|d s]; [by repeat constructor|]. destruct (is_space d); [by constructor|].
  destruct (split_ws (String d s)) as [|w ws]; [by repeat constructor|]. inversion IH; subst.
  constructor; [|done]. cbn. by rewrite Ec.
Qed.

Lemma cron_interval_ok expr fields names keys acc r :
  cron_interval expr fields names keys acc = Ok r -> length fields = length names -> length names = length keys ->
  Forall (fun f => re_match _CRON_FIELD_RE f = true) fields.
Proof.
  revert names keys acc. induction fields as [|f fs IH]; intros [|n ns] [|k ks] acc; cbn [cron_interval length]; try done.
  destruct (re_match _CRON_FIELD_RE f) eqn:E; [|done]. cbn [negb]. intros Hr [= Hn] [= Hk]. constructor; [done|]. by eapply IH.
Qed.

Lemma parse_cron_ok expr ivs : parse_cron_5field expr = Ok ivs ->
  length (split_ws expr) = 5%nat /\ Forall cron_field (split_ws expr).
Proof.
  unfold parse_cron_5field. destruct (Nat.eqb_spec (length (split_ws expr)) 5) as [E|]; [|done]. cbn [negb].
  intros (i & Hi & _)%res_bind_ok. split; [done|]. apply cron_interval_ok in Hi; [|done..].
  pose proof (split_ws_no_space expr) as Hs. rewrite List.Forall_forall in *. intros f Hf. apply cron_field_match; [|by apply Hi].
  specialize (Hs f Hf). rewrite has_char_all. apply negb_false_iff. eapply all_chars_impl; [|exact Hs].
  intros c Hc. apply negb_true_iff in Hc. destruct (Ascii.eqb_spec newline c) as [<-|]; [discriminate Hc|done].
Qed.

(** A job as the loader makes it: a name of its characters (and at most one newline after them), and a
    cron expression of five fields, each a star or digits. *)
Definition well_formed_job (j : ScheduleJob) : Prop :=
  re_match _JOB_NAME_RE (j_name j) = true /\ length (split_ws (j_cron j)) = 5%nat /\ Forall cron_field (split_ws (j_cron j)).

Lemma load_job_ok `{Env} p n v j : load_job p n v = Ok j -> well_formed_job j /\ j_name j = n.
Proof.
  unfold load_job. destruct (re_match _JOB_NAME_RE n) eqn:En; [|done]. destruct v as [| | | | | |o]; try done.
  destruct (unknown_job_keys o); [|done]. destruct (missing_job_key p n o); [done|].
  intros (i & Hi & [= <-])%res_bind_ok. apply parse_cron_ok in Hi. done.
Qed.

Lemma schedule_jobs_ok `{Env} p raw jobs : schedule_jobs p raw = Ok jobs -> Forall well_formed_job jobs.
Proof.
  unfold schedule_jobs. destruct raw as [| | | | | |o]; try done. destruct (assoc "jobs" o) as [[| | | | | |js]|]; try done.
  intros Hm%mapE_ok. induction Hm as [|[k v] j js' js'' Hj _ IH]; constructor; [|done]. by apply load_job_ok in Hj as [Hj _].
Qed.

(** ** Installing and listing *)

Section Install.
Context `{Env}.

Lemma no_fault_op w : (forall n, fs_fault n = None) -> fs_op w = (Ok tt,
  mkWorld (w_db w) (w_files w) (w_host w) (w_audit w) (w_calls w) (w_ticks w) (w_uuids w) (S (w_fsops w))).
Proof. intros Hf. unfold fs_op. by rewrite Hf. Qed.

Lemma host_write_run p d w : (forall n, fs_fault n = None) -> w_host w !! p <> Some NDir ->
  exists w', host_write p d w = (Ok tt, w') /\ w_host w' = <[p := NFile d]> (w_host w).
Proof.
  intros Hf Hd. unfold host_write. rewrite (bind_ok _ _ _ _ _ (no_fault_op w Hf)). unfold host_at. rewrite gets_bind. cbn [w_host].
  destruct (w_host w !! p) as [[|x]|]; [done|..]; (eexists; split; [reflexivity|done]).
Qed.

Lemma host_read_run p d w : (forall n, fs_fault n = None) -> w_host w !! p = Some (NFile d) ->
  exists w', host_read p w = (Ok d, w').
Proof.
  intros Hf Hd. unfold host_read. rewrite (bind_ok _ _ _ _ _ (no_fault_op w Hf)). unfold host_at. rewrite gets_bind. cbn [w_host].
  rewrite Hd. eexists. reflexivity.
Qed.

Lemma cron_lines_kept desk jobs : Forall well_formed_job jobs ->
  List.filter cron_entry_line (cron_header desk ++ map (cron_line desk) jobs) = map (cron_line desk) jobs.
Proof.
  intros Hj. rewrite filter_app. change (List.filter cron_entry_line (cron_header desk)) with (@nil string). cbn [app].
  induction Hj as [|j jobs (_ & Hn & Hc) _ IH]; [done|]. cbn [map List.filter].
  assert (cron_entry_line (cron_line desk j) = true) as ->; [|by rewrite IH].
  assert (exists c s, j_cron j = String c s /\ (is_space c = true \/ is_digit c = true \/ c = "*"%char)) as (c & s & E & Hcase).
  { destruct (j_cron j) as [|c s]; [done|]. exists c, s. split; [done|]. destruct (is_space c) eqn:Ec; [by left|right].
    destruct (split_ws_head c s Ec) as (w & ws & Ew). rewrite Ew in Hc.
    apply List.Forall_inv in Hc as [[= -> _]|[Hd _]]; [by right|]. left. by apply andb_true_iff in Hd as [Hd _]. }
  unfold cron_line. rewrite E. unfold cron_entry_line, startswith. cbn [is_empty String.append negb].
  rewrite !prefix_cons. assert (Ascii.eqb "#" c = false /\ Ascii.eqb "P" c = false) as [-> ->]; [|done].
  assert (negb (is_space c || is_digit c || Ascii.eqb c "*") || (negb (Ascii.eqb "#" c) && negb (Ascii.eqb "P" c)) = true) as Ha.
  { clear. revert c. apply forall_ascii. by intros [] [] [] [] [] [] [] []. }
  assert (is_space c || is_digit c || Ascii.eqb c "*" = true) as Ht by (destruct Hcase as [-> | [-> | ->]]; [done|by rewrite orb_true_r|done]).
  rewrite Ht in Ha. cbn in Ha. by breflect.
Qed.

Lemma installed_lines desk jobs : Forall well_formed_job jobs -> one_line desk = true -> Forall (plain_job desk) jobs ->
  List.filter cron_entry_line (splitlines (render_cron_file desk jobs)) = map (cron_line desk) jobs.
Proof.
  intros Hw Hd Hp. unfold render_cron_file. rewrite app_assoc, splitlines_join; [by rewrite cron_lines_kept|].
  apply List.Forall_app. split; [repeat constructor; by rewrite one_line_app, Hd|].
  apply List.Forall_map. eapply List.Forall_impl; [|exact Hp]. intros j Hj. by apply one_line_cron_line.
Qed.

(** An operation whose [PermissionError] is worded anew. *)
Lemma on_permission_ok {A} (m : W A) message hint w r w' : on_permission_error m message hint w = (r, w') ->
  match r with Ok a => m w = (Ok a, w') | Err _ => exists e, m w = (Err e, w') end.
Proof.
  unfold on_permission_error, catch. destruct (m w) as [[a|e] wx]; [by intros [= <- <-]|].
  destruct (_ =s _); intros [= <- <-]; by eexists.
Qed.

Lemma install_cron_ran desk jobs w : let '(r, w') := install_cron desk jobs w in
  match r with
  | Ok p => p = _cron_file_path desk /\ w_host w' = <[p := NFile (render_cron_file desk jobs)]> (w_host w)
  | Err _ => ~ ((forall n, fs_fault n = None) /\ w_host w !! _cron_file_path desk <> Some NDir)
  end.
Proof.
  unfold install_cron. match goal with |- context[on_permission_error ?m ?a ?b] => destruct (on_permission_error m a b w) as [r1 w1] eqn:E end.
  pose proof (on_permission_ok _ _ _ _ _ _ E) as Hr. destruct r1 as [[]|e].
  - rewrite (bind_ok _ _ _ _ _ E). split; [done|]. apply bind_inv in Hr as [(u & w0 & E0 & E1)|(e & _ & [=])].
    apply fs_op_host in E1. rewrite E1. unfold host_write in E0. apply bind_inv in E0 as [(u' & wa & Ea & E0)|(e & _ & [=])].
    apply fs_op_host in Ea. unfold host_at in E0. rewrite gets_bind, Ea in E0.
    destruct (w_host w !! _cron_file_path desk) as [[|d]|]; [discriminate E0|..]; injection E0 as _ <-; cbn; by rewrite Ea.
  - rewrite (bind_err _ _ _ _ _ E). intros [Hf Hd]. destruct Hr as [e' Hr].
    destruct (host_write_run (_cron_file_path desk) (render_cron_file desk jobs) w Hf Hd) as (w2 & E2 & _).
    rewrite (bind_ok _ _ _ _ _ E2), no_fault_op in Hr by done. discriminate Hr.
Qed.

(** What the listing answers of the file, and that it changes none. *)
Lemma list_cron_ran desk w : let '(r, w') := list_installed_cron desk w in
  match r with
  | Ok ls => ls = match w_host w !! _cron_file_path desk with
                  | Some (NFile d) => List.filter cron_entry_line (splitlines d)
                  | _ => []
                  end
  | Err _ => ~ ((forall n, fs_fault n = None) /\ w_host w !! _cron_file_path desk <> Some NDir)
  end.
Proof.
  unfold list_installed_cron, path_exists. rewrite gets_bind.
  destruct (w_host w !! _cron_file_path desk) as [n|] eqn:Eh; cbn [is_some negb]; [|done].
  unfold host_read. rewrite bind_bind. destruct (fs_op w) as [[[]|e] w1] eqn:E1; pose proof (fs_op_host _ _ _ E1) as Eh1.
  - rewrite (bind_ok _ _ _ _ _ E1), bind_bind. unfold host_at. rewrite gets_bind, Eh1, Eh. destruct n; [|done]. cbn. by intros [_ []].
  - rewrite (bind_err _ _ _ _ _ E1). intros [Hf _]. by rewrite no_fault_op in E1.
Qed.

Lemma remove_cron_ran desk w : let '(r, w') := remove_cron desk w in
  match r with
  | Ok o => w_host w' = delete (_cron_file_path desk) (w_host w)
            /\ o = (if is_some (w_host w !! _cron_file_path desk) then Some (_cron_file_path desk) else None)
  | Err _ => ~ ((forall n, fs_fault n = None) /\ w_host w !! _cron_file_path desk <> Some NDir)
  end.
Proof.
  unfold remove_cron, path_exists. rewrite gets_bind.
  destruct (w_host w !! _cron_file_path desk) as [n|] eqn:Eh; cbn [is_some]; [|by rewrite delete_id].
  match goal with |- context[on_permission_error ?m ?a ?b] => destruct (on_permission_error m a b w) as [r1 w1] eqn:E end.
  pose proof (on_permission_ok _ _ _ _ _ _ E) as Hr. destruct r1 as [[]|e].
  - rewrite (bind_ok _ _ _ _ _ E). split; [|done]. unfold host_unlink in Hr.
    apply bind_inv in Hr as [(u & wa & Ea & Hr)|(e & _ & [=])]. apply fs_op_host in Ea. unfold host_at in Hr.
    rewrite gets_bind, Ea, Eh in Hr. destruct n; [discriminate Hr|]. injection Hr as <-. cbn. by rewrite Ea.
  - rewrite (bind_err _ _ _ _ _ E). intros [Hf Hd]. destruct Hr as [e' Hr]. unfold host_unlink in Hr.
    rewrite (bind_ok _ _ _ _ _ (no_fault_op w Hf)) in Hr. unfold host_at in Hr. rewrite gets_bind in Hr. cbn [w_host] in Hr.
    rewrite Eh in Hr. by destruct n.
Qed.

(** An operation on the file, from [w], that fails only if a file operation does or the file is a directory. *)
Definition fails_with_files (file : string) (w : world) {A} (r : res exn A) : Prop :=
  is_ok r = false -> ~ ((forall n, fs_fault n = None) /\ w_host w !! file <> Some NDir).

(** C32: A schedule that was loaded and is installed for cron is what the listing shows until it is removed. The install writes the
    desk's file and no other; the listing, if it succeeds, is then one line for each job, in order: its expression, the
    user root and the job's wrapped command; and a removal that succeeds removes that file and no other, after which
    the listing, if it succeeds, is empty. Nothing of this fails unless a file operation does or a directory has the file's name. The
    claim is for a desk's name and jobs without a line break in their texts, which the loader does not refuse (see
    [log_newline_is_a_cron_line] and [torn_cron_line]); what cron makes of the lines is not part of it. *)
Theorem installed_schedule_reads_back path raw desk jobs w :
  schedule_jobs path raw = Ok jobs -> one_line desk = true -> Forall (plain_job desk) jobs ->
  let file := _cron_file_path desk in
  let '(r, w1) := install_cron desk jobs w in
  let '(r_listed, _) := list_installed_cron desk w1 in
  let '(r_removed, w2) := remove_cron desk w1 in
  let '(r_relisted, _) := list_installed_cron desk w2 in
  fails_with_files file w r
  /\ forall p, r = Ok p ->
     p = file /\ w_host w1 = <[file := NFile (render_cron_file desk jobs)]> (w_host w)
     /\ fails_with_files file w1 r_listed /\ fails_with_files file w1 r_removed
     /\ (forall ls, r_listed = Ok ls -> ls = map (cron_line desk) jobs)
     /\ forall o, r_removed = Ok o ->
        o = Some file /\ w_host w2 = delete file (w_host w)
        /\ fails_with_files file w2 r_relisted /\ forall ls, r_relisted = Ok ls -> ls = [].
Proof.
  intros Hl Hd Hp file. apply schedule_jobs_ok in Hl as Hw.
  pose proof (install_cron_ran desk jobs w) as H1. destruct (install_cron desk jobs w) as [r w1].
  pose proof (list_cron_ran desk w1) as H2. destruct (list_installed_cron desk w1) as [r2 ?].
  pose proof (remove_cron_ran desk w1) as H3. destruct (remove_cron desk w1) as [r3 w2].
  pose proof (list_cron_ran desk w2) as H4. destruct (list_installed_cron desk w2) as [r4 ?].
  fold file in H1, H2, H3, H4. unfold fails_with_files. split; [by destruct r|]. intros p ->. destruct H1 as [-> Eh].
  assert (w_host w1 !! file = Some (NFile (render_cron_file desk jobs))) as El by (by rewrite Eh, lookup_insert_eq).
  split_and!; [done|exact Eh|by destruct r2|by destruct r3|..].
  - intros ls ->. by rewrite H2, El, installed_lines.
  - intros o ->. rewrite El in H3. destruct H3 as [E2 ->]. split; [done|]. rewrite Eh, delete_insert_eq in E2. split; [exact E2|]. rewrite E2, lookup_delete_eq in *.
    split; [by destruct r4|]. by intros ls ->.
Qed.
End Install.

Definition jobs_yaml (command log : string) : json :=
  JObj [("jobs", JObj [("nightly", JObj [("cron", JStr "0 13 * * *"); ("command", JStr command); ("log", JStr log)]);
                       ("week-ly", JObj [("cron", JStr " 5  4 * * 1 "); ("command", JStr "make report")])])].

Definition nightly_jobs : list ScheduleJob :=
  [mkJob "nightly" "0 13 * * *" "python run.py" "/var/log/my job.log"; mkJob "week-ly" "5  4 * * 1" "make report" ""].

Lemma installed_schedule_reads_back_witness :
  schedule_jobs (H := demo_env) "s.yaml" (jobs_yaml "python run.py" "/var/log/my job.log") = Ok nightly_jobs
  /\ exists w1 ls w2, install_cron (H := demo_env) "d-1" nightly_jobs empty_world = (Ok "/etc/cron.d/drydock-d-1", w1)
    /\ list_installed_cron (H := demo_env) "d-1" w1 = (Ok ls, w2) /\ ls = map (cron_line "d-1") nightly_jobs.
Proof.
  assert (schedule_jobs (H := demo_env) "s.yaml" (jobs_yaml "python run.py" "/var/log/my job.log") = Ok nightly_jobs) as El
    by (by vm_compute).
  split; [exact El|].
  pose proof (installed_schedule_reads_back (H := demo_env) "s.yaml" (jobs_yaml "python run.py" "/var/log/my job.log") "d-1"
    nightly_jobs empty_world El eq_refl ltac:(repeat constructor)) as Hi. cbv zeta in Hi.
  destruct (install_cron (H := demo_env) "d-1" nightly_jobs empty_world) as [r w1].
  destruct (list_installed_cron (H := demo_env) "d-1" w1) as [r2 w2] eqn:E2. destruct (remove_cron _ _) as [r3 w3].
  destruct (list_installed_cron _ w3) as [r4 w4]. destruct Hi as [Hr Hi].
  destruct r as [p|e]; [|by destruct (Hr eq_refl)]. destruct (Hi p eq_refl) as (-> & Eh & Hr2 & _ & Hs & _).
  destruct r2 as [ls|e]; [exists w1, ls, w2; split_and!; [done|exact E2|by apply Hs]|].
  destruct (Hr2 eq_refl). split; [done|]. by rewrite Eh, lookup_insert_eq.
Defined.

(** ** Texts that slip a line of their own into the cron file *)

(** The lines of the file of a schedule that are no comments. *)
Definition file_lines (raw : json) : option (list string) :=
  match schedule_jobs (H := demo_env) "s.yaml" raw with
  | Ok jobs => Some (List.filter cron_entry_line (splitlines (render_cron_file "d-1" jobs)))
  | Err _ => None
  end.

(** A quoted log path with a newline: the quotes hold for a shell, but they do not keep the path in one line of the file. What
    follows the newline is a line of its own, with the fields, the user and the command that the path has. *)
Example log_newline_is_a_cron_line :
  exists l1 l2, file_lines (JObj [("jobs", JObj [("j", JObj [("cron", JStr "0 1 * * *"); ("command", JStr "true");
      ("log", JStr ("x" +:+ String newline ("* * * * * root id #")))])])]) = Some [l1; l2]
    /\ startswith l2 "* * * * * root id #" = true.
Proof. eexists _, _. split; [by vm_compute|]. done. Qed.

(** The fields are split at any white space: a cron expression with a newline in it is accepted, and the
    job's line is torn in two, the first with four fields and nothing else. *)
Example torn_cron_line : exists l,
  file_lines (JObj [("jobs", JObj [("j", JObj [("cron", JStr ("0 13 * *" +:+ String newline "*")); ("command", JStr "true")])])])
  = Some ["0 13 * *"; l] /\ startswith l "* root /usr/local/bin/ws exec d-1" = true.
Proof. eexists. split; [by vm_compute|done]. Qed.

(** No field has a range. *)
Example minute_out_of_range : exists i, parse_cron_5field "99 1 * * *" = Ok i.
Proof. eexists. by vm_compute. Qed.

(** A dollar sign matches before a final newline: the name of a job may end in one. *)
Example job_name_with_newline : re_match _JOB_NAME_RE ("nightly" +:+ String newline "") = true.
Proof. by vm_compute. Qed.

(** A desk's plists are looked up by a pattern that a dot in another desk's name also fills. *)
Example plist_of_another_desk :
  fnmatchcase (_launchd_label "web.old" "nightly" +:+ ".plist") (desk_plists "web") = true.
Proof. by vm_compute. Qed.
