(* ===== verification/Deskwatch.v ===== *)
(** [core/deskwatch.py] and [cli/deskwatch.py]: whether a desk's declared workload does its job. Scheduled
    jobs and probes leave events in the registry; outputs are looked at in the container. A [timedelta] is
    its number of microseconds. *)

From S2P Require Import Prelude PyStr PyVal Datetime Registry World Container ProjectConfig.
From Stdlib Require Import List.
From Corelib Require SpecFloat.
Import SpecFloat.

(** ** Durations *)

Definition us_per_second : Z := 1000000.

(** [timedelta]'s range: a magnitude of at most 999999999 days. *)
Definition timedelta_of_us (us : Z) : res exn Z :=
  let days := us / us_per_day in
  if (-999999999 <=? days) && (days <=? 999999999) then Ok us
  else Err (PyError "OverflowError" ("days=" +:+ str_of_Z days +:+ "; must have magnitude <= 999999999")).

(** [math.modf] of a finite double: the integer part and the fraction. *)
Definition modf (s : bool) (m : positive) (e : Z) : Z * spec_float :=
  (float_trunc s m e,
   if 0 <=? e then S754_zero s
   else match Z.pos m mod 2 ^ (- e) with Z.pos r => S754_finite s r e | _ => S754_zero s end).

(** A fraction in (-1, 1), rounded half to even as the last part of a sum whose rest is [x]. *)
Definition round_leftover (x : Z) (f : spec_float) : Z :=
  match f with
  | S754_finite s m e =>
      let up := if s then -1 else 1 in
      match Z.pos m * 2 ?= 2 ^ (- e) with
      | Lt => 0 | Gt => up | Eq => if Z.odd x then up else 0
      end
  | _ => 0
  end.

(** [timedelta(seconds=f)]. *)
Definition timedelta_of_float (f : spec_float) : res exn Z :=
  match f with
  | S754_finite s m e =>
      let '(whole, fraction) := modf s m e in
      match SFmul prec emax fraction (sf_of_Z us_per_second) with
      | S754_finite s' m' e' =>
          let '(us, leftover) := modf s' m' e' in
          let x := whole * us_per_second + us in timedelta_of_us (x + round_leftover x leftover)
      | _ => timedelta_of_us (whole * us_per_second)
      end
  | f => _ ← int_of_float f; Ok 0
  end.

Definition _DURATION_UNITS : list (string * Z) := [("s", 1); ("m", 60); ("h", 3600); ("d", 86400)].

Fixpoint take_digits (s : string) : string * string :=
  match s with
  | String c s' => if is_digit c then let '(d, r) := take_digits s' in (String c d, r) else ("", s)
  | EmptyString => ("", "")
  end.

(** The groups of [^\s*(\d+)\s*([smhd])\s*$], case ignored. *)
Definition duration_match (s : string) : option (Z * string) :=
  let '(n, r) := take_digits (strip s) in
  let unit := lower (lstrip_by is_space r) in
  if negb (is_empty n) && has_key unit _DURATION_UNITS then Some (int_of_digits n, unit) else None.

Definition parse_duration `{FloatRepr} (value : json) : res exn Z :=
  match value with
  | JInt _ | JBool _ | JFloat _ => f ← py_float value; timedelta_of_float f
  | _ =>
      match duration_match (py_str value) with
      | None => Err (WsError ("Invalid duration: " +:+ py_repr value)
                       (Some "Use forms like '25h', '30m', '1d', or bare seconds"))
      | Some (n, unit) => timedelta_of_us (n * default 0 (assoc unit _DURATION_UNITS) * us_per_second)
      end
  end.

(** [int(delta.total_seconds())]: the quotient is rounded to a double, then cut. *)
Definition total_seconds (us : Z) : spec_float :=
  match us with
  | Z0 => S754_zero false
  | Z.pos m => SFdiv prec emax (S754_finite false m 0) (S754_finite false 1000000 0)
  | Z.neg m => SFdiv prec emax (S754_finite true m 0) (S754_finite false 1000000 0)
  end.
Definition int_seconds (us : Z) : Z :=
  match total_seconds us with S754_finite s m e => float_trunc s m e | _ => 0 end.

Definition format_age (delta : Z) : string :=
  let total := int_seconds delta in
  if total <? 60 then str_of_Z total +:+ "s"
  else if total <? 3600 then str_of_Z (total / 60) +:+ "m"
  else if total <? 86400 then
    let h := total / 60 / 60 in
    let m := (total / 60) mod 60 in
    if m =? 0 then str_of_Z h +:+ "h" else str_of_Z h +:+ "h " +:+ str_of_Z m +:+ "m"
  else
    let d := total / 86400 in
    let h := total mod 86400 / 3600 in
    if h =? 0 then str_of_Z d +:+ "d" else str_of_Z d +:+ "d " +:+ str_of_Z h +:+ "h".

(** ** What a desk declares *)

(** A name is whatever the YAML holds. *)
Record JobExpectation : Type := mkJobX { je_name : json; expect_success_within : Z }.
Record OutputExpectation : Type := mkOutputX { oe_path : json; max_age : Z; may_be_empty : bool }.
Record ProbeExpectation : Type := mkProbeX { pe_name : json; pe_cmd : json; pe_interval : Z }.
Record DeskwatchConfig : Type := mkDeskwatchConfig {
  dc_jobs : list JobExpectation; dc_outputs : list OutputExpectation; dc_probes : list ProbeExpectation
}.

Definition is_nil {A} (l : list A) : bool := match l with [] => true | _ => false end.

Definition config_is_empty (c : DeskwatchConfig) : bool :=
  is_nil (dc_jobs c) && is_nil (dc_outputs c) && is_nil (dc_probes c).

Section Parse.
Context `{FloatRepr}.

(** [for item in raw.get(key) or []], each a dict with the keys of [required]. *)
Definition entries {A} (raw : obj) (key message fix_hint : string) (required : list string) (of_item : obj -> res exn A)
    : res exn (list A) :=
  items ← as_list (py_or (jget key raw) (JList []));
  mapE (fun item => match item with
                    | JObj o => if forallb (fun k => has_key k o) required then of_item o
                                else Err (WsError message (Some fix_hint))
                    | _ => Err (WsError message (Some fix_hint))
                    end) items.

Definition job_expectation (item : obj) : res exn JobExpectation :=
  within ← parse_duration (jget_default "expect_success_within" (JStr "25h") item);
  Ok (mkJobX (jget "name" item) within).

Definition output_expectation (item : obj) : res exn OutputExpectation :=
  age ← parse_duration (jget_default "max_age" (JStr "25h") item);
  Ok (mkOutputX (jget "path" item) age (truthy (jget_default "may_be_empty" (JBool false) item))).

Definition probe_expectation (item : obj) : res exn ProbeExpectation :=
  every ← parse_duration (jget_default "interval" (JStr "1h") item);
  Ok (mkProbeX (jget "name" item) (jget "cmd" item) every).

Definition parse_deskwatch_config (raw : json) : res exn DeskwatchConfig :=
  if negb (truthy raw) then Ok (mkDeskwatchConfig [] [] [])
  else
    match raw with
    | JObj o =>
        jobs ← entries o "jobs" "deskwatch.jobs entries must be dicts with at least 'name'"
          "Example: - name: daily-crawl\n          expect_success_within: 25h" ["name"] job_expectation;
        outputs ← entries o "outputs" "deskwatch.outputs entries must be dicts with at least 'path'"
          "Example: - path: /drydock/data/out.db\n          max_age: 25h" ["path"] output_expectation;
        probes ← entries o "probes" "deskwatch.probes entries must have 'name' and 'cmd'"
          "Example: - name: db-readable\n          cmd: 'test -r /path'" ["name"; "cmd"] probe_expectation;
        Ok (mkDeskwatchConfig jobs outputs probes)
    | v => attr_error v "get"
    end.
End Parse.

(** ** The events of the registry *)

Definition dw_key (drydock_id kind name : string) (r : deskwatch_row) : bool :=
  (dw_drydock_id r =s drydock_id) && (dw_kind r =s kind) && (dw_name r =s name).

(** [ORDER BY timestamp DESC]. *)
Definition dw_newer (a b : deskwatch_row) : bool := String.leb (dw_timestamp b) (dw_timestamp a).

Definition last_deskwatch_event (drydock_id kind name : string) (d : db) : option deskwatch_row :=
  head (order_by dw_newer (tbl_select (dw_key drydock_id kind name) (deskwatch_events d))).

Definition list_deskwatch_events (drydock_id : string) (limit : Z) (d : db) : list deskwatch_row :=
  sql_limit limit (order_by dw_newer (tbl_select (fun r => dw_drydock_id r =s drydock_id) (deskwatch_events d))).

Definition record_deskwatch_event (ts drydock_id kind name status : string) (detail : option string) : DB Z :=
  n ← gets (fun d => deskwatch_seq d + 1);
  _ ← modify (fun d => set_deskwatch (deskwatch_events d ++ [mkDeskwatch n drydock_id kind name ts status detail]) n d);
  mret n.

(** ** Evaluation *)

Record Check_ : Type := mkCheck { ck_kind : string; ck_name : json; ck_healthy : bool; ck_detail : string; ck_raw : obj }.

Definition check_to_dict (c : Check_) : json :=
  JObj (jmerge [("kind", JStr (ck_kind c)); ("name", ck_name c); ("healthy", JBool (ck_healthy c));
                ("detail", JStr (ck_detail c))] (ck_raw c)).

Definition _parse_ts (ts : string) : res exn datetime :=
  let ts := if endswith ts "Z" then drop_last 1 ts +:+ "+00:00" else ts in
  match fromisoformat ts with
  | Some t => Ok (mkDatetime (dt_us t) true)
  | None => Err (ValueError ("Invalid isoformat string: " +:+ repr_str ts))
  end.

(** [a - b] of two times in UTC. *)
Definition dt_sub (a b : datetime) : Z := dt_us a - dt_us b.

(** [datetime.fromtimestamp(n, tz=utc)]: [gmtime] has years of 32 bits, a datetime those from 1 to 9999. *)
Definition epoch_day : Z := 719162.
Definition year_start (y : Z) : Z := (days_before_year y - epoch_day) * 86400.
Definition fromtimestamp (n : Z) : res exn datetime :=
  let us := (epoch_day * 86400 + n) * us_per_second in
  if (0 <=? us) && (us <? max_days * us_per_day) then Ok (mkDatetime us true)
  else if (year_start (1900 - 2 ^ 31) <=? n) && (n <? year_start (1900 + 2 ^ 31)) then Err (ValueError "year is out of range")
  else if (- 2 ^ 63 <=? n) && (n <? 2 ^ 63) then Err (PyError "OSError" "Value too large for defined data type")
  else Err (PyError "OverflowError" "timestamp out of range for platform time_t").

(** [job.name] as the key of an event: what SQLite makes of the parameter in a TEXT column, [None] for NULL.
    [sql_real] is its text of a REAL. *)
Definition sql_text (sql_real : spec_float -> string) (v : json) : res exn (option string) :=
  match v with
  | JStr s => Ok (Some s)
  | JInt z => if (- 2 ^ 63 <=? z) && (z <? 2 ^ 63) then Ok (Some (str_of_Z z))
              else Err (PyError "OverflowError" "Python int too large to convert to SQLite INTEGER")
  | JBool b => Ok (Some (if b then "1" else "0"))
  | JFloat S754_nan | JNull => Ok None
  | JFloat f => Ok (Some (sql_real f))
  | v => Err (PyError "ProgrammingError" ("Error binding parameter 3: type '" +:+ type_name v +:+ "' is not supported"))
  end.

Section Evaluate.
Context `{Env} (sql_real : spec_float -> string).

Definition last_event (drydock_id kind : string) (name : json) (d : db) : res exn (option deskwatch_row) :=
  key ← sql_text sql_real name;
  Ok (match key with Some n => last_deskwatch_event drydock_id kind n d | None => None end).

Definition record_event (drydock_id kind : string) (name : json) (status detail : string) : W unit :=
  key ← lift (sql_text sql_real name);
  match key with
  | None => throw IntegrityError
  | Some n => ts ← _utc_now; _ ← reg (record_deskwatch_event ts drydock_id kind n status (Some detail)); mret tt
  end.

(** *** Jobs *)

Definition or_text (o : option string) (d : string) : string :=
  match o with Some s => if is_empty s then d else s | None => d end.

Definition evaluate_job (d : db) (drydock_id : string) (now : datetime) (job : JobExpectation) : res exn Check_ :=
  let window := expect_success_within job in
  last ← last_event drydock_id "job_run" (je_name job) d;
  match last with
  | None => Ok (mkCheck "job" (je_name job) false ("no run on record; expected within " +:+ format_age window)
                  [("last_run", JNull); ("expect_success_within", JInt (int_seconds window))])
  | Some last =>
      last_ts ← _parse_ts (dw_timestamp last);
      let age := dt_sub now last_ts in
      let last_ok := dw_status last =s "ok" in
      let within := age <=? window in
      let detail :=
        if negb last_ok then "last run " +:+ format_age age +:+ " ago → " +:+ dw_status last +:+ " ("
                             +:+ or_text (dw_detail last) "no detail" +:+ ")"
        else if negb within then "last success " +:+ format_age age +:+ " ago, exceeds " +:+ format_age window
        else "last success " +:+ format_age age +:+ " ago, within " +:+ format_age window in
      Ok (mkCheck "job" (je_name job) (last_ok && within) detail
            [("last_run", JStr (dw_timestamp last)); ("last_status", JStr (dw_status last));
             ("age_seconds", JInt (int_seconds age)); ("expect_success_within", JInt (int_seconds window))])
  end.

Definition evaluate_jobs (drydock_id : string) (jobs : list JobExpectation) (now : datetime) (d : db) : res exn (list Check_) :=
  mapE (evaluate_job d drydock_id now) jobs.

(** *** Outputs *)

(** An argument that is no text is a [TypeError] of [subprocess.run]. *)
Definition str_arg (v : json) : res exn string :=
  match v with
  | JStr s => Ok s
  | v => Err (PyError "TypeError" ("expected str, bytes or os.PathLike object, not " +:+ type_name v))
  end.

Definition _docker_exec_probe (container_id : string) (args : list string) : W (Z * string * string) :=
  run_uncaught (mkCall (["docker"; "exec"; container_id] ++ args) "").

(** [except (subprocess.TimeoutExpired, OSError)]. *)
Definition probe_failure (e : exn) : bool := (exn_class e =s "TimeoutExpired") || is_os_error e.

Definition try_probe (container_id : string) (args : list string) : W (Z * string * string + string) :=
  catch (r ← _docker_exec_probe container_id args; mret (inl r))
        (fun e => if probe_failure e then mret (inr (str_exn e)) else throw e).

(** The modification time and the size, or [None] for a [ValueError]. *)
Definition stat_of (stdout : string) : res exn (option (datetime * Z)) :=
  match split_ws stdout with
  | [mtime_epoch; size] =>
      match int_of_str mtime_epoch with
      | None => Ok None
      | Some n =>
          match fromtimestamp n with
          | Ok mtime => Ok (option_map (fun size => (mtime, size)) (int_of_str size))
          | Err (ValueError _) => Ok None
          | Err e => Err e
          end
      end
  | _ => Ok None
  end.

Definition output_check (out : OutputExpectation) (healthy : bool) (detail : string) (more : obj) : Check_ :=
  mkCheck "output" (oe_path out) healthy detail (("path", oe_path out) :: more).

(** What a completed [stat] says of the file. *)
Definition judge_output (out : OutputExpectation) (now mtime : datetime) (size : Z) : Check_ :=
  let age := dt_sub now mtime in
  let age_seconds := ("age_seconds", JInt (int_seconds age)) in
  if (size =? 0) && negb (may_be_empty out) then
    output_check out false "empty file (may_be_empty: false)" [("size", JInt 0); age_seconds]
  else if max_age out <? age then
    output_check out false ("age " +:+ format_age age +:+ " exceeds " +:+ format_age (max_age out))
      [("size", JInt size); age_seconds; ("max_age_seconds", JInt (int_seconds (max_age out)))]
  else
    output_check out true ("fresh (" +:+ format_age age +:+ " old, " +:+ str_of_Z size +:+ " bytes)")
      [("size", JInt size); age_seconds].

Definition evaluate_output (container_id : string) (now : datetime) (out : OutputExpectation) : W Check_ :=
  if is_empty container_id then mret (output_check out false "container not running; cannot check" [])
  else
    path ← lift (str_arg (oe_path out));
    result ← try_probe container_id ["stat"; "-c"; "%Y %s"; path];
    match result with
    | inr exc => mret (output_check out false ("stat failed: " +:+ exc) [])
    | inl (returncode, stdout, _) =>
        if negb (returncode =? 0) then mret (output_check out false "missing" [("missing", JBool true)])
        else
          found ← lift (stat_of stdout);
          match found with
          | None => mret (output_check out false ("unparseable stat output: " +:+ repr_str (strip stdout)) [])
          | Some (mtime, size) => mret (judge_output out now mtime size)
          end
    end.

Definition evaluate_outputs (container_id : string) (outputs : list OutputExpectation) (now : datetime) : W (list Check_) :=
  mapM (evaluate_output container_id now) outputs.

(** *** Probes *)

Definition not_subscriptable {A} : W A := throw (PyError "TypeError" "'NoneType' object is not subscriptable").

(** [should_run]. *)
Definition probe_is_due (force_rerun : bool) (now : datetime) (probe : ProbeExpectation) (last : option deskwatch_row)
    : res exn bool :=
  match last with
  | Some last =>
      if force_rerun then Ok true
      else last_ts ← _parse_ts (dw_timestamp last); Ok (negb (dt_sub now last_ts <? pe_interval probe))
  | None => Ok true
  end.

(** The status and the detail of one run of a probe's command. *)
Definition run_probe (container_id cmd : string) : W (string * string) :=
  result ← try_probe container_id ["sh"; "-lc"; cmd];
  mret (match result with
        | inl (returncode, _, stderr) =>
            (if returncode =? 0 then "ok" else "failed",
             "exit " +:+ str_of_Z returncode +:+ (if is_empty (strip stderr) then "" else ": " +:+ stake 120 (strip stderr)))
        | inr exc => ("failed", "probe exception: " +:+ exc)
        end).

Definition probe_check (now : datetime) (probe : ProbeExpectation) (last : deskwatch_row) : res exn Check_ :=
  last_ts ← _parse_ts (dw_timestamp last);
  let age := dt_sub now last_ts in
  Ok (mkCheck "probe" (pe_name probe) (dw_status last =s "ok")
        (dw_status last +:+ " (" +:+ format_age age +:+ " ago)"
         +:+ (if is_empty (or_text (dw_detail last) "") then "" else " — " +:+ or_text (dw_detail last) ""))
        [("cmd", pe_cmd probe); ("last_status", JStr (dw_status last)); ("age_seconds", JInt (int_seconds age))]).

Definition evaluate_probe (drydock_id container_id : string) (now : datetime) (force_rerun : bool)
    (probe : ProbeExpectation) : W Check_ :=
  last ← reg_query (last_event drydock_id "probe_result" (pe_name probe));
  due ← lift (probe_is_due force_rerun now probe last);
  if due : bool then
    if is_empty container_id then
      _ ← record_event drydock_id "probe_result" (pe_name probe) "missing" "container not running";
      mret (mkCheck "probe" (pe_name probe) false "container not running" [("cmd", pe_cmd probe)])
    else
      cmd ← lift (str_arg (pe_cmd probe));
      '(status, detail) ← run_probe container_id cmd;
      _ ← record_event drydock_id "probe_result" (pe_name probe) status detail;
      last ← reg_query (last_event drydock_id "probe_result" (pe_name probe));
      match last with
      | Some last => lift (probe_check now probe last)
      | None => not_subscriptable
      end
  else
    match last with
    | Some last => lift (probe_check now probe last)
    | None => not_subscriptable
    end.

Definition evaluate_probes (drydock_id container_id : string) (probes : list ProbeExpectation) (now : datetime)
    (force_rerun : bool) : W (list Check_) :=
  mapM (evaluate_probe drydock_id container_id now force_rerun) probes.

(** *** A desk *)

Definition violations (checks : list Check_) : Z := Z.of_nat (length (List.filter (fun c => negb (ck_healthy c)) checks)).

Definition desk_result (ws : Drydock) (now : datetime) (checks : list Check_) : obj :=
  [("desk", JStr (name ws)); ("drydock_id", JStr (id ws)); ("evaluated_at", JStr (isoformat now));
   ("checks", JList (map check_to_dict checks)); ("violations", JInt (violations checks));
   ("healthy", JBool (violations checks =? 0))].

(** With [now] read from the clock, as the one caller does. *)
Definition evaluate_desk (ws : Drydock) (container_id : string) (cfg : DeskwatchConfig) (force_rerun_probes : bool) : W obj :=
  now ← utc_now;
  jobs ← reg_query (evaluate_jobs (id ws) (dc_jobs cfg) now);
  outputs ← evaluate_outputs container_id (dc_outputs cfg) now;
  probes ← evaluate_probes (id ws) container_id (dc_probes cfg) now force_rerun_probes;
  mret (desk_result ws now (jobs ++ outputs ++ probes)).

(** ** The command line: an error that is printed is a [WsError] here *)

Definition _effective_workspace_folder (ws : Drydock) : string :=
  if is_empty (workspace_subdir ws) then path_str (worktree_path ws) else worktree_path ws // workspace_subdir ws.

Definition ps_call (path : string) : call :=
  mkCall ["docker"; "ps"; "-q"; "--filter"; "label=devcontainer.local_folder=" +:+ path] "".

Definition first_line (s : string) : string := strip (match split_on newline (strip s) with l :: _ => l | [] => "" end).

Fixpoint _find_container_id (candidate_paths : list string) : W string :=
  match candidate_paths with
  | [] => mret ""
  | path :: rest =>
      if is_empty path then _find_container_id rest
      else
        result ← catch (r ← run_uncaught (ps_call path); mret (Some r))
                   (fun e => if probe_failure e then mret None else throw e);
        match result with
        | None => _find_container_id rest
        | Some (_, stdout, _) =>
            let cid := first_line stdout in if is_empty cid then _find_container_id rest else mret cid
        end
  end.

(** [(proj.deskwatch if proj else None) or ws.config.get("deskwatch") or {}]. *)
Definition deskwatch_block (proj : option ProjectConfig) (ws : Drydock) : res exn json :=
  let declared := match proj with Some p => pc_deskwatch p | None => JNull end in
  if truthy declared then Ok declared
  else match config ws with
       | JObj o => Ok (py_or (jget "deskwatch" o) (JObj []))
       | v => attr_error v "get"
       end.

Definition unwatched (ws : Drydock) : obj :=
  [("desk", JStr (name ws)); ("drydock_id", JStr (id ws)); ("checks", JList []); ("violations", JInt 0);
   ("healthy", JBool true); ("note", JStr "no deskwatch: block declared in project YAML")].

Definition _evaluate_one (ws : Drydock) (force_rerun_probes : bool) : W (obj * Z) :=
  proj ← load_project_config (project ws);
  raw ← lift (deskwatch_block proj ws);
  cfg ← lift (parse_deskwatch_config raw);
  if config_is_empty cfg then mret (unwatched ws, 0)
  else
    cid ← _find_container_id [_effective_workspace_folder ws; worktree_path ws];
    result ← evaluate_desk ws cid cfg force_rerun_probes;
    mret (result, if truthy (jget "healthy" result) then 0 else 1).

(** One desk of [ws deskwatch]: an invalid block is a violation. *)
Definition evaluate_or_fail (ws : Drydock) (scan : bool) : W (obj * Z) :=
  catch (_evaluate_one ws scan)
    (fun e => match e with
              | WsError message fix_hint =>
                  mret ([("desk", JStr (name ws)); ("drydock_id", JStr (id ws)); ("checks", JList []);
                         ("violations", JInt 1); ("healthy", JBool false); ("error", JStr message);
                         ("fix", opt_str fix_hint)], 1)
              | e => throw e
              end).

Definition not_found {A} (desk : string) : W A :=
  throw (WsError ("Drydock '" +:+ desk +:+ "' not found") (Some "Check `ws list` for the name")).

Definition int_field (k : string) (o : obj) : Z := match jget k o with JInt n => n | _ => 0 end.

Definition deskwatch_payload (all_results : list obj) : obj :=
  match all_results with
  | [r] => r
  | _ => [("desks", JList (map JObj all_results));
          ("healthy", JBool (forallb (fun r => truthy (jget "healthy" r)) all_results));
          ("total_violations", JInt (fold_right Z.add 0 (map (int_field "violations") all_results)))]
  end.

(** The payload and the exit code. *)
Definition deskwatch (desk : option string) (scan : bool) : W (obj * Z) :=
  desks ← match desk with
          | Some n => if is_empty n then reg_get (list_drydocks None None)
                      else ws ← reg_get (get_drydock n); match ws with Some ws => mret [ws] | None => not_found n end
          | None => reg_get (list_drydocks None None)
          end;
  results ← mapM (fun ws => evaluate_or_fail ws scan) desks;
  mret (deskwatch_payload (map fst results), fold_left (fun code r => Z.max code (snd r)) results 0).

Definition event_json (r : deskwatch_row) : json :=
  JObj [("kind", JStr (dw_kind r)); ("name", JStr (dw_name r)); ("timestamp", JStr (dw_timestamp r));
        ("status", JStr (dw_status r)); ("detail", opt_str (dw_detail r))].

(** The kind is one of the three, if given: the option is a choice. *)
Definition deskwatch_events_cmd (desk : string) (limit : Z) (kind : option string) : W json :=
  ws ← reg_get (get_drydock desk);
  match ws with
  | None => not_found desk
  | Some ws =>
      rows ← reg_get (list_deskwatch_events (id ws) limit);
      let rows := match kind with Some k => List.filter (fun r => dw_kind r =s k) rows | None => rows end in
      mret (JObj [("desk", JStr desk); ("drydock_id", JStr (id ws)); ("count", JInt (Z.of_nat (length rows)));
                  ("events", JList (map event_json rows))])
  end.

Definition EVENT_KINDS : list string := ["job_run"; "probe_result"; "output_check"].
Definition EVENT_STATUSES : list string := ["ok"; "failed"; "missing"].

(** [click.Choice]: an exit with code 2. *)
Definition choice (choices : list string) (v : string) : W unit :=
  if existsb (String.eqb v) choices then mret tt else throw (PyError "BadParameter" v).

Definition deskwatch_record (desk kind event_name status : string) (detail : option string) : W json :=
  _ ← choice EVENT_KINDS kind;
  _ ← choice EVENT_STATUSES status;
  ws ← reg_get (get_drydock desk);
  match ws with
  | None => not_found desk
  | Some ws =>
      ts ← _utc_now;
      rowid ← reg (record_deskwatch_event ts (id ws) kind event_name status detail);
      mret (JObj [("desk", JStr desk); ("kind", JStr kind); ("name", JStr event_name); ("status", JStr status);
                  ("detail", opt_str detail); ("row_id", JInt rowid)])
  end.
End Evaluate.
