(* ===== verification/DeskwatchFacts.v ===== *)
(** Deskwatch: a desk is healthy exactly if each of its expectations holds; a probe is run, and its run
    recorded, exactly if it is due; and a job's recorded outcome is what the evaluation sees. *)

From S2P Require Import Prelude PyStr PyVal Datetime Registry World WorldFacts Container ProjectConfig Deskwatch.
From Stdlib Require Import List.

(** ** The newest event *)

Definition at_most (a b : deskwatch_row) : Prop := String.leb (dw_timestamp a) (dw_timestamp b) = true.

Lemma dw_newer_total a b : dw_newer a b = true \/ dw_newer b a = true.
Proof. unfold dw_newer. destruct (String.leb_total (dw_timestamp b) (dw_timestamp a)); auto. Qed.

Lemma dw_newer_trans a b c : dw_newer a b = true -> dw_newer b c = true -> dw_newer a c = true.
Proof. unfold dw_newer. intros H1 H2. by eapply string_leb_trans. Qed.

Lemma newest_spec l r : head (order_by dw_newer l) = Some r -> In r l /\ forall r', In r' l -> at_most r' r.
Proof.
  pose proof (order_by_sorted dw_newer dw_newer_total dw_newer_trans l) as Hs. pose proof (order_by_In dw_newer) as Hin.
  destruct (order_by dw_newer l) as [|x l'] eqn:E; [done|]. intros [= ->]. inversion Hs as [|? ? _ Hx]; subst.
  assert (forall y, In y l <-> r = y \/ In y l') as Hl by (intros y; by rewrite <- (Hin y l), E).
  split; [apply Hl; by left|]. intros y Hy%Hl. destruct Hy as [<-|Hy]; [apply string_leb_refl|].
  rewrite List.Forall_forall in Hx. by apply Hx.
Qed.

Definition add_event (row : deskwatch_row) (d : db) : db := set_deskwatch (deskwatch_events d ++ [row]) (deskwatch_seq d + 1) d.

Lemma last_event_in i k n d r : last_deskwatch_event i k n d = Some r ->
  In r (deskwatch_events d) /\ dw_key i k n r = true
  /\ forall r', In r' (deskwatch_events d) -> dw_key i k n r' = true -> at_most r' r.
Proof.
  intros [Hin Hmax]%newest_spec. apply tbl_select_In in Hin as [Hin Hk]. split; [done|]. split; [done|].
  intros r' Hr' Hk'. apply Hmax. by apply tbl_select_In.
Qed.

Lemma last_event_other i k n d row : dw_key i k n row = false ->
  last_deskwatch_event i k n (add_event row d) = last_deskwatch_event i k n d.
Proof. intros Hk. unfold last_deskwatch_event, add_event, tbl_select. cbn. rewrite filter_app. cbn. by rewrite Hk, List.app_nil_r. Qed.

Lemma last_event_exists i k n d row : In row (deskwatch_events d) -> dw_key i k n row = true ->
  exists r, last_deskwatch_event i k n d = Some r.
Proof.
  intros Hin Hk. unfold last_deskwatch_event. destruct (order_by dw_newer _) as [|r l] eqn:E; [|by exists r].
  apply order_by_nil in E. assert (In row []) as []. rewrite <- E. by apply tbl_select_In.
Qed.

(** A later event is the last one. *)
Lemma last_event_new i k n d row : dw_key i k n row = true ->
  (forall r, In r (deskwatch_events d) -> dw_key i k n r = true -> ts_ltb (dw_timestamp r) (dw_timestamp row) = true) ->
  last_deskwatch_event i k n (add_event row d) = Some row.
Proof.
  intros Hk Hold. destruct (last_event_exists i k n (add_event row d) row) as [r Er]; [cbn; apply in_app_iff; right; by left|done|].
  rewrite Er. apply last_event_in in Er as (Hin & Hkr & Hmax). cbn in Hin. apply in_app_iff in Hin as [Hin|[->|[]]]; [|done].
  specialize (Hold r Hin Hkr). specialize (Hmax row). unfold at_most in Hmax.
  unfold ts_ltb in Hold. by rewrite string_ltb_leb, Hmax in Hold by (done || (cbn; apply in_app_iff; right; by left)).
Qed.

(** ** Jobs *)

Lemma not_zulu s : endswith (s +:+ "+00:00") "Z" = false.
Proof.
  change (s +:+ "+00:00") with (s +:+ ("+00:0" +:+ "0")). rewrite <- app_assoc_s. unfold endswith. rewrite length_app_s.
  cbn [String.length]. rewrite Nat.add_sub, sdrop_app. by rewrite andb_false_r.
Qed.

Lemma endswith_app_l a b suf : (exists s, b = s +:+ suf) -> exists s, a +:+ b = s +:+ suf.
Proof. intros [s ->]. exists (a +:+ s). by rewrite app_assoc_s. Qed.

Lemma isoformat_suffix t : dt_utc t = true -> exists s, isoformat t = s +:+ "+00:00".
Proof.
  intros Hu. unfold isoformat. rewrite Hu. destruct (ord2ymd _) as [[y m] d].
  repeat apply endswith_app_l. by exists "".
Qed.

Lemma parse_ts_isoformat t : dt_valid t -> dt_utc t = true -> _parse_ts (isoformat t) = Ok t.
Proof.
  intros Hv Hu. unfold _parse_ts. destruct (isoformat_suffix t Hu) as [s Es]. rewrite Es at 1. rewrite not_zulu, fromisoformat_iso by done.
  destruct t as [us utc]. cbn in Hu |- *. by subst utc.
Qed.

Lemma bind_ok_inv {S E A B} (m : M S E A) (k : A -> M S E B) s b s2 :
  (m ≫= k) s = (Ok b, s2) -> exists a s1, m s = (Ok a, s1) /\ k a s1 = (Ok b, s2).
Proof. intros [H|(e & _ & [=])]%bind_inv. exact H. Qed.

Lemma lift_ok_inv {S E A B} (r : res E A) (k : A -> M S E B) s b s2 :
  (lift r ≫= k) s = (Ok b, s2) -> exists a, r = Ok a /\ k a s = (Ok b, s2).
Proof. rewrite lift_bind. destruct r as [a|e]; [by exists a|done]. Qed.

Lemma query_ok_inv {A B} (f : db -> res exn A) (k : A -> W B) w b w2 :
  (reg_query f ≫= k) w = (Ok b, w2) -> exists a, f (w_db w) = Ok a /\ k a w = (Ok b, w2).
Proof. rewrite reg_query_bind. destruct (f (w_db w)) as [a|e]; [by exists a|done]. Qed.

Section Facts.
Context `{Env} (sql_real : SpecFloat.spec_float -> string).

(** The last run of the job is a success, and within its window. *)
Definition job_well (d : db) (drydock_id : string) (now : datetime) (job : JobExpectation) : Prop :=
  exists r ts, last_event sql_real drydock_id "job_run" (je_name job) d = Ok (Some r)
    /\ dw_status r = "ok" /\ _parse_ts (dw_timestamp r) = Ok ts /\ dt_sub now ts <= expect_success_within job.

Lemma evaluate_job_well d i now job c :
  evaluate_job sql_real d i now job = Ok c -> ck_healthy c = true <-> job_well d i now job.
Proof.
  unfold evaluate_job, job_well. intros (last & El & Hr)%res_bind_ok. destruct last as [r|].
  - apply res_bind_ok in Hr as (ts & Et & [= <-]). cbn [ck_healthy]. rewrite andb_true_iff, String.eqb_eq, Z.leb_le. split.
    + intros [Hs Hw]. exists r, ts. by rewrite El.
    + intros (r' & ts' & Er & Hs & Ht & Hw). rewrite El in Er. injection Er as <-. rewrite Et in Ht. by injection Ht as <-.
  - injection Hr as <-. cbn. split; [done|]. intros (r' & ts' & E' & _). congruence.
Qed.

Lemma evaluate_jobs_well i jobs now d checks : evaluate_jobs sql_real i jobs now d = Ok checks ->
  Forall (fun c => ck_healthy c = true) checks <-> Forall (job_well d i now) jobs.
Proof.
  intros Hc%mapE_ok. induction Hc as [|job c jobs cs Hc _ IH]; [by split|].
  rewrite !List.Forall_cons_iff, IH. by rewrite (evaluate_job_well _ _ _ _ _ Hc).
Qed.

(** What the wrapper of a scheduled job records is what the evaluation goes by: if the clock has moved
    past the job's earlier events, then after [ws deskwatch-record] the job is healthy, at any later time and
    for any window, exactly if the recorded status is ok and the recording is within the window. *)
Theorem recorded_run_is_evaluated desk ws job status detail w :
  get_drydock desk (w_db w) = Some ws -> In status EVENT_STATUSES ->
  (forall r, In r (deskwatch_events (w_db w)) -> dw_key (id ws) "job_run" job r = true ->
     exists t, dt_valid t /\ dt_utc t = true /\ dw_timestamp r = isoformat t /\ dt_us t < dt_us (clock (w_ticks w))) ->
  exists v w', deskwatch_record desk "job_run" job status detail w = (Ok v, w')
    /\ forall now window, exists c, evaluate_job sql_real (w_db w') (id ws) now (mkJobX (JStr job) window) = Ok c
       /\ (ck_healthy c = true <-> status = "ok" /\ dt_sub now (clock (w_ticks w)) <= window).
Proof.
  intros Hws Hst Hold. destruct (clock_ok (w_ticks w)) as [Hv Hu].
  assert (existsb (String.eqb status) EVENT_STATUSES = true) as Es by (apply existsb_exists; exists status; by rewrite String.eqb_refl).
  unfold deskwatch_record, choice. rewrite Es. cbn [existsb String.eqb Ascii.eqb EVENT_KINDS Bool.eqb orb].
  eexists _, _. split.
  { rewrite !ret_bind, reg_gets_bind, Hws. reflexivity. }
  intros now window. cbn [w_db set_db]. set (row := mkDeskwatch _ _ _ _ _ _ _).
  assert (last_deskwatch_event (id ws) "job_run" job (add_event row (w_db w)) = Some row) as El.
  { apply last_event_new; [unfold dw_key; cbn; by rewrite !String.eqb_refl|]. intros r Hin Hk.
    destruct (Hold r Hin Hk) as (t & Ht & Htu & -> & Hlt). cbn [dw_timestamp row]. rewrite ts_ltb_isoformat by congruence. lia. }
  assert (last_event sql_real (id ws) "job_run" (je_name (mkJobX (JStr job) window)) (add_event row (w_db w)) = Ok (Some row)) as Ee.
  { unfold last_event. cbn. by rewrite El. }
  destruct (evaluate_job sql_real (add_event row (w_db w)) (id ws) now (mkJobX (JStr job) window)) as [c|e] eqn:Ec.
  - exists c. split; [exact Ec|]. rewrite (evaluate_job_well _ _ _ _ _ Ec). unfold job_well. rewrite Ee. split.
    + intros (r & ts & [= <-] & Hs & Ht & Hw). cbn in Hs, Ht. rewrite parse_ts_isoformat in Ht by done. by injection Ht as <-.
    + intros [Hs Hw]. exists row, (clock (w_ticks w)). cbn. by rewrite parse_ts_isoformat.
  - unfold evaluate_job in Ec. rewrite Ee in Ec. cbn in Ec. by rewrite parse_ts_isoformat in Ec.
Qed.

(** ** Outputs *)

Definition called (c : call) (w : world) : world := snd (run c w).

Definition probe_answer (a : run_outcome) : Z * string * string + string :=
  match a with Ran rc so se => inl (rc, so, se) | RunNotFound m | RunTimeout m _ => inr m end.

Lemma try_probe_run cid args w :
  let c := mkCall (["docker"; "exec"; cid] ++ args) "" in
  try_probe cid args w = (Ok (probe_answer (subprocess_run (w_calls w) c)), called c w).
Proof.
  intros c. unfold try_probe, _docker_exec_probe, run_uncaught, catch, mbind, M_bind. fold c. unfold called, run.
  by destruct (subprocess_run (w_calls w) c).
Qed.

Definition stat_call (cid : string) (out : OutputExpectation) : call :=
  mkCall ["docker"; "exec"; cid; "stat"; "-c"; "%Y %s"; match oe_path out with JStr p => p | _ => "" end] "".

(** What [stat] answered is a file that is young enough, and not empty unless it may be. *)
Definition output_fresh (now : datetime) (out : OutputExpectation) (answer : run_outcome) : Prop :=
  exists stdout stderr mtime size, answer = Ran 0 stdout stderr /\ stat_of stdout = Ok (Some (mtime, size))
    /\ (size <> 0 \/ may_be_empty out = true) /\ dt_sub now mtime <= max_age out.

Lemma judge_output_fresh out now mtime size :
  ck_healthy (judge_output out now mtime size) = true
  <-> (size <> 0 \/ may_be_empty out = true) /\ dt_sub now mtime <= max_age out.
Proof.
  unfold judge_output. destruct (Z.eqb_spec size 0), (may_be_empty out), (Z.ltb_spec (max_age out) (dt_sub now mtime));
    cbn; split; try done; intuition (try lia; try done).
Qed.

Lemma evaluate_output_run cid now out w c w' : is_empty cid = false -> evaluate_output cid now out w = (Ok c, w') ->
  w' = called (stat_call cid out) w
  /\ (ck_healthy c = true <-> output_fresh now out (subprocess_run (w_calls w) (stat_call cid out))).
Proof.
  intros Hc. unfold evaluate_output. rewrite Hc. destruct (oe_path out) as [| | | |p| |] eqn:Ep; try done.
  unfold stat_call. rewrite Ep. cbn [str_arg]. rewrite lift_bind, (bind_ok _ _ _ _ _ (try_probe_run _ _ _)). cbn [app].
  set (a := subprocess_run _ _). destruct a as [rc so se|m|m se]; cbn [probe_answer].
  - destruct (Z.eqb_spec rc 0) as [->|Hrc]; cbn [negb].
    + destruct (stat_of so) as [[[mtime size]|]|e] eqn:Es; rewrite lift_bind; intros [= <- <-]; (split; [done|]).
      * rewrite judge_output_fresh. split; [by intros [? ?]; exists so, se, mtime, size|].
        intros (so' & se' & mt & sz & [= <- <-] & E & ?). rewrite Es in E. by injection E as <- <-.
      * split; [done|]. intros (so' & se' & mt & sz & [= <- <-] & E & _). by rewrite Es in E.
    + intros [= <- <-]. split; [done|]. split; [done|]. by intros (so' & se' & mt & sz & [= -> _ _] & _).
  - intros [= <- <-]. split; [done|]. split; [done|]. by intros (so' & se' & mt & sz & ? & _).
  - intros [= <- <-]. split; [done|]. split; [done|]. by intros (so' & se' & mt & sz & ? & _).
Qed.

(** Every output is fresh, each looked at after the ones before it. *)
Fixpoint outputs_fresh (cid : string) (now : datetime) (calls : list call) (outs : list OutputExpectation) : Prop :=
  match outs with
  | [] => True
  | out :: outs => output_fresh now out (subprocess_run calls (stat_call cid out))
                   /\ outputs_fresh cid now (calls ++ [stat_call cid out]) outs
  end.

Lemma evaluate_outputs_run cid now outs w cs w' : is_empty cid = false -> evaluate_outputs cid outs now w = (Ok cs, w') ->
  w_db w' = w_db w /\ w_calls w' = w_calls w ++ map (stat_call cid) outs
  /\ (Forall (fun c => ck_healthy c = true) cs <-> outputs_fresh cid now (w_calls w) outs).
Proof.
  intros Hc. unfold evaluate_outputs. revert w cs. induction outs as [|out outs IH]; intros w cs; cbn [mapM].
  - intros [= <- <-]. rewrite List.app_nil_r. by repeat split.
  - intros (c & w1 & E1 & (cs' & w2 & E2 & [= <- <-])%bind_ok_inv)%bind_ok_inv.
    apply evaluate_output_run in E1 as [-> Hh]; [|done]. apply IH in E2 as (Hd & Hk & Hf).
    split; [by rewrite Hd|]. split; [rewrite Hk; cbn; by rewrite <- app_assoc|].
    rewrite List.Forall_cons_iff, Hh, Hf. done.
Qed.

(** ** Probes *)

(** The key of a probe's events. *)
Definition pe_key (p : ProbeExpectation) : option string :=
  match sql_text sql_real (pe_name p) with Ok o => o | Err _ => None end.

Definition last_result (i : string) (p : ProbeExpectation) (d : db) : option deskwatch_row :=
  match pe_key p with Some n => last_deskwatch_event i "probe_result" n d | None => None end.

Definition is_due (i : string) (now : datetime) (force : bool) (d : db) (p : ProbeExpectation) : bool :=
  match probe_is_due force now p (last_result i p d) with Ok b => b | Err _ => false end.

Definition probe_call (cid : string) (p : ProbeExpectation) : call :=
  mkCall ["docker"; "exec"; cid; "sh"; "-lc"; match pe_cmd p with JStr c => c | _ => "" end] "".

(** The probe's last result is a success. *)
Definition probe_well (i : string) (d : db) (p : ProbeExpectation) : Prop :=
  exists r, last_result i p d = Some r /\ dw_status r = "ok".

(** An event that records a run of the probe. *)
Definition records (i : string) (p : ProbeExpectation) (r : deskwatch_row) : Prop :=
  dw_drydock_id r = i /\ dw_kind r = "probe_result" /\ pe_key p = Some (dw_name r).

Lemma last_event_ok i p d o : last_event sql_real i "probe_result" (pe_name p) d = Ok o -> last_result i p d = o.
Proof. unfold last_event, last_result, pe_key. intros (k & -> & [= <-])%res_bind_ok. done. Qed.

Lemma record_event_run i p status detail w u w' :
  record_event sql_real i "probe_result" (pe_name p) status detail w = (Ok u, w') ->
  w_calls w' = w_calls w /\ exists row, w_db w' = add_event row (w_db w) /\ records i p row.
Proof.
  unfold record_event. intros (key & Hk & Hr)%lift_ok_inv. destruct key as [n|]; [|done].
  injection Hr as _ <-. split; [done|]. eexists. split; [reflexivity|]. unfold records, pe_key. by rewrite Hk.
Qed.

Lemma probe_check_well i now p r c d : probe_check now p r = Ok c -> last_result i p d = Some r ->
  ck_healthy c = true <-> probe_well i d p.
Proof.
  unfold probe_check. intros (ts & _ & [= <-])%res_bind_ok Hr. cbn [ck_healthy]. rewrite String.eqb_eq. unfold probe_well. rewrite Hr.
  split; [by exists r|]. by intros (r' & [= <-] & ?).
Qed.

Lemma run_probe_run cid cmd w st w' : run_probe cid cmd w = (Ok st, w') ->
  w' = called (mkCall ["docker"; "exec"; cid; "sh"; "-lc"; cmd] "") w.
Proof. unfold run_probe. rewrite (bind_ok _ _ _ _ _ (try_probe_run _ _ _)). by intros [= _ <-]. Qed.

(** What one probe does: nothing if it is not due, and if it is, one call and one event. *)
Lemma evaluate_probe_run i cid now force p w c w' :
  is_empty cid = false -> evaluate_probe sql_real i cid now force p w = (Ok c, w') ->
  (ck_healthy c = true <-> probe_well i (w_db w') p)
  /\ if is_due i now force (w_db w) p
     then w_calls w' = w_calls w ++ [probe_call cid p] /\ exists row, w_db w' = add_event row (w_db w) /\ records i p row
     else w' = w.
Proof.
  intros Hc. unfold evaluate_probe. rewrite Hc. intros (last & El%last_event_ok & (due & Ed & Hr)%lift_ok_inv)%query_ok_inv.
  unfold is_due. rewrite El, Ed. destruct due.
  - apply lift_ok_inv in Hr as (cmd & Hcmd & ([status detail] & w1 & E1%run_probe_run & Hr)%bind_ok_inv).
    apply bind_ok_inv in Hr as (u & w2 & (Hk & row & Hdb & Hrec)%record_event_run & (last2 & El2%last_event_ok & Hr)%query_ok_inv).
    destruct last2 as [r2|]; [|done]. unfold lift in Hr. injection Hr as Hr <-. split; [by eapply probe_check_well|].
    rewrite Hk, Hdb. subst w1. cbn. split; [|by exists row]. unfold probe_call. by destruct (pe_cmd p); try done; injection Hcmd as <-.
  - destruct last as [r|]; [|done]. unfold lift in Hr. injection Hr as Hr <-. split; [by eapply probe_check_well|done].
Qed.

Lemma records_other i p q row d : records i p row -> pe_key p <> pe_key q ->
  last_result i q (add_event row d) = last_result i q d.
Proof.
  intros (Hi & Hk & Hn) Hne. unfold last_result. destruct (pe_key q) as [n|] eqn:Eq; [|done]. apply last_event_other.
  unfold dw_key. destruct (String.eqb_spec (dw_name row) n) as [<-|]; [by rewrite Hn in Hne|by rewrite andb_false_r].
Qed.

Definition add_events (rows : list deskwatch_row) (d : db) : db := fold_left (fun d row => add_event row d) rows d.

Lemma add_events_other i q ps rows d : Forall2 (records i) ps rows -> ~ In (pe_key q) (map pe_key ps) ->
  last_result i q (add_events rows d) = last_result i q d.
Proof.
  intros Hr. revert d. induction Hr as [|p row ps rows Hp _ IH]; intros d Hn; [done|]. cbn in Hn |- *.
  rewrite IH by tauto. apply (records_other i p); [done|]. tauto.
Qed.

Lemma is_due_db i now force d d' p : last_result i p d' = last_result i p d -> is_due i now force d' p = is_due i now force d p.
Proof. intros E. unfold is_due. by rewrite E. Qed.

Lemma filter_due i now force d d' ps : (forall p, In p ps -> last_result i p d' = last_result i p d) ->
  List.filter (is_due i now force d') ps = List.filter (is_due i now force d) ps.
Proof. intros Hp. apply filter_ext_in. intros p Hin. apply is_due_db. by apply Hp. Qed.

Lemma filter_sub_In {A B} (f : A -> B) (q : A -> bool) l x : ~ In x (map f l) -> ~ In x (map f (List.filter q l)).
Proof. rewrite !in_map_iff. intros Hn (y & <- & Hy%filter_In). apply Hn. exists y. tauto. Qed.

Lemma evaluate_probes_run i cid now force ps w cs w' :
  is_empty cid = false -> List.NoDup (map pe_key ps) -> evaluate_probes sql_real i cid ps now force w = (Ok cs, w') ->
  let due := List.filter (is_due i now force (w_db w)) ps in
  w_calls w' = w_calls w ++ map (probe_call cid) due
  /\ (exists rows, w_db w' = add_events rows (w_db w) /\ Forall2 (records i) due rows)
  /\ Forall2 (fun p c => ck_healthy c = true <-> probe_well i (w_db w') p) ps cs.
Proof.
  intros Hc. unfold evaluate_probes. revert w cs. induction ps as [|p ps IH]; intros w cs Hn; cbn [mapM map List.filter].
  - intros [= <- <-]. rewrite List.app_nil_r. split; [done|]. split; [by exists []|constructor].
  - inversion Hn as [|? ? Hp Hn']; subst.
    intros (c & w1 & E1 & (cs' & w2 & E2 & [= <- <-])%bind_ok_inv)%bind_ok_inv.
    apply evaluate_probe_run in E1 as [Hh Hstep]; [|done]. apply IH in E2 as (Hk & (rows & Hdb & Hrows) & Hall); [|done].
    assert (last_result i p (w_db w2) = last_result i p (w_db w1)) as Hlast.
    { rewrite Hdb. eapply add_events_other; [exact Hrows|]. by apply filter_sub_In. }
    assert (ck_healthy c = true <-> probe_well i (w_db w2) p) as Hh' by (rewrite Hh; unfold probe_well; by rewrite Hlast).
    destruct (is_due i now force (w_db w) p).
    + destruct Hstep as (Hk1 & row & Hdb1 & Hrec). rewrite (filter_due i now force (w_db w)) in Hk, Hrows.
      * split; [rewrite Hk, Hk1; cbn; by rewrite <- app_assoc|]. split; [|by constructor].
        exists (row :: rows). split; [by rewrite Hdb, Hdb1|by constructor].
      * intros q Hq. rewrite Hdb1. apply (records_other i p); [done|]. intros E. apply Hp. rewrite E. by apply in_map.
      * intros q Hq. rewrite Hdb1. apply (records_other i p); [done|]. intros E. apply Hp. rewrite E. by apply in_map.
    + subst w1. split; [done|]. split; [by exists rows|by constructor].
Qed.

(** A probe is run exactly if it is due: if its interval has passed since its last result, or there is
    none, or the scan is forced. For the due probes, in their order, the evaluation makes one call each, and
    adds one event each to the registry; it makes no other call, and changes nothing else in the database;
    and each probe is reported healthy exactly if its last result, now, is a success. *)
Theorem probes_run_when_due i cid now force ps w cs w' :
  is_empty cid = false -> List.NoDup (map pe_key ps) -> evaluate_probes sql_real i cid ps now force w = (Ok cs, w') ->
  let due := List.filter (is_due i now force (w_db w)) ps in
  w_calls w' = w_calls w ++ map (probe_call cid) due
  /\ (exists rows, w_db w' = add_events rows (w_db w) /\ Forall2 (records i) due rows)
  /\ Forall2 (fun p c => ck_healthy c = true <-> probe_well i (w_db w') p) ps cs.
Proof. apply evaluate_probes_run. Qed.

(** ** A desk *)

Lemma violations_none cs : violations cs = 0 <-> Forall (fun c => ck_healthy c = true) cs.
Proof.
  unfold violations. induction cs as [|c cs IH]; [by split|]. rewrite List.Forall_cons_iff, <- IH. cbn [List.filter].
  destruct (ck_healthy c); cbn [negb length]; [tauto|]. split; [lia|by intros [? _]].
Qed.

Lemma Forall2_healthy {A} (P : A -> Prop) ps cs : Forall2 (fun p c => ck_healthy c = true <-> P p) ps cs ->
  Forall (fun c => ck_healthy c = true) cs <-> Forall P ps.
Proof. induction 1 as [|p c ps cs Hc _ IH]; [by split|]. rewrite !List.Forall_cons_iff, Hc, IH. done. Qed.

(** *** Without a container *)

Lemma stopped_outputs cid now outs w cs w' : is_empty cid = true -> evaluate_outputs cid outs now w = (Ok cs, w') ->
  w' = w /\ (Forall (fun c => ck_healthy c = true) cs <-> outs = []).
Proof.
  intros Hc. unfold evaluate_outputs. revert cs. induction outs as [|out outs IH]; intros cs; cbn [mapM]; [by intros [= <- <-]|].
  intros (c & w1 & E1 & (cs' & w2 & E2 & [= <- <-])%bind_ok_inv)%bind_ok_inv. unfold evaluate_output in E1. rewrite Hc in E1.
  injection E1 as <- <-. apply IH in E2 as [-> _]. split; [done|]. split; [|done]. intros [Hx _]%List.Forall_cons_iff. discriminate Hx.
Qed.

(** A probe of a desk without a container fails if it is due, and else gives its last result again. *)
Definition stopped_well (i : string) (now : datetime) (force : bool) (d : db) (p : ProbeExpectation) : Prop :=
  is_due i now force d p = false /\ probe_well i d p.

Lemma stopped_probe i cid now force p w c w' : is_empty cid = true -> evaluate_probe sql_real i cid now force p w = (Ok c, w') ->
  (ck_healthy c = true <-> stopped_well i now force (w_db w) p)
  /\ if is_due i now force (w_db w) p then exists row, w_db w' = add_event row (w_db w) /\ records i p row else w' = w.
Proof.
  intros Hc. unfold evaluate_probe. rewrite Hc. intros (last & El%last_event_ok & (due & Ed & Hr)%lift_ok_inv)%query_ok_inv.
  unfold stopped_well, is_due. rewrite El, Ed. destruct due.
  - apply bind_ok_inv in Hr as (u & w2 & (_ & row & Hdb & Hrec)%record_event_run & [= <- <-]).
    split; [cbn; split; [done|by intros [[=] _]]|by exists row].
  - destruct last as [r|]; [|done]. unfold lift in Hr. injection Hr as Hr <-. split; [|done].
    rewrite (probe_check_well _ _ _ _ _ _ Hr El). by split; [|intros []].
Qed.

Lemma stopped_probes i cid now force ps w cs w' : is_empty cid = true -> List.NoDup (map pe_key ps) ->
  evaluate_probes sql_real i cid ps now force w = (Ok cs, w') ->
  Forall2 (fun p c => ck_healthy c = true <-> stopped_well i now force (w_db w) p) ps cs.
Proof.
  intros Hc. unfold evaluate_probes. revert w cs. induction ps as [|p ps IH]; intros w cs Hn; cbn [mapM map].
  - intros [= <- <-]. constructor.
  - inversion Hn as [|? ? Hp Hn']; subst.
    intros (c & w1 & E1 & (cs' & w2 & E2 & [= <- <-])%bind_ok_inv)%bind_ok_inv.
    apply stopped_probe in E1 as [Hh Hstep]; [|done]. apply IH in E2; [|done]. constructor; [exact Hh|].
    assert (forall q, In q ps -> last_result i q (w_db w1) = last_result i q (w_db w)) as Hq.
    { intros q Hq. destruct (is_due i now force (w_db w) p); [|by subst w1]. destruct Hstep as (row & -> & Hr).
      apply (records_other i p); [done|]. intros E. apply Hp. rewrite E. by apply in_map. }
    clear -E2 Hq. induction E2 as [|q d qs ds Hd _ IH2]; [constructor|]. constructor; [|apply IH2; intros; apply Hq; by right].
    rewrite Hd. unfold stopped_well, probe_well. rewrite (Hq q) by (by left).
    by rewrite (is_due_db i now force (w_db w) (w_db w1) q) by (apply Hq; by left).
Qed.

End Facts.

(** ** An evaluation *)

#[local] Instance watch_env : Env := {|
  clock := @clock demo_env; clock_ok := @clock_ok demo_env; uuid_hex := @uuid_hex demo_env;
  token_bytes := @token_bytes demo_env; token_bytes_len := @token_bytes_len demo_env; sha256 := @sha256 demo_env;
  subprocess_run _ c :=
    if existsb (String.eqb "stat") (argv c) then Ran 0 ("1627603000 12" +:+ String newline "") ""
    else if existsb (String.eqb "false") (argv c) then Ran 1 "" "no" else Ran 0 "" "";
  run_host := @run_host demo_env; which := @which demo_env; env_float_repr := @env_float_repr demo_env;
  json_loads := @json_loads demo_env; json_dumps := @json_dumps demo_env; json_dumps_indent := @json_dumps_indent demo_env;
  yaml_load := @yaml_load demo_env; yaml_dump := @yaml_dump demo_env; fs_fault := @fs_fault demo_env; audit_fault := @audit_fault demo_env;
  is_root := true; secrets_root := @secrets_root demo_env; home := @home demo_env; environ := @environ demo_env
|}.

Definition no_real (f : SpecFloat.spec_float) : string := "".
Definition hour : Z := 3600 * us_per_second.
Definition ts_of (seconds : Z) : string := isoformat (mkDatetime (738000 * us_per_day + seconds * us_per_second) true).

Definition watch_desk : Drydock :=
  mkDrydock "web" "p" "/r" "dock_web" "/w" "" "" "running" "" "" "" "" "" "" (JObj []) "" None (JObj []).

Definition watch_db (job_status : string) : db :=
  add_events [mkDeskwatch 1 "dock_web" "job_run" "crawl" (ts_of (-7200)) "failed" None;
              mkDeskwatch 2 "dock_web" "job_run" "crawl" (ts_of (-3600)) job_status (Some "exit 0");
              mkDeskwatch 3 "dock_web" "probe_result" "db" (ts_of (-60)) "ok" None;
              mkDeskwatch 4 "dock_web" "probe_result" "net" (ts_of (-7000)) "failed" None]
    (set_drydocks [new_dock_row watch_desk] empty_db).

Definition watch_world (job_status : string) : world := set_db (watch_db job_status) empty_world.

Definition watch_config : DeskwatchConfig :=
  mkDeskwatchConfig [mkJobX (JStr "crawl") (25 * hour)] [mkOutputX (JStr "/data/x.db") (25 * hour) false]
    [mkProbeX (JStr "db") (JStr "false") hour; mkProbeX (JStr "net") (JStr "true") hour].

Abbreviation watch job_status := (evaluate_desk no_real watch_desk "c1" watch_config false (watch_world job_status)).

Definition verdict (job_status : string) : json :=
  match watch job_status with (Ok r, _) => jget "healthy" r | (Err _, _) => JNull end.

Example verdict_ex : map verdict ["ok"; "failed"] = [JBool true; JBool false].
Proof. vm_compute. reflexivity. Qed.


Lemma probes_run_when_due_witness : exists cs w',
  evaluate_probes no_real "dock_web" "c1" (dc_probes watch_config) (clock 0) false (watch_world "ok") = (Ok cs, w')
  /\ w_calls w' = [mkCall ["docker"; "exec"; "c1"; "sh"; "-lc"; "true"] ""].
Proof.
  assert (is_ok (fst (evaluate_probes no_real "dock_web" "c1" (dc_probes watch_config) (clock 0) false (watch_world "ok"))) = true)
    as Hok by (vm_compute; reflexivity).
  destruct (evaluate_probes no_real "dock_web" "c1" (dc_probes watch_config) (clock 0) false (watch_world "ok")) as [[cs|e] w'] eqn:E;
    [|discriminate Hok]. exists cs, w'. split; [reflexivity|].
  destruct (probes_run_when_due no_real "dock_web" "c1" (clock 0) false (dc_probes watch_config) (watch_world "ok") cs w') as [Hk _];
    [done| |exact E|rewrite Hk; by vm_compute].
  repeat constructor; cbn; intuition discriminate.
Defined.

Lemma recorded_run_is_evaluated_witness : exists v w',
  deskwatch_record "web" "job_run" "crawl" "failed" (Some "exit 1") (watch_world "ok") = (Ok v, w')
  /\ exists c, evaluate_job no_real (w_db w') "dock_web" (clock 1) (mkJobX (JStr "crawl") hour) = Ok c /\ ck_healthy c = false.
Proof.
  destruct (recorded_run_is_evaluated no_real "web" watch_desk "crawl" "failed" (Some "exit 1") (watch_world "ok"))
    as (v & w' & E & Hj).
  - by vm_compute.
  - right; by left.
  - intros r [<-|[<-|[<-|[<-|[]]]]] Hk; try (vm_compute in Hk; discriminate Hk); clear Hk.
    + exists (mkDatetime (738000 * us_per_day + -7200 * us_per_second) true). by repeat split; vm_compute.
    + exists (mkDatetime (738000 * us_per_day + -3600 * us_per_second) true). by repeat split; vm_compute.
  - exists v, w'. split; [done|]. destruct (Hj (clock 1) hour) as (c & Ec & Hc). exists c. split; [done|].
    destruct (ck_healthy c); [|done]. by destruct (proj1 Hc eq_refl).
Defined.

(** ** Durations *)

(** A success an hour ago within a window of a day does not make a job healthy if a later run failed. *)
Example later_failure : exists c,
  evaluate_job no_real (add_events [mkDeskwatch 1 "d" "job_run" "j" (ts_of (-3600)) "ok" None;
                                    mkDeskwatch 2 "d" "job_run" "j" (ts_of (-60)) "failed" None] empty_db)
    "d" (clock 0) (mkJobX (JStr "j") (24 * hour)) = Ok c /\ ck_healthy c = false.
Proof. eexists. split; [vm_compute; reflexivity|reflexivity]. Qed.

(** A result younger than the interval is given again although the container is gone. *)
Example stopped_desk_probe :
  match evaluate_probe no_real "dock_web" "" (clock 0) false (mkProbeX (JStr "db") (JStr "true") hour) (watch_world "ok") with
  | (Ok c, _) => ck_healthy c = true
  | _ => False
  end.
Proof. vm_compute. reflexivity. Qed.

(** The text of bare seconds is no duration, the number is; seconds may have a fraction. *)
Example durations :
  map (parse_duration (H := @env_float_repr demo_env))
    [JStr "25h"; JStr " 30 M "; JInt 600; JStr "1d"; JFloat (SpecFloat.S754_finite false 4503599627370497 (-52))]
  = [Ok (25 * hour); Ok (30 * 60 * us_per_second); Ok (600 * us_per_second); Ok (24 * hour); Ok us_per_second]
  /\ match parse_duration (H := @env_float_repr demo_env) (JStr "600") with Err (WsError _ _) => True | _ => False end.
Proof. split; vm_compute; done. Qed.

(** A duration beyond [timedelta] is an [OverflowError], which the command does not catch; so are other values
    that no section checks: an argument that is no text, and a name that is null. *)
Example uncaught_errors :
  parse_duration (H := @env_float_repr demo_env) (JStr "9999999999d")
    = Err (PyError "OverflowError" "days=9999999999; must have magnitude <= 999999999")
  /\ fst (evaluate_output "c1" (clock 0) (mkOutputX (JInt 5) hour false) (watch_world "ok"))
    = Err (PyError "TypeError" "expected str, bytes or os.PathLike object, not int")
  /\ fst (evaluate_probe no_real "dock_web" "" (clock 0) false (mkProbeX JNull (JStr "true") hour) (watch_world "ok"))
    = Err IntegrityError.
Proof. repeat split; vm_compute; reflexivity. Qed.

Lemma take_digits_app n u : all_chars is_digit n = true -> take_digits u = ("", u) -> take_digits (n +:+ u) = (n, u).
Proof. intros Hn Hu. induction n as [|c n IH]; [done|]. cbn in Hn |- *. apply andb_true_iff in Hn as [-> Hn]. by rewrite IH. Qed.

Lemma digits_no_space s : all_chars is_digit s = true -> all_chars (fun c => negb (is_space c)) s = true.
Proof. apply all_chars_impl. intros c. destruct c as [[] [] [] [] [] [] [] []]; done. Qed.

Lemma timedelta_of_us_ok us : 0 <= us < 1000000000 * us_per_day -> timedelta_of_us us = Ok us.
Proof.
  intros [H0 H1]. unfold timedelta_of_us. assert (0 <= us / us_per_day < 1000000000) as Hd.
  { split; [by apply Z.div_pos|]. apply Z.div_lt_upper_bound; [done|]. by rewrite Z.mul_comm. }
  assert ((-999999999 <=? us / us_per_day) = true) as -> by (apply Z.leb_le; lia).
  by assert ((us / us_per_day <=? 999999999) = true) as -> by (apply Z.leb_le; lia).
Qed.

(** A number of seconds, minutes, hours or days is read as that, for every number whose span a
    [timedelta] can hold. *)
Theorem duration_in_units `{FloatRepr} n unit secs :
  0 <= n -> In (unit, secs) _DURATION_UNITS -> n * secs * us_per_second < 1000000000 * us_per_day ->
  parse_duration (JStr (str_of_Z n +:+ unit)) = Ok (n * secs * us_per_second).
Proof.
  intros Hn Hu Hlt. pose proof (str_of_Z_digits n Hn) as Hd.
  assert (all_chars (fun c => negb (is_space c)) unit = true /\ take_digits unit = ("", unit) /\ lower unit = unit
          /\ lstrip_by is_space unit = unit /\ assoc unit _DURATION_UNITS = Some secs /\ 0 <= secs) as (Hs & Ht & Hl & Hls & Ha & Hp).
  { cbn in Hu. intuition (simplify_eq; by vm_compute). }
  cbn [parse_duration py_str]. unfold duration_match, strip.
  rewrite strip_by_none by (rewrite all_chars_app, Hs; by rewrite digits_no_space).
  rewrite take_digits_app by done. rewrite Hls, Hl. unfold has_key. rewrite Ha, str_of_Z_nonempty by done. cbn [negb andb].
  rewrite Ha, int_of_str_of_Z by done. apply timedelta_of_us_ok. split; [unfold us_per_second; nia|done].
Qed.

Lemma duration_in_units_witness :
  parse_duration (H := @env_float_repr demo_env) (JStr (str_of_Z 25 +:+ "h")) = Ok (25 * 3600 * us_per_second).
Proof. apply (duration_in_units (H := @env_float_repr demo_env) 25 "h" 3600); [lia|by right; right; left|done]. Defined.
