(* ===== verification/Measure.v ===== *)
(** [core/auditor/measurement.py]: a snapshot of the harbor for the auditor, from [docker stats], the
    audit log, the registry and the project files. *)

From S2P Require Import Prelude PyStr PyVal Datetime Registry World Ceilings Container AuditQuery Deskwatch.
From Stdlib Require Import List.

(** ** Texts of [docker stats] *)

Definition _UNIT_MULTIPLIERS : list (string * Z) :=
  [("B", 1); ("kB", 1000); ("KiB", 1024); ("MB", 1000000); ("MiB", 1024 * 1024); ("GB", 1000000000);
   ("GiB", 1024 * 1024 * 1024); ("TB", 1000000000000); ("TiB", 1024 * 1024 * 1024 * 1024)].

Definition is_alpha (c : ascii) : bool := is_upper c || is_lower c.

(** The groups of [^\s*([\d.]+)\s*([A-Za-z]+)\s*$]. *)
Definition size_match (s : string) : option (string * string) :=
  let '(n, r) := span (fun c => is_digit c || Ascii.eqb c ".") (strip s) in
  let unit := lstrip_by is_space r in
  if negb (is_empty n) && negb (is_empty unit) && all_chars is_alpha unit then Some (n, unit) else None.

Definition parse_size (s : string) : res exn (option Z) :=
  match size_match s with
  | None => Ok None
  | Some (n_str, unit) =>
      match float_of_str n_str, assoc unit _UNIT_MULTIPLIERS with
      | Some n, Some mult => z ← int_of_float (float_times n mult); Ok (Some z)
      | _, _ => Ok None
      end
  end.

Definition parse_percent (v : json) : res exn (option SpecFloat.spec_float) :=
  if negb (truthy v) then Ok None
  else match v with
       | JStr s => Ok (float_of_str (strip (rstrip_by (Ascii.eqb "%") (strip s))))
       | v => attr_error v "strip"
       end.

Definition opt_float (o : option SpecFloat.spec_float) : json := match o with Some f => JFloat f | None => JNull end.
Definition opt_int (o : option Z) : json := match o with Some z => JInt z | None => JNull end.

(** The used and the limit part of "1.842GiB / 4GiB". *)
Definition mem_usage (v : json) : res exn (option Z * option Z) :=
  match v with
  | JStr s =>
      match split_once "/" s with
      | Some (used_str, limit_str) =>
          used ← parse_size used_str; limit ← parse_size limit_str; Ok (used, limit)
      | None => Ok (None, None)
      end
  | _ => Ok (None, None)
  end.

(** [int(pids_raw)], whose [ValueError] and [TypeError] are caught. *)
Definition pids_of `{FloatRepr} (v : json) : res exn (option Z) :=
  if str_eq_json "" v || str_eq_json "--" v then Ok None
  else match py_int v with
       | Ok z => Ok (Some z)
       | Err e => if (exn_class e =s "ValueError") || (exn_class e =s "TypeError") then Ok None else Err e
       end.

(** The instant of an audit record, [None] for one that is skipped. *)
Definition record_ts (rec : json) : res exn (option datetime) :=
  match rec with
  | JObj o =>
      let ts_str := py_or (jget "timestamp" o) (jget "ts" o) in
      if negb (truthy ts_str) then Ok None
      else match ts_str with
           | JStr s => Ok (option_map (fun t => mkDatetime (dt_us t) true) (fromisoformat (replace_char "Z" "+00:00" s)))
           | v => attr_error v "replace"
           end
  | v => attr_error v "get"
  end.

(** The desk a record is about. *)
Definition involved_desk (o : obj) : res exn json :=
  let principal := jget "principal" o in
  if truthy principal then Ok principal
  else match py_or (jget_default "details" (JObj []) o) (JObj []) with
       | JObj d => Ok (py_or (jget "drydock_id" d) (py_or (jget "caller_drydock_id" d) (JStr "")))
       | v => attr_error v "get"
       end.

(** The event as a key: one that is no text is counted under its JSON text; a list or a dict is no key. *)
Definition event_key `{FloatRepr} (o : obj) : res exn string :=
  match py_or (jget "event" o) (py_or (jget "event_type" o) (JStr "unknown")) with
  | JStr s => Ok s
  | JBool b => Ok (if b then "true" else "false")
  | (JList _ | JObj _) as v => Err (PyError "TypeError" ("unhashable type: '" +:+ type_name v +:+ "'"))
  | v => Ok (py_repr v)
  end.

Section Measure.
Context `{Env}.

Definition parse_docker_stats_line (line : string) : res exn (option obj) :=
  if is_empty (strip line) then Ok None
  else match json_loads (strip line) with
       | Some (JObj raw) =>
           '(mem_used, mem_limit) ← mem_usage (jget_default "MemUsage" (JStr "") raw);
           pids ← pids_of (jget_default "PIDs" (JStr "") raw);
           cpu_pct ← parse_percent (jget_default "CPUPerc" (JStr "") raw);
           mem_pct ← parse_percent (jget_default "MemPerc" (JStr "") raw);
           Ok (Some [("cpu_pct", opt_float cpu_pct); ("mem_used_bytes", opt_int mem_used);
                     ("mem_limit_bytes", opt_int mem_limit); ("mem_pct", opt_float mem_pct); ("pids", opt_int pids);
                     ("container_id", py_or (jget "ID" raw) (py_or (jget "Container" raw) (JStr "")));
                     ("container_name", py_or (jget "Name" raw) (JStr ""))])
       | _ => Ok None
       end.

(** A short id belongs to the first container it is a prefix of. *)
Definition full_id_of (ids : list string) (cid_short : json) : res exn (option string) :=
  match ids, cid_short with
  | [], _ => Ok None
  | _, JStr short => Ok (List.find (fun full => startswith full short || startswith short full) ids)
  | _, v => Err (PyError "TypeError" ("startswith first arg must be str or a tuple of str, not " +:+ type_name v))
  end.

Fixpoint stats_by_id (ids lines : list string) (out : list (string * obj)) : res exn (list (string * obj)) :=
  match lines with
  | [] => Ok out
  | line :: lines =>
      parsed ← parse_docker_stats_line line;
      match parsed with
      | None => stats_by_id ids lines out
      | Some p =>
          found ← full_id_of ids (jget "container_id" p);
          stats_by_id ids lines (match found with Some full => jset full p out | None => out end)
      end
  end.

Definition stats_call (ids : list string) : call :=
  mkCall (["docker"; "stats"; "--no-stream"; "--format"; "{{json .}}"] ++ ids) "".

Definition collect_docker_stats (container_ids : list string) : W (list (string * obj)) :=
  let ids := List.filter (fun c => negb (is_empty c)) container_ids in
  match ids with
  | [] => mret []
  | _ =>
      result ← catch (r ← run_uncaught (stats_call ids); mret (Some r))
                 (fun e => if (exn_class e =s "FileNotFoundError") || (exn_class e =s "TimeoutExpired") then mret None else throw e);
      match result with
      | None => mret []
      | Some (rc, stdout, _) =>
          if negb (rc =? 0) && is_empty (strip stdout) then mret [] else lift (stats_by_id ids (splitlines stdout) [])
      end
  end.

(** ** Counts *)

(** The value of a line of the log, [None] for one that is skipped. *)
Definition line_value (line : string) : option json := if is_empty (strip line) then None else json_loads (strip line).

(** The event of a line, if it is the desk's and not before [cutoff]. *)
Definition counted_event (drydock_id : string) (cutoff : datetime) (line : string) : res exn (option string) :=
  match line_value line with
  | None => Ok None
  | Some rec =>
      ts ← record_ts rec;
      match ts, rec with
      | Some t, JObj o =>
          if dt_us t <? dt_us cutoff then Ok None
          else
            desk ← involved_desk o;
            if str_eq_json drydock_id desk then key ← event_key o; Ok (Some key) else Ok None
      | _, _ => Ok None
      end
  end.

Definition count_event (counts : list (string * Z)) (event : string) : list (string * Z) :=
  jset event (default 0 (assoc event counts) + 1) counts.

Definition audit_counts (events : list string) : obj :=
  [("events_total", JInt (Z.of_nat (length events)));
   ("by_event_class", JObj (map (fun kn => (fst kn, JInt (snd kn))) (fold_left count_event events [])))].

(** The lines are [None] when there is no log. *)
Definition count_recent_audit_events (drydock_id : string) (window : Z) : W json :=
  lines ← gets audit_lines;
  match lines with
  | None => mret JNull
  | Some lines =>
      now ← utc_now;
      match add_seconds now (- window) with
      | None => throw overflow_error
      | Some cutoff =>
          events ← lift (mapE (counted_event drydock_id cutoff) lines);
          mret (JObj (audit_counts (omap (fun e => e) events)))
      end
  end.

(** [GROUP BY type]. *)
Definition lease_types (drydock_id : string) (d : db) : list string :=
  remove_dups (map lr_type (order_by (fun a b => String.leb (lr_type a) (lr_type b)) (tbl_select (active_of drydock_id) (leases d)))).

Definition count_of_type (drydock_id type : string) (d : db) : Z :=
  Z.of_nat (tbl_count (fun r => active_of drydock_id r && (lr_type r =s type)) (leases d)).

Definition count_active_leases (drydock_id : string) (d : db) : obj :=
  let by_type := map (fun t => (t, count_of_type drydock_id t d)) (lease_types drydock_id d) in
  [("active_total", JInt (fold_right Z.add 0 (map snd by_type)));
   ("by_type", JObj (map (fun kn => (fst kn, JInt (snd kn))) by_type))].

(** ** The snapshot *)

Record HarborSnapshot : Type := mkHarborSnapshot {
  snapshot_at : string; harbor_hostname : string; drydock_count : Z; hs_drydocks : list obj
}.

Definition snapshot_to_dict (s : HarborSnapshot) : obj :=
  [("snapshot_at", JStr (snapshot_at s)); ("harbor_hostname", JStr (harbor_hostname s));
   ("drydock_count", JInt (drydock_count s)); ("drydocks", JList (map JObj (hs_drydocks s)))].

Definition AUDIT_RECENT_WINDOW : Z := 3600.

Definition opt_obj (o : option obj) : json := match o with Some o => JObj o | None => JNull end.

Definition measure_drydock (stats_by_cid : list (string * obj)) (ws : Drydock) : W obj :=
  let metrics := if is_empty (container_id ws) then None else assoc (container_id ws) stats_by_cid in
  leases ← reg_get (count_active_leases (id ws));
  audit ← count_recent_audit_events (id ws) AUDIT_RECENT_WINDOW;
  current ← compute_project_yaml_sha (project ws);
  mret [("name", JStr (name ws)); ("id", JStr (id ws)); ("project", JStr (project ws)); ("yard_id", opt_str (yard_id ws));
        ("state", JStr (state ws));
        ("container_id", if is_empty (container_id ws) then JNull else JStr (stake 12 (container_id ws)));
        ("metrics", opt_obj metrics); ("leases", JObj leases); ("audit_recent_1h", audit);
        ("yaml_drift", JStr (yaml_drift_status (pinned_yaml_sha256 ws) current))].

(** [node] is [platform.node()]. *)
Definition snapshot_harbor (node : string) : W HarborSnapshot :=
  let hostname := if is_empty node then "unknown" else node in
  drydocks ← reg_get (list_drydocks None None);
  stats_by_cid ← collect_docker_stats (map container_id drydocks);
  snapshot_at ← _utc_now;
  data ← mapM (measure_drydock stats_by_cid) drydocks;
  mret (mkHarborSnapshot snapshot_at hostname (Z.of_nat (length data)) data).
End Measure.
