(* ===== verification/Watch.v ===== *)
(** [core/auditor/watch.py] and what one tick of it uses: the heartbeat ([heartbeat.py]), the snapshot
    files ([storage.py]), the signature that saves calls ([signature.py]) and the client of the language
    model ([llm.py]). The service behind the client is a parameter. *)

From S2P Require Import Prelude PyStr PyVal Datetime Registry World Overlay Container AuditQuery Schedule Deskwatch Measure.
From Stdlib Require Import List.
From Corelib Require SpecFloat.
Import SpecFloat.

(** ** The auditor's state *)

(** The harbor; the modification times of [~/.drydock/auditor/heartbeat] and [last_telegram_send], [None] if
    there is no such file; the records of [watch_log.jsonl] and [deep_log.jsonl]; the bodies posted to the
    model's service, the forms posted to Telegram and the requests sent to the daemon, in order. *)
Record auditor : Type := mkAuditor {
  au_world : world;
  au_heartbeat : option datetime;
  au_thread : option datetime;
  au_watch_log : list json;
  au_deep_log : list json;
  au_prompts : list json;
  au_messages : list json;
  au_requests : list json
}.

Abbreviation A := (M auditor exn).

Definition set_world (w : world) (a : auditor) : auditor :=
  mkAuditor w (au_heartbeat a) (au_thread a) (au_watch_log a) (au_deep_log a) (au_prompts a) (au_messages a) (au_requests a).
Definition set_heartbeat (t : datetime) (a : auditor) : auditor :=
  mkAuditor (au_world a) (Some t) (au_thread a) (au_watch_log a) (au_deep_log a) (au_prompts a) (au_messages a) (au_requests a).
Definition set_thread (t : datetime) (a : auditor) : auditor :=
  mkAuditor (au_world a) (au_heartbeat a) (Some t) (au_watch_log a) (au_deep_log a) (au_prompts a) (au_messages a) (au_requests a).
Definition add_watch (v : json) (a : auditor) : auditor :=
  mkAuditor (au_world a) (au_heartbeat a) (au_thread a) (au_watch_log a ++ [v]) (au_deep_log a) (au_prompts a) (au_messages a)
    (au_requests a).
Definition add_deep (v : json) (a : auditor) : auditor :=
  mkAuditor (au_world a) (au_heartbeat a) (au_thread a) (au_watch_log a) (au_deep_log a ++ [v]) (au_prompts a) (au_messages a)
    (au_requests a).
Definition add_prompt (v : json) (a : auditor) : auditor :=
  mkAuditor (au_world a) (au_heartbeat a) (au_thread a) (au_watch_log a) (au_deep_log a) (au_prompts a ++ [v]) (au_messages a)
    (au_requests a).
Definition add_message (v : json) (a : auditor) : auditor :=
  mkAuditor (au_world a) (au_heartbeat a) (au_thread a) (au_watch_log a) (au_deep_log a) (au_prompts a) (au_messages a ++ [v])
    (au_requests a).
Definition add_request (v : json) (a : auditor) : auditor :=
  mkAuditor (au_world a) (au_heartbeat a) (au_thread a) (au_watch_log a) (au_deep_log a) (au_prompts a) (au_messages a)
    (au_requests a ++ [v]).

(** A step of the harbor. *)
Definition harbor {X} (m : W X) : A X := fun a => let '(r, w) := m (au_world a) in (r, set_world w a).

(** What [urlopen] does: a body, an [HTTPError] with its body, or a [URLError] or [OSError]. *)
Inductive http_outcome : Type :=
  | HttpBody (body : string)
  | HttpError (code : Z) (body : string)
  | HttpFailed (message : string).

(** [except OSError], with a warning. *)
Definition despite_os_error (m : A unit) : A unit := catch m (fun e => if is_os_error e then mret tt else throw e).

(** ** Texts of the model *)

Fixpoint index_of (c : ascii) (s : string) : nat :=
  match s with String d s' => if Ascii.eqb c d then O else S (index_of c s') | EmptyString => O end.

(** One past the last occurrence. *)
Fixpoint after_last (c : ascii) (s : string) : nat :=
  match s with
  | String d s' => if has_char c s' then S (after_last c s') else if Ascii.eqb c d then 1%nat else O
  | EmptyString => O
  end.

(** [s[start:stop]]. *)
Definition slice (start stop : nat) (s : string) : string := stake (stop - start) (sdrop start s).

Definition drop_fences (lines : list string) : list string :=
  let lines := match lines with l :: ls => if startswith l "```" then ls else lines | [] => [] end in
  match rev lines with l :: ls => if strip l =s "```" then rev ls else lines | [] => lines end.

(** The answer without a fence around it. *)
Definition unfenced (llm_text : string) : string :=
  let text := strip llm_text in
  if startswith text "```" then strip (join (String newline "") (drop_fences (splitlines text))) else text.

(** From the first opening brace to the last closing one. *)
Definition braced (text : string) : option string :=
  if has_char "{" text && has_char "}" text then Some (slice (index_of "{" text) (after_last "}" text) text) else None.

(** ** [llm.py] *)

Record LLMResponse : Type := mkLLMResponse {
  lr_text : string; lr_stop_reason : json; lr_input_tokens : json; lr_output_tokens : json; lr_model : json
}.

Definition llm_unavailable (message : string) : exn := PyError "LLMUnavailableError" message.

Definition PER_DRYDOCK_API_KEY_PATH : string := "/run/secrets/anthropic_api_key".

(** The texts of the text blocks. *)
Definition block_texts (block : json) : res exn (list json) :=
  match block with
  | JObj b => Ok (if str_eq_json "text" (jget "type" b) then [jget_default "text" (JStr "") b] else [])
  | v => attr_error v "get"
  end.

Definition llm_response (data : json) (model : string) : res exn LLMResponse :=
  match data with
  | JObj o =>
      blocks ← as_list (jget_default "content" (JList []) o);
      chunks ← mapE block_texts blocks;
      text ← py_join "" (List.concat chunks);
      match jget_default "usage" (JObj []) o with
      | JObj usage =>
          Ok (mkLLMResponse text (jget_default "stop_reason" (JStr "") o) (jget_default "input_tokens" (JInt 0) usage)
                (jget_default "output_tokens" (JInt 0) usage) (jget_default "model" (JStr model) o))
      | v => attr_error v "get"
      end
  | v => attr_error v "get"
  end.

Definition llm_body (model system user : string) (max_tokens : Z) : json :=
  JObj [("model", JStr model); ("max_tokens", JInt max_tokens); ("system", JStr system);
        ("messages", JList [JObj [("role", JStr "user"); ("content", JStr user)]])].

Section Client.
Context `{Env} (anthropic : list json -> json -> http_outcome).

Definition DAEMON_SECRETS_API_KEY_PATH : string := home // ".drydock" // "daemon-secrets" // "anthropic_api_key".

Definition resolve_api_key_path : W string :=
  mounted ← host_at PER_DRYDOCK_API_KEY_PATH;
  if is_nfile mounted then
    key ← catch (host_read PER_DRYDOCK_API_KEY_PATH) (fun e => if is_os_error e then mret "" else throw e);
    mret (if is_empty (strip key) then DAEMON_SECRETS_API_KEY_PATH else PER_DRYDOCK_API_KEY_PATH)
  else mret DAEMON_SECRETS_API_KEY_PATH.

Definition _api_key (path : string) : W string :=
  key ← catch (host_read path)
          (fun e => if is_os_error e then throw (llm_unavailable ("Anthropic API key not readable at " +:+ path +:+ ": " +:+ str_exn e))
                    else throw e);
  if is_empty (strip key) then throw (llm_unavailable ("Anthropic API key at " +:+ path +:+ " is empty")) else mret (strip key).

(** [AnthropicHttpClient(path).call(...)]: the headers hold the key and are not part of the record. *)
Definition llm_call (path model system user : string) (max_tokens : Z) : A LLMResponse :=
  _ ← harbor (_api_key path);
  sent ← gets au_prompts;
  let body := llm_body model system user max_tokens in
  _ ← modify (add_prompt body);
  match anthropic sent body with
  | HttpError code err_body =>
      throw (llm_unavailable ("Anthropic API HTTP " +:+ str_of_Z code +:+ ": " +:+ stake 500 err_body))
  | HttpFailed m => throw (llm_unavailable ("Anthropic API connection failed: " +:+ m))
  | HttpBody text => data ← lift (json_decode text); lift (llm_response data model)
  end.
End Client.

(** ** [heartbeat.py] and [storage.py] *)

Section Files.
Context `{Env}.

Definition auditor_dir : string := home // ".drydock" // "auditor".

(** [p.touch()]: the file's time is the clock's. *)
Definition touch : A unit :=
  _ ← harbor (mkdir_p auditor_dir);
  _ ← harbor fs_op;
  t ← harbor utc_now;
  modify (set_heartbeat t).

(** Seconds since the last heartbeat, [None] if there was never one. *)
Definition staleness_seconds : A (option spec_float) :=
  last ← gets au_heartbeat;
  match last with
  | None => mret None
  | Some last => t ← harbor utc_now; mret (Some (total_seconds (dt_sub t last)))
  end.

Definition is_stale (threshold_seconds : Z) : A bool :=
  age ← staleness_seconds;
  mret (match age with Some age => float_gt age (sf_of_Z threshold_seconds) | None => false end).

Definition snapshot_dir : string := auditor_dir // "snapshots".

Definition write_snapshot (s : HarborSnapshot) : W string :=
  _ ← mkdir_p snapshot_dir;
  let path := snapshot_dir // (replace_char ":" "-" (snapshot_at s) +:+ ".json") in
  _ ← host_write path (json_dumps_indent (JObj (snapshot_to_dict s)));
  mret path.

Definition list_snapshots : W (list string) :=
  found ← path_exists snapshot_dir;
  if negb found then mret []
  else h ← gets w_host; mret (order_by String.leb (glob_in snapshot_dir "*.json" h)).

Definition read_snapshot (path : string) : W json := text ← host_read path; lift (json_decode text).

Definition latest_snapshot : W json :=
  snaps ← list_snapshots;
  match rev snaps with [] => mret JNull | p :: _ => read_snapshot p end.

(** [snaps[:-n]] for [n > 0]. *)
Definition all_but_last {X} (n : Z) (l : list X) : list X := firstn (length l - Z.to_nat n) l.

Definition unlink_despite (p : string) : W unit :=
  catch (host_unlink p) (fun e => if is_os_error e then mret tt else throw e).

Definition prune_snapshots (keep_count : Z) : W Z :=
  snaps ← list_snapshots;
  if Z.of_nat (length snaps) <=? keep_count then mret 0
  else
    let to_remove := if 0 <? keep_count then all_but_last keep_count snaps else snaps in
    _ ← mapM unlink_despite to_remove;
    mret (Z.of_nat (length to_remove)).
End Files.

(** ** [signature.py] *)

Definition FORCE_REFRESH_SECONDS : Z := 30 * 60.
Definition _MEM_BUCKET_BYTES : Z := 100 * 1024 * 1024.

Record SignatureState : Type := mkSignature { last_signature : string; last_real_call_unix : spec_float }.

Definition no_signature : SignatureState := mkSignature "" (S754_zero false).

(** [f // 10.0 * 10.0]: the quotient is exact as long as it has 53 bits. *)
Definition tens_below (f : spec_float) : spec_float :=
  match f with
  | S754_finite s m e =>
      let z := if s then Z.neg m else Z.pos m in
      float_times (sf_of_Z (if 0 <=? e then z * 2 ^ e / 10 else z / (10 * 2 ^ (- e)))) 10
  | S754_zero s => S754_zero s
  | _ => nan
  end.

(** [except (TypeError, ValueError)]. *)
Definition or_none {X} (r : res exn X) : res exn (option X) :=
  match r with
  | Ok x => Ok (Some x)
  | Err e => if (exn_class e =s "TypeError") || (exn_class e =s "ValueError") then Ok None else Err e
  end.

Definition _bucket_cpu (v : json) : res exn json :=
  match v with
  | JNull => Ok JNull
  | v => f ← or_none (py_float v); Ok (opt_float (option_map tens_below f))
  end.

Definition _bucket_mem `{FloatRepr} (v : json) : res exn json :=
  match v with
  | JNull => Ok JNull
  | v => z ← or_none (py_int v); Ok (opt_int (option_map (fun z => z / _MEM_BUCKET_BYTES * _MEM_BUCKET_BYTES) z))
  end.

(** [v or {}], of a value that is read with [get] next. *)
Definition or_dict (v : json) : res exn obj :=
  match py_or v (JObj []) with JObj o => Ok o | v => attr_error v "get" end.

Definition name_of (o : obj) : string := match jget "name" o with JStr s => s | _ => "" end.

Definition norm_drydock `{FloatRepr} (d : obj) : res exn obj :=
  metrics ← or_dict (jget "metrics" d);
  leases ← or_dict (jget "leases" d);
  audit_recent ← or_dict (jget "audit_recent_1h" d);
  cpu ← _bucket_cpu (jget "cpu_pct" metrics);
  mem ← _bucket_mem (jget "mem_used_bytes" metrics);
  Ok [("name", jget "name" d); ("state", jget "state" d); ("yard", jget "yard_id" d); ("cpu_bucket", cpu); ("mem_bucket", mem);
      ("pids", jget "pids" metrics); ("lease_active_total", jget_default "active_total" (JInt 0) leases);
      ("lease_by_type", py_or (jget "by_type" leases) (JObj []));
      ("audit_events_1h", jget_default "events_total" (JInt 0) audit_recent); ("yaml_drift", jget "yaml_drift" d)].

Definition norm_clarification (c : clarification_row) : obj :=
  [("id", JInt (cl_id c)); ("drydock_id", JStr (cl_drydock_id c)); ("kind", JStr (cl_kind c))].

(** The drydocks of a snapshot have names, and clarifications numbers for ids. *)
Definition signature_payload `{FloatRepr} (s : HarborSnapshot) (clarifications : list clarification_row) : res exn json :=
  docs ← mapE norm_drydock (hs_drydocks s);
  Ok (JObj [("harbor", JStr (harbor_hostname s)); ("count", JInt (drydock_count s));
            ("drydocks", JList (map JObj (order_by (fun a b => String.leb (name_of a) (name_of b)) docs)));
            ("clarifications", JList (map (fun c => JObj (norm_clarification c))
                                        (order_by (fun a b => cl_id a <=? cl_id b) clarifications)))]).

Section Signature.
(** [json.dumps(v, sort_keys=True, separators=(",", ":"))]. *)
Context `{Env} (canonical : json -> string).

Definition compute_signature (s : HarborSnapshot) (clarifications : list clarification_row) : res exn string :=
  payload ← signature_payload s clarifications; Ok (sha256 (canonical payload)).

Definition signature_path : string := auditor_dir // "last_signature.json".

Definition state_of_json (data : json) : res exn SignatureState :=
  match data with
  | JObj o =>
      unix ← py_float (jget_default "last_real_call_unix" (JFloat (S754_zero false)) o);
      Ok (mkSignature (py_str (jget_default "last_signature" (JStr "") o)) unix)
  | v => attr_error v "get"
  end.

Definition load_state : W SignatureState :=
  data ← catch (text ← host_read signature_path; v ← lift (json_decode text); mret (Some v))
           (fun e => if is_os_error e || (exn_class e =s "JSONDecodeError") then mret None else throw e);
  match data with None => mret no_signature | Some v => lift (state_of_json v) end.

Definition state_json (st : SignatureState) : json :=
  JObj [("last_signature", JStr (last_signature st)); ("last_real_call_unix", JFloat (last_real_call_unix st))].

Definition save_state (st : SignatureState) : W unit :=
  catch (_ ← mkdir_p auditor_dir; host_write signature_path (json_dumps (state_json st)))
    (fun e => if is_os_error e then mret tt else throw e).

(** [time.time()]. *)
Definition unix_time (t : datetime) : spec_float := total_seconds (dt_us t - epoch_day * us_per_day).

Definition should_skip_llm (st : SignatureState) (new_signature : string) (now_unix : spec_float) : bool :=
  if is_empty (last_signature st) || negb (last_signature st =s new_signature) then false
  else negb (SFleb (sf_of_Z FORCE_REFRESH_SECONDS) (SFsub prec emax now_unix (last_real_call_unix st))).
End Signature.

(** ** The verdict *)

Definition DEFAULT_WATCH_MODEL : string := "claude-haiku-4-5".
Definition DEFAULT_MAX_TOKENS : Z := 400.
Definition VALID_VERDICTS : list string := ["routine"; "anomaly_suspected"; "unsure"].

Record WatchVerdict : Type := mkVerdict {
  wv_verdict : string; wv_reason : string; drydocks_of_concern : list string; wv_snapshot_at : string; tick_at : string;
  wv_model : json; wv_input_tokens : json; wv_output_tokens : json; wv_raw : string; wv_error : option string
}.

Definition verdict_to_dict (v : WatchVerdict) : obj :=
  [("verdict", JStr (wv_verdict v)); ("reason", JStr (wv_reason v));
   ("drydocks_of_concern", JList (map JStr (drydocks_of_concern v))); ("snapshot_at", JStr (wv_snapshot_at v));
   ("tick_at", JStr (tick_at v)); ("model", wv_model v); ("input_tokens", wv_input_tokens v);
   ("output_tokens", wv_output_tokens v);
   ("raw_llm_text", JStr (if wv_verdict v =s "error" then wv_raw v else "")); ("error", opt_str (wv_error v))].

Definition tuple_repr (l : list string) : string := "(" +:+ join ", " (map repr_str l) +:+ ")".

Definition texts_that_hold `{FloatRepr} (v : json) : list string :=
  match v with JList l => map py_str (List.filter truthy l) | _ => [] end.

Section Watch.
(** The message of a [JSONDecodeError]; the package's prompts; what [platform.node()] says; the service. *)
Context `{Env} (decode_message : string -> string) (canonical : json -> string) (prompts_dir node : string)
  (anthropic : list json -> json -> http_outcome).

Definition parse_verdict (llm_text : string) : string * string * list string :=
  let text := unfenced llm_text in
  match braced text with
  | None => ("error", "no JSON object in response: " +:+ stake 100 text, [])
  | Some json_str =>
      match json_loads json_str with
      | None => ("error", "JSON decode failed: " +:+ decode_message json_str, [])
      | Some (JObj parsed) =>
          let verdict := jget_default "verdict" (JStr "") parsed in
          match List.find (fun v => str_eq_json v verdict) VALID_VERDICTS with
          | None => ("error", "invalid verdict '" +:+ py_str verdict +:+ "'; valid: " +:+ tuple_repr VALID_VERDICTS, [])
          | Some v => (v, py_str (jget_default "reason" (JStr "") parsed),
                       texts_that_hold (jget_default "drydocks_of_concern" (JList []) parsed))
          end
      | Some v => ("error", "expected JSON object, got " +:+ type_name v, [])
      end
  end.

(** [d["name"]] and [d["state"]] are there: [measure_drydock] puts them. *)
Definition compact (d : obj) : json :=
  JObj [("name", jget "name" d); ("state", jget "state" d); ("yard", jget "yard_id" d); ("metrics", jget "metrics" d);
        ("leases", jget "leases" d); ("audit_recent_1h", jget "audit_recent_1h" d); ("yaml_drift", jget "yaml_drift" d)].

Definition clarification_json (c : clarification_row) : json :=
  JObj [("drydock_id", JStr (cl_drydock_id c)); ("kind", JStr (cl_kind c)); ("summary", JStr (cl_summary c));
        ("evidence", match cl_evidence c with Some v => v | None => JObj [] end)].

Definition format_snapshot_for_llm (s : HarborSnapshot) (clarifications : list clarification_row) : string :=
  json_dumps_indent (JObj ([("snapshot_at", JStr (snapshot_at s)); ("harbor", JStr (harbor_hostname s));
                            ("drydocks", JList (map compact (hs_drydocks s)))]
                           ++ if is_nil clarifications then []
                              else [("clarifications", JList (map clarification_json clarifications))])).

(** One record more in the log. *)
Definition append_log (add : json -> auditor -> auditor) (v : obj) : A unit :=
  _ ← harbor (mkdir_p auditor_dir);
  despite_os_error (_ ← harbor fs_op; modify (add (JObj v))).

Definition log_verdict (v : WatchVerdict) : A unit := append_log add_watch (verdict_to_dict v).

(** [out[-limit:]] for a limit above zero. *)
Definition last_of {X} (limit : option Z) (l : list X) : list X :=
  match limit with
  | Some n => if 0 <? n then skipn (length l - Z.to_nat n) l else l
  | None => l
  end.
Definition read_watch_log (limit : option Z) : A (list json) := l ← gets au_watch_log; mret (last_of limit l).

(** ** A tick *)

Record tick_options : Type := mkOptions {
  write_to_log : bool; write_snapshot_to_disk : bool; update_heartbeat : bool; enable_signature_dedup : bool
}.
(** As the loop calls it. *)
Definition loop_options : tick_options := mkOptions true true true true.

Definition when (b : bool) (m : A unit) : A unit := if b then m else mret tt.

Definition load_watch_prompt : W string := host_read (prompts_dir // "watch.md").

(** The signature of what the model would be asked about, and whether it was just asked. *)
Definition dedup (snap : HarborSnapshot) (clarifications : list clarification_row) : W (string * bool) :=
  new_sig ← lift (compute_signature canonical snap clarifications);
  st ← load_state;
  if is_empty (last_signature st) || negb (last_signature st =s new_sig) then mret (new_sig, false)
  else now ← utc_now; mret (new_sig, should_skip_llm st new_sig (unix_time now)).

Definition deduplicated (v : WatchVerdict) : WatchVerdict :=
  mkVerdict "deduplicated" "signature unchanged since last LLM call" [] (wv_snapshot_at v) (tick_at v) (wv_model v)
    (JInt 0) (JInt 0) "" None.

Definition unreachable (v : WatchVerdict) (exc : string) : WatchVerdict :=
  mkVerdict "error" "LLM unreachable; watch tick skipped" [] (wv_snapshot_at v) (tick_at v) (wv_model v) (JInt 0) (JInt 0) ""
    (Some ("llm_unavailable: " +:+ exc)).

Definition answered (v : WatchVerdict) (r : LLMResponse) : WatchVerdict :=
  let '(verdict, reason, docs) := parse_verdict (lr_text r) in
  mkVerdict verdict reason docs (wv_snapshot_at v) (tick_at v) (py_or (lr_model r) (wv_model v)) (lr_input_tokens r)
    (lr_output_tokens r) (lr_text r) None.

Definition is_unavailable (e : exn) : bool := exn_class e =s "LLMUnavailableError".

(** What follows an answer of the model. *)
Definition after_answer (o : tick_options) (new_sig : string) (v : WatchVerdict) (r : LLMResponse) : A WatchVerdict :=
  let v := answered v r in
  _ ← when (update_heartbeat o) (despite_os_error touch);
  _ ← when (enable_signature_dedup o) (now ← harbor utc_now; harbor (save_state (mkSignature new_sig (unix_time now))));
  _ ← when (write_to_log o) (log_verdict v);
  mret v.

Definition ask (o : tick_options) (model api_key_path system_prompt user_content new_sig : string) (v : WatchVerdict)
    : A WatchVerdict :=
  response ← catch (r ← llm_call anthropic api_key_path model system_prompt user_content DEFAULT_MAX_TOKENS; mret (inl r))
               (fun e => if is_unavailable e then mret (inr (str_exn e)) else throw e);
  match response with
  | inr exc =>
      let v := unreachable v exc in
      _ ← when (write_to_log o) (log_verdict v);
      mret v
  | inl r => after_answer o new_sig v r
  end.

Definition watch_once (o : tick_options) (model : string) : A WatchVerdict :=
  snap ← harbor (snapshot_harbor node);
  _ ← when (write_snapshot_to_disk o) (despite_os_error (_ ← harbor (write_snapshot snap); mret tt));
  tick_at ← harbor _utc_now;
  let v := mkVerdict "routine" "" [] (snapshot_at snap) tick_at (JStr model) (JInt 0) (JInt 0) "" None in
  api_key_path ← harbor resolve_api_key_path;
  system_prompt ← harbor load_watch_prompt;
  now_iso ← harbor _utc_now;
  clarifications ← harbor (reg_get (list_active_clarifications now_iso 50));
  let user_content := format_snapshot_for_llm snap clarifications in
  '(new_sig, skip) ← (if enable_signature_dedup o then harbor (dedup snap clarifications) else mret ("", false));
  if skip : bool then
    let v := deduplicated v in
    _ ← when (update_heartbeat o) (despite_os_error touch);
    _ ← when (write_to_log o) (log_verdict v);
    mret v
  else ask o model api_key_path system_prompt user_content new_sig v.
End Watch.
