(* ===== verification/Deep.v ===== *)
(** The auditor's second tier and its loop: [core/auditor/deep.py], the Telegram client it escalates with
    ([core/telegram.py]), the choice of the next cadence ([core/auditor/scheduler.py]) and the loop
    ([core/auditor/daemon.py]). *)

From S2P Require Import Prelude PyStr PyVal Datetime Registry World Overlay Container AuditQuery Schedule Deskwatch Measure Watch.
From Stdlib Require Import List.

(** ** [telegram.py] *)

Section Telegram.
Context `{Env} (telegram_api : list json -> json -> http_outcome).

Definition DAEMON_SECRETS_DIR : string := home // ".drydock" // "daemon-secrets".
Definition DEFAULT_TOKEN_PATH : string := DAEMON_SECRETS_DIR // "telegram_bot_token".
Definition DEFAULT_CHAT_ID_PATH : string := DAEMON_SECRETS_DIR // "telegram_chat_id".

Definition _read_secret (path : string) : W (option string) :=
  text ← catch (host_read path) (fun e => if is_os_error e then mret "" else throw e);
  mret (if is_empty (strip text) then None else Some (strip text)).

Definition is_configured : W bool :=
  token ← _read_secret DEFAULT_TOKEN_PATH;
  match token with
  | None => mret false
  | Some _ => chat ← _read_secret DEFAULT_CHAT_ID_PATH; mret (is_some chat)
  end.

Definition telegram_payload (chat_id text : string) : json :=
  JObj [("chat_id", JStr chat_id); ("text", JStr text); ("disable_web_page_preview", JStr "true")].

(** [parsed.get("ok")]. *)
Definition is_ok_reply (parsed : json) : res exn bool :=
  match parsed with JObj o => Ok (truthy (jget "ok" o)) | v => attr_error v "get" end.

(** With its default arguments. The token is in the URL and is not part of the record. *)
Definition send (text : string) : A bool :=
  token ← harbor (_read_secret DEFAULT_TOKEN_PATH);
  match token with
  | None => mret false
  | Some _ =>
      chat_id ← harbor (_read_secret DEFAULT_CHAT_ID_PATH);
      match chat_id with
      | None => mret false
      | Some chat_id =>
          sent ← gets au_messages;
          _ ← modify (add_message (telegram_payload chat_id text));
          match telegram_api sent (telegram_payload chat_id text) with
          | HttpBody body => match json_loads body with Some v => lift (is_ok_reply v) | None => mret false end
          | HttpError _ _ | HttpFailed _ => mret false
          end
      end
  end.

Definition send_with_fallback (text : string) : A (bool * string) :=
  sent ← send text;
  mret (if sent : bool then (true, "telegram") else (false, "log_fallback")).
End Telegram.

(** ** [deep.py] *)

Definition DEFAULT_DEEP_MODEL : string := "claude-sonnet-4-6".
Definition DEEP_MAX_TOKENS : Z := 1000.
Definition DEEP_VERDICTS : list string := ["action_recommended"; "escalate_only"; "informational"; "false_alarm"].
Definition VALID_ACTIONS : list string := ["throttle_egress"; "stop_dock"; "revoke_lease"; "freeze_storage"].

(** The action and the targets are whatever the answer holds. *)
Record DeepAnalysis : Type := mkDeep {
  da_verdict : string; da_confidence : string; da_reasoning : string; da_action : json; da_drydock : json; da_lease_id : json;
  da_should_send : bool; da_message : string; da_triggered_by : json; da_snapshot_at : string; da_analyzed_at : string;
  da_model : json; da_input_tokens : json; da_output_tokens : json; da_error : option string; da_raw : string; da_sent : bool
}.

Definition deep_to_dict (d : DeepAnalysis) : obj :=
  [("verdict", JStr (da_verdict d)); ("confidence", JStr (da_confidence d)); ("reasoning", JStr (da_reasoning d));
   ("recommended_action", da_action d); ("target_drydock", da_drydock d); ("target_lease_id", da_lease_id d);
   ("should_send_telegram", JBool (da_should_send d)); ("escalation_message", JStr (da_message d));
   ("triggered_by_verdict", da_triggered_by d); ("snapshot_at", JStr (da_snapshot_at d));
   ("analyzed_at", JStr (da_analyzed_at d)); ("model", da_model d); ("input_tokens", da_input_tokens d);
   ("output_tokens", da_output_tokens d); ("error", opt_str (da_error d)); ("telegram_sent", JBool (da_sent d))]
  ++ if da_verdict d =s "error" then [("raw_llm_text", JStr (da_raw d))] else [].

Definition deep_error (reasoning text : string) : DeepAnalysis :=
  mkDeep "error" "" reasoning JNull JNull JNull false "" JNull "" "" (JStr "") (JInt 0) (JInt 0) None text false.

(** [action not in VALID_ACTIONS]: a text is matched as best it can be, anything else is kept. *)
Definition recommended_action (action : json) : json :=
  match action with
  | JStr s =>
      if existsb (String.eqb s) VALID_ACTIONS then action
      else let action_lower := replace_char " " "_" (lower s) in
           match List.find (fun valid => contains valid action_lower) VALID_ACTIONS with
           | Some valid => JStr valid
           | None => JNull
           end
  | v => v
  end.

Section Deep.
Context `{Env} (decode_message : string -> string) (prompts_dir node : string)
  (anthropic telegram_api : list json -> json -> http_outcome).

Definition deep_of_obj (parsed : obj) (text : string) : DeepAnalysis :=
  let verdict := jget_default "verdict" (JStr "") parsed in
  match List.find (fun v => str_eq_json v verdict) DEEP_VERDICTS with
  | None => deep_error ("Invalid verdict " +:+ py_repr verdict +:+ "; valid: " +:+ tuple_repr DEEP_VERDICTS) text
  | Some v =>
      mkDeep v (py_str (jget_default "confidence" (JStr "") parsed)) (py_str (jget_default "reasoning" (JStr "") parsed))
        (recommended_action (jget "recommended_action" parsed)) (jget "target_drydock" parsed) (jget "target_lease_id" parsed)
        (truthy (jget_default "should_send_telegram" (JBool false) parsed))
        (py_str (jget_default "escalation_message" (JStr "") parsed)) JNull "" "" (JStr "") (JInt 0) (JInt 0) None "" false
  end.

Definition parse_deep_verdict (llm_text : string) : DeepAnalysis :=
  let text := unfenced llm_text in
  match braced text with
  | None => deep_error ("No JSON object in response: " +:+ stake 200 text) text
  | Some json_str =>
      match json_loads json_str with
      | None => deep_error ("JSON decode failed: " +:+ decode_message json_str) text
      | Some (JObj parsed) => deep_of_obj parsed text
      | Some v => deep_error ("Expected JSON object, got " +:+ type_name v) text
      end
  end.

(** *** The context of the call *)

Definition dock_id_of (snapshot : HarborSnapshot) (d : string) : option json :=
  option_map (jget "id") (List.find (fun data => str_eq_json d (jget "name" data)) (hs_drydocks snapshot)).

Definition audit_line (snapshot : HarborSnapshot) (d : string) : W string :=
  match dock_id_of snapshot d with
  | Some (JStr dock_id) =>
      audit ← count_recent_audit_events dock_id AUDIT_RECENT_WINDOW;
      mret (match audit with
            | JObj o => if scalar_eq (jget "events_total" o) (JInt 0) then d +:+ ": 0 events in last hour"
                        else d +:+ ": " +:+ py_str (jget "events_total" o) +:+ " events: " +:+ py_str (jget "by_event_class" o)
            | _ => d +:+ ": audit log unreadable"
            end)
  | _ => mret ("(no dock found for name=" +:+ repr_str d +:+ ")")
  end.

(** [f"{v:<22}"]. *)
Fixpoint spaces (n : nat) : string := match n with O => "" | S n => String " " (spaces n) end.
Definition ljust (n : nat) (s : string) : string := s +:+ spaces (n - String.length s).

(** The records of the log are the loop's own: their values are texts. *)
Definition text_of (k d : string) (o : obj) : string := match jget_default k (JStr d) o with JStr s => s | _ => "" end.
Definition prior_line (v : json) : string :=
  match v with
  | JObj o => "  " +:+ stake 19 (text_of "tick_at" "?" o) +:+ "  " +:+ ljust 22 (text_of "verdict" "?" o) +:+ " "
              +:+ stake 80 (text_of "reason" "" o)
  | _ => ""
  end.

Definition PRIOR_VERDICTS_LIMIT : Z := 10.

Definition build_user_context (watch_verdict : WatchVerdict) (snapshot : HarborSnapshot) : A string :=
  let concern := drydocks_of_concern watch_verdict in
  audit_lines ← harbor (mapM (audit_line snapshot) concern);
  prior ← read_watch_log (Some PRIOR_VERDICTS_LIMIT);
  mret (join (String newline "")
    (["WATCH VERDICT (the flag that brought us here):"; json_dumps_indent (JObj (verdict_to_dict watch_verdict)); "";
      "SNAPSHOT (current Harbor state):";
      json_dumps_indent (JObj [("snapshot_at", JStr (snapshot_at snapshot)); ("harbor", JStr (harbor_hostname snapshot));
                               ("drydocks", JList (map JObj (hs_drydocks snapshot)))]); "";
      "RECENT AUDIT for flagged Drydocks (targets: "
        +:+ (if is_nil concern then "all" else repr_list (map repr_str concern)) +:+ "):"]
     ++ (if is_nil audit_lines then ["(no specific drydocks flagged; see snapshot for breadth)"] else audit_lines)
     ++ [""; "RECENT WATCH VERDICTS (last " +:+ str_of_Z PRIOR_VERDICTS_LIMIT +:+ " ticks for trend):"]
     ++ (if is_nil prior then ["(no prior verdicts)"] else map prior_line prior)
     ++ [""])).

(** *** The recommended action, sent to the daemon *)

(** The first token file that can be read. *)
Fixpoint first_token (paths : list string) : W string :=
  match paths with
  | [] => mret ""
  | p :: ps =>
      token ← catch (t ← host_read p; mret (Some t))
                (fun e => if (exn_class e =s "FileNotFoundError") || (exn_class e =s "PermissionError") then mret None else throw e);
      match token with Some t => mret (strip t) | None => first_token ps end
  end.
Definition TOKEN_PATHS : list string := ["/run/secrets/auditor-token"; "/run/secrets/drydock-token"].

(** The lease or the desk the action is for. *)
Definition action_target (d : DeepAnalysis) : option (string * json) :=
  if str_eq_json "revoke_lease" (da_action d) && truthy (da_lease_id d) then Some ("lease_id", da_lease_id d)
  else if truthy (da_drydock d) then Some ("target_drydock_id", da_drydock d)
  else None.

Definition action_request (d : DeepAnalysis) (token : string) (target : string * json) : json :=
  JObj [("jsonrpc", JStr "2.0"); ("method", JStr "AuditorAction");
        ("params", JObj [("kind", da_action d);
                         ("reason", JStr (if is_empty (da_reasoning d) then "deep-analysis recommendation" else da_reasoning d));
                         ("evidence", JObj [("watch_verdict", da_triggered_by d); ("model", da_model d);
                                            ("snapshot_at", JStr (da_snapshot_at d))]);
                         target]);
        ("id", JStr ("auditor-" +:+ da_analyzed_at d)); ("auth", JStr token)].

(** [daemon_socket] says if the daemon takes a request; its reply is only logged. *)
Context (daemon_socket : list json -> json -> bool).

Definition _invoke_auditor_action (d : DeepAnalysis) : A unit :=
  token ← harbor (first_token TOKEN_PATHS);
  if is_empty token then mret tt
  else match action_target d with
       | None => mret tt
       | Some target =>
           sent ← gets au_requests;
           let request := action_request d token target in
           if daemon_socket sent request then modify (add_request request) else mret tt
       end.

(** *** The analysis *)

(** [except Exception], with a warning. *)
Definition despite (m : A unit) : A unit := catch m (fun _ => mret tt).

Definition touch_thread : A unit :=
  _ ← harbor (mkdir_p auditor_dir);
  _ ← harbor fs_op;
  t ← harbor utc_now;
  modify (set_thread t).

Definition wants_telegram (d : DeepAnalysis) : bool :=
  da_should_send d && negb (is_empty (da_message d)) && negb (da_verdict d =s "error").

(** Whether the message was sent. *)
Definition escalate (d : DeepAnalysis) : A bool :=
  configured ← harbor is_configured;
  if negb configured then mret false
  else catch (sent ← send telegram_api (da_message d);
              _ ← when sent (despite_os_error touch_thread);
              mret sent)
         (fun _ => mret false).

Definition wants_action (d : DeepAnalysis) : bool :=
  (da_verdict d =s "action_recommended") && truthy (da_action d) && (truthy (da_drydock d) || truthy (da_lease_id d)).

Definition with_call (d : DeepAnalysis) (wv : WatchVerdict) (snapshot_at analyzed_at model : string) (r : LLMResponse) : DeepAnalysis :=
  mkDeep (da_verdict d) (da_confidence d) (da_reasoning d) (da_action d) (da_drydock d) (da_lease_id d) (da_should_send d)
    (da_message d) (JObj (verdict_to_dict wv)) snapshot_at analyzed_at (py_or (lr_model r) (JStr model)) (lr_input_tokens r)
    (lr_output_tokens r) (da_error d) (if da_verdict d =s "error" then lr_text r else da_raw d) (da_sent d).

Definition with_sent (d : DeepAnalysis) (sent : bool) : DeepAnalysis :=
  mkDeep (da_verdict d) (da_confidence d) (da_reasoning d) (da_action d) (da_drydock d) (da_lease_id d) (da_should_send d)
    (da_message d) (da_triggered_by d) (da_snapshot_at d) (da_analyzed_at d) (da_model d) (da_input_tokens d)
    (da_output_tokens d) (da_error d) (da_raw d) sent.

Definition deep_unavailable (wv : WatchVerdict) (snapshot_at analyzed_at model exc : string) : DeepAnalysis :=
  mkDeep "error" "" "LLM unreachable; deep analysis skipped" JNull JNull JNull false "" (JObj (verdict_to_dict wv)) snapshot_at
    analyzed_at (JStr model) (JInt 0) (JInt 0) (Some ("llm_unavailable: " +:+ exc)) "" false.

Definition log_deep (d : DeepAnalysis) : A unit := append_log add_deep (deep_to_dict d).

(** What is done with an answer. *)
Definition act_on (d : DeepAnalysis) : A DeepAnalysis :=
  sent ← (if wants_telegram d then escalate d else mret false);
  let d := with_sent d sent in
  _ ← when (wants_action d) (despite (_invoke_auditor_action d));
  _ ← log_deep d;
  mret d.

(** As the loop calls it. *)
Definition deep_analyze (wv : WatchVerdict) (snapshot : HarborSnapshot) : A DeepAnalysis :=
  let model := DEFAULT_DEEP_MODEL in
  analyzed_at ← harbor _utc_now;
  api_key_path ← harbor resolve_api_key_path;
  system_prompt ← harbor (host_read (prompts_dir // "deep_analysis.md"));
  user_content ← build_user_context wv snapshot;
  response ← catch (r ← llm_call anthropic api_key_path model system_prompt user_content DEEP_MAX_TOKENS; mret (inl r))
               (fun e => if is_unavailable e then mret (inr (str_exn e)) else throw e);
  match response with
  | inr exc =>
      let d := deep_unavailable wv (snapshot_at snapshot) analyzed_at model exc in
      _ ← log_deep d;
      mret d
  | inl r => act_on (with_call (parse_deep_verdict (lr_text r)) wv (snapshot_at snapshot) analyzed_at model r)
  end.

Definition read_deep_log (limit : option Z) : A (list json) := l ← gets au_deep_log; mret (last_of limit l).
End Deep.

(** ** [scheduler.py] *)

Definition CADENCE_RESPONSIVE : Z := 60.
Definition CADENCE_NEAR_RESPONSIVE : Z := 120.
Definition CADENCE_DEFAULT : Z := 300.
Definition CADENCE_QUIET : Z := 900.

Definition RECENT_BROKER_ACTIVITY_WINDOW : Z := 600.
Definition SUSTAINED_QUIET_WINDOW : Z := 3600.
Definition TELEGRAM_WINDOW : Z := 600.
Definition TAIL_BYTES : nat := Z.to_nat 100000.

(** Microseconds after midnight. *)
Definition DEFAULT_NIGHT_START : Z := 2 * 3600 * us_per_second.
Definition DEFAULT_NIGHT_END : Z := 6 * 3600 * us_per_second.

Definition in_span (t start stop : Z) : bool :=
  if start <=? stop then (start <=? t) && (t <? stop) else (start <=? t) || (t <? stop).

Section Scheduler.
(** [local] is the local time of day. *)
Context `{Env} (local : datetime -> Z).

Definition is_night (now : datetime) : bool := in_span (local now) DEFAULT_NIGHT_START DEFAULT_NIGHT_END.

(** The last bytes of the log. *)
Definition log_tail (lines : list string) : list string :=
  let text := join "" (map (fun l => l +:+ String newline "") lines) in
  splitlines (sdrop (String.length text - TAIL_BYTES) text).

Fixpoint any_since (cutoff : datetime) (lines : list string) : res exn bool :=
  match lines with
  | [] => Ok false
  | line :: lines =>
      match line_value line with
      | None => any_since cutoff lines
      | Some rec =>
          ts ← record_ts rec;
          match ts with
          | Some t => if dt_us cutoff <=? dt_us t then Ok true else any_since cutoff lines
          | None => any_since cutoff lines
          end
      end
  end.

Definition has_recent_broker_activity (now : datetime) (window : Z) : W bool :=
  lines ← gets audit_lines;
  match lines with
  | None => mret false
  | Some lines =>
      match add_seconds now (- window) with
      | None => throw overflow_error
      | Some cutoff =>
          catch (_ ← fs_op; lift (any_since cutoff (log_tail lines))) (fun e => if is_os_error e then mret false else throw e)
      end
  end.

Definition has_sustained_quiet (now : datetime) (window : Z) : W bool :=
  lines ← gets audit_lines;
  match lines with
  | None => mret false
  | Some _ => recent ← has_recent_broker_activity now window; mret (negb recent)
  end.

Definition has_open_telegram_thread (now : datetime) : A bool :=
  thread ← gets au_thread;
  mret (match thread with Some last_send => dt_sub now last_send <=? TELEGRAM_WINDOW * us_per_second | None => false end).

Definition has_active_workload : bool := false.

Definition next_cadence : A Z :=
  n ← harbor utc_now;
  open ← has_open_telegram_thread n;
  if (open : bool) || has_active_workload then mret CADENCE_RESPONSIVE
  else
    recent ← harbor (has_recent_broker_activity n RECENT_BROKER_ACTIVITY_WINDOW);
    if recent : bool then mret CADENCE_NEAR_RESPONSIVE
    else if is_night n then mret CADENCE_QUIET
    else quiet ← harbor (has_sustained_quiet n SUSTAINED_QUIET_WINDOW);
         mret (if quiet : bool then CADENCE_QUIET else CADENCE_DEFAULT).
End Scheduler.

(** ** [daemon.py] *)

Record DaemonStats : Type := mkStats {
  iterations : Z; last_verdict : string; last_tick_at : string; consecutive_errors : Z; cadences_chosen : list Z;
  deep_analyses : Z; telegram_escalations : Z
}.
Definition no_stats : DaemonStats := mkStats 0 "" "" 0 [] 0 0.

Definition note_verdict (v : WatchVerdict) (st : DaemonStats) : DaemonStats :=
  mkStats (iterations st + 1) (wv_verdict v) (tick_at v) (if wv_verdict v =s "error" then consecutive_errors st + 1 else 0)
    (cadences_chosen st) (deep_analyses st) (telegram_escalations st).
Definition note_deep (d : DeepAnalysis) (st : DaemonStats) : DaemonStats :=
  mkStats (iterations st) (last_verdict st) (last_tick_at st) (consecutive_errors st) (cadences_chosen st)
    (deep_analyses st + 1) (telegram_escalations st + if da_sent d then 1 else 0).
Definition note_cadence (c : Z) (st : DaemonStats) : DaemonStats :=
  mkStats (iterations st) (last_verdict st) (last_tick_at st) (consecutive_errors st) (cadences_chosen st ++ [c])
    (deep_analyses st) (telegram_escalations st).

Definition flagged (v : WatchVerdict) : bool := (wv_verdict v =s "anomaly_suspected") || (wv_verdict v =s "unsure").

Section Loop.
(** [stop n]: a signal has come before the n-th sleep, or after it. *)
Context `{Env} (decode_message : string -> string) (canonical : json -> string) (prompts_dir node : string)
  (anthropic telegram_api : list json -> json -> http_outcome) (daemon_socket : list json -> json -> bool)
  (local : datetime -> Z) (stop : Z -> bool * bool).

(** The deeper tier, if the tick flagged something: an exception in it is logged. *)
Definition deep_tier (v : WatchVerdict) (st : DaemonStats) : A DaemonStats :=
  if flagged v then
    catch (snap ← harbor (snapshot_harbor node);
           d ← deep_analyze decode_message prompts_dir anthropic telegram_api daemon_socket v snap;
           mret (note_deep d st))
      (fun _ => mret st)
  else mret st.

Definition iteration (st : DaemonStats) : A DaemonStats :=
  v ← watch_once decode_message canonical prompts_dir node anthropic loop_options DEFAULT_WATCH_MODEL;
  st ← deep_tier v (note_verdict v st);
  cadence ← next_cadence local;
  mret (note_cadence cadence st).

(** Whether the loop ends after the iteration; with no bound it may run for ever, so the steps are counted. *)
Definition ends (max_iterations : option Z) (st : DaemonStats) : bool :=
  match max_iterations with Some m => m <=? iterations st | None => false end
  || fst (stop (iterations st)) || snd (stop (iterations st)).

Fixpoint run_loop (fuel : nat) (max_iterations : option Z) (st : DaemonStats) : A (option DaemonStats) :=
  match fuel with
  | O => mret None
  | S fuel =>
      st ← iteration st;
      if ends max_iterations st then mret (Some st) else run_loop fuel max_iterations st
  end.

Definition run_auditor (fuel : nat) (max_iterations : option Z) : A (option DaemonStats) := run_loop fuel max_iterations no_stats.
End Loop.
