(* ===== verification/WatchFacts.v ===== *)
(** The auditor's watch: what a tick does to the heartbeat, the log and the service; which answers of the
    model lead to a message or an action; the cadence; and the loop. *)

From S2P Require Import Prelude PyStr PyVal Datetime Registry World WorldFacts Overlay Container AuditQuery Schedule ScheduleFacts Deskwatch DeskwatchFacts Measure Watch Deep.
From Stdlib Require Import List.
From Corelib Require SpecFloat.
Import SpecFloat.

(** ** Reading runs *)

Lemma harbor_ok_inv {X Y} (m : W X) (k : X -> A Y) a y a2 :
  (harbor m ≫= k) a = (Ok y, a2) -> exists x w, m (au_world a) = (Ok x, w) /\ k x (set_world w a) = (Ok y, a2).
Proof.
  unfold mbind, M_bind, harbor. destruct (m (au_world a)) as [[x|e] w]; [|done]. intros H. by exists x, w.
Qed.

(** Nothing but the harbor, the heartbeat, the watch log and the prompts has changed. *)
Definition watch_only (a a' : auditor) : Prop :=
  au_thread a' = au_thread a /\ au_deep_log a' = au_deep_log a /\ au_messages a' = au_messages a /\ au_requests a' = au_requests a.

Lemma watch_only_refl a : watch_only a a.
Proof. by repeat split. Qed.

Lemma harbor_inv {X Y} (m : W X) (k : X -> A Y) a r a2 :
  (harbor m ≫= k) a = (r, a2) ->
  (exists x w, m (au_world a) = (Ok x, w) /\ k x (set_world w a) = (r, a2))
  \/ (exists e w, r = Err e /\ a2 = set_world w a).
Proof.
  unfold mbind, M_bind, harbor. destruct (m (au_world a)) as [[x|e] w]; [left; by exists x, w|]. intros [= <- <-]. right. by exists e, w.
Qed.

(** The errors of a body that cannot be read are not those of a service that cannot be reached. *)
Definition readable_error (e : exn) : Prop := is_unavailable e = false.

Lemma res_bind_err {E X Y} (m : res E X) (k : X -> res E Y) e :
  (m ≫= k) = Err e -> m = Err e \/ exists x, m = Ok x /\ k x = Err e.
Proof. unfold mbind, res_bind. destruct m as [x|e1]; [right; by exists x|]. intros [= ->]. by left. Qed.

Lemma mapE_error {E X Y} (f : X -> res E Y) l e : mapE f l = Err e -> exists x, In x l /\ f x = Err e.
Proof.
  induction l as [|x l IH]; cbn; [done|]. intros [H|(y & _ & [H|(ys & _ & [=])]%res_bind_err)]%res_bind_err.
  - exists x. by split; [left|].
  - destruct (IH H) as (z & Hz & Hf). exists z. by split; [right|].
Qed.

Lemma py_texts_error i l e : py_texts i l = Err e -> readable_error e.
Proof.
  revert i. induction l as [|v l IH]; intros i; cbn; [done|]. destruct v; try by intros [= <-].
  intros [H|(ts & _ & [=])]%res_bind_err. by eapply IH.
Qed.

Lemma llm_response_error data model e : llm_response data model = Err e -> readable_error e.
Proof.
  unfold llm_response. destruct data as [| | | | | |o]; try by intros [= <-].
  intros [H|(bs & _ & [H|(ch & _ & [H|(t & _ & H)]%res_bind_err)]%res_bind_err)]%res_bind_err.
  - unfold as_list in H. by destruct (jget_default _ _ o); try discriminate H; injection H as <-.
  - apply mapE_error in H as (b & _ & H). by destruct b; try discriminate H; injection H as <-.
  - unfold py_join in H. apply res_bind_err in H as [H|(ts & _ & [=])]. by eapply py_texts_error.
  - by destruct (jget_default _ _ o); try discriminate H; injection H as <-.
Qed.

Section Tick.
Context `{Env} (decode_message : string -> string) (canonical : json -> string) (prompts_dir node : string)
  (anthropic : list json -> json -> http_outcome) (no_faults : forall n, fs_fault n = None).

Lemma fs_op_run w : exists w', fs_op w = (Ok tt, w').
Proof. rewrite no_fault_op by done. by eexists. Qed.

Lemma mkdir_p_run p w : exists w', mkdir_p p w = (Ok tt, w').
Proof. unfold mkdir_p. destruct (fs_op_run w) as [w1 E]. rewrite (bind_ok _ _ _ _ _ E). by eexists. Qed.

Lemma harbor_run {X} (m : W X) x w' a : m (au_world a) = (Ok x, w') -> harbor m a = (Ok x, set_world w' a).
Proof. intros E. unfold harbor. by rewrite E. Qed.

Lemma touch_run a : exists n w, touch a = (Ok tt, set_heartbeat (clock n) (set_world w a)).
Proof.
  unfold touch. destruct (mkdir_p_run auditor_dir (au_world a)) as [w1 E1].
  rewrite (bind_ok _ _ _ _ _ (harbor_run _ _ _ _ E1)). destruct (fs_op_run (au_world (set_world w1 a))) as [w2 E2].
  rewrite (bind_ok _ _ _ _ _ (harbor_run _ _ _ _ E2)). by eexists _, _.
Qed.

Lemma despite_touch a : exists n w, despite_os_error touch a = (Ok tt, set_heartbeat (clock n) (set_world w a)).
Proof. destruct (touch_run a) as (n & w & E). exists n, w. unfold despite_os_error, catch. by rewrite E. Qed.

Lemma log_run add v a : (forall v w a, add v (set_world w a) = set_world w (add v a)) ->
  exists w, append_log add v a = (Ok tt, set_world w (add (JObj v) a)).
Proof.
  intros Hadd. unfold append_log. destruct (mkdir_p_run auditor_dir (au_world a)) as [w1 E1].
  rewrite (bind_ok _ _ _ _ _ (harbor_run _ _ _ _ E1)). destruct (fs_op_run (au_world (set_world w1 a))) as [w2 E2].
  unfold despite_os_error, catch. rewrite (bind_ok _ _ _ _ _ (harbor_run _ _ _ _ E2)). exists w2. unfold modify.
  by rewrite !Hadd.
Qed.

Lemma log_verdict_run v a : exists w, log_verdict v a = (Ok tt, set_world w (add_watch (JObj (verdict_to_dict v)) a)).
Proof. by apply log_run. Qed.

(** How a call of the model ends: no prompt could be posted, or one was, and then by what the service did. *)
Lemma llm_call_cases path model sys user n a :
  (exists e w, llm_call anthropic path model sys user n a = (Err e, set_world w a))
  \/ exists body w, snd (llm_call anthropic path model sys user n a) = add_prompt body (set_world w a)
     /\ match anthropic (au_prompts a) body with
        | HttpBody text => fst (llm_call anthropic path model sys user n a) = (data ← json_decode text; llm_response data model)
        | _ => exists e, fst (llm_call anthropic path model sys user n a) = Err e /\ is_unavailable e = true
        end.
Proof.
  unfold llm_call, mbind, M_bind, harbor, gets, modify. destruct (_api_key path (au_world a)) as [[key|e] w]; [|left; by exists e, w].
  right. cbn [au_prompts set_world]. set (body := llm_body _ _ _ _). exists body, w.
  destruct (anthropic (au_prompts a) body) as [text|code err|m]; cbn [throw];
    [|by split; [|eexists]..].
  unfold lift, res_bind. destruct (json_decode text) as [v|e]; [|done]. by destruct (llm_response v model).
Qed.

Lemma answer_error text model e : (data ← json_decode text; llm_response data model) = Err e -> readable_error e.
Proof.
  unfold json_decode, mbind, res_bind. destruct (json_loads text) as [v|]; [apply llm_response_error|]. by intros [= <-].
Qed.

(** ** What a verdict can be *)

Lemma parse_verdict_valid t : In (fst (fst (parse_verdict decode_message t))) ("error" :: VALID_VERDICTS).
Proof.
  unfold parse_verdict. destruct (braced _) as [s|]; [|by left]. destruct (json_loads s) as [[| | | | | |o]|]; try by left.
  destruct (List.find _ VALID_VERDICTS) as [v|] eqn:E; [|by left]. right. by apply find_some in E as [E _].
Qed.

(** The end of a tick: one record more in the log. *)
Definition logged (a : auditor) (v : WatchVerdict) (a' : auditor) : Prop :=
  au_watch_log a' = au_watch_log a ++ [JObj (verdict_to_dict v)] /\ watch_only a a'.

Lemma finish_tick {X} v (x : X) a : exists w, (_ ← log_verdict v; mret x) a = (Ok x, set_world w (add_watch (JObj (verdict_to_dict v)) a)).
Proof. destruct (log_verdict_run v a) as [w E]. rewrite (bind_ok _ _ _ _ _ E). by exists w. Qed.

Lemma answered_verdict v r :
  In (wv_verdict (answered decode_message v r)) ("error" :: VALID_VERDICTS) /\ wv_error (answered decode_message v r) = None.
Proof.
  unfold answered. pose proof (parse_verdict_valid (lr_text r)) as Hv. destruct (parse_verdict _ _) as [[verdict reason] docs].
  by split.
Qed.

Lemma save_state_run st w : exists w', save_state st w = (Ok tt, w').
Proof.
  unfold save_state, catch, host_write. destruct (mkdir_p_run auditor_dir w) as [w1 E1]. rewrite (bind_ok _ _ _ _ _ E1).
  destruct (fs_op_run w1) as [w2 E2]. rewrite (bind_ok _ _ _ _ _ E2). unfold host_at. rewrite gets_bind.
  destruct (w_host w2 !! signature_path) as [[|t]|]; by eexists.
Qed.

Lemma after_answer_run sig v r a : exists n w, after_answer decode_message loop_options sig v r a
  = (Ok (answered decode_message v r),
     set_world w (add_watch (JObj (verdict_to_dict (answered decode_message v r))) (set_heartbeat (clock n) a))).
Proof.
  unfold after_answer, when. cbn [update_heartbeat enable_signature_dedup write_to_log loop_options].
  destruct (despite_touch a) as (n & w & Et). rewrite (bind_ok _ _ _ _ _ Et). exists n.
  set (b := set_heartbeat (clock n) (set_world w a)).
  assert (exists t w1, harbor utc_now b = (Ok t, set_world w1 b)) as (t & w1 & Eu) by (unfold harbor, utc_now; by eexists _, _).
  destruct (save_state_run (mkSignature sig (unix_time t)) w1) as [w2 Es].
  rewrite bind_bind, (bind_ok _ _ _ _ _ Eu).
  rewrite (bind_ok _ _ _ _ _ (harbor_run (save_state (mkSignature sig (unix_time t))) tt w2 (set_world w1 b) Es)).
  match goal with |- context[(_ ← log_verdict ?v; _) ?c] => destruct (finish_tick v v c) as [w3 ->] end. by exists w3.
Qed.

(** *** What a tick asks about *)

(** The way of a tick up to its signature: the snapshot, when it is taken and where the key and the prompt are, and the
    clarifications that wait. *)
Definition tick_question : A (HarborSnapshot * string * string * string * list clarification_row) :=
  snap ← harbor (snapshot_harbor node);
  _ ← despite_os_error (_ ← harbor (write_snapshot snap); mret tt);
  tick_at ← harbor _utc_now;
  key ← harbor resolve_api_key_path;
  sys ← harbor (load_watch_prompt prompts_dir);
  now_iso ← harbor _utc_now;
  clarifications ← harbor (reg_get (list_active_clarifications now_iso 50));
  mret (snap, tick_at, key, sys, clarifications).

(** The harbor is as it was when the model was last asked, less than half an hour ago: what the tick would ask about has the
    signature on record. *)
Definition as_it_was (a : auditor) : Prop :=
  exists snap at_ key sys cl w st w1, tick_question a = (Ok (snap, at_, key, sys, cl), set_world w a)
    /\ load_state w = (Ok st, w1) /\ compute_signature canonical snap cl = Ok (last_signature st) /\ last_signature st <> ""
    /\ SFleb (sf_of_Z 1800) (SFsub prec emax (unix_time (clock (w_ticks w1))) (last_real_call_unix st)) = false.

(** The ways a tick ends. *)
Inductive tick_outcome (model : string) (a : auditor) : res exn WatchVerdict -> auditor -> Prop :=
  | tick_skipped v a' :
      as_it_was a -> wv_verdict v = "deduplicated" -> au_prompts a' = au_prompts a ->
      (exists n, au_heartbeat a' = Some (clock n)) -> logged a v a' -> tick_outcome model a (Ok v) a'
  | tick_unreachable v a' :
      ~ as_it_was a -> wv_verdict v = "error" -> is_some (wv_error v) = true ->
      (au_prompts a' = au_prompts a
       \/ exists body, au_prompts a' = au_prompts a ++ [body] /\ forall text, anthropic (au_prompts a) body <> HttpBody text) ->
      au_heartbeat a' = au_heartbeat a -> logged a v a' -> tick_outcome model a (Ok v) a'
  | tick_answered v a' body text r :
      ~ as_it_was a -> au_prompts a' = au_prompts a ++ [body] -> anthropic (au_prompts a) body = HttpBody text ->
      (data ← json_decode text; llm_response data model) = Ok r ->
      In (wv_verdict v) ("error" :: VALID_VERDICTS) -> wv_verdict v = fst (fst (parse_verdict decode_message (lr_text r))) ->
      wv_error v = None -> (exists n, au_heartbeat a' = Some (clock n)) -> logged a v a' -> tick_outcome model a (Ok v) a'
  | tick_raised e a' :
      (au_prompts a' = au_prompts a
       \/ ~ as_it_was a /\ exists body text, au_prompts a' = au_prompts a ++ [body] /\ anthropic (au_prompts a) body = HttpBody text
          /\ (data ← json_decode text; llm_response data model) = Err e) ->
      au_heartbeat a' = au_heartbeat a -> au_watch_log a' = au_watch_log a -> watch_only a a' ->
      tick_outcome model a (Err e) a'.

Lemma unreachable_run v exc b r a' :
  (let v := unreachable v exc in _ ← when (write_to_log loop_options) (log_verdict v); mret v) b = (r, a') ->
  exists v' w, r = Ok v' /\ a' = set_world w (add_watch (JObj (verdict_to_dict v')) b) /\ wv_verdict v' = "error"
    /\ is_some (wv_error v') = true.
Proof.
  cbv zeta. unfold when. cbn [write_to_log loop_options]. destruct (finish_tick (unreachable v exc) (unreachable v exc) b) as [w ->].
  intros [= <- <-]. by exists (unreachable v exc), w.
Qed.

Lemma ask_run model key sys user sig v a w r a' : ~ as_it_was a ->
  ask decode_message anthropic loop_options model key sys user sig v (set_world w a) = (r, a') -> tick_outcome model a r a'.
Proof.
  intros Hn. unfold ask. set (b := set_world w a).
  destruct (llm_call_cases key model sys user DEFAULT_MAX_TOKENS b) as [(e & w2 & E)|(body & w2 & E & Hb)].
  - unfold mbind at 1, M_bind, catch. rewrite (bind_err _ _ _ _ _ E). destruct (is_unavailable e) eqn:Eu.
    + intros Hr. apply unreachable_run in Hr as (v' & w3 & -> & -> & Hv & He).
      apply tick_unreachable; try done; by left.
    + intros [= <- <-]. apply tick_raised; try done. by left.
  - unfold mbind at 1, M_bind, catch, mbind at 1, M_bind. destruct (llm_call _ _ _ _ _ _ b) as [x b2]. cbn [fst snd] in *. subst b2.
    destruct (anthropic (au_prompts b) body) as [text|code err|m] eqn:Ea.
    + subst x. destruct (data ← json_decode text; llm_response data model) as [rp|e] eqn:Er.
      * intros Hr. destruct (after_answer_run sig v rp (add_prompt body (set_world w2 b))) as (n & w3 & E). 
        unfold mret, M_ret in Hr. rewrite E in Hr. injection Hr as <- <-. destruct (answered_verdict v rp) as [Hv He].
        apply (tick_answered _ _ _ _ body text rp); try done; [|by exists n].
        unfold answered. by destruct (parse_verdict _ _) as [[? ?] ?].
      * rewrite (answer_error _ _ _ Er). intros [= <- <-]. apply tick_raised; try done. right. split; [done|].
        by exists body, text.
    + destruct Hb as (e & -> & ->). intros Hr. apply unreachable_run in Hr as (v' & w3 & -> & -> & Hv & He).
      apply tick_unreachable; try done. right. exists body. split; [done|]. intros t. change (au_prompts a) with (au_prompts b). by rewrite Ea.
    + destruct Hb as (e & -> & ->). intros Hr. apply unreachable_run in Hr as (v' & w3 & -> & -> & Hv & He).
      apply tick_unreachable; try done. right. exists body. split; [done|]. intros t. change (au_prompts a) with (au_prompts b). by rewrite Ea.
Qed.

(** *** A tick *)

Lemma write_snapshot_step snap r a a' :
  despite_os_error (_ ← harbor (write_snapshot snap); mret tt) a = (r, a') -> exists w, a' = set_world w a.
Proof.
  unfold despite_os_error, catch, mbind, M_bind, harbor. destruct (write_snapshot snap (au_world a)) as [[x|e] w].
  - intros [= _ <-]. by exists w.
  - destruct (is_os_error e); intros [= _ <-]; by exists w.
Qed.

(** A tick raises on the way to its question, or goes on with it. *)
Lemma tick_cases model a r a' :
  watch_once decode_message canonical prompts_dir node anthropic loop_options model a = (r, a') ->
  (exists e w, r = Err e /\ a' = set_world w a)
  \/ exists snap at_ key sys cl w, tick_question a = (Ok (snap, at_, key, sys, cl), set_world w a)
     /\ let v := mkVerdict "routine" "" [] (snapshot_at snap) at_ (JStr model) (JInt 0) (JInt 0) "" None in
        ('(sig, skip) ← harbor (dedup canonical snap cl);
         if skip : bool then _ ← despite_os_error touch; _ ← log_verdict (deduplicated v); mret (deduplicated v)
         else ask decode_message anthropic loop_options model key sys (format_snapshot_for_llm snap cl) sig v) (set_world w a) = (r, a').
Proof.
  unfold watch_once. cbn [write_snapshot_to_disk enable_signature_dedup update_heartbeat write_to_log loop_options when].
  intros [(snap & w1 & E1 & Hr)|Hr]%harbor_inv; [|left; exact Hr].
  apply bind_inv in Hr as [(u & a2 & E2 & Hr)|(e & E2 & ->)].
  2: { left. apply write_snapshot_step in E2 as [w ->]. by eexists _, _. }
  pose proof (write_snapshot_step _ _ _ _ E2) as [w2 ->].
  apply harbor_inv in Hr as [(at_ & w3 & E3 & Hr)|(e & w & -> & ->)]; [|by left; eexists _, _].
  apply harbor_inv in Hr as [(key & w4 & E4 & Hr)|(e & w & -> & ->)]; [|by left; eexists _, _].
  apply harbor_inv in Hr as [(sys & w5 & E5 & Hr)|(e & w & -> & ->)]; [|by left; eexists _, _].
  apply harbor_inv in Hr as [(now & w6 & E6 & Hr)|(e & w & -> & ->)]; [|by left; eexists _, _].
  apply harbor_inv in Hr as [(cl & w7 & E7 & Hr)|(e & w & -> & ->)]; [|by left; eexists _, _].
  right. exists snap, at_, key, sys, cl, w7. split; [|exact Hr]. unfold tick_question.
  rewrite (bind_ok _ _ _ _ _ (harbor_run _ _ _ _ E1)), (bind_ok _ _ _ _ _ E2), (bind_ok _ _ _ _ _ (harbor_run _ _ _ _ E3)),
    (bind_ok _ _ _ _ _ (harbor_run _ _ _ _ E4)), (bind_ok _ _ _ _ _ (harbor_run _ _ _ _ E5)),
    (bind_ok _ _ _ _ _ (harbor_run _ _ _ _ E6)), (bind_ok _ _ _ _ _ (harbor_run _ _ _ _ E7)). done.
Qed.

(** The question is put aside exactly if the harbor is as it was. *)
Lemma dedup_run a snap at_ key sys cl w sig skip w' : tick_question a = (Ok (snap, at_, key, sys, cl), set_world w a) ->
  dedup canonical snap cl w = (Ok (sig, skip), w') -> skip = true <-> as_it_was a.
Proof.
  intros Eq Ed. unfold dedup in Ed. rewrite lift_bind in Ed. destruct (compute_signature canonical snap cl) as [s|] eqn:Es; [|done].
  apply bind_inv in Ed as [(st & w1 & El & Ed)|(e & _ & [=])].
  assert (as_it_was a <-> s = last_signature st /\ last_signature st <> ""
    /\ SFleb (sf_of_Z 1800) (SFsub prec emax (unix_time (clock (w_ticks w1))) (last_real_call_unix st)) = false) as ->.
  { split.
    - intros (snap' & at' & key' & sys' & cl' & v & st' & w1' & E & L & C & R). rewrite Eq in E.
      injection E as <- <- <- <- <- E. subst. rewrite Es in C.
      rewrite El in L. injection L as <- <-. injection C as ->. by split.
    - intros (-> & R). by exists snap, at_, key, sys, cl, w, st, w1. }
  destruct (is_empty (last_signature st) || negb (last_signature st =s s)) eqn:Eo.
  - injection Ed as _ <- _. split; [done|]. intros (-> & Hne & _). rewrite String.eqb_refl, orb_false_r in Eo.
    by destruct (last_signature st).
  - apply orb_false_iff in Eo as [Ene Eeq]. apply negb_false_iff, String.eqb_eq in Eeq.
    unfold utc_now, mbind, M_bind in Ed. injection Ed as _ <- _. unfold should_skip_llm. rewrite Ene, Eeq, String.eqb_refl. cbn [orb negb].
    rewrite negb_true_iff. change FORCE_REFRESH_SECONDS with 1800. split; [|by intros (_ & _ & ->)].
    intros ->. split; [done|]. split; [|done]. rewrite <- Eeq. intros Hs. by rewrite Hs in Ene.
Qed.

End Tick.

(** ** The deeper tier *)

(** The messages and the requests are as they were. *)
Definition no_act (a a' : auditor) : Prop := au_messages a' = au_messages a /\ au_requests a' = au_requests a.

Lemma no_act_refl a : no_act a a.
Proof. done. Qed.

Lemma no_act_trans a b c : no_act a b -> no_act b c -> no_act a c.
Proof. unfold no_act. intros [-> ->] [-> ->]. done. Qed.

Lemma harbor_no_act {X} (m : W X) a r a' : harbor m a = (r, a') -> no_act a a'.
Proof. unfold harbor. destruct (m (au_world a)) as [x w]. by intros [= _ <-]. Qed.

(** A step that sends nothing, however it ends. *)
Definition silent {X} (m : A X) : Prop := forall a, no_act a (snd (m a)).

Lemma silent_ret {X} (x : X) : silent (mret x).
Proof. by intros a. Qed.
Lemma silent_throw {X} e : silent (throw (A := X) e).
Proof. by intros a. Qed.
Lemma silent_lift {X} (r : res exn X) : silent (lift r).
Proof. by intros a. Qed.
Lemma silent_harbor {X} (m : W X) : silent (harbor m).
Proof. intros a. destruct (harbor m a) as [r a'] eqn:E. by eapply harbor_no_act. Qed.
Lemma silent_gets {X} (f : auditor -> X) : silent (gets f).
Proof. by intros a. Qed.
Lemma silent_modify f : (forall a, no_act a (f a)) -> silent (modify f).
Proof. intros Hf a. apply Hf. Qed.

Lemma silent_bind {X Y} (m : A X) (k : X -> A Y) : silent m -> (forall x, silent (k x)) -> silent (m ≫= k).
Proof.
  intros Hm Hk a. unfold mbind, M_bind. specialize (Hm a). destruct (m a) as [[x|e] a1]; [|done].
  eapply no_act_trans; [exact Hm|apply Hk].
Qed.

Lemma silent_catch {X} (m : A X) h : silent m -> (forall e, silent (h e)) -> silent (catch m h).
Proof.
  intros Hm Hh a. unfold catch. specialize (Hm a). destruct (m a) as [[x|e] a1]; [done|].
  eapply no_act_trans; [exact Hm|apply Hh].
Qed.

Lemma silent_when b m : silent m -> silent (when b m).
Proof. intros Hm. destruct b; [exact Hm|apply silent_ret]. Qed.

Create HintDb quiet_tier.
#[export] Hint Resolve silent_ret silent_throw silent_lift silent_harbor silent_gets silent_bind silent_catch silent_when : quiet_tier.

(** Splits a step into those it is made of. *)
Ltac silent_tac :=
  repeat first
    [ apply silent_bind; [|intros ?] | apply silent_catch; [|intros ?] | apply silent_modify; by intros ?
    | solve [auto with quiet_tier] | case_match ].

Section Tiers.
Context `{Env} (decode_message : string -> string) (prompts_dir : string)
  (anthropic telegram_api : list json -> json -> http_outcome) (daemon_socket : list json -> json -> bool).

Lemma silent_llm path model sys user n : silent (llm_call anthropic path model sys user n).
Proof. unfold llm_call. silent_tac. Qed.

Lemma silent_log_deep d : silent (log_deep d).
Proof. unfold log_deep, append_log, despite_os_error. silent_tac. Qed.

Lemma silent_touch_thread : silent (despite_os_error touch_thread).
Proof. unfold despite_os_error, touch_thread. silent_tac. Qed.

Lemma silent_context wv snap : silent (build_user_context wv snap).
Proof. unfold build_user_context, read_watch_log. silent_tac. Qed.

(** However the step ends, it has sent messages and requests that satisfy [P]. *)
Definition sends {X} (P : list json -> list json -> Prop) (m : A X) : Prop :=
  forall a, exists ms rs, au_messages (snd (m a)) = au_messages a ++ ms /\ au_requests (snd (m a)) = au_requests a ++ rs /\ P ms rs.

Lemma sends_silent {X} P (m : A X) : P [] [] -> silent m -> sends P m.
Proof. intros Hp Hm a. destruct (Hm a) as [E1 E2]. exists [], []. by rewrite E1, E2, !List.app_nil_r. Qed.

Lemma sends_then {X Y} P (m : A X) (k : X -> A Y) : sends P m -> (forall x, silent (k x)) -> sends P (m ≫= k).
Proof.
  intros Hm Hk a. unfold mbind, M_bind. destruct (Hm a) as (ms & rs & E1 & E2 & Hp). destruct (m a) as [[x|e] a1]; [|by exists ms, rs].
  destruct (Hk x a1) as [F1 F2]. exists ms, rs. cbn in E1, E2. by rewrite F1, F2.
Qed.

Lemma sends_after {X Y} P (m : A X) (k : X -> A Y) : P [] [] -> silent m -> (forall x, sends P (k x)) -> sends P (m ≫= k).
Proof.
  intros Hp Hm Hk a. unfold mbind, M_bind. destruct (Hm a) as [E1 E2]. destruct (m a) as [[x|e] a1].
  - destruct (Hk x a1) as (ms & rs & F1 & F2 & Hp'). cbn in E1, E2. exists ms, rs. by rewrite F1, F2, E1, E2.
  - cbn in E1, E2. exists [], []. cbn. by rewrite E1, E2, !List.app_nil_r.
Qed.

Lemma sends_catch {X} P (m : A X) h : sends P m -> (forall e, silent (h e)) -> sends P (catch m h).
Proof.
  intros Hm Hh a. unfold catch. destruct (Hm a) as (ms & rs & E1 & E2 & Hp). destruct (m a) as [[x|e] a1]; [by exists ms, rs|].
  destruct (Hh e a1) as [F1 F2]. exists ms, rs. cbn in E1, E2. by rewrite F1, F2.
Qed.

Lemma sends_bind {X Y} (P Q R : list json -> list json -> Prop) (m : A X) (k : X -> A Y) :
  sends P m -> (forall x, sends Q (k x)) -> (forall ms rs, P ms rs -> R ms rs) ->
  (forall ms rs ms' rs', P ms rs -> Q ms' rs' -> R (ms ++ ms') (rs ++ rs')) -> sends R (m ≫= k).
Proof.
  intros Hm Hk Hpr Hpq a. unfold mbind, M_bind. destruct (Hm a) as (ms & rs & E1 & E2 & Hp). destruct (m a) as [[x|e] a1].
  - destruct (Hk x a1) as (ms' & rs' & F1 & F2 & Hq). cbn in E1, E2. exists (ms ++ ms'), (rs ++ rs').
    rewrite F1, F2, E1, E2, !app_assoc. auto.
  - exists ms, rs. auto.
Qed.

Definition one_message (d : DeepAnalysis) (ms rs : list json) : Prop :=
  (ms = [] \/ exists chat, ms = [telegram_payload chat (da_message d)]) /\ rs = [].

Lemma send_sends d : sends (one_message d) (send telegram_api (da_message d)).
Proof.
  unfold send. assert (one_message d [] []) as H0 by (split; [by left|done]).
  apply sends_after; [done|apply silent_harbor|]. intros [token|]; [|by apply sends_silent, silent_ret].
  apply sends_after; [done|apply silent_harbor|]. intros [chat|]; [|by apply sends_silent, silent_ret].
  apply sends_after; [done|apply silent_gets|]. intros sent. apply sends_then.
  - intros a. exists [telegram_payload chat (da_message d)], []. cbn. rewrite List.app_nil_r. split; [done|]. split; [done|].
    split; [right; by exists chat|done].
  - intros []. silent_tac.
Qed.

Lemma escalate_sends d : sends (one_message d) (escalate telegram_api d).
Proof.
  unfold escalate. assert (one_message d [] []) as H0 by (split; [by left|done]).
  apply sends_after; [done|apply silent_harbor|]. intros [|]; cbn [negb]; [|by apply sends_silent, silent_ret].
  apply sends_catch; [|intros e; apply silent_ret]. apply sends_then; [apply send_sends|]. intros sent.
  apply silent_bind; [apply silent_when, silent_touch_thread|intros u; apply silent_ret].
Qed.

Definition one_request (d : DeepAnalysis) (ms rs : list json) : Prop :=
  ms = [] /\ (rs = [] \/ exists token target, action_target d = Some target /\ rs = [action_request d token target]).

Lemma invoke_sends d : sends (one_request d) (despite (_invoke_auditor_action daemon_socket d)).
Proof.
  assert (one_request d [] []) as H0 by (split; [done|by left]). apply sends_catch; [|intros e; apply silent_ret].
  unfold _invoke_auditor_action. apply sends_after; [done|apply silent_harbor|]. intros token.
  destruct (is_empty token); [by apply sends_silent, silent_ret|]. destruct (action_target d) as [target|] eqn:Et; [|by apply sends_silent, silent_ret].
  apply sends_after; [done|apply silent_gets|]. intros sent. destruct (daemon_socket _ _); [|by apply sends_silent, silent_ret].
  intros a. exists [], [action_request d token target]. cbn. rewrite List.app_nil_r. split; [done|]. split; [done|].
  split; [done|right]. by exists token, target.
Qed.

(** What an analysis may send. *)
Definition may_send (d : DeepAnalysis) (ms rs : list json) : Prop :=
  (ms = [] \/ wants_telegram d = true /\ exists chat, ms = [telegram_payload chat (da_message d)])
  /\ (rs = [] \/ wants_action d = true /\ exists token target, action_target d = Some target /\ rs = [action_request d token target]).

Lemma act_on_sends d : sends (may_send d) (act_on telegram_api daemon_socket d).
Proof.
  unfold act_on.
  apply (sends_bind (fun ms rs => (ms = [] \/ wants_telegram d = true /\ exists chat, ms = [telegram_payload chat (da_message d)]) /\ rs = [])
    (fun ms rs => ms = [] /\ (rs = [] \/ wants_action d = true /\ exists token target, action_target d = Some target
                                       /\ rs = [action_request d token target]))).
  - destruct (wants_telegram d); [|by apply sends_silent; [split; [left|]|apply silent_ret]].
    intros a. destruct (escalate_sends d a) as (ms & rs & E1 & E2 & [Hm ->]). exists ms, []. split; [done|]. split; [done|].
    split; [|done]. destruct Hm as [->|Hm]; [by left|by right].
  - intros sent. apply sends_then; [|intros u; apply silent_bind; [apply silent_log_deep|intros ?; apply silent_ret]].
    change (wants_action (with_sent d sent)) with (wants_action d).
    unfold when. destruct (wants_action d); [|by apply sends_silent; [split; [|left]|apply silent_ret]].
    intros a. destruct (invoke_sends (with_sent d sent) a) as (ms & rs & E1 & E2 & [-> Hr]). exists [], rs. split; [done|]. split; [done|].
    split; [done|]. destruct Hr as [->|Hr]; [by left|by right].
  - intros ms rs [Hm ->]. split; [done|by left].
  - intros ms rs ms' rs' [Hm ->] [-> Hr]. rewrite List.app_nil_r. by split.
Qed.

(** What an answer's text says: an object with one of the four verdicts. *)
Definition says (text : string) (o : obj) (verdict : string) : Prop :=
  exists s, braced (unfenced text) = Some s /\ json_loads s = Some (JObj o)
    /\ jget_default "verdict" (JStr "") o = JStr verdict /\ In verdict DEEP_VERDICTS.

Lemma parse_deep_says text : let d := parse_deep_verdict decode_message text in
  da_verdict d = "error" /\ da_should_send d = false
  \/ exists o, says text o (da_verdict d)
     /\ da_should_send d = truthy (jget_default "should_send_telegram" (JBool false) o)
     /\ da_message d = py_str (jget_default "escalation_message" (JStr "") o)
     /\ da_action d = recommended_action (jget "recommended_action" o)
     /\ da_drydock d = jget "target_drydock" o /\ da_lease_id d = jget "target_lease_id" o.
Proof.
  cbv zeta. unfold parse_deep_verdict, says. destruct (braced (unfenced text)) as [s|]; [|by left].
  destruct (json_loads s) as [[| | | | | |o]|] eqn:El; try by left. unfold deep_of_obj.
  destruct (List.find _ DEEP_VERDICTS) as [v|] eqn:E; [|by left]. right. exists o. split; [|done].
  apply find_some in E as [Hv E]. exists s. split; [done|]. split; [done|]. split; [|exact Hv].
  cbn. destruct (jget_default "verdict" _ o); try discriminate E. cbn in E. apply String.eqb_eq in E. by subst.
Qed.

(** The request that an answer with the members [o] leads to: an action on the lease it names, or on the desk. *)
Definition asks_for (o : obj) (r : json) : Prop :=
  exists kind target reason evidence i token, kind = recommended_action (jget "recommended_action" o) /\ truthy kind = true
    /\ (target = ("lease_id", jget "target_lease_id" o) /\ kind = JStr "revoke_lease"
        \/ target = ("target_drydock_id", jget "target_drydock" o)) /\ truthy (snd target) = true
    /\ r = JObj [("jsonrpc", JStr "2.0"); ("method", JStr "AuditorAction");
                 ("params", JObj [("kind", kind); ("reason", JStr reason); ("evidence", evidence); target]);
                 ("id", JStr i); ("auth", JStr token)].

(** What an answer may bring about. *)
Definition answer_sends (text : string) (ms rs : list json) : Prop :=
  exists o verdict, says text o verdict
    /\ (ms = [] \/ truthy (jget_default "should_send_telegram" (JBool false) o) = true
          /\ py_str (jget_default "escalation_message" (JStr "") o) <> ""
          /\ exists chat, ms = [telegram_payload chat (py_str (jget_default "escalation_message" (JStr "") o))])
    /\ (rs = [] \/ verdict = "action_recommended" /\ exists r, rs = [r] /\ asks_for o r).

Lemma target_asked d t : action_target d = Some t ->
  (t = ("lease_id", da_lease_id d) /\ da_action d = JStr "revoke_lease" \/ t = ("target_drydock_id", da_drydock d))
  /\ truthy (snd t) = true.
Proof.
  unfold action_target. destruct (str_eq_json "revoke_lease" (da_action d) && truthy (da_lease_id d)) eqn:E.
  - apply andb_true_iff in E as [Ea Et]. intros [= <-]. split; [left; split; [done|]|done].
    unfold str_eq_json in Ea. destruct (da_action d); try done. apply String.eqb_eq in Ea. by subst.
  - destruct (truthy (da_drydock d)) eqn:Et; [|done]. intros [= <-]. split; [by right|done].
Qed.

Lemma may_send_answer text wv at_ t model resp ms rs :
  may_send (with_call (parse_deep_verdict decode_message text) wv at_ t model resp) ms rs ->
  ms = [] /\ rs = [] \/ answer_sends text ms rs.
Proof.
  intros [Hm Hr]. destruct (parse_deep_says text) as [[Hv Hs]|(o & Hsay & Es & Em & Ea & Ed & El)].
  - left. unfold wants_telegram, wants_action, with_call in Hm, Hr. cbn in Hm, Hr. rewrite Hv in Hr. rewrite Hs in Hm. cbn in Hm, Hr.
    split; [by destruct Hm as [|[]]|by destruct Hr as [|[]]].
  - right. exists o, (da_verdict (parse_deep_verdict decode_message text)). split; [exact Hsay|]. split.
    + destruct Hm as [->|[Hw (chat & ->)]]; [by left|right]. unfold wants_telegram, with_call in Hw. cbn in Hw.
      apply andb_true_iff in Hw as [Hw _]. apply andb_true_iff in Hw as [Hw Hne]. rewrite Es in Hw. cbn [da_message with_call]. rewrite Em in *.
      split; [exact Hw|]. split; [|by exists chat]. intros E. by rewrite E in Hne.
    + destruct Hr as [->|[Hw (token & target & Ht & ->)]]; [by left|right]. unfold wants_action, with_call in Hw. cbn in Hw.
      apply andb_true_iff in Hw as [Hw _]. apply andb_true_iff in Hw as [Hw Hk]. apply String.eqb_eq in Hw. split; [exact Hw|].
      eexists. split; [reflexivity|]. apply target_asked in Ht as [Ht Htr]. cbn in Ht, Hk. rewrite Ea, Ed, El in *.
      do 6 eexists. split; [reflexivity|]. split; [exact Hk|]. split; [exact Ht|]. split; [exact Htr|].
      unfold action_request. cbn. rewrite Ea. reflexivity.
Qed.

Lemma context_run wv snap a : exists w, snd (build_user_context wv snap a) = set_world w a.
Proof.
  unfold build_user_context, read_watch_log, mbind, M_bind, harbor, gets.
  destruct ((mapM (audit_line snap) (drydocks_of_concern wv) : W (list string)) (au_world a)) as [[l|e] w]; by exists w.
Qed.

(** The call of the model, with what the analysis makes of a failure: an answer that comes out of it is the service's. *)
Lemma deep_call key sys user b x b2 :
  catch (r ← llm_call anthropic key DEFAULT_DEEP_MODEL sys user DEEP_MAX_TOKENS; mret (inl r))
    (fun e => if is_unavailable e then mret (inr (str_exn e)) else throw e) b = (x, b2) ->
  no_act b b2
  /\ match x with
     | Ok (inl resp) => exists prompt body, anthropic (au_prompts b) prompt = HttpBody body
         /\ (data ← json_decode body; llm_response data DEFAULT_DEEP_MODEL) = Ok resp
     | _ => True
     end.
Proof.
  unfold catch. pose proof (silent_llm key DEFAULT_DEEP_MODEL sys user DEEP_MAX_TOKENS b) as Hs.
  pose proof (llm_call_cases anthropic key DEFAULT_DEEP_MODEL sys user DEEP_MAX_TOKENS b) as Hc.
  destruct (llm_call anthropic key DEFAULT_DEEP_MODEL sys user DEEP_MAX_TOKENS b) as [[resp|e] b3] eqn:El; cbn [fst snd] in *.
  - rewrite (bind_ok _ _ _ _ _ El). intros [= <- <-]. split; [exact Hs|].
    destruct Hc as [(e & w & [=])|(body & w & _ & Hb)]. destruct (anthropic (au_prompts b) body) as [text|c m|m] eqn:Ea;
      [|by destruct Hb as (e & [=] & _)..]. by exists body, text.
  - rewrite (bind_err _ _ _ _ _ El). destruct (is_unavailable e); intros [= <- <-]; by split.
Qed.

(** C26: What an analysis can bring about, however it ends. It sends no message and no request, unless the service
    has answered the one prompt with a body that can be read, whose text holds an object with one of the four verdicts. Then at
    most one message is sent, with the text that the object gives as its message, and only if the object asks for
    it and that text is not empty; and at most one request goes to the daemon, for the action that the object recommends (as
    [recommended_action] reads it), on the lease or the desk that it names, and only if its verdict is
    "action_recommended". *)
Theorem deep_sends_only_what_it_says wv snap a :
  let '(r, a') := deep_analyze decode_message prompts_dir anthropic telegram_api daemon_socket wv snap a in
  exists ms rs, au_messages a' = au_messages a ++ ms /\ au_requests a' = au_requests a ++ rs
    /\ (ms = [] /\ rs = []
        \/ exists prompt body resp, anthropic (au_prompts a) prompt = HttpBody body
           /\ (data ← json_decode body; llm_response data DEFAULT_DEEP_MODEL) = Ok resp /\ answer_sends (lr_text resp) ms rs).
Proof.
  destruct (deep_analyze _ _ _ _ _ wv snap a) as [r a'] eqn:Hr.
  assert (forall w, a' = set_world w a -> exists ms rs, au_messages a' = au_messages a ++ ms /\ au_requests a' = au_requests a ++ rs
    /\ (ms = [] /\ rs = [] \/ exists prompt body resp, anthropic (au_prompts a) prompt = HttpBody body
           /\ (data ← json_decode body; llm_response data DEFAULT_DEEP_MODEL) = Ok resp /\ answer_sends (lr_text resp) ms rs)) as Hnone.
  { intros w ->. exists [], []. rewrite !List.app_nil_r. split; [done|]. split; [done|]. by left. }
  unfold deep_analyze in Hr.
  apply harbor_inv in Hr as [(t & w1 & _ & Hr)|(e & w & _ & E)]; [|by eapply Hnone].
  apply harbor_inv in Hr as [(key & w2 & _ & Hr)|(e & w & _ & E)]; [|by eapply Hnone].
  apply harbor_inv in Hr as [(sys & w3 & _ & Hr)|(e & w & _ & E)]; [|by eapply Hnone].
  destruct (context_run wv snap (set_world w3 (set_world w2 (set_world w1 a)))) as [w4 Ec].
  apply bind_inv in Hr as [(user & a4 & E4 & Hr)|(e & E4 & _)]; rewrite E4 in Ec; cbn [snd] in Ec; [|by eapply Hnone]. subst a4. clear E4.
  set (b := set_world w4 (set_world w3 (set_world w2 (set_world w1 a)))) in Hr.
  assert (au_messages b = au_messages a /\ au_requests b = au_requests a /\ au_prompts b = au_prompts a) as (Bm & Br & Bp) by done.
  assert (forall a2, no_act b a2 -> a' = a2 -> exists ms rs, au_messages a' = au_messages a ++ ms /\ au_requests a' = au_requests a ++ rs
    /\ (ms = [] /\ rs = [] \/ exists prompt body resp, anthropic (au_prompts a) prompt = HttpBody body
           /\ (data ← json_decode body; llm_response data DEFAULT_DEEP_MODEL) = Ok resp /\ answer_sends (lr_text resp) ms rs)) as Hquiet.
  { intros a2 [N1 N2] ->. exists [], []. rewrite N1, N2, !List.app_nil_r. split; [done|]. split; [done|]. by left. }
  apply bind_inv in Hr as [(resp & a5 & E5 & Hr)|(e & E5 & _)]; apply deep_call in E5 as [[G1 G2] Hresp]; [|by apply (Hquiet a')].
  destruct resp as [resp|exc].
  - destruct Hresp as (prompt & body & Hb & Hd).
    destruct (act_on_sends (with_call (parse_deep_verdict decode_message (lr_text resp)) wv (snapshot_at snap) t DEFAULT_DEEP_MODEL resp) a5)
      as (ms & rs & H1 & H2 & Hs). rewrite Hr in H1, H2. cbn [snd] in H1, H2. exists ms, rs. rewrite H1, H2, G1, G2, Bm, Br.
    split; [done|]. split; [done|]. apply may_send_answer in Hs as [?|Hs]; [by left|right].
    exists prompt, body, resp. rewrite Bp in Hb. by split_and!.
  - set (d := deep_unavailable wv (snapshot_at snap) t DEFAULT_DEEP_MODEL exc) in Hr.
    assert (silent (_ ← log_deep d; mret d)) as Hl by (apply silent_bind; [apply silent_log_deep|intros; apply silent_ret]).
    specialize (Hl a5). rewrite Hr in Hl. cbn [snd] in Hl. eapply Hquiet; [|done]. by eapply no_act_trans; [|exact Hl].
Qed.
End Tiers.

(** ** The cadence *)

Section Cadence.
Context `{Env} (local : datetime -> Z) (no_faults : forall n, fs_fault n = None).

(** A record of the line is not before the instant. *)
Definition record_since (us : Z) (line : string) : Prop :=
  exists rec t, line_value line = Some rec /\ record_ts rec = Ok (Some t) /\ us <= dt_us t.

(** Some record at the end of the log is of [now] less [window] seconds, or later. *)
Definition activity_since (now : datetime) (window : Z) (lines : list string) : Prop :=
  Exists (record_since (dt_us now - window * us_per_second)) (log_tail lines).

Lemma any_since_ok cutoff lines b : any_since cutoff lines = Ok b -> b = true <-> Exists (record_since (dt_us cutoff)) lines.
Proof.
  induction lines as [|line lines IH]; cbn [any_since]; [intros [= <-]; split; [done|by inversion 1]|].
  rewrite List.Exists_cons. destruct (line_value line) as [rec|] eqn:El.
  - intros (ts & Et & Hr)%res_bind_ok. destruct ts as [t|].
    + destruct (Z.leb_spec (dt_us cutoff) (dt_us t)) as [Hle|Hlt].
      * injection Hr as <-. split; [intros _; left; by exists rec, t|done].
      * rewrite (IH Hr). split; [by right|]. intros [(rec' & t' & E1 & E2 & E3)|]; [|done].
        rewrite El in E1. injection E1 as <-. rewrite Et in E2. injection E2 as <-. lia.
    + rewrite (IH Hr). split; [by right|]. intros [(rec' & t' & E1 & E2 & _)|]; [|done].
      rewrite El in E1. injection E1 as <-. by rewrite Et in E2.
  - intros Hr. rewrite (IH Hr). split; [by right|]. intros [(rec' & t' & E1 & _)|]; [by rewrite El in E1|done].
Qed.

Lemma record_ts_error rec e : record_ts rec = Err e -> is_os_error e = false.
Proof.
  unfold record_ts. destruct rec as [| | | | | |o]; try (intros [= <-]; done).
  destruct (truthy _); cbn [negb]; [|done]. destruct (py_or _ _); by intros [= <-].
Qed.

Lemma any_since_error cutoff lines e : any_since cutoff lines = Err e -> is_os_error e = false.
Proof.
  induction lines as [|line lines IH]; cbn [any_since]; [done|]. destruct (line_value line) as [rec|]; [|exact IH].
  destruct (record_ts rec) as [[t|]|e'] eqn:Er; cbn; [destruct (_ <=? _); [done|exact IH]|exact IH|].
  intros [= <-]. by eapply record_ts_error.
Qed.

Lemma recent_activity now window w b w' : has_recent_broker_activity now window w = (Ok b, w') ->
  w_audit w' = w_audit w
  /\ (b = true <-> exists lines, audit_lines w = Some lines /\ activity_since now window lines).
Proof.
  unfold has_recent_broker_activity. rewrite gets_bind. destruct (audit_lines w) as [lines|].
  - unfold add_seconds. destruct (_ && _); [|done]. unfold catch. rewrite (bind_ok _ _ _ _ _ (no_fault_op w no_faults)). unfold lift.
    destruct (any_since _ _) as [b'|e] eqn:Ea.
    + intros [= <- <-]. split; [done|]. rewrite (any_since_ok _ _ _ Ea). cbn [dt_us].
      replace (dt_us now + - window * 1000000) with (dt_us now - window * us_per_second) by (unfold us_per_second; lia).
      split; [by exists lines|]. by intros (l & [= <-] & Hl).
    + destruct (is_os_error e) eqn:Eo; [|done]. intros _. apply any_since_error in Ea. congruence.
  - intros [= <- <-]. split; [done|]. split; [done|]. by intros (l & [=] & _).
Qed.

(** The table of the cadences. *)
Definition cadence_of (thread recent night quiet : bool) : Z :=
  if thread then CADENCE_RESPONSIVE else if recent then CADENCE_NEAR_RESPONSIVE
  else if night || quiet then CADENCE_QUIET else CADENCE_DEFAULT.

Definition thread_open (now : datetime) (thread : option datetime) : Prop :=
  exists t, thread = Some t /\ dt_us now - dt_us t <= TELEGRAM_WINDOW * us_per_second.

Definition log_quiet (now : datetime) (log : option (list string)) : Prop :=
  exists lines, log = Some lines /\ ~ activity_since now SUSTAINED_QUIET_WINDOW lines.

(** The cadence is the one of the design's table: a minute if a message was sent in the last ten, else two
    minutes if the end of the audit log has a record of the last ten, else a quarter of an hour at night, or
    if there is a log and the end of it has no record of the last hour, and else five minutes. *)
Theorem cadence_table a c a' : next_cadence local a = (Ok c, a') ->
  let now := clock (w_ticks (au_world a)) in let log := audit_lines (au_world a) in
  exists thread recent quiet, c = cadence_of thread recent (is_night local now) quiet
    /\ (thread = true <-> thread_open now (au_thread a))
    /\ (thread = false -> recent = true <-> exists lines, log = Some lines /\ activity_since now RECENT_BROKER_ACTIVITY_WINDOW lines)
    /\ (thread = false -> recent = false -> is_night local now = false -> quiet = true <-> log_quiet now log).
Proof.
  unfold next_cadence. intros (now & w1 & [= <- <-] & (th & a2 & [= <- <-] & Hr)%bind_ok_inv)%harbor_ok_inv. cbn zeta.
  set (now := clock _) in *. cbn [au_thread set_world] in Hr.
  assert (forall b : bool, match au_thread a with Some t => dt_sub now t <=? TELEGRAM_WINDOW * us_per_second | None => false end = b ->
    b = true <-> thread_open now (au_thread a)) as Ht.
  { intros b <-. unfold thread_open, dt_sub. destruct (au_thread a) as [t|]; [rewrite Z.leb_le|].
    - split; [by exists t|]. by intros (t' & [= <-] & Hle).
    - split; [done|]. by intros (t' & [=] & _). }
  destruct (match au_thread a with Some t => _ | None => false end) eqn:Eth; cbn [orb has_active_workload] in Hr.
  - injection Hr as <- _. exists true, false, false. split; [done|]. split; [by apply Ht|done].
  - apply harbor_ok_inv in Hr as (recent & w2 & [Haud Hrec]%recent_activity & Hr). destruct recent.
    + injection Hr as <- _. exists false, true, false. split; [done|]. split; [by apply Ht|]. split; [|done]. intros _. apply Hrec.
    + destruct (is_night local now) eqn:En.
      * injection Hr as <- _. exists false, false, false. split; [done|]. split; [by apply Ht|]. split; [|done]. intros _. apply Hrec.
      * apply harbor_ok_inv in Hr as (quiet & w3 & Hq & [= <- _]). exists false, false, quiet.
        split; [by destruct quiet|]. split; [by apply Ht|]. split; [intros _; apply Hrec|]. intros _ _ _.
        cbn [au_world set_world] in Hq. unfold has_sustained_quiet in Hq. rewrite gets_bind in Hq.
        assert (audit_lines w2 = audit_lines (au_world a)) as El by (unfold audit_lines; by rewrite Haud). rewrite El in Hq.
        unfold log_quiet. destruct (audit_lines (au_world a)) as [lines|].
        -- apply bind_ok_inv in Hq as (r2 & w4 & [_ Hr2]%recent_activity & [= <- _]). rewrite El in Hr2.
           rewrite negb_true_iff, <- not_true_iff_false, Hr2. split.
           ++ intros Hn. exists lines. split; [done|]. intros Ha. apply Hn. by exists lines.
           ++ intros (l & [= <-] & Hn) (l' & [= <-] & Ha). by apply Hn.
        -- injection Hq as <- _. split; [done|]. by intros (l & [=] & _).
Qed.
End Cadence.

(** ** The loop *)

Section Loop.
Context `{Env} (decode_message : string -> string) (canonical : json -> string) (prompts_dir node : string)
  (anthropic telegram_api : list json -> json -> http_outcome) (daemon_socket : list json -> json -> bool)
  (local : datetime -> Z) (stop : Z -> bool * bool).

Abbreviation iter := (iteration decode_message canonical prompts_dir node anthropic telegram_api daemon_socket local).
Abbreviation runs := (run_loop decode_message canonical prompts_dir node anthropic telegram_api daemon_socket local stop).

Definition CADENCES : list Z := [CADENCE_RESPONSIVE; CADENCE_NEAR_RESPONSIVE; CADENCE_DEFAULT; CADENCE_QUIET].

(** The counts of a run agree: one cadence for each tick, one of the four; no more analyses than ticks, and no
    more messages than analyses; and no more errors in a row than ticks. *)
Definition coherent (st : DaemonStats) : Prop :=
  Z.of_nat (length (cadences_chosen st)) = iterations st /\ Forall (fun c => In c CADENCES) (cadences_chosen st)
  /\ 0 <= telegram_escalations st <= deep_analyses st /\ deep_analyses st <= iterations st
  /\ 0 <= consecutive_errors st <= iterations st.

Lemma next_cadence_in a c a' : next_cadence local a = (Ok c, a') -> In c CADENCES.
Proof.
  unfold next_cadence. intros (now & w1 & _ & (th & a2 & _ & Hr)%bind_ok_inv)%harbor_ok_inv.
  destruct (th || _); [injection Hr as <- _; by left|].
  apply harbor_ok_inv in Hr as (recent & w2 & _ & Hr). destruct recent; [injection Hr as <- _; right; by left|].
  destruct (is_night local now); [injection Hr as <- _; cbn; by auto 6|].
  apply harbor_ok_inv in Hr as (quiet & w3 & _ & [= <- _]). destruct quiet; cbn; by auto 6.
Qed.

Lemma deep_tier_stats v st a st' a' :
  deep_tier decode_message prompts_dir node anthropic telegram_api daemon_socket v st a = (Ok st', a') ->
  st' = st \/ exists d, st' = note_deep d st.
Proof.
  unfold deep_tier. destruct (flagged v); [|intros [= <- _]; by left]. unfold catch.
  destruct ((harbor (snapshot_harbor node) ≫= _) a) as [[st2|e] a2] eqn:E; [|intros [= <- _]; by left].
  intros [= <- _]. apply harbor_ok_inv in E as (snap & w & _ & (d & a3 & _ & [= <- _])%bind_ok_inv). right. by exists d.
Qed.

Lemma iteration_stats st a st' a' : iter st a = (Ok st', a') -> coherent st -> coherent st' /\ iterations st' = iterations st + 1.
Proof.
  unfold iteration. intros (v & a1 & _ & (st2 & a2 & Hd & (c & a3 & Hc & [= <- _])%bind_ok_inv)%bind_ok_inv)%bind_ok_inv.
  apply next_cadence_in in Hc. intros (Hl & Hf & Ht & Hn & He). apply deep_tier_stats in Hd.
  assert (forall st0, cadences_chosen st0 = cadences_chosen st -> iterations st0 = iterations st + 1 ->
    consecutive_errors st0 = consecutive_errors (note_verdict v st) -> 0 <= telegram_escalations st0 <= deep_analyses st0 ->
    deep_analyses st0 <= deep_analyses st + 1 -> coherent (note_cadence c st0) /\ iterations (note_cadence c st0) = iterations st + 1) as Hgo.
  { intros st0 E1 E2 E3 H4 H5. unfold coherent, note_cadence. cbn. rewrite E1, E2, E3. rewrite length_app. cbn [length note_verdict consecutive_errors].
    split; [|done]. split; [lia|]. split; [apply List.Forall_app; split; [done|constructor; [exact Hc|constructor]]|].
    split; [done|]. split; [lia|]. destruct (wv_verdict v =s "error"); lia. }
  destruct Hd as [-> | [d ->]]; apply Hgo; cbn; try done; try lia. destruct (da_sent d); lia.
Qed.

Lemma run_loop_bounded m fuel st a : coherent st -> iterations st < Z.max 1 m -> Z.max 1 m - iterations st <= Z.of_nat fuel ->
  match runs fuel (Some m) st a with
  | (Ok (Some st'), _) => coherent st' /\ iterations st < iterations st' <= Z.max 1 m
  | (Ok None, _) => False
  | (Err _, _) => True
  end.
Proof.
  revert st a. induction fuel as [|fuel IH]; intros st a Hc Hi Hf; [lia|]. cbn [run_loop].
  destruct ((iter st ≫= _) a) as [[r|e] a'] eqn:E; [|done]. apply bind_ok_inv in E as (st1 & a1 & E1 & E2).
  destruct (iteration_stats _ _ _ _ E1 Hc) as [Hc1 Hi1]. destruct (ends stop (Some m) st1) eqn:Ee.
  - injection E2 as <- _. split; [done|lia].
  - assert (iterations st1 < Z.max 1 m) as Hlt.
    { unfold ends in Ee. apply orb_false_iff in Ee as [[Ee _]%orb_false_iff _]. apply Z.leb_gt in Ee. lia. }
    specialize (IH st1 a1 Hc1 Hlt ltac:(lia)). rewrite E2 in IH. destruct r as [st'|]; [|done]. destruct IH as [? ?]. split; [done|lia].
Qed.

(** C34: A run that is bounded ends: with as many steps as the bound, or one if that is more, the loop returns
    its counts or raises, and never runs on; it has run at least one tick and at most as many as the bound (a
    bound of zero is one tick), and its counts agree. *)
Theorem bounded_run_ends m a fuel : Z.max 1 m <= Z.of_nat fuel ->
  match run_auditor decode_message canonical prompts_dir node anthropic telegram_api daemon_socket local stop fuel (Some m) a with
  | (Ok (Some st), _) => coherent st /\ 1 <= iterations st <= Z.max 1 m
  | (Ok None, _) => False
  | (Err _, _) => True
  end.
Proof.
  intros Hf. unfold run_auditor. assert (coherent no_stats) as Hc by (repeat split; cbn; try lia; constructor).
  pose proof (run_loop_bounded m fuel no_stats a Hc) as Hr. cbn [iterations no_stats] in Hr.
  specialize (Hr ltac:(lia) ltac:(lia)). destruct (runs fuel (Some m) no_stats a) as [[[st|]|e] a']; [|done..].
  destruct Hr as [? ?]. split; [done|lia].
Qed.
End Loop.

(** ** A watch *)

(** An answer with one text block. *)
Definition answer_json (text : string) : json :=
  JObj [("content", JList [JObj [("type", JStr "text"); ("text", JStr text)]]); ("model", JStr "m")].

#[local] Instance auditor_env : Env := {|
  clock := @clock demo_env; clock_ok := @clock_ok demo_env; uuid_hex := @uuid_hex demo_env;
  token_bytes := @token_bytes demo_env; token_bytes_len := @token_bytes_len demo_env; sha256 _ := "sig";
  subprocess_run := @subprocess_run demo_env; run_host := @run_host demo_env; which := @which demo_env;
  env_float_repr := @env_float_repr demo_env;
  json_loads s :=
    if s =s "watch" then Some (answer_json "I see: {w}")
    else if s =s "deep" then Some (answer_json "{d}")
    else if s =s "vague" then Some (answer_json "all is well")
    else if s =s "{w}" then Some (JObj [("verdict", JStr "unsure"); ("reason", JStr "odd"); ("drydocks_of_concern", JList [])])
    else if s =s "{d}" then Some (JObj [("verdict", JStr "action_recommended"); ("recommended_action", JStr "stop_dock");
                                        ("target_drydock", JStr "web"); ("should_send_telegram", JBool true);
                                        ("escalation_message", JStr "web is odd")])
    else if s =s "state" then Some (state_json (mkSignature "sig" (sf_of_Z 1627603200)))
    else if s =s "ok" then Some (JObj [("ok", JBool true)])
    else if s =s "[]" then Some (JList [])
    else None;
  json_dumps _ := "state"; json_dumps_indent := @json_dumps_indent demo_env;
  yaml_load := @yaml_load demo_env; yaml_dump := @yaml_dump demo_env; fs_fault := @fs_fault demo_env; audit_fault := @audit_fault demo_env;
  is_root := true; secrets_root := @secrets_root demo_env; home := "/root"; environ := @environ demo_env
|}.

Lemma never_fails n : fs_fault n = None.
Proof. done. Qed.

Definition start : auditor :=
  mkAuditor (set_host {["/root/.drydock/daemon-secrets/anthropic_api_key" := NFile "k";
                        "/root/.drydock/daemon-secrets/telegram_bot_token" := NFile "t";
                        "/root/.drydock/daemon-secrets/telegram_chat_id" := NFile "7";
                        "/run/secrets/auditor-token" := NFile "T";
                        "/p/watch.md" := NFile "Watch."; "/p/deep_analysis.md" := NFile "Think."]} empty_world)
    None None [] [] [] [] [].

Definition no_message (s : string) : string := "".
Definition canon (v : json) : string := "".
Definition reply (body : string) (sent : list json) (prompt : json) : http_outcome := HttpBody body.
Definition takes (sent : list json) (r : json) : bool := true.
Definition noon (t : datetime) : Z := 12 * hour.
Definition no_stop (n : Z) : bool * bool := (false, false).

Abbreviation tick body := (watch_once no_message canon "/p" "harbor" (reply body) loop_options DEFAULT_WATCH_MODEL).
Abbreviation empty_snapshot := (mkHarborSnapshot "" "harbor" 0 []).
Abbreviation unsure := (mkVerdict "unsure" "odd" [] "" "" (JStr "m") (JInt 0) (JInt 0) "" None).
Abbreviation deeper body tg := (deep_analyze no_message "/p" (reply body) (reply tg) takes unsure empty_snapshot).

Definition tick_verdicts (r : res exn WatchVerdict * auditor) : string * nat * bool :=
  match r with (Ok v, a) => (wv_verdict v, length (au_watch_log a), is_some (au_heartbeat a)) | (Err e, _) => (exn_class e, O, false) end.

Example tick_ex : tick_verdicts (tick "watch" start) = ("unsure", 1%nat, true).
Proof. vm_compute. reflexivity. Qed.


Definition sent_by (r : res exn DeepAnalysis * auditor) : nat * nat * bool :=
  match r with (Ok d, a) => (length (au_messages a), length (au_requests a), da_sent d) | (Err e, _) => (O, O, false) end.

Example deep_ex : map sent_by [deeper "deep" "ok" start; deeper "vague" "ok" start] = [(1%nat, 1%nat, true); (O, O, false)].
Proof. vm_compute. reflexivity. Qed.

(** An answer that asks for a message and an action. *)
Lemma deep_sends_only_what_it_says_witness : exists d a' m q, deeper "deep" "ok" start = (Ok d, a') /\ au_messages a' = [m] /\ au_requests a' = [q]
  /\ exists text, answer_sends text [m] [q].
Proof.
  assert (sent_by (deeper "deep" "ok" start) = (1%nat, 1%nat, true)) as Hr by (vm_compute; reflexivity).
  pose proof (deep_sends_only_what_it_says no_message "/p" (reply "deep") (reply "ok") takes unsure empty_snapshot start) as Hd.
  destruct (deeper "deep" "ok" start) as [[d|e] a'] eqn:E; [|discriminate Hr]. destruct Hd as (ms & rs & E1 & E2 & Hs).
  cbn [start au_messages au_requests app] in E1, E2. injection Hr as Hm Hq _. rewrite E1 in Hm. rewrite E2 in Hq.
  destruct ms as [|m [|]], rs as [|q [|]]; try discriminate Hm; try discriminate Hq. exists d, a', m, q. split; [reflexivity|]. split; [exact E1|]. split; [exact E2|].
  destruct Hs as [[[=] _]|(prompt & body & resp & _ & _ & Hs)]. by exists (lr_text resp).
Defined.

Lemma cadence_table_witness : exists c a', next_cadence noon start = (Ok c, a') /\ c <> CADENCE_RESPONSIVE.
Proof.
  destruct (next_cadence noon start) as [[c|e] a'] eqn:E; [|vm_compute in E; discriminate E]. exists c, a'. split; [reflexivity|].
  destruct (cadence_table noon never_fails start c a' E) as (thread & recent & quiet & -> & [Ht _] & _).
  destruct thread; [|by destruct recent, quiet]. destruct (Ht eq_refl) as (t & [=] & _).
Defined.

Lemma bounded_run_ends_witness :
  match run_auditor no_message canon "/p" "harbor" (reply "watch") (reply "ok") takes noon no_stop 2 (Some 2) start with
  | (Ok None, _) => False
  | _ => True
  end.
Proof.
  assert (Z.max 1 2 <= Z.of_nat 2) as Hf by (vm_compute; discriminate).
  pose proof (bounded_run_ends no_message canon "/p" "harbor" (reply "watch") (reply "ok") takes noon no_stop 2 start 2 Hf) as Hb.
  destruct (run_auditor _ _ _ _ _ _ _ _ _ 2 (Some 2) start) as [[[st|]|e] a']; [exact I|exact Hb|exact I].
Defined.

(** Two bounded runs, of two ticks and of none: the second makes one all the same. *)
Definition run_counts (bound : Z) : option (Z * list Z * Z * Z) :=
  match run_auditor no_message canon "/p" "harbor" (fun _ p => if is_nil (match p with JObj o => match assoc "model" o with
      Some (JStr m) => if m =s DEFAULT_WATCH_MODEL then [] else [m] | _ => [] end | _ => [] end) then HttpBody "watch" else HttpBody "deep")
      (reply "ok") takes noon no_stop 5 (Some bound) start with
  | (Ok (Some st), _) => Some (iterations st, cadences_chosen st, deep_analyses st, telegram_escalations st)
  | _ => None
  end.

Example run_ex : run_counts 2 = Some (2, [60; 60], 1, 1) /\ run_counts 0 = Some (1, [60], 1, 1).
Proof. split; vm_compute; reflexivity. Qed.

(** ** What an answer can do *)

(** The best-effort match reads an action out of a text that advises against it. *)
Example action_advised_against : recommended_action (JStr "Do not stop dock, only monitor") = JStr "stop_dock".
Proof. vm_compute. reflexivity. Qed.

(** An action that is no text is not checked. *)
Example action_unchecked : recommended_action (JList [JStr "rm"]) = JList [JStr "rm"].
Proof. reflexivity. Qed.

(** An answer that cannot be read is remembered as if it had been: the next tick asks nothing, and its
    verdict is no error. *)
Example unreadable_answer_is_not_asked_again :
  let r1 := tick "vague" start in
  tick_verdicts r1 = ("error", 1%nat, true) /\ tick_verdicts (tick "watch" (snd r1)) = ("deduplicated", 2%nat, true).
Proof. split; vm_compute; reflexivity. Qed.

(** A body that is no JSON is not "unavailable": the exception leaves the tick, and ends the loop. *)
Example body_without_json :
  tick_verdicts (tick "<html>" start) = ("JSONDecodeError", O, false)
  /\ fst (run_auditor no_message canon "/p" "harbor" (reply "<html>") (reply "ok") takes noon no_stop 3 (Some 3) start)
     = Err (PyError "JSONDecodeError" "invalid JSON").
Proof. split; vm_compute; reflexivity. Qed.

(** [send] raises on a reply that is JSON but no object. *)
Example send_raises : match fst (send (reply "[]") "x" start) with Err e => exn_class e = "AttributeError" | _ => False end.
Proof. vm_compute. reflexivity. Qed.
