(* ===== verification/Client.v ===== *)
(** The two ends of the daemon's socket: a line handled ([_Handler.handle] of [daemon/server.py]) and the client of
    the command line ([cli/_daemon_client.py]). *)

From S2P Require Import Prelude PyStr PyVal Registry World Rpc Desks Storage DestroyFacts SpawnFacts Daemon DaemonInvariant.
From Stdlib Require Import List.

Section Ends.
Context `{Env}.

(** ** The daemon's end *)

Definition parse_error : json := error_response JNull (-32700) "Parse error" None.

Definition line_of (v : json) : string := json_dumps v +:+ String newline "".

Definition read_line (bytes : string) : string := match split_on newline bytes with l :: _ => l | [] => "" end.

(** What a connection that sent these bytes gets back. *)
Definition handle (cfg : settings) (bytes : string) : W string :=
  let text := strip (read_line bytes) in
  if is_empty text then mret ""
  else
    match json_loads text with
    | None => mret (line_of parse_error)
    | Some payload => fun w =>
        let '(response, w') := serve_request cfg payload w in
        (Ok (match response with Some v => line_of v | None => "" end), w')
    end.

(** ** The client's end *)

Inductive daemon_failure : Type :=
  | DaemonUnavailable (reason : string)
  | DaemonRpcError (code : Z) (message : string) (data : option obj).

Definition _default_socket_path : string :=
  match environ "DRYDOCK_DAEMON_SOCKET" with
  | Some v => if is_empty v then home // ".drydock" // "run" // "daemon.sock" else path_str v
  | None => home // ".drydock" // "run" // "daemon.sock"
  end.

(** [str(uuid.uuid4())]. *)
Definition dashed (hex : string) : string :=
  stake 8 hex +:+ "-" +:+ stake 4 (sdrop 8 hex) +:+ "-" +:+ stake 4 (sdrop 12 hex) +:+ "-" +:+ stake 4 (sdrop 16 hex)
  +:+ "-" +:+ sdrop 20 hex.

Definition request_of (id method : string) (params : obj) : json :=
  JObj [("jsonrpc", JStr "2.0"); ("id", JStr id); ("method", JStr method); ("params", JObj params)].

Definition invalid_response : daemon_failure := DaemonRpcError (-32603) "invalid_response" None.

(** [response[k]]. *)
Definition response_item (k : string) (response : json) : res exn json :=
  match response with
  | JObj o => match assoc k o with Some v => Ok v | None => key_error k end
  | v => Err (PyError "TypeError" (type_name v +:+ " indices must be integers"))
  end.

Definition rpc_failure (error : json) : res exn daemon_failure :=
  match error with
  | JObj e =>
      code ← py_int (jget_default "code" (JInt (-32603)) e);
      Ok (DaemonRpcError code (py_str (jget_default "message" (JStr "internal_error") e))
            (match jget "data" e with JObj d => Some d | _ => None end))
  | _ => Ok invalid_response
  end.

Definition read_response (response : json) : res exn (daemon_failure + obj) :=
  has_result ← py_in "result" response;
  if has_result : bool then
    result ← response_item "result" response;
    Ok (match result with JObj o => inr o | _ => inl invalid_response end)
  else
    has_error ← py_in "error" response;
    if has_error : bool then error ← response_item "error" response; f ← rpc_failure error; Ok (inl f)
    else Ok (inl invalid_response).

(** The reason of an error of [connect], [sendall] or [recv] that means there is no daemon. *)
Definition unavailable_reason (e : exn) : option string :=
  assoc (exn_class e) [("ConnectionRefusedError", "connection_refused"); ("FileNotFoundError", "socket_missing");
                       ("PermissionError", "permission_denied")].

(** A call without a token. [exchange] sends the bytes over the socket and reads until a line ends or the peer
    closes. *)
Definition call_daemon (exchange : string -> W string) (method : string) (params : obj) : W (daemon_failure + obj) :=
  found ← path_exists _default_socket_path;
  if negb found then mret (inl (DaemonUnavailable "socket_missing"))
  else
    id ← uuid4;
    answer ← catch (bytes ← exchange (line_of (request_of (dashed id) method params)); mret (inr bytes))
               (fun e => match unavailable_reason e with Some r => mret (inl r) | None => throw e end);
    match answer with
    | inl reason => mret (inl (DaemonUnavailable reason))
    | inr bytes =>
        match json_loads (strip bytes) with
        | None => throw (PyError "JSONDecodeError" "Expecting value")
        | Some response => lift (read_response response)
        end
    end.

(** The error the commands print. *)
Definition _ws_error_from_daemon_error (message : string) (data : option obj) : exn :=
  WsError message (match data with
                   | Some d => match jget "fix" d with JStr s => Some s | _ => None end
                   | None => None
                   end).
End Ends.

(** * Theorems

    The command line and the daemon together: a command gets exactly what the daemon's handler did. *)

Section Client.
Context `{Env} (cfg : settings).

(** [json.loads] reads a value back from the line that [json.dumps] makes of it. *)
Definition one_line_json (v : json) : Prop :=
  read_line (line_of v) = json_dumps v /\ strip (json_dumps v) = json_dumps v /\ strip (line_of v) = json_dumps v
  /\ json_dumps v <> "" /\ json_loads (json_dumps v) = Some v.

(** What the client makes of a handler's outcome. *)
Definition client_view (r : res exn json) : daemon_failure + obj :=
  match r with
  | Ok (JObj o) => inr o
  | Ok _ => inl invalid_response
  | Err (RpcError code message data) => inl (DaemonRpcError code message (match data with Some (JObj d) => Some d | _ => None end))
  | Err _ => inl (DaemonRpcError (-32603) "Internal error" None)
  end.

(** What the daemon answers. *)
Definition response_to (id : json) (r : res exn json) : json :=
  match r with Ok v => success_response id v | Err e => exn_response id e end.

Lemma parse_request_of id m params : m <> "" ->
  _parse_request (request_of id m params) = Ok (mkParsed m (JObj params) (JStr id) None false).
Proof. intros Hm. unfold request_of, _parse_request. cbn. destruct (is_empty m) eqn:E; [by apply is_empty_true in E|done]. Qed.

Lemma read_response_to id r : read_response (response_to id r) = Ok (client_view r).
Proof.
  destruct r as [v|e]; [by destruct v|].
  destruct e as [code message data| | | |]; try done.
  unfold response_to, exn_response, error_response, read_response. cbn.
  destruct data as [[]|]; try done; cbn; by destruct (str_of_Z code).
Qed.

Lemma serve_request_of id m spec params w :
  assoc m (_METHODS (daemon_handlers cfg)) = Some spec -> requires_auth spec = false -> m <> "" ->
  serve_request cfg (request_of id m params) w
  = (let '(r, w') := handler spec (JObj params) (JStr id) None w in (Some (response_to (JStr id) r), w')).
Proof.
  intros Hm Ha Hn. unfold serve_request, _dispatch. rewrite parse_request_of by done. cbn [p_notification p_method p_auth p_params p_id].
  rewrite Hm. unfold _resolve_caller. rewrite Ha, ret_bind. by destruct (handler spec _ _ _ w).
Qed.

(** C3: A command that goes through the daemon does what the handler does and no more: the world after the call is the
    one the handler left, and the command gets the handler's answer, or the code, message and data of the error it
    raised, or -32603 for any other exception, for every method that needs no token and whatever the parameters
    hold. *)
Theorem call_daemon_is_handler m spec params w :
  assoc m (_METHODS (daemon_handlers cfg)) = Some spec -> requires_auth spec = false -> m <> "" ->
  is_some (w_host w !! _default_socket_path) = true ->
  let id := dashed (uuid_hex (w_uuids w)) in
  let w0 := snd (uuid4 w) in
  let '(r, w') := handler spec (JObj params) (JStr id) None w0 in
  one_line_json (request_of id m params) -> one_line_json (response_to (JStr id) r) ->
  call_daemon (handle cfg) m params w = (Ok (client_view r), w').
Proof.
  intros Hm Ha Hn Hs id w0. destruct (handler spec (JObj params) (JStr id) None w0) as [r w'] eqn:Eh.
  intros (L1 & T1 & _ & N1 & J1) (_ & _ & S2 & _ & J2).
  unfold call_daemon, path_exists. rewrite gets_bind, Hs. cbn [negb].
  assert (uuid4 w = (Ok (uuid_hex (w_uuids w)), w0)) as Eu by done. rewrite (bind_ok _ _ _ _ _ Eu). cbv beta. fold id.
  assert (handle cfg (line_of (request_of id m params)) w0 = (Ok (line_of (response_to (JStr id) r)), w')) as Ehandle.
  { unfold handle. rewrite L1, T1. destruct (is_empty (json_dumps _)) eqn:E; [by apply is_empty_true in E|]. rewrite J1.
    by rewrite (serve_request_of _ _ spec), Eh. }
  match goal with |- (catch ?m ?h ≫= _) w0 = _ =>
    assert (catch m h w0 = (Ok (inr (line_of (response_to (JStr id) r))), w')) as Ec
      by (unfold catch; by rewrite (bind_ok _ _ _ _ _ Ehandle)) end.
  rewrite (bind_ok _ _ _ _ _ Ec), S2, J2. unfold lift. by rewrite read_response_to.
Qed.
End Client.

(** ** [ws destroy a --force] through the daemon *)

(** Two lines: the request and the answer. *)
Definition codec_env (request response : json) : Env := {|
  clock := @clock demo_env; clock_ok := @clock_ok demo_env; uuid_hex := @uuid_hex demo_env;
  token_bytes := @token_bytes demo_env; token_bytes_len := @token_bytes_len demo_env;
  sha256 := @sha256 demo_env; subprocess_run := @subprocess_run demo_env; run_host := @run_host demo_env;
  which := @which demo_env; env_float_repr := @env_float_repr demo_env;
  json_loads s := if s =s "Q" then Some request else if s =s "R" then Some response else None;
  json_dumps v := if py_eq v request then "Q" else if py_eq v response then "R" else "{}";
  json_dumps_indent _ := "{}"; yaml_load := @yaml_load demo_env; yaml_dump := @yaml_dump demo_env;
  fs_fault := @fs_fault demo_env; audit_fault := @audit_fault demo_env; is_root := true; secrets_root := "/root/.drydock/secrets"; home := "/root";
  environ _ := None |}.

Definition destroy_params : obj := [("name", JStr "a"); ("force", JBool true)].
Definition demo_request_id : string := dashed (uuid_hex (Env := demo_env) 0).
Definition destroy_request : json := request_of demo_request_id "DestroyDesk" destroy_params.
Definition destroyed_a : json :=
  JObj [("destroyed", JBool true); ("drydock_id", JStr "dock_a"); ("cascaded", JList [JStr "dock_b"])].
Definition destroy_response : json := success_response (JStr demo_request_id) destroyed_a.

#[local] Instance client_env : Env := codec_env destroy_request destroy_response.

Definition client_world : world :=
  set_host {["/root/.drydock/run/daemon.sock" := NFile ""]} family_world.

Definition client_cfg : settings := mkSettings FileBackend None true 1.

Abbreviation destroy_call := (call_daemon (handle client_cfg) "DestroyDesk" destroy_params client_world).

Lemma call_daemon_is_handler_witness :
  fst destroy_call = Ok (inr [("destroyed", JBool true); ("drydock_id", JStr "dock_a"); ("cascaded", JList [JStr "dock_b"])])
  /\ map (fun r => name (dr_dock r)) (drydocks (w_db (snd destroy_call))) = ["c"].
Proof.
  assert (exists w', handler (mkMethod (_destroy_desk true) false) (JObj destroy_params) (JStr demo_request_id) None
    (snd (uuid4 client_world)) = (Ok destroyed_a, w') /\ map (fun r => name (dr_dock r)) (drydocks (w_db w')) = ["c"])
    as (w' & Eh & Ed).
  { eexists. split; [vm_compute; reflexivity|]. vm_compute. reflexivity. }
  pose proof (call_daemon_is_handler client_cfg "DestroyDesk" (mkMethod (_destroy_desk true) false) destroy_params client_world
    eq_refl eq_refl ltac:(discriminate) eq_refl) as Hc. cbv zeta in Hc.
  assert (dashed (uuid_hex (w_uuids client_world)) = demo_request_id) as Ei by reflexivity. rewrite Ei, Eh in Hc.
  rewrite Hc; [split; [reflexivity|exact Ed]|..]; split_and!; vm_compute; try reflexivity; discriminate.
Defined.
