(* ===== verification/Tailnet.v ===== *)
(** [core/tailnet.py] and [cli/tailnet.py]: the admin interface of the tailnet, and the removal of device records
    that belong to no desk. The service behind the requests is a parameter. *)

From S2P Require Import Prelude PyStr PyVal Regex Registry World Overlay.
From Stdlib Require Import List.

(** [urllib.parse.quote(s, safe='')] of the bytes of [s]. *)
Definition url_safe (c : ascii) : bool := is_upper c || is_lower c || is_digit c || has_char c "_.-~".
Definition upper_hex (n : Z) : ascii := ascii_of_N (Z.to_N (if n <? 10 then 48 + n else 55 + n)).
Definition percent (c : ascii) : string :=
  String "%" (String (upper_hex (code c / 16)) (String (upper_hex (code c mod 16)) "")).
Fixpoint url_quote (s : string) : string :=
  match s with
  | EmptyString => ""
  | String c s' => (if url_safe c then String c "" else percent c) +:+ url_quote s'
  end.

Definition API_BASE : string := "https://api.tailscale.com/api/v2".

Definition hostname_char (c : ascii) : bool := is_lower c || is_digit c.
Definition DRYDOCK_HOSTNAME_PATTERN : re :=
  RSeq (RChars hostname_char) (rupto 62 (RChars (fun c => hostname_char c || Ascii.eqb c "-"))).

Definition _FIX_GENERATE_TOKEN : string :=
  "Generate a Tailscale API token at login.tailscale.com -> Settings -> Keys -> Generate API access token, then write to "
  +:+ "~/.drydock/daemon-secrets/tailscale_admin_token (0400) and the tailnet name to "
  +:+ "~/.drydock/daemon-secrets/tailscale_tailnet".

Definition ok_status (status : Z) : bool := (200 <=? status) && (status <? 300).

Section Tailnet.
Context `{Env}.

(** A request with this method, address and token: the status and the body, or an exception, [URLError] among
    them. *)
Variable urlopen : string -> string -> string -> W (Z * string).

Definition DAEMON_SECRETS_DIR : string := home // ".drydock" // "daemon-secrets".
Definition TOKEN_PATH : string := DAEMON_SECRETS_DIR // "tailscale_admin_token".
Definition TAILNET_PATH : string := DAEMON_SECRETS_DIR // "tailscale_tailnet".

Definition load_admin_credentials : W (option (string * string)) :=
  a ← path_exists TOKEN_PATH;
  b ← path_exists TAILNET_PATH;
  if negb (a && b) then mret None
  else
    token ← host_read TOKEN_PATH;
    tailnet ← host_read TAILNET_PATH;
    let token := strip token in
    let tailnet := strip tailnet in
    mret (if is_empty token || is_empty tailnet then None else Some (token, tailnet)).

Definition _request (method url api_token : string) : W (Z * string) :=
  catch (urlopen method url api_token)
    (fun e => if exn_class e =s "URLError"
              then throw (WsError ("Tailscale API request failed: " +:+ str_exn e)
                            (Some "Check network connectivity to api.tailscale.com"))
              else throw e).

(** The part of an address that a value of JSON becomes. *)
Definition url_part (v : json) : res exn string :=
  match v with JStr s => Ok (url_quote s) | _ => Err (PyError "TypeError" "quote_from_bytes() expected bytes") end.

Definition delete_tailnet_device (device_id : json) (api_token : string) : W unit :=
  part ← lift (url_part device_id);
  '(status, _) ← _request "DELETE" (API_BASE +:+ "/device/" +:+ part) api_token;
  if ok_status status || (status =? 404) then mret tt
  else if (status =? 401) || (status =? 403) then
    throw (WsError ("Tailscale API rejected DELETE for device " +:+ py_str device_id +:+ " (HTTP " +:+ str_of_Z status +:+ ")")
             (Some ("The admin token is missing, expired, or lacks `devices` scope. " +:+ _FIX_GENERATE_TOKEN)))
  else
    throw (WsError ("Tailscale API DELETE failed for device " +:+ py_str device_id +:+ ": HTTP " +:+ str_of_Z status)
             (Some "Inspect the response; retry or delete the device via the Tailscale admin UI")).

Definition find_devices (tailnet api_token : string) : W json :=
  '(status, body) ← _request "GET" (API_BASE +:+ "/tailnet/" +:+ url_quote tailnet +:+ "/devices") api_token;
  if negb (ok_status status) then
    throw (WsError ("Tailscale API GET devices failed: HTTP " +:+ str_of_Z status)
             (Some ("Verify the tailnet name and that the token has `devices` scope. " +:+ _FIX_GENERATE_TOKEN)))
  else
    match json_loads body with
    | None => throw (WsError "Tailscale API returned non-JSON response"
                       (Some "Retry; if persistent, check api.tailscale.com status"))
    | Some (JObj o) => mret (jget_default "devices" (JList []) o)
    | Some v => lift (attr_error v "get")
    end.

(** [dev.get(key, default)]. *)
Definition device_get (key : string) (d dev : json) : res exn json :=
  match dev with JObj o => Ok (jget_default key d o) | v => attr_error v "get" end.

Fixpoint find_device_by_hostname (hostname : json) (devices : list json) : res exn (option json) :=
  match devices with
  | [] => Ok None
  | dev :: rest =>
      h ← device_get "hostname" JNull dev;
      if py_eq h hostname then Ok (Some dev) else find_device_by_hostname hostname rest
  end.

(** ** [ws tailnet prune] *)

(** The configured hostname of a desk, if it is set. *)
Definition configured_hostname (ws : Drydock) : res exn (list json) :=
  match config ws with
  | JObj o => let ts := jget "tailscale_hostname" o in Ok (if truthy ts then [ts] else [])
  | v => attr_error v "get"
  end.

(** The elements of the set, which must be hashable. *)
Definition _live_hostnames (d : db) : res exn (list json) :=
  per_desk ← mapE (fun ws => ts ← configured_hostname ws;
                             if existsb is_container ts then Err (PyError "TypeError" "unhashable type")
                             else Ok ([JStr (id ws); JStr (name ws)] ++ ts)) (list_drydocks None None d);
  Ok (concat per_desk).

Record candidate : Type := mkCandidate { cd_device_id : json; cd_hostname : string; cd_last_seen : json }.

Fixpoint _classify_candidates (devices : list json) (live : list json) : res exn (list candidate) :=
  match devices with
  | [] => Ok []
  | dev :: rest =>
      hostname ← device_get "hostname" (JStr "") dev;
      if is_container hostname then Err (PyError "TypeError" "unhashable type")
      else if py_mem hostname live then _classify_candidates rest live
      else
        match hostname with
        | JStr h =>
            if negb (re_match DRYDOCK_HOSTNAME_PATTERN h) then _classify_candidates rest live
            else
              device_id ← device_get "id" (JStr "") dev;
              last_seen ← device_get "lastSeen" (JStr "") dev;
              cs ← _classify_candidates rest live;
              Ok (mkCandidate device_id h last_seen :: cs)
        | _ => Err (PyError "TypeError" "expected string or bytes-like object")
        end
  end.

Definition candidate_json (c : candidate) : json :=
  JObj [("device_id", cd_device_id c); ("hostname", JStr (cd_hostname c)); ("last_seen", cd_last_seen c);
        ("reason", JStr "no_matching_desk")].

(** One candidate: it is deleted, or the error is noted. *)
Definition prune_one (token : string) (c : candidate) : W (json + json) :=
  let about := [("hostname", JStr (cd_hostname c)); ("device_id", cd_device_id c)] in
  catch (_ ← delete_tailnet_device (cd_device_id c) token;
         _ ← audit_log_event "tailnet.device_deleted" "" about;
         mret (inl (cd_device_id c)))
    (fun e => match e with
              | WsError message _ =>
                  _ ← audit_log_event "tailnet.device_delete_failed" "" (about ++ [("error", JStr message)]);
                  mret (inr (JObj [("device_id", cd_device_id c); ("hostname", JStr (cd_hostname c)); ("error", JStr message)]))
              | e => throw e
              end).

Definition deleted_of (l : list (json + json)) : list json := flat_map (fun x => match x with inl v => [v] | inr _ => [] end) l.
Definition errors_of (l : list (json + json)) : list json := flat_map (fun x => match x with inl _ => [] | inr v => [v] end) l.

Definition prune (apply : bool) : W obj :=
  creds ← load_admin_credentials;
  match creds with
  | None => throw (WsError "No tailscale admin credentials configured" (Some _FIX_GENERATE_TOKEN))
  | Some (token, tnet) =>
      devices ← find_devices tnet token;
      live ← reg_query _live_hostnames;
      devices ← lift (as_list devices);
      candidates ← lift (_classify_candidates devices live);
      results ← (if apply then mapM (prune_one token) candidates else mret []);
      mret [("dry_run", JBool (negb apply)); ("tailnet", JStr tnet); ("candidates", JList (map candidate_json candidates));
            ("deleted", JList (deleted_of results)); ("errors", JList (errors_of results))]
  end.

(** ** The record of a desk that is destroyed ([cli/destroy.py]) *)

Definition device_event (event : string) (ws : Drydock) (more : obj) : W unit := audit_log_event event (id ws) more.

Definition _delete_tailnet_device_best_effort (ws : Drydock) : W unit :=
  creds ← load_admin_credentials;
  match creds with
  | None => mret tt
  | Some (token, tnet) =>
      cfg ← lift (match config ws with JObj o => Ok o | v => attr_error v "get" end);
      let hostname := py_or (jget "tailscale_hostname" cfg) (JStr (id ws)) in
      catch (devices ← find_devices tnet token;
             devices ← lift (as_list devices);
             device ← lift (find_device_by_hostname hostname devices);
             match device with
             | None => mret tt
             | Some dev =>
                 device_id ← lift (device_get "id" (JStr "") dev);
                 _ ← delete_tailnet_device device_id token;
                 device_event "tailnet.device_deleted" ws [("hostname", hostname); ("device_id", device_id)]
             end)
        (fun e => device_event "tailnet.device_delete_failed" ws [("hostname", hostname); ("error", JStr (str_exn e))])
  end.
End Tailnet.

(** * Theorems

    Tailnet: which device records [ws tailnet prune] takes for orphans, and which desks it does not know. *)

(** ** Candidates *)

Definition hostname_of (dev : json) : option string :=
  match dev with JObj o => match jget_default "hostname" (JStr "") o with JStr h => Some h | _ => None end | _ => None end.

(** The command knows a desk by its id, its name and the hostname that is configured for it, if one is. *)
Definition knows (h : string) (ws : Drydock) : bool :=
  (id ws =s h) || (name ws =s h)
  || match config ws with
     | JObj o => match jget "tailscale_hostname" o with JStr t => negb (is_empty t) && (t =s h) | _ => false end
     | _ => false
     end.

(** A record with a hostname that could be a desk's, by which it knows no desk of the registry. *)
Definition orphan (d : db) (dev : json) : bool :=
  match hostname_of dev with
  | Some h => re_match DRYDOCK_HOSTNAME_PATTERN h && negb (existsb (knows h) (list_drydocks None None d))
  | None => false
  end.

Definition field (key : string) (dev : json) : json := match dev with JObj o => jget_default key (JStr "") o | _ => JNull end.
Definition candidate_of (dev : json) : candidate :=
  mkCandidate (field "id" dev) (default "" (hostname_of dev)) (field "lastSeen" dev).

Lemma py_mem_app h l k : py_mem h (l ++ k) = py_mem h l || py_mem h k.
Proof. apply existsb_app. Qed.

Lemma live_knows d live h : _live_hostnames d = Ok live -> py_mem (JStr h) live = existsb (knows h) (list_drydocks None None d).
Proof.
  unfold _live_hostnames. intros (per & Hp & [= <-])%res_bind_ok.
  revert per Hp. induction (list_drydocks None None d) as [|ws l IH]; intros per Hp; cbn [mapE] in Hp; [by injection Hp as <-|].
  apply res_bind_ok in Hp as (names & Hn & (rest & Hr & [= <-])%res_bind_ok). cbn [concat existsb].
  rewrite py_mem_app, (IH _ Hr). f_equal. clear IH Hr.
  apply res_bind_ok in Hn as (ts & Ht & Hn). destruct (existsb _ ts); [discriminate|]. injection Hn as <-.
  unfold knows, configured_hostname in *. destruct (config ws) as [| | | | | |o]; try discriminate. injection Ht as <-.
  destruct (jget "tailscale_hostname" o) as [|b|z|f|t|l'|o']; unfold py_mem; cbn [existsb];
    try (destruct (truthy _); cbn; by rewrite ?orb_false_r, ?orb_assoc).
  destruct t; cbn; by rewrite ?orb_false_r, ?orb_assoc.
Qed.

(** The candidates are exactly the orphans' records, one for each, in the order of the service. *)
Lemma classify_orphans d live devices cs : _live_hostnames d = Ok live -> _classify_candidates devices live = Ok cs ->
  cs = map candidate_of (List.filter (orphan d) devices).
Proof.
  intros Hl. revert cs. induction devices as [|dev devices IH]; intros cs Hc; cbn [_classify_candidates] in Hc; [by injection Hc as <-|].
  apply res_bind_ok in Hc as (hj & Eh & Hc). destruct (is_container hj) eqn:Ek; [discriminate|].
  destruct dev as [| | | | | |o]; try discriminate. injection Eh as Eh. cbn [List.filter]. unfold orphan at 1. cbn [hostname_of]. rewrite Eh.
  destruct hj as [| | | |h| |]; try (destruct (py_mem _ live); [by apply IH|discriminate]).
  rewrite (live_knows d live h Hl) in Hc. destruct (existsb (knows h) _); cbn [negb]; [rewrite andb_false_r; by apply IH|].
  rewrite andb_true_r. destruct (re_match _ h); cbn [negb] in Hc; [|by apply IH].
  apply res_bind_ok in Hc as (i & [= <-] & (ls & [= <-] & (cs' & Hcs & [= <-])%res_bind_ok)%res_bind_ok).
  cbn [map]. rewrite <- (IH _ Hcs). unfold candidate_of. cbn [hostname_of field]. by rewrite Eh.
Qed.

(** ** Deletions *)

Section Prune.
Context `{Env} (urlopen : string -> string -> string -> W (Z * string)).

(** Each candidate in turn: its device was deleted, that is, the service answered so, or had none, or the error was noted. *)
Inductive deletes (token : string) : list candidate -> world -> list (json + json) -> world -> Prop :=
  | deletes_nil w : deletes token [] w [] w
  | deletes_gone c cs rs part status body w w1 w2 w3 :
      url_part (cd_device_id c) = Ok part ->
      urlopen "DELETE" (API_BASE +:+ "/device/" +:+ part) token w = (Ok (status, body), w1) ->
      200 <= status < 300 \/ status = 404 ->
      audit_log_event "tailnet.device_deleted" "" [("hostname", JStr (cd_hostname c)); ("device_id", cd_device_id c)] w1 = (Ok tt, w2) ->
      deletes token cs w2 rs w3 -> deletes token (c :: cs) w (inl (cd_device_id c) :: rs) w3
  | deletes_failed c cs rs m f w w1 w2 w3 :
      delete_tailnet_device urlopen (cd_device_id c) token w = (Err (WsError m f), w1)
      \/ (exists w0, delete_tailnet_device urlopen (cd_device_id c) token w = (Ok tt, w0)
            /\ audit_log_event "tailnet.device_deleted" "" [("hostname", JStr (cd_hostname c)); ("device_id", cd_device_id c)] w0
               = (Err (WsError m f), w1)) ->
      audit_log_event "tailnet.device_delete_failed" ""
        [("hostname", JStr (cd_hostname c)); ("device_id", cd_device_id c); ("error", JStr m)] w1 = (Ok tt, w2) ->
      deletes token cs w2 rs w3 ->
      deletes token (c :: cs) w
        (inr (JObj [("device_id", cd_device_id c); ("hostname", JStr (cd_hostname c)); ("error", JStr m)]) :: rs) w3.

Lemma delete_ok id token w u w' : delete_tailnet_device urlopen id token w = (Ok u, w') ->
  exists part status body, url_part id = Ok part
    /\ urlopen "DELETE" (API_BASE +:+ "/device/" +:+ part) token w = (Ok (status, body), w')
    /\ (200 <= status < 300 \/ status = 404).
Proof.
  unfold delete_tailnet_device. rewrite lift_bind. destruct (url_part id) as [part|]; [|discriminate]. intros E.
  apply bind_inv in E as [([status body] & w1 & Er & E)|(e & _ & [=])]. exists part, status, body. split; [done|].
  assert (urlopen "DELETE" (API_BASE +:+ "/device/" +:+ part) token w = (Ok (status, body), w1)) as Eu.
  { unfold _request, catch in Er. destruct (urlopen _ _ _ w) as [[a|e] wx]; [exact Er|]. by destruct (exn_class e =s "URLError"). }
  destruct (ok_status status || (status =? 404)) eqn:Es.
  - injection E as _ <-. split; [done|]. unfold ok_status in Es. breflect. lia.
  - by destruct ((status =? 401) || (status =? 403)).
Qed.

Lemma prune_deletes token cs w rs w' : mapM (prune_one urlopen token) cs w = (Ok rs, w') -> deletes token cs w rs w'.
Proof.
  revert w rs. induction cs as [|c cs IH]; intros w rs E; cbn [mapM] in E; [injection E as <- <-; constructor|].
  apply bind_inv in E as [(r & w2 & E1 & E)|(e & _ & [=])]. apply bind_inv in E as [(rs' & w3 & E2 & E)|(e & _ & [=])].
  injection E as <- <-. apply IH in E2. unfold prune_one, catch in E1.
  match type of E1 with (match ?m with _ => _ end) = _ => destruct m as [[a|e] w1] eqn:Em end.
  - injection E1 as <- <-. apply bind_inv in Em as [([] & w0 & Ed & Em)|(e & _ & [=])].
    apply bind_inv in Em as [([] & wa & Ea & Em)|(e & _ & [=])]. injection Em as <- <-.
    apply delete_ok in Ed as (part & status & body & Hp & Hu & Hs). by eapply deletes_gone.
  - destruct e as [m f| | | |]; try discriminate. apply bind_inv in E1 as [([] & wa & Ea & E1)|(e & _ & [=])]. injection E1 as <- <-.
    eapply deletes_failed; [|exact Ea|exact E2]. apply bind_inv in Em as [([] & w0 & Ed & Em)|(e & Ed & [= <-])]; [|by left].
    right. exists w0. split; [done|]. by apply bind_inv in Em as [(u & wb & _ & [=])|(e & Ea' & [= <-])].
Qed.

(** C31: The records that [ws tailnet prune] takes for orphans, when it ends without an error, are exactly those of the service's answer
    whose hostname has the shape of a desk's and is neither the id, nor the name, nor the configured hostname of a desk in the
    registry, each with its own device id, in the order of the answer and as often as it has them. With
    [--apply] it asks the service to delete exactly these devices, one after the other, and reports as deleted those for
    which the service answers with success or that it has none, and the others with their error; without it, nothing is
    asked for but the list, and nothing reported as deleted. (The registry does not hold the name that a desk without a
    configured hostname has by default: a record under this name is among the orphans although its desk may be
    running, see [live_desk_is_pruned], while the command's documentation speaks of confirmed orphans.) *)
Theorem prune_takes_unknown_hostnames apply w o w' : prune urlopen apply w = (Ok o, w') ->
  exists token tnet answer devices w0 w1 results,
    load_admin_credentials w = (Ok (Some (token, tnet)), w0)
    /\ find_devices urlopen tnet token w0 = (Ok answer, w1) /\ as_list answer = Ok devices
    /\ let orphans := map candidate_of (List.filter (orphan (w_db w1)) devices) in
       jget "candidates" o = JList (map candidate_json orphans)
       /\ jget "deleted" o = JList (deleted_of results) /\ jget "errors" o = JList (errors_of results)
       /\ if apply then deletes token orphans w1 results w' else w' = w1 /\ results = [].
Proof.
  unfold prune. intros E. apply bind_inv in E as [(creds & w0 & Ec & E)|(e & _ & [=])].
  destruct creds as [[token tnet]|]; [|discriminate]. apply bind_inv in E as [(devs & w1 & Ed & E)|(e & _ & [=])].
  rewrite reg_query_bind in E. destruct (_live_hostnames (w_db w1)) as [live|] eqn:El; [|discriminate].
  rewrite lift_bind in E. destruct (as_list devs) as [devices|] eqn:Ea; [|discriminate].
  rewrite lift_bind in E. destruct (_classify_candidates devices live) as [cs|] eqn:Ek; [|discriminate].
  apply (classify_orphans _ _ _ _ El) in Ek as ->.
  apply bind_inv in E as [(results & w2 & Er & E)|(e & _ & [=])]. injection E as <- <-.
  exists token, tnet, devs, devices, w0, w1, results. split; [exact Ec|].
  split; [exact Ed|]. split; [exact Ea|]. split_and!; try reflexivity. destruct apply; [by apply prune_deletes|]. by injection Er as <- <-.
Qed.
End Prune.

(** ** A desk under its default name *)

(** SHA-256 in hexadecimal digits. *)
#[local] Instance tail_env : Env := {|
  clock := @clock demo_env; clock_ok := @clock_ok demo_env; uuid_hex := @uuid_hex demo_env;
  token_bytes := @token_bytes demo_env; token_bytes_len := @token_bytes_len demo_env;
  sha256 _ := "3fa9c1d2e47b"; subprocess_run := @subprocess_run demo_env; run_host := @run_host demo_env;
  which := @which demo_env; env_float_repr := @env_float_repr demo_env;
  json_loads _ := Some (JObj [("devices", JList [JObj [("id", JStr "n1"); ("hostname", JStr "web-3fa9c1")];
                                                JObj [("id", JStr "n2"); ("hostname", JStr "api")];
                                                JObj [("id", JStr "n3"); ("hostname", JStr "My Laptop")]])]);
  json_dumps := @json_dumps demo_env; json_dumps_indent := @json_dumps_indent demo_env;
  yaml_load := @yaml_load demo_env; yaml_dump := @yaml_dump demo_env;
  fs_fault := @fs_fault demo_env; audit_fault := @audit_fault demo_env; is_root := true; secrets_root := "/root/.drydock/secrets"; home := "/root";
  environ _ := None |}.

Definition tail_desk (n : string) (cfg : obj) : dock_row :=
  new_dock_row (mkDrydock n "p" "/r" ("dock_" +:+ n) "" "main" "HEAD" "running" "c" "" "" "" "t" "t" (JObj cfg) "" None (JObj [])).

Definition web : Drydock := dr_dock (tail_desk "web" []).

Definition tail_world : world :=
  set_host {["/root/.drydock/daemon-secrets/tailscale_admin_token" := NFile "tok";
             "/root/.drydock/daemon-secrets/tailscale_tailnet" := NFile "example.com"]}
    (set_db (set_drydocks [tail_desk "web" []; tail_desk "db" [("tailscale_hostname", JStr "api")]] empty_db) empty_world).

Definition tail_api (method url token : string) : W (Z * string) := mret (200, "").

(** The container of [web] joins the tailnet as "web-3fa9c1", the name its overlay gives it; the command that
    removes orphans knows only "dock_web" and "web", so it deletes the record of the running desk. *)
Example live_desk_is_pruned :
  (env ← _build_container_env web default_config; Ok (jget "TAILSCALE_HOSTNAME" env)) = Ok (JStr "web-3fa9c1")
  /\ (out ← fst (prune tail_api true tail_world); Ok (jget "deleted" out)) = Ok (JList [JStr "n1"]).
Proof. split; vm_compute; reflexivity. Qed.

(** The record of a destroyed desk is looked for under its id, which no container has as its name. *)
Example destroyed_desk_keeps_record :
  fst (_delete_tailnet_device_best_effort tail_api web tail_world) = Ok tt
  /\ w_audit (snd (_delete_tailnet_device_best_effort tail_api web tail_world)) = [].
Proof. split; vm_compute; reflexivity. Qed.

(** Two records of one orphan: both are deleted. *)
Lemma prune_takes_unknown_hostnames_witness : exists o w', prune tail_api true tail_world = (Ok o, w')
  /\ exists token w1 results, deletes tail_api token [mkCandidate (JStr "n1") "web-3fa9c1" (JStr "")] w1 results w'
  /\ jget "deleted" o = JList (deleted_of results).
Proof.
  assert (is_ok (fst (prune tail_api true tail_world)) = true) as Hok by (vm_compute; reflexivity).
  destruct (prune tail_api true tail_world) as [[o|e] w'] eqn:E; [|discriminate Hok]. exists o, w'. split; [reflexivity|].
  destruct (prune_takes_unknown_hostnames tail_api true tail_world o w' E) as (token & tnet & answer & devices & w0 & w1 & results & Ec & Ed & Ea & _ & Hd & _ & Hx).
  exists token, w1, results. split; [|exact Hd].
  vm_compute in Ec. injection Ec as <- <- <-. vm_compute in Ed. injection Ed as <- <-. injection Ea as <-. exact Hx.
Defined.
