(* ===== verification/CliDesk.v ===== *)
(** The commands on desks: [cli/create.py], [cli/destroy.py], [cli/stop.py], [cli/overlay.py], [cli/project.py]. They go
    through the daemon when there is one and do the work themselves when there is none. A command's result is
    the payload it prints; an error it prints and exits with is a [WsError]. *)

From S2P Require Import Prelude PyStr PyVal Datetime Registry World Rpc Proxy Overlay Container ProjectConfig DeskSpec Desks Deskwatch Client Tailnet.
From Stdlib Require Import List.

Section Cli.
Context `{Env}.
(** The socket of the daemon, and the tailnet's admin service. *)
Variables (exchange : string -> W string) (urlopen : string -> string -> string -> W (Z * string)).

Definition missing_desk {A} (n fix_hint : string) : W A := throw (WsError ("Drydock '" +:+ n +:+ "' not found") (Some fix_hint)).

Definition desk_or (n fix_hint : string) : W Drydock :=
  ws ← reg_get (get_drydock n);
  match ws with Some ws => mret ws | None => missing_desk n fix_hint end.

Definition LIST_FIX : string := "Run 'ws list' to see available drydocks".

(** [except Exception]: a step that only warns when it fails. *)
Definition best_effort (m : W unit) : W unit := catch m (fun _ => mret tt).

(** ** Stop *)

Definition cli_stop (dry_run : bool) (n : string) : W json :=
  ws ← desk_or n LIST_FIX;
  if negb (state ws =s "running") then
    throw (WsError ("Drydock '" +:+ n +:+ "' is in state '" +:+ state ws +:+ "', cannot stop")
             (Some "Only running drydocks can be stopped"))
  else if dry_run then mret (JObj [("dry_run", JBool true); ("action", JStr "stop"); ("drydock", to_dict ws)])
  else
    _ ← tailnet_logout false (container_id ws);
    _ ← catch (_ ← stop false (container_id ws); Container.remove false (container_id ws))
          (fun e => match e with WsError _ _ => _ ← touch_state n "error"; throw e | e => throw e end);
    o ← touch_state n "suspended";
    ws ← row_of o;
    _ ← audit_log_event "drydock.stopped" (id ws) [];
    mret (to_dict ws).

(** ** Destroy *)

Definition destroyed (n : string) : json := JObj [("destroyed", JStr n)].

Definition container_gone (ws : Drydock) : W unit :=
  if is_empty (container_id ws) then mret tt
  else
    _ ← (if state ws =s "running" then
           _ ← best_effort (tailnet_logout false (container_id ws)); best_effort (stop false (container_id ws))
         else mret tt);
    best_effort (Container.remove false (container_id ws)).

Definition checkout_gone (ws : Drydock) : W unit :=
  if is_empty (worktree_path ws) then mret tt
  else
    found ← path_exists (path_str (worktree_path ws));
    if found : bool then best_effort (remove_checkout (repo_path ws) (worktree_path ws)) else mret tt.

Definition overlay_gone (ws : Drydock) : W unit :=
  cfg ← lift (match config ws with JObj o => Ok o | v => attr_error v "get" end);
  let overlay_path := jget "overlay_path" cfg in
  if negb (truthy overlay_path) then mret tt
  else
    match overlay_path with
    | JStr p => found ← path_exists (path_str p); if found : bool then best_effort (remove_overlay p) else mret tt
    | v => lift (Err (PyError "TypeError" ("argument should be a str or an os.PathLike object, not '" +:+ type_name v +:+ "'")))
    end.

(** Without a daemon: the container, the checkout, the overlay and the row go; leases, tokens and children are not
    looked at. *)
Definition destroy_direct (n : string) : W json :=
  ws ← desk_or n LIST_FIX;
  _ ← container_gone ws;
  _ ← checkout_gone ws;
  _ ← overlay_gone ws;
  _ ← audit_log_event "drydock.destroyed" (id ws) [];
  _ ← delete_desk_row n;
  _ ← _delete_tailnet_device_best_effort urlopen ws;
  mret (destroyed n).

Definition cli_destroy (dry_run force : bool) (n : string) : W json :=
  if dry_run then
    ws ← desk_or n LIST_FIX;
    mret (JObj [("dry_run", JBool true); ("action", JStr "destroy"); ("drydock", to_dict ws)])
  else if negb force then
    throw (WsError ("Refusing to destroy '" +:+ n +:+ "' without --force") (Some ("Run: ws destroy " +:+ n +:+ " --force")))
  else
    r ← call_daemon exchange "DestroyDesk" [("name", JStr n); ("force", JBool force)];
    match r with
    | inr _ => mret (destroyed n)
    | inl (DaemonRpcError _ message data) => throw (_ws_error_from_daemon_error message data)
    | inl (DaemonUnavailable _) => destroy_direct n
    end.

(** ** Overlay and project reload *)

Definition overlay_regenerate (n : string) : W json :=
  ws ← desk_or n "Check `ws list` for the name";
  path ← regenerate_overlay_from_drydock ws None;
  mret (JObj [("name", JStr n); ("overlay_path", JStr path); ("applied", JBool false)]).

(** The fields of the project that are copied into the stored configuration. *)
Definition _CONFIG_FIELDS_FROM_YAML (p : ProjectConfig) : obj :=
  [("tailscale_hostname", pc_tailscale_hostname p); ("tailscale_serve_port", pc_tailscale_serve_port p);
   ("tailscale_authkey_env_var", pc_tailscale_authkey_env_var p); ("remote_control_name", pc_remote_control_name p);
   ("firewall_extra_domains", pc_firewall_extra_domains p); ("firewall_ipv6_hosts", pc_firewall_ipv6_hosts p);
   ("firewall_aws_ip_ranges", pc_firewall_aws_ip_ranges p); ("forward_ports", pc_forward_ports p);
   ("claude_profile", pc_claude_profile p); ("extra_mounts", pc_extra_mounts p); ("extra_env", pc_extra_env p);
   ("workspace_subdir", pc_workspace_subdir p); ("devcontainer_subpath", pc_devcontainer_subpath p);
   ("storage_mounts", pc_storage_mounts p); ("deskwatch", pc_deskwatch p); ("egress_proxy", JStr (pc_egress_proxy p))].

Definition reloaded_config (current : obj) (p : ProjectConfig) : obj :=
  jmerge current (List.filter (fun kv => negb (is_null (snd kv))) (_CONFIG_FIELDS_FROM_YAML p)).

(** [if proj.k: kwargs[k] = list(proj.k)]. *)
Definition delegation (v : json) : res exn (option json) :=
  if truthy v then l ← as_list v; Ok (Some (JList l)) else Ok None.

Definition reload_delegations (n : string) (p : ProjectConfig) : W unit :=
  cp ← lift (delegation (pc_capabilities p));
  sc ← lift (delegation (pc_delegatable_secrets p));
  fw ← lift (delegation (pc_delegatable_firewall_domains p));
  ss ← lift (delegation (pc_delegatable_storage_scopes p));
  ps ← lift (delegation (pc_delegatable_provision_scopes p));
  now ← _utc_now;
  reg (update_desk_delegations now n fw sc cp ss ps None None None).

Definition project_reload (n : string) (no_regenerate : bool) : W json :=
  ws ← desk_or n "Check `ws list` for the name";
  proj ← load_project_config (project ws);
  match proj with
  | None =>
      throw (WsError ("Project YAML for '" +:+ project ws +:+ "' not found at ~/.drydock/projects/" +:+ project ws +:+ ".yaml")
               (Some ("Create ~/.drydock/projects/" +:+ project ws +:+ ".yaml before reloading")))
  | Some p =>
      _ ← touch_drydock n [F_config (JObj (reloaded_config (stored_config ws) p))];
      _ ← reload_delegations n p;
      new_sha ← compute_project_yaml_sha (project ws);
      _ ← (if is_empty new_sha then mret tt else _ ← touch_drydock n [F_pinned_yaml_sha256 new_sha]; mret tt);
      _ ← (if pc_egress_proxy p =s "enabled" then
             reach ← lift (as_list (pc_delegatable_network_reach p));
             _ ← write_smokescreen_acl (id ws) reach proxy_root_from_home; mret tt
           else mret tt);
      path ← (if no_regenerate then mret None
              else refreshed ← reg_get (get_drydock n);
                   match refreshed with
                   | Some r => path ← regenerate_overlay_from_drydock r None; mret (Some path)
                   | None => lift (attr_error JNull "config")
                   end);
      mret (JObj ([("name", JStr n); ("project", JStr (project ws)); ("registry_updated", JBool true);
                   ("overlay_regenerated", JBool (is_some path))]
                  ++ match path with Some p => [("overlay_path", JStr p)] | None => [] end))
  end.

(** ** Create *)

Record create_args : Type := mkCreate {
  ca_project : string; ca_name : string; ca_base_ref : string; ca_branch : string; ca_repo_path : option string;
  ca_image : option string; ca_subpath : option string; ca_owner : option string; ca_force : bool
}.

(** [name] and [branch] have their defaults. *)
Definition create_args_of (prj : string) (nm base_ref branch_ repo image subpath owner : option string) (force : bool)
    : create_args :=
  let n := default prj nm in
  mkCreate prj n (default "HEAD" base_ref) (default ("ws/" +:+ n) branch_) repo image subpath owner force.

(** [if value is not None], [if value]: which fields are sent. *)
Definition set_field_if (keep : json -> bool) (k : string) (v : json) : obj := if keep v then [(k, v)] else [].
Definition given := set_field_if (fun v => negb (is_null v)).
Definition nonempty := set_field_if truthy.

Definition _daemon_overlay_params (proj_cfg : option ProjectConfig) : obj :=
  match proj_cfg with
  | None => []
  | Some p =>
      given "tailscale_hostname" (pc_tailscale_hostname p) ++ given "tailscale_serve_port" (pc_tailscale_serve_port p)
      ++ given "tailscale_authkey_env_var" (pc_tailscale_authkey_env_var p) ++ given "remote_control_name" (pc_remote_control_name p)
      ++ nonempty "firewall_extra_domains" (pc_firewall_extra_domains p) ++ nonempty "firewall_ipv6_hosts" (pc_firewall_ipv6_hosts p)
      ++ nonempty "firewall_aws_ip_ranges" (pc_firewall_aws_ip_ranges p) ++ nonempty "forward_ports" (pc_forward_ports p)
      ++ given "claude_profile" (pc_claude_profile p) ++ nonempty "capabilities" (pc_capabilities p)
      ++ nonempty "secret_entitlements" (pc_secret_entitlements p) ++ nonempty "delegatable_secrets" (pc_delegatable_secrets p)
      ++ nonempty "delegatable_firewall_domains" (pc_delegatable_firewall_domains p)
      ++ nonempty "delegatable_storage_scopes" (pc_delegatable_storage_scopes p)
      ++ nonempty "delegatable_provision_scopes" (pc_delegatable_provision_scopes p)
      ++ nonempty "delegatable_network_reach" (pc_delegatable_network_reach p) ++ nonempty "network_reach_ports" (pc_network_reach_ports p)
      ++ nonempty "resources_hard" (pc_resources_hard p) ++ nonempty "yard" (pc_yard p) ++ nonempty "extra_env" (pc_extra_env p)
      ++ nonempty "storage_mounts" (pc_storage_mounts p)
      ++ (if pc_egress_proxy p =s "enabled" then [("egress_proxy", JStr "enabled")] else [])
      ++ (if negb (is_empty (pc_role p)) && negb (pc_role p =s "worker") then [("role", JStr (pc_role p))] else [])
  end.

(** [proj_cfg.k if proj_cfg and proj_cfg.k else d]. *)
Definition from_project (f : ProjectConfig -> json) (proj_cfg : option ProjectConfig) (d : json) : json :=
  match proj_cfg with Some p => py_or (f p) d | None => d end.

(** [Path(v)]. *)
Definition as_path (v : json) : res exn string :=
  match v with
  | JStr s => Ok s
  | v => Err (PyError "TypeError" ("argument should be a str or an os.PathLike object, not '" +:+ type_name v +:+ "'"))
  end.

Definition _validate_devcontainer_subpath (subpath : json) : res exn unit :=
  s ← as_path subpath;
  if is_absolute s || existsb (String.eqb "..") (path_parts s)
  then Err (WsError "devcontainer_subpath must be relative and contain no .."
              (Some "Pass a relative path like '.devcontainer' or '.devcontainer/drydock'."))
  else Ok tt.

(** What the command line and the project give together. *)
Record plan : Type := mkPlan { pl_repo : json; pl_image : json; pl_subdir : json; pl_devcontainer : json }.

Definition opt_value (o : option string) (d : json) : json := match o with Some s => JStr s | None => d end.

Definition plan_of (a : create_args) (proj_cfg : option ProjectConfig) : plan :=
  mkPlan (opt_value (ca_repo_path a) (from_project pc_repo_path proj_cfg (JStr ("/srv/code/" +:+ ca_project a))))
    (opt_value (ca_image a) (from_project pc_image proj_cfg (JStr "")))
    (from_project pc_workspace_subdir proj_cfg (JStr ""))
    (opt_value (ca_subpath a)
       (match proj_cfg with
        | Some p => if is_null (pc_devcontainer_subpath p) then JStr DEFAULT_DEVCONTAINER_SUBPATH else pc_devcontainer_subpath p
        | None => JStr DEFAULT_DEVCONTAINER_SUBPATH
        end)).

(** The refusals for a desk that is there. *)
Definition refuse_existing (a : create_args) (ws : Drydock) : W unit :=
  if (state ws =s "running") && negb (ca_force a) then
    throw (WsError ("Drydock '" +:+ ca_name a +:+ "' is already running") (Some ("ws create " +:+ ca_name a +:+ " --force")))
  else if (state ws =s "error") && negb (ca_force a) then
    throw (WsError ("Drydock '" +:+ ca_name a +:+ "' is in state 'error'")
             (Some ("Rebuild from clean state: ws create " +:+ ca_project a +:+ " " +:+ ca_name a +:+ " --force")))
  else if state ws =s "provisioning" then
    throw (WsError ("Drydock '" +:+ ca_name a +:+ "' is currently provisioning")
             (Some ("Wait for the in-flight operation, or investigate: ws inspect " +:+ ca_name a)))
  else mret tt.

Definition resumable_state (ws : Drydock) : bool := (state ws =s "suspended") || (state ws =s "defined").

(** [Drydock(...)]: its columns are texts; a value of the project's file that is none raises here, where the code
    raises when it first uses it as one. *)
Definition new_drydock (a : create_args) (p : plan) : W Drydock :=
  repo ← lift (as_path (pl_repo p));
  image ← lift (as_path (pl_image p));
  subdir ← lift (as_path (pl_subdir p));
  now ← _utc_now;
  mret (post_init now (mkDrydock (ca_name a) (ca_project a) repo "" "" (ca_branch a) (ca_base_ref a) "defined" "" subdir image
                         (default "" (ca_owner a)) "" "" (JObj []) "" None (JObj []))).

Definition create_preview (a : create_args) (p : plan) : W json :=
  existing ← reg_get (get_drydock (ca_name a));
  _ ← (match existing with Some ws => refuse_existing a ws | None => mret tt end);
  match (match existing with Some ws => if resumable_state ws then Some ws else None | None => None end) with
  | Some ws => mret (JObj [("dry_run", JBool true); ("action", JStr "resume"); ("drydock", to_dict ws)])
  | None => ws ← new_drydock a p; mret (JObj [("dry_run", JBool true); ("drydock", to_dict ws)])
  end.

Definition daemon_params (a : create_args) (p : plan) (proj_cfg : option ProjectConfig) : obj :=
  let base := [("project", JStr (ca_project a)); ("name", JStr (ca_name a)); ("base_ref", JStr (ca_base_ref a));
               ("branch", JStr (ca_branch a)); ("repo_path", pl_repo p); ("image", pl_image p);
               ("owner", JStr (default "" (ca_owner a)))]
              ++ nonempty "workspace_subdir" (pl_subdir p) in
  let params := jmerge base (_daemon_overlay_params proj_cfg) in
  if str_eq_json DEFAULT_DEVCONTAINER_SUBPATH (pl_devcontainer p) then params
  else jset "devcontainer_subpath" (pl_devcontainer p) params.

(** ** Create without a daemon *)

(** [os.path.join]. *)
Definition os_join (a b : string) : string :=
  if startswith b "/" then b
  else if is_empty a || endswith a "/" then a +:+ b
  else a +:+ "/" +:+ b.

Definition direct_workspace_folder (ws : Drydock) : string :=
  if is_empty (workspace_subdir ws) then worktree_path ws else os_join (worktree_path ws) (workspace_subdir ws).

(** The overlay's values as the command takes them from the project. Addresses of AWS, the environment, storage, the
    proxy and the delegations are not among them. *)
Definition overlay_of_project (p : ProjectConfig) : res exn OverlayConfig :=
  let d := default_config in
  let list_or v x := if truthy v then as_list v else Ok x in
  let json_or v x := if is_null v then x else v in
  fw ← list_or (pc_firewall_extra_domains p) [];
  v6 ← list_or (pc_firewall_ipv6_hosts p) [];
  ports ← list_or (pc_forward_ports p) [];
  mounts ← list_or (pc_extra_mounts p) [];
  hard ← (if truthy (pc_resources_hard p) then as_dict (pc_resources_hard p) else Ok []);
  authkey ← (if is_null (pc_tailscale_authkey_env_var p) then Ok (tailscale_authkey d)
             else match pc_tailscale_authkey_env_var p with
                  | JStr v => Ok (default "" (environ v))
                  | v => Err (PyError "TypeError" ("str expected, not " +:+ type_name v))
                  end);
  Ok {| secrets_host_dir := secrets_host_dir d; secrets_container_dir := secrets_container_dir d;
        firewall_extra_domains := fw; firewall_ipv6_hosts := v6; firewall_aws_ip_ranges := firewall_aws_ip_ranges d;
        tailscale_hostname := json_or (pc_tailscale_hostname p) (tailscale_hostname d);
        tailscale_authkey := authkey;
        tailscale_serve_port := json_or (pc_tailscale_serve_port p) (tailscale_serve_port d);
        tailscale_advertise_tags := tailscale_advertise_tags d;
        remote_control_name := json_or (pc_remote_control_name p) (remote_control_name d);
        extra_env := extra_env d; oc_extra_mounts := mounts; storage_mounts := storage_mounts d; forward_ports := ports;
        claude_profile := json_or (pc_claude_profile p) (claude_profile d);
        wsd_run_host_dir := wsd_run_host_dir d; drydock_rpc_host_path := drydock_rpc_host_path d;
        oc_resources_hard := hard; egress_proxy := egress_proxy d;
        proxy_config_host_dir := proxy_config_host_dir d;
        role := (if negb (is_empty (pc_role p)) && negb (pc_role p =s "worker") then pc_role p else role d);
        audit_log_host_path := audit_log_host_path d; registry_db_host_path := registry_db_host_path d |}.

Definition _overlay_from_project (proj_cfg : option ProjectConfig) : res exn OverlayConfig :=
  match proj_cfg with Some p => overlay_of_project p | None => Ok default_config end.

Definition on_ws_failure {A} (m : W A) (undo : W unit) : W A :=
  catch m (fun e => match e with WsError _ _ => _ ← undo; throw e | e => throw e end).

Definition to_error (n : string) : W unit := _ ← touch_state n "error"; mret tt.

(** [--force] on a desk with a container: it is taken down, the row becomes one to resume. *)
Definition force_recreate (n : string) (existing : Drydock) : W (option Drydock) :=
  let cid := container_id existing in
  _ ← (if is_empty cid then mret tt
       else
         _ ← best_effort (tailnet_logout false cid);
         on_ws_failure (_ ← stop false cid; Container.remove false cid) (to_error n));
  _ ← touch_state n "suspended";
  _ ← audit_log_event "drydock.force_recreate" (id existing) [];
  reg_get (get_drydock n).

Definition register_new (a : create_args) (p : plan) : W Drydock :=
  ws ← new_drydock a p;
  now ← _utc_now;
  ws ← reg (create_drydock now ws);
  _ ← audit_log_event "drydock.created" (id ws) [];
  checkout_path ← create_checkout ws;
  o ← touch_drydock (name ws) [F_worktree_path checkout_path];
  row_of o.

(** The desk the command works on: the one there, to be resumed, or a new one. *)
Definition desk_to_start (a : create_args) (p : plan) : W Drydock :=
  let n := ca_name a in
  existing ← reg_get (get_drydock n);
  _ ← (match existing with Some ws => refuse_existing a ws | None => mret tt end);
  existing ← (match existing with
              | Some ws => if ((state ws =s "running") || (state ws =s "error")) && ca_force a
                           then force_recreate n ws else mret existing
              | None => mret None
              end);
  match existing with
  | Some ws =>
      if resumable_state ws then mret ws
      else throw (WsError ("Drydock '" +:+ n +:+ "' is in unexpected state '" +:+ state ws +:+ "'")
                    (Some ("Investigate: ws inspect " +:+ n)))
  | None => register_new a p
  end.

(** The overlay file of the desk; the row's configuration becomes its path alone. *)
Definition direct_overlay (proj_cfg : option ProjectConfig) (ws : Drydock) (subpath : string) : W (Drydock * string) :=
  let devcontainer_json := direct_workspace_folder ws // subpath // "devcontainer.json" in
  found ← path_exists devcontainer_json;
  if negb found then
    _ ← touch_state (name ws) "error";
    throw (WsError ("devcontainer.json not found at " +:+ devcontainer_json)
             (Some ("Create " +:+ devcontainer_json +:+ ", or set a different workspace_subdir "
                    +:+ "or devcontainer_subpath in the project YAML")))
  else
    overlay_config ← lift (_overlay_from_project proj_cfg);
    _ ← mkdir_p (home // ".drydock" // "secrets" // id ws);
    overlay_path ← write_overlay ws OVERLAY_DIR overlay_config devcontainer_json;
    o ← touch_drydock (name ws) [F_config (JObj [("overlay_path", JStr overlay_path)])];
    ws ← row_of o;
    mret (ws, overlay_path).

(** [devc.up] and the row it makes; a [WsError] on the way leaves the row in error. *)
Definition launch (ws : Drydock) (workspace_folder overlay_path : string) : W (Drydock * json) :=
  on_ws_failure
    (up_result ← up false workspace_folder overlay_path;
     let cid := jget_default "container_id" (JStr "") up_result in
     let warning := jget "warning" up_result in
     text ← lift (Desks.sql_text cid);
     o ← touch_drydock (name ws)
           ([F_container_id text; F_state "running"]
            ++ (if truthy warning then [F_config (JObj (jset "lifecycle_warning" warning (stored_config ws)))] else []));
     started ← row_of o;
     _ ← audit_log_event "drydock.running" (id started) [];
     mret (started, cid))
    (_ ← touch_state (name ws) "error"; audit_log_event "drydock.error" (id ws) []).

Definition create_direct (a : create_args) (proj_cfg : option ProjectConfig) : W json :=
  let p := plan_of a proj_cfg in
  ws ← desk_to_start a p;
  let workspace_folder := direct_workspace_folder ws in
  subpath ← lift (as_path (pl_devcontainer p));
  '(ws, overlay_path) ← direct_overlay proj_cfg ws subpath;
  _ ← check_available;
  _ ← remove_stale_containers false workspace_folder;
  o ← touch_state (name ws) "provisioning";
  ws ← row_of o;
  '(ws, cid) ← launch ws workspace_folder overlay_path;
  _ ← (if truthy cid then
         folder ← _read_workspace_folder_from_overlay overlay_path;
         text ← lift (Desks.sql_text cid);
         _ ← seed_drydock_trust text folder; mret tt
       else mret tt);
  mret (to_dict ws).

(** ** The command *)

(** [--force] asks the daemon to destroy first; a desk that is not there is none to destroy. *)
Definition destroy_first (n : string) : W unit :=
  r ← call_daemon exchange "DestroyDesk" [("name", JStr n); ("force", JBool true)];
  match r with
  | inl (DaemonRpcError _ message data) =>
      if message =s "desk_not_found" then mret tt else throw (_ws_error_from_daemon_error message data)
  | _ => mret tt
  end.

Definition cli_create (dry_run : bool) (a : create_args) : W json :=
  _ ← _ensure_gitconfig_stub;
  proj_cfg ← load_project_config (ca_project a);
  let p := plan_of a proj_cfg in
  _ ← lift (_validate_devcontainer_subpath (pl_devcontainer p));
  if dry_run then create_preview a p
  else
    _ ← (if ca_force a then destroy_first (ca_name a) else mret tt);
    r ← call_daemon exchange "CreateDesk" (daemon_params a p proj_cfg);
    match r with
    | inr result => mret (JObj result)
    | inl (DaemonRpcError _ message data) => throw (_ws_error_from_daemon_error message data)
    | inl (DaemonUnavailable _) => create_direct a proj_cfg
    end.
End Cli.
