(* ===== verification/CliAdmin.v ===== *)
(** The commands that read and administer the registry: [cli/amendment.py], [cli/yard.py], [cli/workload.py],
    [cli/inspect.py], [cli/list.py], [cli/audit.py]. A command's result is what it prints; an error it prints is a
    [WsError]. *)

From S2P Require Import Prelude PyStr PyVal Regex Datetime Registry World Overlay Desks AuditQuery Deskwatch Client CliDesk.
From Stdlib Require Import List.

(** ** Amendments *)

(** What the reviewing commands take as open. *)
Definition open_status (s : string) : bool := (s =s "pending") || (s =s "escalated").

(** Who files: the type, the id and the first status. *)
Definition proposer (as_principal : bool) (as_dock : option Drydock) : string * string * string :=
  match as_principal, as_dock with
  | true, _ => ("principal", "principal", "approved")
  | false, None => ("principal", "principal", "pending")
  | false, Some ws => ("dockworker", id ws, "pending")
  end.

Definition dquoted (s : string) : string := String dquote s +:+ String dquote "".

(** [if value:] of an option of the command line. *)
Definition text_arg (o : option string) : option string :=
  match o with Some s => if is_empty s then None else Some s | None => None end.

Section Admin.
Context `{Env}.

Definition missing_amendment {A} (i : string) : W A :=
  throw (WsError ("Amendment " +:+ i +:+ " not found") (Some "Check `ws amendment list`")).

Definition amendment_or (i : string) : W amendment_row :=
  a ← reg_get (get_amendment i);
  match a with Some a => mret a | None => missing_amendment i end.

(** [updated['kind']]. *)
Definition record_of (o : option amendment_row) : W amendment_row :=
  match o with Some a => mret a | None => throw (PyError "TypeError" "'NoneType' object is not subscriptable") end.

Definition amendment_list (status dock : option string) (limit : Z) : W (list amendment_row) :=
  drydock_id ← (match text_arg dock with
                | None => mret None
                | Some n => ws ← desk_or n "Check `ws list`"; mret (Some (id ws))
                end);
  reg_get (list_amendments status drydock_id limit).

Definition amendment_show (i : string) : W amendment_row := amendment_or i.

(** The parser's own message is not part of the error. *)
Definition request_object (request_json : string) : res exn obj :=
  match json_loads request_json with
  | None => Err (WsError "--request must be valid JSON"
                   (Some ("Example: --request '{" +:+ dquoted "domain" +:+ ": " +:+ dquoted "github.com" +:+ ", " +:+ dquoted "port"
                          +:+ ": 443}'")))
  | Some (JObj o) => Ok o
  | Some _ => Err (WsError "--request must be a JSON object" (Some ("Wrap in {} — e.g., '{" +:+ dquoted "key" +:+ ": "
                                                                          +:+ dquoted "value" +:+ "}'")))
  end.

(** The desk it is about: [--dock], or else the one that files. *)
Definition target_desk (dock as_dock : option string) : W (option string) :=
  match text_arg dock, text_arg as_dock with
  | Some n, _ => ws ← desk_or n "Check `ws list`"; mret (Some (id ws))
  | None, Some n => ws ← desk_or n "Check `ws list`"; mret (Some (id ws))
  | None, None => mret None
  end.

Definition target_yard (yard : option string) : W (option string) :=
  match text_arg yard with
  | None => mret None
  | Some n =>
      y ← reg_get (get_yard n);
      match y with
      | Some y => mret (Some (yd_id y))
      | None => throw (WsError ("Yard '" +:+ n +:+ "' not found") (Some "Check `ws yard list`"))
      end
  end.

Definition amendment_file (kind request_json : string) (as_principal : bool) (as_dock reason tos_notes dock yard : option string)
    : W amendment_row :=
  request ← lift (request_object request_json);
  drydock_id ← target_desk dock as_dock;
  yard_id ← target_yard yard;
  filer ← (match text_arg as_dock with
           | Some n => if as_principal then mret None
                       else ws ← reg_get (get_drydock n);
                            match ws with Some ws => mret (Some ws) | None => lift (attr_error JNull "id") end
           | None => mret None
           end);
  let '(proposed_by_type, proposed_by_id, initial_status) := proposer as_principal filer in
  u ← uuid4;
  now ← _utc_now;
  o ← reg (create_amendment now (stake 8 u) kind (JObj request) proposed_by_type proposed_by_id drydock_id yard_id reason
             tos_notes None initial_status);
  record_of o.

(** [approve] and [deny]. *)
Definition amendment_review (verb new_status i : string) (note : option string) : W amendment_row :=
  a ← amendment_or i;
  if negb (open_status (am_status a)) then
    throw (WsError ("Amendment is in status '" +:+ am_status a +:+ "'; can only " +:+ verb +:+ " from 'pending' or 'escalated'")
             (if verb =s "approve" then Some ("Current status: " +:+ am_status a) else None))
  else
    now ← _utc_now;
    o ← reg (update_amendment_status now i new_status (Some "principal") note None);
    record_of o.

Definition amendment_approve := amendment_review "approve" "approved".
Definition amendment_deny (i note : string) := amendment_review "deny" "denied" i (Some note).

(** Whatever its status. *)
Definition amendment_expire (i : string) : W amendment_row :=
  _ ← amendment_or i;
  now ← _utc_now;
  o ← reg (update_amendment_status now i "expired" None None None);
  record_of o.

Definition amendment_expire_old : W nat := now ← utc_now; reg (expire_old_pending_amendments now).

(** ** Yards *)

Definition yard_create (n : string) (repo_path : option string) : W yard_row :=
  now ← _utc_now; reg (create_yard now n repo_path None).

Definition yard_list : W (list (yard_row * list Drydock)) :=
  reg_get (fun d => map (fun y => (y, list_yard_members (yd_id y) d)) (list_yards d)).

Definition yard_show (n : string) : W (yard_row * list Drydock) :=
  y ← reg_get (get_yard n);
  match y with
  | None => throw (WsError ("Yard '" +:+ n +:+ "' not found")
                     (Some "Check `ws yard list`; create with `ws yard create <name>`"))
  | Some y => members ← reg_get (list_yard_members (yd_id y)); mret (y, members)
  end.

Definition yard_destroy (n : string) (with_members : bool) : W nat := reg (destroy_yard n with_members).

(** ** Workloads *)

Definition _list_all_leases (drydock_id : option string) (d : db) : list workload_row :=
  order_by (fun a b => String.leb (wl_granted_at b) (wl_granted_at a))
    (tbl_select (fun r => match drydock_id with None => true | Some i => wl_drydock_id r =s i end) (workload_leases d)).

(** The difference of two times is whole microseconds; its seconds are a double. *)
Definition time_left (us : Z) : string :=
  let delta := int_seconds us in
  if us <? 0 then "EXPIRED"
  else if delta <? 60 then str_of_Z delta +:+ "s"
  else if delta <? 3600 then str_of_Z (delta / 60) +:+ "m"
  else str_of_Z (delta / 3600) +:+ "h" +:+ str_of_Z (delta mod 3600 / 60) +:+ "m".

Definition _time_remaining (status expires_at : string) (now : datetime) : res exn string :=
  if negb (status =s "active") || is_empty expires_at then Ok "—"
  else
    match fromisoformat expires_at with
    | None => Ok "?"
    | Some expires =>
        if dt_utc expires then Ok (time_left (dt_sub expires now))
        else Err (PyError "TypeError" "can't subtract offset-naive and offset-aware datetimes")
    end.

Definition spec_kind (spec : json) : json :=
  match spec with JObj o => jget_default "kind" (JStr "?") o | _ => JStr "?" end.

Definition _enrich (row : workload_row) : W obj :=
  now ← (if negb (wl_status row =s "active") || is_empty (wl_expires_at row) then mret (mkDatetime 0 true) else utc_now);
  remaining ← lift (_time_remaining (wl_status row) (wl_expires_at row) now);
  mret [("id", JStr (wl_id row)); ("drydock_id", JStr (wl_drydock_id row)); ("kind", spec_kind (wl_spec row));
        ("status", JStr (wl_status row)); ("granted_at", JStr (wl_granted_at row));
        ("expires_at", JStr (wl_expires_at row)); ("time_remaining", JStr remaining)].

Fixpoint enrich_each (rows : list workload_row) : W (list obj) :=
  match rows with
  | [] => mret []
  | r :: rest => o ← _enrich r; os ← enrich_each rest; mret (o :: os)
  end.

Definition list_workloads (drydock_name : option string) (include_inactive : bool) : W (list obj) :=
  drydock_id ← (match text_arg drydock_name with
                | None => mret None
                | Some n =>
                    ws ← reg_get (get_drydock n);
                    match ws with
                    | Some ws => mret (Some (id ws))
                    | None => throw (WsError ("drydock_not_found: " +:+ repr_str n)
                                       (Some "Use `drydock list` to see registered drydocks."))
                    end
                end);
  rows ← reg_get (if include_inactive then _list_all_leases drydock_id else list_active_workload_leases drydock_id);
  enrich_each rows.

Definition inspect_workload (lease_id : string) : W workload_row :=
  row ← reg_get (get_workload_lease lease_id);
  match row with
  | Some r => mret r
  | None => throw (WsError ("lease_not_found: " +:+ repr_str lease_id)
                     (Some "Use `drydock workload list --all` to see all leases."))
  end.

(** ** Inspect, list and audit *)

Definition cli_inspect (n : string) : W json := ws ← desk_or n LIST_FIX; mret (to_dict ws).

Definition cli_list (prj st : option string) : W (list json) :=
  desks ← reg_get (list_drydocks prj st); mret (map to_dict desks).

Definition audit_params (limit : Z) (before_ts event principal : option string) : obj :=
  [("limit", JInt limit)] ++ given "before_ts" (opt_str before_ts) ++ given "event" (opt_str event)
  ++ given "principal" (opt_str principal).

Variable exchange : string -> W string.

(** A fix of the daemon that is no text is printed as one. *)
Definition fix_of (data : option obj) : option string :=
  match data with
  | Some d => match jget "fix" d with JNull => None | JStr s => Some s | v => Some (py_str v) end
  | None => None
  end.

Definition cli_audit (limit : Z) (before_ts event principal : option string) : W json :=
  let params := audit_params limit before_ts event principal in
  r ← call_daemon exchange "GetAudit" params;
  match r with
  | inr result => mret (JObj result)
  | inl (DaemonRpcError _ message data) => throw (WsError message (fix_of data))
  | inl (DaemonUnavailable _) =>
      let log_path := home // ".drydock" // "audit.log" in
      log ← gets audit_lines;
      catch (lift (get_audit log (JObj params)))
        (fun e => throw (WsError ("Failed to read audit log directly: " +:+ str_exn e) (Some ("Check " +:+ log_path))))
  end.
End Admin.
