(* ===== verification/CliSecret.v ===== *)
(** [cli/secret.py]: the secrets of a desk, set, removed and pushed to another host. The secret directories are those
    of [World]: the files of [~/.drydock/secrets/<desk>]. *)

From S2P Require Import Prelude PyStr PyVal Regex Registry World.
From Stdlib Require Import List.

(** [^dock_[a-zA-Z0-9_]+$] and [^[A-Za-z0-9_.\-]+$] *)
Definition word_char (c : ascii) : bool := is_upper c || is_lower c || is_digit c || Ascii.eqb c "_".
Definition key_char (c : ascii) : bool := word_char c || has_char c ".-".
Definition _DOCK_ID_RE : re :=
  RSeq (rchar "d") (RSeq (rchar "o") (RSeq (rchar "c") (RSeq (rchar "k") (RSeq (rchar "_") (rplus (RChars word_char)))))).
Definition _KEY_NAME_RE : re := rplus (RChars key_char).

Definition CONTAINER_OWNER : string := "1000:1000".

Section Secret.
Context `{Env}.

Definition _ws_id_for (n : string) : W string :=
  ws ← reg_get (get_drydock n);
  let dock_id := match ws with Some ws => id ws | None => "dock_" +:+ slug n end in
  if re_match _DOCK_ID_RE dock_id then mret dock_id
  else throw (WsError ("Unsafe drydock name " +:+ repr_str n +:+ " (derived id " +:+ repr_str dock_id
                       +:+ " has characters outside [A-Za-z0-9_])")
                (Some "Use a drydock name matching [A-Za-z0-9_-] with no whitespace or shell metacharacters")).

Definition _validate_key_name (key_name : string) : W unit :=
  if re_match _KEY_NAME_RE key_name then mret tt
  else throw (WsError ("Invalid secret key name " +:+ repr_str key_name)
                (Some "Use characters from [A-Za-z0-9_.-] only (no slashes, whitespace, or shell metacharacters)")).

(** [tempfile.mkstemp]: a new empty file of a random name. *)
Definition mkstemp (desk key_name : string) : W string :=
  u ← uuid4;
  let tmp := "." +:+ key_name +:+ "." +:+ stake 8 u +:+ ".tmp" in
  _ ← fs_op;
  taken ← gets (fun w => is_some (w_files w !! (desk, tmp)));
  if taken : bool then os_error "FileExistsError" tmp
  else _ ← modify (fun w => set_files (<[(desk, tmp) := mkFile "" false]> (w_files w)) w); mret tmp.

(** [os.rename] of a file onto [secret_dir / key_name]. *)
Definition rename_to_key (desk tmp key_name : string) : W unit :=
  if is_dir_name key_name then _ ← fs_op; os_error "IsADirectoryError" key_name else os_replace desk tmp key_name.

(** [os.chown], which root alone does; its errors are not caught. *)
Definition chown_if_root : W unit := if is_root then fs_op else mret tt.

Definition _write_secret_atomic (desk key_name value : string) : W string :=
  tmp ← mkstemp desk key_name;
  _ ← catch
        (_ ← write_bytes desk tmp value;
         _ ← chmod_ro desk tmp;
         _ ← rename_to_key desk tmp key_name;
         chown_if_root)
        (fun e => _ ← unlink desk tmp; throw e);
  mret (path_of desk key_name).

(** [value] is what standard input holds. *)
Definition secret_set (n key_name value : string) : W string :=
  _ ← _validate_key_name key_name;
  if is_empty value then
    throw (WsError "No value provided on stdin" (Some "Pipe a value: echo -n val | ws secret set WS KEY"))
  else
    dock_id ← _ws_id_for n;
    _ ← mkdir_p (secret_dir dock_id);
    _ ← fs_op;
    _ ← chown_if_root;
    _write_secret_atomic dock_id key_name value.

(** [confirmed] is the answer at the terminal, [None] where it is not asked. *)
Definition secret_rm (n key_name : string) (force : bool) (confirmed : option bool) : W bool :=
  _ ← _validate_key_name key_name;
  dock_id ← _ws_id_for n;
  present ← gets (fun w => is_some (w_files w !! (dock_id, key_name)));
  if (present || is_dir_name key_name) && negb force && match confirmed with Some false => true | _ => false end
  then throw (PyError "Abort" "")
  else
    _ ← fs_op;
    if is_dir_name key_name then os_error "IsADirectoryError" key_name
    else
      still ← gets (fun w => is_some (w_files w !! (dock_id, key_name)));
      _ ← modify (fun w => set_files (delete (dock_id, key_name) (w_files w)) w);
      mret still.

(** ** Pushing to another host *)

Definition mkdir_cmd (ssh_host dock_id : string) : list string :=
  ["ssh"; ssh_host; "mkdir -p -m 700 ~/.drydock/secrets/" +:+ dock_id].
Definition rsync_cmd (ssh_host dock_id : string) : list string :=
  ["rsync"; "-a"; "-e"; "ssh"; secret_dir dock_id +:+ "/"; ssh_host +:+ ":~/.drydock/secrets/" +:+ dock_id +:+ "/"].
Definition chown_cmd (ssh_host dock_id : string) : list string :=
  ["ssh"; ssh_host; "chown -R " +:+ CONTAINER_OWNER +:+ " ~/.drydock/secrets/" +:+ dock_id].

(** [subprocess.run(cmd, check=True)]. *)
Definition run_checked (cmd : list string) : W string :=
  '(rc, stdout, stderr) ← run_uncaught (mkCall cmd "");
  if rc =? 0 then mret stdout else throw (PyError "CalledProcessError" stderr).

(** The three commands, which a dry run only prints. *)
Definition push_commands (ssh_host dock_id : string) : list (list string) :=
  [mkdir_cmd ssh_host dock_id; rsync_cmd ssh_host dock_id; chown_cmd ssh_host dock_id].

Fixpoint run_all (cmds : list (list string)) : W unit :=
  match cmds with [] => mret tt | c :: cs => _ ← run_checked c; run_all cs end.

Definition secret_push (dry_run : bool) (n ssh_host : string) : W (list (list string)) :=
  dock_id ← _ws_id_for n;
  dir ← host_at (secret_dir dock_id);
  if negb (is_ndir dir) then
    throw (WsError ("No secrets directory for drydock '" +:+ n +:+ "'")
             (Some ("Run 'ws secret set " +:+ n +:+ " <key>' first")))
  else if dry_run then mret (push_commands ssh_host dock_id)
  else _ ← run_all (push_commands ssh_host dock_id); mret (push_commands ssh_host dock_id).
End Secret.
