(* ===== verification/HostAudit.v ===== *)
(** [core/host_audit.py]: what is live on the harbor, a layer at a time. The layer of the daemon's process is not here.
    Texts are bytes, and the letters of a [FROM] line are compared by ASCII case. *)

From S2P Require Import Prelude PyStr PyVal Datetime Registry Policy World Container ProjectConfig DeskSpec Broker CliDesk.
From Stdlib Require Import List.

Definition _BASE_IMAGE_REF : string := "ghcr.io/stevefan/drydock-base".

(** ** The [FROM] line *)

(** [pre] at the head of [s], letters of either case: what follows it. *)
Definition after_ci (pre s : string) : option string :=
  if startswith (lower s) pre then Some (sdrop (String.length pre) s) else None.

(** [\s+]. *)
Definition after_blanks (s : string) : option string :=
  match s with String c _ => if is_space c then Some (lstrip_by is_space s) else None | EmptyString => None end.

Fixpoint take_word (s : string) : string :=
  match s with String c s' => if is_space c then "" else String c (take_word s') | EmptyString => "" end.

(** [\s*FROM\s+REF:(\S+)] at the head of [s]: the tag. *)
Definition from_tag (s : string) : option string :=
  s ← after_ci "from" (lstrip_by is_space s);
  s ← after_blanks s;
  s ← after_ci (_BASE_IMAGE_REF +:+ ":") s;
  let tag := take_word s in
  if is_empty tag then None else Some tag.

(** The first line at which it matches; a match may begin on blank lines. *)
Fixpoint search_lines (at_line_start : bool) (s : string) : option string :=
  match (if at_line_start then from_tag s else None) with
  | Some tag => Some tag
  | None => match s with String c s' => search_lines (Ascii.eqb c newline) s' | EmptyString => None end
  end.

Definition base_tag_of (dockerfile : string) : option string := search_lines true dockerfile.

(** ** Elapsed time *)

(** [int(s)]. *)
Definition int_of (s : string) : res exn Z :=
  match int_of_str s with
  | Some z => Ok z
  | None => Err (ValueError ("invalid literal for int() with base 10: " +:+ repr_str s))
  end.

(** [[[dd-]hh:]mm:ss] in seconds. *)
Definition _parse_etime (s : string) : res exn (option Z) :=
  let s := strip s in
  if is_empty s then Ok None
  else
    '(days, rest) ← (match split_once "-" s with
                     | Some (d, rest) => n ← int_of d; Ok (n, rest)
                     | None => Ok (0, s)
                     end);
    parts ← mapE int_of (split_on ":" rest);
    Ok (match parts with
        | [m; sec] => Some (days * 86400 + m * 60 + sec)
        | [h; m; sec] => Some (days * 86400 + h * 3600 + m * 60 + sec)
        | _ => None
        end).

(** [f"{n:02d}"] of a number below 100. *)
Definition two_digits (n : Z) : string := if n <? 10 then "0" +:+ str_of_Z n else str_of_Z n.

Definition _format_duration (seconds : Z) : string :=
  if seconds <? 60 then str_of_Z seconds +:+ "s"
  else if seconds <? 3600 then str_of_Z (seconds / 60) +:+ "m" +:+ two_digits (seconds mod 60) +:+ "s"
  else if seconds <? 86400 then str_of_Z (seconds / 3600) +:+ "h" +:+ two_digits (seconds mod 3600 / 60) +:+ "m"
  else str_of_Z (seconds / 86400) +:+ "d" +:+ two_digits (seconds mod 86400 / 3600) +:+ "h".

(** ** Leases *)

Fixpoint distinct (l : list string) : list string :=
  match l with [] => [] | x :: l' => if existsb (String.eqb x) l' then distinct l' else x :: distinct l' end.

(** [GROUP BY type] of the rows with this flag. *)
Definition count_by_type (flag : bool) (ls : list lease_row) : list (string * Z) :=
  let rows := List.filter (fun r => Bool.eqb (lr_revoked r) flag) ls in
  map (fun t => (t, Z.of_nat (tbl_count (fun r => lr_type r =s t) rows)))
    (order_by String.leb (distinct (map lr_type rows))).

Definition total (l : list (string * Z)) : Z := fold_right (fun kv n => snd kv + n) 0 l.
Definition counts_json (l : list (string * Z)) : json := JObj (map (fun kv => (fst kv, JInt (snd kv))) l).

Definition lease_totals (d : db) : obj :=
  let active := count_by_type false (leases d) in
  let revoked := count_by_type true (leases d) in
  [("active_total", JInt (total active)); ("revoked_total", JInt (total revoked));
   ("active_by_type", counts_json active); ("revoked_by_type", counts_json revoked)].

(** ** Capabilities *)

Definition _gather_capability_surface : obj :=
  let all_types := map CapabilityType_value all_CapabilityType in
  let supported := order_by String.leb _SUPPORTED_CAPABILITY_TYPES in
  [("supported_types", JList (map JStr supported));
   ("reserved_types", JList (map JStr (order_by String.leb
      (List.filter (fun t => negb (existsb (String.eqb t) _SUPPORTED_CAPABILITY_TYPES)) all_types))));
   ("capability_kinds", JList (map JStr (order_by String.leb (map CapabilityKind_value all_CapabilityKind))))].

(** ** Helper scripts *)

Definition _HELPER_SCRIPTS : list (string * string) :=
  [("/usr/local/bin/init-firewall.sh", "default-deny firewall (core)");
   ("/usr/local/bin/start-tailscale.sh", "tailnet identity (core)");
   ("/usr/local/bin/start-remote-control.sh", "claude remote-control (core)");
   ("/usr/local/bin/sync-claude-auth.sh", "claude auth materialization (core)");
   ("/usr/local/bin/refresh-firewall-allowlist.sh", "CDN-rotation refresher (core)");
   ("/usr/local/bin/add-allowed-domain.sh", "NETWORK_REACH dynamic firewall opens");
   ("/usr/local/bin/sync-aws-auth.sh", "AWS STS lease materialization");
   ("/usr/local/bin/setup-storage-mounts.sh", "S3 storage mounts")].

(** One desk per project, the first of each. *)
Fixpoint one_per_project (seen : list string) (desks : list Drydock) : list Drydock :=
  match desks with
  | [] => []
  | ws :: rest => if existsb (String.eqb (project ws)) seen then one_per_project seen rest
                  else ws :: one_per_project (project ws :: seen) rest
  end.

Definition running_desks (desks : list Drydock) : list Drydock := List.filter (fun ws => negb (is_empty (container_id ws))) desks.

Section Audit.
Context `{Env}.

(** [except (FileNotFoundError, subprocess.TimeoutExpired)]. *)
Definition try_run (c : call) : W (option (Z * string * string)) :=
  o ← run c;
  mret (match o with Ran rc so se => Some (rc, so, se) | _ => None end).

Definition _container_has_executable (cid path : string) : W bool :=
  r ← try_run (mkCall ["docker"; "exec"; cid; "test"; "-x"; path] "");
  mret (match r with Some (rc, _, _) => rc =? 0 | None => false end).

Definition probe_desk (ws : Drydock) : W json :=
  results ← mapM (fun kv => ok ← _container_has_executable (container_id ws) (fst kv); mret (kv, ok)) _HELPER_SCRIPTS;
  let missing := List.filter (fun r => negb (snd r)) results in
  mret (JObj [("desk", JStr (name ws)); ("project", JStr (project ws)); ("container_id", JStr (stake 12 (container_id ws)));
              ("scripts", JObj (map (fun r => (fst (fst r), JBool (snd r))) results));
              ("missing", JList (map (fun r => JStr (fst (fst r))) missing));
              ("feature_implications", JList (map (fun r => JStr (snd (fst r))) missing))]).

Definition _gather_helpers : W obj :=
  drydocks ← reg_get (list_drydocks None None);
  let running := running_desks drydocks in
  match running with
  | [] => mret [("probed", JList []); ("note", JStr "no running desks to probe")]
  | _ =>
      let sample := one_per_project [] running in
      probed ← mapM probe_desk sample;
      mret [("probed", JList probed); ("sample_size", JInt (Z.of_nat (length sample)));
            ("total_running", JInt (Z.of_nat (length running)))]
  end.

Definition _gather_leases : W obj := reg_get lease_totals.

(** ** Base images *)

(** A line of [docker images]: tag, id and age. *)
Definition image_of_line (line : string) : list json :=
  match split_on "009" line with
  | tag :: i :: created :: _ =>
      if tag =s "<none>" then [] else [JObj [("tag", JStr tag); ("id", JStr i); ("created", JStr created)]]
  | _ => []
  end.

Definition images_call : call :=
  mkCall ["docker"; "images"; _BASE_IMAGE_REF; "--format";
          "{{.Tag}}" +:+ String "009" "" +:+ "{{.ID}}" +:+ String "009" "" +:+ "{{.CreatedSince}}"] "".

Definition _gather_base_images : W obj :=
  r ← try_run images_call;
  mret (match r with
        | None => [("ok", JBool false); ("error", JStr "docker not available")]
        | Some (rc, stdout, stderr) =>
            if negb (rc =? 0) then [("ok", JBool false); ("error", JStr (strip stderr))]
            else [("ref", JStr _BASE_IMAGE_REF); ("tags", JList (flat_map image_of_line (splitlines (strip stdout))))]
        end).

Definition _process_uptime (pid : Z) : W (option Z) :=
  r ← try_run (mkCall ["ps"; "-p"; str_of_Z pid; "-o"; "etime="] "");
  match r with
  | Some (0, stdout, _) => lift (_parse_etime (strip stdout))
  | _ => mret None
  end.

(** ** Desks *)

(** The time a file was last written. *)
Variable mtime : string -> datetime.

Definition _safe_json_list (s : json) : list json := match s with JList l => l | _ => [] end.

Definition _project_yaml_mtime (prj : string) : W json :=
  let path := project_yaml_path prj in
  found ← path_exists path;
  mret (if found : bool then JStr (isoformat (mtime path)) else JNull).

Definition _count_secrets (drydock_id : string) : W Z :=
  found ← path_exists (secret_dir drydock_id);
  if negb found then mret 0
  else catch (_ ← fs_op; gets (fun w => Z.of_nat (length (List.filter (fun kv => fst (fst kv) =s drydock_id)
                                                             (map_to_list (w_files w))))))
         (fun e => if is_os_error e then mret 0 else throw e).

Definition _read_desk_base_tag (ws : Drydock) (proj_cfg : option ProjectConfig) : W json :=
  if is_empty (repo_path ws) then mret JNull
  else
    subdir ← lift (as_path (from_project pc_workspace_subdir proj_cfg (JStr "")));
    subpath ← lift (as_path (match proj_cfg with
                             | Some p => if is_null (pc_devcontainer_subpath p) then JStr DEFAULT_DEVCONTAINER_SUBPATH
                                         else pc_devcontainer_subpath p
                             | None => JStr DEFAULT_DEVCONTAINER_SUBPATH
                             end));
    let root := if is_empty subdir then path_str (repo_path ws) else repo_path ws // subdir in
    let dockerfile := root // subpath // "Dockerfile" in
    found ← path_exists dockerfile;
    if negb found then mret JNull
    else catch (t ← host_read dockerfile; mret (opt_str (base_tag_of t)))
           (fun e => if is_os_error e then mret JNull else throw e).

(** [x[:12] if x else None]. *)
Definition short12 (s : string) : json := if is_empty s then JNull else JStr (stake 12 s).

Definition _describe_desk (ws : Drydock) : W json :=
  proj_cfg ← catch (load_project_config (project ws)) (fun _ => mret None);
  base_tag ← _read_desk_base_tag ws proj_cfg;
  yaml_mtime ← _project_yaml_mtime (project ws);
  secrets_count ← _count_secrets (id ws);
  pol ← reg_get (load_desk_policy (id ws));
  let column (f : dock_row -> json) := match pol with Some r => JList (_safe_json_list (f r)) | None => JList [] end in
  current_sha ← compute_project_yaml_sha (project ws);
  let pinned_sha := pinned_yaml_sha256 ws in
  mret (JObj [("name", JStr (name ws)); ("id", JStr (id ws)); ("project", JStr (project ws)); ("state", JStr (state ws));
              ("container_id", short12 (container_id ws)); ("worktree", JStr (worktree_path ws)); ("base_image_tag", base_tag);
              ("capabilities", column dr_capabilities); ("delegatable_secrets", column dr_secrets);
              ("delegatable_storage_scopes", column dr_storage_scopes);
              ("delegatable_network_reach", column dr_network_reach); ("network_reach_ports", column dr_reach_ports);
              ("resources_hard", match pol with Some r => match dr_resources_hard r with JObj o => JObj o | _ => JObj [] end
                                              | None => JObj [] end);
              ("secrets_count", JInt secrets_count); ("project_yaml_mtime", yaml_mtime);
              ("pinned_yaml_sha256", short12 pinned_sha); ("current_yaml_sha256", short12 current_sha);
              ("yaml_drift", JStr (yaml_drift_status pinned_sha current_sha))]).

Definition _gather_desks : W obj :=
  drydocks ← reg_get (list_drydocks None None);
  desks ← mapM _describe_desk drydocks;
  mret [("count", JInt (Z.of_nat (length desks))); ("desks", JList desks)].

(** ** The code *)

Definition _git (repo_root : string) (args : list string) : W (option string) :=
  r ← try_run (mkCall (["git"; "-C"; repo_root] ++ args) "");
  mret (match r with Some (0, stdout, _) => Some (strip stdout) | _ => None end).

(** [behind, ahead = rl.split()]: an error leaves what was set before it. *)
Definition rev_counts (rl : string) : obj :=
  match split_ws rl with
  | [behind; ahead] =>
      match int_of behind with
      | Ok b => ("behind_origin_main", JInt b)
                :: match int_of ahead with Ok a => [("ahead_origin_main", JInt a)] | Err _ => [] end
      | Err _ => []
      end
  | _ => []
  end.

Fixpoint repo_root_of (candidates : list string) : W (option string) :=
  match candidates with
  | [] => mret None
  | c :: rest => found ← path_exists (c // ".git"); if found : bool then mret (Some c) else repo_root_of rest
  end.

(** [src_path] is the file the package was loaded from. *)
Definition _gather_code (version src_path : string) : W obj :=
  repo_root ← repo_root_of (rev (path_chain src_path) ++ [path_root src_path]);
  let out := [("package_version", JStr version); ("install_location", JStr (path_parent (path_parent src_path)));
              ("editable", JBool (is_some repo_root))] in
  match repo_root with
  | None => mret out
  | Some root =>
      sha ← _git root ["rev-parse"; "HEAD"];
      branch ← _git root ["rev-parse"; "--abbrev-ref"; "HEAD"];
      dirty ← _git root ["status"; "--porcelain"];
      rl ← _git root ["rev-list"; "--left-right"; "--count"; "origin/main...HEAD"];
      mret (out ++ [("repo_root", JStr root);
                    ("git_sha", match sha with Some s => short12 s | None => JNull end);
                    ("git_branch", opt_str branch);
                    ("dirty", JBool (match dirty with Some s => negb (is_empty (strip s)) | None => false end))]
            ++ match rl with Some s => if is_empty s then [] else rev_counts s | None => [] end)
  end.

(** [_safe]: a layer's exception is its result. *)
Definition _safe {S} (layer : M S exn obj) : M S exn json :=
  catch (o ← layer; mret (JObj (if has_key "ok" o then o else o ++ [("ok", JBool true)])))
    (fun e => mret (JObj [("ok", JBool false); ("error", JStr (exn_class e +:+ ": " +:+ str_exn e))])).
End Audit.

(** * Theorems

    The audit of the harbor: every lease is counted once, every project with a container has one desk probed, and a
    [FROM] line gives its tag. *)

(** ** Counting by type *)

Lemma in_distinct x l : In x (distinct l) <-> In x l.
Proof.
  induction l as [|y l IH]; [done|]. cbn [distinct]. destruct (existsb _ l) eqn:E; cbn [In]; rewrite IH; [|done].
  split; [auto|]. intros [->|]; [|done]. apply existsb_exists in E as (z & Hz & ->%String.eqb_eq). done.
Qed.

Lemma distinct_nodup l : List.NoDup (distinct l).
Proof.
  induction l as [|y l IH]; [constructor|]. cbn [distinct]. destruct (existsb _ l) eqn:E; [done|]. constructor; [|done].
  rewrite in_distinct. intros Hy. assert (existsb (String.eqb y) l = true) as Ht; [|congruence].
  apply existsb_exists. exists y. by rewrite String.eqb_refl.
Qed.

Definition counts (ts : list string) (rows : list lease_row) : list (string * Z) :=
  map (fun t => (t, Z.of_nat (tbl_count (fun r => lr_type r =s t) rows))) ts.

(** A row adds one to the count of its type. *)
Lemma total_counts_cons r rows ts : List.NoDup ts ->
  total (counts ts (r :: rows)) = total (counts ts rows) + if existsb (String.eqb (lr_type r)) ts then 1 else 0.
Proof.
  induction ts as [|t ts IH]; intros Hnd; [done|]. inversion Hnd as [|? ? Hni Hnd']; subst. specialize (IH Hnd').
  cbn [counts map total fold_right snd existsb]. fold (counts ts (r :: rows)) (counts ts rows).
  fold (total (counts ts (r :: rows))) (total (counts ts rows)). rewrite IH.
  unfold tbl_count. cbn [List.filter]. destruct (String.eqb_spec (lr_type r) t) as [->|Hne]; cbn [orb length].
  - destruct (existsb (String.eqb t) ts) eqn:E; [|lia].
    apply existsb_exists in E as (z & Hz & ->%String.eqb_eq). done.
  - lia.
Qed.

Lemma total_counts rows ts : List.NoDup ts -> (forall r, In r rows -> In (lr_type r) ts) ->
  total (counts ts rows) = Z.of_nat (length rows).
Proof.
  intros Hnd. induction rows as [|r rows IH]; intros Hall.
  - clear Hnd Hall. induction ts as [|t ts IH]; [done|]. cbn in IH |- *. exact IH.
  - rewrite total_counts_cons, IH by (done || (intros x Hx; apply Hall; by right)).
    assert (existsb (String.eqb (lr_type r)) ts = true) as ->.
    { apply existsb_exists. exists (lr_type r). rewrite String.eqb_refl. split; [apply Hall; by left|done]. }
    cbn [length]. lia.
Qed.

Lemma total_by_type flag ls :
  total (count_by_type flag ls) = Z.of_nat (length (List.filter (fun r => Bool.eqb (lr_revoked r) flag) ls)).
Proof.
  unfold count_by_type. apply total_counts; [apply order_by_NoDup, distinct_nodup|].
  intros r Hr. rewrite order_by_In, in_distinct. by apply in_map.
Qed.

(** The audit counts every lease once: its two totals are the numbers of the leases that are not revoked and of those
    that are, and together all the leases on record, and the count of a type is the number of its leases. *)
Theorem lease_totals_complete d :
  exists active revoked, lease_totals d = [("active_total", JInt active); ("revoked_total", JInt revoked);
    ("active_by_type", counts_json (count_by_type false (leases d)));
    ("revoked_by_type", counts_json (count_by_type true (leases d)))]
  /\ active = Z.of_nat (length (List.filter (fun r => negb (lr_revoked r)) (leases d)))
  /\ active + revoked = Z.of_nat (length (leases d))
  /\ (forall flag t n, In (t, n) (count_by_type flag (leases d)) ->
       n = Z.of_nat (length (List.filter (fun r => Bool.eqb (lr_revoked r) flag && (lr_type r =s t)) (leases d)))).
Proof.
  eexists _, _. split; [reflexivity|]. rewrite !total_by_type. split_and!.
  - by do 2 f_equal.
  - rewrite <- Nat2Z.inj_add. f_equal. induction (leases d) as [|r ls IH]; [done|]. cbn [List.filter].
    destruct (lr_revoked r); cbn [Bool.eqb length]; lia.
  - intros flag t n (t' & [= <- <-] & _)%in_map_iff. unfold tbl_count. do 2 f_equal.
    induction (leases d) as [|r ls IH]; [done|]. cbn [List.filter].
    destruct (Bool.eqb (lr_revoked r) flag); cbn [List.filter andb]; [destruct (lr_type r =s t'); congruence|done].
Qed.

(** ** The sample *)

Lemma sample_spec seen desks :
  (forall ws, In ws desks -> In (project ws) seen \/ exists s, In s (one_per_project seen desks) /\ project s = project ws)
  /\ (forall s, In s (one_per_project seen desks) -> In s desks /\ ~ In (project s) seen)
  /\ List.NoDup (map project (one_per_project seen desks)).
Proof.
  revert seen. induction desks as [|ws desks IH]; intros seen; [split_and!; [by intros ? []|by intros ? []|constructor]|].
  cbn [one_per_project]. destruct (existsb (String.eqb (project ws)) seen) eqn:E.
  - apply existsb_exists in E as (p & Hp & <-%String.eqb_eq). destruct (IH seen) as (H1 & H2 & H3). split_and!; [| |done].
    + intros x [<-|Hx]; [by left|by apply H1].
    + intros s Hs. destruct (H2 s Hs). split; [by right|done].
  - assert (~ In (project ws) seen) as Hn.
    { intros Hin. assert (existsb (String.eqb (project ws)) seen = true); [|congruence]. apply existsb_exists.
      exists (project ws). by rewrite String.eqb_refl. }
    destruct (IH (project ws :: seen)) as (H1 & H2 & H3). split_and!.
    + intros x [<-|Hx]; [right; exists ws; split; [by left|done]|].
      destruct (H1 x Hx) as [[Hp|?]|(s & Hs & Ep)]; [|by left|].
      * right. exists ws. split; [by left|done].
      * right. exists s. split; [by right|done].
    + intros s [<-|Hs]; [split; [by left|done]|]. destruct (H2 s Hs) as [? Hs']. split; [by right|]. intros ?. apply Hs'. by right.
    + cbn [map]. constructor; [|done]. intros (s & Ep & Hs)%in_map_iff. destruct (H2 s Hs) as [_ Hs']. apply Hs'. by left.
Qed.

(** Every project with a desk that has a container is probed, at one of its desks and only there. *)
Theorem one_probe_per_project desks :
  let sample := one_per_project [] (running_desks desks) in
  List.NoDup (map project sample)
  /\ (forall s, In s sample -> In s desks /\ container_id s <> "")
  /\ (forall ws, In ws desks -> container_id ws <> "" -> exists s, In s sample /\ project s = project ws).
Proof.
  intros sample. destruct (sample_spec [] (running_desks desks)) as (H1 & H2 & H3). split_and!; [done| |].
  - intros s Hs. destruct (H2 s Hs) as [Hr _]. apply filter_In in Hr as [Hd He]. split; [done|]. by intros Ec; rewrite Ec in He.
  - intros ws Hw Hc. destruct (H1 ws) as [[]|?]; [|done]. apply filter_In. split; [done|]. by destruct (container_id ws).
Qed.

(** A desk that was stopped keeps the id of the container that is gone, and its helper scripts are all missing. *)
Example stopped_desk_is_probed :
  let ws := mkDrydock "web" "web" "" "dock_web" "" "" "" "suspended" "c1" "" "" "" "" "" (JObj []) "" None (JObj []) in
  one_per_project [] (running_desks [ws]) = [ws].
Proof. reflexivity. Qed.

(** ** The [FROM] line *)

Example base_tag_ex : base_tag_of ("# base" +:+ String newline ("
  from GHCR.io/stevefan/Drydock-Base:v1.0.7 AS base" +:+ String newline "RUN true")) = Some "v1.0.7"
  /\ base_tag_of "RUN echo FROM ghcr.io/stevefan/drydock-base:v1" = None.
Proof. split; reflexivity. Qed.

Example etime_ex : _parse_etime " 2-03:04:05 " = Ok (Some 183845) /\ _parse_etime "04:05" = Ok (Some 245)
  /\ _parse_etime "5" = Ok None /\ _format_duration 183845 = "2d03h" /\ _format_duration 245 = "4m05s".
Proof. split_and!; reflexivity. Qed.
