(* ===== verification/CliRepo.v ===== *)
(** The commands on a desk's checkout and its container: [cli/sync.py], [cli/exec.py], [cli/attach.py], and [cli/upgrade.py],
    which moves a desk to another tag of the base image. Texts are as in [PyStr], and the letters of the pattern of the
    [FROM] line are compared by their lower case there. *)

From S2P Require Import Prelude PyStr PyVal Registry World Overlay Container ProjectConfig Snapshot DeskSpec Deskwatch Client CliDesk HostAudit.
From Stdlib Require Import List.

Section Repo.
Context `{Env}.

(** ** Sync *)

(** [_git], with [check] and without. *)
Definition git_call (dir : string) (args : list string) : call := mkCall (["git"; "-C"; dir] ++ args) "".

Definition _git_unchecked (dir : string) (args : list string) : W (Z * string * string) := run_uncaught (git_call dir args).

Definition _git (dir : string) (args : list string) : W string :=
  '(rc, stdout, stderr) ← _git_unchecked dir args;
  if rc =? 0 then mret stdout else throw (PyError "CalledProcessError" stderr).

Definition not_there {A} (n : string) : W A := missing_desk n "Check `ws list` for the name".

(** The branch to follow: the one asked for, or the one the source is on. *)
Definition source_branch_of (source : string) (asked : option string) : W string :=
  let asked := default "" asked in
  if negb (is_empty asked) then mret asked
  else
    rev ← _git source ["rev-parse"; "--abbrev-ref"; "HEAD"];
    let b := strip rev in
    if is_empty b || (b =s "HEAD") then
      throw (WsError ("Source repo " +:+ source +:+ " has detached HEAD; cannot infer branch")
               (Some "Pass --source-branch, or check out a branch in the source repo"))
    else mret b.

(** The remote [source] of the checkout is the desk's repository. *)
Definition point_remote (worktree source : string) : W unit :=
  remotes ← _git worktree ["remote"];
  _ ← _git worktree (if existsb (String.eqb "source") (split_ws remotes)
                     then ["remote"; "set-url"; "source"; source] else ["remote"; "add"; "source"; source]);
  mret tt.

Definition fetch (worktree source branch : string) : W unit :=
  catch (_ ← _git worktree ["fetch"; "source"; branch]; mret tt)
    (fun e => match e with
              | PyError k stderr =>
                  if k =s "CalledProcessError" then
                    throw (WsError ("git fetch failed: " +:+ strip stderr)
                             (Some ("Check that branch '" +:+ branch +:+ "' exists in " +:+ source)))
                  else throw e
              | e => throw e
              end).

Definition synced_no (n head reason branch : string) (more : obj) : json :=
  JObj ([("name", JStr n); ("synced", JBool false); ("head", JStr head); ("reason", JStr reason)] ++ more
        ++ [("source_branch", JStr branch)]).

(** [int(ahead or 0)]. *)
Definition ahead_count (s : string) : res exn Z := if is_empty s then Ok 0 else py_int (JStr s).

(** The merge, when the source has commits the checkout has not. *)
Definition fast_forward (n worktree branch before : string) : W json :=
  let ref := "source/" +:+ branch in
  '(rc, _, stderr) ← _git_unchecked worktree ["merge"; "--ff-only"; ref];
  if negb (rc =? 0) then
    throw (WsError ("ff-only merge refused (branches diverged): " +:+ strip stderr)
             (Some ("cd " +:+ worktree +:+ " && git merge " +:+ ref +:+ "  # or: git rebase " +:+ ref)))
  else
    after ← _git worktree ["rev-parse"; "HEAD"];
    let after := strip after in
    log ← _git worktree ["log"; "--oneline"; before +:+ ".." +:+ after];
    let num_commits := Z.of_nat (length (splitlines (strip log))) in
    mret (JObj [("name", JStr n); ("synced", JBool true); ("before", JStr before); ("after", JStr after);
                ("source_branch", JStr branch); ("commits", JInt num_commits)]).

Definition sync_heads (n worktree branch : string) : W json :=
  let ref := "source/" +:+ branch in
  before ← _git worktree ["rev-parse"; "HEAD"];
  let before := strip before in
  target ← _git worktree ["rev-parse"; ref];
  if before =s strip target then mret (synced_no n before "already_up_to_date" branch [])
  else
    '(rc, _, _) ← _git_unchecked worktree ["merge-base"; "--is-ancestor"; ref; "HEAD"];
    if rc =? 0 then
      ahead ← _git worktree ["rev-list"; "--count"; ref +:+ "..HEAD"];
      k ← lift (ahead_count (strip ahead));
      mret (synced_no n before "ahead_of_source" branch [("ahead_by", JInt k)])
    else fast_forward n worktree branch before.

Definition sync (n : string) (source_branch : option string) : W json :=
  found ← reg_get (get_drydock n);
  ws ← (match found with Some ws => mret ws | None => not_there n end);
  let worktree := path_str (worktree_path ws) in
  let source := path_str (repo_path ws) in
  there ← path_exists worktree;
  if negb there then
    throw (WsError ("Worktree missing: " +:+ worktree) (Some ("Run `ws create " +:+ n +:+ "` to recreate it")))
  else
    is_repo ← path_exists (source // ".git");
    if negb is_repo then
      throw (WsError ("Source repo missing: " +:+ source) (Some "Check repo_path in the Dock's project YAML"))
    else
      status ← _git worktree ["status"; "--porcelain"];
      if negb (is_empty (strip status)) then
        throw (WsError ("Worktree has uncommitted changes: " +:+ worktree)
                 (Some "Commit, stash, or discard changes before syncing"))
      else
        branch ← source_branch_of source source_branch;
        _ ← point_remote worktree source;
        _ ← fetch worktree source branch;
        sync_heads n worktree branch.

(** ** Exec and attach *)

(** [data.get("workspaceFolder", "/drydock")] of the overlay file. *)
Definition overlay_folder (overlay_path : string) : W json :=
  data ← catch (t ← host_read (path_str overlay_path); v ← lift (json_decode t); mret (Some v))
    (fun e => if is_os_error e || (exn_class e =s "JSONDecodeError") then mret None else throw e);
  match data with
  | None => mret (JStr "/drydock")
  | Some (JObj o) => mret (jget_default "workspaceFolder" (JStr "/drydock") o)
  | Some v => lift (attr_error v "get")
  end.

(** [ws.config.get("overlay_path", "")]. *)
Definition stored_overlay (ws : Drydock) : res exn json :=
  match config ws with JObj o => Ok (jget_default "overlay_path" (JStr "") o) | v => attr_error v "get" end.

Definition running_desk (n : string) : W Drydock :=
  ws ← desk_or n LIST_FIX;
  if state ws =s "running" then mret ws
  else throw (WsError ("Drydock '" +:+ n +:+ "' is not running (state: " +:+ state ws +:+ ")")
                (Some ("Run 'ws create " +:+ project ws +:+ " " +:+ n +:+ "' to start it"))).

(** [open(v)]: an integer is a file descriptor, none of which is an overlay, so that reading it is an [OSError]. *)
Definition folder_at (v : json) : W json :=
  match v with
  | JStr p => overlay_folder p
  | JInt _ | JBool _ => mret (JStr "/drydock")
  | v => lift (Err (PyError "TypeError" ("expected str, bytes or os.PathLike object, not " +:+ type_name v)))
  end.

Fixpoint exec_container_id (candidate_paths : list string) : W string :=
  match candidate_paths with
  | [] => mret ""
  | path :: rest =>
      if is_empty path then exec_container_id rest
      else
        '(_, stdout, _) ← run_uncaught (ps_call path);
        let cid := first_line stdout in
        if is_empty cid then exec_container_id rest else mret cid
  end.

Definition no_container {A} (n fix_hint : string) : W A :=
  throw (WsError ("No running container found for drydock '" +:+ n +:+ "'") (Some fix_hint)).

(** The arguments [os.execvp] is given. *)
Definition exec_cmd (stdin_is_tty : bool) (n : string) (cmd : list string) : W (list string) :=
  ws ← running_desk n;
  overlay_path ← lift (stored_overlay ws);
  workdir ← (if truthy overlay_path then folder_at overlay_path else mret (JStr "/drydock"));
  container_id ← exec_container_id [direct_workspace_folder ws; worktree_path ws];
  if is_empty container_id then
    no_container n ("The container may have stopped. Run 'ws inspect " +:+ n +:+ "' to check status")
  else
    match workdir with
    | JStr d => mret (["docker"; "exec"; if stdin_is_tty then "-it" else "-i"; "-w"; d; container_id]
                      ++ match cmd with [] => ["bash"] | _ => cmd end)
    | v => lift (Err (PyError "TypeError" ("expected str, bytes or os.PathLike object, not " +:+ type_name v)))
    end.

Fixpoint _hex_encode (s : string) : string :=
  match s with
  | EmptyString => ""
  | String c s' => String (hex_digit (code c / 16)) (String (hex_digit (code c mod 16)) (_hex_encode s'))
  end.

Definition _find_container (folder : string) : W string :=
  '(_, stdout, _) ← run_uncaught (ps_call folder);
  let container_id := first_line stdout in
  if is_empty container_id then mret ""
  else
    '(_, names, _) ← run_uncaught (mkCall ["docker"; "inspect"; "--format"; "{{.Name}}"; container_id] "");
    mret (lstrip_by (Ascii.eqb "/") (strip names)).

(** The address the editor is opened with; the editor is not waited for. *)
Definition attach (n editor : string) : W string :=
  ws ← running_desk n;
  overlay_path ← lift (stored_overlay ws);
  if negb (truthy overlay_path) then
    throw (WsError ("Drydock '" +:+ n +:+ "' has no overlay_path in config")
             (Some "Drydock may have been created with an older version of ws"))
  else
    folder ← folder_at overlay_path;
    container_name ← _find_container (_effective_workspace_folder ws);
    if is_empty container_name then
      no_container n "The container may have stopped. Run 'ws inspect {name}' to check status"
    else
      let uri := "vscode-remote://attached-container+" +:+ _hex_encode container_name +:+ py_str folder in
      match which editor with
      | None =>
          throw (WsError ("Editor '" +:+ editor +:+ "' not found on PATH")
                   (Some ("Install the shell command: VS Code Command Palette -> "
                          +:+ "'Shell Command: Install code command in PATH'. Or pass --editor <your-binary>.")))
      | Some _ => mret uri
      end.

(** ** Upgrade: the Dockerfile, and what the new desk is asked for *)

Definition _resolve_dockerfile_path (ws : Drydock) (proj_cfg : option ProjectConfig) : res exn string :=
  subdir ← as_path (from_project pc_workspace_subdir proj_cfg (JStr ""));
  subpath ← as_path (match proj_cfg with
                     | Some p => if is_null (pc_devcontainer_subpath p) then JStr DEFAULT_DEVCONTAINER_SUBPATH
                                 else pc_devcontainer_subpath p
                     | None => JStr DEFAULT_DEVCONTAINER_SUBPATH
                     end);
  Ok ((if is_empty subdir then path_str (repo_path ws) else repo_path ws // subdir) // subpath // "Dockerfile").

Definition upgrade_overlay_params (proj_cfg : option ProjectConfig) : obj :=
  match proj_cfg with
  | None => []
  | Some p =>
      given "tailscale_hostname" (pc_tailscale_hostname p) ++ given "tailscale_serve_port" (pc_tailscale_serve_port p)
      ++ given "tailscale_authkey_env_var" (pc_tailscale_authkey_env_var p) ++ given "remote_control_name" (pc_remote_control_name p)
      ++ nonempty "firewall_extra_domains" (pc_firewall_extra_domains p) ++ nonempty "firewall_ipv6_hosts" (pc_firewall_ipv6_hosts p)
      ++ nonempty "forward_ports" (pc_forward_ports p) ++ given "claude_profile" (pc_claude_profile p)
      ++ set_field_if (fun v => negb (is_null v || str_eq_json DEFAULT_DEVCONTAINER_SUBPATH v)) "devcontainer_subpath"
           (pc_devcontainer_subpath p)
      ++ (if negb (is_empty (pc_role p)) && negb (pc_role p =s "worker") then [("role", JStr (pc_role p))] else [])
  end.

Definition upgrade_params (ws : Drydock) (n : string) (proj_cfg : option ProjectConfig) : obj :=
  let or_text (s d : string) := JStr (if is_empty s then d else s) in
  jmerge [("project", JStr (project ws)); ("name", JStr n); ("base_ref", or_text (base_ref ws) "HEAD");
          ("branch", or_text (branch ws) ("ws/" +:+ n)); ("repo_path", JStr (repo_path ws)); ("image", JStr (image ws));
          ("owner", JStr (owner ws))]
    (upgrade_overlay_params proj_cfg).
End Repo.

(** ** Upgrade: the line of the base image *)

Definition BASE_IMAGE_REF : string := "ghcr.io/stevefan/drydock-base".

(** A text file is read with every line end as one character. *)
Fixpoint universal_newlines (s : string) : string :=
  match s with
  | EmptyString => ""
  | String c s' =>
      if Ascii.eqb c "013" then
        String newline (match s' with
                        | String d s'' => if Ascii.eqb d newline then universal_newlines s'' else universal_newlines s'
                        | EmptyString => ""
                        end)
      else String c (universal_newlines s')
  end.

(** A match of [FROM_LINE_RE]: its four groups, and the text after it. *)
Record from_line : Type := mkFrom { fl_head : string; fl_ref : string; fl_tag : string; fl_tail : string; fl_rest : string }.

Fixpoint take_line (s : string) : string :=
  match s with String c s' => if Ascii.eqb c newline then "" else String c (take_line s') | EmptyString => "" end.

(** The part of [s] before its end [rest]. *)
Definition before (s rest : string) : string := stake (String.length s - String.length rest) s.

(** [\s*FROM\s+] at the head of [s]: what follows it. *)
Definition after_from (s : string) : option string := s ← after_ci "from" (lstrip_by is_space s); after_blanks s.

(** The pattern at the head of [s]. *)
Definition from_line_at (s : string) : option from_line :=
  at_ref ← after_from s;
  at_colon ← after_ci BASE_IMAGE_REF at_ref;
  match at_colon with
  | String c at_tag =>
      let tag := take_word at_tag in
      let at_tail := sdrop (String.length tag) at_tag in
      let tail := take_line at_tail in
      if negb (Ascii.eqb c ":") || is_empty tag then None
      else Some (mkFrom (before s at_ref) (before at_ref at_colon) tag tail (sdrop (String.length tail) at_tail))
  | EmptyString => None
  end.

(** [FROM_LINE_RE.search]: the text before the first match, and the match. *)
Fixpoint search_from (at_line_start : bool) (s : string) : option (string * from_line) :=
  match (if at_line_start then from_line_at s else None) with
  | Some l => Some ("", l)
  | None =>
      match s with
      | String c s' => option_map (fun r => (String c (fst r), snd r)) (search_from (Ascii.eqb c newline) s')
      | EmptyString => None
      end
  end.

(** ** Upgrade: the template of [FROM_LINE_RE.sub] *)

Inductive token : Type := Plain (c : ascii) | Escaped (c : ascii).
Inductive piece : Type := Literal (s : string) | Group (n : Z).

Definition re_error {A} (m : string) : res exn A := Err (PyError "error" m).

Fixpoint template_tokens (s : string) : res exn (list token) :=
  match s with
  | EmptyString => Ok []
  | String c s' =>
      if Ascii.eqb c "\" then
        match s' with
        | EmptyString => re_error "bad escape (end of pattern)"
        | String d s'' => ts ← template_tokens s''; Ok (Escaped d :: ts)
        end
      else ts ← template_tokens s'; Ok (Plain c :: ts)
  end.

(** The text up to a [>], and the tokens after it. *)
Fixpoint until_gt (ts : list token) : option (string * list token) :=
  match ts with
  | [] => None
  | Plain c :: ts =>
      if Ascii.eqb c ">" then Some ("", ts) else option_map (fun r => (String c (fst r), snd r)) (until_gt ts)
  | Escaped c :: ts => option_map (fun r => (String "\" (String c (fst r)), snd r)) (until_gt ts)
  end.

(** The pattern has four groups, and group 0 is the match. *)
Definition group_piece (n : Z) : res exn piece :=
  if 4 <? n then re_error ("invalid group reference " +:+ str_of_Z n) else Ok (Group n).

Definition ident_start (c : ascii) : bool :=
  is_upper c || is_lower c || Ascii.eqb c "_" || existsb (Z.eqb (code c)) [170; 181; 186]
  || (in_range 192 255 c && negb (existsb (Z.eqb (code c)) [215; 247])).

(** [str.isidentifier]. *)
Definition is_identifier (s : string) : bool :=
  match s with
  | String c s' => ident_start c && all_chars (fun c => ident_start c || is_digit c || (code c =? 183)) s'
  | EmptyString => false
  end.

(** [\g<name>], after the [\g]; no group of the pattern has a name. *)
Definition named_group (ts : list token) : res exn (piece * list token) :=
  match ts with
  | Plain "<" :: ts =>
      match until_gt ts with
      | None => re_error (match ts with [] => "missing group name" | _ => "missing >, unterminated name" end)
      | Some (n, rest) =>
          if is_empty n then re_error "missing group name"
          else if all_chars is_digit n then p ← group_piece (int_of_digits n); Ok (p, rest)
          else if is_identifier n then Err (PyError "IndexError" ("unknown group name " +:+ repr_str n))
          else re_error ("bad character in group name " +:+ repr_str n)
      end
  | _ => re_error "missing <"
  end.

Definition is_octal (c : ascii) : bool := is_digit c && (digit_val c <? 8).

Definition chr (n : Z) : string := String (ascii_of_N (Z.to_N n)) "".

(** The octal digits that stand next, at most [n]. *)
Fixpoint octals (n : nat) (acc : Z) (ts : list token) : Z * list token :=
  match n, ts with
  | S n, Plain c :: rest => if is_octal c then octals n (8 * acc + digit_val c) rest else (acc, ts)
  | _, _ => (acc, ts)
  end.

(** [\c] of a digit that is not 0: a character of three octal digits, or a group of one or two digits. *)
Definition digit_escape (c : ascii) (ts : list token) : res exn (piece * list token) :=
  match ts with
  | Plain d :: ts' =>
      if negb (is_digit d) then p ← group_piece (digit_val c); Ok (p, ts)
      else
        let two := p ← group_piece (10 * digit_val c + digit_val d); Ok (p, ts') in
        match ts' with
        | Plain e :: ts'' =>
            if is_octal c && is_octal d && is_octal e then
              let n := 64 * digit_val c + 8 * digit_val d + digit_val e in
              if 255 <? n then
                re_error ("octal escape value \" +:+ String c (String d (String e " outside of range 0-0o377")))
              else Ok (Literal (chr n), ts'')
            else two
        | _ => two
        end
  | _ => p ← group_piece (digit_val c); Ok (p, ts)
  end.

Definition ESCAPES : list (string * ascii) :=
  [("a", "007"%char); ("b", "008"%char); ("f", "012"%char); ("n", "010"%char); ("r", "013"%char); ("t", "009"%char);
   ("v", "011"%char); ("\", "\"%char)].

Definition escape (c : ascii) (ts : list token) : res exn (piece * list token) :=
  if Ascii.eqb c "g" then named_group ts
  else if Ascii.eqb c "0" then let '(n, rest) := octals 2 0 ts in Ok (Literal (chr (n mod 256)), rest)
  else if is_digit c then digit_escape c ts
  else
    match assoc (String c "") ESCAPES with
    | Some x => Ok (Literal (String x ""), ts)
    | None =>
        if is_upper c || is_lower c then re_error ("bad escape \" +:+ String c "")
        else Ok (Literal (String "\" (String c "")), ts)
    end.

(** One piece of the template. *)
Definition next_piece (t : token) (ts : list token) : res exn (piece * list token) :=
  match t with Plain c => Ok (Literal (String c ""), ts) | Escaped c => escape c ts end.

(** The template; a piece takes a token at least, and [fuel] is the number of tokens. *)
Fixpoint pieces (fuel : nat) (ts : list token) : res exn (list piece) :=
  match ts, fuel with
  | [], _ => Ok []
  | t :: ts, S fuel => '(p, rest) ← next_piece t ts; ps ← pieces fuel rest; Ok (p :: ps)
  | _ :: _, O => re_error "out of fuel"
  end.

Definition parse_template (s : string) : res exn (list piece) := ts ← template_tokens s; pieces (length ts) ts.

Definition group_text (l : from_line) (n : Z) : string :=
  let whole := fl_head l +:+ fl_ref l +:+ ":" +:+ fl_tag l +:+ fl_tail l in
  nth (Z.to_nat n) [whole; fl_head l; fl_ref l; fl_tag l; fl_tail l] "".

Definition expand (l : from_line) (ps : list piece) : string :=
  join "" (map (fun p => match p with Literal s => s | Group n => group_text l n end) ps).

(** The Dockerfile after [sub], from the parts of it before. *)
Definition bumped (pre : string) (l : from_line) (to_tag : string) : res exn string :=
  ps ← parse_template ("\g<1>\g<2>:" +:+ to_tag +:+ "\g<4>"); Ok (pre +:+ expand l ps +:+ fl_rest l).

(** ** Upgrade: the command *)

(** [signal.Signals] on Linux. *)
Definition SIGNALS : list (Z * string) :=
  combine (map Z.of_nat (seq 1 31) ++ [34; 64])
    ["SIGHUP"; "SIGINT"; "SIGQUIT"; "SIGILL"; "SIGTRAP"; "SIGABRT"; "SIGBUS"; "SIGFPE"; "SIGKILL"; "SIGUSR1"; "SIGSEGV"; "SIGUSR2";
     "SIGPIPE"; "SIGALRM"; "SIGTERM"; "SIGSTKFLT"; "SIGCHLD"; "SIGCONT"; "SIGSTOP"; "SIGTSTP"; "SIGTTIN"; "SIGTTOU"; "SIGURG";
     "SIGXCPU"; "SIGXFSZ"; "SIGVTALRM"; "SIGPROF"; "SIGWINCH"; "SIGIO"; "SIGPWR"; "SIGSYS"; "SIGRTMIN"; "SIGRTMAX"].

(** [str(exc)] of a [CalledProcessError]. *)
Definition called_process_text (args : list string) (rc : Z) : string :=
  let n := str_of_Z (Z.abs rc) in
  "Command '[" +:+ join ", " (map repr_str args) +:+ "]' "
  +:+ (if 0 <=? rc then "returned non-zero exit status " +:+ n
       else match find (fun s => fst s =? - rc) SIGNALS with
            | Some (_, s) => "died with <Signals." +:+ s +:+ ": " +:+ n +:+ ">"
            | None => "died with unknown signal " +:+ n
            end) +:+ ".".

(** [a.relative_to(b)] of two resolved paths. *)
Fixpoint parts_below (base l : list string) : option (list string) :=
  match base, l with
  | [], _ => Some l
  | b :: base, x :: l => if b =s x then parts_below base l else None
  | _ :: _, [] => None
  end.

Definition relative_to (a b : string) : res exn string :=
  match (if path_root a =s path_root b then parts_below (path_parts b) (path_parts a) else None) with
  | Some rel => Ok (path_render "" rel)
  | None => Err (ValueError (repr_str a +:+ " is not in the subpath of " +:+ repr_str b))
  end.

Section Upgrade.
(** The socket of the daemon, and the directory the command is called in. *)
Context `{Env} (exchange : string -> W string) (cwd : string).

(** A git command whose failure is the command's, with what git wrote, or else the exception's text. *)
Definition git_checked (repo : string) (args : list string) : W unit :=
  '(rc, _, stderr) ← _git_unchecked repo args;
  if rc =? 0 then mret tt
  else throw (WsError ("git commit failed in " +:+ repo +:+ ": "
                         +:+ (if is_empty stderr then called_process_text (["git"; "-C"; repo] ++ args) rc else strip stderr))
                (Some ("Inspect repo state: git -C " +:+ repo +:+ " status"))).

Definition _git_commit_in (repo_path message target : string) : W unit :=
  rel ← lift (relative_to (resolve (cwd // target)) (resolve (cwd // repo_path)));
  _ ← git_checked repo_path ["add"; "--"; rel];
  git_checked repo_path ["commit"; "-m"; message].

(** The daemon destroys the desk; one that is not there is none to destroy. *)
Definition old_desk_gone (n : string) : W unit :=
  r ← call_daemon exchange "DestroyDesk" [("name", JStr n); ("force", JBool true)];
  match r with
  | inr _ => mret tt
  | inl (DaemonUnavailable _) =>
      throw (WsError "drydock daemon required for ws upgrade" (Some "Start the daemon: drydock daemon start"))
  | inl (DaemonRpcError _ message data) =>
      if message =s "desk_not_found" then mret tt else throw (_ws_error_from_daemon_error message data)
  end.

Definition desk_recreated (ws : Drydock) (n : string) (params : obj) : W obj :=
  r ← call_daemon exchange "CreateDesk" params;
  match r with
  | inr result => mret result
  | inl (DaemonUnavailable _) =>
      throw (WsError "drydock daemon went away mid-upgrade"
               (Some ("Inspect: drydock daemon status; recreate manually: ws create " +:+ project ws +:+ " " +:+ n)))
  | inl (DaemonRpcError _ message data) => throw (_ws_error_from_daemon_error message data)
  end.

(** What follows the writing of the Dockerfile. *)
Definition upgrade_steps (ws : Drydock) (n : string) (proj_cfg : option ProjectConfig) (dockerfile old_tag to_tag : string) : W obj :=
  _ ← _git_commit_in (repo_path ws) ("drydock-base: bump to " +:+ to_tag) dockerfile;
  _ ← old_desk_gone n;
  result ← desk_recreated ws n (upgrade_params ws n proj_cfg);
  mret (jmerge result [("from_tag", JStr old_tag); ("to_tag", JStr to_tag)]).

(** The text of the Dockerfile. *)
Definition dockerfile_text (ws : Drydock) (dockerfile : string) : W string :=
  found ← path_exists dockerfile;
  if negb found then
    throw (WsError ("Dockerfile not found at " +:+ dockerfile)
             (Some ("Check " +:+ project ws +:+ ".yaml repo_path/devcontainer_subpath")))
  else raw ← host_read dockerfile; mret (universal_newlines raw).

Definition unchanged (n to_tag : string) : obj := [("name", JStr n); ("tag", JStr to_tag); ("changed", JBool false)].

Definition upgrade_preview (n old_tag to_tag dockerfile : string) : obj :=
  [("dry_run", JBool true); ("name", JStr n); ("from_tag", JStr old_tag); ("to_tag", JStr to_tag); ("dockerfile", JStr dockerfile)].

Definition upgrade (dry_run : bool) (to_tag : option string) (n : string) : W obj :=
  let to_tag := default "" to_tag in
  if is_empty to_tag then throw (WsError "--to <tag> is required" (Some "ws upgrade <name> --to v1.0.7"))
  else
    ws ← desk_or n "ws list";
    proj_cfg ← load_project_config (project ws);
    dockerfile ← lift (_resolve_dockerfile_path ws proj_cfg);
    contents ← dockerfile_text ws dockerfile;
    match search_from true contents with
    | None =>
        throw (WsError ("No FROM ghcr.io/stevefan/drydock-base: line in " +:+ dockerfile)
                 (Some ("Project '" +:+ project ws +:+ "' is not on drydock-base; nothing to upgrade")))
    | Some (pre, l) =>
        if fl_tag l =s to_tag then mret (unchanged n to_tag)
        else
          new_contents ← lift (bumped pre l to_tag);
          if dry_run then mret (upgrade_preview n (fl_tag l) to_tag dockerfile)
          else
            _ ← host_write dockerfile new_contents;
            upgrade_steps ws n proj_cfg dockerfile (fl_tag l) to_tag
    end.
End Upgrade.

(** * Theorems: the upgrade moves the tag *)

(** ** The [FROM] line *)

(** The text a match stands for. *)
Definition line_text (l : from_line) : string := fl_head l +:+ fl_ref l +:+ ":" +:+ fl_tag l +:+ fl_tail l.

(** The match with another tag. *)
Definition retag (l : from_line) (to_tag : string) : from_line := mkFrom (fl_head l) (fl_ref l) to_tag (fl_tail l) (fl_rest l).

(** The text of a tag: a word without a backslash. *)
Definition tag_text (s : string) : bool := negb (is_empty s) && all_chars (fun c => negb (is_space c) && negb (Ascii.eqb c "\")) s.

Section FromLine.
Local Abbreviation colon t := (String ":" t).

Lemma before_app h r : before (h +:+ r) r = h.
Proof.
  unfold before. rewrite length_app_s.
  replace (String.length h + String.length r - String.length r)%nat with (String.length h) by lia. apply stake_app.
Qed.

Lemma prefix_colon p x t : has_char ":" p = false -> startswith (x +:+ colon t) p = startswith x p.
Proof.
  unfold startswith. revert x. induction p as [|d p IH]; intros x Hp; [by destruct x|].
  unfold has_char in Hp. cbn [any_char] in Hp. apply orb_false_iff in Hp as [Hd Hp].
  destruct x as [|c x]; cbn [String.append].
  - rewrite prefix_cons. by rewrite Ascii.eqb_sym, Hd.
  - rewrite !prefix_cons. by rewrite IH.
Qed.

Lemma lower_app x y : lower (x +:+ y) = lower x +:+ lower y.
Proof. unfold lower. induction x as [|c x IH]; cbn; [done|]. by rewrite IH. Qed.

Lemma sdrop_le n x y : (n <= String.length x)%nat -> sdrop n (x +:+ y) = sdrop n x +:+ y.
Proof. revert x. induction n as [|n IH]; intros [|c x] Hn; cbn in *; try done; [lia|]. apply IH. lia. Qed.

Lemma length_lower x : String.length (lower x) = String.length x.
Proof. unfold lower. induction x as [|c x IH]; cbn; [done|]. by rewrite IH. Qed.

Lemma after_ci_colon p x t : has_char ":" p = false ->
  after_ci p (x +:+ colon t) = option_map (fun r => r +:+ colon t) (after_ci p x).
Proof.
  intros Hp. unfold after_ci. rewrite lower_app. change (lower (colon t)) with (colon (lower t)). rewrite prefix_colon by done.
  destruct (startswith (lower x) p) eqn:E; [|done]. cbn [option_map]. f_equal. apply sdrop_le.
  apply startswith_spec in E as [r E]. pose proof (length_lower x) as Hl. rewrite E, length_app_s in Hl. lia.
Qed.

Lemma lstrip_colon x t : lstrip_by is_space (x +:+ colon t) = lstrip_by is_space x +:+ colon t.
Proof. induction x as [|c x IH]; cbn [String.append lstrip_by]; [done|]. by destruct (is_space c). Qed.

Lemma after_blanks_colon x t : after_blanks (x +:+ colon t) = option_map (fun r => r +:+ colon t) (after_blanks x).
Proof.
  destruct x as [|c x]; [done|]. cbn [String.append after_blanks]. destruct (is_space c); [|done].
  cbn [option_map]. f_equal. exact (lstrip_colon (String c x) t).
Qed.

Lemma after_from_colon x t : after_from (x +:+ colon t) = option_map (fun r => r +:+ colon t) (after_from x).
Proof.
  unfold after_from. rewrite lstrip_colon, after_ci_colon by done.
  destruct (after_ci "from" _); cbn; [apply after_blanks_colon|done].
Qed.

(** What is left is an end of the text. *)
Definition shortens (f : string -> option string) : Prop := forall s r, f s = Some r -> exists h, s = h +:+ r.

Lemma after_ci_end p : shortens (after_ci p).
Proof.
  intros s r. unfold after_ci. destruct (startswith _ _); [|done]. intros [= <-]. exists (stake (String.length p) s).
  by rewrite stake_sdrop.
Qed.

Lemma lstrip_end s : exists h, s = h +:+ lstrip_by is_space s.
Proof.
  induction s as [|c s [h IH]]; [by exists ""|]. cbn [lstrip_by]. destruct (is_space c); [|by exists ""].
  exists (String c h). cbn. by rewrite <- IH.
Qed.

Lemma after_from_end : shortens after_from.
Proof.
  intros s r. unfold after_from. destruct (lstrip_end s) as [a Ha]. destruct (after_ci "from" _) as [x|] eqn:E; [|done]. cbn.
  apply after_ci_end in E as [b Eb]. unfold after_blanks. destruct x as [|c x]; [done|]. destruct (is_space c); [|done].
  intros [= <-]. destruct (lstrip_end (String c x)) as [d Hd]. exists (a +:+ b +:+ d). rewrite Ha at 1. rewrite Eb, Hd at 1.
  by rewrite !app_assoc_s.
Qed.

Lemma take_word_end s : s = take_word s +:+ sdrop (String.length (take_word s)) s.
Proof. induction s as [|c s IH]; [done|]. cbn [take_word]. destruct (is_space c); [done|]. cbn. by rewrite <- IH. Qed.

Lemma take_line_end s : s = take_line s +:+ sdrop (String.length (take_line s)) s.
Proof. induction s as [|c s IH]; [done|]. cbn [take_line]. destruct (Ascii.eqb c newline); [done|]. cbn. by rewrite <- IH. Qed.

Lemma take_word_chars s : all_chars (fun c => negb (is_space c)) (take_word s) = true.
Proof. induction s as [|c s IH]; [done|]. cbn [take_word]. destruct (is_space c) eqn:E; [done|]. cbn. by rewrite E. Qed.

Lemma take_word_app x y : all_chars (fun c => negb (is_space c)) x = true -> take_word (x +:+ y) = x +:+ take_word y.
Proof.
  induction x as [|c x IH]; [done|]. cbn [all_chars]. intros [Hc Hx]%andb_true_iff. cbn [String.append take_word].
  rewrite (proj1 (negb_true_iff _) Hc). by rewrite IH.
Qed.

Lemma map_app_end o (x t : string) : option_map (fun r => r +:+ t) o = Some (x +:+ t) -> o = Some x.
Proof.
  destruct o as [r|]; [|done]. cbn. intros [= E%(f_equal (drop_last (String.length t)))]. by rewrite !drop_last_app in E; subst.
Qed.

(** The match, by its parts. *)
Definition matches (l : from_line) : Prop :=
  after_from (fl_head l +:+ fl_ref l) = Some (fl_ref l) /\ after_ci BASE_IMAGE_REF (fl_ref l) = Some ""
  /\ fl_tag l <> "" /\ take_word (fl_tag l +:+ fl_tail l +:+ fl_rest l) = fl_tag l
  /\ take_line (fl_tail l +:+ fl_rest l) = fl_tail l.

Lemma after_from_at l t : matches l -> after_from (fl_head l +:+ fl_ref l +:+ colon t) = Some (fl_ref l +:+ colon t).
Proof. intros (H1 & _). by rewrite <- app_assoc_s, after_from_colon, H1. Qed.

Lemma from_line_at_spec s l : from_line_at s = Some l <-> s = line_text l +:+ fl_rest l /\ matches l.
Proof.
  split.
  - unfold from_line_at. destruct (after_from s) as [at_ref|] eqn:E1; [|done]. cbn.
    destruct (after_ci BASE_IMAGE_REF at_ref) as [[|c at_tag]|] eqn:E2; [done| |done]. cbn.
    destruct (Ascii.eqb_spec c ":") as [->|]; [|done]. cbn [negb orb]. destruct (is_empty (take_word at_tag)) eqn:E3; [done|].
    destruct (after_from_end _ _ E1) as [h ->]. destruct (after_ci_end _ _ _ E2) as [r ->].
    rewrite !before_app. intros [= <-]. unfold line_text, matches. cbn [fl_head fl_ref fl_tag fl_tail fl_rest].
    rewrite <- app_assoc_s, after_from_colon in E1. rewrite after_ci_colon in E2 by done. rewrite !app_assoc_s. cbn [String.append].
    rewrite <- take_line_end, <- take_word_end. split_and!; try done.
    + by apply map_app_end in E1.
    + by apply (map_app_end _ "") in E2.
    + by destruct (take_word at_tag).
  - intros [-> Hm]. pose proof Hm as (_ & H2 & H3 & H4 & H5). unfold line_text, from_line_at. rewrite !app_assoc_s.
    change (":" +:+ ?t) with (colon t). rewrite after_from_at by done. cbn. rewrite after_ci_colon, H2 by done. cbn. rewrite H4.
    destruct (is_empty (fl_tag l)) eqn:E; [by destruct (fl_tag l)|]. cbn. rewrite sdrop_app, H5, sdrop_app, !before_app. by destruct l.
Qed.

(** Whether the pattern matches depends on the text before a colon, and on that a word begins there. *)
Lemma from_line_at_colon x t :
  is_some (from_line_at (x +:+ colon t)) =
  match after_from x with
  | Some a =>
      match after_ci BASE_IMAGE_REF a with
      | Some "" => negb (is_empty (take_word t))
      | Some (String c r) => Ascii.eqb c ":" && negb (is_empty (take_word (r +:+ colon t)))
      | None => false
      end
  | None => false
  end.
Proof.
  unfold from_line_at. rewrite after_from_colon. destruct (after_from x) as [a|]; [|done]. cbn. rewrite after_ci_colon by done.
  destruct (after_ci BASE_IMAGE_REF a) as [[|c r]|]; [| |done]; cbn.
  - by destruct (is_empty (take_word t)).
  - destruct (Ascii.eqb c ":"); [|done]. by destruct (is_empty (take_word (r +:+ colon t))).
Qed.

Lemma no_match_before x t t' : is_empty (take_word t) = is_empty (take_word t') ->
  from_line_at (x +:+ colon t) = None -> from_line_at (x +:+ colon t') = None.
Proof.
  intros Ht Hn. assert (is_some (from_line_at (x +:+ colon t)) = false) as H by by rewrite Hn. rewrite from_line_at_colon in H.
  enough (is_some (from_line_at (x +:+ colon t')) = false) as Hs by by destruct (from_line_at (x +:+ colon t')).
  rewrite from_line_at_colon. etransitivity; [|exact H]. destruct (after_from x) as [a|]; [|done]. destruct (after_ci _ a) as [[|c r]|]; [by rewrite Ht| |done].
  destruct r as [|d r]; [done|]. cbn. by destruct (is_space d).
Qed.

Lemma search_from_eq b s :
  search_from b s = match (if b then from_line_at s else None) with
                    | Some l => Some ("", l)
                    | None => match s with
                              | String c s' => option_map (fun r => (String c (fst r), snd r)) (search_from (Ascii.eqb c newline) s')
                              | EmptyString => None
                              end
                    end.
Proof. by destruct s. Qed.

(** The search finds the match after the text before it. *)
Lemma search_from_spec s : forall b pre l, search_from b s = Some (pre, l) -> s = pre +:+ line_text l +:+ fl_rest l /\ matches l.
Proof.
  induction s as [|c s IH]; intros b pre l; rewrite search_from_eq.
  - by destruct b.
  - destruct (if b then _ else _) as [l'|] eqn:E.
    + intros [= <- <-]. destruct b; [|done]. by apply from_line_at_spec.
    + destruct (search_from _ s) as [[pre' l']|] eqn:Es; [|done]. intros [= <- <-]. destruct (IH _ _ _ Es) as [-> Hm]. done.
Qed.

Lemma tag_text_word s : tag_text s = true -> all_chars (fun c => negb (is_space c)) s = true.
Proof. intros [_ Hs]%andb_true_iff. revert Hs. apply all_chars_impl. by intros c [Hc _]%andb_true_iff. Qed.

Lemma matches_retag l t : matches l -> tag_text t = true -> matches (retag l t).
Proof.
  intros (H1 & H2 & H3 & H4 & H5) Ht. split_and!; [done|done|by intros E; cbn in E; subst t| |done]. cbn.
  rewrite take_word_app by by apply tag_text_word. pose proof (take_word_chars (fl_tag l +:+ fl_tail l +:+ fl_rest l)) as Hw.
  rewrite H4 in Hw. rewrite take_word_app in H4 by done. rewrite <- (app_nil_r_s (fl_tag l)) in H4 at 2.
  apply app_inj_l_s in H4. by rewrite H4, app_nil_r_s.
Qed.

Lemma word_begins l : matches l -> is_empty (take_word (fl_tag l +:+ fl_tail l +:+ fl_rest l)) = false.
Proof. intros (_ & _ & H3 & H4 & _). rewrite H4. by destruct (fl_tag l). Qed.

(** With another tag the search finds the same line. *)
Lemma search_from_retag t s : tag_text t = true -> forall b pre l, search_from b s = Some (pre, l) ->
  search_from b (pre +:+ line_text (retag l t) +:+ fl_rest l) = Some (pre, retag l t).
Proof.
  intros Ht. induction s as [|c s IH]; intros b pre l E; rewrite search_from_eq in E.
  - by destruct b.
  - destruct (if b then _ else _) as [l'|] eqn:E'.
    + injection E as <- <-. destruct b; [|done]. apply from_line_at_spec in E' as [_ Hm]. rewrite search_from_eq. cbn [String.append].
      rewrite (proj2 (from_line_at_spec _ (retag l' t))); [done|]. split; [done|]. by apply matches_retag.
    + destruct (search_from _ s) as [[pre' l']|] eqn:Es; [|done]. injection E as <- <-. cbn [fst snd].
      rewrite search_from_eq. cbn [String.append]. rewrite (IH _ _ _ Es).
      enough ((if b then from_line_at (String c (pre' +:+ line_text (retag l' t) +:+ fl_rest l')) else None) = None) as -> by done.
      destruct b; [|done]. destruct (search_from_spec _ _ _ _ Es) as [-> Hm]. unfold line_text in *. rewrite !app_assoc_s in *.
      cbn [retag fl_head fl_ref fl_tag fl_tail fl_rest] in *.
      assert (forall u, String c (pre' +:+ fl_head l' +:+ fl_ref l' +:+ ":" +:+ u)
                        = (String c (pre' +:+ fl_head l' +:+ fl_ref l')) +:+ colon u) as Ha by (intros u; cbn; by rewrite !app_assoc_s).
      rewrite Ha in *. revert E'. apply no_match_before. rewrite word_begins by done.
      symmetry. exact (word_begins _ (matches_retag _ _ Hm Ht)).
Qed.
End FromLine.

(** ** Line ends *)

Definition no_cr (s : string) : bool := all_chars (fun c => negb (Ascii.eqb c "013")) s.

Lemma universal_newlines_id s : no_cr s = true -> universal_newlines s = s.
Proof.
  unfold no_cr. induction s as [|c s IH]; [done|]. cbn. destruct (Ascii.eqb c "013"); [done|]. cbn. intros Hs. by rewrite IH.
Qed.

Lemma universal_newlines_no_cr s : no_cr (universal_newlines s) = true.
Proof.
  enough (forall n s, (String.length s <= n)%nat -> no_cr (universal_newlines s) = true) as H by by apply (H (String.length s)).
  clear s. unfold no_cr. induction n as [|n IH]; intros [|c s] Hn; cbn in Hn; try done; [lia|]. cbn [universal_newlines].
  destruct (Ascii.eqb c "013") eqn:E; cbn [all_chars]; [|rewrite E; apply IH; lia].
  destruct s as [|d s]; [done|]. cbn in Hn. destruct (Ascii.eqb d newline); apply IH; cbn; lia.
Qed.

Lemma tag_text_no_cr t : tag_text t = true -> no_cr t = true.
Proof.
  intros [_ Ht]%andb_true_iff. revert Ht. apply all_chars_impl. intros c [Hc _]%andb_true_iff.
  destruct (Ascii.eqb_spec c "013") as [->|]; [by vm_compute in Hc|done].
Qed.

(** ** The template *)

Fixpoint chars (s : string) : list ascii := match s with EmptyString => [] | String c s' => c :: chars s' end.

Lemma template_tokens_plain a s : all_chars (fun c => negb (Ascii.eqb c "\")) a = true ->
  template_tokens (a +:+ s) = (ts ← template_tokens s; Ok (map Plain (chars a) ++ ts)).
Proof.
  induction a as [|c a IH]; cbn [all_chars]; [intros _; cbn; by destruct (template_tokens s)|]. intros [Hc Ha]%andb_true_iff.
  cbn [String.append template_tokens]. rewrite (proj1 (negb_true_iff _) Hc), IH by done. by destruct (template_tokens s).
Qed.

Lemma pieces_plain cs n ts :
  pieces (length cs + n) (map Plain cs ++ ts) = (ps ← pieces n ts; Ok (map (fun c => Literal (String c "")) cs ++ ps)).
Proof. induction cs as [|c cs IH]; cbn; [by destruct (pieces n ts)|]. rewrite IH. by destruct (pieces n ts). Qed.

(** A piece takes a token and maybe more. *)
Lemma octals_length n acc ts : (length (snd (octals n acc ts)) <= length ts)%nat.
Proof.
  revert acc ts. induction n as [|n IH]; intros acc ts; [done|]. cbn. destruct ts as [|[c|c] ts]; try done.
  destruct (is_octal c); [|done]. specialize (IH (8 * acc + digit_val c) ts). cbn in *. lia.
Qed.

Lemma until_gt_length ts n rest : until_gt ts = Some (n, rest) -> (length rest <= length ts)%nat.
Proof.
  revert n. induction ts as [|[c|c] ts IH]; intros n; cbn; [done| |].
  - destruct (Ascii.eqb c ">"); [intros [= _ <-]; lia|]. destruct (until_gt ts) as [[m r]|]; [|done]. intros [= _ <-].
    specialize (IH _ eq_refl). lia.
  - destruct (until_gt ts) as [[m r]|]; [|done]. intros [= _ <-]. specialize (IH _ eq_refl). lia.
Qed.

Lemma group_piece_then n (rest : list token) p r : (p ← group_piece n; Ok (p, rest)) = Ok (p, r) -> r = rest.
Proof. unfold group_piece. destruct (4 <? n); [done|]. cbn. by intros [=]. Qed.

Lemma named_group_length ts p rest : named_group ts = Ok (p, rest) -> (length rest <= length ts)%nat.
Proof.
  unfold named_group. destruct ts as [|[c|c] ts]; try done. destruct (Ascii.eqb c "<") eqn:E; [apply Ascii.eqb_eq in E as ->|].
  - destruct (until_gt ts) as [[n r]|] eqn:Eu; [|by destruct ts]. apply until_gt_length in Eu.
    destruct (is_empty n); [done|]. destruct (all_chars is_digit n); [|by destruct (is_identifier n)].
    intros Hp. apply group_piece_then in Hp as ->. cbn. lia.
  - intros Hp. exfalso. destruct c as [[] [] [] [] [] [] [] []]; done.
Qed.

Lemma digit_escape_length c ts p rest : digit_escape c ts = Ok (p, rest) -> (length rest <= length ts)%nat.
Proof.
  unfold digit_escape. destruct ts as [|[d|d] ts]; [by intros ->%group_piece_then| |by intros ->%group_piece_then].
  destruct (negb (is_digit d)); [by intros ->%group_piece_then|]. cbn [length].
  destruct ts as [|[e|e] ts]; [intros ->%group_piece_then; cbn; lia| |intros ->%group_piece_then; cbn; lia].
  destruct (_ && _); [|intros ->%group_piece_then; cbn; lia]. destruct (255 <? _); [done|]. intros [= _ <-]. cbn. lia.
Qed.

Lemma next_piece_length t ts p rest : next_piece t ts = Ok (p, rest) -> (length rest <= length ts)%nat.
Proof.
  destruct t as [c|c]; cbn [next_piece]; [by intros [= _ <-]|]. unfold escape.
  destruct (Ascii.eqb c "g"); [apply named_group_length|]. destruct (Ascii.eqb c "0").
  { pose proof (octals_length 2 0 ts) as Ho. destruct (octals 2 0 ts). by intros [= _ <-]. }
  destruct (is_digit c); [apply digit_escape_length|]. destruct (assoc _ _); [by intros [= _ <-]|].
  destruct (_ || _); [done|]. by intros [= _ <-].
Qed.

(** The fuel of [parse_template] is enough: with more the template reads the same. *)
Lemma pieces_fuel n ts : (length ts <= n)%nat -> pieces n ts = pieces (length ts) ts.
Proof.
  enough (forall k ts, (length ts <= k)%nat -> forall m n, (length ts <= m)%nat -> (length ts <= n)%nat -> pieces m ts = pieces n ts)
    as H by (intros Hn; by apply (H (length ts))).
  clear. induction k as [|k IH]; intros ts Hk m n Hm Hn; (destruct ts as [|t ts]; [by destruct m, n|]); cbn in Hk, Hm, Hn; [lia|].
  destruct m as [|m], n as [|n]; try lia. cbn [pieces]. destruct (next_piece t ts) as [[p rest]|e] eqn:E; [|done]. cbn.
  apply next_piece_length in E. by rewrite (IH rest ltac:(lia) m n ltac:(lia) ltac:(lia)).
Qed.

(** A reference to a group of the pattern. *)
Lemma pieces_group d n ts : existsb (Ascii.eqb d) ["0"%char; "1"%char; "2"%char; "3"%char; "4"%char] = true ->
  pieces (S n) (Escaped "g" :: Plain "<" :: Plain d :: Plain ">" :: ts) = (ps ← pieces n ts; Ok (Group (digit_val d) :: ps)).
Proof. cbn [existsb]. rewrite !orb_true_iff, !Ascii.eqb_eq. by intros [->|[->|[->|[->|[->|]]]]]. Qed.

Lemma parse_tag_template t : tag_text t = true ->
  parse_template ("\g<1>\g<2>:" +:+ t +:+ "\g<4>")
  = Ok ([Group 1; Group 2; Literal ":"] ++ map (fun c => Literal (String c "")) (chars t) ++ [Group 4]).
Proof.
  intros [_ Ht]%andb_true_iff. assert (all_chars (fun c => negb (Ascii.eqb c "\")) t = true) as Hb
    by (revert Ht; apply all_chars_impl; by intros c [_ Hc]%andb_true_iff).
  unfold parse_template. cbn [String.append template_tokens Ascii.eqb Bool.eqb]. rewrite template_tokens_plain by done.
  cbn -[pieces]. rewrite length_app, length_map. cbn [length].
  match goal with |- pieces ?n _ = _ => replace n with (S (S (S (length (chars t) + 10)))) by lia end. rewrite !pieces_group by done. cbn [pieces next_piece].
  cbn -[pieces digit_val]. by rewrite pieces_plain.
Qed.

Lemma join_app_empty l1 l2 : join "" (l1 ++ l2) = join "" l1 +:+ join "" l2.
Proof.
  assert (forall x l, join "" (x :: l) = x +:+ join "" l) as Hc by (intros x [|y l]; cbn; [by rewrite app_nil_r_s|done]).
  induction l1 as [|x l1 IH]; [done|]. cbn [app]. by rewrite !Hc, IH, app_assoc_s.
Qed.

Lemma join_chars s : join "" (map (fun c => String c "") (chars s)) = s.
Proof. induction s as [|c s IH]; [done|]. cbn [chars map]. exact (eq_trans (join_app_empty [String c ""] _) (f_equal (String c) IH)). Qed.

(** With the text of a tag the template gives the line with that tag. *)
Lemma bumped_tag_text pre l t : tag_text t = true -> bumped pre l t = Ok (pre +:+ line_text (retag l t) +:+ fl_rest l).
Proof.
  intros Ht. unfold bumped. rewrite parse_tag_template by done. cbn [mbind res_bind]. unfold expand.
  rewrite !map_app, !map_map, !join_app_empty, join_chars. unfold line_text. cbn -[Z.to_nat].
  change (Z.to_nat 1) with 1%nat. change (Z.to_nat 2) with 2%nat. change (Z.to_nat 4) with 4%nat. cbn.
  by rewrite !app_assoc_s; cbn; rewrite !app_assoc_s.
Qed.

(** ** The command *)

Section UpgradeFacts.
Context `{Env} (exchange : string -> W string) (cwd : string).

Lemma no_cr_app a b : no_cr (a +:+ b) = no_cr a && no_cr b.
Proof. apply all_chars_app. Qed.

Lemma no_cr_retag pre l t : tag_text t = true -> no_cr (pre +:+ line_text l +:+ fl_rest l) = true ->
  no_cr (pre +:+ line_text (retag l t) +:+ fl_rest l) = true.
Proof.
  intros Ht%tag_text_no_cr. unfold line_text. cbn [retag fl_head fl_ref fl_tag fl_tail]. rewrite !no_cr_app, Ht.
  destruct (no_cr pre), (no_cr (fl_head l)), (no_cr (fl_ref l)), (no_cr ":"), (no_cr (fl_tail l)); cbn; try done.
  all: by destruct (no_cr (fl_tag l)).
Qed.

(** What [upgrade] reads before it looks at the Dockerfile. *)
Definition reads_dockerfile (ws : Drydock) (n : string) (proj_cfg : option ProjectConfig) (dockerfile raw : string) (w w1 : world) : Prop :=
  get_drydock n (w_db w) = Some ws /\ load_project_config (project ws) w = (Ok proj_cfg, w1)
  /\ _resolve_dockerfile_path ws proj_cfg = Ok dockerfile /\ w_host w1 !! dockerfile = Some (NFile raw)
  /\ fs_fault (w_fsops w1) = None.

(** The world after a file operation that does not fail. *)
Definition op_done (w : world) : world :=
  mkWorld (w_db w) (w_files w) (w_host w) (w_audit w) (w_calls w) (w_ticks w) (w_uuids w) (S (w_fsops w)).

Lemma dockerfile_text_eq ws dockerfile raw w : w_host w !! dockerfile = Some (NFile raw) -> fs_fault (w_fsops w) = None ->
  dockerfile_text ws dockerfile w = (Ok (universal_newlines raw), op_done w).
Proof.
  intros Hd Hf. unfold dockerfile_text, path_exists. rewrite gets_bind, Hd. cbn [is_some negb].
  unfold host_read, fs_op, mbind, M_bind. rewrite Hf. unfold host_at, gets. cbn. by rewrite Hd.
Qed.

Lemma upgrade_reads dry to n ws proj_cfg dockerfile raw w w1 : to <> "" -> reads_dockerfile ws n proj_cfg dockerfile raw w w1 ->
  upgrade exchange cwd dry (Some to) n w =
  match search_from true (universal_newlines raw) with
  | None =>
      throw (WsError ("No FROM ghcr.io/stevefan/drydock-base: line in " +:+ dockerfile)
               (Some ("Project '" +:+ project ws +:+ "' is not on drydock-base; nothing to upgrade")))
  | Some (pre, l) =>
      if fl_tag l =s to then mret (unchanged n to)
      else
        new_contents ← lift (bumped pre l to);
        if dry then mret (upgrade_preview n (fl_tag l) to dockerfile)
        else
          _ ← host_write dockerfile new_contents;
          upgrade_steps exchange cwd ws n proj_cfg dockerfile (fl_tag l) to
  end (op_done w1).
Proof.
  intros Hto (Hn & Hp & Hd & Hh & Hf). unfold upgrade. cbv zeta. change (default "" (Some to)) with to. destruct (is_empty to) eqn:E; [by destruct to|].
  assert (desk_or n "ws list" w = (Ok ws, w)) as E1 by (unfold desk_or, reg_get; rewrite gets_bind; by rewrite Hn).
  rewrite (bind_ok _ _ _ _ _ E1), (bind_ok _ _ _ _ _ Hp), Hd, lift_bind.
  by rewrite (bind_ok _ _ _ _ _ (dockerfile_text_eq ws _ _ _ Hh Hf)).
Qed.

Lemma host_write_file p old data w : w_host w !! p = Some (NFile old) -> fs_fault (w_fsops w) = None ->
  host_write p data w = (Ok tt, set_host (<[p := NFile data]> (w_host w)) (op_done w)).
Proof. intros Hp Hf. unfold host_write, fs_op, mbind, M_bind. rewrite Hf. unfold host_at, gets. cbn. by rewrite Hp. Qed.

(** C28: Upgrading a desk whose Dockerfile names the base image with another tag writes the same text with the new tag in
    the first such line, and nothing else is changed in it but line ends; the steps that follow (commit, destruction,
    creation) start from the world where only the Dockerfile differs; a dry run writes nothing. And once the
    Dockerfile holds that text, whatever became of those steps, the command says that the desk is on the tag
    and takes none of them. The claim is for a new tag that is not empty and has neither white space nor a backslash, which
    [re.sub] would read as an escape ([backslash_ends_the_line]), and for a registry, a project file and a Dockerfile that
    can be read and a Dockerfile that can be written. *)
Theorem upgrade_moves_the_tag ws n proj_cfg dockerfile raw w w1 pre l to :
  reads_dockerfile ws n proj_cfg dockerfile raw w w1 -> fs_fault (S (w_fsops w1)) = None -> tag_text to = true ->
  search_from true (universal_newlines raw) = Some (pre, l) -> fl_tag l <> to ->
  let text := pre +:+ line_text (retag l to) +:+ fl_rest l in
  universal_newlines raw = pre +:+ line_text l +:+ fl_rest l
  /\ upgrade exchange cwd false (Some to) n w
     = upgrade_steps exchange cwd ws n proj_cfg dockerfile (fl_tag l) to
         (set_host (<[dockerfile := NFile text]> (w_host w1)) (op_done (op_done w1)))
  /\ upgrade exchange cwd true (Some to) n w = (Ok (upgrade_preview n (fl_tag l) to dockerfile), op_done w1)
  /\ forall dry ws' proj_cfg' w' w1', reads_dockerfile ws' n proj_cfg' dockerfile text w' w1' ->
       upgrade exchange cwd dry (Some to) n w' = (Ok (unchanged n to), op_done w1').
Proof.
  intros Hr Hf Ht Hs Hto text. assert (to <> "") as Hne by (intros ->; done).
  pose proof (search_from_spec _ _ _ _ Hs) as [Etext Hm]. pose proof Hr as (_ & _ & _ & Hh & _).
  split; [done|]. rewrite !(upgrade_reads _ _ _ _ _ _ _ _ _ Hne Hr), Hs, (proj2 (String.eqb_neq _ _) Hto), bumped_tag_text by done.
  rewrite !lift_bind. split_and!; [|done|].
  - unfold mbind, M_bind at 1. by rewrite (host_write_file _ raw).
  - intros dry ws' proj_cfg' w' w1' Hr'. rewrite (upgrade_reads _ _ _ _ _ _ _ _ _ Hne Hr'), universal_newlines_id.
    + unfold text. rewrite (search_from_retag to _ Ht _ _ _ Hs). cbn. by rewrite String.eqb_refl.
    + apply no_cr_retag; [done|]. rewrite <- Etext. apply universal_newlines_no_cr.
Qed.
End UpgradeFacts.

(** ** A failed commit *)

Section FailedCommit.
(** Git cannot commit. *)
#[local] Instance locked_env : Env :=
  let E := demo_env in
  {| clock := clock; clock_ok := clock_ok; uuid_hex := uuid_hex; token_bytes := token_bytes; token_bytes_len := token_bytes_len;
     sha256 := sha256; subprocess_run := fun _ c => if existsb (String.eqb "commit") (argv c) then Ran 128 "" "fatal: index.lock exists" else Ran 0 "" "";
     run_host := run_host; which := which; env_float_repr := env_float_repr;
     json_loads := json_loads; json_dumps := json_dumps; json_dumps_indent := json_dumps_indent; yaml_load := yaml_load;
     yaml_dump := yaml_dump; fs_fault := fs_fault; audit_fault := audit_fault; is_root := is_root; secrets_root := secrets_root; home := home;
     environ := environ |}.

Definition old_dockerfile : string :=
  join (String newline "") ["# a desk"; "FROM ghcr.io/stevefan/drydock-base:v1 AS base"; "RUN true"; ""].
Definition new_dockerfile : string :=
  join (String newline "") ["# a desk"; "FROM ghcr.io/stevefan/drydock-base:v2 AS base"; "RUN true"; ""].

Definition outdated_world : world :=
  set_host {[ "/r/.devcontainer/Dockerfile" := NFile old_dockerfile ]}
    (set_db (set_drydocks [new_dock_row (mkDrydock "web" "p" "/r" "dock_web" "/w" "main" "HEAD" "running" "c1" "" "" "" "" "" (JObj [])
                                           "" None (JObj []))] empty_db) empty_world).

Abbreviation upgrade_web := (upgrade (fun _ => mret "") "/home/u" false (Some "v2") "web").
Abbreviation half_upgraded := (snd (upgrade_web outdated_world)).

(** The commit fails and the desk still runs the old image; the Dockerfile has the new tag, and the command given again says
    that the desk is on it. *)
Lemma upgrade_moves_the_tag_witness :
  match fst (upgrade_web outdated_world) with
  | Err (WsError m _) => m = "git commit failed in /r: fatal: index.lock exists" | _ => False end
  /\ w_host half_upgraded !! "/r/.devcontainer/Dockerfile" = Some (NFile new_dockerfile)
  /\ fst (upgrade_web half_upgraded) = Ok (unchanged "web" "v2").
Proof.
  split; [vm_compute; reflexivity|]. split; [vm_compute; reflexivity|].
  set (ws := mkDrydock "web" "p" "/r" "dock_web" "/w" "main" "HEAD" "running" "c1" "" "" "" "" "" (JObj []) "" None (JObj [])).
  assert (reads_dockerfile ws "web" None "/r/.devcontainer/Dockerfile" old_dockerfile outdated_world outdated_world) as H1
    by (split_and!; vm_compute; reflexivity).
  assert (reads_dockerfile ws "web" None "/r/.devcontainer/Dockerfile" new_dockerfile half_upgraded half_upgraded) as H2
    by (split_and!; vm_compute; reflexivity).
  assert (exists pre l, search_from true (universal_newlines old_dockerfile) = Some (pre, l) /\ fl_tag l = "v1"
    /\ pre +:+ line_text (retag l "v2") +:+ fl_rest l = new_dockerfile) as (pre & l & Es & Et & Ex)
    by (do 2 eexists; split_and!; vm_compute; reflexivity).
  destruct (upgrade_moves_the_tag (fun _ => mret "") "/home/u" ws "web" None "/r/.devcontainer/Dockerfile" old_dockerfile
              outdated_world outdated_world pre l "v2" H1 eq_refl eq_refl Es) as (_ & _ & _ & Hagain); [by rewrite Et|].
  rewrite Ex in Hagain. by rewrite (Hagain false ws None half_upgraded half_upgraded H2).
Defined.
End FailedCommit.

(** A tag that ends in a backslash takes the reference to the rest of the line with it. *)
Example backslash_ends_the_line :
  bumped "" (mkFrom "FROM " BASE_IMAGE_REF "v1" " AS base" "") "v2\" = Ok ("FROM ghcr.io/stevefan/drydock-base:v2\g<4>")
  /\ bumped "" (mkFrom "FROM " BASE_IMAGE_REF "v1" " AS base" "") "\3-2" = Ok ("FROM ghcr.io/stevefan/drydock-base:v1-2 AS base")
  /\ bumped "" (mkFrom "FROM " BASE_IMAGE_REF "v1" " AS base" "") "\q" = re_error "bad escape \q".
Proof. vm_compute. by split_and!. Qed.
