(* ===== verification/CliAuditor.v ===== *)
(** [cli/auditor.py] and [cli/new.py]: the snapshots and logs of the auditor, the tick and the loop from the command
    line, who becomes the auditor, and the files of a new project. A command's result is what it prints; an error it
    prints is a [WsError], whose context repeats its text and is left out. *)

From S2P Require Import Prelude PyStr PyVal Datetime Registry World Overlay Container ProjectConfig Snapshot RoleValidator Measure Watch Deep CliAdmin.
From Stdlib Require Import List.

Definition no_snapshots {X} (fix_hint : string) : W X := throw (WsError "No snapshots stored" (Some fix_hint)).

(** ** Snapshots *)

Section Snapshots.
(** What [platform.node()] says. *)
Context `{Env} (node : string).

Definition auditor_snapshot (no_write : bool) : W obj :=
  snap ← snapshot_harbor node;
  let payload := snapshot_to_dict snap in
  if no_write then mret payload
  else path ← write_snapshot snap; mret (jset "_persisted_to" (JStr path) payload).

Definition auditor_list (limit : Z) : W obj :=
  snaps ← list_snapshots;
  let shown := last_of (Some limit) snaps in
  mret [("snapshot_dir", JStr snapshot_dir); ("total", JInt (Z.of_nat (length snaps)));
        ("shown", JInt (Z.of_nat (length shown))); ("snapshots", JList (map (fun p => JStr (path_name p)) shown))].

Definition auditor_show (which : string) : W json :=
  if which =s "latest" then
    payload ← latest_snapshot;
    match payload with JNull => no_snapshots "Run `ws auditor snapshot` to take one" | v => mret v end
  else
    let path := snapshot_dir // which in
    found ← path_exists path;
    if negb found then
      throw (WsError ("Snapshot " +:+ which +:+ " not found") (Some "Check `ws auditor list` for available snapshots"))
    else read_snapshot path.

(** [d["name"] == dock]. *)
Definition named_dock (dock : string) (d : json) : res exn bool := v ← item "name" d; Ok (py_eq v (JStr dock)).

Fixpoint docks_named (dock : string) (l : list json) : res exn (list json) :=
  match l with
  | [] => Ok []
  | d :: l => found ← named_dock dock d; ds ← docks_named dock l; Ok (if found : bool then d :: ds else ds)
  end.

(** [payload["_snapshot_at"] = snap["snapshot_at"]]. *)
Definition dated (snapshot_at : json) (payload : json) : res exn obj :=
  match payload with
  | JObj o => Ok (jset "_snapshot_at" snapshot_at o)
  | v => Err (PyError "TypeError" ("'" +:+ type_name v +:+ "' object does not support item assignment"))
  end.

Definition auditor_metrics (dock : string) : W obj :=
  snap ← latest_snapshot;
  match snap with
  | JNull => no_snapshots "Run `ws auditor snapshot` to take one first"
  | JObj o =>
      docks ← lift (as_list (jget_default "drydocks" (JList []) o));
      matches ← lift (docks_named dock docks);
      match matches with
      | [] =>
          at_ ← lift (item "snapshot_at" snap);
          throw (WsError ("Dock '" +:+ dock +:+ "' not found in latest snapshot (" +:+ py_str at_ +:+ ")")
                   (Some "Check `ws list` for valid dock names"))
      | d :: _ => at_ ← lift (item "snapshot_at" snap); lift (dated at_ d)
      end
  | v => lift (attr_error v "get")
  end.

Definition auditor_prune (keep : Z) : W obj :=
  if keep <? 0 then
    throw (WsError "--keep must be >= 0" (Some "Use --keep 0 to remove all, --keep 50 to retain the most recent 50"))
  else
    removed ← prune_snapshots keep;
    left ← list_snapshots;
    mret [("removed", JInt removed); ("kept", JInt (Z.of_nat (length left)))].
End Snapshots.

(** ** The tick, the loop and their logs *)

Definition log_payload (key : string) (items : list json) : obj :=
  [("count", JInt (Z.of_nat (length items))); (key, JList items)].

Definition auditor_watch_log (limit : Z) : A obj := items ← read_watch_log (Some limit); mret (log_payload "verdicts" items).
Definition auditor_deep_log (limit : Z) : A obj := items ← read_deep_log (Some limit); mret (log_payload "deep_analyses" items).

Section Watching.
Context `{Env} (decode_message : string -> string) (canonical : json -> string) (prompts_dir node : string)
  (anthropic telegram_api : list json -> json -> http_outcome) (daemon_socket : list json -> json -> bool)
  (local : datetime -> Z) (stop : Z -> bool * bool).

Definition auditor_watch_once (no_log no_snapshot : bool) : A obj :=
  verdict ← watch_once decode_message canonical prompts_dir node anthropic
              (mkOptions (negb no_log) (negb no_snapshot) true true) DEFAULT_WATCH_MODEL;
  mret (verdict_to_dict verdict).

(** [None]: the loop has not ended after that many steps. *)
Definition auditor_watch_loop (fuel : nat) (max_iterations : option Z) : A (option DaemonStats) :=
  run_auditor decode_message canonical prompts_dir node anthropic telegram_api daemon_socket local stop fuel max_iterations.
End Watching.

(** ** The designation *)

Section Designate.
Context `{Env}.

(** [shutil.copy2] of one secret onto another, with its mode. *)
Definition copy_secret (desk src dst : string) : W unit :=
  data ← read_text desk src;
  _ ← write_bytes desk dst data;
  _ ← fs_op;
  f ← gets (fun w => w_files w !! (desk, src));
  match f with
  | Some f => modify (fun w => set_files (alter (fun g => mkFile (sf_data g) (sf_ro f)) (desk, dst) (w_files w)) w)
  | None => mret tt
  end.

(** [try: ... except OSError: pass]. *)
Definition despite (m : W unit) : W unit := catch m (fun e => if is_os_error e then mret tt else throw e).

Definition violation_lines (vs : list Violation) : string :=
  join (String "010" "") (map (fun v => "  - [" +:+ v_code v +:+ "] " +:+ v_message v) vs).

(** What the project's file must be before the scope is given. *)
Definition auditor_gate (prj : string) : W unit :=
  cfg ← load_project_config prj;
  match cfg with
  | None =>
      throw (WsError ("project_yaml_missing: no project YAML found for project " +:+ repr_str prj)
               (Some ("Create ~/.drydock/projects/" +:+ prj +:+ ".yaml with `role: auditor` and the constraints checked by "
                      +:+ "role_validator (narrow egress, resource caps, approved image, etc.).")))
  | Some cfg =>
      if negb (pc_role cfg =s "auditor") then
        throw (WsError ("role_not_auditor: project " +:+ repr_str prj +:+ " declares role=" +:+ repr_str (pc_role cfg)
                        +:+ ", not 'auditor'")
                 (Some ("Add `role: auditor` to the project YAML, plus the narrow-egress + resource-cap constraints required "
                        +:+ "by the role validator. See docs/design/port-auditor.md.")))
      else
        result ← lift (validate_auditor_role cfg);
        if RoleValidator.ok result then mret tt
        else throw (WsError ("auditor_role_violations: project " +:+ repr_str prj
                             +:+ " declares role: auditor but fails the role validator ("
                             +:+ str_of_Z (Z.of_nat (length (violations result))) +:+ " violation(s))")
                      (Some (violation_lines (violations result))))
  end.

(** The token under the name by which a container knows that it is the auditor's. *)
Definition mirror_token (desk : string) : W unit :=
  there ← gets (fun w => is_some (w_files w !! (desk, "drydock-token")));
  if there : bool then despite (_ ← copy_secret desk "drydock-token" "auditor-token"; chmod_ro desk "auditor-token")
  else mret tt.

Definition designated (ws : Drydock) (changed : bool) : obj :=
  [("drydock_id", JStr (id ws)); ("drydock_name", JStr (name ws)); ("designated", JBool changed);
   ("scope_after", JStr "auditor"); ("execution_mode", JStr "dry-run (default)");
   ("note", JStr ("Bucket-2 RPCs validate scope + audit the call but don't yet execute the underlying primitive. Flip "
                  +:+ "AUDITOR_LIVE_ACTIONS=1 in the daemon env to enable."))].

Definition scope_revoked (ws : Drydock) (changed : bool) : obj :=
  [("drydock_id", JStr (id ws)); ("drydock_name", JStr (name ws)); ("revoked", JBool changed); ("scope_after", JStr "dock")].

(** The [ValueError] of the registry. *)
Definition designate_or (desk : string) : W bool :=
  catch (reg (designate_auditor desk))
    (fun e => match e with ValueError m => throw (WsError m (Some "")) | e => throw e end).

Definition auditor_designate (drydock_name : string) (revoke : bool) : W obj :=
  ws ← reg_get (get_drydock drydock_name);
  match ws with
  | None => throw (WsError ("drydock_not_found: " +:+ repr_str drydock_name)
                     (Some "Use `drydock list` to see registered drydocks."))
  | Some ws =>
      token_info ← reg_get (get_token_info (id ws));
      match token_info with
      | None =>
          throw (WsError ("no_token_issued: drydock '" +:+ drydock_name +:+ "' has no bearer token")
                   (Some ("The token is issued at create-time. Recreate the drydock via `drydock destroy --force` then "
                          +:+ "`drydock create` if this is a legacy desk.")))
      | Some _ =>
          if revoke then
            changed ← reg (revoke_auditor_scope (id ws));
            _ ← despite (unlink (id ws) "auditor-token");
            mret (scope_revoked ws changed)
          else
            _ ← auditor_gate (project ws);
            changed ← designate_or (id ws);
            _ ← mirror_token (id ws);
            mret (designated ws changed)
      end
  end.
End Designate.

(** ** A new project *)

Definition WORKER_TEMPLATE_PACKAGE : string := "drydock.templates.devcontainer_drydock".
Definition WORKER_TEMPLATE_FILES : list string := ["Dockerfile"; "devcontainer.json"].
Definition WORKER_DEFAULT_BASE_TAG : string := "v1.0.7".
Definition AUDITOR_TEMPLATE_PACKAGE : string := "drydock.templates.port_auditor".
Definition AUDITOR_TEMPLATE_FILES : list string := ["devcontainer.json"; "Dockerfile.example"].
Definition AUDITOR_DEFAULT_BASE_TAG : string := "v0.1.3".
Definition DRYDOCK_SUBPATH : string := ".devcontainer/drydock".

Definition _render (text project_name base_tag : string) : string :=
  py_replace "{{ base_tag }}" base_tag (py_replace "{{ project_name }}" project_name text).

Definition line (s : string) : string := s +:+ String "010" "".

Definition _worker_project_yaml (repo_path : string) : string :=
  line ("repo_path: " +:+ repo_path) +:+ line ("devcontainer_subpath: " +:+ DRYDOCK_SUBPATH).

Definition _auditor_project_yaml (repo_path base_tag : string) : string :=
  line "# Port Auditor — role-locked drydock. Constraints enforced by"
  +:+ line "# core/auditor/role_validator.py. Loosening any value below"
  +:+ line "# requires editing the validator (deliberate, code-level)."
  +:+ line "role: auditor"
  +:+ line ""
  +:+ line ("repo_path: " +:+ repo_path)
  +:+ line ("devcontainer_subpath: " +:+ DRYDOCK_SUBPATH)
  +:+ line ("image: ghcr.io/stevefan/drydock-port-auditor:" +:+ base_tag)
  +:+ line ""
  +:+ line "firewall_extra_domains:"
  +:+ line "  - api.anthropic.com"
  +:+ line "  - api.telegram.org"
  +:+ line ""
  +:+ line "resources_hard:"
  +:+ line "  cpu_max: 1.0"
  +:+ line "  memory_max: 1g"
  +:+ line "  pids_max: 256".

(** What a role scaffolds: the package of the templates, their files, the default tag and the project file. *)
Record scaffold : Type := mkScaffold {
  sc_package : string; sc_files : list string; sc_tag : string; sc_yaml : string -> string -> string
}.

Definition scaffold_of (auditor_role : bool) : scaffold :=
  if auditor_role then mkScaffold AUDITOR_TEMPLATE_PACKAGE AUDITOR_TEMPLATE_FILES AUDITOR_DEFAULT_BASE_TAG _auditor_project_yaml
  else mkScaffold WORKER_TEMPLATE_PACKAGE WORKER_TEMPLATE_FILES WORKER_DEFAULT_BASE_TAG (fun repo _ => _worker_project_yaml repo).

Record new_options : Type := mkNew {
  nw_auditor : bool; nw_base_tag : option string; nw_write_yaml : bool; nw_force : bool
}.

(** [base_tag or ..._DEFAULT_BASE_TAG]. *)
Definition effective_base_tag (o : new_options) : string :=
  match text_arg (nw_base_tag o) with Some t => t | None => sc_tag (scaffold_of (nw_auditor o)) end.

Section New.
(** The directory the command is called in, the home directories of other users, and the package's templates. *)
Context `{Env} (cwd : string) (home_of : string -> option string) (template : string -> string -> string).

Definition PROJECTS_DIR : string := home // ".drydock" // "projects".

(** [Path(p).expanduser()]. *)
Definition expanduser (p : string) : res exn string :=
  match path_parts p with
  | String "~" user :: rest =>
      if negb (is_empty (path_root p)) then Ok (path_str p)
      else
        match (if is_empty user then Some home else home_of user) with
        | Some h => Ok (fold_left path_join rest h)
        | None => Err (PyError "RuntimeError" "Could not determine home directory.")
        end
  | _ => Ok (path_str p)
  end.

(** [Path(repo_path).expanduser().resolve()]. *)
Definition target_repo (repo_path : string) : res exn string :=
  p ← expanduser repo_path; Ok (resolve (cwd // p)).

(** The template files that are there already. *)
Definition blockers (targets : list string) : W (list string) :=
  gets (fun w => List.filter (fun t => is_some (w_host w !! t)) targets).

Definition write_template (sc : scaffold) (project base_tag drydock_dir fname : string) : W string :=
  let target := drydock_dir // fname in
  _ ← host_write target (_render (template (sc_package sc) fname) project base_tag);
  mret target.

(** The path of the project file written, and those left as they are. *)
Definition write_project_yaml (project body : string) : W (option string * list string) :=
  _ ← mkdir_p PROJECTS_DIR;
  let py := PROJECTS_DIR // (project +:+ ".yaml") in
  there ← path_exists py;
  if there : bool then mret (None, [py])
  else _ ← host_write py body; mret (Some py, []).

Definition role_text (auditor_role : bool) : json := JStr (if auditor_role then "auditor" else "worker").

Definition cli_new (dry_run : bool) (project repo_path : string) (o : new_options) : W obj :=
  repo ← lift (target_repo repo_path);
  is_repo ← host_at repo;
  if negb (is_ndir is_repo) then
    throw (WsError ("Repo path does not exist: " +:+ repo)
             (Some ("mkdir -p " +:+ repo +:+ " or pass --repo-path to an existing dir")))
  else
    let sc := scaffold_of (nw_auditor o) in
    let tag := effective_base_tag o in
    let drydock_dir := repo // DRYDOCK_SUBPATH in
    existing ← blockers (map (path_join drydock_dir) (sc_files sc));
    if negb (nw_force o) && negb (match existing with [] => true | _ => false end) then
      throw (WsError ("Refusing to overwrite existing files: " +:+ join ", " existing) (Some "Pass --force to overwrite"))
    else if dry_run then
      mret [("dry_run", JBool true); ("project", JStr project); ("role", role_text (nw_auditor o));
            ("would_write", JList (map (fun f => JStr (drydock_dir // f)) (sc_files sc)));
            ("would_write_project_yaml",
             if nw_write_yaml o then JStr (PROJECTS_DIR // (project +:+ ".yaml")) else JNull);
            ("base_tag", JStr tag)]
    else
      _ ← mkdir_p drydock_dir;
      written ← mapM (write_template sc project tag drydock_dir) (sc_files sc);
      '(yaml, skipped) ← (if nw_write_yaml o then write_project_yaml project (sc_yaml sc repo tag)
                          else mret (None, []));
      mret [("project", JStr project); ("role", role_text (nw_auditor o)); ("written", JList (map JStr written));
            ("project_yaml", opt_str yaml); ("skipped", JList (map JStr skipped)); ("base_tag", JStr tag)].
End New.
