(* ===== verification/CliAuditorFacts.v ===== *)
(** Who becomes the auditor, and what [ws new] writes: the scope of the auditor is given by [designate] alone, to a desk whose
    project file passes the validator; a scaffolded auditor project passes it; and a scaffold overwrites nothing that it
    was not told to. *)

From S2P Require Import Prelude PyStr PyVal Registry RegistryFacts World WorldFacts Overlay Container ProjectConfig Storage DestroyFacts SpawnFacts Daemon Serve DaemonFacts DaemonInvariant RoleValidator RoleValidatorFacts Watch CliAuditor.
From Stdlib Require Import List.
From Corelib Require Import SpecFloat.

(** ** The designation *)

Section Gate.
Context `{Env}.

(** The project file of [ws], as it is read now. *)
Definition declares_auditor (ws : Drydock) (w : world) : Prop :=
  exists cfg, fst (load_project_config (project ws) w) = Ok (Some cfg) /\ pc_role cfg = ROLE_AUDITOR /\ auditor_shape cfg.

Lemma quiet_load prj : quiet state_view (load_project_config prj).
Proof. unfold load_project_config. quiet_step. Qed.

Lemma auditor_gate_quiet prj : quiet state_view (auditor_gate prj).
Proof. unfold auditor_gate. apply quiet_bind; [apply quiet_load|]. intros o. quiet_step. Qed.

Lemma validated cfg : pc_role cfg = ROLE_AUDITOR ->
  (exists r, validate_auditor_role cfg = Ok r /\ RoleValidator.ok r = true) <-> auditor_shape cfg.
Proof.
  intros Hr. rewrite <- (auditor_role_shape cfg Hr). split; [|by intros ->; eexists].
  intros (r & E & Ho). rewrite E. unfold validate_auditor_role in E. rewrite Hr in E. cbn [negb String.eqb] in E.
  apply res_bind_ok in E as ([|v vs] & _ & [= <-]); [done|discriminate Ho].
Qed.

Lemma auditor_gate_passed ws w u w1 : auditor_gate (project ws) w = (Ok u, w1) -> declares_auditor ws w.
Proof.
  unfold auditor_gate. intros E. apply bind_inv in E as [(o & w2 & E1 & E2)|(e & _ & [=])].
  destruct o as [cfg|]; [|discriminate E2]. exists cfg. rewrite E1. split; [done|].
  destruct (pc_role cfg =s "auditor") eqn:Er; [|discriminate E2]. apply String.eqb_eq in Er. split; [exact Er|].
  cbn [negb] in E2. rewrite lift_bind in E2. destruct (validate_auditor_role cfg) as [r|e] eqn:Ev; [|discriminate E2].
  destruct (RoleValidator.ok r) eqn:Eo; [|discriminate E2]. apply (validated cfg Er). by exists r.
Qed.

Lemma designate_tokens i d t :
  In t (tokens (snd (designate_auditor i d))) -> auditor_scope t = true -> In t (tokens d) \/ tk_drydock_id t = i.
Proof.
  unfold designate_auditor, mbind, M_bind. cbn. destruct (tbl_first _ (tokens d)); cbn; [by left|].
  intros (r & Hr & ->)%tbl_update_In Ha. destruct (token_of i r && _) eqn:E; [|by left]. right. cbn.
  apply andb_true_iff in E as [E _]. unfold token_of in E. by breflect.
Qed.

Lemma revoke_tokens i d t : In t (tokens (snd (revoke_auditor_scope i d))) -> auditor_scope t = true -> In t (tokens d).
Proof.
  unfold revoke_auditor_scope, mbind, M_bind. cbn. intros (r & Hr & ->)%tbl_update_In Ha.
  by destruct (token_of i r && _) eqn:E.
Qed.

Lemma quiet_despite {V} (v : world -> V) m : quiet v m -> quiet v (despite m).
Proof. intros Hm. apply quiet_catch; [exact Hm|]. intros e. by destruct (is_os_error e). Qed.

Lemma token_unlink_quiet i n : quiet w_db (unlink i n).
Proof. unfold unlink. quiet_step. Qed.

Lemma quiet_mirror i : quiet w_db (mirror_token i).
Proof.
  unfold mirror_token. apply quiet_bind; [apply quiet_gets|]. intros [|]; [|apply quiet_ret]. apply quiet_despite.
  unfold copy_secret, write_bytes, chmod_ro. quiet_step.
Qed.

Lemma designate_or_db i w : w_db (snd (designate_or i w)) = snd (designate_auditor i (w_db w)).
Proof. unfold designate_or, catch, reg. destruct (designate_auditor i (w_db w)) as [[b|e] d]; [done|]. by destruct e. Qed.

(** What a designation does to the database: nothing, or the registry's own operation behind the gate. *)
Lemma designate_db n revoke w :
  let d' := w_db (snd (auditor_designate n revoke w)) in
  d' = w_db w
  \/ exists ws, get_drydock n (w_db w) = Some ws
     /\ (d' = snd (revoke_auditor_scope (id ws) (w_db w))
         \/ revoke = false /\ declares_auditor ws w /\ d' = snd (designate_auditor (id ws) (w_db w))).
Proof.
  unfold auditor_designate. rewrite reg_gets_bind. destruct (get_drydock n (w_db w)) as [ws|] eqn:En; [|by left].
  rewrite reg_gets_bind. destruct (get_token_info _ _); [|by left]. destruct revoke.
  - right. exists ws. split; [done|]. left. rewrite reg_bind.
    assert (forall b, quiet w_db (_ ← despite (unlink (id ws) "auditor-token"); mret (scope_revoked ws b))) as Hq
      by (intros b; apply quiet_bind; [apply quiet_despite, token_unlink_quiet|intros; apply quiet_ret]).
    destruct (fst _); cbn [snd]; [by rewrite Hq|done].
  - destruct (auditor_gate (project ws) w) as [[u|e] w1] eqn:Eg.
    2: { left. rewrite (bind_err _ _ _ _ _ Eg). by apply (quiet_db_eq _ _ _ _ (quiet_db _ (quiet_state _ (auditor_gate_quiet _))) Eg). }
    right. exists ws. split; [done|]. right. split; [done|]. split; [exact (auditor_gate_passed _ _ _ _ Eg)|].
    rewrite (bind_ok _ _ _ _ _ Eg).
    rewrite <- (quiet_db_eq _ _ _ _ (quiet_db _ (quiet_state _ (auditor_gate_quiet _))) Eg), <- designate_or_db.
    destruct (designate_or (id ws) w1) as [[b|e] w2] eqn:Ed; [|by rewrite (bind_err _ _ _ _ _ Ed)].
    rewrite (bind_ok _ _ _ _ _ Ed). cbn [snd].
    assert (quiet w_db (_ ← mirror_token (id ws); mret (designated ws b))) as ->; [|done].
    apply quiet_bind; [apply quiet_mirror|intros; apply quiet_ret].
Qed.
End Gate.

(** ** The harbor under requests and designations *)

Section Authority.
Context `{Env} (cfg : settings) `{!LawfulSecrets (secrets_backend cfg)}
  (storage_lawful : forall b, storage cfg = Some b -> LawfulStorage b).

Inductive authority_step (w : world) : world -> Prop :=
  | by_daemon w' : daemon_step cfg w w' -> authority_step w w'
  | by_designate n revoke : authority_step w (snd (auditor_designate n revoke w)).

Lemma authority_integrity w w' : authority_step w w' -> db_ok (w_db w) -> db_ok (w_db w').
Proof.
  intros [w1 Hs|n revoke] Hw.
  - destruct (step_footprint cfg storage_lawful _ _ Hs) as (K & Hp).
    exact (footprint_keeps db_ok _ _ _ (fun k x y _ => write_integrity k x y) Hp Hw).
  - destruct (designate_db n revoke w) as [->|(ws & _ & [->|(_ & _ & ->)])]; [done|by apply revoke_auditor_scope_ok|by apply designate_auditor_ok].
Qed.

(** A token that a step makes an auditor's was made so by a designation that passed the gate. *)
Lemma authority_tokens w w' t :
  authority_step w w' -> In t (tokens (w_db w')) -> auditor_scope t = true ->
  In t (tokens (w_db w))
  \/ exists n ws, w' = snd (auditor_designate n false w) /\ get_drydock n (w_db w) = Some ws /\ tk_drydock_id t = id ws
     /\ declares_auditor ws w.
Proof.
  intros [w1 Hs|n revoke] Ht Ha.
  - left. destruct (step_footprint cfg storage_lawful _ _ Hs) as (K & Hp). by eapply footprint_tokens.
  - destruct (designate_db n revoke w) as [E|(ws & Hn & [E|(-> & Hg & E)])]; rewrite E in Ht;
      [by left|left; by eapply revoke_tokens|].
    apply designate_tokens in Ht as [Ht|Hi]; [by left| |done]. right. by exists n, ws.
Qed.

Lemma reachable_integrity w w' : rtc authority_step w w' -> db_ok (w_db w) -> db_ok (w_db w').
Proof. induction 1 as [|w w1 w2 Hs _ IH]; [done|]. intros Hw. apply IH. by eapply authority_integrity. Qed.

(** C11: From a sound database, whatever requests reach the daemon, whatever its sweeper does and whatever
    designations the operator tries, one after the other in any order, one desk at most is the
    auditor, and a desk that became it on the way did so by a designation, on that way, before which it was a desk of
    the registry whose project file declared the role and had the shape that the validator demands. *)
Theorem auditors_passed_the_gate w w' :
  db_ok (w_db w) -> rtc authority_step w w' ->
  (forall t t', In t (tokens (w_db w')) -> In t' (tokens (w_db w')) -> auditor_scope t = true -> auditor_scope t' = true -> t = t')
  /\ forall t, In t (tokens (w_db w')) -> auditor_scope t = true ->
     In t (tokens (w_db w))
     \/ exists v n ws, rtc authority_step w v /\ rtc authority_step (snd (auditor_designate n false v)) w'
        /\ In t (tokens (w_db (snd (auditor_designate n false v))))
        /\ get_drydock n (w_db v) = Some ws /\ tk_drydock_id t = id ws /\ declares_auditor ws v.
Proof.
  intros Hw Hr. split; [apply (reachable_integrity _ _ Hr Hw)|]. revert w' Hr.
  apply (rtc_ind_r (fun w' => forall t, In t (tokens (w_db w')) -> auditor_scope t = true -> In t (tokens (w_db w)) \/
    exists v n ws, rtc authority_step w v /\ rtc authority_step (snd (auditor_designate n false v)) w'
      /\ In t (tokens (w_db (snd (auditor_designate n false v))))
      /\ get_drydock n (w_db v) = Some ws /\ tk_drydock_id t = id ws /\ declares_auditor ws v)); [by left|].
  intros v w' Hv Hs IH t Ht Ha. destruct (authority_tokens _ _ t Hs Ht Ha) as [Hold|(n & ws & -> & Hg)].
  - destruct (IH t Hold Ha) as [?|(v0 & n & ws & H1 & H2 & H3)]; [by left|]. right. exists v0, n, ws.
    split; [exact H1|]. split; [|exact H3]. by eapply rtc_r.
  - right. exists v, n, ws. split; [exact Hv|]. split; [constructor|]. by split.
Qed.
End Authority.

(** ** A scaffolded auditor *)

(** What the scaffolded project file says. *)
Definition scaffolded_project (repo tag : string) : json :=
  JObj [("role", JStr "auditor"); ("repo_path", JStr repo); ("devcontainer_subpath", JStr DRYDOCK_SUBPATH);
        ("image", JStr ("ghcr.io/stevefan/drydock-port-auditor:" +:+ tag));
        ("firewall_extra_domains", JList [JStr "api.anthropic.com"; JStr "api.telegram.org"]);
        ("resources_hard", JObj [("cpu_max", JFloat (S754_finite false 4503599627370496 (-52))); ("memory_max", JStr "1g");
                                 ("pids_max", JInt 256)])].

Section Scaffold.
Context `{Env} (cwd : string) (home_of : string -> option string) (template : string -> string -> string).

Lemma scaffolded_config path repo tag : exists cfg, project_of_yaml path (scaffolded_project repo tag) = Ok cfg
  /\ pc_role cfg = ROLE_AUDITOR /\ auditor_shape cfg.
Proof.
  eexists. split; [reflexivity|]. split; [reflexivity|]. split; cbn.
  - eexists. split; [reflexivity|]. repeat constructor; eexists; (split; [reflexivity|cbn; tauto]).
  - exists []. by split.
  - repeat constructor.
  - do 3 eexists. repeat split; try reflexivity; done.
  - right. exists "ghcr.io/stevefan/drydock-port-auditor", (":" +:+ tag). split; [right; by left|done].
Qed.

Lemma write_project_yaml_ok project body w p skipped w' :
  write_project_yaml project body w = (Ok (Some p, skipped), w') ->
  w_host w' !! project_yaml_path project = Some (NFile body).
Proof.
  unfold write_project_yaml. intros E. apply bind_inv in E as [(u & w1 & _ & E)|(e & _ & [=])].
  apply bind_inv in E as [(there & w2 & _ & E)|(e & _ & [=])]. destruct there; [discriminate E|].
  apply bind_inv in E as [(u2 & w3 & E2 & E)|(e & _ & [=])]. injection E as _ _ <-. by apply host_write_ok in E2.
Qed.

Lemma new_project_file project repo_path repo o w v w' :
  target_repo cwd home_of repo_path = Ok repo -> cli_new cwd home_of template false project repo_path o w = (Ok v, w') ->
  jget "project_yaml" v <> JNull ->
  w_host w' !! project_yaml_path project = Some (NFile (sc_yaml (scaffold_of (nw_auditor o)) repo (effective_base_tag o))).
Proof.
  unfold cli_new. intros Er E Hy. rewrite lift_bind, Er in E. unfold host_at at 1 in E. rewrite gets_bind in E.
  destruct (negb (is_ndir _)); [discriminate E|]. unfold blockers in E. rewrite gets_bind in E.
  destruct (negb (nw_force o) && _); [discriminate E|].
  apply bind_inv in E as [(u1 & w1 & _ & E)|(e & _ & [=])]. apply bind_inv in E as [(l & w2 & _ & E)|(e & _ & [=])].
  apply bind_inv in E as [([yaml skipped] & w3 & E3 & E)|(e & _ & [=])]. injection E as <- <-. cbn in Hy.
  destruct yaml as [p|]; [|done]. destruct (nw_write_yaml o); [|discriminate E3]. by apply write_project_yaml_ok in E3.
Qed.

Lemma gate_passes ws_project w text raw cfg :
  w_host w !! project_yaml_path ws_project = Some (NFile text) -> fs_fault (w_fsops w) = None ->
  yaml_load text = Some raw -> project_of_yaml (project_yaml_path ws_project) raw = Ok cfg ->
  pc_role cfg = ROLE_AUDITOR -> auditor_shape cfg -> fst (auditor_gate ws_project w) = Ok tt.
Proof.
  intros Hf Hn Hy Hc Hr Hs.
  assert (exists w1, load_project_config ws_project w = (Ok (Some cfg), w1)) as (w1 & E).
  { unfold load_project_config, path_exists. rewrite gets_bind, Hf. cbn [is_some negb].
    assert (exists w1, host_read (project_yaml_path ws_project) w = (Ok text, w1)) as (w1 & E).
    { unfold host_read. pose proof (quiet_fs_op w) as Hq. destruct (fs_op w) as [r w1] eqn:E. unfold fs_op in E.
      rewrite Hn in E. injection E as <- <-. unfold mbind, M_bind, fs_op. rewrite Hn. unfold host_at, gets. cbn. rewrite Hf. by eexists. }
    rewrite (bind_ok _ _ _ _ _ E), Hy, lift_bind, Hc. by eexists. }
  unfold auditor_gate. rewrite (bind_ok _ _ _ _ _ E), Hr. change (ROLE_AUDITOR =s "auditor") with true. cbn [negb].
  apply (auditor_role_shape cfg Hr) in Hs. rewrite lift_bind, Hs. reflexivity.
Qed.

(** A project scaffolded for an auditor can be designated as it stands: whatever the repository and the tag of the image,
    if YAML reads the file as it is written, the project file that [ws new --role auditor] reports to have written passes the gate
    of the designation. *)
Theorem scaffolded_auditor_passes_the_gate project repo_path repo o w v w' :
  nw_auditor o = true -> target_repo cwd home_of repo_path = Ok repo ->
  yaml_load (_auditor_project_yaml repo (effective_base_tag o)) = Some (scaffolded_project repo (effective_base_tag o)) ->
  cli_new cwd home_of template false project repo_path o w = (Ok v, w') -> jget "project_yaml" v <> JNull ->
  fs_fault (w_fsops w') = None -> fst (auditor_gate project w') = Ok tt.
Proof.
  intros Ha Er Hy E Hv Hf. pose proof (new_project_file _ _ _ _ _ _ _ Er E Hv) as Hh. rewrite Ha in Hh. cbn in Hh.
  destruct (scaffolded_config (project_yaml_path project) repo (effective_base_tag o)) as (cfg & Hc & Hr & Hs).
  by apply (gate_passes project w' _ _ cfg Hh Hf Hy).
Qed.

(** ** What a scaffold overwrites *)

Definition has (p : string) (x : node) (w : world) : Prop := w_host w !! p = Some x.

Lemma has_quiet {A} p x (m : W A) : quiet (at_path p) m -> preserves (has p x) m.
Proof. intros Hm. exact (quiet_preserves (at_path p) (fun o => o = Some x) m Hm). Qed.

Lemma has_mkdir p x q : preserves (has p x) (mkdir_p q).
Proof.
  unfold mkdir_p. apply preserves_bind; [by apply has_quiet, at_state, quiet_fs_op|]. intros _. apply preserves_modify.
  intros w Hw. unfold has in *. cbn. unfold mk_dirs. induction (path_chain q) as [|y l IH]; [done|]. cbn [fold_right].
  case_match eqn:Ey; [exact IH|]. rewrite lookup_insert_ne; [exact IH|]. intros ->. congruence.
Qed.

Lemma has_write_yaml p x project body : preserves (has p x) (write_project_yaml project body).
Proof.
  unfold write_project_yaml. apply preserves_bind; [apply has_mkdir|]. intros _. intros w Hw. unfold path_exists. rewrite gets_bind.
  destruct (w_host w !! (PROJECTS_DIR // (project +:+ ".yaml"))) eqn:E; cbn [is_some]; [done|]. revert w Hw E.
  intros w Hw E. assert (p <> PROJECTS_DIR // (project +:+ ".yaml")) as Hne by (intros ->; unfold has in Hw; congruence).
  apply (preserves_bind (has p x)); [by apply has_quiet, at_write|intros; apply preserves_ret|done].
Qed.

Lemma has_templates p x sc project tag dir fs : (forall f, In f fs -> p <> dir // f) ->
  preserves (has p x) (mapM (write_template template sc project tag dir) fs).
Proof.
  induction fs as [|f fs IH]; intros Hf; cbn; [apply preserves_ret|]. apply preserves_bind.
  - unfold write_template. apply preserves_bind; [|intros; apply preserves_ret]. apply has_quiet, at_write, Hf. by left.
  - intros t. apply preserves_bind; [|intros; apply preserves_ret]. apply IH. intros g Hg. apply Hf. by right.
Qed.

(** The world is as it was. *)
Ltac untouched := cbn; split; [done|split; [done|by intros; left]].

(** Whatever fails on the way, [ws new] never changes a file or directory that is there, but for the template files of the
    repository it is called for, and these only with [--force]; a project file that is there stays as it is even then, and a dry
    run changes nothing. The registry and the secrets are not touched. *)
Theorem new_overwrites_only_by_force dry_run project repo_path o w :
  let w' := snd (cli_new cwd home_of template dry_run project repo_path o w) in
  db_files w' = db_files w /\ (dry_run = true -> w_host w' = w_host w)
  /\ forall p x, w_host w !! p = Some x -> w_host w' !! p = Some x
     \/ (nw_force o = true /\ exists repo f, target_repo cwd home_of repo_path = Ok repo
         /\ In f (sc_files (scaffold_of (nw_auditor o))) /\ p = repo // DRYDOCK_SUBPATH // f).
Proof.
  cbv zeta. unfold cli_new. rewrite lift_bind. destruct (target_repo _ _ _) as [repo|e]; [|untouched].
  unfold host_at. rewrite gets_bind. destruct (negb (is_ndir _)); [untouched|].
  unfold blockers. rewrite gets_bind. destruct (negb (nw_force o) && _) eqn:Ef; [untouched|].
  destruct dry_run; [untouched|].
  match goal with |- context[snd (?m w)] => set (prog := m) end.
  split; [|split; [done|]].
  { assert (quiet db_files prog) as Hq; [|apply Hq]. subst prog. unfold write_project_yaml, write_template.
    apply quiet_bind; [apply quiet_mkdir|]. intros _. apply quiet_bind; [|intros; quiet_step].
    clear. induction (sc_files _) as [|f fs IH]; cbn; quiet_step. }
  intros p x Hp. set (targets := map (path_join (repo // DRYDOCK_SUBPATH)) (sc_files (scaffold_of (nw_auditor o)))) in *.
  destruct (existsb (String.eqb p) targets) eqn:Ein.
  - apply existsb_exists in Ein as (q & Hq & ->%String.eqb_eq). apply in_map_iff in Hq as (f & <- & Hf). right.
    destruct (nw_force o); [by split; eauto|]. cbn [negb andb] in Ef.
    destruct (List.filter _ targets) eqn:El; [|discriminate Ef].
    assert (In (repo // DRYDOCK_SUBPATH // f) []) as []. rewrite <- El. apply filter_In. split; [by apply in_map|by rewrite Hp].
  - left. assert (preserves (has p x) prog) as Hk; [|exact (Hk w Hp)]. subst prog. apply preserves_bind; [apply has_mkdir|].
    intros _. apply preserves_bind.
    + apply has_templates. intros f Hf ->. apply not_true_iff_false in Ein. apply Ein, existsb_exists.
      eexists. split; [by apply in_map|apply String.eqb_refl].
    + intros l. apply preserves_bind; [|intros []; apply preserves_ret]. destruct (nw_write_yaml o); [apply has_write_yaml|apply preserves_ret].
Qed.
End Scaffold.

(** ** A project is scaffolded, a request served, the desk designated *)

#[local] Instance gate_env : Env := {|
  clock := @clock demo_env; clock_ok := @clock_ok demo_env; uuid_hex := @uuid_hex demo_env;
  token_bytes := @token_bytes demo_env; token_bytes_len := @token_bytes_len demo_env;
  sha256 := @sha256 demo_env; subprocess_run := @subprocess_run demo_env; run_host := @run_host demo_env;
  which := @which demo_env; env_float_repr := @env_float_repr demo_env; json_loads _ := Some (JObj []);
  json_dumps := @json_dumps demo_env; json_dumps_indent := @json_dumps_indent demo_env;
  yaml_load t := if t =s _auditor_project_yaml "/srv/code/proj" "v0.1.3"
                 then Some (scaffolded_project "/srv/code/proj" "v0.1.3") else None;
  yaml_dump := @yaml_dump demo_env; fs_fault := @fs_fault demo_env; audit_fault := @audit_fault demo_env;
  is_root := true; secrets_root := "/root/.drydock/secrets"; home := "/root"; environ _ := None |}.

Definition repo_world : world := set_host {["/srv/code/proj" := NDir]} family_world.
Definition auditor_options : new_options := mkNew true None true false.
Definition new_proj : W obj := cli_new "/srv" (fun _ => None) (fun _ f => f) false "proj" "code/proj" auditor_options.
Definition scaffolded_world : world := snd (new_proj repo_world).

Lemma scaffolded_auditor_passes_the_gate_witness :
  w_host scaffolded_world !! "/root/.drydock/projects/proj.yaml"
    = Some (NFile (_auditor_project_yaml "/srv/code/proj" "v0.1.3"))
  /\ fst (auditor_gate "proj" scaffolded_world) = Ok tt.
Proof.
  split; [vm_compute; reflexivity|]. destruct (new_proj repo_world) as [r w'] eqn:E.
  assert (scaffolded_world = w') as -> by (unfold scaffolded_world; by rewrite E).
  pose proof (f_equal fst E) as Er. vm_compute in Er. subst r.
  eapply (scaffolded_auditor_passes_the_gate "/srv" (fun _ => None) (fun _ f => f) "proj" "code/proj" "/srv/code/proj" auditor_options);
    [reflexivity|vm_compute; reflexivity|vm_compute; reflexivity|exact E|discriminate|reflexivity].
Defined.

Definition gate_cfg : settings := mkSettings FileBackend None true 1.
Definition designated_world : world := snd (auditor_designate "a" false scaffolded_world).
Definition asked_world : world := snd (serve_request gate_cfg (DaemonInvariant.request "SpawnChild" "1" 1 spawn_d) designated_world).
Definition auditor_a : token_row := mkToken "dock_a" "h1" "t" None "auditor".

Lemma auditors_passed_the_gate_witness :
  In auditor_a (tokens (w_db asked_world))
  /\ (In auditor_a (tokens (w_db scaffolded_world))
      \/ exists v n ws, rtc (authority_step gate_cfg) scaffolded_world v
         /\ rtc (authority_step gate_cfg) (snd (auditor_designate n false v)) asked_world
         /\ In auditor_a (tokens (w_db (snd (auditor_designate n false v)))) /\ get_drydock n (w_db v) = Some ws
         /\ tk_drydock_id auditor_a = id ws /\ declares_auditor ws v).
Proof.
  assert (In auditor_a (tokens (w_db asked_world))) as Hin by (vm_compute; by left). split; [exact Hin|].
  apply (auditors_passed_the_gate gate_cfg ltac:(discriminate) scaffolded_world asked_world); [| |exact Hin|reflexivity].
  - exact (ok_integrity _ spawn_world_ok).
  - eapply rtc_l; [apply (by_designate _ _ "a" false)|]. apply rtc_once, by_daemon, step_request.
Defined.

(** The gate reads the project file of now: a desk created from another one keeps the capabilities and secrets that it was
    given, which no auditor may have. *)
Definition endowed_row : dock_row :=
  mkDockRow (demo_desk "a") None (JList []) (JList [JStr "db"]) (JList [JStr "spawn_children"; JStr "request_secret_leases"])
    (JList []) (JList []) (JList []) (JList []) (JObj []).
Definition endowed_world : world :=
  set_db (set_drydocks [endowed_row] (w_db scaffolded_world)) scaffolded_world.
Example designated_desk_keeps_grants :
  let w := snd (auditor_designate "a" false endowed_world) in
  drydocks (w_db w) = [endowed_row] /\ In auditor_a (tokens (w_db w)).
Proof. vm_compute. split; [reflexivity|by left]. Qed.
