(* ===== verification/CliFacts.v ===== *)
(** The commands: what a review decides stays decided, what a sync may do to a checkout, what a stored secret leaves
    behind, and what the commands do without a daemon. *)

From S2P Require Import Prelude PyStr PyVal Regex Datetime Registry World WorldFacts RpcFacts Overlay Container ProjectConfig Desks BrokerNames Client Tailnet CliDesk CliAdmin CliSecret CliRepo.
From Stdlib Require Import List.

(** ** Amendments *)

(** What a review wrote. *)
Definition decision (a : amendment_row) : option string * option string * option string :=
  (am_reviewed_by a, am_reviewed_at a, am_review_note a).

(** Every amendment that is no longer open stays as it is. *)
Definition keeps_decided (w w' : world) : Prop := forall i a,
  get_amendment i (w_db w) = Some a -> open_status (am_status a) = false -> get_amendment i (w_db w') = Some a.

#[export] Instance keeps_decided_preorder : PreOrder keeps_decided.
Proof.
  split; [by intros w i a Hg _|]. intros w1 w2 w3 H12 H23 i a Hg Ho. apply H23; [by apply H12|done].
Qed.

Lemma decided_same w w' : amendments (w_db w') = amendments (w_db w) -> keeps_decided w w'.
Proof. intros E i a Hg _. unfold get_amendment in *. by rewrite E. Qed.

Lemma moves_quiet {A} (m : W A) : quiet w_db m -> moves keeps_decided m.
Proof. intros Hm w. apply decided_same. by rewrite Hm. Qed.
#[export] Hint Resolve moves_quiet : moves.

(** A change of the rows that [p] picks, none of them closed. *)
Lemma update_decided p st rb ra rn ap w :
  (forall a, p a = true -> tbl_first (by_am (am_id a)) (amendments (w_db w)) = Some a -> open_status (am_status a) = true) ->
  keeps_decided w (set_db (set_amendments (tbl_update p (set_amendment st rb ra rn ap) (amendments (w_db w))) (w_db w)) w).
Proof.
  intros Hp i a Hg Ho. unfold get_amendment in *. cbn [w_db set_db amendments set_amendments].
  rewrite tbl_first_update by done. rewrite Hg. cbn [option_map]. destruct (p a) eqn:E; [|done].
  assert (am_id a = i) as Hi by (apply tbl_first_Some in Hg as [_ Hi]; by apply String.eqb_eq in Hi).
  specialize (Hp a E). rewrite Hi in Hp. specialize (Hp Hg). congruence.
Qed.

Lemma reg_moves {A} (m : DB A) :
  (forall w, keeps_decided w (set_db (snd (m (w_db w))) w)) -> moves keeps_decided (reg m).
Proof. intros H w. unfold reg. specialize (H w). by destruct (m (w_db w)). Qed.

Lemma create_decided now f k q pt pi i y r t e st : moves keeps_decided (reg (create_amendment now f k q pt pi i y r t e st)).
Proof.
  apply reg_moves. intros w. unfold create_amendment. msimp.
  destruct (_ || _); cbn [snd throw]; [by apply decided_same|]. msimp.
  intros j a Hg _. unfold get_amendment in *. cbn [w_db set_db amendments set_amendments]. by rewrite tbl_first_app, Hg.
Qed.

Lemma expire_old_decided now : moves keeps_decided (reg (expire_old_pending_amendments now)).
Proof.
  apply reg_moves. intros w. unfold expire_old_pending_amendments. msimp. apply update_decided.
  by intros a [Ha _]%andb_true_iff _.
Qed.

(** An amendment as [expire] leaves it: its status alone is another. *)
Definition expired (a : amendment_row) : amendment_row := set_amendment "expired" None (am_reviewed_at a) None None a.

Lemma expired_decision a : decision (expired a) = decision a.
Proof. unfold decision, expired, set_amendment. cbn. by destruct (am_reviewed_at a). Qed.

Section Amendments.
Context `{Env}.

Lemma desk_or_quiet n f : quiet w_db (desk_or n f).
Proof. unfold desk_or, missing_desk. quiet_step. Qed.
#[local] Hint Resolve desk_or_quiet create_decided expire_old_decided : moves quiet.

Lemma amendment_or_quiet i : quiet w_db (amendment_or i).
Proof. unfold amendment_or, missing_amendment. quiet_step. Qed.

Lemma record_of_quiet o : quiet w_db (record_of o).
Proof. unfold record_of. quiet_step. Qed.
#[local] Hint Resolve amendment_or_quiet record_of_quiet : quiet moves.

Lemma review_update now i st rb note w e :
  get_amendment i (w_db w) = Some e -> open_status (am_status e) = true ->
  keeps_decided w (snd (reg (update_amendment_status now i st rb note None) w)).
Proof.
  intros Ee Eo. unfold reg, update_amendment_status. msimp. rewrite Ee.
  destruct (am_status_ok st); cbn [negb]; [|by apply decided_same]. msimp. apply update_decided.
  intros a Ha Hf. apply String.eqb_eq in Ha. rewrite Ha in Hf. unfold get_amendment in Ee. congruence.
Qed.

Lemma review_decided verb st i note : moves keeps_decided (amendment_review verb st i note).
Proof.
  intros w. unfold amendment_review, amendment_or, reg_get. msimp.
  destruct (get_amendment i (w_db w)) as [e|] eqn:Ee; [|by apply decided_same]. msimp.
  destruct (open_status (am_status e)) eqn:Eo; cbn [negb]; [|by apply decided_same].
  destruct (_utc_now w) as [r w1] eqn:En. assert (w_db w1 = w_db w) as Ed by (by injection En as <- <-).
  assert (r = Ok (isoformat (clock (w_ticks w)))) as -> by (by injection En as <- <-).
  rewrite (bind_ok _ _ _ _ _ En). transitivity w1; [apply decided_same; by rewrite Ed|].
  rewrite <- Ed in Ee. pose proof (review_update (isoformat (clock (w_ticks w))) i st (Some "principal") note w1 e Ee Eo) as Hu.
  destruct (reg _ w1) as [[o|x] w2] eqn:Eu; cbn [snd] in Hu; [rewrite (bind_ok _ _ _ _ _ Eu)|by rewrite (bind_err _ _ _ _ _ Eu)].
  transitivity w2; [done|]. apply moves_quiet, record_of_quiet.
Qed.

(** What happens to amendments: the commands, the amendments the daemon files, and everything else, which leaves
    them alone. *)
Inductive amendment_step : world -> world -> Prop :=
  | step_file k q p a r t d y w : amendment_step w (snd (amendment_file k q p a r t d y w))
  | step_filed now f k q pt pi i y r t e st w :
      amendment_step w (snd (reg (create_amendment now f k q pt pi i y r t e st) w))
  | step_approve i note w : amendment_step w (snd (amendment_approve i note w))
  | step_deny i note w : amendment_step w (snd (amendment_deny i note w))
  | step_expire i w : amendment_step w (snd (amendment_expire i w))
  | step_expire_old w : amendment_step w (snd (amendment_expire_old w))
  | step_other w w' : amendments (w_db w') = amendments (w_db w) -> amendment_step w w'.

Lemma file_decided k q p a r t d y : moves keeps_decided (amendment_file k q p a r t d y).
Proof.
  unfold amendment_file, target_desk, target_yard, missing_desk. moves_step.
Qed.
#[local] Hint Resolve file_decided review_decided : moves.

Lemma expire_run i w :
  snd (amendment_expire i w) = w
  \/ exists e w', get_amendment i (w_db w) = Some e /\ w_db (snd (amendment_expire i w)) = w_db w'
     /\ forall j, get_amendment j (w_db w') = if j =s i then Some (expired e) else get_amendment j (w_db w).
Proof.
  unfold amendment_expire, amendment_or, reg_get. msimp. destruct (get_amendment i (w_db w)) as [e|] eqn:Ee; [|by left]. msimp.
  right. rewrite utc_now_bind. match goal with |- context[(reg ?m ≫= _) ?w0] => set (w1 := w0); set (upd := m) end.
  assert (exists o, reg upd w1 = (Ok o, set_db (set_amendments (tbl_update (by_am i) (set_amendment "expired" None
            (am_reviewed_at e) None None) (amendments (w_db w))) (w_db w)) w1)) as (o & Eu).
  { unfold upd, reg, update_amendment_status. msimp. change (w_db w1) with (w_db w). rewrite Ee. cbn [nonempty andb negb]. msimp. by eexists. }
  rewrite (bind_ok _ _ _ _ _ Eu). eexists e, _. split; [done|]. split; [apply record_of_quiet|].
  intros j. unfold get_amendment in *. cbn [w_db set_db amendments set_amendments]. rewrite tbl_first_update by done.
  destruct (String.eqb_spec j i) as [->|Hj].
  - rewrite Ee. cbn. apply tbl_first_Some in Ee as [_ Ei]. by rewrite Ei.
  - destruct (tbl_first (by_am j) (amendments (w_db w))) as [a|] eqn:Ea; [|done]. cbn. apply tbl_first_Some in Ea as [_ Ej].
    apply String.eqb_eq in Ej. unfold by_am. rewrite Ej. by rewrite (proj2 (String.eqb_neq _ _) Hj).
Qed.

(** A step other than the expiry of the amendment leaves it as it is. *)
Lemma step_decided w w' i a : amendment_step w w' -> get_amendment i (w_db w) = Some a -> open_status (am_status a) = false ->
  get_amendment i (w_db w') = Some a
  \/ w' = snd (amendment_expire i w) /\ get_amendment i (w_db w') = Some (expired a).
Proof.
  intros Hs Hg Ho. assert (keeps_decided w w' \/ exists j, w' = snd (amendment_expire j w)) as [Hk|(j & ->)].
  { destruct Hs; try (right; by eexists); left; [..|by apply decided_same];
      match goal with |- keeps_decided ?x (snd (?m ?x)) => generalize x; change (moves keeps_decided m) end;
      unfold amendment_approve, amendment_deny, amendment_expire_old; moves_step. }
  - left. by apply Hk.
  - destruct (expire_run j w) as [->|(e & w1 & Ee & -> & Hj)]; [by left|]. rewrite Hj.
    destruct (String.eqb_spec i j) as [->|]; [|by left]. right. split; [done|]. congruence.
Qed.

End Amendments.

#[local] Existing Instance demo_env.

Definition amended_world : world :=
  set_db (set_amendments [mkAmendment "am_1" "dockworker" "dock_a" "2021-01-01" None (Some "dock_a") "network_reach" (JObj [])
            None None "pending" None None None None (Some "2020-01-01")] empty_db) empty_world.

Abbreviation approved_world := (snd (amendment_approve "am_1" (Some "fine") amended_world)).
Abbreviation denied_world := (snd (amendment_deny "am_1" "no" approved_world)).


(** ** Sync *)

(** The commands a sync gives git. *)
Inductive safe_args : list string -> Prop :=
  | safe_status : safe_args ["status"; "--porcelain"]
  | safe_head : safe_args ["rev-parse"; "--abbrev-ref"; "HEAD"]
  | safe_remotes : safe_args ["remote"]
  | safe_remote verb url : In verb ["add"; "set-url"] -> safe_args ["remote"; verb; "source"; url]
  | safe_fetch branch : safe_args ["fetch"; "source"; branch]
  | safe_rev ref : safe_args ["rev-parse"; ref]
  | safe_ancestor ref : safe_args ["merge-base"; "--is-ancestor"; ref; "HEAD"]
  | safe_count range : safe_args ["rev-list"; "--count"; range]
  | safe_merge ref : safe_args ["merge"; "--ff-only"; ref]
  | safe_log range : safe_args ["log"; "--oneline"; range].

Definition safe_git (c : call) : Prop := exists dir args, c = git_call dir args /\ safe_args args.

(** Only such commands were run, and the registry and the secrets are as before. *)
Definition only_safe (w w' : world) : Prop :=
  db_files w' = db_files w /\ exists l, w_calls w' = w_calls w ++ l /\ Forall safe_git l.

#[export] Instance only_safe_preorder : PreOrder only_safe.
Proof.
  split.
  - intros w. split; [done|]. exists []. by rewrite app_nil_r.
  - intros w1 w2 w3 (E1 & l1 & H1 & F1) (E2 & l2 & H2 & F2). split; [congruence|]. exists (l1 ++ l2).
    rewrite H2, H1, app_assoc. split; [done|]. by apply Forall_app.
Qed.

Section Sync.
Context `{Env}.

Lemma safe_unchecked dir args : safe_args args -> moves only_safe (_git_unchecked dir args).
Proof.
  intros Ha w. assert (Forall safe_git [git_call dir args]) as Hf by (constructor; [by exists dir, args|constructor]).
  unfold _git_unchecked, run_uncaught, run, mbind, M_bind. cbn.
  destruct (subprocess_run (w_calls w) _); (split; [done|]); by exists [git_call dir args].
Qed.

Lemma safe_git_call dir args : safe_args args -> moves only_safe (_git dir args).
Proof.
  intros Ha. unfold _git. apply moves_bind; [typeclasses eauto|by apply safe_unchecked|]. intros [[rc so] se]. moves_step.
Qed.
#[local] Hint Resolve safe_unchecked safe_git_call : moves.
#[local] Hint Constructors safe_args : moves.

Lemma safe_branch source asked : moves only_safe (source_branch_of source asked).
Proof. unfold source_branch_of. moves_step. Qed.

Lemma safe_point worktree source : moves only_safe (point_remote worktree source).
Proof.
  unfold point_remote. apply moves_bind; [typeclasses eauto|auto with moves|]. intros rs.
  apply moves_bind; [typeclasses eauto| |intros; auto with moves typeclass_instances].
  destruct (existsb _ _); apply safe_git_call, safe_remote; cbn; auto.
Qed.

Lemma safe_heads n worktree branch : moves only_safe (sync_heads n worktree branch).
Proof. unfold sync_heads, fast_forward. moves_step. Qed.

Lemma safe_fetching worktree source branch : moves only_safe (fetch worktree source branch).
Proof. unfold fetch. moves_step. Qed.
#[local] Hint Resolve safe_branch safe_point safe_heads safe_fetching : moves.

(** What the answer to [git status] says. *)
Definition clean_status (o : run_outcome) : bool := match o with Ran 0 out _ => is_empty (strip out) | _ => false end.

(** C15: Whatever the state of the checkout and whatever git answers, a sync changes neither the registry nor a
    secret and runs only commands that read, name the remote, fetch, or merge by fast-forward: it never rewrites,
    resets or commits (a branch is passed on as it was given). Its first command asks for uncommitted changes, and unless the answer is that there are none, it is
    the last one. *)
Theorem sync_only_fast_forwards n source_branch w :
  let w' := snd (sync n source_branch w) in
  db_files w' = db_files w /\ exists l, w_calls w' = w_calls w ++ l /\ Forall safe_git l
  /\ match l with
     | [] => True
     | c :: l' => (exists worktree, c = git_call worktree ["status"; "--porcelain"])
                  /\ (clean_status (subprocess_run (w_calls w) c) = false -> l' = [])
     end.
Proof.
  cbv zeta. unfold sync, reg_get, path_exists. msimp.
  assert (forall (e : exn) (r : json), exists l, w_calls w = w_calls w ++ l /\ Forall safe_git l /\
    match l with [] => True | c :: l' => (exists wt, c = git_call wt ["status"; "--porcelain"])
      /\ (clean_status (subprocess_run (w_calls w) c) = false -> l' = []) end) as Hnil.
  { intros _ _. exists []. by rewrite app_nil_r. }
  destruct (get_drydock n (w_db w)) as [ws|]; [|split; [done|exact (Hnil IntegrityError JNull)]]. msimp.
  destruct (is_some _); cbn [negb]; [|split; [done|exact (Hnil IntegrityError JNull)]]. msimp.
  destruct (is_some _); cbn [negb]; [|split; [done|exact (Hnil IntegrityError JNull)]].
  set (wt := path_str (worktree_path ws)). set (c := git_call wt ["status"; "--porcelain"]).
  destruct (_git wt ["status"; "--porcelain"] w) as [r w1] eqn:Eg.
  assert (w_calls w1 = w_calls w ++ [c] /\ db_files w1 = db_files w
    /\ (forall out, r = Ok out -> strip out = "" -> clean_status (subprocess_run (w_calls w) c) = true)) as (Ec & Ed & Es).
  { revert Eg. unfold _git, _git_unchecked, run_uncaught, run. fold c. unfold mbind, M_bind. cbn.
    destruct (subprocess_run (w_calls w) c) as [rc so se|m|m s]; cbn; [destruct (rc =? 0) eqn:Erc|..]; intros [= <- <-]; split_and!; try done.
    intros out [= ->] Eo. apply Z.eqb_eq in Erc as ->. cbn. by rewrite Eo. }
  assert (safe_git c) as Hc by (exists wt, ["status"; "--porcelain"]; split; [done|constructor]).
  destruct r as [out|e]; [rewrite (bind_ok _ _ _ _ _ Eg)|rewrite (bind_err _ _ _ _ _ Eg)].
  2: { split; [done|]. exists [c]. split_and!; [done|by constructor|by exists wt|done]. }
  destruct (is_empty (strip out)) eqn:Eo; cbn [negb].
  2: { split; [done|]. exists [c]. split_and!; [done|by constructor|by exists wt|done]. }
  apply is_empty_true in Eo.
  match goal with |- context [snd (?m w1)] => assert (moves only_safe m) as Hm by moves_step; destruct (Hm w1) as (Ed2 & l & Ec2 & Hl) end.
  split; [congruence|]. exists (c :: l). split_and!; [rewrite Ec2, Ec; by rewrite <- app_assoc|by constructor|by exists wt|].
  by rewrite (Es out eq_refl Eo).
Qed.
End Sync.

(** ** Storing a secret *)

Section Store.
Context `{Env} (F : gmap (string * string) sfile) (desk key value tmp : string).
Context (fresh : F !! (desk, tmp) = None) (tmp_key : tmp <> key) (tmp_name : is_dir_name tmp = false).

(** The new file is there besides the old ones; the new value is under the key. *)
Definition has_tmp (f : sfile) (w : world) : Prop := w_files w = <[(desk, tmp) := f]> F.
Definition stored (w : world) : Prop := w_files w = <[(desk, key) := mkFile value true]> F.
Definition some_tmp (w : world) : Prop := exists f, has_tmp f w.

Lemma tmp_stays f w w' : state_view w' = state_view w -> has_tmp f w -> has_tmp f w'.
Proof. unfold has_tmp. intros E Hw. injection E as _ -> _. done. Qed.
Lemma stored_stays w w' : state_view w' = state_view w -> stored w -> stored w'.
Proof. unfold stored. intros E Hw. injection E as _ -> _. done. Qed.

(** A file operation that may fail before its effect. *)
Lemma fs_then {A} (P X : world -> Prop) (k : W A) R : (forall w w', state_view w' = state_view w -> P w -> P w') ->
  (forall w, P w -> X w) -> hoare P k R X -> hoare P (_ ← fs_op; k) R X.
Proof.
  intros HP HX Hk. apply (hoare_bind P fs_op (fun _ => k) (fun _ => P) R X); [|intros ?; exact Hk].
  intros w Hw. unfold fs_op. destruct (fs_fault _) as [[d m]|]; [apply HX|]; by apply (HP w).
Qed.

Lemma tmp_some f w : has_tmp f w -> some_tmp w.
Proof. by exists f. Qed.

Lemma write_hoare : hoare (has_tmp (mkFile "" false)) (write_bytes desk tmp value) (fun _ => has_tmp (mkFile value false)) some_tmp.
Proof.
  apply fs_then; [apply tmp_stays|apply tmp_some|]. rewrite tmp_name. intros w Hw. msimp. unfold has_tmp in Hw.
  rewrite Hw, lookup_insert_eq. cbn. unfold has_tmp. cbn. by rewrite Hw, insert_insert_eq.
Qed.

Lemma chmod_hoare : hoare (has_tmp (mkFile value false)) (chmod_ro desk tmp) (fun _ => has_tmp (mkFile value true)) some_tmp.
Proof.
  apply fs_then; [apply tmp_stays|apply tmp_some|]. intros w Hw. unfold has_tmp in *. cbn. by rewrite Hw, alter_insert_eq.
Qed.

Lemma rename_hoare : hoare (has_tmp (mkFile value true)) (rename_to_key desk tmp key) (fun _ => stored) some_tmp.
Proof.
  unfold rename_to_key. destruct (is_dir_name key); [|unfold os_replace]; (apply fs_then; [apply tmp_stays|apply tmp_some|]).
  - intros w Hw. by apply tmp_some in Hw.
  - intros w Hw. unfold has_tmp in Hw. msimp. rewrite Hw, lookup_insert_eq. cbn. unfold stored. cbn.
    rewrite Hw, delete_insert_id; done.
Qed.

Definition body : W unit :=
  _ ← write_bytes desk tmp value; _ ← chmod_ro desk tmp; _ ← rename_to_key desk tmp key; chown_if_root.

Lemma body_hoare : hoare (has_tmp (mkFile "" false)) body (fun _ => stored) (fun w => some_tmp w \/ stored w).
Proof.
  unfold body. repeat (eapply hoare_bind; [eapply hoare_conseq; [first [apply write_hoare|apply chmod_hoare|apply rename_hoare]|done
    |intros ? ? Hx; exact Hx|by left]|intros ?]).
  unfold chown_if_root. destruct is_root; [|by apply hoare_ret]. intros w Hw. unfold fs_op.
  destruct (fs_fault _) as [[d m]|]; [right|]; by apply (stored_stays w).
Qed.

(** As it was, or with the value stored, or with a file of its own left over. *)
Definition settled (w : world) : Prop := w_files w = F \/ stored w \/ some_tmp w.

Lemma undo_hoare {A} (e : exn) : hoare (fun w => some_tmp w \/ stored w) (_ ← unlink desk tmp; throw (A := A) e) (fun _ _ => False) settled.
Proof.
  unfold unlink. rewrite tmp_name. intros w Hw. msimp. unfold fs_op, mbind, M_bind. cbn.
  destruct (fs_fault _) as [[d m]|]; cbn.
  - unfold settled. destruct Hw as [(f & Hw)|Hw]; [right; right; exists f; by apply (tmp_stays f w)|].
    right. left. by apply (stored_stays w).
  - destruct Hw as [(f & Hw)|Hw]; unfold settled, stored, has_tmp in *; cbn; rewrite Hw.
    + left. by rewrite delete_insert_id.
    + right. left. rewrite delete_id; [done|]. rewrite lookup_insert_ne; [done|]. congruence.
Qed.

Lemma write_atomic_hoare {A} (a : A) :
  hoare (has_tmp (mkFile "" false)) (_ ← catch body (fun e => _ ← unlink desk tmp; throw e); mret a) (fun _ => stored) settled.
Proof.
  eapply hoare_bind; [eapply hoare_catch; [apply body_hoare|intros e; eapply hoare_conseq; [apply undo_hoare|done|intros ? ? []|done]]|].
  intros ?. by apply hoare_ret.
Qed.
End Store.

Section Secrets.
Context `{Env}.

Lemma tmp_not_key key u : "." +:+ key +:+ "." +:+ u +:+ ".tmp" <> key.
Proof.
  intros E. apply (f_equal String.length) in E. cbn in E. rewrite length_app_s in E. lia.
Qed.

Lemma tmp_not_dir key u : is_dir_name ("." +:+ key +:+ "." +:+ u +:+ ".tmp") = false.
Proof.
  assert (forall t, is_dir_name t = true -> (String.length t <= 2)%nat) as Hd.
  { unfold is_dir_name. intros t [[->%is_empty_true| ->%String.eqb_eq]%orb_true_iff| ->%String.eqb_eq]%orb_true_iff; cbn; lia. }
  destruct (is_dir_name _) eqn:E; [|done]. apply Hd in E. rewrite !length_app_s in E. cbn in E. lia.
Qed.

(** What a failed or completed store leaves of the files. *)
Definition kept_or_stored (F F' : gmap (string * string) sfile) (desk key value : string) : Prop :=
  F' = F \/ F' = <[(desk, key) := mkFile value true]> F
  \/ exists tmp f, tmp <> key /\ F !! (desk, tmp) = None /\ F' = <[(desk, tmp) := f]> F.

Definition files_are (F : gmap (string * string) sfile) (w : world) : Prop := w_files w = F.

Lemma files_stay F w w' : state_view w' = state_view w -> files_are F w -> files_are F w'.
Proof. unfold files_are. intros E Hw. injection E as _ -> _. done. Qed.

Lemma mkstemp_hoare F desk key : hoare (files_are F) (mkstemp desk key)
  (fun tmp w => has_tmp F desk tmp (mkFile "" false) w
     /\ (F !! (desk, tmp) = None /\ tmp <> key /\ is_dir_name tmp = false)) (files_are F).
Proof.
  unfold mkstemp. apply (hoare_bind _ _ _ (fun _ => files_are F)); [by intros w Hw|]. intros u.
  apply fs_then; [apply files_stay|done|]. intros w Hw. msimp. rewrite Hw.
  destruct (F !! _) eqn:E; cbn [is_some]; [done|]. msimp. split; [unfold has_tmp; cbn; by rewrite Hw|].
  split_and!; [done|apply tmp_not_key|apply tmp_not_dir].
Qed.

Lemma write_secret_hoare F desk key value : hoare (files_are F) (_write_secret_atomic desk key value)
  (fun _ => stored F desk key value) (fun w => kept_or_stored F (w_files w) desk key value).
Proof.
  unfold _write_secret_atomic. eapply hoare_bind; [eapply hoare_conseq; [apply mkstemp_hoare|done|intros ? ? Hx; exact Hx|by left]|].
  intros tmp. apply hoare_pure. intros (Hf & Hk & Hd).
  eapply hoare_conseq; [apply (write_atomic_hoare F desk key value tmp); done|done|done|].
  intros w [?|[?|(f & ?)]]; [by left|right; by left|right; right]. exists tmp, f. done.
Qed.

Lemma validate_key_hoare F key : hoare (files_are F) (_validate_key_name key)
  (fun _ w => files_are F w /\ only key_char key) (files_are F).
Proof.
  unfold _validate_key_name. destruct (re_match _KEY_NAME_RE key) eqn:E; [|by apply hoare_throw].
  apply hoare_ret. intros w Hw. split; [done|]. eapply re_match_only; [|exact E]. by cbn.
Qed.

Lemma ws_id_hoare F n : hoare (files_are F) (_ws_id_for n) (fun desk w => files_are F w /\ only word_char desk) (files_are F).
Proof.
  unfold _ws_id_for. apply (hoare_bind _ _ _ (fun _ => files_are F)); [by intros w Hw|]. intros ws.
  destruct (re_match _ _) eqn:E; [|by apply hoare_throw].
  apply hoare_ret. intros w Hw. split; [done|]. eapply re_match_only; [|exact E].
  repeat split; intros c Hc; try done; apply Ascii.eqb_eq in Hc; by subst c.
Qed.

Lemma quiet_then {A B} F (m : W A) (k : A -> W B) R (X : world -> Prop) : quiet db_files m ->
  (forall w, files_are F w -> X w) -> (forall a, hoare (files_are F) (k a) R X) -> hoare (files_are F) (m ≫= k) R X.
Proof.
  intros Hm%quiet_files HX Hk. apply (hoare_bind _ _ _ (fun _ => files_are F)); [|done].
  intros w Hw. specialize (Hm w). unfold files_are in *. destruct (m w) as [[a|e] w1]; cbn in Hm; [congruence|apply HX; unfold files_are; congruence].
Qed.

End Secrets.

(** ** Dry runs *)

(** Everything but the counters of the clock, the ids and the file operations, and but the path [q]. *)
Definition all_but (q : string) (w : world) : db * gmap (string * string) sfile * list json * list call * gmap string node :=
  (w_db w, w_files w, w_audit w, w_calls w, delete q (w_host w)).

Section DryRuns.
Context `{Env} (exchange : string -> W string) (urlopen : string -> string -> string -> W (Z * string)) (q : string).

Lemma still_fs_op : quiet (all_but q) fs_op.
Proof. intros w. unfold fs_op. by destruct (fs_fault _) as [[? ?]|]. Qed.
Lemma still_get {A} (f : db -> A) : quiet (all_but q) (reg_get f).
Proof. done. Qed.
Lemma still_exists p : quiet (all_but q) (path_exists p).
Proof. done. Qed.
Lemma still_now : quiet (all_but q) _utc_now.
Proof. done. Qed.
#[local] Hint Resolve still_fs_op still_get still_exists still_now : quiet.

Lemma still_read p : quiet (all_but q) (host_read p).
Proof.
  unfold host_read. apply quiet_bind; [apply still_fs_op|]. intros _. apply quiet_bind; [done|]. by intros [[]|].
Qed.

Lemma still_write d : quiet (all_but q) (host_write q d).
Proof.
  assert (forall w, all_but q (set_host (<[q := NFile d]> (w_host w)) w) = all_but q w) as Hw.
  { intros w. unfold all_but. cbn. by rewrite delete_insert_eq. }
  unfold host_write. apply quiet_bind; [apply still_fs_op|]. intros _. apply quiet_bind; [done|].
  intros [[]|]; [done|..]; by apply quiet_modify.
Qed.
#[local] Hint Resolve still_read still_write : quiet.

Lemma still_load prj : quiet (all_but q) (load_project_config prj).
Proof. unfold load_project_config. quiet_step. Qed.

Lemma still_desk n f : quiet (all_but q) (desk_or n f).
Proof. unfold desk_or, missing_desk. quiet_step. Qed.
#[local] Hint Resolve still_load still_desk : quiet.

Lemma still_preview a p : quiet (all_but q) (create_preview a p).
Proof. unfold create_preview, refuse_existing, new_drydock. quiet_step. Qed.
#[local] Hint Resolve still_preview : quiet.
End DryRuns.

(** A dry run does nothing: with [--dry-run], [create], [stop] and [destroy] leave the registry, the secrets, the audit
    log and every file as they are and run no command and no call of the daemon, whatever they report; the one exception is
    the empty [~/.gitconfig] that [create] makes where there is none. *)
Theorem dry_runs_do_nothing `{Env} exchange urlopen n force a w :
  all_but (home // ".gitconfig") (snd (cli_create exchange true a w)) = all_but (home // ".gitconfig") w
  /\ snd (cli_stop true n w) = w /\ snd (cli_destroy exchange urlopen true force n w) = w.
Proof.
  split_and!.
  - set (q := home // ".gitconfig"). enough (quiet (all_but q) (cli_create exchange true a)) as Hq by apply Hq.
    unfold cli_create, _ensure_gitconfig_stub. fold q.
    pose proof (still_exists q q). pose proof (still_write q ""). pose proof (fun prj => still_load q prj).
    pose proof (fun p => still_preview q a p). quiet_step.
  - unfold cli_stop, desk_or, missing_desk, reg_get. msimp. destruct (get_drydock n (w_db w)) as [ws|]; [|done]. msimp.
    by destruct (negb _).
  - unfold cli_destroy, desk_or, missing_desk, reg_get. msimp. by destruct (get_drydock n (w_db w)).
Qed.

(** ** Without a daemon *)

(** What a desk was granted. *)
Definition grants (w : world) : list lease_row * list token_row * gmap (string * string) sfile :=
  (leases (w_db w), tokens (w_db w), w_files w).

Section Direct.
Context `{Env} (urlopen : string -> string -> string -> W (Z * string)).
Context (urlopen_grants : forall m u t, quiet grants (urlopen m u t)).

Lemma grants_db_files {A} (m : W A) : quiet db_files m -> quiet grants m.
Proof. intros Hm w. pose proof (Hm w) as E. injection E as Ed Ef. unfold grants. by rewrite Ed, Ef. Qed.
#[local] Hint Extern 3 (quiet grants _) => simple apply grants_db_files : quiet.
#[local] Hint Resolve urlopen_grants : quiet.

Lemma grants_audit ev i x : quiet grants (audit_log_event ev i x).
Proof. apply grants_db_files. unfold audit_log_event, _append. quiet_step. Qed.

Lemma grants_delete n : quiet grants (delete_desk_row n).
Proof.
  unfold delete_desk_row. apply quiet_bind; [apply grants_db_files, quiet_state, quiet_now_text|]. intros now w.
  unfold reg, delete_drydock. rewrite gets_bind. by destruct (get_drydock n (w_db w)).
Qed.

Lemma grants_container ws : quiet grants (container_gone ws).
Proof. apply grants_db_files. unfold container_gone, best_effort, tailnet_logout, stop, Container.remove, docker_step. quiet_step. Qed.
Lemma grants_checkout ws : quiet grants (checkout_gone ws).
Proof. apply grants_db_files. unfold checkout_gone, best_effort, remove_checkout. quiet_step. Qed.
Lemma grants_overlay ws : quiet grants (overlay_gone ws).
Proof. apply grants_db_files. unfold overlay_gone, best_effort, remove_overlay. quiet_step. Qed.
#[local] Hint Resolve grants_audit grants_delete grants_container grants_checkout grants_overlay : quiet.

Lemma grants_request m u t : quiet grants (_request urlopen m u t).
Proof. unfold _request. quiet_step. Qed.
#[local] Hint Resolve grants_request : quiet.

Lemma grants_tailnet ws : quiet grants (_delete_tailnet_device_best_effort urlopen ws).
Proof.
  unfold _delete_tailnet_device_best_effort, load_admin_credentials, find_devices, delete_tailnet_device, device_event. quiet_step.
Qed.

(** Without a daemon [ws destroy] takes no lease back, revokes no token and removes no secret: what the desk was granted
    is still on record when the desk is not. *)
Theorem direct_destroy_keeps_grants n w : grants (snd (destroy_direct urlopen n w)) = grants w.
Proof.
  enough (quiet grants (destroy_direct urlopen n)) as Hq by apply Hq. unfold destroy_direct.
  apply quiet_bind; [apply grants_db_files, quiet_state; unfold desk_or, missing_desk; quiet_step|]. intros ws.
  pose proof (grants_tailnet ws). quiet_step.
Qed.
End Direct.

(** ** Upgrade *)

Lemma absent_app {A} k (a b : list (string * A)) : ~ In k (map fst a) -> ~ In k (map fst b) -> ~ In k (map fst (a ++ b)).
Proof. intros Ha Hb. rewrite map_app, in_app_iff. tauto. Qed.

Lemma absent_if keep k x v : k <> x -> ~ In k (map fst (set_field_if keep x v)).
Proof. unfold set_field_if. intros Hne. destruct (keep v); cbn; [|tauto]. intros [E|[]]. congruence. Qed.

(** What a desk may be granted. *)
Definition GRANT_FIELDS : list string :=
  ["capabilities"; "secret_entitlements"; "delegatable_secrets"; "delegatable_firewall_domains"; "delegatable_storage_scopes";
   "delegatable_provision_scopes"; "delegatable_network_reach"; "network_reach_ports"; "resources_hard"; "yard"; "extra_env";
   "storage_mounts"; "workspace_subdir"; "firewall_aws_ip_ranges"; "egress_proxy"].

(** The desk that [ws upgrade] has recreated is asked for without its grants, its hard limits and its mounts, whatever
    its project declares. *)
Theorem upgrade_asks_no_grants proj_cfg k : In k GRANT_FIELDS -> ~ In k (map fst (upgrade_overlay_params proj_cfg)).
Proof.
  intros Hk. destruct proj_cfg as [p|]; [|cbn; tauto]. unfold upgrade_overlay_params, given, nonempty.
  cbn [In GRANT_FIELDS] in Hk. decompose [or] Hk; try contradiction; subst k;
    repeat apply absent_app; try (apply absent_if; discriminate); destruct (_ && _); cbn; intuition discriminate.
Qed.

(** ** Reload *)

Definition row_capabilities (w : world) : list json := map dr_capabilities (drydocks (w_db w)).

Definition keeps_capabilities (f : dock_field) : Prop := match f with F_capabilities _ => False | _ => True end.

Lemma set_fields_capabilities fs r : Forall keeps_capabilities fs -> dr_capabilities (set_fields fs r) = dr_capabilities r.
Proof.
  intros Hf. revert r. induction Hf as [|f fs Hf _ IH]; intros r; [done|]. cbn [set_fields fold_left]. fold (set_fields fs (set_field f r)).
  rewrite IH. by destruct f.
Qed.

Lemma opt_field_keeps {A} (mk : A -> dock_field) o : (forall a, keeps_capabilities (mk a)) -> Forall keeps_capabilities (opt_field mk o).
Proof. intros Hm. destruct o; cbn; auto. Qed.

(** A project that lists no capability any more leaves the desks the capabilities they had when it is reloaded: an empty list
    revokes nothing. *)
Theorem reload_revokes_nothing `{Env} n p : truthy (pc_capabilities p) = false ->
  forall w, row_capabilities (snd (reload_delegations n p w)) = row_capabilities w.
Proof.
  intros Hc w. assert (delegation (pc_capabilities p) = Ok None) as Ec by (unfold delegation; by rewrite Hc).
  unfold reload_delegations. rewrite Ec, lift_bind.
  match goal with |- row_capabilities (snd (?m w)) = _ => enough (quiet row_capabilities m) as Hq by apply Hq end.
  do 5 (apply quiet_bind; [done|intros ?]). intros w'. unfold reg, update_desk_delegations.
  match goal with |- context [match ?l with [] => _ | _ => _ end] => assert (Forall keeps_capabilities l) as Hf
    by (rewrite !Forall_app; split_and!; first [by apply opt_field_keeps | constructor]); destruct l as [|f fs] end; [done|].
  unfold update_drydock. cbn [snd set_db w_db]. unfold row_capabilities. apply tbl_update_map. intros r.
  apply set_fields_capabilities, Forall_app. split; [done|]. by constructor.
Qed.
