(* ===== verification/CliStatus.v ===== *)
(** [cli/status.py] and [core/compliance.py]: the health row of every desk, from what docker, the devcontainer CLI, the files of
    the desk and its compliance file say. Texts are bytes; what [yaml.safe_load] makes of the compliance file is a type of its
    own here, since YAML has dates. *)

From S2P Require Import Prelude PyStr PyVal Registry World Overlay Container Deskwatch CliRepo HostAudit.
From Stdlib Require Import List.
From Corelib Require Import SpecFloat.

(** ** [compliance.py] *)

(** A value of the file: a date as its ordinal, a date with a time, or any other value. *)
Inductive yaml_value : Type := YDate (day : Z) | YDatetime | YPlain (v : json).
(** The document: [None], a mapping, or a value of another type. *)
Inductive yaml_doc : Type := YNone | YMapping (l : list (string * yaml_value)) | YOther (type : string).

(** What the rest of the program reads of a [ComplianceConfig]. *)
Record ComplianceConfig : Type := mkCompliance {
  cc_last_reviewed : option yaml_value; cc_review_cadence_days : yaml_value
}.

(** The other fields, each with its default for an empty value, are not read anywhere. *)
Definition no_compliance : ComplianceConfig := mkCompliance None (YPlain JNull).

Definition yaml_get (k : string) (l : list (string * yaml_value)) : yaml_value :=
  match assoc k l with Some v => v | None => YPlain JNull end.

Definition yaml_type (v : yaml_value) : string :=
  match v with YDate _ => "datetime.date" | YDatetime => "datetime.datetime" | YPlain v => type_name v end.

(** A number of days plus the cadence. *)
Definition plus_days (days : Z) (cadence : yaml_value) : res exn json :=
  match cadence with
  | YPlain (JInt n) => Ok (JInt (days + n))
  | YPlain (JBool b) => Ok (JInt (days + if b then 1 else 0))
  | YPlain (JFloat f) => Ok (JFloat (SFadd prec emax (sf_of_Z days) f))
  | v => Err (PyError "TypeError" ("unsupported operand type(s) for +: 'int' and '" +:+ yaml_type v +:+ "'"))
  end.

(** [days < 0] and [-days]. *)
Definition overdue (days : json) : option json :=
  match days with
  | JInt n => if n <? 0 then Some (JInt (- n)) else None
  | JFloat f => if SFltb f (S754_zero false) then Some (JFloat (SFopp f)) else None
  | _ => None
  end.

Section Compliance.
(** [yaml.safe_load] of such a file, [None] for a [YAMLError]; [date.fromisoformat]; and [date.today()]. *)
Context `{Env} (yaml_dated : string -> option yaml_doc) (date_fromisoformat : string -> option Z) (today : Z).

Definition _coerce_date (value : yaml_value) : option yaml_value :=
  match value with
  | YDate _ | YDatetime => Some value
  | YPlain (JStr s) => option_map YDate (date_fromisoformat s)
  | YPlain _ => None
  end.

Definition load_compliance (drydock_root : string) : W (option ComplianceConfig) :=
  let path := drydock_root // "compliance.yaml" in
  there ← path_exists path;
  if negb there then mret None
  else
    text ← host_read path;
    match yaml_dated text with
    | None => throw (WsError ("Invalid YAML in " +:+ path) (Some ("Check " +:+ path +:+ " for syntax errors")))
    | Some YNone => mret (Some no_compliance)
    | Some (YOther t) =>
        throw (WsError ("compliance.yaml at " +:+ path +:+ " must be a YAML mapping, got " +:+ t)
                 (Some ("Rewrite " +:+ path +:+ " as key-value pairs")))
    | Some (YMapping raw) =>
        mret (Some (mkCompliance (_coerce_date (yaml_get "last_reviewed" raw)) (yaml_get "review_cadence_days" raw)))
    end.

(** [None] where one of the two is missing. *)
Definition days_until_review (cfg : ComplianceConfig) : res exn (option json) :=
  match cc_last_reviewed cfg, cc_review_cadence_days cfg with
  | None, _ | _, YPlain JNull => Ok None
  | Some (YDate day), cadence => n ← plus_days (day - today) cadence; Ok (Some n)
  | Some _, _ => Err (PyError "TypeError" "unsupported operand type(s) for -: 'datetime.datetime' and 'datetime.date'")
  end.

Definition is_stale (cfg : ComplianceConfig) : res exn bool :=
  days ← days_until_review cfg;
  Ok (match days with Some d => match overdue d with Some _ => true | None => false end | None => false end).

Definition review_status (cfg : ComplianceConfig) : res exn string :=
  days ← days_until_review cfg;
  Ok (match days with
      | None => "incomplete"
      | Some d => match overdue d with Some late => "stale (" +:+ py_str late +:+ " days overdue)" | None => "ok" end
      end).

Definition _probe_compliance (ws : Drydock) : W json :=
  if is_empty (worktree_path ws) then mret JNull
  else
    cfg ← catch (c ← load_compliance (worktree_path ws); mret (inr c))
            (fun e => match e with WsError message _ => mret (inl message) | e => throw e end);
    match cfg with
    | inl message => mret (JStr ("error: " +:+ message))
    | inr None => mret JNull
    | inr (Some cfg) => s ← lift (review_status cfg); mret (JStr s)
    end.
End Compliance.

(** ** Texts that the probes read *)

(** The digits at the head of [s], after [pre] blanks; [None] without a digit. *)
Fixpoint take_digits (s : string) : string :=
  match s with String c s' => if is_digit c then String c (take_digits s') else "" | EmptyString => "" end.
Definition number_at (s : string) : option Z :=
  let d := take_digits s in if is_empty d then None else Some (int_of_digits d).

(** [re.search(r"Number of entries:\s*(\d+)", s)]. *)
Fixpoint search_size (s : string) : option Z :=
  match (if startswith s "Number of entries:" then number_at (lstrip_by is_space (sdrop 18 s)) else None) with
  | Some n => Some n
  | None => match s with String _ s' => search_size s' | EmptyString => None end
  end.

Definition is_word (c : ascii) : bool := is_upper c || is_lower c || is_digit c || Ascii.eqb c "_".

(** [re.search(r"\bmaxelem\s+(\d+)", s)]; [after_word]: the character before is of a word. *)
Fixpoint search_max (after_word : bool) (s : string) : option Z :=
  match (if negb after_word && startswith s "maxelem"
         then match after_blanks (sdrop 7 s) with Some r => number_at r | None => None end else None) with
  | Some n => Some n
  | None => match s with String c s' => search_max (is_word c) s' | EmptyString => None end
  end.

Definition ipset_size (stdout : string) : json :=
  match search_size stdout, search_max false stdout with
  | Some size, Some max => JObj [("size", JInt size); ("max", JInt max)]
  | _, _ => JNull
  end.

(** [entry == workspace_folder] for an entry that is a text or names a folder; [None] for another. *)
Definition _trusted_drydock_entry_matches (entry workspace_folder : json) : option bool :=
  match entry with
  | JStr _ => Some (py_eq entry workspace_folder)
  | JObj o => option_map (fun v => py_eq v workspace_folder) (List.find is_str (map (fun k => jget k o) ["path"; "workspaceFolder"]))
  | _ => None
  end.

(** [True] for a match, [False] if some entry was recognized and none matched. *)
Fixpoint trusted_in_list (saw_recognized : bool) (entries : list json) (workspace_folder : json) : json :=
  match entries with
  | [] => if saw_recognized then JBool false else JNull
  | e :: es =>
      match _trusted_drydock_entry_matches e workspace_folder with
      | None => trusted_in_list saw_recognized es workspace_folder
      | Some true => JBool true
      | Some false => trusted_in_list true es workspace_folder
      end
  end.

(** The value of [trustedWorkspaces]. *)
Definition trust_of (trusted workspace_folder : json) : res exn json :=
  match trusted with
  | JObj o =>
      if is_container workspace_folder then Err (PyError "TypeError" ("unhashable type: '" +:+ type_name workspace_folder +:+ "'"))
      else Ok (JBool (match workspace_folder with JStr f => has_key f o | _ => false end))
  | JList l => Ok (trusted_in_list false l workspace_folder)
  | _ => Ok JNull
  end.

(** [re.match(r"FROM\s+([^\s]+)", line, re.IGNORECASE)]. *)
Definition from_image (line : string) : option string :=
  s ← after_ci "from" line;
  s ← after_blanks s;
  let image := take_word s in
  if is_empty image then None else Some image.

Fixpoint first_from (lines : list string) : option string :=
  match lines with
  | [] => None
  | raw_line :: rest =>
      let line := strip raw_line in
      if is_empty line || startswith line "#" then first_from rest
      else match from_image line with Some image => Some image | None => first_from rest end
  end.

(** The lines of a file opened as text. *)
Definition file_lines (text : string) : list string := split_on newline (replace_char "013" (String newline "") text).

Definition _INIT_LOG_PATHS : list string :=
  ["/tmp/pip-install.log"; "/tmp/storage-mounts.log"; "/tmp/firewall-refresh.log"; "/tmp/remote-control.log"].
Definition _INIT_LOG_ERROR_MARKERS : list string := ["Traceback"; "ERROR"; "error:"; "FATAL"; "No such"].

Definition last_nonblank (lines : list string) : string :=
  match List.find (fun l => negb (is_empty (strip l))) (rev lines) with Some l => l | None => "" end.

(** The status of a log with something in it. *)
Definition log_status (out : string) : string :=
  if existsb (fun m => contains m out) _INIT_LOG_ERROR_MARKERS
  then "errored: " +:+ stake 120 (last_nonblank (splitlines out)) else "ok".

(** ** Probes *)

Definition REFRESH_SENTINEL_EXIT : Z := 42.

Section Probes.
Context `{Env}.

(** [except (subprocess.TimeoutExpired, OSError)] around a run: what it gave, if it ran. *)
Definition probe (argv : list string) : W (option (Z * string * string)) := try_run (mkCall argv "").

Definition succeeds (argv : list string) : W bool :=
  r ← probe argv; mret (match r with Some (rc, _, _) => rc =? 0 | None => false end).

Fixpoint _docker_container_id (candidate_paths : list string) : W string :=
  match candidate_paths with
  | [] => mret ""
  | path :: rest =>
      if is_empty path then _docker_container_id rest
      else
        r ← try_run (ps_call path);
        match r with
        | Some (_, stdout, _) => let cid := first_line stdout in if is_empty cid then _docker_container_id rest else mret cid
        | None => _docker_container_id rest
        end
  end.

Definition _probe_tailscale (container_id : string) : W bool := succeeds ["docker"; "exec"; container_id; "tailscale"; "status"].
Definition _probe_supervisor (container_id : string) : W bool :=
  succeeds ["docker"; "exec"; container_id; "pgrep"; "-f"; "start-remote-control"].
Definition _probe_firewall (container_id : string) : W bool :=
  r ← probe ["docker"; "exec"; container_id; "sudo"; "iptables"; "-L"; "OUTPUT"];
  mret (match r with Some (rc, stdout, _) => (rc =? 0) && contains "DROP" stdout | None => false end).

(** [DevcontainerCLI.exec_command], which sets no time limit. *)
Definition exec_command (workspace_folder : string) (command : list string) : W (Z * string * string) :=
  run_uncaught (mkCall (["devcontainer"; "exec"; "--workspace-folder"; workspace_folder] ++ command) "").

(** [None] without a worktree or where the command cannot be run. *)
Definition _exec_in_drydock (ws : Drydock) (command : list string) : W (option (Z * string * string)) :=
  if is_empty (worktree_path ws) then mret None
  else catch (r ← exec_command (_effective_workspace_folder ws) command; mret (Some r))
         (fun e => if is_os_error e then mret None else throw e).

Definition refresh_command : list string :=
  ["sh"; "-lc"; "if [ ! -x /usr/local/bin/refresh-firewall-allowlist.sh ]; then exit " +:+ str_of_Z REFRESH_SENTINEL_EXIT
                +:+ "; fi; pgrep -f refresh-firewall-allowlist.sh"].

Definition _probe_refresh_supervisor (ws : Drydock) (firewall_status : string) : W string :=
  if negb (firewall_status =s "active") then mret "not_applicable"
  else
    result ← _exec_in_drydock ws refresh_command;
    mret (match result with
          | None => "not_applicable"
          | Some (rc, stdout, _) =>
              if rc =? REFRESH_SENTINEL_EXIT then "not_applicable"
              else if (rc =? 0) && negb (is_empty (strip stdout)) then "alive" else "dead"
          end).

Definition _probe_ipset (ws : Drydock) : W json :=
  result ← _exec_in_drydock ws ["ipset"; "list"; "allowed-domains"; "-t"];
  mret (match result with Some (0, stdout, _) => ipset_size stdout | _ => JNull end).

Definition _read_workspace_folder (ws : Drydock) : W json :=
  overlay_path ← lift (stored_overlay ws);
  if truthy overlay_path then folder_at overlay_path else mret (JStr "/drydock").

Definition _probe_trust_accepted (ws : Drydock) : W json :=
  result ← _exec_in_drydock ws ["cat"; "/home/node/.claude/.claude.json"];
  match result with
  | Some (0, stdout, _) =>
      match json_loads stdout with
      | None => mret JNull
      | Some (JObj data) =>
          match jget "trustedWorkspaces" data with
          | JNull => mret JNull
          | trusted => folder ← _read_workspace_folder ws; lift (trust_of trusted folder)
          end
      | Some v => lift (attr_error v "get")
      end
  | _ => mret JNull
  end.

Definition _docker_inspect_value (container_id template : string) : W string :=
  r ← probe ["docker"; "inspect"; container_id; "--format"; template];
  mret (match r with
        | Some (0, stdout, _) => let value := strip stdout in if value =s "<no value>" then "" else value
        | _ => ""
        end).

(** The overlay read as JSON, [None] where it cannot be. *)
Definition read_overlay (overlay_path : json) : W (option json) :=
  match overlay_path with
  | JStr p =>
      catch (t ← host_read (path_str p); v ← lift (json_decode t); mret (Some v))
        (fun e => if is_os_error e || (exn_class e =s "JSONDecodeError") then mret None else throw e)
  | JInt _ | JBool _ => mret None
  | v => lift (Err (PyError "TypeError" ("expected str, bytes or os.PathLike object, not " +:+ type_name v)))
  end.

Definition nonempty_str (v : json) : option string :=
  match v with JStr s => if is_empty s then None else Some s | _ => None end.

Definition dockerfile_in (overlay_path : string) (overlay : obj) : option string :=
  let of_build := match jget "build" overlay with JObj build => nonempty_str (jget "dockerfile" build) | _ => None end in
  match of_build, nonempty_str (jget "dockerFile" overlay) with
  | Some dockerfile, _ => Some (path_str dockerfile)
  | None, Some dockerfile =>
      Some (if is_absolute dockerfile then path_str dockerfile else path_parent overlay_path // dockerfile)
  | None, None => None
  end.

Definition _dockerfile_from_overlay (ws : Drydock) : W (option string) :=
  overlay_path ← lift (stored_overlay ws);
  if negb (truthy overlay_path) then mret None
  else
    overlay ← read_overlay overlay_path;
    match overlay, overlay_path with
    | None, _ => mret None
    | Some (JObj o), JStr p => mret (dockerfile_in (path_str p) o)
    | Some v, _ => lift (attr_error v "get")
    end.

Definition _parse_dockerfile_from (dockerfile_path : string) : W (option string) :=
  catch (text ← host_read dockerfile_path; mret (first_from (file_lines text)))
    (fun e => if is_os_error e then mret None else throw e).

Definition LABEL_TEMPLATE : string :=
  "{{index .Config.Labels " +:+ String dquote "org.opencontainers.image.ref.name" +:+ String dquote "}}".

Definition _probe_base_image (ws : Drydock) (container_id : string) : W json :=
  if is_empty container_id then mret JNull
  else
    label_ref ← _docker_inspect_value container_id LABEL_TEMPLATE;
    if negb (is_empty label_ref) then mret (JStr label_ref)
    else
      config_image ← _docker_inspect_value container_id "{{.Config.Image}}";
      if contains "drydock-base" config_image then mret (JStr config_image)
      else
        dockerfile ← _dockerfile_from_overlay ws;
        match dockerfile with
        | None => mret JNull
        | Some p => image ← _parse_dockerfile_from p; mret (opt_str image)
        end.

Definition log_command (container_id path : string) : list string :=
  ["docker"; "exec"; container_id; "sh"; "-c"; "test -f " +:+ path +:+ " && tail -n 20 " +:+ path +:+ " || echo __MISSING__"].

(** The entry of one log: none where it is missing, empty or cannot be asked for. *)
Definition probe_log (container_id path : string) : W obj :=
  r ← probe (log_command container_id path);
  mret (match r with
        | None => []
        | Some (_, stdout, _) =>
            let out := strip stdout in
            if (out =s "__MISSING__") || is_empty out then [] else [(path_name path, JStr (log_status out))]
        end).

Definition _probe_init_logs (container_id : string) : W json :=
  if is_empty container_id then mret JNull
  else
    results ← mapM (probe_log container_id) _INIT_LOG_PATHS;
    mret (match concat results with [] => JNull | o => JObj o end).

(** ** The rows *)

Definition row_of (ws : Drydock) (container tailscale supervisor firewall refresh : string)
    (ipset trust base_image init_logs compliance : json) : obj :=
  [("name", JStr (name ws)); ("state", JStr (state ws)); ("container", JStr container); ("tailscale", JStr tailscale);
   ("supervisor", JStr supervisor); ("firewall", JStr firewall); ("refresh_supervisor", JStr refresh); ("ipset", ipset);
   ("trust_accepted", trust); ("base_image", base_image); ("init_logs", init_logs); ("compliance", compliance)].

Definition no_container_row (ws : Drydock) (compliance : json) : obj :=
  row_of ws "not found" "unknown" "unknown" "unknown" "not_applicable" JNull JNull JNull JNull compliance.

Definition running_row (ws : Drydock) (cid : string) (compliance : json) : W obj :=
  joined ← _probe_tailscale cid;
  alive ← _probe_supervisor cid;
  active ← _probe_firewall cid;
  let firewall := if active : bool then "active" else "inactive" in
  refresh ← _probe_refresh_supervisor ws firewall;
  ipset ← _probe_ipset ws;
  trust ← _probe_trust_accepted ws;
  base_image ← _probe_base_image ws cid;
  init_logs ← _probe_init_logs cid;
  mret (row_of ws "running" (if joined : bool then "joined" else "disconnected") (if alive : bool then "alive" else "dead")
          firewall refresh ipset trust base_image init_logs compliance).

Context (yaml_dated : string -> option yaml_doc) (date_fromisoformat : string -> option Z) (today : Z).

Definition _probe_drydock (ws : Drydock) : W obj :=
  compliance ← _probe_compliance yaml_dated date_fromisoformat today ws;
  if is_empty (worktree_path ws) then mret (no_container_row ws compliance)
  else
    cid ← _docker_container_id [_effective_workspace_folder ws; worktree_path ws];
    if is_empty cid then mret (no_container_row ws compliance) else running_row ws cid compliance.

Definition cli_status : W (list obj) :=
  drydocks ← reg_get (list_drydocks None None);
  mapM _probe_drydock drydocks.
End Probes.
