(* ===== verification/CliHost.v ===== *)
(** [cli/host.py], [core/migrate_v1_artifacts.py] and [cli/daemon.py]: setting up the host, checking it, and the process of the
    daemon. To the world of the daemon this adds the modes of paths and the symbolic links, and for the process the
    signals sent and the processes started. *)

From S2P Require Import Prelude PyStr PyVal Datetime Registry World Container Measure Watch Client CliDesk CliAuditor HostAudit.
From Stdlib Require Import List.
From Corelib Require Import SpecFloat.

(** ** The host's files with their modes *)

Record host_state : Type := mkHost {
  hs_world : world;
  (** [st_mode & 0o777], 0o755 where nothing is recorded *)
  hs_modes : gmap string Z;
  hs_links : gmap string string
}.
Abbreviation H := (M host_state exn).

Definition set_hs_world (w : world) (h : host_state) : host_state := mkHost w (hs_modes h) (hs_links h).
Definition set_hs_modes (m : gmap string Z) (h : host_state) : host_state := mkHost (hs_world h) m (hs_links h).
Definition set_hs_links (l : gmap string string) (h : host_state) : host_state := mkHost (hs_world h) (hs_modes h) l.

Definition on_world {X} (m : W X) : H X := fun h => let '(r, w) := m (hs_world h) in (r, set_hs_world w h).

(** [oct(n)] for [0 <= n < 0o10000]. *)
Definition oct_digits (n : Z) : string :=
  str_of_Z (1000 * (n / 512 mod 8) + 100 * (n / 64 mod 8) + 10 * (n / 8 mod 8) + n mod 8).
Definition oct (n : Z) : string := "0o" +:+ oct_digits n.

Definition mode_of (p : string) (h : host_state) : Z := default 493 (hs_modes h !! p).

(** Where a path leads through links; the fuel is the number of links, which a cycle exhausts. *)
Fixpoint follow (fuel : nat) (p : string) (links : gmap string string) : option string :=
  match links !! p with
  | None => Some p
  | Some dst => match fuel with O => None | S fuel => follow fuel (path_parent p // dst) links end
  end.

Definition link_exists (p : string) (h : host_state) : bool :=
  match follow (size (hs_links h)) p (hs_links h) with
  | Some q => is_some (w_host (hs_world h) !! q)
  | None => false
  end.

Section Host.
(** [linux]: [sys.platform]; the mode of a new directory; and the root of the repository that the package runs from. *)
Context `{Env} (linux : bool) (dir_mode : Z) (package_root : option string).

Definition exists_ (p : string) : H bool := gets (link_exists p).

(** [path.mkdir(parents=True, exist_ok=True)]; [exist_ok] matters where there is a file only. *)
Definition h_mkdir (p : string) : H unit :=
  new ← gets (fun h => List.filter (fun q => negb (is_some (w_host (hs_world h) !! q))) (path_chain p));
  _ ← on_world (mkdir_p p);
  modify (fun h => set_hs_modes (fold_right (fun q m => <[q := dir_mode]> m) (hs_modes h) new) h).

(** [os.chmod]. *)
Definition chmod (p : string) (mode : Z) : H unit :=
  _ ← on_world fs_op; modify (fun h => set_hs_modes (<[p := mode]> (hs_modes h)) h).

(** ** [ws host init] *)

Definition state_root : string := home // ".drydock".

(** Name, path and mode of each. *)
Definition _drydock_state_dirs : list (string * (string * Z)) :=
  map (fun nm => (fst nm, (state_root // fst nm, snd nm)))
    [("projects", 493); ("secrets", 448); ("worktrees", 493); ("overlays", 493); ("daemon-secrets", 448); ("logs", 493);
     ("bin", 493); ("run", 493)].

(** One directory: what was done. *)
Definition init_dir (path : string) (mode : Z) : H (list string) :=
  there ← exists_ path;
  created ← (if there : bool then mret [] else _ ← h_mkdir path; mret ["created " +:+ path]);
  actual_mode ← gets (mode_of path);
  changed ← (if actual_mode =? mode then mret [] else _ ← chmod path mode; mret ["chmod " +:+ oct mode +:+ " " +:+ path]);
  mret (created ++ changed).

Fixpoint init_dirs (dirs : list (string * (string * Z))) : H (list string) :=
  match dirs with
  | [] => mret []
  | (_, (path, mode)) :: dirs => a ← init_dir path mode; l ← init_dirs dirs; mret (a ++ l)
  end.

(** ** [migrate_v1_artifacts.py] *)

Definition renamed_path (old new p : string) : string :=
  if p =s old then new
  else if startswith p (old +:+ "/") then new +:+ sdrop (String.length old) p else p.

Definition rename_in {X} (old new : string) (m : gmap string X) : gmap string X :=
  list_to_map (map (fun kv => (renamed_path old new (fst kv), snd kv)) (map_to_list m)).

(** The secrets of a desk move with its directory. *)
Definition rename_secrets (old new : string) (f : gmap (string * string) sfile) : gmap (string * string) sfile :=
  list_to_map (map (fun kv => let '((desk, n), s) := kv in
                              ((if secrets_root // desk =s old then path_name new else desk, n), s)) (map_to_list f)).

(** [path.rename(target)]. *)
Definition rename_path (old new : string) : H unit :=
  _ ← on_world fs_op;
  modify (fun h => mkHost (set_files (rename_secrets old new (w_files (hs_world h)))
                             (set_host (rename_in old new (w_host (hs_world h))) (hs_world h)))
                     (rename_in old new (hs_modes h)) (rename_in old new (hs_links h))).

Definition children_of (dir : string) (h : gmap string node) : list string :=
  List.filter (fun p => path_parent p =s dir) (map fst (map_to_list h)).

(** What was renamed and what was skipped. *)
Abbreviation summary := (list string * list string)%type.
Definition add_summary (a b : summary) : summary := (fst a ++ fst b, snd a ++ snd b).

Definition arrow (a b : string) : string := a +:+ " → " +:+ b.

Definition rename_artifact (child target : string) : H summary :=
  taken ← exists_ target;
  if taken : bool then mret ([], [child +:+ " (target exists)"])
  else _ ← rename_path child target; mret ([arrow child target], []).

Fixpoint rename_children (children : list string) : H summary :=
  match children with
  | [] => mret ([], [])
  | child :: rest =>
      if startswith (path_name child) "ws_" then
        a ← rename_artifact child (path_parent child // ("dock_" +:+ sdrop 3 (path_name child)));
        b ← rename_children rest; mret (add_summary a b)
      else rename_children rest
  end.

Definition rename_in_dir (dir : string) : H summary :=
  found ← gets (fun h => w_host (hs_world h) !! dir);
  if is_ndir found then children ← gets (fun h => children_of dir (w_host (hs_world h))); rename_children children
  else mret ([], []).

Definition _TOP_LEVEL_RENAMES : list (string * string) :=
  [("wsd.toml", "daemon.toml"); ("wsd.log", "daemon.log"); ("logs/wsd-systemd.log", "logs/daemon-systemd.log");
   ("logs/wsd-launchd.log", "logs/daemon-launchd.log")].

Fixpoint rename_top (root : string) (l : list (string * string)) : H summary :=
  match l with
  | [] => mret ([], [])
  | (old_rel, new_rel) :: rest =>
      let old_path := root // old_rel in
      let new_path := root // new_rel in
      there ← exists_ old_path;
      a ← (if negb there then mret ([], [])
           else
             taken ← exists_ new_path;
             if taken : bool then mret ([], [old_path +:+ " (target exists)"])
             else _ ← h_mkdir (path_parent new_path); _ ← rename_path old_path new_path; mret ([arrow old_path new_path], []));
      b ← rename_top root rest;
      mret (add_summary a b)
  end.

Definition migrate_v1_artifacts (root : string) : H summary :=
  there ← exists_ root;
  if negb there then mret ([], [])
  else
    a ← rename_in_dir (root // "secrets");
    b ← rename_in_dir (root // "worktrees");
    c ← rename_in_dir (root // "overlays");
    d ← rename_top root _TOP_LEVEL_RENAMES;
    mret (add_summary a (add_summary b (add_summary c d))).

(** ** The other steps of [init] *)

Definition gitconfig : string := home // ".gitconfig".

(** [gitconfig.touch(mode=0o644)] where there is none. *)
Definition touch_gitconfig : H (list string) :=
  there ← exists_ gitconfig;
  if there : bool then mret []
  else
    _ ← on_world (host_write gitconfig "");
    _ ← modify (fun h => set_hs_modes (<[gitconfig := 420]> (hs_modes h)) h);
    mret ["touched stub " +:+ gitconfig].

Definition sys_log_dir : H (list string) :=
  if linux && is_root then
    there ← exists_ "/var/log/drydock";
    if there : bool then mret [] else _ ← h_mkdir "/var/log/drydock"; mret ["created /var/log/drydock"]
  else mret [].

Definition worktrees_glob : string := state_root // "worktrees" // "*".

Definition git_get : call := mkCall ["git"; "config"; "--global"; "--get-all"; "safe.directory"] "".
Definition git_add : call := mkCall ["git"; "config"; "--global"; "--add"; "safe.directory"; worktrees_glob] "".

Definition safe_directory : H (list string) :=
  '(_, stdout, _) ← on_world (run_uncaught git_get);
  if existsb (String.eqb worktrees_glob) (splitlines stdout) then mret []
  else _ ← on_world (run_uncaught git_add); mret ["git safe.directory += " +:+ worktrees_glob].

(** The root of the repository, if it has the scripts. *)
Definition _repo_root : H (option string) :=
  match package_root with
  | None => mret None
  | Some candidate =>
      scripts ← gets (fun h => w_host (hs_world h) !! (candidate // "scripts"));
      mret (if is_ndir scripts then Some candidate else None)
  end.

(** [shutil.copy2], with the mode. *)
Definition copy2_host (source target : string) : H unit :=
  data ← on_world (host_read source);
  _ ← on_world (host_write target data);
  _ ← on_world fs_op;
  modify (fun h => set_hs_modes (<[target := mode_of source h]> (hs_modes h)) h).

Definition _install_drydock_rpc (bin_dir : string) : H (option string) :=
  repo ← _repo_root;
  match repo with
  | None => mret None
  | Some repo =>
      let source := repo // "scripts" // "drydock-rpc" in
      there ← exists_ source;
      if negb there then mret None
      else
        let target := bin_dir // "drydock-rpc" in
        installed ← exists_ target;
        same ← (if installed : bool then
                  a ← on_world (host_read target); b ← on_world (host_read source); mret (a =s b)
                else mret false);
        if same : bool then
          mode ← gets (mode_of target);
          if mode =? 493 then mret None else _ ← chmod target 493; mret (Some ("chmod 0o755 " +:+ target))
        else
          _ ← h_mkdir bin_dir;
          _ ← copy2_host source target;
          _ ← chmod target 493;
          mret (Some ("installed " +:+ target))
  end.

(** The program that the link leads to. *)
Definition drydock_program : H (option string) :=
  match which "drydock" with
  | Some source => mret (Some source)
  | None =>
      let local_bin := home // ".local" // "bin" // "drydock" in
      let venv_bin := home // ".local" // "share" // "pipx" // "venvs" // "drydock" // "bin" // "drydock" in
      a ← exists_ local_bin;
      if a : bool then mret (Some local_bin)
      else b ← exists_ venv_bin; mret (if b : bool then Some venv_bin else None)
  end.

(** [target.unlink()] of a link, and [target.symlink_to(source)]. *)
Definition unlink_link (target : string) : H unit :=
  _ ← on_world fs_op; modify (fun h => set_hs_links (delete target (hs_links h)) h).
Definition symlink_to (target source : string) : H unit :=
  _ ← on_world fs_op;
  taken ← gets (fun h => is_some (w_host (hs_world h) !! target) || is_some (hs_links h !! target));
  if taken : bool then throw (PyError "FileExistsError" target)
  else modify (fun h => set_hs_links (<[target := source]> (hs_links h)) h).

Definition _ensure_drydock_symlink (target : string) : H (option string) :=
  source ← drydock_program;
  match source with
  | None => mret None
  | Some source =>
      there ← exists_ target;
      link ← gets (fun h => hs_links h !! target);
      let make := _ ← h_mkdir (path_parent target); _ ← symlink_to target source;
                  mret (Some ("symlinked " +:+ arrow target source)) in
      match link with
      | None => if there : bool then mret None else make
      | Some current => if current =s source then mret None else _ ← unlink_link target; make
      end
  end.

Definition opt_list (o : option string) : list string := match o with Some s => if is_empty s then [] else [s] | None => [] end.

Definition host_init : H (list string) :=
  dirs ← init_dirs _drydock_state_dirs;
  fs ← migrate_v1_artifacts state_root;
  git ← touch_gitconfig;
  log ← sys_log_dir;
  safe ← safe_directory;
  rpc ← _install_drydock_rpc (state_root // "bin");
  link ← (if linux && is_root then _ensure_drydock_symlink "/usr/local/bin/drydock" else mret None);
  mret (dirs ++ map (fun e => "v1-migrate: " +:+ e) (fst fs) ++ map (fun e => "v1-migrate skipped: " +:+ e) (snd fs)
        ++ git ++ log ++ safe ++ opt_list rpc ++ opt_list link).

(** ** [ws host check] *)

(** The status and the detail of a check. *)
Record check_result : Type := mkCheck { ch_name : string; ch_status : string; ch_detail : string }.

(** A command run for at most 8 seconds: the answer of each outcome; another exception is not caught. *)
Definition run_check (argv : list string) (missing timed_out : string * string)
    (done_ : Z -> string -> string -> string * string) : H (string * string) :=
  out ← on_world (run (mkCall argv ""));
  mret (match out with
        | Ran rc stdout stderr => done_ rc stdout stderr
        | RunNotFound _ => missing
        | RunTimeout _ _ => timed_out
        end).

Definition _check_docker : H (string * string) :=
  run_check ["docker"; "info"; "--format"; "{{.ServerVersion}}"] ("fail", "docker not installed")
    ("fail", "docker info timed out (daemon hung?)")
    (fun rc stdout stderr =>
       if negb (rc =? 0) then ("fail", "docker daemon not responding: " +:+ stake 80 (strip stderr))
       else ("ok", "server " +:+ strip stdout)).

Definition _check_devcontainer : H (string * string) :=
  run_check ["devcontainer"; "--version"]
    ("fail", "devcontainer CLI not installed (npm install -g @devcontainers/cli)") ("fail", "devcontainer --version timed out")
    (fun _ stdout _ => ("ok", strip stdout)).

Definition _check_tailscale : H (string * string) :=
  run_check ["tailscale"; "status"; "--self"; "--peers=false"] ("warn", "not installed (recommended for tailnet identity)")
    ("warn", "tailscale status timed out")
    (fun rc _ _ => if negb (rc =? 0) then ("warn", "installed but not connected (tailscale up --hostname=...)")
                   else ("ok", "connected")).

Definition _check_gh_auth : H (string * string) :=
  run_check ["gh"; "auth"; "status"] ("warn", "gh not installed (recommended for private repo clones)")
    ("warn", "gh auth status timed out")
    (fun rc _ _ => if negb (rc =? 0) then ("warn", "gh installed but not authenticated (gh auth login --web)")
                   else ("ok", "authenticated")).

Definition _check_state_dir (path : string) (expected_mode : Z) : H (string * string) :=
  there ← exists_ path;
  if negb there then mret ("warn", "missing — run `ws host init`")
  else
    actual_mode ← gets (mode_of path);
    mret (if actual_mode =? expected_mode then ("ok", path)
          else ("warn", "mode " +:+ oct actual_mode +:+ " != expected " +:+ oct expected_mode +:+ " — run `ws host init`")).

Definition _check_gitconfig : H (string * string) :=
  there ← exists_ gitconfig;
  mret (if there : bool then ("ok", gitconfig)
        else ("warn", gitconfig +:+ " missing — devcontainer bind-mount will fail; run `ws host init`")).

Definition named (n : string) (m : H (string * string)) : H check_result := '(s, d) ← m; mret (mkCheck n s d).

Definition checks : H (list check_result) :=
  docker ← named "docker" _check_docker;
  devcontainer ← named "devcontainer" _check_devcontainer;
  dirs ← mapM (fun nd => named ("dir:" +:+ fst nd) (_check_state_dir (fst (snd nd)) (snd (snd nd)))) _drydock_state_dirs;
  git ← named "gitconfig" _check_gitconfig;
  tailscale ← named "tailscale" _check_tailscale;
  gh ← named "gh-auth" _check_gh_auth;
  mret ([docker; devcontainer] ++ dirs ++ [git; tailscale; gh]).

Definition with_status (s : string) (l : list check_result) : Z :=
  Z.of_nat (length (List.filter (fun c => ch_status c =s s) l)).

(** The checks, how many were ok, warned and failed, and the exit code. *)
Definition host_check : H (list check_result * (Z * Z * Z) * Z) :=
  l ← checks;
  let fails := with_status "fail" l in
  let warns := with_status "warn" l in
  mret (l, (Z.of_nat (length l) - fails - warns, warns, fails), if fails =? 0 then 0 else 1).
End Host.

(** ** The daemon's process *)

(** A process started, or a signal sent to one. *)
Inductive proc_event : Type := Spawned (argv : list string) | Sent (pid : Z) (signal : string).

(** [os.kill]: done, no such process, not permitted. *)
Inductive kill_outcome : Type := KillDone | KillNoProcess | KillDenied.

(** [ds_turns] counts the sleeps so far. *)
Record daemon_sys : Type := mkSys { ds_world : world; ds_events : list proc_event; ds_turns : nat }.
Abbreviation D := (M daemon_sys exn).

Definition in_world {X} (m : W X) : D X :=
  fun s => let '(r, w) := m (ds_world s) in (r, mkSys w (ds_events s) (ds_turns s)).

Definition add_event (e : proc_event) : D unit :=
  modify (fun s => mkSys (ds_world s) (ds_events s ++ [e]) (ds_turns s)).

Section DaemonProcess.
Context `{Env} (home_of : string -> option string) (executable : string).
(** Given the sleeps and events so far: what a signal does; whether the process just started has ended, and its pid; and what the other
    processes do to the files during one more sleep. *)
Context (kill : nat -> list proc_event -> Z -> kill_outcome) (exited : nat -> list proc_event -> bool)
  (child_pid : list proc_event -> Z) (outside : nat -> list proc_event -> gmap string node -> gmap string node).
(** How many sleeps fit into a wait of so many seconds. *)
Context (sleeps_in : spec_float -> nat) (exchange : string -> W string).

Definition seconds (n : Z) : spec_float := sf_of_Z n.
Definition STARTUP_TIMEOUT_SECONDS : spec_float := seconds 5.
Definition STOP_TIMEOUT_SECONDS : spec_float := seconds 5.
(** [max(timeout, 0.0)]. *)
Definition at_least_zero (timeout : spec_float) : spec_float := if SFltb timeout (seconds 0) then seconds 0 else timeout.

(** [time.sleep(0.05)]. *)
Definition sleep : D unit :=
  modify (fun s => mkSys (set_host (outside (ds_turns s) (ds_events s) (w_host (ds_world s))) (ds_world s)) (ds_events s) (S (ds_turns s))).

Definition _state_root : string := home // ".drydock".

(** An option, or the environment variable, or the default. *)
Definition path_option (value : option string) (var dflt : string) : res exn string :=
  expanduser home_of (match value with Some v => v | None => default dflt (environ var) end).
Definition _socket_path (value : option string) : res exn string :=
  path_option value "DRYDOCK_DAEMON_SOCKET" "~/.drydock/run/daemon.sock".
Definition _registry_path (value : option string) : res exn string :=
  path_option value "DRYDOCK_DAEMON_REGISTRY" "~/.drydock/registry.db".
Definition _log_path (value : option string) : res exn string := path_option value "DRYDOCK_DAEMON_LOG" "~/.drydock/daemon.log".
Definition _pid_path : string := _state_root // "daemon.pid".

Definition _read_pid (pid_path : string) : D (option Z) :=
  raw ← in_world (catch (t ← host_read pid_path; mret (Some t)) (fun e => if is_os_error e then mret None else throw e));
  mret (match raw with
        | None => None
        | Some t => if is_empty (strip t) then None else int_of_str (strip t)
        end).

(** The outcome of a signal now. *)
Definition kill_now (pid : Z) : D kill_outcome := gets (fun s => kill (ds_turns s) (ds_events s) pid).

Definition _process_alive (pid : option Z) : D bool :=
  match pid with
  | None => mret false
  | Some p =>
      if p <=? 0 then mret false
      else o ← kill_now p; mret (match o with KillNoProcess => false | KillDone | KillDenied => true end)
  end.

(** [os.kill(pid, signal)], whose errors are raised. *)
Definition send_signal (pid : Z) (signal : string) : D unit :=
  o ← kill_now pid;
  match o with
  | KillDone => add_event (Sent pid signal)
  | KillNoProcess => throw (PyError "ProcessLookupError" "[Errno 3] No such process")
  | KillDenied => throw (PyError "PermissionError" "[Errno 1] Operation not permitted")
  end.

Definition _remove_file (path : string) : D unit :=
  in_world (catch (host_unlink path) (fun e => if exn_class e =s "FileNotFoundError" then mret tt else throw e)).

Definition d_exists (path : string) : D bool := in_world (path_exists path).

Definition _daemon_command (socket_path registry_path : string) : list string :=
  [executable; "-m"; "drydock.daemon"; "--socket"; socket_path; "--registry"; registry_path].

Definition child_exited : D bool := gets (fun s => exited (ds_turns s) (ds_events s)).

Fixpoint wait_socket (turns : nat) (socket_path : string) : D bool :=
  match turns with
  | O => d_exists socket_path
  | S turns =>
      there ← d_exists socket_path;
      if there : bool then mret true
      else gone ← child_exited; if gone : bool then mret false else _ ← sleep; wait_socket turns socket_path
  end.
Definition _wait_for_socket (socket_path : string) (timeout : spec_float) : D bool := wait_socket (sleeps_in timeout) socket_path.

Fixpoint wait_exit (turns : nat) (pid : Z) : D bool :=
  match turns with
  | O => alive ← _process_alive (Some pid); mret (negb alive)
  | S turns => alive ← _process_alive (Some pid); if alive : bool then _ ← sleep; wait_exit turns pid else mret true
  end.
Definition _wait_for_exit (pid : Z) (timeout : spec_float) : D bool := wait_exit (sleeps_in timeout) pid.

Fixpoint wait_removal (turns : nat) (socket_path : string) : D unit :=
  match turns with
  | O => mret tt
  | S turns => there ← d_exists socket_path; if there : bool then _ ← sleep; wait_removal turns socket_path else mret tt
  end.
Definition _wait_for_socket_removal (socket_path : string) (timeout : spec_float) : D unit :=
  wait_removal (sleeps_in timeout) socket_path.

(** The last [count] lines of a file, none where it cannot be read. *)
Definition _last_lines (path : string) (count : Z) : D (list string) :=
  text ← in_world (catch (t ← host_read path; mret (Some t)) (fun e => if is_os_error e then mret None else throw e));
  mret (match text with
        | None => []
        | Some t => if count <=? 0 then [] else last_of (Some count) (splitlines t)
        end).

(** ** Start, stop, reload, status *)

(** The directories made and the old socket removed before a start. *)
Definition prepare (log_path pid_path socket_path registry_path : string) : D unit :=
  _ ← in_world (mkdir_p (path_parent log_path));
  _ ← in_world (mkdir_p (path_parent pid_path));
  _ ← in_world (mkdir_p (path_parent socket_path));
  _ ← in_world (mkdir_p (path_parent registry_path));
  there ← d_exists socket_path;
  if there : bool then _remove_file socket_path else mret tt.

(** [log_path.open("ab")]: the file is there afterwards. *)
Definition open_log (log_path : string) : D unit :=
  in_world (_ ← fs_op;
            n ← host_at log_path;
            match n with
            | Some NDir => os_error "IsADirectoryError" log_path
            | Some (NFile _) => mret tt
            | None => modify (fun w => set_host (<[log_path := NFile ""]> (w_host w)) w)
            end).

Definition popen (log_path : string) (command : list string) : D Z :=
  _ ← open_log log_path;
  _ ← add_event (Spawned command);
  gets (fun s => child_pid (ds_events s)).

(** [proc.terminate()] and [proc.kill()], which do nothing to a process that has ended. *)
Definition signal_child (pid : Z) (signal : string) : D unit :=
  gone ← child_exited; if gone : bool then mret tt else add_event (Sent pid signal).

(** [proc.wait(timeout=1)]: whether it ended in time. *)
Fixpoint wait_child (turns : nat) : D bool :=
  gone ← child_exited;
  if gone : bool then mret true else match turns with O => mret false | S turns => _ ← sleep; wait_child turns end.

Definition write_pid (pid_path : string) (pid : Z) : D unit :=
  in_world (host_write pid_path (str_of_Z pid +:+ String newline "")).

(** What [start] ends with. *)
Inductive start_result : Type :=
  | AlreadyRunning (pid : option Z)
  | Started (pid : Z)
  | Replaced (command : list string)
  | StartFailed (last_log_lines : list string).

(** A daemon that is not up in time is stopped. *)
Definition abandon (pid : Z) : D unit :=
  gone ← child_exited;
  if gone : bool then mret tt
  else
    _ ← signal_child pid "SIGTERM";
    ended ← wait_child (sleeps_in (seconds 1));
    if ended : bool then mret tt
    else
      _ ← signal_child pid "SIGKILL";
      ended ← wait_child (sleeps_in (seconds 1));
      if ended : bool then mret tt else throw (PyError "TimeoutExpired" "").

Definition start (socket_override registry_override log_override : option string) (foreground : bool) : D start_result :=
  let pid_path := _pid_path in
  pid ← _read_pid pid_path;
  alive ← _process_alive pid;
  if alive : bool then mret (AlreadyRunning pid)
  else
    stale ← d_exists pid_path;
    _ ← (if stale : bool then _remove_file pid_path else mret tt);
    socket_path ← lift (_socket_path socket_override);
    registry_path ← lift (_registry_path registry_override);
    log_path ← lift (_log_path log_override);
    let command := _daemon_command socket_path registry_path in
    if foreground then mret (Replaced command)
    else
      _ ← prepare log_path pid_path socket_path registry_path;
      proc ← popen log_path command;
      up ← _wait_for_socket socket_path STARTUP_TIMEOUT_SECONDS;
      if up : bool then _ ← write_pid pid_path proc; mret (Started proc)
      else _ ← abandon proc; lines ← _last_lines log_path 20; mret (StartFailed lines).

(** Whether it was there, and whether it was killed. *)
Definition stop_process (pid : Z) (timeout : spec_float) (socket_path : string) : D bool :=
  _ ← send_signal pid "SIGTERM";
  ended ← _wait_for_exit pid (at_least_zero timeout);
  _ ← (if ended : bool then mret tt
       else _ ← send_signal pid "SIGKILL"; _ ← _wait_for_exit pid (seconds 1); mret tt);
  _ ← _remove_file _pid_path;
  _ ← _wait_for_socket_removal socket_path (at_least_zero timeout);
  mret (negb ended).

(** [None]: it was not running; else its pid and whether it was killed. *)
Definition stop (timeout : spec_float) (socket_override : option string) : D (option (Z * bool)) :=
  pid ← _read_pid _pid_path;
  socket_path ← lift (_socket_path socket_override);
  alive ← _process_alive pid;
  match alive, pid with
  | true, Some p => forced ← stop_process p timeout socket_path; mret (Some (p, forced))
  | _, _ =>
      stale ← d_exists _pid_path;
      _ ← (if stale : bool then _remove_file _pid_path else mret tt);
      mret None
  end.

(** The pid of the new daemon. *)
Definition reload (timeout : spec_float) (socket_override registry_override log_override : option string) : D Z :=
  pid ← _read_pid _pid_path;
  socket_path ← lift (_socket_path socket_override);
  alive ← _process_alive pid;
  _ ← (match alive, pid with
       | true, Some p => _ ← stop_process p timeout socket_path; mret tt
       | _, _ => stale ← d_exists _pid_path; if stale : bool then _remove_file _pid_path else mret tt
       end);
  registry_path ← lift (_registry_path registry_override);
  log_path ← lift (_log_path log_override);
  _ ← prepare log_path _pid_path socket_path registry_path;
  proc ← popen log_path (_daemon_command socket_path registry_path);
  up ← _wait_for_socket socket_path STARTUP_TIMEOUT_SECONDS;
  if up : bool then _ ← write_pid _pid_path proc; mret proc
  else
    _ ← signal_child proc "SIGTERM";
    throw (PyError "ClickException" ("daemon failed to come up within 5.0s; see " +:+ log_path)).

(** An answer within the two seconds that [exchange] is given here. *)
Definition _health_call (socket_path : string) : D bool :=
  found ← d_exists socket_path;
  if negb found then mret false
  else
    in_world (catch
      (bytes ← exchange (line_of (request_of "daemon-status" "daemon.health" []));
       match json_loads (strip bytes) with
       | None => throw (PyError "JSONDecodeError" "Expecting value")
       | Some response =>
           r ← lift (read_response response);
           mret (match r with inr result => match jget "ok" result with JBool true => true | _ => false end | inl _ => false end)
       end)
      (fun e => if is_os_error e || (exn_class e =s "ConnectionRefusedError") || (exn_class e =s "TimeoutError")
                then mret false else throw e)).

Record daemon_report : Type := mkReport {
  rp_running : bool; rp_pid : option Z; rp_socket_present : bool; rp_socket_path : string;
  rp_health_responsive : bool; rp_log_path : string; rp_last_log_line : option string
}.

Definition _daemon_status (socket_path log_path : string) : D daemon_report :=
  pid ← _read_pid _pid_path;
  proc_alive ← _process_alive pid;
  stale ← (if proc_alive : bool then mret false else d_exists _pid_path);
  _ ← (if stale : bool then _remove_file _pid_path else mret tt);
  socket_present ← d_exists socket_path;
  health_responsive ← (if socket_present : bool then _health_call socket_path else mret false);
  lines ← _last_lines log_path 1;
  mret (mkReport (proc_alive || health_responsive) (if proc_alive : bool then pid else None) socket_present socket_path
          health_responsive log_path (List.last (map Some lines) None)).

(** The report and the exit code. *)
Definition daemon_status (socket_override log_override : option string) : D (daemon_report * Z) :=
  socket_path ← lift (_socket_path socket_override);
  log_path ← lift (_log_path log_override);
  data ← _daemon_status socket_path log_path;
  mret (data, if rp_running data && rp_health_responsive data then 0 else 1).

(** The lines shown, [None] without a log; following it is left to [tail]. *)
Definition logs (num_lines : Z) (log_override : option string) : D (option (list string)) :=
  log_path ← lift (_log_path log_override);
  there ← d_exists log_path;
  if negb there then mret None else lines ← _last_lines log_path num_lines; mret (Some lines).

(** ** [ws host audit] *)

Definition report_json (r : daemon_report) : obj :=
  [("running", JBool (rp_running r)); ("pid", match rp_pid r with Some p => JInt p | None => JNull end);
   ("socket_present", JBool (rp_socket_present r)); ("socket_path", JStr (rp_socket_path r));
   ("health_responsive", JBool (rp_health_responsive r)); ("log_path", JStr (rp_log_path r));
   ("last_log_line", opt_str (rp_last_log_line r))].

(** A pid of 0 and an uptime of 0 say nothing. *)
Definition nonzero (n : option Z) : option Z := match n with Some 0 | None => None | Some n => Some n end.

Definition _gather_daemon : D obj :=
  socket ← lift (_socket_path None);
  log ← lift (_log_path None);
  status ← _daemon_status socket log;
  uptime ← (match nonzero (rp_pid status) with Some pid => in_world (_process_uptime pid) | None => mret None end);
  mret (report_json status
        ++ match nonzero uptime with
           | Some u => [("uptime_seconds", JInt u); ("uptime_human", JStr (_format_duration u))]
           | None => []
           end).

(** [mtime]: when a file was last written; [version] and [src_path]: those of the package. *)
Definition gather_audit (mtime : string -> datetime) (version src_path : string) (probe_desks : bool) : D obj :=
  audited_at ← in_world _utc_now;
  code ← _safe (in_world (_gather_code version src_path));
  daemon ← _safe _gather_daemon;
  capability ← _safe (mret _gather_capability_surface);
  base_images ← _safe (in_world _gather_base_images);
  desks ← _safe (in_world (_gather_desks mtime));
  leases ← _safe (in_world _gather_leases);
  helpers ← (if probe_desks then _safe (in_world _gather_helpers) else mret JNull);
  mret [("audited_at", JStr audited_at); ("code", code); ("daemon", daemon); ("capability", capability);
        ("base_images", base_images); ("desks", desks); ("leases", leases); ("helpers", helpers)].
End DaemonProcess.
