(* ===== verification/CliHostFacts.v ===== *)
(** The commands that look after the host: what [ws status] runs, when [ws host check] passes, and which processes
    [ws daemon] starts and signals. *)

From S2P Require Import Prelude PyStr PyVal Datetime Registry World WorldFacts Overlay Container Deskwatch Client CliDesk CliRepo CliAuditor HostAudit CliStatus CliHost.
From Stdlib Require Import List.
From Corelib Require Import SpecFloat.

(** ** Status *)

(** The commands of the status inside a container. *)
Definition container_commands : list (list string) :=
  [["tailscale"; "status"]; ["pgrep"; "-f"; "start-remote-control"]; ["sudo"; "iptables"; "-L"; "OUTPUT"]].
Definition log_commands : list (list string) := map (fun p => skipn 3 (log_command "" p)) _INIT_LOG_PATHS.
Definition desk_commands : list (list string) :=
  [refresh_command; ["ipset"; "list"; "allowed-domains"; "-t"]; ["cat"; "/home/node/.claude/.claude.json"]].

Inductive looks : call -> Prop :=
  | look_ps path : looks (ps_call path)
  | look_inspect cid template : looks (mkCall ["docker"; "inspect"; cid; "--format"; template] "")
  | look_exec cid cmd : In cmd (container_commands ++ log_commands) -> looks (mkCall (["docker"; "exec"; cid] ++ cmd) "")
  | look_desk folder cmd : In cmd desk_commands ->
      looks (mkCall (["devcontainer"; "exec"; "--workspace-folder"; folder] ++ cmd) "").

(** The registry, the secrets and the audit log are as before, and only such commands were run. *)
Definition only_looked (w w' : world) : Prop :=
  db_files w' = db_files w /\ w_audit w' = w_audit w /\ exists l, w_calls w' = w_calls w ++ l /\ Forall looks l.

#[export] Instance only_looked_preorder : PreOrder only_looked.
Proof.
  split.
  - intros w. split_and!; [done..|]. exists []. by rewrite app_nil_r.
  - intros w1 w2 w3 (E1 & A1 & l1 & H1 & F1) (E2 & A2 & l2 & H2 & F2). split_and!; [congruence..|]. exists (l1 ++ l2).
    rewrite H2, H1, app_assoc. split; [done|]. by apply Forall_app.
Qed.

Section Status.
Context `{Env} (yaml_dated : string -> option yaml_doc) (date_fromisoformat : string -> option Z) (today : Z).

Lemma looked_run c : looks c -> moves only_looked (run c).
Proof. intros Hc w. split_and!; [done..|]. exists [c]. by split; [|constructor]. Qed.

Lemma looked_try c : looks c -> moves only_looked (try_run c).
Proof. intros Hc. unfold try_run. apply moves_bind; [typeclasses eauto|by apply looked_run|]. intros o. apply moves_ret; typeclasses eauto. Qed.

Lemma looked_uncaught c : looks c -> moves only_looked (run_uncaught c).
Proof. intros Hc. unfold run_uncaught. apply moves_bind; [typeclasses eauto|by apply looked_run|]. intros []; moves_step. Qed.

Lemma looked_fs : moves only_looked fs_op.
Proof. intros w. unfold fs_op. destruct (fs_fault _) as [[? ?]|]; (split_and!; [done..|]); exists []; by rewrite app_nil_r. Qed.

Lemma looked_exists p : moves only_looked (path_exists p).
Proof. apply moves_gets; typeclasses eauto. Qed.

Lemma looked_read p : moves only_looked (host_read p).
Proof. unfold host_read, host_at. apply moves_bind; [typeclasses eauto|apply looked_fs|]. intros _. moves_step. Qed.

Lemma looked_exec cid cmd : In cmd (container_commands ++ log_commands) -> moves only_looked (probe (["docker"; "exec"; cid] ++ cmd)).
Proof. intros Hc. by apply looked_try, look_exec. Qed.

Lemma looked_log cid p : In p _INIT_LOG_PATHS -> moves only_looked (probe_log cid p).
Proof.
  intros Hp. unfold probe_log. apply moves_bind; [typeclasses eauto| |intros; moves_step].
  apply (looked_exec cid (skipn 3 (log_command cid p))). apply in_app_iff. right. unfold log_commands. by apply (in_map (fun p => skipn 3 (log_command "" p))).
Qed.

Lemma looked_desk ws cmd : In cmd desk_commands -> moves only_looked (_exec_in_drydock ws cmd).
Proof.
  intros Hc. unfold _exec_in_drydock, exec_command. destruct (is_empty _); [moves_step|].
  apply moves_catch; [typeclasses eauto| |intros; moves_step]. apply moves_bind; [typeclasses eauto| |intros; moves_step].
  by apply looked_uncaught, look_desk.
Qed.

#[local] Hint Resolve looked_try looked_uncaught looked_fs looked_exists looked_read looked_exec looked_log looked_desk : moves.
#[local] Hint Constructors looks : moves.

Lemma looked_succeeds cid cmd : In cmd (container_commands ++ log_commands) ->
  moves only_looked (succeeds (["docker"; "exec"; cid] ++ cmd)).
Proof. intros Hc. unfold succeeds. apply moves_bind; [typeclasses eauto|by apply looked_exec|]. intros o. moves_step. Qed.

Lemma looked_overlay p : moves only_looked (folder_at p).
Proof. unfold folder_at, overlay_folder. moves_step. Qed.

Lemma looked_read_overlay p : moves only_looked (read_overlay p).
Proof. unfold read_overlay. moves_step. Qed.

Lemma looked_find paths : moves only_looked (_docker_container_id paths).
Proof.
  induction paths as [|p paths IH]; cbn [_docker_container_id]; [moves_step|]. destruct (is_empty p); [exact IH|].
  apply moves_bind; [typeclasses eauto|apply looked_try, look_ps|]. intros [[[rc so] se]|]; [|exact IH].
  cbv zeta. destruct (is_empty _); [exact IH|moves_step].
Qed.

Lemma looked_inspect cid t : moves only_looked (_docker_inspect_value cid t).
Proof. unfold _docker_inspect_value, probe. apply moves_bind; [typeclasses eauto|apply looked_try, look_inspect|]. intros o. moves_step. Qed.

Lemma looked_mapM {A B} (f : A -> W B) l : (forall x, In x l -> moves only_looked (f x)) -> moves only_looked (mapM f l).
Proof.
  induction l as [|x l IH]; intros Hf; cbn; [moves_step|].
  apply moves_bind; [typeclasses eauto|apply Hf; by left|]. intros y.
  apply moves_bind; [typeclasses eauto|apply IH; intros; apply Hf; by right|]. intros ys. moves_step.
Qed.

#[local] Hint Resolve looked_succeeds looked_overlay looked_read_overlay looked_find looked_inspect : moves.

Lemma looked_compliance ws : moves only_looked (_probe_compliance yaml_dated date_fromisoformat today ws).
Proof. unfold _probe_compliance, load_compliance. moves_step. Qed.

Lemma looked_image ws cid : moves only_looked (_probe_base_image ws cid).
Proof. unfold _probe_base_image, _dockerfile_from_overlay, _parse_dockerfile_from. moves_step. Qed.

Lemma looked_logs cid : moves only_looked (_probe_init_logs cid).
Proof.
  unfold _probe_init_logs. destruct (is_empty cid); [moves_step|]. apply moves_bind; [typeclasses eauto| |intros; moves_step].
  apply looked_mapM. intros p. apply looked_log.
Qed.

Lemma looked_trust ws : moves only_looked (_probe_trust_accepted ws).
Proof.
  unfold _probe_trust_accepted, _read_workspace_folder. apply moves_bind; [typeclasses eauto|apply looked_desk; cbn; auto|].
  intros o. moves_step.
Qed.

Lemma looked_running ws cid c : moves only_looked (running_row ws cid c).
Proof.
  unfold running_row.
  apply moves_bind; [typeclasses eauto|apply looked_succeeds; cbn; auto|intros joined].
  apply moves_bind; [typeclasses eauto|apply looked_succeeds; cbn; auto|intros alive].
  apply moves_bind; [typeclasses eauto| |intros active].
  { apply moves_bind; [typeclasses eauto|apply (looked_exec cid ["sudo"; "iptables"; "-L"; "OUTPUT"]); cbn; auto|intros; moves_step]. }
  apply moves_bind; [typeclasses eauto| |intros refresh].
  { unfold _probe_refresh_supervisor. destruct (negb _); [moves_step|].
    apply moves_bind; [typeclasses eauto|apply looked_desk; cbn; auto|intros; moves_step]. }
  apply moves_bind; [typeclasses eauto| |intros ipset].
  { apply moves_bind; [typeclasses eauto|apply looked_desk; cbn; auto|intros; moves_step]. }
  apply moves_bind; [typeclasses eauto|apply looked_trust|intros trust].
  apply moves_bind; [typeclasses eauto|apply looked_image|intros image].
  apply moves_bind; [typeclasses eauto|apply looked_logs|intros logs]. moves_step.
Qed.

Abbreviation probe_desk_row := (_probe_drydock yaml_dated date_fromisoformat today).

Lemma looked_row ws : moves only_looked (probe_desk_row ws).
Proof.
  unfold _probe_drydock. apply moves_bind; [typeclasses eauto|apply looked_compliance|]. intros c.
  destruct (is_empty _); [moves_step|]. apply moves_bind; [typeclasses eauto|apply looked_find|]. intros cid.
  destruct (is_empty cid); [moves_step|apply looked_running].
Qed.

(** Every value that a computation returns satisfies [Q]. *)
Definition yields {S A} (Q : A -> Prop) (m : M S exn A) : Prop := forall s a s', m s = (Ok a, s') -> Q a.

Lemma yields_ret {S A} (Q : A -> Prop) (a : A) : Q a -> yields (S := S) Q (mret a).
Proof. by intros HQ s x s' [= <- _]. Qed.

Lemma yields_bind {S A B} (Q : B -> Prop) (m : M S exn A) (k : A -> M S exn B) : (forall a, yields Q (k a)) -> yields Q (m ≫= k).
Proof. intros Hk s b s' E. apply bind_inv in E as [(a & s1 & _ & E)|(e & _ & [=])]. by apply Hk in E. Qed.

Lemma mapM_Forall2 {A B} (R : A -> B -> Prop) (f : A -> W B) l :
  (forall x, yields (R x) (f x)) -> yields (Forall2 R l) (mapM f l).
Proof.
  intros Hf. induction l as [|x l IH]; cbn; [by apply yields_ret|]. intros w ys w' E.
  apply bind_inv in E as [(y & w1 & Ey & E)|(e & _ & [=])]. apply bind_inv in E as [(ys' & w2 & Eys & E)|(e & _ & [=])].
  injection E as <- _. constructor; [by apply Hf in Ey|by apply IH in Eys].
Qed.

(** What a row says of its desk. *)
Definition row_for (ws : Drydock) (row : obj) : Prop :=
  jget "name" row = JStr (name ws) /\ jget "state" row = JStr (state ws)
  /\ (jget "container" row = JStr "running" \/ jget "container" row = JStr "not found").

Lemma row_yields ws : yields (row_for ws) (probe_desk_row ws).
Proof.
  unfold _probe_drydock. apply yields_bind. intros c. destruct (is_empty _); [apply yields_ret; by split_and!; auto|].
  apply yields_bind. intros cid. destruct (is_empty cid); [apply yields_ret; by split_and!; auto|].
  unfold running_row. do 8 (apply yields_bind; intros ?). apply yields_ret. by split_and!; auto.
Qed.

(** [ws status] only looks: whatever the desks' files, docker and the containers answer, the registry, the secrets and the
    audit log stay as they are, and every command it runs asks docker for containers or labels, or runs one of the fixed
    commands that read inside a container; and if it returns it has one row for every desk of the registry, in its order, with
    its name and its state. *)
Theorem status_only_looks w :
  let '(r, w') := cli_status yaml_dated date_fromisoformat today w in
  only_looked w w' /\ forall rows, r = Ok rows -> Forall2 row_for (list_drydocks None None (w_db w)) rows.
Proof.
  unfold cli_status. rewrite reg_gets_bind. match goal with |- context[let (_, _) := ?x in _] => destruct x as [r w'] eqn:E end. split.
  - assert (moves only_looked (mapM probe_desk_row (list_drydocks None None (w_db w)))) as Hm
      by (apply looked_mapM; intros ws _; apply looked_row).
    specialize (Hm w). by rewrite E in Hm.
  - intros rows ->. by apply (mapM_Forall2 row_for probe_desk_row _ row_yields w rows w').
Qed.
End Status.

(** A compliance file whose date has a time stops the status of every desk. *)
Definition reviewed_world : world :=
  set_host {["/w/compliance.yaml" := NFile "last_reviewed: 2025-01-01 10:00:00"]}
    (set_db (set_drydocks [new_dock_row (mkDrydock "a" "proj" "/srv/p" "dock_a" "/w" "main" "HEAD" "suspended" "" "" "" "" "t" "t"
                                           (JObj []) "" None (JObj []));
                           new_dock_row (mkDrydock "b" "proj" "/srv/p" "dock_b" "" "main" "HEAD" "suspended" "" "" "" "" "t" "t"
                                           (JObj []) "" None (JObj []))] empty_db) empty_world).
Definition reviewed_yaml (_ : string) : option yaml_doc :=
  Some (YMapping [("last_reviewed", YDatetime); ("review_cadence_days", YPlain (JInt 30))]).
Example one_file_stops_status :
  match fst (cli_status (H := demo_env) reviewed_yaml (fun _ => None) 739000 reviewed_world) with
  | Err e => exn_class e = "TypeError" | Ok _ => False end.
Proof. vm_compute. reflexivity. Qed.

(** A marker anywhere in the last twenty lines counts, and the last line is what is shown. *)
Example old_error_is_reported :
  log_status ("ERROR: retrying" +:+ String newline "done") = "errored: done".
Proof. reflexivity. Qed.

(** ** The check of the host *)

Section HostCheck.
Context `{Env}.

Definition docker_info : call := mkCall ["docker"; "info"; "--format"; "{{.ServerVersion}}"] "".
Definition devcontainer_version : call := mkCall ["devcontainer"; "--version"] "".

Lemma with_status_cons s c l : with_status s (c :: l) = (if ch_status c =s s then 1 else 0) + with_status s l.
Proof. unfold with_status. cbn [List.filter]. destruct (ch_status c =s s); cbn [length]; lia. Qed.

Lemma with_status_app s l k : with_status s (l ++ k) = with_status s l + with_status s k.
Proof. unfold with_status. rewrite List.filter_app, length_app. lia. Qed.

Lemma with_status_nonneg s l : 0 <= with_status s l.
Proof. unfold with_status. lia. Qed.

(** Whatever the state, the computation returns, and a value that satisfies [Q]. *)
Definition settles {S A} (Q : A -> Prop) (m : M S exn A) : Prop := forall s, exists a s', m s = (Ok a, s') /\ Q a.

Lemma settles_ret {S A} (Q : A -> Prop) (a : A) : Q a -> settles (S := S) Q (mret a).
Proof. intros HQ s. by exists a, s. Qed.

Lemma settles_bind {S A B} (P : A -> Prop) (Q : B -> Prop) (m : M S exn A) (k : A -> M S exn B) :
  settles P m -> (forall a, P a -> settles Q (k a)) -> settles Q (m ≫= k).
Proof. intros Hm Hk s. destruct (Hm s) as (a & s1 & E & Ha). rewrite (bind_ok _ _ _ _ _ E). by apply Hk. Qed.

Lemma settles_mapM {S A B} (Q : B -> Prop) (f : A -> M S exn B) l :
  (forall x, settles Q (f x)) -> settles (Forall Q) (mapM f l).
Proof.
  intros Hf. induction l as [|x l IH]; cbn; [by apply settles_ret|]. eapply settles_bind; [apply Hf|]. intros y Hy.
  eapply settles_bind; [exact IH|]. intros ys Hys. by apply settles_ret; constructor.
Qed.

Definition no_failure (c : check_result) : Prop := ch_status c <> "fail".

Lemma settles_run argv missing timed_out done_ (Q : string * string -> Prop) :
  Q missing -> Q timed_out -> (forall rc so se, Q (done_ rc so se)) -> settles Q (run_check argv missing timed_out done_).
Proof. intros Hm Ht Hd h. unfold run_check. cbn. eexists _, _. split; [reflexivity|]. by destruct (subprocess_run _ _). Qed.

Lemma settles_named n m : settles (fun sd : string * string => fst sd <> "fail") m -> settles no_failure (named n m).
Proof. intros Hm. eapply settles_bind; [exact Hm|]. intros [x d] Hx. by apply settles_ret. Qed.

Lemma settles_dir p m : settles (fun sd : string * string => fst sd <> "fail") (_check_state_dir p m).
Proof.
  intros h. unfold _check_state_dir, exists_. rewrite gets_bind. destruct (link_exists p h); cbn [negb]; [|by eexists _, _].
  rewrite gets_bind. eexists _, _. split; [reflexivity|]. by destruct (_ =? _).
Qed.

Lemma settles_gitconfig : settles (fun sd : string * string => fst sd <> "fail") _check_gitconfig.
Proof. intros h. unfold _check_gitconfig, exists_. rewrite gets_bind. eexists _, _. split; [reflexivity|]. by destruct (link_exists _ h). Qed.

(** The checks after the first two. *)
Lemma settles_rest docker devcontainer : settles (fun l => exists l', l = docker :: devcontainer :: l' /\ Forall no_failure l')
  (dirs ← mapM (fun nd => named ("dir:" +:+ fst nd) (_check_state_dir (fst (snd nd)) (snd (snd nd)))) _drydock_state_dirs;
   git ← named "gitconfig" _check_gitconfig;
   tailscale ← named "tailscale" _check_tailscale;
   gh ← named "gh-auth" _check_gh_auth;
   mret ([docker; devcontainer] ++ dirs ++ [git; tailscale; gh])).
Proof.
  eapply settles_bind; [apply settles_mapM; intros [n [p m]]; apply settles_named, settles_dir|intros dirs Hd].
  eapply settles_bind; [apply settles_named, settles_gitconfig|intros git Hg].
  eapply settles_bind; [apply settles_named, settles_run; try done; intros rc ? ?; by destruct (negb (rc =? 0))|intros ts Ht].
  eapply settles_bind; [apply settles_named, settles_run; try done; intros rc ? ?; by destruct (negb (rc =? 0))|intros gh Hh].
  apply settles_ret. eexists. split; [reflexivity|]. apply Forall_app. split; [done|by repeat constructor].
Qed.

Lemma no_failure_count l : Forall no_failure l -> with_status "fail" l = 0.
Proof.
  induction 1 as [|c l Hc _ IH]; [done|]. rewrite with_status_cons, IH. destruct (String.eqb_spec (ch_status c) "fail"); [|done].
  by destruct Hc.
Qed.

(** A required check, its answer a function of the command's outcome. *)
Lemma required_check n argv missing timed_out done_ h : exists h1,
  named n (run_check argv missing timed_out done_) h
    = (Ok (let '(st, d) := match subprocess_run (w_calls (hs_world h)) (mkCall argv "") with
                           | Ran rc so se => done_ rc so se | RunNotFound _ => missing | RunTimeout _ _ => timed_out end in
           mkCheck n st d), h1)
  /\ w_calls (hs_world h1) = w_calls (hs_world h) ++ [mkCall argv ""].
Proof.
  exists (set_hs_world (snd (run (mkCall argv "") (hs_world h))) h). split; [|reflexivity].
  unfold named, run_check, on_world, run, mbind, M_bind. cbn.
  destruct (subprocess_run _ _) as [rc so se| |]; cbn; [destruct (done_ rc so se)|destruct missing|destruct timed_out]; reflexivity.
Qed.

Lemma failed_iff st d n l : Forall no_failure l -> forall c c2,
  c = mkCheck n st d -> with_status "fail" (c :: c2 :: l) = 0 <-> st <> "fail" /\ ch_status c2 <> "fail".
Proof.
  intros Hl c c2 ->. rewrite !with_status_cons, (no_failure_count l Hl). cbn [ch_status].
  destruct (String.eqb_spec st "fail"), (String.eqb_spec (ch_status c2) "fail"); split; intros Hx; try lia; try done; by destruct Hx.
Qed.

(** [ws host check] always gives its report, and it exits with 0 exactly if [docker info] ran and succeeded and the devcontainer
    CLI could be run within its time, whatever code it ended with: no missing directory, mode, login or network makes it
    fail. *)
Theorem host_check_passes_iff h :
  let calls := w_calls (hs_world h) in
  exists l counts code h', host_check h = (Ok (l, counts, code), h')
    /\ (code = 0 <-> (exists so se, subprocess_run calls docker_info = Ran 0 so se)
                    /\ exists rc so se, subprocess_run (calls ++ [docker_info]) devcontainer_version = Ran rc so se).
Proof.
  cbv zeta. unfold host_check, checks.
  destruct (required_check "docker" ["docker"; "info"; "--format"; "{{.ServerVersion}}"] ("fail", "docker not installed")
              ("fail", "docker info timed out (daemon hung?)")
              (fun rc stdout stderr => if negb (rc =? 0) then ("fail", "docker daemon not responding: " +:+ stake 80 (strip stderr))
                                       else ("ok", "server " +:+ strip stdout)) h) as (h1 & E1 & C1).
  destruct (required_check "devcontainer" ["devcontainer"; "--version"]
              ("fail", "devcontainer CLI not installed (npm install -g @devcontainers/cli)")
              ("fail", "devcontainer --version timed out") (fun _ stdout _ => ("ok", strip stdout)) h1) as (h2 & E2 & C2).
  rewrite C1 in E2. fold docker_info in E1, E2. fold devcontainer_version in E2.
  unfold _check_docker, _check_devcontainer. rewrite bind_bind, (bind_ok _ _ _ _ _ E1), bind_bind, (bind_ok _ _ _ _ _ E2).
  match type of E1 with _ = (Ok ?c, _) => match type of E2 with _ = (Ok ?d, _) =>
    destruct (settles_rest c d h2) as (l & h3 & E3 & l' & El & Hl) end end.
  rewrite (bind_ok _ _ _ _ _ E3). eexists _, _, _, h3. split; [reflexivity|]. rewrite El.
  rewrite !with_status_cons, (no_failure_count l' Hl).
  destruct (subprocess_run (w_calls (hs_world h)) docker_info) as [rc so se|m|m t] eqn:Ed;
    [destruct (Z.eqb_spec rc 0) as [->|Hrc]|..]; cbn [negb ch_status];
    destruct (subprocess_run (w_calls (hs_world h) ++ [docker_info]) devcontainer_version) as [rc2 so2 se2|m2|m2 t2] eqn:Ev; cbn;
    (split; [try discriminate; intros _; eauto 10|intros [(? & ? & E) (? & ? & ? & E')]; first [reflexivity|congruence]]).
Qed.
End HostCheck.

(** ** The daemon's process *)

Definition same_events (s s' : daemon_sys) : Prop := ds_events s' = ds_events s.
#[export] Instance same_events_preorder : PreOrder same_events.
Proof. split; [done|]. intros s1 s2 s3 E1 E2. unfold same_events in *. congruence. Qed.

Section Daemon.
Context `{Env} (home_of : string -> option string) (executable : string)
  (kill : nat -> list proc_event -> Z -> kill_outcome) (exited : nat -> list proc_event -> bool)
  (child_pid : list proc_event -> Z) (outside : nat -> list proc_event -> gmap string node -> gmap string node)
  (sleeps_in : spec_float -> nat).

Abbreviation wait_exit' := (wait_exit kill outside).
Abbreviation start' := (start home_of executable kill exited child_pid outside sleeps_in).
Abbreviation stop' := (stop home_of kill outside sleeps_in).

Lemma events_in_world {A} (m : W A) : moves same_events (in_world m).
Proof. intros s. unfold in_world. by destruct (m (ds_world s)). Qed.

Lemma events_sleep : moves same_events (sleep outside).
Proof. done. Qed.
#[local] Hint Resolve events_in_world events_sleep : moves.

Lemma events_alive p : moves same_events (_process_alive kill p).
Proof. unfold _process_alive, kill_now. destruct p; [destruct (_ <=? 0)|]; moves_step. Qed.

#[local] Hint Resolve events_alive : moves.

Lemma events_wait_socket n p : moves same_events (wait_socket exited outside n p).
Proof. induction n as [|n IH]; cbn [wait_socket]; unfold d_exists, child_exited; moves_step. Qed.

Lemma events_wait_exit n p : moves same_events (wait_exit' n p).
Proof. induction n as [|n IH]; cbn [wait_exit]; moves_step. Qed.

Lemma events_wait_removal n p : moves same_events (wait_removal outside n p).
Proof. induction n as [|n IH]; cbn [wait_removal]; unfold d_exists; moves_step. Qed.

Lemma events_wait_child n : moves same_events (wait_child exited outside n).
Proof. induction n as [|n IH]; cbn [wait_child]; unfold child_exited; moves_step. Qed.

Lemma events_remove p : moves same_events (_remove_file p).
Proof. apply events_in_world. Qed.

Lemma events_last_lines p n : moves same_events (_last_lines p n).
Proof. unfold _last_lines. moves_step. Qed.

Lemma events_read_pid p : moves same_events (_read_pid p).
Proof. unfold _read_pid. moves_step. Qed.

Lemma events_prepare a b c d : moves same_events (prepare a b c d).
Proof. unfold prepare, d_exists, _remove_file. moves_step. Qed.

#[local] Hint Resolve events_wait_socket events_wait_exit events_wait_removal events_wait_child events_remove events_last_lines
  events_read_pid events_prepare : moves.

(** Signals to one process. *)
Definition to (p : Z) (e : proc_event) : Prop := exists signal, e = Sent p signal.

(** Only signals to [p] were sent. *)
Definition signals_to (p : Z) (s s' : daemon_sys) : Prop := exists l, ds_events s' = ds_events s ++ l /\ Forall (to p) l.
#[local] Instance signals_preorder p : PreOrder (signals_to p).
Proof.
  split; [intros s; exists []; by rewrite app_nil_r|]. intros s1 s2 s3 (l1 & E1 & F1) (l2 & E2 & F2). exists (l1 ++ l2).
  rewrite E2, E1, app_assoc. split; [done|]. by apply Forall_app.
Qed.

Lemma same_signals {A} p (m : D A) : moves same_events m -> moves (signals_to p) m.
Proof. intros Hm s. exists []. rewrite app_nil_r. split; [apply Hm|constructor]. Qed.

Lemma signals_child p sg : moves (signals_to p) (signal_child exited p sg).
Proof.
  unfold signal_child, child_exited. apply moves_bind; [typeclasses eauto|moves_step|intros [|]; [moves_step|]].
  intros s. exists [Sent p sg]. split; [done|]. constructor; [by exists sg|constructor].
Qed.

Lemma signals_abandon p : moves (signals_to p) (abandon exited outside sleeps_in p).
Proof.
  unfold abandon, child_exited.
  apply moves_bind; [typeclasses eauto|moves_step|intros [|]; [moves_step|]].
  apply moves_bind; [typeclasses eauto|apply signals_child|intros _].
  apply moves_bind; [typeclasses eauto|apply same_signals; moves_step|intros [|]; [moves_step|]].
  apply moves_bind; [typeclasses eauto|apply signals_child|intros _].
  apply moves_bind; [typeclasses eauto|apply same_signals; moves_step|intros [|]; moves_step].
Qed.

Definition ended (s : daemon_sys) : Prop := exited (ds_turns s) (ds_events s) = true.

Lemma wait_child_ended n s s' : wait_child exited outside n s = (Ok true, s') -> ended s'.
Proof.
  revert s. induction n as [|n IH]; intros s; cbn [wait_child]; unfold child_exited; rewrite gets_bind;
    destruct (exited _ _) eqn:E; try (by intros [= <-]); try discriminate.
  apply IH.
Qed.

Lemma abandon_ended p s u s' : abandon exited outside sleeps_in p s = (Ok u, s') -> ended s'.
Proof.
  unfold abandon, child_exited. rewrite gets_bind. destruct (exited _ _) eqn:E; [by intros [= _ <-]|]. intros Hg.
  apply bind_inv in Hg as [(u1 & s1 & _ & Hg)|(e & _ & [=])].
  apply bind_inv in Hg as [(b & s2 & E2 & Hg)|(e & _ & [=])]. destruct b; [injection Hg as _ <-; by apply wait_child_ended in E2|].
  apply bind_inv in Hg as [(u2 & s3 & _ & Hg)|(e & _ & [=])].
  apply bind_inv in Hg as [(b & s4 & E4 & Hg)|(e & _ & [=])]. destruct b; [injection Hg as _ <-; by apply wait_child_ended in E4|discriminate Hg].
Qed.

Lemma last_lines_ended p n s : ended s -> ended (snd (_last_lines p n s)).
Proof.
  intros Hs. unfold _last_lines, in_world, mbind, M_bind. destruct (catch _ _ (ds_world s)) as [[o|e] w]; exact Hs.
Qed.

(** A wait that ends with the process alive has slept to its end. *)
Lemma wait_exit_outlived n p s s' : wait_exit' n p s = (Ok false, s') ->
  ds_turns s' = (ds_turns s + n)%nat /\ kill (ds_turns s') (ds_events s') p <> KillNoProcess.
Proof.
  revert s. induction n as [|n IH]; intros s; cbn [wait_exit]; unfold _process_alive, kill_now;
    (destruct (p <=? 0); [rewrite ret_bind; discriminate|]); rewrite bind_bind, gets_bind, ret_bind.
  - destruct (kill (ds_turns s) (ds_events s) p) eqn:E; intros Hw; try discriminate Hw; injection Hw as <-; rewrite Nat.add_0_r, E; by split.
  - destruct (kill (ds_turns s) (ds_events s) p) eqn:E; [|cbn; intros Hw; discriminate Hw|]; unfold sleep; rewrite modify_bind; intros Hw; apply IH in Hw as [Ht Hk];
      cbn [ds_turns] in Ht; (split; [lia|done]).
Qed.

Lemma send_signal_ok p sg s : 
  (exists s', send_signal kill p sg s = (Ok tt, s') /\ ds_events s' = ds_events s ++ [Sent p sg] /\ ds_turns s' = ds_turns s)
  \/ exists e, send_signal kill p sg s = (Err e, s).
Proof.
  unfold send_signal, kill_now. rewrite gets_bind. destruct (kill _ _ p); [left; eexists; by split_and!|right; by eexists..].
Qed.

(** The pid in the pid file, as [stop] reads it. *)
Definition names_pid (s : daemon_sys) (p : Z) : Prop :=
  exists text, w_host (ds_world s) !! _pid_path = Some (NFile text) /\ int_of_str (strip text) = Some p /\ 0 < p.

(** What [stop] may send: a SIGTERM to the process of the pid file, and a SIGKILL if it was alive after all the sleeps of the wait. *)
Definition stop_sends (timeout : spec_float) (s : daemon_sys) (l : list proc_event) : Prop :=
  l = [] \/ exists p, names_pid s p /\
    (l = [Sent p "SIGTERM"]
     \/ l = [Sent p "SIGTERM"; Sent p "SIGKILL"]
        /\ kill (ds_turns s + sleeps_in (at_least_zero timeout)) (ds_events s ++ [Sent p "SIGTERM"]) p <> KillNoProcess).

Lemma read_pid_names s p s' : _read_pid _pid_path s = (Ok (Some p), s') -> 0 < p -> names_pid s p.
Proof.
  unfold _read_pid, in_world, catch, host_read, fs_op, host_at, gets, mbind, M_bind. cbn. 
  destruct (fs_fault (w_fsops (ds_world s))) as [[d m]|]; cbn.
  { destruct d; cbn; intros [=]. }
  destruct (w_host (ds_world s) !! _pid_path) as [[|text]|] eqn:Eh; cbn; try (by intros [=]).
  destruct (is_empty (strip text)); intros [= Hp _] Hpos. exists text. by split_and!.
Qed.

Lemma stop_process_sends p timeout path s : names_pid s p ->
  exists l, ds_events (snd (stop_process kill outside sleeps_in p timeout path s)) = ds_events s ++ l /\ stop_sends timeout s l.
Proof.
  intros Hp. unfold stop_process. destruct (send_signal_ok p "SIGTERM" s) as [(s1 & E1 & V1 & T1)|(e & E1)].
  2: { rewrite (bind_err _ _ _ _ _ E1). exists []. rewrite app_nil_r. split; [done|by left]. }
  rewrite (bind_ok _ _ _ _ _ E1).
  assert (forall x r (m : D bool), ds_events x = ds_events s ++ r -> stop_sends timeout s r -> moves same_events m ->
    exists l, ds_events (snd (m x)) = ds_events s ++ l /\ stop_sends timeout s l) as Hend
    by (intros x r m E Hs Hm; exists r; split; [by rewrite (Hm x)|done]).
  assert (stop_sends timeout s [Sent p "SIGTERM"]) as Hterm by (right; eauto).
  pose proof (events_wait_exit (sleeps_in (at_least_zero timeout)) p s1) as Hw. unfold _wait_for_exit.
  destruct (wait_exit' _ p s1) as [[b|e] s2] eqn:Ew; cbn [snd] in Hw; unfold same_events in Hw; rewrite V1 in Hw.
  2: { rewrite (bind_err _ _ _ _ _ Ew). by exists [Sent p "SIGTERM"]. }
  rewrite (bind_ok _ _ _ _ _ Ew). destruct b; [apply (Hend s2 _ _ Hw Hterm); unfold _wait_for_socket_removal; moves_step|].
  apply wait_exit_outlived in Ew as [Ht Hk]. rewrite T1 in Ht. rewrite Hw, Ht in Hk. rewrite !bind_bind.
  destruct (send_signal_ok p "SIGKILL" s2) as [(s3 & E3 & V3 & _)|(e & E3)].
  2: { rewrite (bind_err _ _ _ _ _ E3). by exists [Sent p "SIGTERM"]. }
  rewrite (bind_ok _ _ _ _ _ E3). apply (Hend s3 [Sent p "SIGTERM"; Sent p "SIGKILL"]).
  - by rewrite V3, Hw, <- app_assoc.
  - right. exists p. split; [done|]. by right.
  - unfold _wait_for_socket_removal. moves_step.
Qed.

(** The files, the events and the sleeps are the same. *)
Definition same_view (s s' : daemon_sys) : Prop :=
  w_host (ds_world s') = w_host (ds_world s) /\ ds_events s' = ds_events s /\ ds_turns s' = ds_turns s.
#[local] Instance same_view_preorder : PreOrder same_view.
Proof. split; [done|]. intros s1 s2 s3 (?&?&?) (?&?&?). split_and!; congruence. Qed.

Lemma view_read p : moves same_view (_read_pid p).
Proof.
  unfold _read_pid. apply moves_bind; [typeclasses eauto| |intros o; moves_step]. intros s. unfold in_world.
  match goal with |- context[let '(_, _) := ?m ?w in _] =>
    assert (quiet state_view m) as Hq by quiet_step; specialize (Hq w); destruct (m w) as [r w'] end.
  by injection Hq as _ _ Hq.
Qed.

Lemma view_alive p : moves same_view (_process_alive kill p).
Proof. unfold _process_alive, kill_now. destruct p; [destruct (_ <=? 0)|]; moves_step. Qed.

Lemma stop_sends_view timeout s s' l : same_view s s' -> stop_sends timeout s' l -> stop_sends timeout s l.
Proof.
  intros (Eh & Ee & Et) [->|(p & Hp & Hl)]; [by left|]. right. exists p. unfold names_pid in *. rewrite Eh in Hp. split; [exact Hp|].
  by rewrite Ee, Et in Hl.
Qed.

(** The command of the daemon, with the socket and the registry of the options, the environment or the defaults. *)
Definition daemon_command (so ro : option string) (command : list string) : Prop :=
  exists socket registry, _socket_path home_of so = Ok socket /\ _registry_path home_of ro = Ok registry
    /\ command = _daemon_command executable socket registry.

(** What [start] did to the processes: one process with the daemon's command, and signals to it. *)
Definition one_process (so ro : option string) (s s' : daemon_sys) : Prop :=
  exists command sigs, daemon_command so ro command /\ ds_events s' = ds_events s ++ Spawned command :: sigs
  /\ Forall (to (child_pid (ds_events s ++ [Spawned command]))) sigs.

(** The pid file can be read and names a process that lives. *)
Definition lives (s : daemon_sys) (p : Z) : Prop :=
  names_pid s p /\ fs_fault (w_fsops (ds_world s)) = None /\ kill (ds_turns s) (ds_events s) p <> KillNoProcess.

Definition start_outcome (so ro : option string) (fg : bool) (s : daemon_sys) (r : res exn start_result) (s' : daemon_sys) : Prop :=
  match r with
  | Ok (AlreadyRunning pid) => ds_events s' = ds_events s
      /\ exists p, pid = Some p /\ names_pid s p /\ kill (ds_turns s) (ds_events s) p <> KillNoProcess
  | Ok (Replaced command) => fg = true /\ ds_events s' = ds_events s /\ daemon_command so ro command
  | Ok (Started p) => fg = false /\
      exists command, daemon_command so ro command /\ ds_events s' = ds_events s ++ [Spawned command]
      /\ p = child_pid (ds_events s') /\ w_host (ds_world s') !! _pid_path = Some (NFile (str_of_Z p +:+ String newline ""))
  | Ok (StartFailed _) => fg = false /\ one_process so ro s s' /\ ended s'
  | Err _ => ds_events s' = ds_events s \/ fg = false /\ one_process so ro s s'
  end.

Lemma read_pid_lives s p : lives s p -> exists s1, _read_pid _pid_path s = (Ok (Some p), s1).
Proof.
  intros ((text & Eh & Hp & Hpos) & Hf & _). unfold _read_pid, in_world, catch, host_read, fs_op, host_at, gets, mbind, M_bind. cbn.
  rewrite Hf. cbn. rewrite Eh. cbn. destruct (is_empty (strip text)) eqn:Es; [|rewrite Hp; by eexists].
  destruct (strip text); [discriminate Hp|discriminate Es].
Qed.

Lemma alive_lives s p : 0 < p -> kill (ds_turns s) (ds_events s) p <> KillNoProcess -> _process_alive kill (Some p) s = (Ok true, s).
Proof.
  intros Hp Hk. unfold _process_alive, kill_now. destruct (Z.leb_spec p 0); [lia|]. rewrite gets_bind. by destruct (kill _ _ p).
Qed.

Lemma alive_true pid s s' : _process_alive kill pid s = (Ok true, s') ->
  s' = s /\ exists p, pid = Some p /\ 0 < p /\ kill (ds_turns s) (ds_events s) p <> KillNoProcess.
Proof.
  unfold _process_alive, kill_now. destruct pid as [p|]; [|discriminate]. destruct (Z.leb_spec p 0); [discriminate|]. rewrite gets_bind.
  destruct (kill _ _ p) eqn:E; intros [=]; (split; [done|]); exists p; rewrite E; by split_and!.
Qed.

Lemma events_step {A B} (m : D A) (k : A -> D B) ev s x s' : moves same_events m -> ds_events s = ev ->
  (m ≫= k) s = (x, s') ->
  (exists a s1, ds_events s1 = ev /\ k a s1 = (x, s')) \/ (exists e, x = Err e /\ ds_events s' = ev).
Proof.
  intros Hm <- E. specialize (Hm s). apply bind_inv in E as [(a & s1 & Ea & E)|(e & Ee & ->)].
  - left. exists a, s1. rewrite Ea in Hm. by split.
  - right. exists e. rewrite Ee in Hm. by split.
Qed.

(** One step without an event; a failure ends the run. *)
Ltac event_step E a s1 Hs :=
  eapply events_step in E as [(a & s1 & Hs & E)|(? & -> & Hs)]; [| by left | moves_step | by eauto].

(** What [start] does, whether or not a process lives. *)
Lemma start_outcome_of so ro lo fg s : start_outcome so ro fg s (fst (start' so ro lo fg s)) (snd (start' so ro lo fg s)).
Proof.
  destruct (start' so ro lo fg s) as [r s'] eqn:E. cbn [fst snd]. unfold start in E.
  pose proof (view_read _pid_path s) as V. destruct (_read_pid _pid_path s) as [[pid|e] s1] eqn:E1; cbn [snd] in V.
  2: { rewrite (bind_err _ _ _ _ _ E1) in E. injection E as <- <-. left. apply V. }
  rewrite (bind_ok _ _ _ _ _ E1) in E. destruct V as (_ & H1 & T1).
  destruct (_process_alive kill pid s1) as [[[|]|e] s2] eqn:E2.
  { rewrite (bind_ok _ _ _ _ _ E2) in E. apply alive_true in E2 as (-> & p & -> & Hp & Hk). injection E as <- <-.
    split; [done|]. exists p. split; [done|]. split; [by apply (read_pid_names _ _ s1)|]. by rewrite <- T1, <- H1. }
  2: { pose proof (events_alive pid s1) as H2. rewrite E2 in H2. rewrite (bind_err _ _ _ _ _ E2) in E. injection E as <- <-.
       left. unfold same_events in H2. cbn [snd] in H2. by rewrite H2. }
  pose proof (events_alive pid s1) as H2. rewrite E2 in H2. unfold same_events in H2. cbn [snd] in H2. rewrite H1 in H2.
  rewrite (bind_ok _ _ _ _ _ E2) in E.
  event_step E stale s3 H3. event_step E u4 s4 H4.
  rewrite lift_bind in E. destruct (_socket_path home_of so) as [socket|?] eqn:Eso; [|injection E as <- <-; by left].
  rewrite lift_bind in E. destruct (_registry_path home_of ro) as [registry|?] eqn:Ero; [|injection E as <- <-; by left].
  rewrite lift_bind in E. destruct (_log_path home_of lo) as [log|?]; [|injection E as <- <-; by left].
  assert (daemon_command so ro (_daemon_command executable socket registry)) as Hcmd by (by exists socket, registry).
  destruct fg; [injection E as <- <-; by split_and!|].
  event_step E u8 s8 H8. unfold popen in E. rewrite !bind_bind in E.
  unfold open_log in E. event_step E u9 s9 H9. clear H2 H3 H4 H8.
  set (command := _daemon_command executable socket registry) in *.
  set (ev := ds_events s ++ [Spawned command]).
  unfold add_event in E. rewrite bind_bind, modify_bind in E.
  match type of E with (_ ≫= _) ?x = _ => set (s10 := x) in E end.
  assert (ds_events s10 = ev) as H10 by (unfold s10, ev; cbn; by rewrite H9). clearbody s10.
  rewrite gets_bind, H10 in E. set (p := child_pid ev) in *.
  assert (forall x sigs, ds_events x = ev ++ sigs -> Forall (to p) sigs -> one_process so ro s x) as Hone.
  { intros x sigs Es Hs. exists command, sigs. split; [done|]. split; [|done]. by rewrite Es; unfold ev; rewrite <- app_assoc. }
  assert (forall x, ds_events x = ev -> one_process so ro s x) as Hone0 by (intros x Es; apply (Hone x []); [by rewrite app_nil_r|done]).
  eapply events_step in E as [(up & s11 & H11 & E)|(e & -> & He)]; [|by right; split; [done|apply Hone0]|apply events_wait_socket|done].
  destruct up.
  - pose proof (events_in_world (host_write _pid_path (str_of_Z p +:+ String newline "")) s11) as He.
    apply bind_inv in E as [(u12 & s12 & E12 & E)|(e & E12 & ->)]; unfold write_pid in E12; rewrite E12 in He; cbn [snd] in He;
      unfold same_events in He; rewrite H11 in He; [|by right; split; [done|apply Hone0]].
    injection E as <- <-. split; [done|]. exists command. split; [done|]. split; [exact He|]. split; [by rewrite He|].
    unfold in_world in E12. destruct (host_write _ _ (ds_world s11)) as [r0 w0] eqn:Ew. injection E12 as -> <-.
    by apply host_write_ok in Ew.
  - pose proof (signals_abandon p s11) as (sigs & He & Hs). rewrite H11 in He.
    apply bind_inv in E as [(u12 & s12 & E12 & E)|(e & E12 & ->)]; rewrite E12 in He; cbn [snd] in He; [|right; split; [done|]; by apply (Hone s' sigs)].
    apply abandon_ended in E12. pose proof (last_lines_ended log 20 s12 E12) as Hd.
    pose proof (events_last_lines log 20 s12) as Hl. unfold same_events in Hl. rewrite He in Hl.
    apply bind_inv in E as [(l & s13 & E13 & E)|(e & E13 & ->)]; rewrite E13 in Hl, Hd; cbn [snd] in Hl, Hd; [|right; split; [done|]; by apply (Hone s' sigs)].
    injection E as <- <-. split; [done|]. split; [by apply (Hone s13 sigs)|exact Hd].
Qed.

(** C29: [ws daemon start] starts one process at most, and signals no other. If the pid file can be read and names a process that
    lives, it starts none, touches no file and answers that this process is running; and it gives that answer of no other
    process. A start that does not fail and finds none that lives hands over to the daemon's command, in the foreground, or
    starts one process with it, in the background, the socket and the registry being those of the options, of the environment or the
    defaults; if it reports a start, the pid file holds the pid of that process; and if it reports that the daemon did not come up,
    the process has ended, by itself or by its signals. *)
Theorem start_runs_one_daemon so ro lo fg s :
  let '(r, s') := start' so ro lo fg s in
  start_outcome so ro fg s r s' /\ (forall p, lives s p -> r = Ok (AlreadyRunning (Some p)) /\ same_view s s').
Proof.
  destruct (start' so ro lo fg s) as [r s'] eqn:E. split; [pose proof (start_outcome_of so ro lo fg s) as Ho; by rewrite E in Ho|].
  intros p Hl. destruct (read_pid_lives s p Hl) as [s1 E1]. pose proof (view_read _pid_path s) as V. rewrite E1 in V. cbn [snd] in V.
  destruct Hl as ((? & _ & _ & Hp) & _ & Hk). unfold start in E. rewrite (bind_ok _ _ _ _ _ E1) in E.
  destruct V as (Vh & Ve & Vt). rewrite <- Ve, <- Vt in Hk. rewrite (bind_ok _ _ _ _ _ (alive_lives _ _ Hp Hk)) in E.
  injection E as <- <-. by split_and!.
Qed.

(** C30: [ws daemon stop] starts no process and signals none but the one that the pid file names: first SIGTERM, and SIGKILL only if
    that process was still alive after the whole of the time it was given. *)
Theorem stop_signals_only_the_named timeout so s :
  exists l, ds_events (snd (stop' timeout so s)) = ds_events s ++ l /\ stop_sends timeout s l.
Proof.
  assert (forall {A} (m : D A) x, moves same_events m -> ds_events x = ds_events s ->
    exists l, ds_events (snd (m x)) = ds_events s ++ l /\ stop_sends timeout s l) as Hquiet
    by (intros A m x Hm Ex; exists []; rewrite app_nil_r, (Hm x); split; [done|by left]).
  unfold stop. pose proof (view_read _pid_path s) as V1. destruct (_read_pid _pid_path s) as [[pid|e] s1] eqn:E1; cbn [snd] in V1.
  2: { rewrite (bind_err _ _ _ _ _ E1). exact (Hquiet _ (throw e) s1 (moves_throw _ e) (proj1 (proj2 V1))). }
  rewrite (bind_ok _ _ _ _ _ E1), lift_bind. destruct (_socket_path home_of so) as [path|e].
  2: exact (Hquiet _ (throw e) s1 (moves_throw _ e) (proj1 (proj2 V1))).
  pose proof (view_alive pid s1) as V2. destruct (_process_alive kill pid s1) as [[alive|e] s2] eqn:E2; cbn [snd] in V2.
  2: { rewrite (bind_err _ _ _ _ _ E2). apply (Hquiet _ (throw e) s2 (moves_throw _ e)). by rewrite (proj1 (proj2 V2)), (proj1 (proj2 V1)). }
  rewrite (bind_ok _ _ _ _ _ E2). pose proof (transitivity V1 V2) as V.
  assert (ds_events s2 = ds_events s) as Ee by apply V.
  destruct alive; [destruct pid as [p|]|]; [|apply Hquiet; [unfold d_exists; moves_step|exact Ee]..].
  assert (0 < p) as Hpos.
  { unfold _process_alive in E2. destruct (Z.leb_spec p 0); [discriminate E2|done]. }
  pose proof (read_pid_names _ _ _ E1 Hpos) as Hn.
  assert (names_pid s2 p) as Hn2 by (unfold names_pid in *; by rewrite (proj1 V)).
  destruct (stop_process_sends p timeout path s2 Hn2) as (l & El & Hl).
  exists l. split; [|by apply (stop_sends_view _ s s2)]. rewrite <- Ee, <- El. unfold mbind, M_bind.
  by destruct (stop_process _ _ _ p timeout path s2) as [[b|e] s3].
Qed.
(** ** The audit of the host *)

(** What the report has for a layer: its dictionary, or its error. *)
Definition layer_result (r : res exn obj) : json :=
  match r with
  | Ok o => JObj (if has_key "ok" o then o else o ++ [("ok", JBool true)])
  | Err e => JObj [("ok", JBool false); ("error", JStr (exn_class e +:+ ": " +:+ str_exn e))]
  end.

Lemma safe_result {S} (m : M S exn obj) s : _safe m s = (Ok (layer_result (fst (m s))), snd (m s)).
Proof. unfold _safe, catch, mbind, M_bind. by destruct (m s) as [[o|e] s']. Qed.

Lemma safe_bind {S B} (m : M S exn obj) (k : json -> M S exn B) s :
  (_safe m ≫= k) s = k (layer_result (fst (m s))) (snd (m s)).
Proof. unfold mbind at 1, M_bind. by rewrite safe_result. Qed.

Section HostAudit.
Variables (exchange : string -> W string) (mtime : string -> datetime) (version src_path : string).
Abbreviation gather_daemon := (_gather_daemon home_of kill exchange).
Abbreviation audit := (gather_audit home_of kill exchange mtime version src_path).

Lemma events_gather_daemon : moves same_events gather_daemon.
Proof. unfold _gather_daemon, _daemon_status, _health_call, d_exists. moves_step. Qed.

(** [ws host audit] always gives its report, with every layer in it: each layer is gathered after the others whatever became
    of them, and stands in the report with its own answer or its own error; the probe of the helpers is there if it was asked
    for. The audit starts no process and sends no signal. *)
Theorem audit_layers_fail_alone probe s :
  let s0 := snd (in_world _utc_now s) in
  let code := in_world (_gather_code version src_path) s0 in
  let daemon := gather_daemon (snd code) in
  let base_images := in_world _gather_base_images (snd daemon) in
  let desks := in_world (_gather_desks mtime) (snd base_images) in
  let leases := in_world _gather_leases (snd desks) in
  let helpers := in_world _gather_helpers (snd leases) in
  audit probe s
  = (Ok [("audited_at", JStr (isoformat (clock (w_ticks (ds_world s))))); ("code", layer_result (fst code));
         ("daemon", layer_result (fst daemon)); ("capability", layer_result (Ok _gather_capability_surface));
         ("base_images", layer_result (fst base_images)); ("desks", layer_result (fst desks));
         ("leases", layer_result (fst leases));
         ("helpers", if probe : bool then layer_result (fst helpers) else JNull)],
     if probe then snd helpers else snd leases)
  /\ ds_events (snd (audit probe s)) = ds_events s.
Proof.
  cbv zeta. split.
  - assert (in_world _utc_now s = (Ok (isoformat (clock (w_ticks (ds_world s)))), snd (in_world _utc_now s))) as E by done.
    unfold gather_audit. rewrite (bind_ok _ _ _ _ _ E), !safe_bind. destruct probe; [by rewrite safe_bind|done].
  - revert s. change (moves same_events (audit probe)). unfold gather_audit, _safe.
    pose proof events_gather_daemon. moves_step.
Qed.
End HostAudit.
End Daemon.

(** ** Processes that the commands misjudge *)

Section Misjudged.
#[local] Existing Instance demo_env.
Definition pid_world : world := set_host {["/root/.drydock/daemon.pid" := NFile "42"]} empty_world.
Definition socket_world : world := set_host {["/root/.drydock/run/daemon.sock" := NFile ""]} empty_world.
Definition fresh_sys (w : world) : daemon_sys := mkSys w [] 0.
Definition daemon_argv : list string :=
  _daemon_command "python" "/root/.drydock/run/daemon.sock" "/root/.drydock/registry.db".
Definition makes_socket (_ : nat) (_ : list proc_event) (h : gmap string node) : gmap string node :=
  <["/root/.drydock/run/daemon.sock" := NFile ""]> h.

(** A daemon that does not come up after a reload is asked to end and not waited for. *)
Example reload_leaves_process :
  let '(r, s) := reload (fun _ => None) "python" (fun _ _ _ => KillNoProcess) (fun _ _ => false) (fun _ => 7)
                   (fun _ _ h => h) (fun _ => 1%nat) (seconds 5) None None None (fresh_sys empty_world) in
  match r with Err e => exn_class e = "ClickException" | Ok _ => False end
  /\ ds_events s = [Spawned daemon_argv; Sent 7 "SIGTERM"].
Proof. vm_compute. by split. Qed.

(** A daemon that was not started by the command has no pid file: its socket is removed and a second daemon started. *)
Example start_takes_served_socket :
  let '(r, s) := start (fun _ => None) "python" (fun _ _ _ => KillDone) (fun _ _ => false) (fun _ => 7)
                   makes_socket (fun _ => 1%nat) None None None false (fresh_sys socket_world) in
  r = Ok (Started 7) /\ ds_events s = [Spawned daemon_argv] /\ ds_turns s = 1%nat.
Proof. vm_compute. by split_and!. Qed.

(** The pid file names a live process: no other is started, also with a socket that was removed. *)
Lemma start_runs_one_daemon_witness :
  exists s', start (fun _ => None) "python" (fun _ _ _ => KillDone) (fun _ _ => false) (fun _ => 7) makes_socket (fun _ => 1%nat)
               None None None false (fresh_sys pid_world) = (Ok (AlreadyRunning (Some 42)), s')
  /\ ds_events s' = [].
Proof.
  pose proof (start_runs_one_daemon (fun _ => None) "python" (fun _ _ _ => KillDone) (fun _ _ => false) (fun _ => 7) makes_socket
    (fun _ => 1%nat) None None None false (fresh_sys pid_world)) as Hs.
  destruct (start _ _ _ _ _ _ _ _ _ _ _ _) as [r s']. destruct Hs as [_ Hs]. destruct (Hs 42) as [-> (_ & He & _)].
  - split; [by exists "42"; vm_compute|]. by split.
  - exists s'. by split.
Defined.

(** A process that outlives its SIGKILL is reported as stopped, and its pid file is removed. *)
Example stop_reports_survivor :
  let '(r, s) := stop (fun _ => None) (fun _ _ _ => KillDone) (fun _ _ h => h) (fun _ => 1%nat) (seconds 5) None (fresh_sys pid_world) in
  r = Ok (Some (42, true)) /\ w_host (ds_world s) !! "/root/.drydock/daemon.pid" = None.
Proof. vm_compute. by split. Qed.

(** A process of another user, which has the number by now, is taken for the daemon, and the command ends with an exception. *)
Example stop_of_foreign_process :
  match fst (stop (fun _ => None) (fun _ _ _ => KillDenied) (fun _ _ h => h) (fun _ => 1%nat) (seconds 5) None (fresh_sys pid_world)) with
  | Err e => exn_class e = "PermissionError" | Ok _ => False end.
Proof. vm_compute. reflexivity. Qed.
(** With a tilde in the environment variable the daemon's socket is in the home directory, and the clients look in a directory
    named by the tilde. *)
Definition tilde_env : Env :=
  let E := demo_env in
  {| clock := clock; clock_ok := clock_ok; uuid_hex := uuid_hex; token_bytes := token_bytes; token_bytes_len := token_bytes_len;
     sha256 := sha256; subprocess_run := subprocess_run; run_host := run_host; which := which; env_float_repr := env_float_repr;
     json_loads := json_loads; json_dumps := json_dumps; json_dumps_indent := json_dumps_indent; yaml_load := yaml_load;
     yaml_dump := yaml_dump; fs_fault := fs_fault; audit_fault := audit_fault; is_root := is_root; secrets_root := secrets_root; home := home;
     environ := fun v => if v =s "DRYDOCK_DAEMON_SOCKET" then Some "~/d.sock" else None |}.
Example clients_miss_the_socket :
  _socket_path (H0 := tilde_env) (fun _ => None) None = Ok "/root/d.sock" /\ _default_socket_path (H := tilde_env) = "~/d.sock".
Proof. vm_compute. by split. Qed.
End Misjudged.
