(* ===== verification/Harbors.v ===== *)
(** [core/harbors.py] and [cli/harbors.py]: probes of peer harbors over ssh and their roll-up. *)

From S2P Require Import Prelude PyStr PyVal Registry World WorldFacts Container Schedule ScheduleFacts Deskwatch.
From Stdlib Require Import List.

(** ** Configuration *)

Record PeerSpec : Type := mkPeer { host : json; ssh_user : json; desks : json }.

Definition ALL_DESKS : json := JList [JStr "*"].
Definition SSH_TIMEOUT_DEFAULT : Z := 15.
Definition CC_PROBE_TIMEOUT : Z := 35.

Section Harbors.
Context `{Env}.
(** [int((monotonic() - t0) * 1000)] around an ssh call, by the calls before it. *)
Variable ssh_ms : list call -> call -> Z.

(** The user is put before the host if it is set; a host that is no text stays what it is. *)
Definition ssh_target (p : PeerSpec) : json :=
  if truthy (ssh_user p) then JStr (py_str (ssh_user p) +:+ "@" +:+ py_str (host p)) else host p.

Definition CONFIG_PATH : string := home // ".drydock" // "harbors" // "peers.yaml".

Definition peer_of (i : nat) (entry : json) : res exn PeerSpec :=
  let missing := Err (WsError ("Harbors config peer #" +:+ str_of_Z (Z.of_nat i) +:+ " missing required 'host' field")
                        (Some "Each peer needs at least: '- host: <ssh-target>'")) in
  match entry with
  | JObj o => if has_key "host" o
              then Ok (mkPeer (jget "host" o) (jget "ssh_user" o) (jget_default "desks" ALL_DESKS o)) else missing
  | _ => missing
  end.

Fixpoint peers_from (i : nat) (l : list json) : res exn (list PeerSpec) :=
  match l with
  | [] => Ok []
  | e :: l => p ← peer_of i e; ps ← peers_from (S i) l; Ok (p :: ps)
  end.

Definition parse_peers (raw : json) : res exn (list PeerSpec) :=
  match py_or raw (JObj []) with
  | JObj o =>
      match jget_default "peers" (JList []) o with
      | JList l => peers_from 0 l
      | v => Err (WsError ("Harbors config 'peers' must be a list (got " +:+ type_name v +:+ ")")
                    (Some "See docs/design/harbor-monitor.md for the schema"))
      end
  | v => attr_error v "get"
  end.

Definition load_peers : W (list PeerSpec) :=
  found ← path_exists CONFIG_PATH;
  if negb found then
    throw (WsError ("Harbors config not found at " +:+ CONFIG_PATH)
             (Some ("Create " +:+ CONFIG_PATH +:+ " with a 'peers:' block — see docs/design/harbor-monitor.md")))
  else
    text ← host_read CONFIG_PATH;
    match yaml_load text with
    | None => throw (WsError ("Harbors config at " +:+ CONFIG_PATH +:+ " is not valid YAML") (Some "Fix the YAML syntax"))
    | Some raw => lift (parse_peers raw)
    end.

(** ** Probes *)

Record ProbeResult : Type := mkProbe {
  pr_peer : json; pr_desk : option string; pr_kind : string; pr_status : string; pr_detail : string;
  elapsed_ms : Z; pr_data : json
}.

Definition to_dict (r : ProbeResult) : json :=
  JObj [("peer", pr_peer r); ("desk", opt_str (pr_desk r)); ("kind", JStr (pr_kind r)); ("status", JStr (pr_status r));
        ("detail", JStr (pr_detail r)); ("elapsed_ms", JInt (elapsed_ms r)); ("data", pr_data r)].

Definition ssh_call (target remote_cmd : string) (timeout : Z) : call :=
  mkCall ["ssh"; "-o"; "BatchMode=yes"; "-o"; "ConnectTimeout=" +:+ str_of_Z (Z.min timeout 10);
          "-o"; "StrictHostKeyChecking=accept-new"; target; remote_cmd] "".

(** The exit code, the output, the error output, and the milliseconds it took. *)
Definition _run_ssh (target : json) (remote_cmd : string) (timeout : Z) : W (Z * string * string * Z) :=
  target ← lift (str_arg target);
  let c := ssh_call target remote_cmd timeout in
  ms ← gets (fun w => ssh_ms (w_calls w) c);
  out ← run c;
  mret (match out with
        | Ran code stdout stderr => (code, stdout, stderr, ms)
        | RunTimeout _ _ => (124, "", "ssh timed out after " +:+ str_of_Z timeout +:+ "s", ms)
        | RunNotFound m => (255, "", "ssh invocation failed: " +:+ m, ms)
        end).

Definition unreachable_code (code : Z) : bool := (code =? 124) || (code =? 255).

Definition or_exit (s what : string) (code : Z) : string := if is_empty s then what +:+ str_of_Z code else s.

(** [(stderr or stdout).strip()]. *)
Definition said (stdout stderr : string) : string := strip (if is_empty stderr then stdout else stderr).

Definition last_line (s : string) : string := List.last (splitlines s) "".

(** [data.get(key, default)] of what the peer answered. *)
Definition answer_get (key : string) (d data : json) : res exn json :=
  match data with JObj o => Ok (jget_default key d o) | v => attr_error v "get" end.

Definition probe_daemon (peer : PeerSpec) : W ProbeResult :=
  '(code, stdout, stderr, elapsed) ← _run_ssh (ssh_target peer) "drydock daemon status --json" SSH_TIMEOUT_DEFAULT;
  let result status detail data := mkProbe (host peer) None "daemon" status detail elapsed data in
  if unreachable_code code then mret (result "unreachable" (or_exit (strip stderr) "ssh exit " code) JNull)
  else if negb (code =? 0) then
    mret (result "failed" (if is_empty (said stdout stderr) then "exit " +:+ str_of_Z code
                           else last_line (said stdout stderr)) JNull)
  else
    match json_loads stdout with
    | None => mret (result "failed" "non-JSON response from drydock daemon status" JNull)
    | Some data =>
        pid ← lift (answer_get "pid" (JStr "?") data);
        mret (result "ok" ("pid=" +:+ py_str pid) data)
    end.

(** [len(v)]. *)
Definition py_len (v : json) : res exn Z :=
  match v with
  | JList l => Ok (Z.of_nat (length l))
  | JObj o => Ok (Z.of_nat (length o))
  | JStr s => Ok (char_len s)
  | v => Err (PyError "TypeError" ("object of type '" +:+ type_name v +:+ "' has no len()"))
  end.

Definition probe_desks (peer : PeerSpec) : W ProbeResult :=
  '(code, stdout, stderr, elapsed) ← _run_ssh (ssh_target peer) "ws list --json" SSH_TIMEOUT_DEFAULT;
  let result status detail data := mkProbe (host peer) None "desks" status detail elapsed data in
  if negb (code =? 0) then
    mret (result (if unreachable_code code then "unreachable" else "failed")
            (or_exit (stake 200 (said stdout stderr)) "exit " code) JNull)
  else
    match json_loads stdout with
    | None => mret (result "failed" "non-JSON response from ws list" JNull)
    | Some data =>
        desks ← lift (match data with JList _ => Ok data | _ => answer_get "drydocks" (JList []) data end);
        n ← lift (py_len desks);
        mret (result "ok" (str_of_Z n +:+ " desk(s)") (JObj [("desks", desks)]))
    end.

(** The command the peer's shell gets. *)
Definition deskwatch_command (desk : string) : string := "ws deskwatch " +:+ shlex_quote desk +:+ " --json".
Definition liveness_command (desk : string) : string := "ws exec " +:+ shlex_quote desk +:+ " -- timeout 30 claude -p ':'".

Definition probe_deskwatch (peer : PeerSpec) (desk : string) : W ProbeResult :=
  '(code, stdout, stderr, elapsed) ← _run_ssh (ssh_target peer) (deskwatch_command desk) SSH_TIMEOUT_DEFAULT;
  let result status detail data := mkProbe (host peer) (Some desk) "deskwatch" status detail elapsed data in
  if unreachable_code code then mret (result "unreachable" (or_exit (strip stderr) "ssh exit " code) JNull)
  else
    match (if is_empty (strip stdout) then Some (JObj []) else json_loads stdout) with
    | None => mret (result "failed" "non-JSON response from ws deskwatch" JNull)
    | Some data =>
        healthy ← lift (answer_get "healthy" (JBool (code =? 0)) data);
        violations ← lift (answer_get "violations" (JInt 0) data);
        mret (if truthy healthy then result "ok" "healthy" data
              else result "failed" (py_str violations +:+ " violation(s)") data)
    end.

Definition probe_cc_liveness (peer : PeerSpec) (desk : string) : W ProbeResult :=
  '(code, stdout, stderr, elapsed) ← _run_ssh (ssh_target peer) (liveness_command desk) CC_PROBE_TIMEOUT;
  let result status detail := mkProbe (host peer) (Some desk) "cc_liveness" status detail elapsed JNull in
  if unreachable_code code then mret (result "unreachable" (or_exit (strip stderr) "ssh exit " code))
  else if negb (code =? 0) then
    let tail := splitlines (said stdout stderr) in
    let detail := match tail with [] => "exit " +:+ str_of_Z code | _ => List.last tail "" end in
    let detail := if code =? 124 then "claude -p timed out (likely auth/network) — " +:+ detail else detail in
    mret (result "failed" (stake 200 detail))
  else mret (result "ok" "claude responsive").

Definition name_of (d : json) : res exn json :=
  match d with JObj o => Ok (jget "name" o) | v => attr_error v "get" end.

Definition resolve_desks (peer : PeerSpec) (listed : json) : res exn (list json) :=
  items ← as_list listed;
  names ← mapE name_of items;
  let available := List.filter truthy names in
  all ← (if py_eq (desks peer) ALL_DESKS then Ok true else py_in "*" (desks peer));
  if all : bool then Ok available
  else wanted ← as_list (desks peer); Ok (List.filter (fun d => py_mem d available) wanted).

(** [shlex.quote] of a desk that is no text. *)
Definition desk_text (v : json) : res exn string :=
  match v with
  | JStr s => Ok s
  | _ => Err (PyError "TypeError" "expected string or bytes-like object")
  end.

Definition probe_desk (peer : PeerSpec) (desk : json) : W (list ProbeResult) :=
  desk ← lift (desk_text desk);
  d ← probe_deskwatch peer desk;
  c ← probe_cc_liveness peer desk;
  mret [d; c].

Definition listed_desks (r : ProbeResult) : json :=
  match pr_data r with JObj o => jget_default "desks" (JList []) o | _ => JList [] end.

Definition probe_peer (peer : PeerSpec) : W (list ProbeResult) :=
  daemon ← probe_daemon peer;
  if pr_status daemon =s "unreachable" then mret [daemon]
  else
    desks_probe ← probe_desks peer;
    if negb (pr_status desks_probe =s "ok") then mret [daemon; desks_probe]
    else
      target_desks ← lift (resolve_desks peer (listed_desks desks_probe));
      per_desk ← mapM (probe_desk peer) target_desks;
      mret (daemon :: desks_probe :: concat per_desk).

(** ** The roll-up *)

Record desk_entry : Type := mkDeskEntry { de_desk : string; de_checks : list ProbeResult }.
Record peer_entry : Type := mkPeerEntry {
  pe_peer : json; pe_reachable : bool; pe_probes : list ProbeResult; pe_desks : list desk_entry
}.

Definition check_ok (r : ProbeResult) : bool := pr_status r =s "ok".

(** [p["desks"].setdefault(desk, ...)["checks"].append(...)]. *)
Fixpoint add_check (desk : string) (r : ProbeResult) (ds : list desk_entry) : list desk_entry :=
  match ds with
  | [] => [mkDeskEntry desk [r]]
  | d :: ds => if desk =s de_desk d then mkDeskEntry (de_desk d) (de_checks d ++ [r]) :: ds else d :: add_check desk r ds
  end.

Definition note_result (r : ProbeResult) (p : peer_entry) : peer_entry :=
  mkPeerEntry (pe_peer p) (pe_reachable p && negb (pr_status r =s "unreachable")) (pe_probes p ++ [r])
    (match pr_desk r with
     | Some desk => if is_empty desk then pe_desks p else add_check desk r (pe_desks p)
     | None => pe_desks p
     end).

(** [peers.setdefault(r.peer, ...)]; a NaN is taken as one key. *)
Definition same_key (a b : json) : bool :=
  match a, b with JFloat SpecFloat.S754_nan, JFloat SpecFloat.S754_nan => true | _, _ => scalar_eq a b end.

Fixpoint add_result (r : ProbeResult) (ps : list peer_entry) : list peer_entry :=
  match ps with
  | [] => [note_result r (mkPeerEntry (pr_peer r) true [] [])]
  | p :: ps => if same_key (pr_peer r) (pe_peer p) then note_result r p :: ps else p :: add_result r ps
  end.

Definition hashable (v : json) : res exn unit :=
  if is_container v then Err (PyError "TypeError" ("unhashable type: '" +:+ type_name v +:+ "'")) else Ok tt.

Definition grouped (results : list ProbeResult) : list peer_entry := fold_left (fun ps r => add_result r ps) results [].

Definition desk_healthy (d : desk_entry) : bool := forallb check_ok (de_checks d).
Definition peer_healthy (p : peer_entry) : bool := pe_reachable p && forallb desk_healthy (pe_desks p).

Definition desk_json (d : desk_entry) : json :=
  JObj [("desk", JStr (de_desk d));
        ("checks", JList (map (fun r => JObj [("kind", JStr (pr_kind r)); ("status", JStr (pr_status r));
                                              ("detail", JStr (pr_detail r))]) (de_checks d)));
        ("healthy", JBool (desk_healthy d))].

Definition peer_json (p : peer_entry) : json :=
  JObj [("peer", pe_peer p); ("reachable", JBool (pe_reachable p)); ("probes", JList (map to_dict (pe_probes p)));
        ("desks", JObj (map (fun d => (de_desk d, desk_json d)) (pe_desks p))); ("healthy", JBool (peer_healthy p))].

Definition rollup (results : list ProbeResult) : res exn obj :=
  _ ← mapE (fun r => hashable (pr_peer r)) results;
  let peers := grouped results in
  Ok [("healthy", JBool (forallb peer_healthy peers)); ("peers", JList (map peer_json peers))].

(** ** The commands: the payload and the exit code *)

Definition exit_code (payload : obj) : Z := if truthy (jget "healthy" payload) then 0 else 1.

Definition status : W (obj * Z) :=
  peers ← load_peers;
  match peers with
  | [] => mret ([("healthy", JBool true); ("peers", JList [])], 0)
  | _ =>
      all_results ← mapM probe_peer peers;
      payload ← lift (rollup (concat all_results));
      mret (payload, exit_code payload)
  end.

(** The configured peer of this host; no configuration is none. *)
Definition find_peer (h : string) : W (option PeerSpec) :=
  catch (peers ← load_peers; mret (List.find (fun p => str_eq_json h (host p)) peers))
        (fun e => match e with WsError _ _ => mret None | e => throw e end).

Definition ad_hoc_peer (h : string) (desk user : option string) (found : option PeerSpec) : PeerSpec :=
  let user_given := match user with Some u => negb (is_empty u) | None => false end in
  match found with
  | None => mkPeer (JStr h) (opt_str user)
              (match desk with Some d => if is_empty d then ALL_DESKS else JList [JStr d] | None => ALL_DESKS end)
  | Some p => if user_given then mkPeer (host p) (opt_str user) (desks p) else p
  end.

Definition probe_one_desk (peer : PeerSpec) (desk : string) : W (list ProbeResult) :=
  d ← probe_daemon peer;
  if pr_status d =s "unreachable" then mret [d]
  else per_desk ← probe_desk peer (JStr desk); mret (d :: per_desk).

Definition probe (h : string) (desk user : option string) : W (obj * Z) :=
  found ← find_peer h;
  let peer := ad_hoc_peer h desk user found in
  results ← match desk with
            | Some d => if is_empty d then probe_peer peer else probe_one_desk peer d
            | None => probe_peer peer
            end;
  payload ← lift (rollup results);
  mret (payload, exit_code payload).
End Harbors.

(** * Theorems

    Harbors: what the roll-up calls healthy, what the peer's shell reads, and what the roll-up misses. *)

(** ** The roll-up *)

Definition about_desk (r : ProbeResult) : bool := match pr_desk r with Some d => negb (is_empty d) | None => false end.

(** A probe that reached its peer and, if it is about a desk, passed. *)
Definition sound (r : ProbeResult) : bool := negb (pr_status r =s "unreachable") && (negb (about_desk r) || check_ok r).

Lemma add_check_healthy desk r ds :
  forallb desk_healthy (add_check desk r ds) = forallb desk_healthy ds && check_ok r.
Proof.
  induction ds as [|d ds IH]; cbn -[desk_healthy].
  - unfold desk_healthy. cbn. by rewrite !andb_true_r.
  - destruct (desk =s de_desk d); cbn -[desk_healthy].
    + unfold desk_healthy at 1. cbn [de_checks]. rewrite forallb_app. cbn [forallb]. rewrite andb_true_r.
      fold (desk_healthy d). by rewrite <- !andb_assoc, (andb_comm (check_ok r)).
    + by rewrite IH, andb_assoc.
Qed.

Lemma note_result_healthy r p : peer_healthy (note_result r p) = peer_healthy p && sound r.
Proof.
  unfold peer_healthy, note_result, sound, about_desk. cbn [pe_reachable pe_desks].
  destruct (pe_reachable p); [|done]. rewrite !andb_true_l.
  destruct (pr_desk r) as [desk|]; [destruct (is_empty desk)|]; cbn [negb orb];
    [|rewrite add_check_healthy|]; destruct (pr_status r =s "unreachable"), (forallb desk_healthy (pe_desks p)); done.
Qed.

Lemma add_result_healthy r ps : forallb peer_healthy (add_result r ps) = forallb peer_healthy ps && sound r.
Proof.
  induction ps as [|p ps IH]; cbn -[peer_healthy].
  - rewrite note_result_healthy. by rewrite andb_true_r.
  - destruct (same_key (pr_peer r) (pe_peer p)); cbn -[peer_healthy].
    + rewrite note_result_healthy. by rewrite <- !andb_assoc, (andb_comm (sound r)).
    + by rewrite IH, andb_assoc.
Qed.

Lemma grouped_healthy results : forallb peer_healthy (grouped results) = forallb sound results.
Proof.
  unfold grouped. change (forallb sound results) with (forallb peer_healthy [] && forallb sound results).
  generalize (@nil peer_entry). induction results as [|r rs IH]; intros ps; cbn -[peer_healthy]; [by rewrite andb_true_r|].
  by rewrite IH, add_result_healthy, andb_assoc.
Qed.

Lemma sound_iff r : sound r = true <->
  pr_status r <> "unreachable" /\ (forall desk, pr_desk r = Some desk -> desk <> "" -> pr_status r = "ok").
Proof.
  unfold sound, about_desk, check_ok. destruct (String.eqb_spec (pr_status r) "unreachable") as [->|Hu]; cbn [negb andb].
  - split; [done|]. by intros [].
  - destruct (pr_desk r) as [d|]; cbn [negb orb].
    + destruct (is_empty d) eqn:Ed; cbn [negb orb].
      * apply is_empty_true in Ed as ->. split; [|done]. intros _. split; [done|]. by intros desk [= <-].
      * assert (d <> "") by (by intros ->). destruct (String.eqb_spec (pr_status r) "ok") as [Eo|Eo].
        -- split; [|done]. intros _. split; [done|]. by intros desk _ _.
        -- split; [done|]. intros [_ Hd]. exfalso. apply Eo. by apply (Hd d).
    + split; [|done]. intros _. split; [done|]. by intros desk [=].
Qed.

(** The roll-up of [ws harbors] calls the harbors healthy, and the command exits with code 0, exactly if no
    probe found its peer unreachable and every probe about a desk passed, however the results are mixed
    among peers and desks. A probe of the peer itself that failed is not counted. *)
Theorem rollup_healthy_iff results payload : rollup results = Ok payload ->
  exit_code payload = 0 <-> forall r, In r results ->
    pr_status r <> "unreachable" /\ (forall desk, pr_desk r = Some desk -> desk <> "" -> pr_status r = "ok").
Proof.
  unfold rollup. intros (u & _ & [= <-])%res_bind_ok. unfold exit_code. cbn [jget assoc String.eqb Ascii.eqb Bool.eqb truthy].
  rewrite grouped_healthy. transitivity (forallb sound results = true); [by destruct (forallb sound results)|].
  rewrite forallb_forall. split; intros Hall r Hr; specialize (Hall r Hr); revert Hall; apply sound_iff.
Qed.

Definition demo_result (desk : option string) (kind status : string) : ProbeResult :=
  mkProbe (JStr "hetzner") desk kind status "" 5 JNull.

Example rollup_healthy_iff_witness :
  let r := rollup [demo_result None "daemon" "ok"; demo_result None "desks" "ok";
                   demo_result (Some "web") "deskwatch" "ok"; demo_result (Some "web") "cc_liveness" "failed"] in
  exists payload, r = Ok payload /\ exit_code payload = 1
    /\ ~ (forall x, In x [demo_result (Some "web") "cc_liveness" "failed"] ->
          pr_status x <> "unreachable" /\ (forall desk, pr_desk x = Some desk -> desk <> "" -> pr_status x = "ok")).
Proof.
  eexists. split; [vm_compute; reflexivity|]. split; [reflexivity|]. intros Hall.
  assert (exists p, rollup [demo_result (Some "web") "cc_liveness" "failed"] = Ok p /\ exit_code p = 1) as (p & Ep & E1)
    by (eexists; split; [vm_compute; reflexivity|reflexivity]).
  pose proof (proj2 (rollup_healthy_iff _ _ Ep) Hall) as E0. rewrite E0 in E1. discriminate E1.
Defined.

(** A harbor whose daemon and whose [ws list] fail is healthy. *)
Example failed_peer_is_healthy : exists payload,
  rollup [demo_result None "daemon" "failed"; demo_result None "desks" "failed"] = Ok payload /\ exit_code payload = 0.
Proof. eexists. split; [vm_compute; reflexivity|reflexivity]. Qed.

(** ** The peer's shell *)

(** Whatever the name of a desk holds, the peer's shell reads it as one word of the probe's command: a peer
    that lists a desk with a hostile name gets no command of its own run. *)
Theorem probe_commands_keep_words desk :
  sh_words (deskwatch_command desk) = Some ["ws"; "deskwatch"; desk; "--json"]
  /\ sh_words (liveness_command desk) = Some ["ws"; "exec"; desk; "--"; "timeout"; "30"; "claude"; "-p"; ":"].
Proof.
  unfold sh_words, deskwatch_command, liveness_command. split; cbn -[shlex_quote]; rewrite lex_quote; reflexivity.
Qed.

(** ** A dead session *)

Section Dead.
Context `{Env} (ssh_ms : list call -> call -> Z).

(** When Claude does not answer inside the desk within its half minute, [timeout] exits with 124 and ssh
    with it: the probe says that the peer was unreachable, the text for this case is never written, and the roll-up
    takes the whole peer as unreachable. *)
Theorem dead_session_is_unreachable peer desk target w stdout stderr :
  ssh_target peer = JStr target ->
  subprocess_run (w_calls w) (ssh_call target (liveness_command desk) CC_PROBE_TIMEOUT) = Ran 124 stdout stderr ->
  exists r w', probe_cc_liveness ssh_ms peer desk w = (Ok r, w') /\ pr_status r = "unreachable".
Proof.
  intros Et Er. unfold probe_cc_liveness, _run_ssh. rewrite Et. cbn [str_arg]. rewrite !bind_bind, lift_bind, !bind_bind, gets_bind.
  unfold run. unfold mbind at 1 2, M_bind. rewrite Er. cbn. eauto.
Qed.
End Dead.
